(* ===== verification/_CoqProject ===== *)
-Q . S2P
Prelude.v
GoText.v
GoPath.v
Sha256.v
GoFloat.v
GoJson.v
GoIndent.v
GoValue.v
GoStruct.v
GoUnicode.v
GoTime.v
GoDuration.v
Push.v
Encrypt.v
Canonicalize.v
Event.v
HashChain.v
Bundle.v
BundleIO.v
Rooted.v
BundleSign.v
Profiles.v
Templates.v
Policy.v
Verify.v
Score.v
ProfileLoader.v
AnchorClassify.v
Report.v
VerifyReport.v
TrustReport.v
TrustGate.v
VerifyCLI.v
PushCLI.v
Ledger.v
Journal.v
Checkpoint.v
Config.v
Archive.v
Reconcile.v
Chatlog.v
CaptureStore.v
Capture.v
CaptureRecovery.v
CaptureStatus.v
Locator.v
ToolCalls.v
Identity.v
ProxyEvents.v
Sessions.v
Forward.v
SessionIndex.v
Incident.v
Oversight.v
Agent.v
Mutate.v
