(* ===== verification/Prelude.v ===== *)
(** * ATB: a verification development (root file)

    ATB records the activity of AI agents in bundles: NDJSON files whose first record is
    a manifest and whose records are linked by SHA-256 hashes of canonical JSON. This
    library models the part of the program that makes, writes, reads, signs, verifies,
    reports on, uploads and archives bundles, the paths by which evidence comes in (the
    intercept proxy with its durable capture, the local agent, imported chat logs), and
    the commands around them, and proves what the documentation claims of it. Definitions
    keep the names of the Go code under [internal/] and [cmd/atb/]; every definition is
    executable and the witnesses evaluate it.

    ** The parts and their files

    The ground the program stands on, Go's standard library as far as it is used:
    - this file: results ([result], for Go's value and error pairs), list and string
      lemmas, the tactics of the development;
    - GoText.v: UTF-8, [strings.TrimSpace], hexadecimal and decimal text;
    - GoPath.v: [path/filepath] on Unix: [Clean], [Join], [Rel], [IsLocal];
    - Sha256.v: SHA-256;
    - GoFloat.v: float64, its shortest decimal form and its parser;
    - GoJson.v, GoIndent.v, GoValue.v, GoStruct.v: [encoding/json]: the text, indented
      text, dynamic values, and structs with their tags;
    - GoUnicode.v, GoTime.v: case folding, quoting and RFC 3339 time stamps. The tables
      of package [unicode] beyond ASCII are an argument ([Unicode]);
    - GoDuration.v: [time.ParseDuration].

    The program:
    - Canonicalize.v: [internal/canonicalize]: canonical JSON. Equal values and only
      those have equal canonical bytes; canonical bytes decode to what was written.
    - Event.v: [internal/event]: events and their provenance, with their encoding.
    - HashChain.v: [internal/hash]: [Compute], [Chain], [Verify], and [linked], the
      abstract chain. The bytes under a hash determine the event.
    - Bundle.v: [internal/bundle]: construction, append, manifests, [Verify]. [Verify]
      accepts exactly the linked chains; two bundles that verify to the same head carry
      the same events or exhibit a collision of SHA-256.
    - BundleIO.v: the same package's files: [Load] under its limits, [Save] through
      [writeAtomic], [LoadVerified], the lock. Saving is atomic at every system call;
      a saved bundle reads back.
    - Rooted.v: [internal/bundle/rooted.go]: the same below a directory ([os.Root]). A
      path that is accepted names something below it.
    - Encrypt.v: [internal/encrypt]: the format of encrypted bundles. What is encrypted
      decrypts; the cipher is an argument.
    - BundleSign.v: [internal/bundle/sign.go], [internal/sign/bundle.go] and
      [internal/verify/bundle_signature.go]: signature records. What is signed verifies;
      what verifies was signed over exactly the bytes before the record.
    - Profiles.v: [internal/profiles]: obligation profiles. Validation accepts exactly the
      well-formed schemas; a profile passes exactly when its obligations are met.
    - Policy.v: [internal/sign/policy.go] and the signing steps of [atb append]: what is
      signed verifies after it was stored and read back.
    - Templates.v: the six obligation profiles embedded in the program, as data; they
      load and validate.
    - Verify.v: [internal/verify/verify.go] and [profiles.go]: profile results and the
      checks of policy signatures.
    - Score.v: [internal/verify/profiles.go] and [snapshot_checks.go], [corroboration.go]:
      the sub-scores of each profile and the assurance score. When a built-in profile
      passes, the parts of its score that restate its obligations are full.
    - AnchorClassify.v: [internal/verify/anchor_classify.go]: the state of the time
      stamps of a bundle. A verified anchor binds exactly the records before it.
    - Report.v: [internal/verify/verify.go], [evaluate.go], [provability_gaps.go]: the
      reports of [atb verify]. Assurance is granted exactly when its conditions hold, and
      a report depends on the order of Go's maps only in its numbers.
    - ProfileLoader.v: [internal/verify/profile_loader.go]: profile files in their three
      formats, and what a profile name resolves to.
    - VerifyReport.v, TrustReport.v: [internal/verify/report.go] and [trust_report.go]:
      the two documents derived from an evaluation. Their verdicts, gates and lists of
      obligations agree with it.
    - TrustGate.v: [internal/trust]: the trust gate. It passes exactly when a bundle is
      loaded with an intact chain and no blocking check fails.
    - Ledger.v: [internal/archive/ledger.go]: the archive ledger.
    - Journal.v: [internal/capturejournal]: the observation journal with its repair.
      Acknowledged observations survive every crash and every failing call but one: a
      repair that cannot read the file a second time empties it, and the theorems on runs
      leave that out ([repair_reads]), with entries of a negative format version.
    - Checkpoint.v: [internal/acquisition/checkpoint.go], [checkpoint_integration.go].
    - Reconcile.v: [internal/acquisition/reconcile.go], [import_integration.go]:
      importing the same source twice writes nothing the second time.
    - CaptureStore.v, Capture.v, CaptureRecovery.v: [internal/proxy/capture.go] and
      [recorder.go]: the commit protocol that joins journal, bundle and checkpoint.
      CaptureStore.v states what the protocol needs of its two files as a class and
      proves it of the file system; Capture.v has the protocol over the class;
      CaptureRecovery.v proves it crash-consistent, that recovery completes, and that an
      acknowledged observation is recorded exactly once, for the runs of [capture_run]:
      the journal's repairs read ([repair_reads]), the events are ones a bundle can hold
      ([accepts]), and the journal and the bundle stay within their limits ([capacity]).

    The intercept proxy in front of the recorder, and what a reviewer is shown:
    - Identity.v: [internal/identity]: who an API key stands for.
    - ToolCalls.v: [internal/proxy/toolcalls.go] and the body parsers of [session.go]:
      tool calls, failed results, usage and model. The arguments read from a stream are
      the fragments, each trimmed.
    - ProxyEvents.v: [config.go], [types.go] and the pure part of [session.go]: the
      configuration, bounded bodies, recorded headers, and the events.
    - Sessions.v: the session manager of [session.go] with the recorder it appends to:
      sessions as shared objects, and the interleavings of handlers, idle timers, [Stop]
      and [Start] as a step relation. A closed session is offered to the recorder once;
      until a shutdown that is its close record unless the append fails, and the map leads
      to the live sessions. [Stop] can refuse the record of a session it does not wait for.
    - Forward.v: [forward.go], [handler.go]: what is captured of an exchange, and the two
      handlers that decide it. [Recorder] is the interface to the recorder. Bodies and
      credentials stay out of the evidence, and an exchange leaves evidence on every path.
    - SessionIndex.v: [internal/sessionindex]: the sessions of a bundle in the order of
      their first events, with their anomaly flags; a flag is raised exactly when the
      events show its cause.
    - Incident.v: [internal/incident], [internal/identityevidence]: the incident pack of
      a session; its findings point at the events that raise the flags.
    - Oversight.v: the proxy and the index together: the actor of a captured request.
    - CaptureStatus.v: [internal/proxy/status.go] and [handoff.go]: the offline status of
      a capture and the reference to one record. A capture that was recovered is reported
      healthy.
    - Locator.v: [internal/locator]: evidence references. The parser accepts what is
      printed; the reference of a handoff resolves to its record.

    The other ways in and out, and the commands:
    - Chatlog.v: [internal/capture/chatlog.go] and [ImportChatlog]: chat logs, read,
      grouped into exchanges, turned into events and imported. The events are bound to the
      lines they come from; importing again changes nothing.
    - Agent.v: [internal/agent]: the session manager with its files and the capture
      handlers. Acknowledged events stay in the file, whatever fails.
    - Push.v: [internal/push]: names, the S3 and the queue pusher.
    - VerifyCLI.v: [cmd/atb/verify.go], [anchor.go], [exit_codes.go]: the command
      [atb verify], local and remote, from its arguments to the exit code. It exits with 0
      exactly under the conditions of [verify_exits_zero].
    - PushCLI.v: [cmd/atb/push.go] and [internal/retentionaudit]: [atb push]. What it
      stores is found again by [atb verify --remote].
    - Config.v: [cmd/atb/config.go]: the configuration and [atb config retention]: the
      policy is set and its audit event written, or the file is as it was. A save of the
      audit bundle that fails after it put the bundle in place leaves the event behind.
    - Archive.v: [cmd/atb/archive.go]: [atb archive]. No bundle is lost while the
      destinations differ, and the ledger lists what was moved.
    - Mutate.v: [cmd/atb/main.go], [snapshot.go], [lock_wait.go], [internal/corroboration]:
      [atb init], [append], [corroborate] and [snapshot]. Each adds one record or leaves
      the bundle as it was, and the bundle verifies whatever interleaves; commands that
      overlap lose records, because the lock covers the write and not the read.

    ** How state and failure are modelled

    Values and errors are [result]; the error types keep the sentinels a caller can
    distinguish. A file system is a [gmap] from paths to contents and modes, and an
    operation that writes returns the list of states it passes through, so a crash is a
    state of that list. Which system calls fail, how many bytes an interrupted write
    leaves, random bytes and clock readings are arguments ([save_env], [append_env],
    [open_env], [env]); the theorems hold for all of them, and those that promise
    success ask that none fails. The order in which Go visits a map is unspecified: where
    the result can depend on it, the order is an instance of the class [RangeOrder], and
    a theorem holds for every instance. Floats are IEEE doubles, each operation rounded
    (as on amd64, where the compiler fuses none). Runs are inductive relations ([built], [grown],
    [capture_run] and the like), and the invariants are proved by induction on them.
    Integers are [Z] with the wrap-around of [int64] written out where the code can
    reach it.

    ** Bounds and fuel

    The JSON decoder recurses to [max_nesting_depth], the limit of Go's decoder; the
    decimal printer of a float64 and the lock's retry loop take fuel that the lemmas
    beside them show to be enough. The capture theorems take a number [limit] below
    which every sequence number has a canonical form ([seq_ok], decided by computation)
    and ask that a run stays within the limits of the bundle format ([capacity]).

    ** What is not assumed

    SHA-256 is executable; no theorem assumes that it has no collisions, the ones that
    need it give back the two colliding inputs. The signature schemes ed25519 and ECDSA
    are an interface ([Crypto]); the theorems that need it take as a hypothesis that what
    a key signs verifies.

    ** What is not modelled

    The commands other than [init], [append], [corroborate], [snapshot], [verify], [push],
    [config retention] and [archive], and of these the text they print; the JSON values of reports
    and results are modelled, their rendering as text, Markdown or HTML is not. Servers:
    [pkg/api], [internal/mcp], and of [internal/agent] the HTTP decoding. The proxy's
    connections and TLS certificates (what came over them is an argument of the handlers),
    the HTTP client of [internal/push] (the store is an argument), cloud key management
    and remote signers, the key files of encrypted bundles, the translation of
    OpenTelemetry spans and of context lineage: input and output over third-party
    protocols or their formats. The verification of an RFC 3161 token ([internal/anchor]:
    ASN.1, X.509) is the argument [VerifyTokenDetailed]. Evidence and compliance packs are
    archives and rendered documents over the packages above. The text of error messages is
    not modelled, except where the program stores it. Concurrency: the proxy's handlers, timers
    and shutdown interleave in Sessions.v, at the points where they give up a lock, and the
    commands of Mutate.v as processes, between the read and the write of a bundle; the other
    theorems have the files to themselves. *)

From Stdlib Require Export ZArith Lia Bool Ascii String.
From stdpp Require Export base gmap sets strings sorting option list.

#[export] Set Default Goal Selector "1".

Open Scope string_scope.
Open Scope list_scope.
Open Scope Z_scope.

(** ** Results: Go's (value, error) pairs *)

(** A Go function that returns a value and an error returns one of the two in
    every function modelled here, so the pair is a sum. *)
Inductive result (E A : Type) : Type :=
| Ok (a : A)
| Err (e : E).
Arguments Ok {E A} a.
Arguments Err {E A} e.

Declare Scope go_scope.
Delimit Scope go_scope with go.

Notation "'let?' x ':=' c 'in' k" :=
  (match c with Ok x => k | Err e => Err e end)
  (at level 10, x pattern, c at level 100, k at level 200,
   format "'let?'  x  ':='  c  'in' '//' k") : go_scope.
Open Scope go_scope.

Lemma Ok_inj {E A} (a b : A) : @Ok E A a = Ok b -> a = b.
Proof. by intros [= ->]. Qed.

Definition is_ok {E A} (r : result E A) : bool :=
  match r with Ok _ => true | Err _ => false end.

Definition get_ok {E A} (d : A) (r : result E A) : A :=
  match r with Ok a => a | Err _ => d end.

Lemma get_ok_spec {E A} (d : A) (r : result E A) : is_ok r = true -> r = Ok (get_ok d r).
Proof. by destruct r. Qed.

Definition map_err {E E' A} (f : E -> E') (r : result E A) : result E' A :=
  match r with Ok a => Ok a | Err e => Err (f e) end.

#[export] Instance result_eq_dec {E A} `{EqDecision E, EqDecision A} :
  EqDecision (result E A).
Proof. solve_decision. Defined.

(** ** Tactics of the development *)

Create HintDb atb.
Create Rewrite HintDb atb.

(** Split every [let?] and boolean test that blocks a hypothesis or the goal. *)
Ltac step_result :=
  match goal with
  | H : (match ?c with Ok _ => _ | Err _ => _ end) = _ |- _ =>
      let E := fresh "E" in destruct c eqn:E; simplify_eq/=
  | H : (match ?c with Some _ => _ | None => _ end) = _ |- _ =>
      let E := fresh "E" in destruct c eqn:E; simplify_eq/=
  | H : (if ?c then _ else _) = _ |- _ =>
      let E := fresh "E" in destruct c eqn:E; simplify_eq/=
  end.
Ltac step_results := repeat step_result.

(** Turn boolean comparisons in the context into propositions. *)
Ltac boolify :=
  repeat match goal with
  | H : (_ && _)%bool = true |- _ => apply andb_true_iff in H as [? ?]
  | H : (_ || _)%bool = false |- _ => apply orb_false_iff in H as [? ?]
  | H : negb _ = true |- _ => apply negb_true_iff in H
  | H : negb _ = false |- _ => apply negb_false_iff in H
  | H : (_ =? _)%Z = true |- _ => apply Z.eqb_eq in H
  | H : (_ =? _)%Z = false |- _ => apply Z.eqb_neq in H
  | H : (_ <? _)%Z = true |- _ => apply Z.ltb_lt in H
  | H : (_ <? _)%Z = false |- _ => apply Z.ltb_ge in H
  | H : (_ <=? _)%Z = true |- _ => apply Z.leb_le in H
  | H : (_ <=? _)%Z = false |- _ => apply Z.leb_gt in H
  | H : (_ =? _)%nat = true |- _ => apply Nat.eqb_eq in H
  | H : (_ =? _)%nat = false |- _ => apply Nat.eqb_neq in H
  | H : bool_decide _ = true |- _ => apply bool_decide_eq_true in H
  | H : bool_decide _ = false |- _ => apply bool_decide_eq_false in H
  | H : String.eqb _ _ = true |- _ => apply String.eqb_eq in H
  | H : String.eqb _ _ = false |- _ => apply String.eqb_neq in H
  end.

(** ** Bytes and strings

    A Go [string] is a Rocq [string], whose characters are bytes; a Go [[]byte]
    is a list of the same bytes. [B] and [S] are Go's conversions. *)
Abbreviation bytes := (list ascii).

Definition B (s : string) : bytes := list_ascii_of_string s.
Definition S_of (b : bytes) : string := string_of_list_ascii b.

Lemma B_S_of b : B (S_of b) = b.
Proof. apply list_ascii_of_string_of_list_ascii. Qed.

Lemma S_of_B s : S_of (B s) = s.
Proof. apply string_of_list_ascii_of_string. Qed.

#[export] Hint Rewrite B_S_of S_of_B : atb.

Lemma B_inj s t : B s = B t -> s = t.
Proof. intros H. by rewrite <- (S_of_B s), <- (S_of_B t), H. Qed.

Lemma S_of_inj a b : S_of a = S_of b -> a = b.
Proof. intros H. by rewrite <- (B_S_of a), <- (B_S_of b), H. Qed.

Lemma B_app s t : B (s ++ t)%string = B s ++ B t.
Proof. induction s as [|c s IH]; [done|]. 
  change (c :: B (s ++ t)%string = c :: (B s ++ B t)). by rewrite IH.
Qed.

Lemma length_S_of b : String.length (S_of b) = length b.
Proof.
  induction b as [|c b IH]; [done|].
  change (S (String.length (S_of b)) = S (length b)). by rewrite IH.
Qed.

Lemma length_B s : length (B s) = String.length s.
Proof. by rewrite <- (S_of_B s) at 2; rewrite length_S_of. Qed.

Lemma B_nil_inv s : B s = [] -> s = "".
Proof. by destruct s. Qed.

(** The code of a byte, and the byte of a code. *)
Definition code (c : ascii) : Z := Z.of_N (N_of_ascii c).
Definition chr (z : Z) : ascii := ascii_of_N (Z.to_N z).

Lemma code_range c : 0 <= code c < 256.
Proof. unfold code. pose proof (N_ascii_bounded c). lia. Qed.

Lemma chr_code c : chr (code c) = c.
Proof. unfold chr, code. by rewrite N2Z.id, ascii_N_embedding. Qed.

Lemma code_chr z : 0 <= z < 256 -> code (chr z) = z.
Proof.
  intros Hz. unfold chr, code. rewrite N_ascii_embedding by lia. by rewrite Z2N.id by lia.
Qed.

Lemma code_inj c d : code c = code d -> c = d.
Proof. intros H. by rewrite <- (chr_code c), <- (chr_code d), H. Qed.

Lemma chr_inj x y : 0 <= x < 256 -> 0 <= y < 256 -> chr x = chr y -> x = y.
Proof. intros ?? H. by rewrite <- (code_chr x), <- (code_chr y), H by lia. Qed.

#[export] Hint Resolve code_range : atb.

(** ** Lexicographic order on code sequences *)
Fixpoint lex_ltb (a b : list Z) : bool :=
  match a, b with
  | _, [] => false
  | [], _ :: _ => true
  | x :: a', y :: b' => if x =? y then lex_ltb a' b' else x <? y
  end.

Ltac lex_cases :=
  repeat match goal with
  | H : context [if ?x =? ?y then _ else _] |- _ => destruct (Z.eqb_spec x y); subst
  | |- context [if ?x =? ?y then _ else _] => destruct (Z.eqb_spec x y); subst
  end.

Lemma lex_ltb_asym a b : lex_ltb a b = true -> lex_ltb b a = false.
Proof. revert b. induction a as [|x a IH]; intros [|y b]; cbn; lex_cases; auto; lia. Qed.

Lemma lex_le_trans a b c :
  lex_ltb b a = false -> lex_ltb c b = false -> lex_ltb c a = false.
Proof.
  revert b c. induction a as [|x a IH]; intros [|y b] [|z c]; cbn; lex_cases;
    intros; try done; try lia; eauto.
Qed.

Lemma lex_le_antisym a b : lex_ltb a b = false -> lex_ltb b a = false -> a = b.
Proof.
  revert b. induction a as [|x a IH]; intros [|y b]; cbn; lex_cases; intros; try done; try lia.
  f_equal. auto.
Qed.

(** Go's [<] on strings: by bytes. *)
Definition string_ltb (a b : string) : bool := lex_ltb (code <$> B a) (code <$> B b).

Lemma codes_inj a b : code <$> B a = code <$> B b -> a = b.
Proof.
  intros H. apply B_inj. revert H. generalize (B a) (B b). clear a b.
  induction l as [|c l IH]; intros [|d l']; cbn; intros H; simplify_eq; [done|].
  f_equal; [by apply code_inj|by apply IH].
Qed.

(** ** Insertion sort with a boolean [less], as [sort.Slice] uses it *)
Section insertion_sort.
Context {A : Type} (less : A -> A -> bool).

Fixpoint insert_sorted (x : A) (l : list A) : list A :=
  match l with
  | [] => [x]
  | y :: t => if less x y then x :: y :: t else y :: insert_sorted x t
  end.

Definition insertion_sort (l : list A) : list A :=
  fold_left (fun acc x => insert_sorted x acc) l [].

Lemma insert_sorted_perm x l : insert_sorted x l ≡ₚ x :: l.
Proof.
  induction l as [|y t IH]; cbn; [done|].
  destruct (less x y); [done|]. rewrite IH. apply Permutation_swap.
Qed.

Lemma insertion_sort_acc_perm l acc :
  fold_left (fun acc x => insert_sorted x acc) l acc ≡ₚ l ++ acc.
Proof.
  revert acc. induction l as [|x l IH]; intros acc; [done|]. cbn.
  rewrite IH, insert_sorted_perm. by rewrite Permutation_middle.
Qed.

Lemma insertion_sort_perm l : insertion_sort l ≡ₚ l.
Proof. unfold insertion_sort. rewrite insertion_sort_acc_perm. by rewrite app_nil_r. Qed.

Lemma insertion_sort_nil l : insertion_sort l = [] <-> l = [].
Proof.
  split; [|by intros ->]. intros E. apply Permutation_nil. rewrite <- E. apply insertion_sort_perm.
Qed.

(** [le_of less] is "not greater": the order a sorted slice satisfies. *)
Definition le_of (x y : A) : Prop := less y x = false.

Hypothesis less_asym : forall x y, less x y = true -> less y x = false.
Hypothesis le_of_trans : forall x y z, le_of x y -> le_of y z -> le_of x z.

Lemma insert_sorted_sorted x l :
  StronglySorted le_of l -> StronglySorted le_of (insert_sorted x l).
Proof.
  induction 1 as [|y t Ht IH Hy]; cbn; [repeat constructor|].
  destruct (less x y) eqn:E.
  - assert (le_of x y) by (red; auto).
    constructor; [by constructor|]. constructor; [done|].
    eapply Forall_impl; [exact Hy|]. intros z Hz. by eapply le_of_trans.
  - constructor; [done|]. rewrite insert_sorted_perm. by constructor.
Qed.

Lemma insertion_sort_sorted l : StronglySorted le_of (insertion_sort l).
Proof.
  unfold insertion_sort.
  enough (forall acc, StronglySorted le_of acc ->
    StronglySorted le_of (fold_left (fun acc x => insert_sorted x acc) l acc)) as H
    by (apply H; constructor).
  induction l as [|x l IH]; intros acc Hacc; [done|]. cbn.
  by apply IH, insert_sorted_sorted.
Qed.
End insertion_sort.

(** ** Generic lemmas on lists *)

Lemma StronglySorted_perm_unique {A} (R : A -> A -> Prop) l1 l2 :
  (forall x y, x ∈ l1 -> y ∈ l1 -> R x y -> R y x -> x = y) ->
  StronglySorted R l1 -> StronglySorted R l2 -> l1 ≡ₚ l2 -> l1 = l2.
Proof.
  intros Hanti H1. revert l2 Hanti.
  induction H1 as [|x l1 H1 IH Hx]; intros l2 Hanti H2 Hp.
  { by apply Permutation_nil_l in Hp. }
  destruct H2 as [|y l2 H2 Hy]; [by apply Permutation_nil_r in Hp|].
  assert (x = y) as ->.
  { assert (x ∈ y :: l2) as Hxin by (rewrite <- Hp; apply list_elem_of_here).
    assert (y ∈ x :: l1) as Hyin by (rewrite Hp; apply list_elem_of_here).
    apply elem_of_cons in Hxin as [?|Hxin]; [done|].
    pose proof Hyin as Hyin'. apply elem_of_cons in Hyin' as [?|Hyin']; [done|].
    rewrite Forall_forall in Hx, Hy.
    apply Hanti; [apply list_elem_of_here|done|by apply Hx|by apply Hy]. }
  f_equal. apply IH; [|done|by apply Permutation_cons_inv in Hp].
  intros a b Ha Hb. apply Hanti; by apply list_elem_of_further.
Qed.

Lemma app_inj_length {A} (a b c d : list A) :
  length a = length b -> a ++ c = b ++ d -> a = b /\ c = d.
Proof. apply app_inj_1. Qed.

(** Two texts over an alphabet, each followed by the end or by a byte outside the
    alphabet, agree when the whole inputs do. *)
Lemma span_unique {A} (P : A -> Prop) (a b r r' : list A) :
  Forall P a -> Forall P b ->
  (forall x t, r = x :: t -> ~ P x) -> (forall x t, r' = x :: t -> ~ P x) ->
  a ++ r = b ++ r' -> a = b /\ r = r'.
Proof.
  revert b. induction a as [|x a IH]; intros b Ha Hb Hr Hr' Heq.
  - destruct b as [|y b]; [done|]. cbn in Heq. inversion Hb; subst.
    exfalso. eapply Hr; eauto.
  - inversion Ha; subst. destruct b as [|y b]; cbn in Heq.
    + exfalso. symmetry in Heq. eapply Hr'; eauto.
    + inversion Hb; simplify_eq/=. destruct (IH b) as [-> ->]; auto.
Qed.

Lemma last_cons_app {A} (l : list A) x : last (l ++ [x]) = Some x.
Proof. apply last_snoc. Qed.

Lemma lookup_take_lt_eq {A} (l : list A) n i : (i < n)%nat -> take n l !! i = l !! i.
Proof. intros ?. by rewrite lookup_take_lt. Qed.

Lemma mjoin_fmap_cons {A C} (f : A -> list C) x (l : list A) :
  mjoin (f <$> x :: l) = f x ++ mjoin (f <$> l).
Proof. done. Qed.

(** Sorting by a key whose values are distinct gives the same slice for every order
    of the input. *)
Section sort_by_key.
Context {A : Type} (key : A -> list Z).
Let less (x y : A) : bool := lex_ltb (key x) (key y).

Lemma sort_by_key_sorted l : StronglySorted (le_of less) (insertion_sort less l).
Proof.
  apply insertion_sort_sorted.
  - intros x y. apply lex_ltb_asym.
  - intros x y z. unfold le_of, less. eauto using lex_le_trans.
Qed.

Lemma sort_by_key_unique l l' :
  (forall x y, x ∈ l -> y ∈ l -> key x = key y -> x = y) -> l ≡ₚ l' ->
  insertion_sort less l = insertion_sort less l'.
Proof.
  intros Hinj Hp. apply (StronglySorted_perm_unique (le_of less)).
  - intros x y. rewrite !insertion_sort_perm. intros Hx Hy H1 H2.
    apply Hinj; [done|done|]. by apply lex_le_antisym.
  - apply sort_by_key_sorted.
  - apply sort_by_key_sorted.
  - by rewrite !insertion_sort_perm.
Qed.
End sort_by_key.

Lemma sort_strings_unique l l' : l ≡ₚ l' -> insertion_sort string_ltb l = insertion_sort string_ltb l'.
Proof. apply (sort_by_key_unique (fun s => code <$> B s)). intros x y _ _. apply codes_inj. Qed.

Lemma insertion_sort_ext {A} (less less' : A -> A -> bool) l :
  (forall x y, less x y = less' x y) -> insertion_sort less l = insertion_sort less' l.
Proof.
  intros He. unfold insertion_sort. generalize (@nil A). induction l as [|x l IH]; intros acc; [done|]. cbn [fold_left].
  rewrite IH. f_equal. induction acc as [|y acc IHacc]; [done|]. cbn. by rewrite He, IHacc.
Qed.

(** Two strings as one key: the separator is below every byte. *)
Definition pair_key (a b : string) : list Z := (code <$> B a) ++ -1 :: (code <$> B b).

Lemma pair_key_ltb a b c d :
  lex_ltb (pair_key a b) (pair_key c d) = if String.eqb a c then string_ltb b d else string_ltb a c.
Proof.
  unfold pair_key, string_ltb. destruct (String.eqb_spec a c) as [->|Hne].
  - generalize (B c). intros l. induction l as [|x l IH]; [done|]. cbn [fmap list_fmap app lex_ltb].
    by rewrite Z.eqb_refl.
  - assert (B a <> B c) as HB by (intros E; by apply Hne, B_inj). clear Hne. revert HB. generalize (B a) (B c). clear a c.
    induction l as [|x l IH]; intros [|y l'] Hne; cbn [fmap list_fmap app lex_ltb]; [done| | |].
    + pose proof (code_range y). destruct (Z.eqb_spec (-1) (code y)); [lia|]. apply Z.ltb_lt. lia.
    + pose proof (code_range x). destruct (Z.eqb_spec (code x) (-1)); [lia|]. apply Z.ltb_ge. lia.
    + destruct (Z.eqb_spec (code x) (code y)) as [E%code_inj|]; [|done]. apply IH. congruence.
Qed.

Lemma pair_key_inj a b c d : pair_key a b = pair_key c d -> a = c /\ b = d.
Proof.
  unfold pair_key. intros H.
  destruct (span_unique (fun z => 0 <= z) (code <$> B a) (code <$> B c) (-1 :: (code <$> B b)) (-1 :: (code <$> B d)))
    as [E1 E2]; try done.
  - apply Forall_fmap, Forall_true. intros c'. pose proof (code_range c'). cbn. lia.
  - apply Forall_fmap, Forall_true. intros c'. pose proof (code_range c'). cbn. lia.
  - intros x t [= <- _]. lia.
  - intros x t [= <- _]. lia.
  - injection E2 as E2. split; by apply codes_inj.
Qed.

(** ** 64-bit integers *)

(** Two's complement wrap-around of Go's [int] and [int64]. *)
Definition wrap64 (z : Z) : Z := (z + 2 ^ 63) mod 2 ^ 64 - 2 ^ 63.

Lemma wrap64_id z : - 2 ^ 63 <= z < 2 ^ 63 -> wrap64 z = z.
Proof. intros Hz. unfold wrap64. rewrite Z.mod_small by lia. lia. Qed.

(** The first [n] elements, for bounds too large for a unary number. *)
Fixpoint take_Z {A} (n : Z) (l : list A) : list A :=
  match l with
  | [] => []
  | x :: t => if n <=? 0 then [] else x :: take_Z (n - 1) t
  end.

Lemma take_Z_take {A} n (l : list A) : take_Z n l = take (Z.to_nat n) l.
Proof.
  revert n. induction l as [|x l IH]; intros n; [by rewrite take_nil|]. cbn [take_Z].
  destruct (n <=? 0) eqn:E; boolify; [by rewrite Z2Nat.nonpos|].
  rewrite IH. replace (Z.to_nat n) with (S (Z.to_nat (n - 1))) by lia. done.
Qed.

Lemma mjoin_app_bytes {A} (l1 l2 : list (list A)) : mjoin (l1 ++ l2) = mjoin l1 ++ mjoin l2.
Proof. induction l1 as [|l l1 IH]; [done|]. change (mjoin ((l :: l1) ++ l2)) with (l ++ mjoin (l1 ++ l2)).
  rewrite IH. change (mjoin (l :: l1)) with (l ++ mjoin l1). by rewrite app_assoc.
Qed.
