(* ===== verification/GoText.v ===== *)
(** * Go text primitives used by the program

    UTF-8 decoding and encoding as [unicode/utf8] and [range] over a string do it,
    UTF-16 code units ([unicode/utf16]), [strings.TrimSpace], hexadecimal
    ([encoding/hex]) and decimal integers ([strconv], [%d]). These are Standard
    Library operations of Go; the components map to the repository's code. *)

From S2P Require Import Prelude.

(** ** UTF-8 *)

Definition RuneError : Z := 65533.

Definition is_cont (c : ascii) : bool := (128 <=? code c) && (code c <? 192).

(** [utf8.DecodeRune]'s acceptance of two, three and four byte sequences. *)
Definition utf8_2 (b0 b1 : ascii) : bool :=
  (194 <=? code b0) && (code b0 <? 224) && is_cont b1.

Definition utf8_3 (b0 b1 b2 : ascii) : bool :=
  (224 <=? code b0) && (code b0 <? 240) && is_cont b1 && is_cont b2 &&
  (if code b0 =? 224 then 160 <=? code b1 else true) &&
  (if code b0 =? 237 then code b1 <? 160 else true).

Definition utf8_4 (b0 b1 b2 b3 : ascii) : bool :=
  (240 <=? code b0) && (code b0 <? 245) && is_cont b1 && is_cont b2 && is_cont b3 &&
  (if code b0 =? 240 then 144 <=? code b1 else true) &&
  (if code b0 =? 244 then code b1 <? 144 else true).

Definition rune_2 (b0 b1 : ascii) : Z := (code b0 - 192) * 64 + (code b1 - 128).
Definition rune_3 (b0 b1 b2 : ascii) : Z :=
  (code b0 - 224) * 4096 + (code b1 - 128) * 64 + (code b2 - 128).
Definition rune_4 (b0 b1 b2 b3 : ascii) : Z :=
  (code b0 - 240) * 262144 + (code b1 - 128) * 4096 + (code b2 - 128) * 64 + (code b3 - 128).

(** A string as the runes [range] visits, each with the bytes it was read from.
    An invalid byte is [RuneError] of width one. *)
Fixpoint chunks (s : bytes) : list (Z * bytes) :=
  match s with
  | [] => []
  | b0 :: s1 =>
      if code b0 <? 128 then (code b0, [b0]) :: chunks s1
      else match s1 with
      | [] => (RuneError, [b0]) :: chunks s1
      | b1 :: s2 =>
          if utf8_2 b0 b1 then (rune_2 b0 b1, [b0; b1]) :: chunks s2
          else match s2 with
          | [] => (RuneError, [b0]) :: chunks s1
          | b2 :: s3 =>
              if utf8_3 b0 b1 b2 then (rune_3 b0 b1 b2, [b0; b1; b2]) :: chunks s3
              else match s3 with
              | [] => (RuneError, [b0]) :: chunks s1
              | b3 :: s4 =>
                  if utf8_4 b0 b1 b2 b3
                  then (rune_4 b0 b1 b2 b3, [b0; b1; b2; b3]) :: chunks s4
                  else (RuneError, [b0]) :: chunks s1
              end
          end
      end
  end.

Definition runes (s : bytes) : list Z := (chunks s).*1.

(** [utf8.EncodeRune]: surrogates and values out of range become [RuneError]. *)
Definition scalar (r : Z) : bool :=
  (0 <=? r) && (r <? 1114112) && negb ((55296 <=? r) && (r <? 57344)).

Definition encode_rune (r0 : Z) : bytes :=
  let r := if scalar r0 then r0 else RuneError in
  if r <? 128 then [chr r]
  else if r <? 2048 then [chr (192 + r / 64); chr (128 + r mod 64)]
  else if r <? 65536 then
    [chr (224 + r / 4096); chr (128 + r / 64 mod 64); chr (128 + r mod 64)]
  else
    [chr (240 + r / 262144); chr (128 + r / 4096 mod 64); chr (128 + r / 64 mod 64);
     chr (128 + r mod 64)].

Definition encode_runes (rs : list Z) : bytes := mjoin (encode_rune <$> rs).

(** The string with every invalid byte replaced by U+FFFD. *)
Definition coerce_utf8 (s : bytes) : bytes := encode_runes (runes s).
Definition valid_utf8 (s : bytes) : bool := bool_decide (coerce_utf8 s = s).

Ltac unfold_utf8 :=
  unfold utf8_2, utf8_3, utf8_4, is_cont, rune_2, rune_3, rune_4 in *.

(** The two shapes of a well-formed chunk: one ASCII byte, or a multi-byte sequence. *)
Definition chunk_shape (r : Z) (bs : bytes) : Prop :=
  (exists b, bs = [b] /\ r = code b /\ code b < 128) \/
  (128 <= r /\ (2 <= length bs)%nat /\ Forall (fun c => 128 <= code c) bs).

Ltac shape :=
  right; unfold_utf8; boolify; cbn [length];
  repeat match goal with H : (if ?c then _ else _) = true |- _ => destruct c eqn:?; boolify end;
  (split_and!; [lia|lia|repeat constructor; lia]).

(** Case analysis along [chunks]. *)
Lemma chunks_ind (P : bytes -> Prop) :
  P [] ->
  (forall r bs s, (forall t, chunks (bs ++ t) = (r, bs) :: chunks t) ->
    chunk_shape r bs -> scalar r = true -> P s -> P (bs ++ s)) ->
  (forall b s, chunks (b :: s) = (RuneError, [b]) :: chunks s -> 128 <= code b ->
    P s -> P (b :: s)) ->
  forall s, P s.
Proof.
  intros Hnil Hval Hbad.
  enough (forall n s, (length s <= n)%nat -> P s) by eauto.
  induction n as [|n IH]; intros s Hn; [destruct s; [done|cbn in Hn; lia]|].
  destruct s as [|b0 s1]; [done|]. cbn [length] in Hn.
  pose proof (code_range b0).
  destruct (code b0 <? 128) eqn:E0.
  { apply (Hval (code b0) [b0] s1);
      [intros t; cbn; by rewrite E0|left; exists b0; auto with lia| |apply IH; lia].
    unfold scalar. boolify. apply andb_true_iff. split; [apply andb_true_iff; lia|].
    destruct (55296 <=? code b0) eqn:?; [boolify; lia|done]. }
  boolify.
  assert (forall t, chunks (b0 :: t) = (RuneError, [b0]) :: chunks t ->
    P t -> P (b0 :: t)) as Hbad' by (intros; apply Hbad; auto with lia).
  assert (E0' : (code b0 <? 128) = false) by lia.
  destruct s1 as [|b1 s2].
  { apply Hbad'; [cbn; by rewrite E0'|done]. }
  pose proof (code_range b1).
  destruct (utf8_2 b0 b1) eqn:E2.
  { apply (Hval (rune_2 b0 b1) [b0; b1] s2); [intros t; cbn; by rewrite E0', E2|shape| |
      apply IH; cbn in *; lia].
    unfold_utf8. boolify. unfold scalar. repeat (apply andb_true_iff; split); lia. }
  destruct s2 as [|b2 s3].
  { apply Hbad'; [cbn; by rewrite E0', E2|apply IH; cbn in *; lia]. }
  pose proof (code_range b2).
  destruct (utf8_3 b0 b1 b2) eqn:E3.
  { apply (Hval (rune_3 b0 b1 b2) [b0; b1; b2] s3);
      [intros t; cbn; by rewrite E0', E2, E3|shape| |apply IH; cbn in *; lia].
    unfold_utf8. boolify. unfold scalar.
    destruct (code b0 =? 224) eqn:?, (code b0 =? 237) eqn:?; boolify;
    repeat (apply andb_true_iff; split); lia. }
  destruct s3 as [|b3 s4].
  { apply Hbad'; [cbn; by rewrite E0', E2, E3|apply IH; cbn in *; lia]. }
  pose proof (code_range b3).
  destruct (utf8_4 b0 b1 b2 b3) eqn:E4.
  { apply (Hval (rune_4 b0 b1 b2 b3) [b0; b1; b2; b3] s4);
      [intros t; cbn; by rewrite E0', E2, E3, E4|shape| |apply IH; cbn in *; lia].
    unfold_utf8. boolify. unfold scalar.
    destruct (code b0 =? 240) eqn:?, (code b0 =? 244) eqn:?; boolify;
    repeat (apply andb_true_iff; split); lia. }
  apply Hbad'; [cbn; by rewrite E0', E2, E3, E4|apply IH; cbn in *; lia].
Qed.

Lemma runes_scalar s : Forall (fun r => scalar r = true) (runes s).
Proof.
  induction s as [|r bs s Hc Hne Hr IH|b s Hc Hb IH] using chunks_ind; [constructor| |].
  - unfold runes. rewrite Hc. by constructor.
  - unfold runes. rewrite Hc. by constructor.
Qed.

Lemma concat_chunks s : mjoin (chunks s).*2 = s.
Proof.
  induction s as [|r bs s Hc Hne Hr IH|b s Hc Hb IH] using chunks_ind; [done| |].
  - rewrite Hc. cbn. by f_equal.
  - rewrite Hc. cbn. by f_equal.
Qed.

Lemma divmod_64 r : r = r / 64 * 64 + r mod 64 /\ 0 <= r mod 64 < 64.
Proof. pose proof (Z.div_mod r 64). pose proof (Z.mod_pos_bound r 64). lia. Qed.

Ltac solve_tests :=
  unfold_utf8; rewrite ?code_chr by lia;
  repeat match goal with
  | |- (_ && _)%bool = true => apply andb_true_iff; split
  | |- (if ?c then _ else _) = true => destruct c eqn:?; boolify
  end; lia.

Lemma chunks_encode_rune r t :
  scalar r = true -> chunks (encode_rune r ++ t) = (r, encode_rune r) :: chunks t.
Proof.
  intros Hr. unfold encode_rune. rewrite Hr. unfold scalar in Hr. boolify.
  assert (~ (55296 <= r < 57344)) as Hns
    by (match goal with H : (_ && _)%bool = false |- _ => apply andb_false_iff in H end; lia).
  pose proof (divmod_64 r) as [D1 M1].
  pose proof (divmod_64 (r / 64)) as [D2 M2]. pose proof (divmod_64 (r / 64 / 64)) as [D3 M3].
  rewrite !Z.div_div in * by lia. change (64 * 64) with 4096 in *.
  change (4096 * 64) with 262144 in *.
  destruct (r <? 128) eqn:E1; boolify.
  { cbn. rewrite !code_chr by lia. by destruct (r <? 128) eqn:?; boolify; [|lia]. }
  destruct (r <? 2048) eqn:E2; boolify.
  { assert (utf8_2 (chr (192 + r / 64)) (chr (128 + r mod 64)) = true) as E by solve_tests.
    cbn [app chunks]. rewrite code_chr by lia.
    destruct (192 + r / 64 <? 128) eqn:?; [boolify; lia|]. rewrite E.
    f_equal. f_equal. unfold rune_2. rewrite !code_chr by lia. lia. }
  destruct (r <? 65536) eqn:E3; boolify.
  { set (b0 := chr (224 + r / 4096)). set (b1 := chr (128 + r / 64 mod 64)).
    set (b2 := chr (128 + r mod 64)).
    assert (code b0 = 224 + r / 4096) as C0 by (apply code_chr; lia).
    assert (code b1 = 128 + r / 64 mod 64) as C1 by (apply code_chr; lia).
    assert (code b2 = 128 + r mod 64) as C2 by (apply code_chr; lia).
    assert (utf8_2 b0 b1 = false) as Ea
      by (unfold_utf8; destruct (code b0 <? 224) eqn:?; boolify; [lia|by rewrite andb_false_r]).
    assert (utf8_3 b0 b1 b2 = true) as Eb by solve_tests.
    cbn [app chunks]. destruct (code b0 <? 128) eqn:?; [boolify; lia|].
    rewrite Ea, Eb. do 2 f_equal. unfold rune_3. lia. }
  set (b0 := chr (240 + r / 262144)). set (b1 := chr (128 + r / 4096 mod 64)).
  set (b2 := chr (128 + r / 64 mod 64)). set (b3 := chr (128 + r mod 64)).
  assert (code b0 = 240 + r / 262144) as C0 by (apply code_chr; lia).
  assert (code b1 = 128 + r / 4096 mod 64) as C1 by (apply code_chr; lia).
  assert (code b2 = 128 + r / 64 mod 64) as C2 by (apply code_chr; lia).
  assert (code b3 = 128 + r mod 64) as C3 by (apply code_chr; lia).
  assert (utf8_2 b0 b1 = false) as Ea
    by (unfold_utf8; destruct (code b0 <? 224) eqn:?; boolify; [lia|by rewrite andb_false_r]).
  assert (utf8_3 b0 b1 b2 = false) as Eb
    by (unfold_utf8; destruct (code b0 <? 240) eqn:?; boolify; [lia|by rewrite andb_false_r]).
  assert (utf8_4 b0 b1 b2 b3 = true) as Ec by solve_tests.
  cbn [app chunks]. destruct (code b0 <? 128) eqn:?; [boolify; lia|].
  rewrite Ea, Eb, Ec. do 2 f_equal. unfold rune_4. lia.
Qed.

Lemma runes_encode rs : Forall (fun r => scalar r = true) rs -> runes (encode_runes rs) = rs.
Proof.
  induction 1 as [|r rs Hr _ IH]; [done|].
  unfold runes, encode_runes in *. cbn. rewrite chunks_encode_rune by done. cbn. by f_equal.
Qed.

Lemma coerce_utf8_idem s : coerce_utf8 (coerce_utf8 s) = coerce_utf8 s.
Proof. unfold coerce_utf8. by rewrite runes_encode by apply runes_scalar. Qed.

Lemma valid_coerce_utf8 s : valid_utf8 (coerce_utf8 s) = true.
Proof. apply bool_decide_eq_true, coerce_utf8_idem. Qed.

Lemma valid_utf8_coerce s : valid_utf8 s = true -> coerce_utf8 s = s.
Proof. unfold valid_utf8. intros. by boolify. Qed.

#[export] Hint Rewrite coerce_utf8_idem : atb.
#[export] Hint Resolve valid_coerce_utf8 runes_scalar : atb.

Lemma runes_inj s t : valid_utf8 s = true -> valid_utf8 t = true -> runes s = runes t -> s = t.
Proof.
  intros Hs Ht H. rewrite <- (valid_utf8_coerce s Hs), <- (valid_utf8_coerce t Ht).
  unfold coerce_utf8. by rewrite H.
Qed.

(** ** UTF-16 code units of a rune sequence ([utf16.Encode]) *)
Definition utf16_rune (r : Z) : list Z :=
  if r <? 65536 then [r]
  else [55296 + (r - 65536) / 1024; 56320 + (r - 65536) mod 1024].

Definition utf16_encode (rs : list Z) : list Z := mjoin (utf16_rune <$> rs).

Lemma utf16_encode_inj rs rs' :
  Forall (fun r => scalar r = true) rs -> Forall (fun r => scalar r = true) rs' ->
  utf16_encode rs = utf16_encode rs' -> rs = rs'.
Proof.
  intros Hrs. revert rs'. induction Hrs as [|r rs Hr Hrs IH]; intros rs' Hrs' Heq.
  { destruct Hrs' as [|r' rs' Hr' _]; [done|]. unfold utf16_encode in Heq. cbn in Heq.
    unfold utf16_rune in Heq. by destruct (r' <? 65536). }
  destruct Hrs' as [|r' rs' Hr' Hrs'].
  { unfold utf16_encode in Heq. cbn in Heq. unfold utf16_rune in Heq.
    by destruct (r <? 65536). }
  unfold utf16_encode in Heq. cbn in Heq. unfold utf16_rune in Heq at 1 3.
  unfold scalar in Hr, Hr'. boolify.
  repeat match goal with H : (_ && _)%bool = false |- _ => apply andb_false_iff in H end.
  pose proof (Z.div_mod (r - 65536) 1024). pose proof (Z.mod_pos_bound (r - 65536) 1024).
  pose proof (Z.div_mod (r' - 65536) 1024). pose proof (Z.mod_pos_bound (r' - 65536) 1024).
  destruct (r <? 65536) eqn:E, (r' <? 65536) eqn:E'; boolify; cbn in Heq; simplify_eq.
  - f_equal. by apply IH.
  - exfalso. lia.
  - exfalso. lia.
  - f_equal; [lia|by apply IH].
Qed.

(** ** [strings.TrimSpace] *)
Definition is_space (r : Z) : bool :=
  bool_decide (r ∈ [9; 10; 11; 12; 13; 32; 133; 160; 5760; 8232; 8233; 8239; 8287; 12288]) ||
  ((8192 <=? r) && (r <=? 8202)).

Fixpoint drop_spaces (l : list (Z * bytes)) : list (Z * bytes) :=
  match l with
  | [] => []
  | (r, bs) :: t => if is_space r then drop_spaces t else l
  end.

Definition TrimSpace (s : string) : string :=
  S_of (mjoin (reverse (drop_spaces (reverse (drop_spaces (chunks (B s)))))).*2).

(** ** Hexadecimal ([encoding/hex]) *)
Definition hex_digit (n : Z) : ascii :=
  if n <? 10 then chr (48 + n) else chr (87 + n).

Definition hex_encode (b : bytes) : bytes :=
  c ← b; [hex_digit (code c / 16); hex_digit (code c mod 16)].

Definition hex_value (c : ascii) : option Z :=
  let n := code c in
  if (48 <=? n) && (n <=? 57) then Some (n - 48)
  else if (97 <=? n) && (n <=? 102) then Some (n - 87)
  else if (65 <=? n) && (n <=? 70) then Some (n - 55)
  else None.

Fixpoint hex_decode (b : bytes) : option bytes :=
  match b with
  | [] => Some []
  | c :: d :: t =>
      x ← hex_value c; y ← hex_value d; r ← hex_decode t; Some (chr (16 * x + y) :: r)
  | _ => None
  end.

Lemma hex_digit_value n : 0 <= n < 16 -> hex_value (hex_digit n) = Some n.
Proof.
  intros Hn. unfold hex_value, hex_digit.
  destruct (n <? 10) eqn:E; boolify; rewrite code_chr by lia.
  - replace ((48 <=? 48 + n) && (48 + n <=? 57))%bool with true by lia. f_equal; lia.
  - replace ((48 <=? 87 + n) && (87 + n <=? 57))%bool with false by lia.
    replace ((97 <=? 87 + n) && (87 + n <=? 102))%bool with true by lia. f_equal; lia.
Qed.

Lemma hex_decode_encode b : hex_decode (hex_encode b) = Some b.
Proof.
  induction b as [|c b IH]; [done|]. unfold hex_encode in *. cbn.
  pose proof (code_range c). pose proof (Z.div_mod (code c) 16).
  pose proof (Z.mod_pos_bound (code c) 16).
  assert (0 <= code c / 16 < 16) by (split; [apply Z.div_pos|apply Z.div_lt_upper_bound]; lia).
  rewrite !hex_digit_value by lia.
  cbn. cbn in IH. rewrite IH. cbn. do 2 f_equal.
  replace (16 * (code c / 16) + code c mod 16) with (code c) by lia. apply chr_code.
Qed.

Lemma hex_encode_inj a b : hex_encode a = hex_encode b -> a = b.
Proof.
  intros H. apply (f_equal hex_decode) in H. rewrite !hex_decode_encode in H. by simplify_eq.
Qed.

Lemma length_hex_encode b : length (hex_encode b) = (2 * length b)%nat.
Proof. induction b as [|c b IH]; [done|]. unfold hex_encode in *. cbn in *. lia. Qed.

(** ** Decimal integers *)
Definition digit (n : Z) : ascii := chr (48 + n).

Fixpoint digits_aux (fuel : nat) (n : Z) (acc : bytes) : bytes :=
  match fuel with
  | O => acc
  | S fuel => if n <? 10 then digit n :: acc else digits_aux fuel (n / 10) (digit (n mod 10) :: acc)
  end.

(** The decimal digits of a natural number; [log2 n + 1] steps are enough, one
    per division by ten. *)
Definition digits (n : Z) : bytes := digits_aux (S (Z.to_nat (Z.log2 n))) n [].

(** [strconv.Itoa], [%d]. *)
Definition itoa (n : Z) : bytes := if n <? 0 then chr 45 :: digits (- n) else digits n.

Definition is_digit (c : ascii) : bool := (48 <=? code c) && (code c <=? 57).

Definition digit_value (c : ascii) : Z := code c - 48.

Definition digits_value (b : bytes) : Z :=
  fold_left (fun acc c => acc * 10 + digit_value c) b 0.

Lemma code_digit n : 0 <= n < 10 -> code (digit n) = 48 + n.
Proof. intros. unfold digit. apply code_chr. lia. Qed.

Lemma is_digit_digit n : 0 <= n < 10 -> is_digit (digit n) = true.
Proof. intros. unfold is_digit. rewrite code_digit by lia. lia. Qed.

Lemma digits_value_app a b :
  digits_value (a ++ b) = digits_value a * 10 ^ Z.of_nat (length b) + digits_value b.
Proof.
  unfold digits_value. rewrite fold_left_app.
  generalize (fold_left (fun acc c => acc * 10 + digit_value c) a 0) as x.
  induction b as [|c b IH]; intros x; [cbn; lia|]. cbn [fold_left length].
  rewrite IH, (IH (0 * 10 + digit_value c)).
  rewrite Nat2Z.inj_succ, Z.pow_succ_r by lia. lia.
Qed.

Lemma digits_value_cons c b :
  digits_value (c :: b) = digit_value c * 10 ^ Z.of_nat (length b) + digits_value b.
Proof.
  change (c :: b) with ([c] ++ b). rewrite digits_value_app. unfold digits_value at 1. cbn. lia.
Qed.

Lemma digits_aux_spec fuel n acc :
  0 <= n < 2 ^ Z.of_nat fuel -> (0 < fuel)%nat -> Forall (fun c => is_digit c = true) acc ->
  let r := digits_aux fuel n acc in
  digits_value r = n * 10 ^ Z.of_nat (length acc) + digits_value acc /\
  Forall (fun c => is_digit c = true) r /\
  (exists c t, r = c :: t /\ (0 < n -> code c <> 48) /\ (n = 0 -> r = digit 0 :: acc)).
Proof.
  revert n acc. induction fuel as [|fuel IH]; intros n acc Hn Hf Hacc; [lia|].
  cbn [digits_aux]. destruct (n <? 10) eqn:E; boolify; cbn zeta.
  - split_and!; [| constructor; [apply is_digit_digit; lia|done] |].
    + rewrite digits_value_cons. unfold digit_value. rewrite code_digit by lia. lia.
    + exists (digit n), acc. split_and!; [done|rewrite code_digit by lia; lia|by intros ->].
  - rewrite Nat2Z.inj_succ, Z.pow_succ_r in Hn by lia.
    pose proof (Z.div_mod n 10). pose proof (Z.mod_pos_bound n 10).
    destruct (IH (n / 10) (digit (n mod 10) :: acc)) as (Hv & Hd & c & t & Hc & Hnz & _).
    + lia.
    + destruct fuel; [cbn in Hn; lia|lia].
    + constructor; [apply is_digit_digit; lia|done].
    + split_and!; [|done|].
      * rewrite Hv, digits_value_cons. cbn [length]. unfold digit_value.
        rewrite code_digit, Nat2Z.inj_succ, Z.pow_succ_r by lia. nia.
      * exists c, t. split_and!; [done|intros; apply Hnz; lia|lia].
Qed.

Lemma digits_spec n :
  0 <= n ->
  digits_value (digits n) = n /\ Forall (fun c => is_digit c = true) (digits n) /\
  (exists c t, digits n = c :: t /\ (0 < n -> code c <> 48) /\ (n = 0 -> t = [])).
Proof.
  intros Hn. unfold digits.
  destruct (digits_aux_spec (S (Z.to_nat (Z.log2 n))) n []) as (Hv & Hd & c & t & Hc & H1 & H2).
  - rewrite Nat2Z.inj_succ, Z2Nat.id by apply Z.log2_nonneg.
    destruct (decide (n = 0)) as [->|]; [cbn; lia|].
    pose proof (Z.log2_spec n). lia.
  - lia.
  - constructor.
  - cbn zeta in *. split_and!; [rewrite Hv; unfold digits_value; cbn; lia|done|].
    exists c, t. split_and!; [done|done|]. intros Hz. specialize (H2 Hz). congruence.
Qed.

Lemma digits_inj n m : 0 <= n -> 0 <= m -> digits n = digits m -> n = m.
Proof.
  intros Hn Hm H. destruct (digits_spec n Hn) as [<- _]. destruct (digits_spec m Hm) as [<- _].
  by rewrite H.
Qed.

(** ** ASCII text is valid UTF-8 *)

Lemma encode_rune_ascii c : code c < 128 -> encode_rune (code c) = [c].
Proof.
  intros H. unfold encode_rune, scalar. pose proof (code_range c).
  replace (code c <? 128) with true by lia.
  replace (0 <=? code c) with true by lia. replace (code c <? 55296) with true by lia.
  destruct c as [[] [] [] [] [] [] [] []]; first [reflexivity|vm_compute in H; discriminate].
Qed.

Lemma chunks_ascii c t : code c < 128 -> chunks (c :: t) = (code c, [c]) :: chunks t.
Proof.
  intros Hc. pose proof (code_range c).
  pose proof (chunks_encode_rune (code c) t ltac:(unfold scalar; lia)) as H'.
  by rewrite encode_rune_ascii in H' by done.
Qed.

Lemma ascii_valid s : Forall (fun c => code c < 128) s -> valid_utf8 s = true.
Proof.
  intros H. unfold valid_utf8. apply bool_decide_eq_true. unfold coerce_utf8.
  assert (s = encode_runes (code <$> s)) as E.
  { unfold encode_runes. induction H as [|c s Hc _ IH]; [done|].
    rewrite fmap_cons, mjoin_fmap_cons, encode_rune_ascii by done. cbn [app]. by f_equal. }
  rewrite E at 1. rewrite runes_encode; [done|].
  rewrite Forall_fmap. eapply Forall_impl; [exact H|]. intros c Hc. cbn.
  pose proof (code_range c). unfold scalar. lia.
Qed.

Lemma hex_ascii b : Forall (fun c => code c < 128) (hex_encode b).
Proof.
  unfold hex_encode. induction b as [|c b IH]; [constructor|]. cbn.
  pose proof (code_range c) as Hc.
  assert (forall n, 0 <= n < 16 -> code (hex_digit n) < 128) as Hd.
  { intros n Hn. unfold hex_digit. destruct (n <? 10) eqn:?; boolify; rewrite code_chr; lia. }
  pose proof (Z.div_mod (code c) 16). pose proof (Z.mod_pos_bound (code c) 16).
  constructor; [apply Hd; lia|]. constructor; [apply Hd; lia|]. exact IH.
Qed.

(** ** Visible text survives trimming *)

(** Visible ASCII. *)
Definition visible (c : ascii) : Prop := 33 <= code c < 127.

Lemma drop_spaces_none l : Forall (fun p => is_space p.1 = false) l -> drop_spaces l = l.
Proof. destruct 1 as [|[r bs] l Hr]; [done|]. cbn in *. by rewrite Hr. Qed.

Lemma visible_not_space c : visible c -> is_space (code c) = false.
Proof.
  intros [H1 H2]. unfold is_space. apply orb_false_iff. split; [|lia].
  apply bool_decide_eq_false. rewrite !elem_of_cons, elem_of_nil. lia.
Qed.

Lemma visible_chunks b : Forall visible b -> Forall (fun p => is_space p.1 = false) (chunks b).
Proof.
  induction 1 as [|c b Hc _ IH]; [constructor|]. pose proof Hc as [? ?].
  rewrite chunks_ascii by lia. constructor; [by apply visible_not_space|done].
Qed.

Lemma TrimSpace_visible s : Forall visible (B s) -> TrimSpace s = s.
Proof.
  intros H%visible_chunks. unfold TrimSpace. rewrite (drop_spaces_none (chunks _)) by done.
  rewrite drop_spaces_none by (by rewrite reverse_Permutation).
  by rewrite reverse_involutive, concat_chunks, S_of_B.
Qed.

Lemma visible_valid b : Forall visible b -> valid_utf8 b = true.
Proof. intros H. apply ascii_valid. eapply Forall_impl; [exact H|]. intros c [? ?]. cbn. lia. Qed.

Lemma hex_visible b : Forall visible (hex_encode b).
Proof.
  unfold hex_encode. induction b as [|c b IH]; [constructor|]. cbn.
  pose proof (code_range c). pose proof (Z.div_mod (code c) 16 ltac:(lia)).
  pose proof (Z.mod_pos_bound (code c) 16 ltac:(lia)).
  assert (forall n, 0 <= n < 16 -> visible (hex_digit n)) as Hd.
  { intros n Hn. unfold visible, hex_digit. destruct (n <? 10) eqn:?; boolify; rewrite code_chr; lia. }
  constructor; [apply Hd; lia|]. constructor; [apply Hd; lia|exact IH].
Qed.

(** ** [strconv.FormatInt] and [strconv.ParseInt] in base 10 *)

Definition show_int (z : Z) : string := S_of (itoa z).

Definition ParseInt64 (s : string) : option Z :=
  let '(neg, ds) := match B s with
                    | c :: t => if bool_decide (c = "-"%char) then (true, t)
                                else if bool_decide (c = "+"%char) then (false, t) else (false, B s)
                    | [] => (false, [])
                    end in
  if bool_decide (ds = []) || negb (forallb is_digit ds) then None
  else
    let z := if neg then - digits_value ds else digits_value ds in
    if (-9223372036854775808 <=? z) && (z <=? 9223372036854775807) then Some z else None.

Lemma show_int_digits z :
  0 <= z -> exists c t, B (show_int z) = c :: t /\ Forall (fun d => is_digit d = true) (c :: t) /\
    digits_value (c :: t) = z.
Proof.
  intros Hz. unfold show_int, itoa. rewrite B_S_of, (proj2 (Z.ltb_ge _ _) Hz).
  destruct (digits_spec z Hz) as (Hv & Hd & c & t & E & _). rewrite E in *. by exists c, t.
Qed.

Lemma ParseInt64_show_int z : 0 <= z < 2 ^ 63 -> ParseInt64 (show_int z) = Some z.
Proof.
  intros [Hz Hm]. destruct (show_int_digits z Hz) as (c & t & E & Hd & Hv). unfold ParseInt64. rewrite E.
  assert (forall x, is_digit x = false -> c <> x) as Hc.
  { intros x Hx ->. apply Forall_cons in Hd as [Hd _]. congruence. }
  rewrite (bool_decide_false (c = "-"%char)) by (by apply Hc).
  rewrite (bool_decide_false (c = "+"%char)) by (by apply Hc).
  rewrite bool_decide_false, Hv by done.
  replace (forallb is_digit (c :: t)) with true by (symmetry; apply forallb_forall; by apply List.Forall_forall). cbn [orb negb].
  by rewrite (proj2 (Z.leb_le _ _)), (proj2 (Z.leb_le _ _)) by lia.
Qed.

Lemma digit_visible c : is_digit c = true -> visible c.
Proof. intros H. unfold is_digit in H. boolify. unfold visible. lia. Qed.

Lemma show_int_text z :
  0 <= z -> TrimSpace (show_int z) = show_int z /\ show_int z <> "" /\ show_int z <> "start" /\
  valid_utf8 (B (show_int z)) = true.
Proof.
  intros Hz. destruct (show_int_digits z Hz) as (c & t & E & Hd & _).
  assert (Forall visible (B (show_int z))) as Hp
    by (rewrite E; eapply Forall_impl; [exact Hd|]; apply digit_visible).
  split_and!; [by apply TrimSpace_visible| | |].
  - intros H. by rewrite H in E.
  - intros H. rewrite H in E. injection E as <- _. by apply Forall_cons in Hd as [? _].
  - by apply visible_valid.
Qed.

Lemma show_int_inj a b : 0 <= a -> 0 <= b -> show_int a = show_int b -> a = b.
Proof.
  intros Ha Hb H. destruct (show_int_digits a Ha) as (c & t & E & _ & <-).
  destruct (show_int_digits b Hb) as (c' & t' & E' & _ & <-). rewrite H, E' in E. by injection E as -> ->.
Qed.
