(* ===== verification/GoPath.v ===== *)
(** * Parts of a text, and paths: [strings.Split], [strings.Cut], [path/filepath]

    Texts cut at a byte, and the lexical operations on paths with the separator "/":
    [Clean], [Join], [IsAbs], [IsLocal] and [Rel] between absolute paths. *)

From S2P Require Import Prelude GoText.

(** [strings.Split] at a byte. *)
Fixpoint split_at (sep : ascii) (b : bytes) : list bytes :=
  match b with
  | [] => [[]]
  | c :: t =>
      if bool_decide (c = sep) then [] :: split_at sep t
      else match split_at sep t with [] => [[c]] | l :: ls => (c :: l) :: ls end
  end.

(** [strings.Cut]: the part before the first [sep], and the part after it. *)
Fixpoint cut (sep : ascii) (b : bytes) : bytes * option bytes :=
  match b with
  | [] => ([], None)
  | c :: t => if bool_decide (c = sep) then ([], Some t)
              else let '(x, y) := cut sep t in (c :: x, y)
  end.

(** ** Lemmas *)

Lemma cut_spec sep b :
  (sep ∉ (cut sep b).1) /\ b = (cut sep b).1 ++ match (cut sep b).2 with Some t => sep :: t | None => [] end.
Proof.
  induction b as [|c b IH]; cbn; [split; [by apply not_elem_of_nil|done]|].
  destruct (bool_decide_reflect (c = sep)) as [->|Hc]; [split; [by apply not_elem_of_nil|done]|].
  destruct (cut sep b) as [x y]. destruct IH as [Hx Hb]. cbn in *. split; [by rewrite not_elem_of_cons|by f_equal].
Qed.

Lemma cut_app sep x t : sep ∉ x -> cut sep (x ++ sep :: t) = (x, Some t).
Proof.
  induction x as [|c x IH]; cbn; [by rewrite bool_decide_eq_true_2|]. rewrite not_elem_of_cons. intros [Hc Hx].
  rewrite bool_decide_eq_false_2 by congruence. by rewrite IH.
Qed.

Lemma cut_none sep x : sep ∉ x -> cut sep x = (x, None).
Proof.
  induction x as [|c x IH]; cbn; [done|]. rewrite not_elem_of_cons. intros [Hc Hx].
  rewrite bool_decide_eq_false_2 by congruence. by rewrite IH.
Qed.

(** The parts with [sep] between them. *)
Fixpoint join (sep : ascii) (ls : list bytes) : bytes :=
  match ls with
  | [] => []
  | [l] => l
  | l :: rest => l ++ sep :: join sep rest
  end.

Lemma split_at_spec sep b :
  join sep (split_at sep b) = b /\ split_at sep b <> [] /\ Forall (fun l => sep ∉ l) (split_at sep b).
Proof.
  induction b as [|c b (IH1 & IH2 & IH3)]; cbn; [split_and!; [done|done|repeat constructor; by apply not_elem_of_nil]|].
  destruct (bool_decide_reflect (c = sep)) as [->|Hc].
  - split_and!; [|done|constructor; [by apply not_elem_of_nil|done]]. cbn. destruct (split_at sep b); [done|by rewrite IH1].
  - destruct (split_at sep b) as [|l ls]; [done|]. apply Forall_cons in IH3 as [Hl Hls].
    split_and!; [|done|constructor; [by rewrite not_elem_of_cons|done]]. cbn in *. destruct ls; by rewrite <- IH1.
Qed.

Lemma split_at_none sep x : sep ∉ x -> split_at sep x = [x].
Proof.
  induction x as [|c x IH]; cbn; [done|]. rewrite not_elem_of_cons. intros [Hc Hx].
  rewrite bool_decide_eq_false_2 by congruence. by rewrite IH.
Qed.

Lemma split_at_app sep x t : sep ∉ x -> split_at sep (x ++ sep :: t) = x :: split_at sep t.
Proof.
  induction x as [|c x IH]; cbn; [by rewrite bool_decide_eq_true_2|]. rewrite not_elem_of_cons. intros [Hc Hx].
  rewrite bool_decide_eq_false_2 by congruence. by rewrite IH.
Qed.

(** ** [path/filepath] *)

Definition slash : ascii := "/"%char.

(** One element of a path on the stack of those before it, the last one first. *)
Definition clean_element (rooted : bool) (stack : list bytes) (e : bytes) : list bytes :=
  if bool_decide (e = [] \/ e = B ".") then stack
  else if bool_decide (e = B "..") then
    match stack with
    | [] => if rooted then [] else [e]
    | top :: rest => if bool_decide (top = B "..") then e :: stack else rest
    end
  else e :: stack.

Definition IsAbs (path : string) : bool := match B path with c :: _ => bool_decide (c = slash) | [] => false end.

Definition cleaned_elements (path : string) : list bytes :=
  reverse (fold_left (clean_element (IsAbs path)) (split_at slash (B path)) []).

Definition Clean (path : string) : string :=
  match ((if IsAbs path then [slash] else []) ++ join slash (cleaned_elements path))%list with
  | [] => "."
  | out => S_of out
  end.

(** [filepath.Join] of two elements. *)
Definition Join (a b : string) : string :=
  if String.eqb a "" then if String.eqb b "" then "" else Clean b
  else if String.eqb b "" then Clean a else Clean (a +:+ "/" +:+ b).

Definition dotted (b : bytes) : bool := bool_decide (b = B "." \/ b = B "..").

(** Whether a path stays below the directory it is relative to, lexically. *)
Definition IsLocal (path : string) : bool :=
  if IsAbs path || String.eqb path "" then false
  else
    let path := if existsb dotted (split_at slash (B path)) then Clean path else path in
    negb (String.eqb path "..") &&
    negb (match split_at slash (B path) with e :: _ :: _ => bool_decide (e = B "..") | _ => false end).

(** [filepath.Rel] between two absolute paths: up from what is left of the first, down to what
    is left of the second, after their common elements. *)
Fixpoint common (a b : list bytes) : list bytes * list bytes :=
  match a, b with
  | x :: a', y :: b' => if bool_decide (x = y) then common a' b' else (a, b)
  | _, _ => (a, b)
  end.

Definition Rel_abs (base target : string) : string :=
  let '(up, down) := common (cleaned_elements base) (cleaned_elements target) in
  match (map (fun _ => B "..") up ++ down)%list with
  | [] => "."
  | l => S_of (join slash l)
  end.

(** ** Clean paths *)

(** An element that names something. *)
Definition proper (e : bytes) : Prop := e <> [] /\ e <> B "." /\ e <> B ".." /\ slash ∉ e.

Lemma split_join sep l : l <> [] -> Forall (fun e => sep ∉ e) l -> split_at sep (join sep l) = l.
Proof.
  intros Hne Hall. induction Hall as [|e l He Hall IH]; [done|]. destruct l as [|e' l]; [by apply split_at_none|].
  cbn [join]. rewrite split_at_app by done. f_equal. by apply IH.
Qed.

Lemma clean_proper rooted l stack : Forall proper l -> fold_left (clean_element rooted) l stack = reverse l ++ stack.
Proof.
  intros Hall. revert stack. induction Hall as [|e l (Hn & Hd & Hdd & _) Hall IH]; intros stack; [done|].
  cbn [fold_left]. rewrite IH, reverse_cons, <- app_assoc. f_equal. unfold clean_element.
  rewrite bool_decide_eq_false_2 by tauto. by rewrite bool_decide_eq_false_2.
Qed.

Lemma join_relative l : Forall proper l -> IsAbs (S_of (join slash l)) = false.
Proof.
  intros Hall. unfold IsAbs. rewrite B_S_of. destruct Hall as [|e l (Hn & _ & _ & Hs) Hall]; [done|].
  destruct e as [|c e]; [done|]. apply not_elem_of_cons in Hs as [Hc _].
  destruct l; cbn; by rewrite bool_decide_eq_false_2.
Qed.

Lemma Clean_proper l : l <> [] -> Forall proper l -> Clean (S_of (join slash l)) = S_of (join slash l).
Proof.
  intros Hne Hall. unfold Clean, cleaned_elements. rewrite join_relative by done. cbn [app]. rewrite B_S_of.
  rewrite split_join by (done || (eapply Forall_impl; [exact Hall|]; by intros e (_ & _ & _ & ?))).
  rewrite clean_proper by done. rewrite app_nil_r, reverse_involutive.
  destruct (join slash l) as [|c b] eqn:E; [|done]. exfalso.
  destruct Hall as [|e l (Hn & _) Hall]; [done|]. destruct e; [done|]. by destruct l.
Qed.

Lemma elements_slash_free b : Forall (fun e => slash ∉ e) (split_at slash b).
Proof. by destruct (split_at_spec slash b) as (_ & _ & Hall). Qed.

Lemma hex_no_slash b : slash ∉ hex_encode b.
Proof.
  intros Hin. assert (Forall (fun c => 48 <= code c) (hex_encode b)) as Hall.
  { clear Hin. unfold hex_encode. induction b as [|c b IH]; [constructor|]. cbn.
    pose proof (code_range c). assert (0 <= code c / 16 < 16) by (split; [apply Z.div_pos|apply Z.div_lt_upper_bound]; lia).
    pose proof (Z.mod_pos_bound (code c) 16).
    repeat apply Forall_cons_2; [| |exact IH]; unfold hex_digit; case_match; boolify; rewrite code_chr; lia. }
  rewrite Forall_forall in Hall. apply Hall in Hin. vm_compute in Hin. by apply Hin.
Qed.

(** What is on the stack of a relative path: elements that name something, above some "..". *)
Definition stacked (stack : list bytes) : Prop := exists n l, stack = l ++ replicate n (B "..") /\ Forall proper l.

Lemma clean_stacked rooted stack e : (slash ∉ e) -> stacked stack -> stacked (clean_element rooted stack e).
Proof.
  intros He (n & l & -> & Hall). unfold clean_element.
  destruct (bool_decide_reflect (e = [] \/ e = B ".")) as [|Hd]; [by exists n, l|].
  destruct (bool_decide_reflect (e = B "..")) as [->|Hdd].
  - destruct l as [|top l]; cbn [app].
    + destruct n as [|n]; cbn [replicate].
      * destruct rooted; [by exists 0%nat, []|by exists 1%nat, []].
      * rewrite bool_decide_eq_true_2 by done. by exists (S (S n)), [].
    + apply Forall_cons in Hall as [(_ & _ & Hn & _) Hall]. rewrite bool_decide_eq_false_2 by done. by exists n, l.
  - exists n, (e :: l). split; [done|]. constructor; [|done]. unfold proper. tauto.
Qed.

Lemma cleaned_stacked path : stacked (reverse (cleaned_elements path)).
Proof.
  unfold cleaned_elements. rewrite reverse_involutive. pose proof (elements_slash_free (B path)) as Hall.
  assert (stacked []) as Hs by by exists 0%nat, []. revert Hs. generalize (@nil bytes) as stack.
  induction Hall as [|e l He Hall IH]; intros stack Hs; [done|]. cbn [fold_left]. by apply IH, clean_stacked.
Qed.

(** A local path that is not the directory itself has only elements that name something. *)
Lemma IsLocal_proper path :
  IsLocal path = true -> Clean path <> "." ->
  cleaned_elements path <> [] /\ Forall proper (cleaned_elements path) /\ Clean path = S_of (join slash (cleaned_elements path)).
Proof.
  unfold IsLocal. destruct (IsAbs path) eqn:Ha; [done|]. destruct (String.eqb path ""); [done|]. cbn [orb]. intros Hl Hc.
  destruct (cleaned_stacked path) as (n & l & Hs & Hall).
  assert (cleaned_elements path = replicate n (B "..") ++ reverse l) as He.
  { rewrite <- (reverse_involutive (cleaned_elements path)), Hs, reverse_app. by rewrite reverse_replicate. }
  assert (Clean path = S_of (join slash (cleaned_elements path)) /\ cleaned_elements path <> []) as [Hclean Hne].
  { unfold Clean in *. rewrite Ha in *. cbn [app] in *. destruct (cleaned_elements path) as [|e r]; [done|].
    destruct (join slash (e :: r)); done. }
  split; [done|]. split; [|done].
  enough (n = 0%nat) as -> by (rewrite He; cbn [replicate app]; by apply Forall_reverse).
  destruct n as [|n]; [done|]. exfalso. apply andb_true_iff in Hl as [H1 H2].
  destruct (existsb dotted (split_at slash (B path))) eqn:Ed.
  - rewrite Hclean, He in H1, H2. rewrite B_S_of in H2. cbn [replicate app] in *.
    assert (Forall (fun e => slash ∉ e) (B ".." :: replicate n (B "..") ++ reverse l)) as Hf.
    { assert (slash ∉ B "..") as Hdd by (apply (bool_decide_eq_true_1 _); vm_compute; reflexivity). constructor; [done|].
      apply Forall_app. split; [by apply Forall_replicate|].
      apply Forall_reverse. eapply Forall_impl; [exact Hall|]. by intros e (_ & _ & _ & ?). }
    rewrite split_join in H2 by done. destruct (replicate n (B "..") ++ reverse l) as [|e r]; [by cbn in H1|].
    by rewrite bool_decide_eq_true_2 in H2.
  - assert (Forall (fun e => dotted e = false) (split_at slash (B path))) as Hnd.
    { clear -Ed. induction (split_at slash (B path)) as [|e r IH]; [constructor|]. cbn in Ed. apply orb_false_iff in Ed as [? ?].
      constructor; [done|by apply IH]. }
    clear Ed H1 H2 Hclean Hne He Hc. assert (B ".." ∈ reverse (cleaned_elements path)) as Hin.
    { rewrite Hs. cbn [replicate]. apply elem_of_app. right. by left. }
    unfold cleaned_elements in Hin. rewrite reverse_involutive in Hin. revert Hin Hnd.
    assert (B ".." ∉ @nil bytes) as Hnil by apply not_elem_of_nil. revert Hnil. generalize (@nil bytes) as stack.
    induction (split_at slash (B path)) as [|e r IH]; intros stack Hnil Hin Hnd; [done|].
    apply Forall_cons in Hnd as [Hd Hnd]. unfold dotted in Hd. apply bool_decide_eq_false_1 in Hd. cbn [fold_left] in Hin.
    refine (IH _ _ Hin Hnd). clear Hin. unfold clean_element. case_bool_decide; [done|]. rewrite bool_decide_eq_false_2 by tauto.
    apply not_elem_of_cons. split; [intros <-; tauto|done].
Qed.

Example cleaned : map Clean [""; "a/../b"; "/../a//b/./c/"; "../../x/.."; "/"; "./.."] = ["."; "b"; "/a/b/c"; "../.."; "/"; ".."].
Proof. vm_compute. reflexivity. Qed.

Example local : map IsLocal ["a/b"; "a/../.."; ".."; "../a"; "/a"; ""; "a/.."; "..a"] = [true; false; false; false; false; false; true; true].
Proof. vm_compute. reflexivity. Qed.

Example relative : map (Rel_abs "/data/agent") ["/data/agent/s/b.atb"; "/data/x"; "/data/agent/."] = ["s/b.atb"; "../x"; "."].
Proof. vm_compute. reflexivity. Qed.

(** ** [filepath.Rel] *)

Definition Rel (base target : string) : option string :=
  if negb (Bool.eqb (IsAbs base) (IsAbs target)) then None
  else
    let '(up, down) := common (cleaned_elements base) (cleaned_elements target) in
    match up with
    | e :: _ => if bool_decide (e = B "..") then None else Some (S_of (join slash (map (fun _ => B "..") up ++ down)%list))
    | [] => Some (match down with [] => "." | _ => S_of (join slash down) end)
    end.

(** ** Clean twice *)

Lemma clean_dots n m :
  fold_left (clean_element false) (replicate n (B "..")) (replicate m (B "..")) = replicate (n + m) (B "..").
Proof.
  revert m. induction n as [|n IH]; intros m; [done|]. cbn [replicate fold_left].
  replace (clean_element false (replicate m (B "..")) (B "..")) with (replicate (S m) (B "..")).
  - rewrite IH. f_equal. lia.
  - destruct m; done.
Qed.

Lemma rooted_proper b stack : Forall (fun e => slash ∉ e) b -> Forall proper stack -> Forall proper (fold_left (clean_element true) b stack).
Proof.
  intros Hb. revert stack. induction Hb as [|e b He _ IH]; intros stack Hs; [done|]. cbn [fold_left]. apply IH. unfold clean_element.
  case_bool_decide as E1; [done|]. case_bool_decide as E2.
  - destruct stack as [|top rest]; [done|]. apply Forall_cons in Hs as [Ht Hs].
    case_bool_decide as E3; [by destruct Ht as (_ & _ & Hd & _)|done].
  - constructor; [|done]. unfold proper. naive_solver.
Qed.

Lemma absolute_elements path : IsAbs path = true -> Forall proper (cleaned_elements path).
Proof.
  intros H. unfold cleaned_elements. rewrite H. apply Forall_reverse, rooted_proper; [apply elements_slash_free|constructor].
Qed.

Lemma IsAbs_cons c t : IsAbs (S_of (c :: t)) = bool_decide (c = slash).
Proof. unfold IsAbs. by rewrite B_S_of. Qed.

Lemma Clean_elements path : cleaned_elements (Clean path) = cleaned_elements path /\ IsAbs (Clean path) = IsAbs path.
Proof.
  unfold Clean. destruct (IsAbs path) eqn:Ha; cbn [app].
  - pose proof (absolute_elements path Ha) as Hp. set (els := cleaned_elements path) in *.
    unfold cleaned_elements. rewrite IsAbs_cons, B_S_of, bool_decide_true by done. split; [|done]. cbn [split_at]. rewrite bool_decide_true by done. cbn [fold_left]. change (clean_element true [] []) with (@nil bytes).
    destruct els as [|e els]; [done|]. rewrite split_join; [|done|].
    + rewrite clean_proper by done. by rewrite app_nil_r, reverse_involutive.
    + eapply Forall_impl; [exact Hp|]. by intros x (_ & _ & _ & Hx).
  - destruct (cleaned_stacked path) as (n & l & Hst & Hl). unfold cleaned_elements in Hst |- *. rewrite Ha in *.
    rewrite reverse_involutive in Hst. set (stack := fold_left _ _ _) in *.
    assert (reverse stack = replicate n (B "..") ++ reverse l) as Hr by (by rewrite Hst, reverse_app, reverse_replicate).
    destruct (join slash (reverse stack)) as [|c out] eqn:Ej.
    + replace (reverse stack) with (@nil bytes); [done|]. destruct (reverse stack) as [|e r] eqn:Er; [done|]. exfalso.
      assert (e <> []) as Hne.
      { destruct n as [|n]; cbn in Hr; [|by injection Hr as -> _]. assert (Forall proper (e :: r)) as Hf by (rewrite Hr; by apply Forall_reverse).
        by apply Forall_cons in Hf as [(? & _) _]. }
      destruct e; [done|]. by destruct r.
    + assert (Forall (fun e => slash ∉ e /\ e <> []) (reverse stack)) as Hs.
      { rewrite Hr. apply Forall_app. split.
        - apply Forall_replicate. split; [|done]. apply (bool_decide_eq_true_1 _). vm_compute. reflexivity.
        - apply Forall_reverse. eapply Forall_impl; [exact Hl|]. by intros x (? & _ & _ & ?). }
      assert (IsAbs (S_of (c :: out)) = false) as Habs.
      { rewrite IsAbs_cons. apply bool_decide_false. intros ->. destruct (reverse stack) as [|e r]; [done|].
        apply Forall_cons in Hs as [[Hsl Hne] _]. destruct e as [|c e]; [done|]. apply Hsl. destruct r; cbn in Ej; injection Ej as -> _; left. }
      split; [|done]. rewrite Habs, B_S_of, <- Ej. rewrite split_join.
      * rewrite Hr, fold_left_app. change (@nil bytes) with (replicate 0 (B "..")). rewrite clean_dots, clean_proper by (by apply Forall_reverse).
        by rewrite reverse_app, !reverse_involutive, reverse_replicate, Nat.add_0_r.
      * destruct (reverse stack); [done|]. done.
      * eapply Forall_impl; [exact Hs|]. by intros x [? _].
Qed.

Lemma Clean_idem path : Clean (Clean path) = Clean path.
Proof. destruct (Clean_elements path) as [E1 E2]. unfold Clean at 1. rewrite E1, E2. reflexivity. Qed.
