(* ===== verification/Sha256.v ===== *)
(** * SHA-256 ([crypto/sha256])

    An executable SHA-256 over byte lists, following FIPS 180-4, so that witnesses
    hash concrete records. The theorems of the other files use only that it is a
    function of its input and that its digest has 32 bytes; where the chain's
    security matters they exhibit a pair of colliding inputs instead of assuming
    that none exists. *)

From S2P Require Import Prelude GoText.

Module Sha256.

Definition mask32 (x : Z) : Z := Z.land x 4294967295.
Definition add32 (x y : Z) : Z := mask32 (x + y).
Definition rotr (n x : Z) : Z := Z.lor (Z.shiftr x n) (mask32 (Z.shiftl x (32 - n))).
Definition not32 (x : Z) : Z := Z.lxor x 4294967295.

Definition Ch (x y z : Z) : Z := Z.lxor (Z.land x y) (Z.land (not32 x) z).
Definition Maj (x y z : Z) : Z := Z.lxor (Z.lxor (Z.land x y) (Z.land x z)) (Z.land y z).
Definition bsig0 (x : Z) : Z := Z.lxor (Z.lxor (rotr 2 x) (rotr 13 x)) (rotr 22 x).
Definition bsig1 (x : Z) : Z := Z.lxor (Z.lxor (rotr 6 x) (rotr 11 x)) (rotr 25 x).
Definition ssig0 (x : Z) : Z := Z.lxor (Z.lxor (rotr 7 x) (rotr 18 x)) (Z.shiftr x 3).
Definition ssig1 (x : Z) : Z := Z.lxor (Z.lxor (rotr 17 x) (rotr 19 x)) (Z.shiftr x 10).

Definition round_constants : list Z :=
  [1116352408; 1899447441; 3049323471; 3921009573; 961987163; 1508970993; 2453635748;
   2870763221; 3624381080; 310598401; 607225278; 1426881987; 1925078388; 2162078206;
   2614888103; 3248222580; 3835390401; 4022224774; 264347078; 604807628; 770255983;
   1249150122; 1555081692; 1996064986; 2554220882; 2821834349; 2952996808; 3210313671;
   3336571891; 3584528711; 113926993; 338241895; 666307205; 773529912; 1294757372;
   1396182291; 1695183700; 1986661051; 2177026350; 2456956037; 2730485921; 2820302411;
   3259730800; 3345764771; 3516065817; 3600352804; 4094571909; 275423344; 430227734;
   506948616; 659060556; 883997877; 958139571; 1322822218; 1537002063; 1747873779;
   1955562222; 2024104815; 2227730452; 2361852424; 2428436474; 2756734187; 3204031479;
   3329325298].

Record state := mkState { ha : Z; hb : Z; hc : Z; hd : Z; he : Z; hf : Z; hg : Z; hh : Z }.

Definition initial : state :=
  mkState 1779033703 3144134277 1013904242 2773480762
          1359893119 2600822924 528734635 1541459225.

(** The message schedule, newest word first. *)
Fixpoint extend (n : nat) (w : list Z) : list Z :=
  match n with
  | O => w
  | S n =>
      let at_ i := default 0 (w !! i) in
      extend n (add32 (add32 (ssig1 (at_ 1%nat)) (at_ 6%nat))
                      (add32 (ssig0 (at_ 14%nat)) (at_ 15%nat)) :: w)
  end.

Definition schedule (block : list Z) : list Z := reverse (extend 48 (reverse block)).

Definition one_round (s : state) (kw : Z * Z) : state :=
  let '(k, w) := kw in
  let t1 := add32 (add32 (add32 (hh s) (bsig1 (he s))) (add32 (Ch (he s) (hf s) (hg s)) k)) w in
  let t2 := add32 (bsig0 (ha s)) (Maj (ha s) (hb s) (hc s)) in
  mkState (add32 t1 t2) (ha s) (hb s) (hc s) (add32 (hd s) t1) (he s) (hf s) (hg s).

Definition compress (s : state) (block : list Z) : state :=
  let r := fold_left one_round (zip round_constants (schedule block)) s in
  mkState (add32 (ha s) (ha r)) (add32 (hb s) (hb r)) (add32 (hc s) (hc r))
          (add32 (hd s) (hd r)) (add32 (he s) (he r)) (add32 (hf s) (hf r))
          (add32 (hg s) (hg r)) (add32 (hh s) (hh r)).

Fixpoint words (b : bytes) : list Z :=
  match b with
  | c0 :: c1 :: c2 :: c3 :: t =>
      (((code c0 * 256 + code c1) * 256 + code c2) * 256 + code c3) :: words t
  | _ => []
  end.

Definition be32 (x : Z) : bytes :=
  [chr (x / 16777216 mod 256); chr (x / 65536 mod 256); chr (x / 256 mod 256); chr (x mod 256)].

Definition padding (len : Z) : bytes :=
  chr 128 :: replicate (Z.to_nat ((55 - len) mod 64)) (chr 0) ++
  be32 (8 * len / 4294967296) ++ be32 (8 * len mod 4294967296).

Fixpoint blocks (fuel : nat) (w : list Z) (s : state) : state :=
  match fuel, w with
  | S fuel, _ :: _ => blocks fuel (drop 16 w) (compress s (take 16 w))
  | _, _ => s
  end.

Definition digest (s : state) : bytes :=
  be32 (ha s) ++ be32 (hb s) ++ be32 (hc s) ++ be32 (hd s) ++
  be32 (he s) ++ be32 (hf s) ++ be32 (hg s) ++ be32 (hh s).

(** One step per 64-byte block: the number of words bounds it. *)
Definition sum256 (msg : bytes) : bytes :=
  let w := words (msg ++ padding (Z.of_nat (length msg))) in
  digest (blocks (length w) w initial).

Lemma length_sum256 msg : length (sum256 msg) = 32%nat.
Proof. done. Qed.

(** The FIPS 180-4 examples. *)
Example sum256_abc :
  S_of (hex_encode (sum256 (B "abc"))) =
  "ba7816bf8f01cfea414140de5dae2223b00361a396177a9cb410ff61f20015ad".
Proof. vm_compute. reflexivity. Qed.

Example sum256_empty :
  S_of (hex_encode (sum256 [])) =
  "e3b0c44298fc1c149afbf4c8996fb92427ae41e4649b934ca495991b7852b855".
Proof. vm_compute. reflexivity. Qed.

Example sum256_two_blocks :
  S_of (hex_encode (sum256 (B "abcdbcdecdefdefgefghfghighijhijkijkljklmklmnlmnomnopnopq"))) =
  "248d6a61d20638b8e5c026930c3e6039a33ce45964ff2167f6ecedd419db06c1".
Proof. vm_compute. reflexivity. Qed.

End Sha256.

(** [hex.EncodeToString(sha256.Sum256(b))], and the pair of inputs that would break
    it: two different byte strings with the same digest. *)
Definition sha256_hex (b : bytes) : string := S_of (hex_encode (Sha256.sum256 b)).

Definition sha256_collision (a b : bytes) : Prop :=
  a <> b /\ Sha256.sum256 a = Sha256.sum256 b.

Lemma sha256_hex_eq a b : sha256_hex a = sha256_hex b -> a = b \/ sha256_collision a b.
Proof.
  intros H. apply S_of_inj, hex_encode_inj in H.
  destruct (decide (a = b)); [by left|by right].
Qed.

Lemma length_sha256_hex b : String.length (sha256_hex b) = 64%nat.
Proof.
  unfold sha256_hex. by rewrite length_S_of, length_hex_encode, Sha256.length_sum256.
Qed.

#[global] Opaque Sha256.sum256.
