(* ===== verification/GoFloat.v ===== *)
(** * Go's float64

    IEEE 754 binary64 through the Standard Library's [SpecFloat] (no primitive
    floats, so every operation is an ordinary function): arithmetic and comparison
    as the hardware does them, reading a JSON number literal
    ([strconv.ParseFloat]) and printing the shortest literal that reads back
    ([strconv.FormatFloat] with precision -1). *)

From S2P Require Import Prelude GoText.
From Stdlib Require Export SpecFloat.

Abbreviation float64 := spec_float.

#[export] Instance float64_eq_dec : EqDecision float64.
Proof. solve_decision. Defined.

Definition prec : Z := 53.
Definition emax : Z := 1024.

Definition fadd (x y : float64) : float64 := SFadd prec emax x y.
Definition fsub (x y : float64) : float64 := SFsub prec emax x y.
Definition fmul (x y : float64) : float64 := SFmul prec emax x y.
Definition fdiv (x y : float64) : float64 := SFdiv prec emax x y.
Definition fltb (x y : float64) : bool := SFltb x y.
Definition fleb (x y : float64) : bool := SFleb x y.
Definition feqb (x y : float64) : bool := SFeqb x y.

Definition is_finite (x : float64) : bool :=
  match x with S754_zero _ | S754_finite _ _ _ => true | _ => false end.

Definition sign_of (x : float64) : bool :=
  match x with
  | S754_zero s | S754_infinity s | S754_finite s _ _ => s
  | S754_nan => false
  end.

(** ** Reading: the float64 nearest to [m * 10^e], ties to even

    Beyond the guards the value is above the largest finite float64 or below half
    the smallest positive one, so no power of ten larger than 10^400 is computed. *)
Definition round_decimal (neg : bool) (m e : Z) : float64 :=
  if m =? 0 then S754_zero neg
  else if 400 <? e then S754_infinity neg
  else if 0 <=? e then binary_round prec emax neg (Z.to_pos (m * 10 ^ e)) 0
  else if e <? - (400 + Z.log2 m) then S754_zero neg
  else let '(q, e', l) := SFdiv_core_binary prec emax m 0 (10 ^ (- e)) 0 in
       binary_round_aux prec emax neg q e' l.

(** ** JSON number literals *)
Record numlit := mkNum {
  n_neg : bool;
  n_int : bytes;
  n_frac : option bytes;
  n_exp : option (ascii * option ascii * bytes)
}.

#[export] Instance numlit_eq_dec : EqDecision numlit.
Proof. solve_decision. Defined.

Definition minus_byte : ascii := "-"%char.
Definition plus_byte : ascii := "+"%char.
Definition dot_byte : ascii := "."%char.

Definition print_exp (x : option (ascii * option ascii * bytes)) : bytes :=
  match x with
  | None => []
  | Some (m, sg, ds) => m :: (match sg with None => [] | Some c => [c] end) ++ ds
  end.

Definition print_num (n : numlit) : bytes :=
  (if n_neg n then [minus_byte] else []) ++ n_int n ++
  (match n_frac n with None => [] | Some ds => dot_byte :: ds end) ++ print_exp (n_exp n).

(** Sign, integer mantissa and decimal exponent of a literal. *)
Definition num_value (n : numlit) : bool * Z * Z :=
  let frac := default [] (n_frac n) in
  let ex := match n_exp n with
            | None => 0
            | Some (_, Some c, ds) => if bool_decide (c = minus_byte) then - digits_value ds
                                      else digits_value ds
            | Some (_, None, ds) => digits_value ds
            end in
  (n_neg n, digits_value (n_int n ++ frac), ex - Z.of_nat (length frac)).

Definition ParseFloat (n : numlit) : option float64 :=
  let '(neg, m, e) := num_value n in
  let f := round_decimal neg m e in
  if is_finite f then Some f else None.

(** The integer of a literal without fraction or exponent ([strconv.ParseInt] into
    an int64). *)
Definition ParseInt (n : numlit) : option Z :=
  match n_frac n, n_exp n with
  | None, None =>
      let z := if n_neg n then - digits_value (n_int n) else digits_value (n_int n) in
      if (-9223372036854775808 <=? z) && (z <=? 9223372036854775807) then Some z else None
  | _, _ => None
  end.

(** ** Printing: the shortest decimal that reads back *)

(** Numerator and denominator of a finite nonzero float. *)
Definition ratio (m : positive) (e : Z) : Z * Z :=
  if 0 <=? e then (Z.pos m * 2 ^ e, 1) else (Z.pos m, 2 ^ (- e)).

Definition num_digits (n : Z) : Z := Z.of_nat (length (digits n)).

(** The [k] with [10^(k-1) <= num/den < 10^k]. *)
Definition decimal_point (num den : Z) : Z :=
  let k := num_digits num - num_digits den in
  if 0 <=? k then if den * 10 ^ k <=? num then k + 1 else k
  else if den <=? num * 10 ^ (- k) then k + 1 else k.

(** The two neighbours with [n] digits, nearest first (to even on a tie). *)
Definition candidates (num den k n : Z) : list Z :=
  let x := k - n in
  let num' := if 0 <=? x then num else num * 10 ^ (- x) in
  let den' := if 0 <=? x then den * 10 ^ x else den in
  let lo := num' / den' in
  let r := num' mod den' in
  if r =? 0 then [lo]
  else if (2 * r <? den') || ((2 * r =? den') && Z.even lo) then [lo; lo + 1]
  else [lo + 1; lo].

Fixpoint shortest_from (fuel : nat) (f : float64) (num den k n : Z) : Z * Z :=
  match fuel with
  | O => (default 0 (head (candidates num den k 17)), k - 17)
  | S fuel =>
      match filter (fun c => round_decimal (sign_of f) c (k - n) = f) (candidates num den k n) with
      | c :: _ => (c, k - n)
      | [] => shortest_from fuel f num den k (n + 1)
      end
  end.

Fixpoint strip_zeros (fuel : nat) (m e : Z) : Z * Z :=
  match fuel with
  | O => (m, e)
  | S fuel => if (m =? 0) || negb (m mod 10 =? 0) then (m, e) else strip_zeros fuel (m / 10) (e + 1)
  end.

(** Seventeen significant digits always suffice for binary64. *)
Definition shortest (f : float64) : Z * Z :=
  match f with
  | S754_finite _ m e =>
      let '(num, den) := ratio m e in
      let '(c, x) := shortest_from 17 f num den (decimal_point num den) 1 in
      strip_zeros 17 c x
  | _ => (0, 0)
  end.

(** The literal reads back as the float it was printed from. *)
Definition float_ok (f : float64) : bool :=
  is_finite f &&
  (let '(m, e) := shortest f in
   match f with
   | S754_finite s _ _ => (0 <? m) && (e <=? 400) && bool_decide (round_decimal s m e = f)
   | _ => true
   end).

Definition zeros (n : Z) : bytes := replicate (Z.to_nat n) (digit 0).

(** [%f] with the shortest digits. *)
Definition format_f (neg : bool) (m e : Z) : numlit :=
  let ds := digits m in
  if 0 <=? e then mkNum neg (if m =? 0 then [digit 0] else ds ++ zeros e) None None
  else
    let dp := Z.of_nat (length ds) + e in
    mkNum neg (if 0 <? dp then take (Z.to_nat dp) ds else [digit 0])
          (Some (zeros (- dp) ++ drop (Z.to_nat dp) ds)) None.

(** [%e] with the shortest digits: one digit, the rest, and an exponent of at least
    two digits. *)
Definition format_e (neg : bool) (m e : Z) : numlit :=
  let ds := digits m in
  let x := if m =? 0 then 0 else Z.of_nat (length ds) + e - 1 in
  let xs := digits (Z.abs x) in
  mkNum neg (take 1 ds) (match drop 1 ds with [] => None | r => Some r end)
        (Some ("e"%char, Some (if x <? 0 then minus_byte else plus_byte),
               if Z.abs x <? 10 then digit 0 :: xs else xs)).

(** ** Well-formed literals: the JSON grammar for numbers *)
Definition all_digits (b : bytes) : bool := forallb is_digit b.

Definition wf_int (b : bytes) : bool :=
  match b with
  | [] => false
  | c :: t => all_digits b && (negb (code c =? 48) || bool_decide (t = []))
  end.

Definition wf_exp (x : option (ascii * option ascii * bytes)) : bool :=
  match x with
  | None => true
  | Some (m, sg, ds) =>
      bool_decide (m = "e"%char \/ m = "E"%char) &&
      (match sg with None => true | Some c => bool_decide (c = minus_byte \/ c = plus_byte) end) &&
      all_digits ds && bool_decide (ds <> [])
  end.

Definition wf_num (n : numlit) : bool :=
  wf_int (n_int n) &&
  (match n_frac n with None => true | Some ds => all_digits ds && bool_decide (ds <> []) end) &&
  wf_exp (n_exp n).

Lemma all_digits_Forall b : all_digits b = true <-> Forall (fun c => is_digit c = true) b.
Proof.
  unfold all_digits. rewrite forallb_forall. rewrite Forall_forall.
  split; intros H c Hc; apply H; by apply list_elem_of_In.
Qed.

Lemma all_digits_app a b : all_digits (a ++ b) = (all_digits a && all_digits b)%bool.
Proof. apply forallb_app. Qed.

Lemma all_digits_zeros n : all_digits (zeros n) = true.
Proof.
  apply all_digits_Forall. unfold zeros. induction (Z.to_nat n) as [|k IH]; [constructor|].
  constructor; [by apply is_digit_digit|done].
Qed.

Lemma all_digits_digits n : 0 <= n -> all_digits (digits n) = true.
Proof. intros Hn. apply all_digits_Forall. by destruct (digits_spec n Hn) as (_ & ? & _). Qed.

Lemma all_digits_take k b : all_digits b = true -> all_digits (take k b) = true.
Proof. rewrite !all_digits_Forall. apply Forall_take. Qed.

Lemma all_digits_drop k b : all_digits b = true -> all_digits (drop k b) = true.
Proof. rewrite !all_digits_Forall. apply Forall_drop. Qed.

Lemma wf_int_digits n : 0 <= n -> wf_int (digits n) = true.
Proof.
  intros Hn. pose proof (all_digits_digits n Hn) as Hd.
  destruct (digits_spec n Hn) as (_ & _ & c & t & E & Hc & Ht).
  rewrite E in *. cbn [wf_int]. rewrite Hd. cbn [andb].
  destruct (decide (n = 0)) as [->|].
  - rewrite Ht by done. by rewrite orb_true_r.
  - assert ((code c =? 48) = false) as -> by (apply Z.eqb_neq, Hc; lia). done.
Qed.

Lemma wf_int_app a b : wf_int a = true -> (exists c t, a = c :: t /\ code c <> 48) ->
  all_digits b = true -> wf_int (a ++ b) = true.
Proof.
  intros Ha (c & t & -> & Hc) Hb. cbn [wf_int app] in *. boolify.
  change (c :: t ++ b) with ((c :: t) ++ b). rewrite all_digits_app.
  rewrite H, Hb. assert ((code c =? 48) = false) as -> by (by apply Z.eqb_neq). done.
Qed.

Lemma digits_value_zeros k b : digits_value (zeros k ++ b) = digits_value b.
Proof.
  unfold zeros. induction (Z.to_nat k) as [|n IH]; [done|]. cbn [replicate app].
  rewrite digits_value_cons, IH. unfold digit_value. rewrite code_digit by lia. lia.
Qed.

Lemma digits_value_app_zeros b k :
  0 <= k -> digits_value (b ++ zeros k) = digits_value b * 10 ^ k.
Proof.
  intros Hk. rewrite digits_value_app. rewrite <- (app_nil_r (zeros k)) at 2.
  rewrite digits_value_zeros. unfold zeros. rewrite length_replicate, Z2Nat.id by lia.
  unfold digits_value at 2. cbn. lia.
Qed.

Lemma length_digits_pos n : 0 <= n -> (0 < length (digits n))%nat.
Proof. intros Hn. destruct (digits_spec n Hn) as (_ & _ & c & t & -> & _). cbn. lia. Qed.

Lemma wf_format_f neg m e : 0 <= m -> wf_num (format_f neg m e) = true.
Proof.
  intros Hm. pose proof (wf_int_digits m Hm). pose proof (length_digits_pos m Hm).
  unfold format_f, wf_num. destruct (0 <=? e) eqn:E; boolify; cbn [n_int n_frac n_exp].
  - rewrite !andb_true_r. destruct (m =? 0) eqn:E0; [done|]. boolify.
    apply wf_int_app; [done| |apply all_digits_zeros].
    destruct (digits_spec m Hm) as (_ & _ & c & t & -> & Hc & _).
    exists c, t. split; [done|apply Hc; lia].
  - rewrite andb_true_r. set (dp := Z.of_nat (length (digits m)) + e) in *.
    apply andb_true_iff; split.
    + destruct (0 <? dp) eqn:Ed; [|done]. boolify.
      destruct (digits_spec m Hm) as (_ & Hd & c & t & Eq & Hc & Ht). rewrite Eq in *.
      destruct (Z.to_nat dp) as [|k] eqn:Ek; [lia|]. cbn [take wf_int] in *. boolify.
      assert (all_digits (c :: take k t) = true) as ->.
      { apply (all_digits_take (S k) (c :: t)). by apply all_digits_Forall. }
      cbn [andb].
      match goal with
      | Hor : (negb (code c =? 48) || _)%bool = true |- _ =>
          apply orb_true_iff in Hor as [->|Hn]; [done|]
      end.
      boolify. subst t. rewrite take_nil. by rewrite orb_true_r.
    + rewrite all_digits_app, all_digits_zeros, all_digits_drop by (by apply all_digits_digits).
      cbn [andb]. apply bool_decide_eq_true. intros Hn.
      apply (f_equal length) in Hn. rewrite length_app, length_drop in Hn.
      unfold zeros in Hn. rewrite length_replicate in Hn. cbn [length] in Hn.
      unfold dp in *. lia.
Qed.

Lemma num_value_format_f neg m e :
  0 <= m -> (e < 0 -> num_value (format_f neg m e) = (neg, m, e)) /\
  (0 <= e -> num_value (format_f neg m e) = (neg, m * 10 ^ e, 0)).
Proof.
  intros Hm. destruct (digits_spec m Hm) as (Hv & _).
  unfold format_f, num_value. split; intros He.
  - replace (0 <=? e) with false by lia. cbn [n_neg n_int n_frac n_exp from_option]; unfold id.
    set (ds := digits m) in *. set (dp := Z.of_nat (length ds) + e).
    f_equal; [f_equal|].
    + destruct (0 <? dp) eqn:Ed; boolify.
      * unfold zeros. replace (Z.to_nat (- dp)) with O by lia. cbn [replicate app].
        by rewrite take_drop.
      * replace (Z.to_nat dp) with O by lia. rewrite drop_0. cbn [app].
        rewrite digits_value_cons, digits_value_zeros, Hv. unfold digit_value.
        rewrite code_digit by lia. lia.
    + rewrite length_app, length_drop. unfold zeros. rewrite length_replicate. lia.
  - replace (0 <=? e) with true by lia. cbn [n_neg n_int n_frac n_exp from_option]; unfold id.
    rewrite app_nil_r. f_equal. f_equal. destruct (m =? 0) eqn:E0; boolify.
    + subst. unfold digits_value. cbn. unfold digit_value. rewrite code_digit by lia. lia.
    + by rewrite digits_value_app_zeros, Hv.
Qed.

Lemma wf_format_e neg m e : 0 <= m -> wf_num (format_e neg m e) = true.
Proof.
  intros Hm. unfold format_e, wf_num. cbn [n_int n_frac n_exp].
  pose proof (all_digits_digits m Hm) as Hd.
  destruct (digits_spec m Hm) as (_ & _ & c & t & Eq & Hc & Ht). rewrite Eq in *. cbn [take drop].
  set (x := if m =? 0 then 0 else _).
  pose proof (all_digits_digits (Z.abs x) ltac:(lia)) as Hx.
  pose proof (length_digits_pos (Z.abs x) ltac:(lia)).
  assert (is_digit c = true) as Hcd by (cbn in Hd; by boolify).
  apply andb_true_iff; split; [apply andb_true_iff; split|].
  - cbn. rewrite Hcd. cbn. by rewrite orb_true_r.
  - destruct t as [|d t]; [done|]. apply andb_true_iff; split; [|done].
    cbn in Hd. rewrite Hcd in Hd. cbn in *. done.
  - cbn [wf_exp]. rewrite bool_decide_eq_true_2 by (by left). cbn [andb].
    assert (bool_decide ((if x <? 0 then minus_byte else plus_byte) = minus_byte \/
      (if x <? 0 then minus_byte else plus_byte) = plus_byte) = true) as ->
      by (apply bool_decide_eq_true; destruct (x <? 0); auto).
    cbn [andb]. apply andb_true_iff; split.
    + destruct (Z.abs x <? 10); [|done]. by unfold all_digits in *; cbn [forallb].
    + apply bool_decide_eq_true. destruct (Z.abs x <? 10); [done|].
      intros Hn. rewrite Hn in *. cbn in *. lia.
Qed.

Lemma num_value_format_e neg m e : 0 < m -> num_value (format_e neg m e) = (neg, m, e).
Proof.
  intros Hm. destruct (digits_spec m ltac:(lia)) as (Hv & _ & c & t & Eq & _).
  unfold format_e, num_value. cbn [n_neg n_int n_frac n_exp]. rewrite Eq in *. cbn [take drop].
  replace (m =? 0) with false by lia.
  set (x := Z.of_nat (length (c :: t)) + e - 1).
  destruct (digits_spec (Z.abs x) ltac:(lia)) as (Hx & _).
  assert (digits_value (if Z.abs x <? 10 then digit 0 :: digits (Z.abs x) else digits (Z.abs x))
          = Z.abs x) as Hx'.
  { destruct (Z.abs x <? 10); [|done]. rewrite digits_value_cons, Hx. unfold digit_value.
    rewrite code_digit by lia. lia. }
  rewrite Hx'.
  transitivity (neg, digits_value (c :: t),
    (if bool_decide ((if x <? 0 then minus_byte else plus_byte) = minus_byte)
     then - Z.abs x else Z.abs x) - Z.of_nat (length t)).
  { destruct t; [done|]. cbn [from_option app]. done. }
  rewrite Hv. f_equal.
  destruct (x <? 0) eqn:Ex; boolify;
    [rewrite bool_decide_eq_true_2 by done|rewrite bool_decide_eq_false_2 by done];
    cbn [length] in *; lia.
Qed.

Lemma shortest_nonneg f : float_ok f = true -> 0 <= (shortest f).1.
Proof.
  unfold float_ok. intros H. destruct f as [s|s| |s m e]; try done.
  cbn [is_finite andb] in H. destruct (shortest _) as [c x]. cbn [fst]. boolify. lia.
Qed.

(** Both formats read back as the float they print. *)
Lemma ParseFloat_format_f f :
  float_ok f = true ->
  ParseFloat (format_f (sign_of f) (shortest f).1 (shortest f).2) = Some f.
Proof.
  intros H. pose proof (shortest_nonneg f H) as Hm.
  destruct (num_value_format_f (sign_of f) (shortest f).1 (shortest f).2 Hm) as [Hneg Hpos].
  unfold ParseFloat. unfold float_ok in H.
  destruct f as [s|s| |s mm ee]; cbn [is_finite andb] in H; try done.
  destruct (shortest (S754_finite s mm ee)) as [m e]. cbn [fst snd sign_of] in *. boolify.
  assert (round_decimal s m e = S754_finite s mm ee) as Hr by done.
  destruct (decide (e < 0)).
  - rewrite Hneg by lia. by rewrite Hr.
  - rewrite Hpos by lia.
    assert (round_decimal s (m * 10 ^ e) 0 = round_decimal s m e) as ->.
    { unfold round_decimal. assert (0 < 10 ^ e) by (apply Z.pow_pos_nonneg; lia).
      replace (m * 10 ^ e =? 0) with false by nia. replace (m =? 0) with false by lia.
      replace (400 <? e) with false by lia. replace (0 <=? e) with true by lia.
      cbn [Z.ltb Z.leb]. by rewrite Z.pow_0_r, Z.mul_1_r. }
    by rewrite Hr.
Qed.

Lemma ParseFloat_format_e f :
  float_ok f = true -> (forall s, f <> S754_zero s) ->
  ParseFloat (format_e (sign_of f) (shortest f).1 (shortest f).2) = Some f.
Proof.
  intros H Hz. unfold ParseFloat. unfold float_ok in H.
  destruct f as [s|s| |s mm ee]; cbn [is_finite andb] in H; try done; try (by destruct (Hz s)).
  destruct (shortest (S754_finite s mm ee)) as [m e]. cbn [fst snd sign_of] in *. boolify.
  assert (round_decimal s m e = S754_finite s mm ee) as Hr by done.
  rewrite num_value_format_e by lia. by rewrite Hr.
Qed.
