(* ===== verification/GoJson.v ===== *)
(** * Go's encoding/json

    The JSON text the program reads and writes: a tree type, the compact encoder
    ([json.Marshal], HTML escaping on), the decoder ([json.Unmarshal], nesting
    limit 10000), and the Go values ([any]) the two convert from and to. The main
    lemma is the round trip [json_parse_print]: decoding an encoded tree gives the
    tree back with every invalid UTF-8 byte replaced by U+FFFD. *)

From S2P Require Import Prelude GoText GoFloat.

(** ** The JSON tree

    Numbers keep their literal, objects keep the order and the duplicates of
    their members: a struct decoder sees all of them in order. *)
#[local] Unset Elimination Schemes.
Inductive json : Type :=
| JNull
| JBool (b : bool)
| JNum (n : numlit)
| JStr (s : string)
| JArr (l : list json)
| JObj (l : list (string * json)).
#[local] Set Elimination Schemes.

(** Induction with hypotheses for the elements of arrays and objects. *)
Lemma json_nested_ind (P : json -> Prop) :
  P JNull -> (forall b, P (JBool b)) -> (forall n, P (JNum n)) -> (forall s, P (JStr s)) ->
  (forall l, Forall P l -> P (JArr l)) ->
  (forall l, Forall (fun kv => P kv.2) l -> P (JObj l)) ->
  forall j, P j.
Proof.
  intros Hnull Hbool Hnum Hstr Harr Hobj. fix IH 1. intros [| | | |l|l].
  - done.
  - apply Hbool.
  - apply Hnum.
  - apply Hstr.
  - apply Harr. induction l as [|j l IHl]; constructor; [apply IH|exact IHl].
  - apply Hobj. induction l as [|[k j] l IHl]; constructor; [apply IH|exact IHl].
Qed.

(** ** Encoding *)

Definition bs_char : ascii := "\"%char.
Definition quote : ascii := ascii_of_nat 34.

Definition u_escape (r : Z) : bytes :=
  B "\u" ++ [hex_digit (r / 4096 mod 16); hex_digit (r / 256 mod 16);
             hex_digit (r / 16 mod 16); hex_digit (r mod 16)].

(** [appendString] on one ASCII byte: quotes and backslash, the short escapes, the
    other control characters, and [<], [>], [&]. *)
Definition escape_ascii (c : Z) : bytes :=
  if c =? 34 then [bs_char; quote]
  else if c =? 92 then [bs_char; bs_char]
  else if c =? 8 then B "\b"
  else if c =? 12 then B "\f"
  else if c =? 10 then B "\n"
  else if c =? 13 then B "\r"
  else if c =? 9 then B "\t"
  else if (c <? 32) || (c =? 60) || (c =? 62) || (c =? 38) then u_escape c
  else [chr c].

Definition escape_chunk (p : Z * bytes) : bytes :=
  let '(r, bs) := p in
  if r <? 128 then escape_ascii r
  else if (r =? RuneError) && (length bs =? 1)%nat then B "\ufffd"
  else if (r =? 8232) || (r =? 8233) then u_escape r
  else bs.

Definition escape_string (s : string) : bytes := mjoin (escape_chunk <$> chunks (B s)).

(** The encoder is parametric in how the body of a string is escaped: [escape_string]
    here, the RFC 8785 escaping in [Canonicalize]. *)
Definition print_string_with (esc : string -> bytes) (s : string) : bytes :=
  quote :: esc s ++ [quote].

Fixpoint join_comma (ls : list bytes) : bytes :=
  match ls with
  | [] => []
  | [x] => x
  | x :: t => x ++ ","%char :: join_comma t
  end.

Fixpoint json_print_with (esc : string -> bytes) (j : json) : bytes :=
  match j with
  | JNull => B "null"
  | JBool true => B "true"
  | JBool false => B "false"
  | JNum n => print_num n
  | JStr s => print_string_with esc s
  | JArr l => "["%char :: join_comma (map (json_print_with esc) l) ++ ["]"%char]
  | JObj l =>
      "{"%char ::
      join_comma (map (fun kv => print_string_with esc kv.1 ++
                                 ":"%char :: json_print_with esc kv.2) l)
      ++ ["}"%char]
  end.

(** [json.Marshal] of a tree. *)
Definition json_print : json -> bytes := json_print_with escape_string.

(** ** Decoding *)

Definition is_ws (c : ascii) : bool :=
  bool_decide (code c ∈ [32; 9; 10; 13]).

Fixpoint skip_ws (s : bytes) : bytes :=
  match s with
  | c :: t => if is_ws c then skip_ws t else s
  | [] => []
  end.

(** [getu4]: four hexadecimal digits. *)
Definition hex4 (a b c d : ascii) : option Z :=
  w ← hex_value a; x ← hex_value b; y ← hex_value c; z ← hex_value d;
  Some (((w * 16 + x) * 16 + y) * 16 + z).

Definition is_surrogate (r : Z) : bool := (55296 <=? r) && (r <? 57344).

(** [utf16.DecodeRune] of a surrogate pair. *)
Definition decode_pair (r1 r2 : Z) : option Z :=
  if (55296 <=? r1) && (r1 <? 56320) && (56320 <=? r2) && (r2 <? 57344)
  then Some ((r1 - 55296) * 1024 + (r2 - 56320) + 65536) else None.

Definition simple_escape (c : ascii) : option Z :=
  let n := code c in
  if n =? 34 then Some 34 else if n =? 92 then Some 92 else if n =? 47 then Some 47
  else if n =? 98 then Some 8 else if n =? 102 then Some 12 else if n =? 110 then Some 10
  else if n =? 114 then Some 13 else if n =? 116 then Some 9 else None.

Definition push (x : bytes) (r : option (bytes * bytes)) : option (bytes * bytes) :=
  '(y, t) ← r; Some (x ++ y, t).

(** The body of a string after its opening quote: decoded bytes and what follows
    the closing quote. *)
Fixpoint unescape (s : bytes) : option (bytes * bytes) :=
  match s with
  | [] => None
  | c :: t =>
      if code c =? 34 then Some ([], t)
      else if code c =? 92 then
        match t with
        | [] => None
        | e :: t1 =>
            if code e =? 117 then
              match t1 with
              | x1 :: x2 :: x3 :: x4 :: t2 =>
                  match hex4 x1 x2 x3 x4 with
                  | None => None
                  | Some r =>
                      if is_surrogate r then
                        match t2 with
                        | s1 :: s2 :: y1 :: y2 :: y3 :: y4 :: t3 =>
                            match (if (code s1 =? 92) && (code s2 =? 117)
                                   then r2 ← hex4 y1 y2 y3 y4; decode_pair r r2 else None) with
                            | Some d => push (encode_rune d) (unescape t3)
                            | None => push (encode_rune RuneError) (unescape t2)
                            end
                        | _ => push (encode_rune RuneError) (unescape t2)
                        end
                      else push (encode_rune r) (unescape t2)
                  end
              | _ => None
              end
            else match simple_escape e with
            | Some r => push [chr r] (unescape t1)
            | None => None
            end
        end
      else if code c <? 32 then None
      else push [c] (unescape t)
  end.

Definition parse_string (s : bytes) : option (string * bytes) :=
  '(x, t) ← unescape s; Some (S_of (coerce_utf8 x), t).

Fixpoint span_digits (s : bytes) : bytes * bytes :=
  match s with
  | c :: t => if is_digit c then let '(ds, r) := span_digits t in (c :: ds, r) else ([], s)
  | [] => ([], [])
  end.

Definition parse_frac (s : bytes) : option (option bytes * bytes) :=
  match s with
  | c :: t =>
      if bool_decide (c = dot_byte) then
        let '(ds, r) := span_digits t in
        if bool_decide (ds <> []) then Some (Some ds, r) else None
      else Some (None, s)
  | [] => Some (None, [])
  end.

Definition parse_exp (s : bytes) : option (option (ascii * option ascii * bytes) * bytes) :=
  match s with
  | c :: t =>
      if bool_decide (c = "e"%char \/ c = "E"%char) then
        let '(sg, t1) := match t with
                         | d :: t1 => if bool_decide (d = minus_byte \/ d = plus_byte)
                                      then (Some d, t1) else (None, t)
                         | [] => (None, t)
                         end in
        let '(ds, r) := span_digits t1 in
        if bool_decide (ds <> []) then Some (Some (c, sg, ds), r) else None
      else Some (None, s)
  | [] => Some (None, [])
  end.

Definition parse_num (s : bytes) : option (numlit * bytes) :=
  let '(neg, s1) := match s with
                    | c :: t => if bool_decide (c = minus_byte) then (true, t) else (false, s)
                    | [] => (false, s)
                    end in
  let '(ds, s2) := span_digits s1 in
  if wf_int ds then
    '(fr, s3) ← parse_frac s2;
    '(ex, s4) ← parse_exp s3;
    Some (mkNum neg ds fr ex, s4)
  else None.

Definition eat (lit : bytes) (v : json) (s : bytes) : option (json * bytes) :=
  if bool_decide (take (length lit) s = lit) then Some (v, drop (length lit) s) else None.

(** Array elements and object members, at the first one; each consumes at least one
    byte, so the length of the input is enough fuel. *)
Fixpoint parse_elems (pv : bytes -> option (json * bytes)) (fuel : nat) (s : bytes)
  : option (list json * bytes) :=
  match fuel with
  | O => None
  | S fuel =>
      '(v, s1) ← pv s;
      match skip_ws s1 with
      | c :: s2 =>
          if code c =? 44 then '(vs, s3) ← parse_elems pv fuel s2; Some (v :: vs, s3)
          else if code c =? 93 then Some ([v], s2) else None
      | [] => None
      end
  end.

Definition parse_member (pv : bytes -> option (json * bytes)) (s : bytes)
  : option ((string * json) * bytes) :=
  match skip_ws s with
  | q :: s1 =>
      if code q =? 34 then
        '(k, s2) ← parse_string s1;
        match skip_ws s2 with
        | c :: s3 => if code c =? 58 then '(v, s4) ← pv s3; Some ((k, v), s4) else None
        | [] => None
        end
      else None
  | [] => None
  end.

Fixpoint parse_members (pv : bytes -> option (json * bytes)) (fuel : nat) (s : bytes)
  : option (list (string * json) * bytes) :=
  match fuel with
  | O => None
  | S fuel =>
      '(kv, s1) ← parse_member pv s;
      match skip_ws s1 with
      | c :: s2 =>
          if code c =? 44 then '(kvs, s3) ← parse_members pv fuel s2; Some (kv :: kvs, s3)
          else if code c =? 125 then Some ([kv], s2) else None
      | [] => None
      end
  end.

(** [depth] is the nesting still allowed. *)
Fixpoint parse_value (depth : nat) (s : bytes) {struct depth} : option (json * bytes) :=
  match skip_ws s with
  | [] => None
  | c :: t =>
      if code c =? 123 then
        match depth with
        | O => None
        | S depth =>
            match skip_ws t with
            | c' :: t' =>
                if code c' =? 125 then Some (JObj [], t')
                else '(kvs, r) ← parse_members (parse_value depth) (length t) t; Some (JObj kvs, r)
            | [] => None
            end
        end
      else if code c =? 91 then
        match depth with
        | O => None
        | S depth =>
            match skip_ws t with
            | c' :: t' =>
                if code c' =? 93 then Some (JArr [], t')
                else '(vs, r) ← parse_elems (parse_value depth) (length t) t; Some (JArr vs, r)
            | [] => None
            end
        end
      else if code c =? 34 then '(x, r) ← parse_string t; Some (JStr x, r)
      else if code c =? 116 then eat (B "true") (JBool true) (c :: t)
      else if code c =? 102 then eat (B "false") (JBool false) (c :: t)
      else if code c =? 110 then eat (B "null") JNull (c :: t)
      else '(n, r) ← parse_num (c :: t); Some (JNum n, r)
  end.

Definition max_nesting_depth : nat := Z.to_nat 10000.

Definition json_parse (s : bytes) : option json :=
  '(v, r) ← parse_value max_nesting_depth s;
  match skip_ws r with [] => Some v | _ => None end.

(** ** The round trip *)

Lemma push_app x y r : push x (push y r) = push (x ++ y) r.
Proof. destruct r as [[z t]|]; cbn; [by rewrite <- app_assoc|done]. Qed.

(** What the decoder makes of an escaped chunk. *)
Definition raw_chunk (p : Z * bytes) : bytes :=
  let '(r, bs) := p in
  if r <? 128 then bs
  else if (r =? RuneError) && (length bs =? 1)%nat then encode_rune RuneError
  else if (r =? 8232) || (r =? 8233) then encode_rune r
  else bs.

Definition raw_string (s : bytes) : bytes := mjoin (raw_chunk <$> chunks s).

Lemma unescape_ascii b t :
  code b < 128 -> unescape (escape_ascii (code b) ++ t) = push [b] (unescape t).
Proof. destruct b as [[] [] [] [] [] [] [] []]; intros Hb; first [reflexivity|by vm_compute in Hb]. Qed.

Lemma unescape_high bs t :
  Forall (fun c => 128 <= code c) bs -> unescape (bs ++ t) = push bs (unescape t).
Proof.
  induction 1 as [|c bs Hc _ IH]; [cbn [app]; by destruct (unescape t) as [[? ?]|]|].
  cbn [app unescape]. replace (code c =? 34) with false by lia.
  replace (code c =? 92) with false by lia. replace (code c <? 32) with false by lia.
  by rewrite IH, push_app.
Qed.

Lemma unescape_chunk r bs t :
  chunk_shape r bs -> unescape (escape_chunk (r, bs) ++ t) = push (raw_chunk (r, bs)) (unescape t).
Proof.
  intros [(b & -> & -> & Hb)|(Hr & Hl & Hbs)]; unfold escape_chunk, raw_chunk.
  - replace (code b <? 128) with true by lia. by apply unescape_ascii.
  - replace (r <? 128) with false by lia.
    replace (length bs =? 1)%nat with false by (symmetry; apply Nat.eqb_neq; lia).
    rewrite andb_false_r.
    destruct ((r =? 8232) || (r =? 8233)) eqn:E; [|by apply unescape_high].
    apply orb_true_iff in E as [E|E]; boolify; by subst.
Qed.

Lemma unescape_escape s t :
  unescape (escape_string s ++ quote :: t) = Some (raw_string (B s), t).
Proof.
  unfold escape_string, raw_string. generalize (B s) as b. clear s. intros b.
  induction b as [|r bs b Hc Hs Hr IH|c b Hc Hb IH] using chunks_ind; [done| |].
  - rewrite Hc, mjoin_fmap_cons. rewrite <- app_assoc.
    rewrite unescape_chunk by done. by rewrite IH.
  - rewrite Hc, mjoin_fmap_cons. rewrite <- app_assoc.
    change (escape_chunk (RuneError, [c])) with (B "\ufffd").
    change (raw_chunk (RuneError, [c])) with (encode_rune RuneError).
    transitivity (push (encode_rune RuneError)
      (unescape (mjoin (escape_chunk <$> chunks b) ++ quote :: t))); [done|]. by rewrite IH.
Qed.

Lemma runes_app_chunk r bs t :
  (forall t, chunks (bs ++ t) = (r, bs) :: chunks t) -> runes (bs ++ t) = r :: runes t.
Proof. intros H. unfold runes. by rewrite H. Qed.

Lemma runes_raw_string s : runes (raw_string s) = runes s.
Proof.
  unfold raw_string. induction s as [|r bs s Hc Hs Hr IH|c s Hc Hb IH] using chunks_ind; [done| |].
  - rewrite Hc, mjoin_fmap_cons. rewrite (runes_app_chunk r bs s) by done.
    rewrite <- IH. unfold raw_chunk. destruct Hs as [(b & -> & -> & Hb)|(Hge & Hl & Hbs)].
    + replace (code b <? 128) with true by lia. by apply runes_app_chunk.
    + replace (r <? 128) with false by lia.
      replace (length bs =? 1)%nat with false by (symmetry; apply Nat.eqb_neq; lia).
      rewrite andb_false_r. destruct ((r =? 8232) || (r =? 8233)); [|by apply runes_app_chunk].
      unfold runes at 1. by rewrite chunks_encode_rune.
  - rewrite Hc, mjoin_fmap_cons.
    change (raw_chunk (RuneError, [c])) with (encode_rune RuneError).
    unfold runes at 1. rewrite chunks_encode_rune by done. cbn [fmap list_fmap fst].
    fold (runes (mjoin (raw_chunk <$> chunks s))). rewrite IH. unfold runes. by rewrite Hc.
Qed.

(** A Go string as the decoder delivers it. *)
Definition coerce_string (s : string) : string := S_of (coerce_utf8 (B s)).

Lemma coerce_string_idem s : coerce_string (coerce_string s) = coerce_string s.
Proof. unfold coerce_string. by rewrite B_S_of, coerce_utf8_idem. Qed.

Lemma parse_string_print s t :
  parse_string (escape_string s ++ quote :: t) = Some (coerce_string s, t).
Proof.
  unfold parse_string. rewrite unescape_escape. cbn. unfold coerce_string, coerce_utf8.
  by rewrite runes_raw_string.
Qed.

(** Numbers. *)
Definition num_byte (c : ascii) : bool :=
  is_digit c || bool_decide (c ∈ [minus_byte; plus_byte; dot_byte; "e"%char; "E"%char]).

(** What may follow a value: the end, or a byte no number contains. *)
Definition delimited (s : bytes) : Prop := forall c t, s = c :: t -> num_byte c = false.

Lemma span_digits_app ds r :
  all_digits ds = true -> (forall c t, r = c :: t -> is_digit c = false) ->
  span_digits (ds ++ r) = (ds, r).
Proof.
  induction ds as [|c ds IH]; intros Hd Hr.
  - destruct r as [|c t]; [done|]. cbn. by rewrite (Hr c t).
  - unfold all_digits in Hd. cbn in Hd. boolify. cbn. rewrite H. by rewrite IH.
Qed.

Lemma delimited_not_digit r : delimited r -> forall c t, r = c :: t -> is_digit c = false.
Proof. intros H c t E. specialize (H c t E). unfold num_byte in H. by boolify. Qed.

Lemma parse_exp_print x r :
  wf_exp x = true -> delimited r -> parse_exp (print_exp x ++ r) = Some (x, r).
Proof.
  intros Hx Hr. destruct x as [[[m sg] ds]|].
  - cbn in Hx. boolify. cbn [print_exp app parse_exp]. rewrite bool_decide_eq_true_2 by done.
    destruct sg as [c|]; cbn [app].
    + boolify. rewrite bool_decide_eq_true_2 by done.
      rewrite span_digits_app by eauto using delimited_not_digit.
      by rewrite bool_decide_eq_true_2.
    + destruct ds as [|d ds]; [done|]. cbn [app].
      assert (is_digit d = true) as Hd by (unfold all_digits in *; cbn in *; by boolify).
      rewrite bool_decide_eq_false_2 by (intros [->| ->]; done).
      change (d :: ds ++ r) with ((d :: ds) ++ r).
      rewrite span_digits_app by eauto using delimited_not_digit.
      by rewrite bool_decide_eq_true_2.
  - cbn. destruct r as [|c t]; [done|]. cbn. rewrite bool_decide_eq_false_2; [done|].
    specialize (Hr c t eq_refl). intros [->| ->]; done.
Qed.

Lemma print_exp_head x r c t :
  wf_exp x = true -> delimited r -> print_exp x ++ r = c :: t -> is_digit c = false /\ c <> dot_byte.
Proof.
  intros Hx Hr E. destruct x as [[[m sg] ds]|]; cbn in *; boolify.
  - injection E as <- _. destruct H as [->| ->]; done.
  - split; [by apply (delimited_not_digit r Hr c t)|]. specialize (Hr c t E). by intros ->.
Qed.

Lemma parse_num_print n r :
  wf_num n = true -> delimited r -> parse_num (print_num n ++ r) = Some (n, r).
Proof.
  destruct n as [neg ds fr ex]. unfold wf_num, print_num. cbn [n_neg n_int n_frac n_exp].
  intros Hn Hr. boolify. rewrite <- !app_assoc. unfold parse_num.
  assert (all_digits ds = true) as Hds by (destruct ds; [done|]; cbn [wf_int] in *; by boolify).
  set (rest := (match fr with None => [] | Some ds => dot_byte :: ds end) ++ print_exp ex ++ r).
  assert (forall c t, rest = c :: t -> is_digit c = false) as Hrest.
  { intros c t E. subst rest. destruct fr as [f|]; cbn in E; [by simplify_eq|].
    by eapply print_exp_head in E as [? _]. }
  assert (match ((if neg then [minus_byte] else []) ++ ds ++ rest) with
          | c :: t => if bool_decide (c = minus_byte) then (true, t)
                      else (false, (if neg then [minus_byte] else []) ++ ds ++ rest)
          | [] => (false, (if neg then [minus_byte] else []) ++ ds ++ rest)
          end = (neg, ds ++ rest)) as ->.
  { destruct neg; [done|]. destruct ds as [|d ds]; [done|]. cbn.
    rewrite bool_decide_eq_false_2; [done|]. intros ->. done. }
  rewrite span_digits_app by done. replace (wf_int ds) with true by done.
  assert (parse_frac rest = Some (fr, print_exp ex ++ r)) as ->.
  { subst rest. destruct fr as [f|]; cbn [app].
    - boolify. unfold parse_frac. rewrite bool_decide_eq_true_2 by done.
      rewrite span_digits_app by
        (done || (intros c t E; by eapply print_exp_head in E as [? _])).
      by rewrite bool_decide_eq_true_2.
    - destruct (print_exp ex ++ r) as [|c t] eqn:E; [done|]. unfold parse_frac.
      rewrite bool_decide_eq_false_2; [done|]. by eapply print_exp_head in E as [_ ?]. }
  cbn. by rewrite parse_exp_print.
Qed.

(** ** Trees *)
Fixpoint coerce_json (j : json) : json :=
  match j with
  | JStr s => JStr (coerce_string s)
  | JArr l => JArr (map coerce_json l)
  | JObj l => JObj (map (fun kv => (coerce_string kv.1, coerce_json kv.2)) l)
  | _ => j
  end.

Fixpoint wf_json (j : json) : bool :=
  match j with
  | JNum n => wf_num n
  | JArr l => forallb wf_json l
  | JObj l => forallb (fun kv => wf_json kv.2) l
  | _ => true
  end.

Definition max_list (l : list nat) : nat := foldr Nat.max O l.

Fixpoint json_depth (j : json) : nat :=
  match j with
  | JArr l => S (max_list (map json_depth l))
  | JObj l => S (max_list (map (fun kv => json_depth kv.2) l))
  | _ => O
  end.

(** The first byte of an encoded value is no white space and closes nothing. *)
Definition starts_value (c : ascii) : bool :=
  negb (is_ws c) && negb (code c =? 93) && negb (code c =? 125).

Definition num_start (c : ascii) : bool := is_digit c || bool_decide (c = minus_byte).

Lemma print_num_start n :
  wf_num n = true -> exists c t, print_num n = c :: t /\ num_start c = true.
Proof.
  destruct n as [neg ds fr ex]. unfold wf_num, print_num. cbn [n_neg n_int n_frac n_exp].
  intros Hn. boolify. destruct ds as [|d ds]; [done|].
  destruct neg; cbn [app]; eexists _, _; (split; [done|]); [done|].
  unfold num_start. cbn [wf_int] in *. boolify. unfold all_digits in *. cbn [forallb] in *.
  boolify. by match goal with H : is_digit d = true |- _ => rewrite H end.
Qed.

Lemma num_start_plain c : num_start c = true ->
  starts_value c = true /\ (code c =? 123) = false /\ (code c =? 91) = false /\
  (code c =? 34) = false /\ (code c =? 116) = false /\ (code c =? 102) = false /\
  (code c =? 110) = false.
Proof. destruct c as [[] [] [] [] [] [] [] []]; intros H; by vm_compute in *. Qed.

Section print_with.
Context (esc : string -> bytes).
Hypothesis parse_esc :
  forall s t, parse_string (esc s ++ quote :: t) = Some (coerce_string s, t).
#[local] Abbreviation json_print := (json_print_with esc).
#[local] Abbreviation print_string := (print_string_with esc).

Lemma json_print_start j :
  wf_json j = true -> exists c t, json_print j = c :: t /\ starts_value c = true.
Proof.
  destruct j as [|[]|n| | |]; intros Hj; try (by eexists _, _).
  cbn [wf_json] in Hj. destruct (print_num_start n Hj) as (c & t & E & Hc).
  exists c, t. split; [done|]. by apply num_start_plain in Hc as [? _].
Qed.

Lemma starts_value_ws c t : starts_value c = true -> skip_ws (c :: t) = c :: t.
Proof. unfold starts_value. intros H. boolify. cbn. by replace (is_ws c) with false. Qed.

Lemma join_comma_cons x y t : join_comma (x :: y :: t) = x ++ ","%char :: join_comma (y :: t).
Proof. done. Qed.

Lemma length_join_comma (ls : list bytes) :
  Forall (fun b => b <> []) ls -> (length ls <= length (join_comma ls))%nat.
Proof.
  induction 1 as [|x [|y t] Hx Ht IH]; [done|destruct x; [done|cbn; lia]|].
  rewrite join_comma_cons, length_app. cbn [length] in *. lia.
Qed.

Lemma delimited_cons c t : num_byte c = false -> delimited (c :: t).
Proof. intros H c' t' E. by simplify_eq. Qed.

(** [pv] decodes every element of [l], whatever delimited text follows. *)
Definition decodes (pv : bytes -> option (json * bytes)) (j : json) : Prop :=
  forall r, delimited r -> pv (json_print j ++ r) = Some (coerce_json j, r).

Lemma parse_elems_print pv l fuel r :
  l <> [] -> Forall (decodes pv) l -> (length l <= fuel)%nat ->
  parse_elems pv fuel (join_comma (map json_print l) ++ "]"%char :: r)
  = Some (map coerce_json l, r).
Proof.
  revert fuel. induction l as [|j [|j' l] IH]; intros fuel Hne Hl Hf; [done| |];
    apply Forall_cons in Hl as [Hj Hl]; destruct fuel as [|fuel]; cbn [length] in Hf; try lia.
  - cbn [map join_comma parse_elems]. rewrite Hj by (by apply delimited_cons). done.
  - cbn [map]. rewrite join_comma_cons, <- app_assoc. cbn [parse_elems app].
    rewrite Hj by (by apply delimited_cons). cbn [mbind option_bind].
    change (skip_ws (","%char :: ?x)) with (","%char :: x). cbn [skip_ws].
    change (code "," =? 44) with true. cbn match.
    specialize (IH fuel ltac:(done) Hl ltac:(cbn; lia)). cbn [map] in IH. rewrite IH. done.
Qed.

Lemma parse_member_print pv k v r :
  decodes pv v -> delimited r ->
  parse_member pv ((print_string k ++ ":"%char :: json_print v) ++ r)
  = Some ((coerce_string k, coerce_json v), r).
Proof.
  intros Hv Hr. unfold print_string_with, parse_member. cbn [app].
  change (skip_ws (quote :: ?x)) with (quote :: x).
  rewrite <- !app_assoc. cbn [app skip_ws]. change (is_ws quote) with false.
  change (code quote =? 34) with true. cbn match.
  rewrite parse_esc. cbn [mbind option_bind].
  change (skip_ws (":"%char :: ?x)) with (":"%char :: x). cbn [skip_ws].
  change (is_ws ":"%char) with false. change (code ":" =? 58) with true. cbn match.
  by rewrite Hv.
Qed.

Lemma parse_members_print pv (l : list (string * json)) fuel r :
  l <> [] -> Forall (fun kv => decodes pv kv.2) l -> (length l <= fuel)%nat ->
  parse_members pv fuel
    (join_comma (map (fun kv => print_string kv.1 ++ ":"%char :: json_print kv.2) l)
     ++ "}"%char :: r)
  = Some (map (fun kv => (coerce_string kv.1, coerce_json kv.2)) l, r).
Proof.
  revert fuel. induction l as [|[k j] [|kj' l] IH]; intros fuel Hne Hl Hf; [done| |];
    apply Forall_cons in Hl as [Hj Hl]; destruct fuel as [|fuel]; cbn [length] in Hf; try lia.
  - cbn [map join_comma parse_members fst snd].
    rewrite parse_member_print by (done || by apply delimited_cons). done.
  - cbn [map fst snd]. rewrite join_comma_cons, <- app_assoc. cbn [parse_members app].
    rewrite parse_member_print by (done || by apply delimited_cons). cbn [mbind option_bind].
    cbn [skip_ws]. change (is_ws ","%char) with false. change (code "," =? 44) with true. cbn match.
    specialize (IH fuel ltac:(done) Hl ltac:(cbn; lia)). cbn [map fst snd] in IH. rewrite IH. done.
Qed.

Lemma max_list_le l d : (max_list l <= d)%nat -> Forall (fun n => (n <= d)%nat) l.
Proof.
  induction l as [|n l IH]; intros H; [constructor|].
  change (Nat.max n (max_list l) <= d)%nat in H. constructor; [lia|apply IH; lia].
Qed.

Lemma eat_app lit v r : eat lit v (lit ++ r) = Some (v, r).
Proof.
  unfold eat. rewrite take_app_length, drop_app_length. by rewrite bool_decide_eq_true_2.
Qed.

Lemma forallb_Forall_iff {A} (f : A -> bool) l : forallb f l = true <-> Forall (fun x => f x = true) l.
Proof.
  rewrite forallb_forall, Forall_forall. split; intros H x Hx; apply H; by apply list_elem_of_In.
Qed.

Lemma decodes_elements {A} (f : A -> json) d (l : list A) :
  Forall (fun x => forall d r, wf_json (f x) = true -> (json_depth (f x) <= d)%nat -> delimited r ->
    parse_value d (json_print (f x) ++ r) = Some (coerce_json (f x), r)) l ->
  forallb (fun x => wf_json (f x)) l = true ->
  (max_list (map (fun x => json_depth (f x)) l) <= d)%nat ->
  Forall (fun x => decodes (parse_value d) (f x)) l.
Proof.
  intros IH Hwf Hd. apply forallb_Forall_iff in Hwf. apply max_list_le in Hd.
  rewrite Forall_fmap in Hd. rewrite Forall_forall in *. intros x Hx r Hr.
  apply IH; auto. by apply (Hd x).
Qed.

Lemma print_nonempty j : wf_json j = true -> json_print j <> [].
Proof. intros H. by destruct (json_print_start j H) as (c & t & -> & _). Qed.

(** Decoding an encoded tree, with any delimited text after it. *)
Lemma parse_value_print j d r :
  wf_json j = true -> (json_depth j <= d)%nat -> delimited r ->
  parse_value d (json_print j ++ r) = Some (coerce_json j, r).
Proof.
  revert d r. induction j as [|b|n|s|l IH|l IH] using json_nested_ind; intros d r Hwf Hd Hr.
  - by destruct d.
  - by destruct b, d.
  - cbn [wf_json json_print_with coerce_json] in *.
    pose proof (parse_num_print n r Hwf Hr) as Hp.
    destruct (print_num_start n Hwf) as (c & t & E & Hc). rewrite E in *. cbn [app] in *.
    destruct (num_start_plain c Hc) as (Hs & E1 & E2 & E3 & E4 & E5 & E6).
    destruct d; cbn [parse_value]; rewrite starts_value_ws by done;
      rewrite E1, E2, E3, E4, E5, E6; by rewrite Hp.
  - cbn [json_print_with coerce_json]. unfold print_string_with. cbn [app]. rewrite <- app_assoc.
    pose proof (parse_esc s r) as Hp.
    destruct d; cbn [parse_value skip_ws]; change (is_ws quote) with false; cbn match;
      change (code quote =? 123) with false; change (code quote =? 91) with false;
      change (code quote =? 34) with true; cbn match; cbn [app]; by rewrite Hp.
  - cbn [json_depth wf_json] in Hd, Hwf. destruct d as [|d]; [lia|].
    cbn [json_print_with coerce_json app parse_value skip_ws]. change (is_ws "["%char) with false.
    change (code "[" =? 123) with false. change (code "[" =? 91) with true. cbn match.
    rewrite <- app_assoc. cbn [app].
    destruct l as [|j l]; [done|].
    pose proof (decodes_elements id d (j :: l) IH Hwf (le_S_n _ _ Hd)) as Hdec.
    assert (Forall (fun b => b <> []) (map json_print (j :: l))) as Hne.
    { rewrite Forall_fmap. apply forallb_Forall_iff in Hwf.
      eapply Forall_impl; [exact Hwf|]. intros x. apply print_nonempty. }
    pose proof (length_join_comma _ Hne) as Hlen. rewrite length_map in Hlen.
    cbn [forallb] in Hwf. apply andb_true_iff in Hwf as [Hj _].
    destruct (json_print_start j Hj) as (c & t & E & Hc).
    destruct (join_comma (map json_print (j :: l)) ++ "]"%char :: r) as [|c' t'] eqn:Ej.
    { destruct l; cbn [map join_comma] in Ej; rewrite E in Ej; done. }
    assert (c' = c) as ->.
    { destruct l; cbn [map join_comma] in Ej; rewrite E in Ej; cbn in Ej; by simplify_eq. }
    rewrite starts_value_ws by done.
    replace (code c =? 93) with false by (unfold starts_value in Hc; boolify; lia).
    rewrite <- Ej. rewrite parse_elems_print; [done|done|done|].
    rewrite length_app. lia.
  - cbn [json_depth wf_json] in Hd, Hwf. destruct d as [|d]; [lia|].
    cbn [json_print_with coerce_json app parse_value skip_ws]. change (is_ws "{"%char) with false.
    change (code "{" =? 123) with true. cbn match.
    rewrite <- app_assoc. cbn [app].
    destruct l as [|[k j] l]; [done|].
    pose proof (decodes_elements snd d ((k, j) :: l) IH Hwf (le_S_n _ _ Hd)) as Hdec.
    set (pm := fun kv : string * json => print_string kv.1 ++ ":"%char :: json_print kv.2).
    assert (Forall (fun b => b <> []) (map pm ((k, j) :: l))) as Hne.
    { rewrite Forall_fmap. rewrite Forall_forall. by intros x _. }
    pose proof (length_join_comma _ Hne) as Hlen. rewrite length_map in Hlen.
    destruct (join_comma (map pm ((k, j) :: l)) ++ "}"%char :: r) as [|c' t'] eqn:Ej.
    { by destruct l. }
    assert (c' = quote) as ->.
    { destruct l; cbn [map join_comma] in Ej; unfold pm, print_string_with in Ej; cbn in Ej;
      by simplify_eq. }
    cbn [skip_ws]. change (is_ws quote) with false. change (code quote =? 125) with false. cbn match.
    rewrite <- Ej. rewrite parse_members_print; [done|done|done|].
    rewrite length_app. lia.
Qed.

Lemma json_parse_print_with j :
  wf_json j = true -> (json_depth j <= max_nesting_depth)%nat ->
  json_parse (json_print j) = Some (coerce_json j).
Proof.
  intros Hj Hd. unfold json_parse. rewrite <- (app_nil_r (json_print j)).
  by rewrite parse_value_print.
Qed.
End print_with.

Lemma json_parse_print j :
  wf_json j = true -> (json_depth j <= max_nesting_depth)%nat ->
  json_parse (json_print j) = Some (coerce_json j).
Proof. apply json_parse_print_with, parse_string_print. Qed.

(** ** Encoded JSON is one line *)

Definition printable (c : ascii) : Prop := 32 <= code c.

Lemma hex_digit_printable n : 0 <= n < 16 -> printable (hex_digit n).
Proof.
  intros Hn. unfold printable, hex_digit. destruct (n <? 10) eqn:?; boolify; rewrite code_chr; lia.
Qed.

Lemma u_escape_printable r : Forall printable (u_escape r).
Proof.
  unfold u_escape. apply Forall_app. split; [repeat constructor; by vm_compute|].
  repeat constructor; apply hex_digit_printable; apply Z.mod_pos_bound; lia.
Qed.

Lemma escape_ascii_printable b : code b < 128 -> Forall printable (escape_ascii (code b)).
Proof.
  unfold printable. destruct b as [[] [] [] [] [] [] [] []]; intros Hb;
    first [by vm_compute in Hb|repeat constructor; by vm_compute].
Qed.

Lemma escape_string_printable s : Forall printable (escape_string s).
Proof.
  unfold escape_string. generalize (B s). clear s. intros b.
  induction b as [|r bs b Hc Hs Hr IH|c b Hc Hb IH] using chunks_ind; [constructor| |].
  - rewrite Hc, mjoin_fmap_cons. apply Forall_app. split; [|done].
    destruct Hs as [(c & -> & -> & Hlt)|(Hge & Hl & Hbs)]; unfold escape_chunk.
    + replace (code c <? 128) with true by lia. by apply escape_ascii_printable.
    + replace (r <? 128) with false by lia.
      replace (length bs =? 1)%nat with false by (symmetry; apply Nat.eqb_neq; lia).
      rewrite andb_false_r. destruct (_ || _); [apply u_escape_printable|].
      eapply Forall_impl; [exact Hbs|]. unfold printable. intros x Hx. cbn in Hx. lia.
  - rewrite Hc, mjoin_fmap_cons. apply Forall_app. split; [|done].
    change (escape_chunk (RuneError, [c])) with (B "\ufffd"). repeat constructor; by vm_compute.
Qed.

Lemma print_string_printable s : Forall printable (print_string_with escape_string s).
Proof.
  unfold print_string_with. constructor; [by vm_compute|]. apply Forall_app.
  split; [apply escape_string_printable|by repeat constructor].
Qed.

Lemma digits_printable ds : all_digits ds = true -> Forall printable ds.
Proof.
  rewrite all_digits_Forall. intros H. eapply Forall_impl; [exact H|]. unfold is_digit, printable.
  intros c Hc. cbn in Hc. boolify. lia.
Qed.

Lemma print_num_printable n : wf_num n = true -> Forall printable (print_num n).
Proof.
  unfold wf_num, print_num. intros [[Hi Hf]%andb_true_iff He]%andb_true_iff.
  repeat apply Forall_app_2.
  - destruct (n_neg n); repeat constructor. by vm_compute.
  - apply digits_printable. unfold wf_int in Hi. destruct (n_int n); [done|].
    by apply andb_true_iff in Hi as [? _].
  - destruct (n_frac n); [|constructor]. apply andb_true_iff in Hf as [? _].
    constructor; [by vm_compute|by apply digits_printable].
  - destruct (n_exp n) as [[[m sg] ds]|]; [|constructor]. cbn [wf_exp print_exp] in *.
    apply andb_true_iff in He as [[[Hm Hs]%andb_true_iff Hd]%andb_true_iff _]. boolify.
    constructor; [destruct Hm as [-> | ->]; by vm_compute|]. apply Forall_app_2; [|by apply digits_printable].
    destruct sg; [|constructor]. boolify. destruct Hs as [-> | ->]; repeat constructor; by vm_compute.
Qed.

Lemma join_comma_printable ls : Forall (Forall printable) ls -> Forall printable (join_comma ls).
Proof.
  induction 1 as [|x ls Hx Hls IH]; [constructor|]. destruct ls as [|y ls]; [done|].
  rewrite join_comma_cons. apply Forall_app_2; [done|]. constructor; [by vm_compute|done].
Qed.

Lemma json_print_printable j : wf_json j = true -> Forall printable (json_print j).
Proof.
  induction j as [|b|n|s|l IH|l IH] using json_nested_ind; intros Hj.
  - repeat constructor; by vm_compute.
  - destruct b; repeat constructor; by vm_compute.
  - by apply print_num_printable.
  - apply print_string_printable.
  - cbn [wf_json] in Hj. apply forallb_Forall_iff in Hj.
    unfold json_print. cbn [json_print_with]. constructor; [by vm_compute|].
    apply Forall_app_2; [|repeat constructor; by vm_compute]. apply join_comma_printable, Forall_fmap.
    rewrite Forall_forall in *. intros x Hx. apply IH; auto.
  - cbn [wf_json] in Hj. apply forallb_Forall_iff in Hj.
    unfold json_print. cbn [json_print_with]. constructor; [by vm_compute|].
    apply Forall_app_2; [|repeat constructor; by vm_compute]. apply join_comma_printable, Forall_fmap.
    rewrite Forall_forall in *. intros [k x] Hx.
    apply Forall_app_2; [apply print_string_printable|].
    constructor; [by vm_compute|]. apply (IH _ Hx). by apply (Hj _ Hx).
Qed.

#[global] Arguments coerce_string : simpl never.
#[global] Arguments coerce_json : simpl nomatch.
