(* ===== verification/GoIndent.v ===== *)
(** * Indented JSON: [json.MarshalIndent]

    The encoder's text with a newline and an indent before every element and closing
    bracket, and a space after every colon. The decoder skips the white space, so an
    indented text reads back like the compact one. *)

From S2P Require Import Prelude GoText GoFloat GoJson.

Section indent.
Context (step : bytes).

(** A line break at a nesting level. *)
Definition break (level : nat) : bytes := chr 10 :: mjoin (replicate level step).

Fixpoint json_indent (level : nat) (j : json) : bytes :=
  match j with
  | JArr (x :: l) =>
      "["%char :: join_comma (map (fun x => break (S level) ++ json_indent (S level) x) (x :: l))
      ++ break level ++ ["]"%char]
  | JObj (kv :: l) =>
      "{"%char :: join_comma (map (fun kv => break (S level) ++ print_string_with escape_string kv.1 ++
                               ":"%char :: " "%char :: json_indent (S level) kv.2) (kv :: l))
      ++ break level ++ ["}"%char]
  | _ => json_print j
  end.

Hypothesis step_ws : Forall (fun c => is_ws c = true) step.

Lemma break_ws level : Forall (fun c => is_ws c = true) (break level).
Proof.
  constructor; [by vm_compute|]. induction level as [|n IH]; [constructor|]. cbn.
  by apply Forall_app.
Qed.

Lemma skip_ws_app w s : Forall (fun c => is_ws c = true) w -> skip_ws (w ++ s) = skip_ws s.
Proof. induction 1 as [|c w Hc _ IH]; [done|]. cbn. by rewrite Hc. Qed.

Lemma parse_value_ws d w s : Forall (fun c => is_ws c = true) w -> parse_value d (w ++ s) = parse_value d s.
Proof. intros H. destruct d; cbn [parse_value]; by rewrite skip_ws_app. Qed.

Lemma delimited_break level s : delimited (break level ++ s).
Proof. by apply delimited_cons. Qed.

Lemma indent_start level j :
  wf_json j = true -> exists c t, json_indent level j = c :: t /\ starts_value c = true.
Proof.
  intros Hj. destruct j as [| | | |[|x l]|[|kv l]]; try (by apply (json_print_start escape_string));
    by eexists _, _.
Qed.

Definition decodes_indented (pv : bytes -> option (json * bytes)) (level : nat) (j : json) : Prop :=
  forall r, delimited r -> pv (json_indent level j ++ r) = Some (coerce_json j, r).

Section elements.
Context (d level : nat).

Lemma parse_elems_indent l fuel r :
  l <> [] -> Forall (decodes_indented (parse_value d) (S level)) l -> (length l <= fuel)%nat ->
  parse_elems (parse_value d) fuel
    (join_comma (map (fun x => break (S level) ++ json_indent (S level) x) l) ++ break level ++ "]"%char :: r)
  = Some (map coerce_json l, r).
Proof.
  revert fuel. induction l as [|j [|j' l] IH]; intros fuel Hne Hl Hf; [done| |];
    apply Forall_cons in Hl as [Hj Hl]; destruct fuel as [|fuel]; cbn [length] in Hf; try lia.
  - cbn [map join_comma parse_elems]. rewrite <- app_assoc, parse_value_ws, Hj
      by (apply break_ws || apply delimited_break). cbn [mbind option_bind].
    by rewrite skip_ws_app by apply break_ws.
  - cbn [map]. rewrite join_comma_cons, <- !app_assoc. cbn [parse_elems app].
    rewrite parse_value_ws, Hj by (apply break_ws || by apply delimited_cons). cbn [mbind option_bind].
    cbn [skip_ws]. change (is_ws ","%char) with false. change (code "," =? 44) with true. cbn match.
    specialize (IH fuel ltac:(done) Hl ltac:(cbn; lia)). cbn [map] in IH. by rewrite IH.
Qed.

Definition indented_member (kv : string * json) : bytes :=
  break (S level) ++ print_string_with escape_string kv.1 ++ ":"%char :: " "%char :: json_indent (S level) kv.2.

Lemma parse_member_indent k v r :
  decodes_indented (parse_value d) (S level) v -> delimited r ->
  parse_member (parse_value d) (indented_member (k, v) ++ r) = Some ((coerce_string k, coerce_json v), r).
Proof.
  intros Hv Hr. unfold indented_member, print_string_with, parse_member. cbn [fst snd].
  rewrite <- !app_assoc, skip_ws_app by apply break_ws. cbn [app skip_ws].
  change (is_ws quote) with false. change (code quote =? 34) with true. cbn match.
  rewrite <- !app_assoc. cbn [app]. rewrite parse_string_print. cbn [mbind option_bind skip_ws].
  change (is_ws ":"%char) with false. change (code ":" =? 58) with true. cbn match.
  change (" "%char :: json_indent (S level) v ++ r) with ([" "%char] ++ json_indent (S level) v ++ r).
  rewrite parse_value_ws, Hv; [done|done|]. by constructor.
Qed.

Lemma parse_members_indent l fuel r :
  l <> [] -> Forall (fun kv => decodes_indented (parse_value d) (S level) kv.2) l -> (length l <= fuel)%nat ->
  parse_members (parse_value d) fuel
    (join_comma (map indented_member l) ++ break level ++ "}"%char :: r)
  = Some (map (fun kv => (coerce_string kv.1, coerce_json kv.2)) l, r).
Proof.
  revert fuel. induction l as [|[k j] [|kj' l] IH]; intros fuel Hne Hl Hf; [done| |];
    apply Forall_cons in Hl as [Hj Hl]; destruct fuel as [|fuel]; cbn [length] in Hf; try lia.
  - cbn [map join_comma parse_members fst snd].
    rewrite parse_member_indent by (done || apply delimited_break). cbn [mbind option_bind].
    by rewrite skip_ws_app by apply break_ws.
  - cbn [map]. rewrite join_comma_cons, <- app_assoc. cbn [parse_members app].
    rewrite parse_member_indent by (done || by apply delimited_cons). cbn [mbind option_bind skip_ws].
    change (is_ws ","%char) with false. change (code "," =? 44) with true. cbn match.
    specialize (IH fuel ltac:(done) Hl ltac:(cbn; lia)). cbn [map fst snd] in IH |- *. by rewrite IH.
Qed.
End elements.

Lemma decodes_indented_elements {A} (f : A -> json) d level (l : list A) :
  Forall (fun x => forall d level r, wf_json (f x) = true -> (json_depth (f x) <= d)%nat -> delimited r ->
    parse_value d (json_indent level (f x) ++ r) = Some (coerce_json (f x), r)) l ->
  forallb (fun x => wf_json (f x)) l = true ->
  (max_list (map (fun x => json_depth (f x)) l) <= d)%nat ->
  Forall (fun x => decodes_indented (parse_value d) level (f x)) l.
Proof.
  intros IH Hwf Hd. apply forallb_Forall_iff in Hwf. apply max_list_le in Hd.
  rewrite Forall_fmap in Hd. rewrite Forall_forall in *. intros x Hx r Hr.
  apply IH; auto. by apply (Hd x).
Qed.

Lemma join_comma_break {A} (f : A -> bytes) x l w r :
  exists t, join_comma (map (fun x => chr 10 :: w ++ f x) (x :: l)) ++ r = chr 10 :: w ++ f x ++ t.
Proof.
  destruct l as [|y l]; cbn [map]; [|rewrite join_comma_cons]; cbn [join_comma app];
    rewrite <- !app_assoc; by eexists.
Qed.

Lemma length_join_break {A} (f : A -> bytes) w l r :
  (length l <= length (join_comma (map (fun x => chr 10 :: w ++ f x) l) ++ r))%nat.
Proof.
  rewrite length_app. pose proof (length_join_comma (map (fun x => chr 10 :: w ++ f x) l)) as H.
  rewrite length_map in H. etrans; [apply H|lia]. by apply Forall_fmap, Forall_true.
Qed.

Lemma parse_value_indent j d level r :
  wf_json j = true -> (json_depth j <= d)%nat -> delimited r ->
  parse_value d (json_indent level j ++ r) = Some (coerce_json j, r).
Proof.
  revert d level r. induction j as [|b|n|s|l IH|l IH] using json_nested_ind; intros d level r Hwf Hd Hr;
    try (by apply (parse_value_print escape_string parse_string_print)).
  - destruct l as [|j l]; [by apply (parse_value_print escape_string parse_string_print)|].
    cbn [json_depth wf_json] in Hd, Hwf. destruct d as [|d]; [lia|].
    pose proof (decodes_indented_elements id d (S level) (j :: l) IH Hwf (le_S_n _ _ Hd)) as Hdec.
    cbn [json_indent coerce_json app parse_value skip_ws]. change (is_ws "["%char) with false.
    change (code "[" =? 123) with false. change (code "[" =? 91) with true. cbn match.
    rewrite <- !app_assoc. cbn [app].
    set (t := join_comma _ ++ _).
    cbn [forallb] in Hwf. apply andb_true_iff in Hwf as [Hj _].
    destruct (indent_start (S level) j Hj) as (c & u & E & Hc).
    assert (exists v, skip_ws t = c :: v) as [v Ev].
    { destruct (join_comma_break (json_indent (S level)) j l (mjoin (replicate (S level) step))
        (break level ++ "]"%char :: r)) as [v Ev]. unfold t, break at 1. cbn [app]. rewrite Ev, E.
      exists (u ++ v). change (chr 10 :: ?w ++ (c :: u) ++ v) with ((chr 10 :: w) ++ (c :: u) ++ v).
      rewrite skip_ws_app by apply (break_ws (S level)). cbn [app]. by apply starts_value_ws. }
    rewrite Ev. replace (code c =? 93) with false by (unfold starts_value in Hc; boolify; lia).
    unfold t. rewrite parse_elems_indent; [done|done|done|].
    apply (length_join_break (json_indent (S level)) (mjoin (replicate (S level) step))).
  - destruct l as [|[k j] l]; [by apply (parse_value_print escape_string parse_string_print)|].
    cbn [json_depth wf_json] in Hd, Hwf. destruct d as [|d]; [lia|].
    pose proof (decodes_indented_elements snd d (S level) ((k, j) :: l) IH Hwf (le_S_n _ _ Hd)) as Hdec.
    cbn [json_indent coerce_json app parse_value skip_ws]. change (is_ws "{"%char) with false.
    change (code "{" =? 123) with true. cbn match.
    rewrite <- !app_assoc. cbn [app].
    set (pm := fun kv : string * json => print_string_with escape_string kv.1 ++
      ":"%char :: " "%char :: json_indent (S level) kv.2).
    set (t := join_comma _ ++ _).
    assert (exists v, skip_ws t = quote :: v) as [v Ev].
    { destruct (join_comma_break pm (k, j) l (mjoin (replicate (S level) step))
        (break level ++ "}"%char :: r)) as [v Ev]. unfold t, break at 1. cbn [app].
      change (fun kv : string * json => chr 10 :: mjoin (replicate (S level) step) ++ _)
        with (fun kv => chr 10 :: mjoin (replicate (S level) step) ++ pm kv).
      rewrite Ev. unfold pm at 1, print_string_with. cbn [fst snd app]. eexists.
      change (chr 10 :: ?w ++ quote :: ?z) with ((chr 10 :: w) ++ quote :: z).
      rewrite skip_ws_app by apply (break_ws (S level)). by apply starts_value_ws. }
    rewrite Ev. change (code quote =? 125) with false. cbn match.
    unfold t. change (fun kv : string * json => break (S level) ++ _) with (indented_member level).
    rewrite parse_members_indent; [done|done|done|].
    apply (length_join_break pm (mjoin (replicate (S level) step))).
Qed.

Lemma json_parse_indent j :
  wf_json j = true -> (json_depth j <= max_nesting_depth)%nat ->
  json_parse (json_indent 0 j) = Some (coerce_json j).
Proof.
  intros Hj Hd. unfold json_parse. rewrite <- (app_nil_r (json_indent 0 j)).
  by rewrite parse_value_indent.
Qed.
End indent.
