(* ===== verification/GoValue.v ===== *)
(** * Go values behind [interface{}] and their JSON form

    [any] has the dynamic types the program stores in [Event.Data] and passes to
    [json.Marshal]; [to_json] is the encoder's view of a value, [of_json] what
    [json.Unmarshal] into an [interface{}] builds. *)

From S2P Require Import Prelude GoText GoFloat GoJson.

#[local] Unset Elimination Schemes.
(** A [map[string]any] is an association list with distinct keys, in the (arbitrary)
    order an iteration visits it. A [map[string]string] and a struct are different
    dynamic types: a type switch on [map[string]any] does not match them. A
    [json.RawMessage] is the JSON value its text holds; it is written back compacted,
    which for a text the encoder produced is the same text. *)
Inductive any : Type :=
| ANil
| ABool (b : bool)
| AInt (z : Z)
| AFloat (f : float64)
| AString (s : string)
| ASlice (l : list any)
| AMap (l : list (string * any))
| AStringMap (l : list (string * string))
| AStruct (l : list (string * any))
| ARaw (j : json).
#[local] Set Elimination Schemes.

Lemma any_nested_ind (P : any -> Prop) :
  P ANil -> (forall b, P (ABool b)) -> (forall z, P (AInt z)) -> (forall f, P (AFloat f)) ->
  (forall s, P (AString s)) -> (forall l, Forall P l -> P (ASlice l)) ->
  (forall l, Forall (fun kv => P kv.2) l -> P (AMap l)) ->
  (forall l, P (AStringMap l)) ->
  (forall l, Forall (fun kv => P kv.2) l -> P (AStruct l)) ->
  (forall j, P (ARaw j)) ->
  forall v, P v.
Proof.
  intros Hn Hb Hz Hf Hs Hl Hm Hsm Hst Hr. fix IH 1. intros [| | | | |l|l|l|l|j].
  - done.
  - apply Hb.
  - apply Hz.
  - apply Hf.
  - apply Hs.
  - apply Hl. induction l as [|v l IHl]; constructor; [apply IH|exact IHl].
  - apply Hm. induction l as [|[k v] l IHl]; constructor; [apply IH|exact IHl].
  - apply Hsm.
  - apply Hst. induction l as [|[k v] l IHl]; constructor; [apply IH|exact IHl].
  - apply Hr.
Qed.

(** ** Maps as association lists *)
Fixpoint assoc {V} (k : string) (l : list (string * V)) : option V :=
  match l with
  | [] => None
  | (k', v) :: t => if String.eqb k k' then Some v else assoc k t
  end.

(** [m[k] = v] *)
Fixpoint assoc_set {V} (k : string) (v : V) (l : list (string * V)) : list (string * V) :=
  match l with
  | [] => [(k, v)]
  | (k', v') :: t => if String.eqb k k' then (k, v) :: t else (k', v') :: assoc_set k v t
  end.

Definition assoc_of_list {V} (l : list (string * V)) : list (string * V) :=
  fold_left (fun m kv => assoc_set kv.1 kv.2 m) l [].

Definition key_less {V} (p q : string * V) : bool := string_ltb p.1 q.1.

Lemma assoc_set_lookup {V} k (v : V) l k' :
  assoc k' (assoc_set k v l) = if String.eqb k' k then Some v else assoc k' l.
Proof.
  induction l as [|[k1 v1] l IH]; [done|]. cbn [assoc_set assoc].
  destruct (String.eqb_spec k k1) as [->|Hne]; cbn [assoc].
  - by destruct (String.eqb k' k1).
  - rewrite IH. destruct (String.eqb_spec k' k1) as [->|]; [|done].
    destruct (String.eqb_spec k1 k) as [->|]; [by destruct Hne|done].
Qed.

Lemma assoc_set_fresh {V} k (v : V) l : k ∉ l.*1 -> assoc_set k v l = l ++ [(k, v)].
Proof.
  induction l as [|[k1 v1] l IH]; [done|]. cbn. intros Hk.
  rewrite not_elem_of_cons in Hk. destruct Hk as [Hk1 Hk].
  destruct (String.eqb_spec k k1) as [->|]; [done|]. by rewrite IH.
Qed.

Lemma assoc_of_list_nodup {V} (l : list (string * V)) : NoDup l.*1 -> assoc_of_list l = l.
Proof.
  unfold assoc_of_list. intros Hl.
  enough (forall acc, NoDup (acc ++ l).*1 ->
    fold_left (fun m kv => assoc_set kv.1 kv.2 m) l acc = acc ++ l) as H by (by apply H).
  clear Hl. induction l as [|[k v] l IH]; intros acc Hacc; [by rewrite app_nil_r|]. cbn.
  rewrite fmap_app in Hacc. cbn in Hacc. apply NoDup_app in Hacc as (Ha & Hd & Hl).
  rewrite assoc_set_fresh by (intros Hin; apply (Hd k Hin); apply list_elem_of_here).
  rewrite IH; [by rewrite <- app_assoc|].
  rewrite <- app_assoc. rewrite fmap_app. cbn. apply NoDup_app. auto.
Qed.

Lemma assoc_perm {V} (l l' : list (string * V)) k :
  NoDup l.*1 -> l ≡ₚ l' -> assoc k l = assoc k l'.
Proof.
  intros Hn Hp. induction Hp as [|[k1 v1] l l' Hp IH|[k1 v1] [k2 v2] l|l1 l2 l3 H1 IH1 H2 IH2].
  - done.
  - cbn in *. apply NoDup_cons in Hn as [_ Hn]. by rewrite IH.
  - cbn in *. apply NoDup_cons in Hn as [Hn _]. rewrite not_elem_of_cons in Hn.
    destruct (String.eqb_spec k k2), (String.eqb_spec k k1); subst; try done.
    by destruct Hn.
  - rewrite IH1 by done. apply IH2. by rewrite <- H1.
Qed.

Lemma NoDup_fst_unique {K V} (l : list (K * V)) k v w :
  NoDup l.*1 -> (k, v) ∈ l -> (k, w) ∈ l -> v = w.
Proof.
  induction l as [|[k1 v1] l IH]; cbn; [by intros _ ?%elem_of_nil|].
  intros [Hk Hn]%NoDup_cons Hv Hw.
  apply elem_of_cons in Hv as [Hv|Hv], Hw as [Hw|Hw]; simplify_eq; [done| | |by apply IH];
    destruct Hk; apply list_elem_of_fmap; eexists (_, _); by split.
Qed.

(** ** The encoder's view *)

Definition int_lit (z : Z) : numlit := mkNum (z <? 0) (digits (Z.abs z)) None None.

Definition fabs (f : float64) : float64 :=
  match f with
  | S754_zero _ => S754_zero false
  | S754_infinity _ => S754_infinity false
  | S754_finite _ m e => S754_finite false m e
  | S754_nan => S754_nan
  end.

Definition f1e21 : float64 := round_decimal false 1 21.
Definition f1em6 : float64 := round_decimal false 1 (-6).

(** The float encoder and the canonicalizer choose the exponent form alike. *)
Definition use_exponent (f : float64) : bool :=
  match f with
  | S754_zero _ => false
  | _ => fltb (fabs f) f1em6 || fleb f1e21 (fabs f)
  end.

(** [e-09] becomes [e-9]. *)
Definition clean_exponent (n : numlit) : numlit :=
  match n_exp n with
  | Some (m, sg, [c; d]) =>
      if code c =? 48 then mkNum (n_neg n) (n_int n) (n_frac n) (Some (m, sg, [d])) else n
  | _ => n
  end.

Definition json_float (f : float64) : numlit :=
  let '(m, e) := shortest f in
  if use_exponent f then clean_exponent (format_e (sign_of f) m e)
  else format_f (sign_of f) m e.

Fixpoint to_json (v : any) : option json :=
  match v with
  | ANil => Some JNull
  | ABool b => Some (JBool b)
  | AInt z => Some (JNum (int_lit z))
  | AFloat f => if is_finite f then Some (JNum (json_float f)) else None
  | AString s => Some (JStr s)
  | ASlice l => JArr <$> mapM to_json l
  | AMap l =>
      (fun kvs => JObj (insertion_sort key_less kvs)) <$>
      mapM (fun kv => pair kv.1 <$> to_json kv.2) l
  | AStringMap l => Some (JObj (insertion_sort key_less (map (fun kv => (kv.1, JStr kv.2)) l)))
  | AStruct l => JObj <$> mapM (fun kv => pair kv.1 <$> to_json kv.2) l
  | ARaw j => if wf_json j then Some j else None
  end.

(** ** What Unmarshal builds in an [interface{}] *)
Fixpoint of_json (j : json) : option any :=
  match j with
  | JNull => Some ANil
  | JBool b => Some (ABool b)
  | JNum n => AFloat <$> ParseFloat n
  | JStr s => Some (AString s)
  | JArr l => ASlice <$> mapM of_json l
  | JObj l =>
      (fun kvs => AMap (assoc_of_list kvs)) <$> mapM (fun kv => pair kv.1 <$> of_json kv.2) l
  end.

Definition Marshal (v : any) : option bytes := json_print <$> to_json v.
Definition Unmarshal (b : bytes) : option any := json_parse b ≫= of_json.

(** Encoding and decoding a value: what [json.Unmarshal] gives after [json.Marshal],
    computed on the tree. *)
Definition normalise (v : any) : option any :=
  j ← to_json v;
  if (json_depth j <=? max_nesting_depth)%nat then of_json (coerce_json j) else None.

(** ** Lemmas on the conversions *)

Lemma mapM_ext_Forall {A C} (f g : A -> option C) l :
  Forall (fun x => f x = g x) l -> mapM f l = mapM g l.
Proof. induction 1 as [|x l Hx _ IH]; [done|]. cbn. rewrite Hx. by rewrite IH. Qed.

Lemma mapM_Some_Forall2 {A C} (f : A -> option C) l l' :
  mapM f l = Some l' <-> Forall2 (fun x y => f x = Some y) l l'.
Proof. apply mapM_Some. Qed.

Lemma Forall2_pair_keys {A C} (f : A -> option C) (l : list (string * A)) l' :
  Forall2 (fun x y => pair x.1 <$> f x.2 = Some y) l l' -> l'.*1 = l.*1.
Proof.
  induction 1 as [|[k v] y l l' H _ IH]; [done|]. cbn in *.
  apply fmap_Some in H as (w & _ & ->). cbn. by rewrite IH.
Qed.

Lemma shortest_from_nonneg fuel f num den k n :
  0 <= num -> 0 < den -> 0 <= (shortest_from fuel f num den k n).1.
Proof.
  intros Hnum Hden. revert n.
  assert (forall n, Forall (fun c => 0 <= c) (candidates num den k n)) as Hc.
  { intros n. unfold candidates. set (num' := if 0 <=? _ then _ else _).
    set (den' := if 0 <=? _ then _ else _).
    assert (0 <= num') by (unfold num'; destruct (0 <=? k - n) eqn:?; boolify;
      [lia|apply Z.mul_nonneg_nonneg; [lia|apply Z.pow_nonneg; lia]]).
    assert (0 < den') by (unfold den'; destruct (0 <=? k - n) eqn:?; boolify;
      [apply Z.mul_pos_pos; [lia|apply Z.pow_pos_nonneg; lia]|lia]).
    assert (0 <= num' / den') by (by apply Z.div_pos).
    destruct (num' mod den' =? 0); [repeat constructor; lia|].
    destruct (_ || _); repeat constructor; lia. }
  induction fuel as [|fuel IH]; intros n; cbn [shortest_from].
  - specialize (Hc 17). destruct (candidates num den k 17); [cbn; lia|]. cbn.
    by apply Forall_cons in Hc as [? _].
  - destruct (filter _ (candidates num den k n)) as [|c t] eqn:E; [apply IH|]. cbn.
    specialize (Hc n). rewrite Forall_forall in Hc. apply Hc.
    assert (c ∈ filter (fun c => round_decimal (sign_of f) c (k - n) = f) (candidates num den k n))
      as Hin by (rewrite E; left). by apply list_elem_of_filter in Hin as [_ ?].
Qed.

Lemma strip_zeros_nonneg fuel m e : 0 <= m -> 0 <= (strip_zeros fuel m e).1.
Proof.
  revert m e. induction fuel as [|fuel IH]; intros m e Hm; cbn [strip_zeros]; [done|].
  destruct (_ || _); [done|]. apply IH. by apply Z.div_pos.
Qed.

Lemma shortest_nonneg' f : 0 <= (shortest f).1.
Proof.
  destruct f as [| | |s m e]; try done. unfold shortest.
  destruct (ratio m e) as [num den] eqn:E. unfold ratio in E.
  assert (0 <= num /\ 0 < den) as [Hn Hd].
  { destruct (0 <=? e) eqn:?; boolify; simplify_eq; split; lia. }
  pose proof (shortest_from_nonneg 17 (S754_finite s m e) num den (decimal_point num den) 1 Hn Hd).
  destruct (shortest_from _ _ _ _ _ _) as [c x]. by apply strip_zeros_nonneg.
Qed.

Lemma wf_clean_exponent n : wf_num n = true -> wf_num (clean_exponent n) = true.
Proof.
  unfold clean_exponent, wf_num. destruct n as [neg ds fr ex]. cbn [n_exp n_int n_frac n_neg].
  destruct ex as [[[m sg] [|c [|d [|? ?]]]]|]; try done.
  destruct (code c =? 48); [|done]. cbn [n_exp n_int n_frac n_neg wf_exp]. intros H. boolify.
  unfold all_digits in *. cbn [forallb] in *. boolify.
  rewrite !andb_true_iff; split_and!; first [done|by apply bool_decide_eq_true].
Qed.

Lemma wf_json_float f : wf_num (json_float f) = true.
Proof.
  unfold json_float. pose proof (shortest_nonneg' f) as H. destruct (shortest f) as [m e].
  cbn in H. destruct (use_exponent f); [apply wf_clean_exponent|];
    [by apply wf_format_e|by apply wf_format_f].
Qed.

Lemma wf_int_lit z : wf_num (int_lit z) = true.
Proof. unfold int_lit, wf_num. cbn [n_int n_frac n_exp wf_exp]. by rewrite wf_int_digits by lia. Qed.

Lemma wf_json_obj_perm l l' : l ≡ₚ l' -> wf_json (JObj l) = true -> wf_json (JObj l') = true.
Proof.
  cbn [wf_json]. intros Hp. rewrite !forallb_Forall_iff. intros H. by rewrite <- Hp.
Qed.

Lemma to_json_wf v j : to_json v = Some j -> wf_json j = true.
Proof.
  revert j. induction v as [|b|z|f|s|l IH|l IH|l|l IH|rj] using any_nested_ind; intros j Hj;
    cbn [to_json] in Hj; simplify_eq; try done.
  - cbn [wf_json]. apply wf_int_lit.
  - destruct (is_finite f); simplify_eq. apply wf_json_float.
  - apply fmap_Some in Hj as (l' & Hl & ->). apply mapM_Some in Hl.
    cbn [wf_json]. apply forallb_Forall_iff.
    induction Hl; inversion IH; constructor; eauto.
  - apply fmap_Some in Hj as (l' & Hl & ->). apply mapM_Some in Hl.
    eapply wf_json_obj_perm; [symmetry; apply insertion_sort_perm|].
    cbn [wf_json]. apply forallb_Forall_iff.
    induction Hl as [|[k v] y l l' Hy _ IHl]; inversion IH; constructor; eauto.
    cbn in Hy. apply fmap_Some in Hy as (w & Hw & ->). eauto.
  - eapply wf_json_obj_perm; [symmetry; apply insertion_sort_perm|].
    cbn [wf_json]. apply forallb_Forall_iff, Forall_fmap, Forall_true. done.
  - apply fmap_Some in Hj as (l' & Hl & ->). apply mapM_Some in Hl.
    cbn [wf_json]. apply forallb_Forall_iff.
    induction Hl as [|[k v] y l l' Hy _ IHl]; inversion IH; constructor; eauto.
    cbn in Hy. apply fmap_Some in Hy as (w & Hw & ->). eauto.
  - destruct (wf_json rj) eqn:E; by simplify_eq.
Qed.

(** [json.Unmarshal] after [json.Marshal]. *)
Lemma Unmarshal_Marshal v b :
  Marshal v = Some b ->
  (forall j, to_json v = Some j -> (json_depth j <= max_nesting_depth)%nat) ->
  Unmarshal b = normalise v.
Proof.
  unfold Marshal, Unmarshal, normalise. intros Hb Hd.
  apply fmap_Some in Hb as (j & Hj & ->). rewrite Hj. cbn.
  rewrite json_parse_print by eauto using to_json_wf.
  cbn. by replace (json_depth j <=? max_nesting_depth)%nat with true
    by (symmetry; apply Nat.leb_le; auto).
Qed.
