(* ===== verification/GoStruct.v ===== *)
(** * Structs behind [encoding/json]

    The encoder's struct fields ([omitempty] strings and pointers) and the decoder's
    rules for a struct target: a member goes to the field with its exact name, else to
    the first field whose name folds to the same letters; [null] leaves a field as it
    is (and clears pointers and interfaces); a member of another JSON type is an error;
    unknown members are skipped; a member that occurs twice is decoded twice. *)

From S2P Require Import Prelude GoText GoFloat GoJson GoValue.

(** ** Field names *)

(** [foldName]: ASCII letters to upper case, and the two other runes of their
    case-folding orbits (long s, Kelvin sign). Field names are ASCII, so no other
    rune can fold to one of theirs. *)
Definition fold_rune (r : Z) : Z :=
  if (97 <=? r) && (r <=? 122) then r - 32
  else if r =? 383 then 83
  else if r =? 8490 then 75
  else r.

Definition fold_name (s : string) : list Z := fold_rune <$> runes (B s).

(** The field a member's key selects. *)
Definition resolve (names : list string) (k : string) : option string :=
  if bool_decide (k ∈ names) then Some k
  else List.find (fun n => bool_decide (fold_name n = fold_name k)) names.

(** ** Decoding *)

Section decode_field.
Context {A : Type} (names : list string) (name : string) (dec : json -> A -> option A).

(** The value of one field after every member is decoded in order. *)
Fixpoint decode_field (l : list (string * json)) (x : A) : option A :=
  match l with
  | [] => Some x
  | (k, j) :: t =>
      if bool_decide (resolve names k = Some name) then dec j x ≫= decode_field t
      else decode_field t x
  end.
End decode_field.

Definition dec_string (j : json) (x : string) : option string :=
  match j with JNull => Some x | JStr s => Some s | _ => None end.

Definition dec_bool (j : json) (x : bool) : option bool :=
  match j with JNull => Some x | JBool b => Some b | _ => None end.

Definition dec_int (j : json) (x : Z) : option Z :=
  match j with JNull => Some x | JNum n => ParseInt n | _ => None end.

Definition dec_float (j : json) (x : float64) : option float64 :=
  match j with JNull => Some x | JNum n => ParseFloat n | _ => None end.

Definition dec_any (j : json) (_ : any) : option any := of_json j.

(** A pointer field: nil stays nil on [null]; otherwise the pointee is allocated
    (or reused) and decoded into. *)
Definition dec_ptr {A} (zero : A) (dec : json -> A -> option A) (j : json) (x : option A) :
    option (option A) :=
  match j with JNull => Some None | _ => Some <$> dec j (default zero x) end.

(** ** Encoding *)

Definition omit_string (k s : string) : list (string * any) :=
  if String.eqb s "" then [] else [(k, AString s)].

Definition omit_ptr {A} (f : A -> any) (k : string) (x : option A) : list (string * any) :=
  match x with None => [] | Some a => [(k, f a)] end.

Definition omit_bool (k : string) (b : bool) : list (string * any) :=
  if b then [(k, ABool true)] else [].

(** ** Lookups in encoded structs *)

Lemma assoc_app {V} k (l l' : list (string * V)) :
  assoc k (l ++ l') = match assoc k l with Some v => Some v | None => assoc k l' end.
Proof.
  induction l as [|[k1 v1] l IH]; [done|]. cbn. by destruct (String.eqb k k1).
Qed.

Lemma option_match_id {A} (x : option A) : match x with Some v => Some v | None => None end = x.
Proof. by destruct x. Qed.

Lemma assoc_omit_string k k' s :
  assoc k (omit_string k' s) =
  if String.eqb k k' then (if String.eqb s "" then None else Some (AString s)) else None.
Proof. unfold omit_string. destruct (String.eqb s ""); cbn; by destruct (String.eqb k k'). Qed.

Lemma assoc_omit_ptr {A} (f : A -> any) k k' x :
  assoc k (omit_ptr f k' x) = if String.eqb k k' then f <$> x else None.
Proof. destruct x; cbn; by destruct (String.eqb k k'). Qed.

Lemma assoc_omit_bool k k' b :
  assoc k (omit_bool k' b) =
  if String.eqb k k' then (if b then Some (ABool true) else None) else None.
Proof. destruct b; cbn; by destruct (String.eqb k k'). Qed.

#[export] Hint Rewrite @assoc_app assoc_omit_string @assoc_omit_ptr assoc_omit_bool : atb.

Lemma assoc_None {V} k (l : list (string * V)) : k ∉ l.*1 -> assoc k l = None.
Proof.
  induction l as [|[k1 v1] l IH]; [done|]. cbn. rewrite not_elem_of_cons. intros [H1 H2].
  destruct (String.eqb_spec k k1); [done|auto].
Qed.

Lemma assoc_elem {V} k v (l : list (string * V)) : NoDup l.*1 -> (k, v) ∈ l <-> assoc k l = Some v.
Proof.
  intros Hn. induction l as [|[k1 v1] l IH]; cbn; [by split; [intros ?%elem_of_nil|]|].
  apply NoDup_cons in Hn as [Hk Hn]. rewrite elem_of_cons, IH by done.
  destruct (String.eqb_spec k k1) as [->|Hne].
  - split; [|intros; simplify_eq; by left]. intros [?|H]; [by simplify_eq|].
    apply IH in H; [|done]. destruct Hk. apply list_elem_of_fmap. by exists (k1, v).
  - split; [|by right]. intros [?|?]; [by simplify_eq|done].
Qed.

(** When the members carry exact, distinct field names, a field is decoded from the one
    member with its name. *)
Lemma decode_field_assoc {A} names name (dec : json -> A -> option A) l x :
  NoDup l.*1 -> l.*1 ⊆ names ->
  decode_field names name dec l x =
  match assoc name l with None => Some x | Some j => dec j x end.
Proof.
  revert x. induction l as [|[k j] l IH]; intros x Hn Hs; [done|].
  cbn in Hn, Hs. apply NoDup_cons in Hn as [Hk Hn].
  assert (l.*1 ⊆ names) as Hs' by (intros y Hy; apply Hs; by right).
  assert (resolve names k = Some k) as Hr.
  { unfold resolve. rewrite bool_decide_true by (apply Hs; left). done. }
  cbn [decode_field assoc]. rewrite Hr.
  destruct (String.eqb_spec name k) as [->|Hne].
  - rewrite bool_decide_true by done. destruct (dec j x) as [y|]; [|done]. cbn.
    rewrite IH by done. by rewrite assoc_None.
  - rewrite bool_decide_false by congruence. by apply IH.
Qed.

(** ** Structs as decoded values *)

(** A value after one round through the encoder and the decoder, without the nesting
    limit. *)
Definition redecode (v : any) : option any := j ← to_json v; of_json (coerce_json j).

Lemma normalise_redecode v w : normalise v = Some w -> redecode v = Some w.
Proof.
  unfold normalise, redecode. destruct (to_json v) as [j|]; cbn; [|done].
  by destruct (json_depth j <=? max_nesting_depth)%nat.
Qed.

Lemma redecode_struct l :
  NoDup l.*1 -> Forall (fun k => coerce_string k = k) l.*1 ->
  redecode (AStruct l) = AMap <$> mapM (fun kv => pair kv.1 <$> redecode kv.2) l.
Proof.
  intros Hn Hk. unfold redecode at 1. cbn [to_json].
  assert (forall kvs, mapM (fun kv => pair kv.1 <$> to_json kv.2) l = Some kvs -> kvs.*1 = l.*1)
    as Hkeys by (intros kvs H; apply mapM_Some in H; by apply Forall2_pair_keys in H).
  assert (mapM (fun kv => pair kv.1 <$> redecode kv.2) l =
    kvs ← mapM (fun kv => pair kv.1 <$> to_json kv.2) l;
    mapM (fun kv => pair kv.1 <$> of_json (coerce_json kv.2)) kvs) as ->.
  { clear. induction l as [|[k v] l IH]; [done|]. cbn [mapM fst snd]. rewrite IH.
    unfold redecode. destruct (to_json v) as [j|]; cbn; [|done].
    destruct (mapM (fun kv => pair kv.1 <$> to_json kv.2) l) as [kvs|]; cbn; [done|].
    by destruct (of_json (coerce_json j)). }
  destruct (mapM (fun kv => pair kv.1 <$> to_json kv.2) l) as [kvs|]; [|done].
  specialize (Hkeys kvs eq_refl). rewrite <- Hkeys in Hn, Hk. clear Hkeys l.
  cbn [fmap option_fmap option_map mbind option_bind coerce_json of_json].
  replace (mapM (fun kv => pair kv.1 <$> of_json kv.2)
      (map (fun kv => (coerce_string kv.1, coerce_json kv.2)) kvs))
    with (mapM (fun kv => pair kv.1 <$> of_json (coerce_json kv.2)) kvs).
  - destruct (mapM _ kvs) as [m|] eqn:E; [|done]. cbn. f_equal. f_equal.
    apply mapM_Some in E. apply (Forall2_pair_keys (fun j => of_json (coerce_json j))) in E.
    apply assoc_of_list_nodup. by rewrite E.
  - clear Hn. induction kvs as [|[k j] kvs IH]; [done|]. cbn in Hk. apply Forall_cons in Hk as [Hk Hks].
    cbn [map mapM fst snd]. rewrite Hk. by rewrite IH.
Qed.

Lemma assoc_mapM {V W} (f : V -> option W) l m k :
  mapM (fun kv => pair kv.1 <$> f kv.2) l = Some m -> assoc k m = assoc k l ≫= f.
Proof.
  intros H. apply mapM_Some in H. induction H as [|[k1 v1] y l m Hy _ IH]; [done|].
  cbn in Hy. apply fmap_Some in Hy as (w & Hw & ->). cbn.
  by destruct (String.eqb k k1).
Qed.

Lemma mapM_keys {V W} (f : V -> option W) (l : list (string * V)) m :
  mapM (fun kv => pair kv.1 <$> f kv.2) l = Some m -> m.*1 = l.*1.
Proof. intros H. apply mapM_Some in H. by apply Forall2_pair_keys in H. Qed.

(** ** Field lists follow the declaration *)

Lemma sub_field {V} k (v : V) (l : list (string * V)) ns :
  l.*1 `sublist_of` ns -> ((k, v) :: l).*1 `sublist_of` k :: ns.
Proof. intros H. cbn. by apply sublist_skip. Qed.

Lemma sub_omit_string k s (l : list (string * any)) ns :
  l.*1 `sublist_of` ns -> (omit_string k s ++ l).*1 `sublist_of` k :: ns.
Proof. intros H. unfold omit_string. destruct (String.eqb s ""); [by apply sublist_cons|by apply sub_field]. Qed.

Lemma sub_omit_ptr {A} (f : A -> any) k x (l : list (string * any)) ns :
  l.*1 `sublist_of` ns -> (omit_ptr f k x ++ l).*1 `sublist_of` k :: ns.
Proof. intros H. destruct x; [by apply sub_field|by apply sublist_cons]. Qed.

Lemma sub_omit_bool k b (l : list (string * any)) ns :
  l.*1 `sublist_of` ns -> (omit_bool k b ++ l).*1 `sublist_of` k :: ns.
Proof. intros H. destruct b; [by apply sub_field|by apply sublist_cons]. Qed.

(** Proves that a struct's field list is a sublist of its declared names. *)
Ltac solve_fields :=
  repeat (cbn [app]; first
    [ apply sub_omit_string | apply sub_omit_ptr | apply sub_omit_bool | apply sub_field
    | apply sublist_nil
    | rewrite <- (app_nil_r (omit_string _ _)) | rewrite <- (app_nil_r (omit_ptr _ _ _))
    | rewrite <- (app_nil_r (omit_bool _ _)) ]).

(** A struct type: its names are distinct and plain. *)
Definition good_names (names : list string) : bool :=
  bool_decide (NoDup names) && forallb (fun k => bool_decide (coerce_string k = k)) names.

Lemma good_names_sub names ks :
  good_names names = true -> ks `sublist_of` names ->
  NoDup ks /\ ks ⊆ names /\ Forall (fun k => coerce_string k = k) ks.
Proof.
  intros H Hs. unfold good_names in H. boolify. split_and!.
  - by eapply sublist_NoDup.
  - intros x Hx. by eapply elem_of_sublist.
  - match goal with H : forallb _ _ = true |- _ => apply forallb_Forall_iff in H; rename H into Hf end.
    rewrite Forall_forall in Hf |- *. intros k Hk.
    specialize (Hf k (elem_of_sublist _ _ _ Hk Hs)). by boolify.
Qed.

(** Decoding an encoded struct, field by field. *)
Lemma struct_decode names l j :
  good_names names = true -> l.*1 `sublist_of` names -> to_json (AStruct l) = Some j ->
  exists jl, coerce_json j = JObj jl /\
    (forall k v, assoc k l = Some v -> is_Some (to_json v)) /\
    forall A name (dec : json -> A -> option A) x,
      decode_field names name dec jl x =
      match assoc name l with
      | None => Some x
      | Some v => jv ← to_json v; dec (coerce_json jv) x
      end.
Proof.
  intros Hg Hs Hj. destruct (good_names_sub _ _ Hg Hs) as (Hn & Hsub & Hc).
  cbn [to_json] in Hj. apply fmap_Some in Hj as (kvs & Hk & ->). cbn [coerce_json].
  assert (forall k v, assoc k l = Some v -> is_Some (to_json v)) as Htot.
  { intros k v. apply mapM_Some in Hk. clear -Hk.
    induction Hk as [|[k1 v1] y l m Hy _ IH]; [done|]. cbn in *.
    destruct (String.eqb k k1); [intros; simplify_eq|exact IH].
    apply fmap_Some in Hy as (w & Hw & _). by exists w. }
  eexists. split_and!; [reflexivity|exact Htot|]. intros A name dec x.
  pose proof (mapM_keys _ _ _ Hk) as Hkeys.
  assert ((map (fun kv => (coerce_string kv.1, coerce_json kv.2)) kvs).*1 = l.*1) as E.
  { rewrite <- Hkeys in Hc |- *. clear -Hc. induction kvs as [|[k v] kvs IH]; [done|].
    cbn in *. apply Forall_cons in Hc as [Hk Hc]. by rewrite Hk, IH. }
  rewrite decode_field_assoc by (by rewrite E).
  replace (assoc name (map (fun kv => (coerce_string kv.1, coerce_json kv.2)) kvs))
    with (coerce_json <$> assoc name kvs).
  - rewrite (assoc_mapM _ _ _ name Hk). destruct (assoc name l) as [v|] eqn:Ea; [|done]. cbn.
    by destruct (Htot name v Ea) as [jv ->].
  - rewrite <- Hkeys in Hc. clear -Hc. induction kvs as [|[k v] kvs IH]; [done|]. cbn in *.
    apply Forall_cons in Hc as [Hk Hc]. rewrite Hk. destruct (String.eqb name k); [done|auto].
Qed.
