(* ===== verification/GoUnicode.v ===== *)
(** * Case folding and quoting

    [strings.EqualFold], [strings.ToLower], [strings.HasPrefix], [strings.Contains] and
    [strconv.Quote]. What they do with ASCII is written out; the tables of package
    [unicode] beyond ASCII are an argument. *)

From S2P Require Import Prelude GoText.

(** The Unicode tables for runes above ASCII: a representative of a rune's case-folding
    orbit, its lower case, and [unicode.IsPrint]. The two orbits that join ASCII letters
    with other runes (long s, Kelvin sign) are in the functions below. *)
Class Unicode := {
  fold_high : Z -> Z;
  lower_high : Z -> Z;
  print_high : Z -> bool
}.

(** The tables of a program that only sees ASCII. *)
Definition ascii_only : Unicode := {| fold_high r := r; lower_high r := r; print_high _ := false |}.

Section unicode.
Context `{Unicode}.

Definition lower_ascii (r : Z) : Z := if (65 <=? r) && (r <=? 90) then r + 32 else r.

(** ** [strings.EqualFold] *)

Definition simple_fold (r : Z) : Z :=
  if r <? 128 then lower_ascii r
  else if r =? 383 then 115
  else if r =? 8490 then 107
  else fold_high r.

Definition EqualFold (s t : string) : bool :=
  bool_decide (simple_fold <$> runes (B s) = simple_fold <$> runes (B t)).

(** ** [strings.ToLower] *)

Definition to_lower (r : Z) : Z :=
  if r <? 128 then lower_ascii r else if r =? 8490 then 107 else lower_high r.

Definition ToLower (s : string) : string := S_of (encode_runes (to_lower <$> runes (B s))).

(** ** [strconv.Quote] *)

Definition hex2 (n : Z) : bytes := [hex_digit (n / 16 mod 16); hex_digit (n mod 16)].

Definition quote_rune (r : Z) (bs : bytes) : bytes :=
  if (r =? RuneError) && (length bs =? 1)%nat then
    match bs with c :: _ => B "\x" ++ hex2 (code c) | [] => [] end
  else if (r =? 34) || (r =? 92) then [chr 92; chr r]
  else if if r <? 128 then (32 <=? r) && (r <? 127) else print_high r then encode_rune r
  else if r =? 7 then B "\a"
  else if r =? 8 then B "\b"
  else if r =? 12 then B "\f"
  else if r =? 10 then B "\n"
  else if r =? 13 then B "\r"
  else if r =? 9 then B "\t"
  else if r =? 11 then B "\v"
  else if (r <? 32) || (r =? 127) then B "\x" ++ hex2 r
  else if r <? 65536 then B "\u" ++ hex2 (r / 256) ++ hex2 r
  else B "\U" ++ hex2 (r / 16777216) ++ hex2 (r / 65536) ++ hex2 (r / 256) ++ hex2 r.

Definition Quote (s : string) : string :=
  S_of (chr 34 :: mjoin ((fun p => quote_rune p.1 p.2) <$> chunks (B s)) ++ [chr 34]).
End unicode.

(** ** Prefixes and substrings *)

Fixpoint prefix_of_bytes (p s : bytes) : bool :=
  match p, s with
  | [], _ => true
  | _, [] => false
  | a :: p, b :: s => bool_decide (a = b) && prefix_of_bytes p s
  end.

Definition HasPrefix (s p : string) : bool := prefix_of_bytes (B p) (B s).

Fixpoint contains_bytes (p s : bytes) : bool :=
  prefix_of_bytes p s || match s with [] => false | _ :: s => contains_bytes p s end.

Definition Contains (s p : string) : bool := contains_bytes (B p) (B s).
