(* ===== verification/GoTime.v ===== *)
(** * RFC 3339 time stamps: [time.Parse(time.RFC3339, _)]

    An accepted time stamp is the instant it names, in nanoseconds from the Unix epoch.
    [time.Parse] is more lenient than the RFC: one digit for the hour, a comma before
    the fraction, and zone offsets up to 24:60 are accepted. *)

From S2P Require Import Prelude GoText.

(** ** Instants *)

Definition is_leap (y : Z) : bool := (y mod 4 =? 0) && (negb (y mod 100 =? 0) || (y mod 400 =? 0)).

Definition days_in (month year : Z) : Z :=
  if month =? 2 then if is_leap year then 29 else 28
  else if bool_decide (month ∈ [4; 6; 9; 11]) then 30
  else 31.

(** Days from 1970-01-01; years start in March, so the leap day comes last. *)
Definition days_from_epoch (year month day : Z) : Z :=
  let y := if month <=? 2 then year - 1 else year in
  let m := (month + 9) mod 12 in
  365 * y + y / 4 - y / 100 + y / 400 + (153 * m + 2) / 5 + (day - 1) - 719468.

(** ** The parser *)

Definition digit_at (b : bytes) (i : nat) : bool := match b !! i with Some c => is_digit c | None => false end.

(** [getnum]: two digits, or one if [fixed] is false. *)
Definition getnum (fixed : bool) (b : bytes) : option (Z * bytes) :=
  match b with
  | c :: rest =>
      if negb (is_digit c) then None
      else match rest with
           | d :: rest' => if is_digit d then Some (digit_value c * 10 + digit_value d, rest')
                           else if fixed then None else Some (digit_value c, rest)
           | [] => if fixed then None else Some (digit_value c, rest)
           end
  | [] => None
  end.

Definition skip (c : ascii) (b : bytes) : option bytes :=
  match b with d :: rest => if bool_decide (d = c) then Some rest else None | [] => None end.

Fixpoint span_digits (b : bytes) : bytes * bytes :=
  match b with
  | c :: rest => if is_digit c then let '(ds, r) := span_digits rest in (c :: ds, r) else ([], b)
  | [] => ([], [])
  end.

(** The fraction of a second, if one follows: nine digits count, the rest is skipped. *)
Definition fraction (b : bytes) : Z * bytes :=
  match b with
  | c :: rest =>
      if (bool_decide (c = "."%char) || bool_decide (c = ","%char)) && digit_at rest 0 then
        let '(ds, r) := span_digits rest in
        (digits_value (take 9 (ds ++ replicate 9 "0"%char)), r)
      else (0, b)
  | [] => (0, b)
  end.

(** The offset of the zone from UTC, in seconds. *)
Definition zone (b : bytes) : option Z :=
  match b with
  | [c] => if bool_decide (c = "Z"%char) then Some 0 else None
  | [s; h1; h2; c; m1; m2] =>
      if bool_decide (c = ":"%char) then
        hr ← getnum true [h1; h2]; mm ← getnum true [m1; m2];
        if (24 <? hr.1) || (60 <? mm.1) then None
        else let off := (hr.1 * 60 + mm.1) * 60 in
             if bool_decide (s = "+"%char) then Some off
             else if bool_decide (s = "-"%char) then Some (- off)
             else None
      else None
  | _ => None
  end.

(** A time stamp as it is written: the date, the time and the offset from UTC in seconds. *)
Record civil := mkCivil { year : Z; month : Z; day : Z; hour : Z; min : Z; sec : Z; nsec : Z; offset : Z }.

Definition parse_civil (b : bytes) : option civil :=
  match b with
  | y1 :: y2 :: y3 :: y4 :: b =>
      if forallb is_digit [y1; y2; y3; y4] then
        let year := digits_value [y1; y2; y3; y4] in
        b ← skip "-"%char b; '(month, b) ← getnum true b;
        b ← skip "-"%char b; '(day, b) ← getnum true b;
        b ← skip "T"%char b; '(hour, b) ← getnum false b;
        b ← skip ":"%char b; '(min, b) ← getnum true b;
        b ← skip ":"%char b; '(sec, b) ← getnum true b;
        let '(nsec, b) := fraction b in
        off ← zone b;
        if (1 <=? month) && (month <=? 12) && (hour <? 24) && (min <? 60) && (sec <? 60) &&
           (1 <=? day) && (day <=? days_in month year)
        then Some (mkCivil year month day hour min sec nsec off)
        else None
      else None
  | _ => None
  end.

Definition instant_of (c : civil) : Z :=
  (days_from_epoch (year c) (month c) (day c) * 86400 + hour c * 3600 + min c * 60 + sec c - offset c) * 1000000000 + nsec c.

Definition parse_rfc3339 (b : bytes) : option Z := instant_of <$> parse_civil b.

(** ** [Format(time.RFC3339)] of a time that was parsed *)

(** [n] in decimal with at least [width] digits. *)
Definition padded (width : nat) (n : Z) : bytes :=
  let ds := digits n in replicate (width - length ds) (digit 0) ++ ds.

Definition format_zone (off : Z) : bytes :=
  if off =? 0 then ["Z"%char]
  else
    let mins := Z.abs (off / 60) in
    (if off <? 0 then "-"%char else "+"%char) :: padded 2 (mins / 60) ++ ":"%char :: padded 2 (mins mod 60).

Definition format_civil (c : civil) : bytes :=
  padded 4 (year c) ++ "-"%char :: padded 2 (month c) ++ "-"%char :: padded 2 (day c) ++
  "T"%char :: padded 2 (hour c) ++ ":"%char :: padded 2 (min c) ++ ":"%char :: padded 2 (sec c) ++
  format_zone (offset c).

(** ** [Format(time.RFC3339Nano)] of an instant in UTC *)

(** The civil date of a number of days from 1970-01-01. *)
Definition date_of (days : Z) : Z * Z * Z :=
  let z := days + 719468 in
  let era := z / 146097 in
  let doe := z - era * 146097 in
  let yoe := (doe - doe / 1460 + doe / 36524 - doe / 146096) / 365 in
  let doy := doe - (365 * yoe + yoe / 4 - yoe / 100) in
  let mp := (5 * doy + 2) / 153 in
  let m := if mp <? 10 then mp + 3 else mp - 9 in
  (yoe + era * 400 + (if m <=? 2 then 1 else 0), m, doy - (153 * mp + 2) / 5 + 1).

(** Nine digits without the zeros at the end, after a dot; nothing for a whole second. *)
Fixpoint strip_trailing_zeros (b : bytes) : bytes :=
  match b with
  | [] => []
  | c :: t => match strip_trailing_zeros t with
              | [] => if bool_decide (c = "0"%char) then [] else [c]
              | t' => c :: t'
              end
  end.

Definition format_fraction (nsec : Z) : bytes :=
  match strip_trailing_zeros (padded 9 nsec) with [] => [] | ds => "."%char :: ds end.

Definition RFC3339Nano (t : Z) : string :=
  let secs := t / 1000000000 in
  let '(y, m, d) := date_of (secs / 86400) in
  let s := secs mod 86400 in
  S_of (padded 4 y ++ "-"%char :: padded 2 m ++ "-"%char :: padded 2 d ++ "T"%char ::
        padded 2 (s / 3600) ++ ":"%char :: padded 2 (s / 60 mod 60) ++ ":"%char :: padded 2 (s mod 60) ++
        format_fraction (t mod 1000000000) ++ ["Z"%char]).

(** ** Examples *)

Example formatted_nano : RFC3339Nano (1709247599 * 1000000000 + 500000000) = "2024-02-29T22:59:59.5Z".
Proof. vm_compute. reflexivity. Qed.

Example formatted_epoch : RFC3339Nano 0 = "1970-01-01T00:00:00Z".
Proof. vm_compute. reflexivity. Qed.

Example epoch : parse_rfc3339 (B "1970-01-01T00:00:00Z") = Some 0.
Proof. vm_compute. reflexivity. Qed.

Example parsed_offset : parse_rfc3339 (B "2024-02-29T23:59:59.5+01:00") = Some (1709247599 * 1000000000 + 500000000).
Proof. vm_compute. reflexivity. Qed.

Example lenient : parse_rfc3339 (B "2001-01-01T3:04:05,25-00:60") = Some (978321845 * 1000000000 + 250000000).
Proof. vm_compute. reflexivity. Qed.

Example no_such_day : parse_rfc3339 (B "2023-02-29T00:00:00Z") = None.
Proof. vm_compute. reflexivity. Qed.

Example reformatted : format_civil <$> parse_civil (B "2001-01-01T3:04:05,25-00:60") = Some (B "2001-01-01T03:04:05-01:00").
Proof. vm_compute. reflexivity. Qed.
