(* ===== verification/GoDuration.v ===== *)
(** * Durations: [time.ParseDuration]

    A sign, and then numbers with units: [1h30m], [1.5s]. The result is a count of nanoseconds in an int64; the
    sums are of uint64 and the fractions of float64, as in the standard library. Theorems: the result is in range,
    and the whole text is read. *)

From S2P Require Import Prelude GoText GoFloat.

Module GoDuration.

Definition two63 : Z := 9223372036854775808.
Definition two64 : Z := 18446744073709551616.

Definition unitMap (u : bytes) : option Z :=
  if bool_decide (u = B "ns") then Some 1
  else if bool_decide (u = B "us" \/ u = [chr 194; chr 181; "s"%char] \/ u = [chr 206; chr 188; "s"%char]) then Some 1000
  else if bool_decide (u = B "ms") then Some 1000000
  else if bool_decide (u = B "s") then Some 1000000000
  else if bool_decide (u = B "m") then Some 60000000000
  else if bool_decide (u = B "h") then Some 3600000000000
  else None.

Definition digit_of (c : ascii) : Z := code c - 48.

(** The leading digits; they must not pass 2^63. *)
Fixpoint leadingInt (x : Z) (s : bytes) : option (Z * bytes) :=
  match s with
  | [] => Some (x, [])
  | c :: rest =>
      if negb (is_digit c) then Some (x, s)
      else if two63 / 10 <? x then None
      else
        let x := x * 10 + digit_of c in
        if two63 <? x then None else leadingInt x rest
  end.

Definition float_of (n : Z) : float64 := round_decimal false n 0.

(** The digits after the point with their scale; the ones that do not fit are skipped. *)
Fixpoint leadingFraction (x : Z) (scale : float64) (overflow : bool) (s : bytes) : Z * float64 * bytes :=
  match s with
  | [] => (x, scale, [])
  | c :: rest =>
      if negb (is_digit c) then (x, scale, s)
      else if overflow then leadingFraction x scale true rest
      else if (two63 - 1) / 10 <? x then leadingFraction x scale true rest
      else
        let y := x * 10 + digit_of c in
        if two63 <? y then leadingFraction x scale true rest
        else leadingFraction y (fmul scale (float_of 10)) false rest
  end.

Fixpoint span_unit (s : bytes) : bytes * bytes :=
  match s with
  | [] => ([], [])
  | c :: rest =>
      if bool_decide (c = dot_byte) || is_digit c then ([], s)
      else let '(u, r) := span_unit rest in (c :: u, r)
  end.

(** [uint64(f)] of a float64 in range: truncation. *)
Definition truncate (f : float64) : Z :=
  match f with
  | S754_finite false m e => if 0 <=? e then Z.pos m * 2 ^ e else Z.pos m / 2 ^ (- e)
  | _ => 0
  end.

(** The fraction, if there is one: its digits, their scale, what follows, and whether there was a digit. *)
Definition fraction (s : bytes) : Z * float64 * bytes * bool :=
  match s with
  | c :: r =>
      if bool_decide (c = dot_byte) then
        let '(f, scale, r') := leadingFraction 0 (float_of 1) false r in (f, scale, r', negb (length r' =? length r)%nat)
      else (0, float_of 1, s, false)
  | [] => (0, float_of 1, [], false)
  end.

(** One number with its unit, added to [d]. *)
Definition parse_group (d : Z) (s : bytes) : option (Z * bytes) :=
  let starts := match s with c :: _ => bool_decide (c = dot_byte) || is_digit c | [] => false end in
  if negb starts then None
  else
    '(v, s1) ← leadingInt 0 s;
    let pre := negb (length s1 =? length s)%nat in
    let '(f, scale, s2, post) := fraction s1 in
    if negb pre && negb post then None
    else
      let '(u, s3) := span_unit s2 in
      if bool_decide (u = []) then None
      else
        unit ← unitMap u;
        if two63 / unit <? v then None
        else
          let v := v * unit in
          let v := if 0 <? f then (v + truncate (fmul (float_of f) (fdiv (float_of unit) scale))) mod two64 else v in
          if (0 <? f) && (two63 <? v) then None
          else
            let d := (d + v) mod two64 in
            if two63 <? d then None else Some (d, s3).

Fixpoint groups (fuel : nat) (d : Z) (s : bytes) : option Z :=
  match s with
  | [] => Some d
  | _ =>
      match fuel with
      | O => None
      | S fuel => '(d, rest) ← parse_group d s; groups fuel d rest
      end
  end.

Definition ParseDuration (s : string) : option Z :=
  let '(neg, s) := match B s with
                   | c :: rest => if bool_decide (c = minus_byte) then (true, rest)
                                  else if bool_decide (c = plus_byte) then (false, rest) else (false, B s)
                   | [] => (false, [])
                   end in
  if bool_decide (s = B "0") then Some 0
  else if bool_decide (s = []) then None
  else
    d ← groups (length s) 0 s;
    if neg then Some (- d) else if two63 - 1 <? d then None else Some d.

(** ** The fuel is enough *)

Lemma leadingInt_rest s : forall x v r, leadingInt x s = Some (v, r) -> (length r <= length s)%nat.
Proof.
  induction s as [|c s IH]; intros x v r; cbn [leadingInt]; [by intros [= <- <-]|].
  destruct (negb (is_digit c)); [by intros [= <- <-]|]. destruct (_ <? x); [done|]. destruct (_ <? _); [done|].
  intros H%IH. cbn [length]. lia.
Qed.

Lemma leadingFraction_rest s : forall x sc o, (length (leadingFraction x sc o s).2 <= length s)%nat.
Proof.
  induction s as [|c s IH]; intros x sc o; cbn [leadingFraction]; [done|]. cbn [length].
  destruct (negb (is_digit c)); [done|]. destruct o; [rewrite IH; lia|]. destruct (_ <? x); [rewrite IH; lia|]. cbv zeta.
  destruct (_ <? _); rewrite IH; lia.
Qed.

Lemma fraction_rest s : (length (fraction s).1.2 <= length s)%nat.
Proof.
  unfold fraction. destruct s as [|c t]; [done|]. destruct (bool_decide (c = dot_byte)); [|done].
  pose proof (leadingFraction_rest t 0 (float_of 1) false) as Hf. destruct (leadingFraction 0 (float_of 1) false t) as [[f0 sc0] r0].
  cbn [fst snd length] in *. lia.
Qed.

Lemma span_unit_rest s : (length (span_unit s).1 + length (span_unit s).2 = length s)%nat.
Proof.
  induction s as [|c s IH]; [done|]. cbn [span_unit]. destruct (_ || _); [done|].
  destruct (span_unit s) as [u r]. cbn [fst snd length] in *. lia.
Qed.

(** A group takes at least its unit. *)
Lemma group_rest d s d' r : parse_group d s = Some (d', r) -> (length r < length s)%nat /\ 0 <= d' <= two63.
Proof.
  unfold parse_group. cbv zeta. destruct (negb _); [done|]. destruct (leadingInt 0 s) as [[v s1]|] eqn:E1; [|done]. cbn [mbind option_bind].
  apply leadingInt_rest in E1.
  pose proof (fraction_rest s1) as H2. destruct (fraction s1) as [[[f scale] s2] post]. cbn [fst snd] in H2.
  destruct (_ && _); [done|]. pose proof (span_unit_rest s2) as H3. destruct (span_unit s2) as [u s3]. cbn [fst snd] in H3.
  destruct (bool_decide_reflect (u = [])) as [|Hu]; [done|]. destruct (unitMap u) as [unit|]; [|done]. cbn [mbind option_bind].
  destruct (_ <? v); [done|]. destruct (_ && _); [done|].
  match goal with |- (if two63 <? ?x then _ else _) = _ -> _ => set (y := x) end.
  destruct (two63 <? y) eqn:E; [done|]. intros [= <- <-]. apply Z.ltb_ge in E.
  split; [|split; [|exact E]].
  - destruct u; [done|]. cbn [length] in H3. lia.
  - apply Z.mod_pos_bound. unfold two64. lia.
Qed.

Lemma groups_enough fuel : forall s fuel' d, (length s <= fuel)%nat -> (length s <= fuel')%nat -> groups fuel d s = groups fuel' d s.
Proof.
  induction fuel as [|fuel IH]; intros s fuel' d H H'; (destruct s as [|c s]; [by destruct fuel'|]); [cbn in H; lia|].
  destruct fuel' as [|fuel']; [cbn in H'; lia|]. cbn [groups].
  destruct (parse_group d (c :: s)) as [[d' r]|] eqn:E; [|done]. cbn [mbind option_bind].
  apply group_rest in E as [E _]. apply IH; cbn [length] in *; lia.
Qed.

Lemma groups_range s : forall fuel d d', 0 <= d <= two63 -> groups fuel d s = Some d' -> 0 <= d' <= two63.
Proof.
  intros fuel. revert s. induction fuel as [|fuel IH]; intros s d d' Hd; (destruct s as [|c s]; cbn [groups]; [by intros [= <-]|]); [done|].
  destruct (parse_group d (c :: s)) as [[d1 r]|] eqn:E; [|done]. cbn [mbind option_bind]. apply group_rest in E as [_ E]. by apply IH.
Qed.

(** What is parsed is a duration of 64 bits. *)
Lemma ParseDuration_range s d : ParseDuration s = Some d -> - two63 <= d <= two63 - 1.
Proof.
  unfold ParseDuration. destruct (match B s with [] => _ | _ => _ end) as [neg t].
  destruct (bool_decide (t = B "0")); [intros [= <-]; unfold two63; lia|]. destruct (bool_decide (t = [])); [done|].
  destruct (groups (length t) 0 t) as [d0|] eqn:E; [|done]. cbn [mbind option_bind].
  apply groups_range in E; [|unfold two63; lia]. unfold two63 in *. destruct neg; [intros [= <-]; lia|].
  destruct (_ <? d0) eqn:Eo; [done|]. intros [= <-]. boolify. lia.
Qed.

Example durations : map ParseDuration ["5s"; "1h30m"; "1.5s"; "-2us"; ".5m"; "0"; "+0"; "3"; ""; "1.s"; "s"; "1 s"; "9223372036854775807ns"; "9223372036854775808ns"; "-9223372036854775808ns"; "0.1ns"; "2562047h47m16.854775807s"; "2562048h"] =
  [Some 5000000000; Some 5400000000000; Some 1500000000; Some (-2000); Some 30000000000; Some 0; Some 0; None; None; Some 1000000000; None; None;
   Some 9223372036854775807; None; Some (-9223372036854775808); Some 0; Some 9223372036854775807; None].
Proof. vm_compute. reflexivity. Qed.
End GoDuration.
