(* ===== verification/Push.v ===== *)
(** * Package internal/push: objects, envelopes and their names

    [s3.go], [pushers.go] and [queue.go]: where a pushed bundle goes, the envelope that is posted
    to a queue, and its HMAC. The store and the queue are arguments. Theorem: the name of a pushed object gives its digest
    back, and the URI of the object its bucket and its key. *)

From S2P Require Import Prelude GoText GoPath Sha256 GoFloat GoJson GoValue GoUnicode GoTime GoStruct.

Module Push.

(** ** S3: [s3.go] *)

Record PutObjectInput := mkPut { Bucket : string; Key : string; Body : bytes; LockMode : string; LockUntil : string }.

(** An error of the store: a response that is not a success, or a failure to get one. *)
Inductive upload_error := S3Error (StatusCode : Z) (body : string) | Transport (text : string).

Definition IsAuthError (e : upload_error) : bool :=
  match e with S3Error code _ => (code =? 401) || (code =? 403) | Transport _ => false end.

Definition IsNotFound (e : upload_error) : bool := match e with S3Error code _ => code =? 404 | Transport _ => false end.

Inductive uri_error := NotS3URI | MissingBucket.

Definition TrimPrefix (s p : string) : string := if HasPrefix s p then S_of (drop (length (B p)) (B s)) else s.
Definition HasSuffix (s suffix : string) : bool := prefix_of_bytes (reverse (B suffix)) (reverse (B s)).
Definition TrimSuffix (s suffix : string) : string :=
  if HasSuffix s suffix then S_of (take (length (B s) - length (B suffix)) (B s)) else s.

Fixpoint drop_slashes (b : bytes) : bytes :=
  match b with c :: t => if bool_decide (c = slash) then drop_slashes t else b | [] => [] end.

(** [strings.Trim(s, "/")] *)
Definition trim_slashes (b : bytes) : bytes := reverse (drop_slashes (reverse (drop_slashes b))).

(** The bucket and the prefix. *)
Definition ParseS3URI (uri : string) : result uri_error (string * string) :=
  if negb (HasPrefix uri "s3://") then Err NotS3URI
  else
    match cut slash (B (TrimPrefix uri "s3://")) with
    | ([], _) => Err MissingBucket
    | (bucket, None) => Ok (S_of bucket, "")
    | (bucket, Some rest) => Ok (S_of bucket, S_of (trim_slashes rest))
    end.

Definition ObjectKey (prefix headHash : string) : string :=
  let filename := "sha256-" +:+ headHash +:+ ".atb" in
  if String.eqb prefix "" then filename else TrimSuffix prefix "/" +:+ "/" +:+ filename.

(** The digest in the name of an object. *)
Definition key_name_hash (key : bytes) : option string :=
  let base := S_of (List.last (split_at slash key) []) in
  if negb (HasPrefix base "sha256-") || negb (HasSuffix base ".atb") then None
  else
    let h := TrimSuffix (TrimPrefix base "sha256-") ".atb" in
    if String.eqb h "" then None else Some h.

Definition KeyHash (keyOrURI : string) : option string :=
  if HasPrefix keyOrURI "s3://" then
    match cut slash (drop 5 (B keyOrURI)) with
    | (_, None) => None
    | (_, Some key) => key_name_hash key
    end
  else key_name_hash (B keyOrURI).

(** ** The pushers: [pushers.go] *)

Record PushMeta := mkPushMeta { BundleID : string; SealTimestamp : Z; ProfileID : string; Digest : string }.

Record S3Pusher := mkS3Pusher {
  Uploader : option (PutObjectInput -> option upload_error);
  s_Bucket : string; s_Key : string; s_LockMode : string; s_LockUntil : string }.

Inductive push_error := NilUploader | NoBucket | NoKey | Upload (e : upload_error).

(** What was sent to the store, and the error. *)
Definition S3Push (p : S3Pusher) (bundle : bytes) : option PutObjectInput * option push_error :=
  match Uploader p with
  | None => (None, Some NilUploader)
  | Some PutObject =>
      if String.eqb (s_Bucket p) "" then (None, Some NoBucket)
      else if String.eqb (s_Key p) "" then (None, Some NoKey)
      else
        let put := mkPut (s_Bucket p) (s_Key p) bundle (s_LockMode p) (s_LockUntil p) in
        (Some put, Upload <$> PutObject put)
  end.

(** ** The queue: [queue.go] *)

(** [crypto/hmac] with SHA-256, whose blocks have 64 bytes. *)
Definition hmac_key (key : bytes) : bytes :=
  let k := if (64 <? length key)%nat then Sha256.sum256 key else key in k ++ replicate (64 - length k) (chr 0).

Definition xor_byte (n : Z) (c : ascii) : ascii := chr (Z.lxor (code c) n).

Definition hmac_sha256 (key message : bytes) : bytes :=
  let k := hmac_key key in
  Sha256.sum256 (map (xor_byte 92) k ++ Sha256.sum256 (map (xor_byte 54) k ++ message)).

(** [Format(time.RFC3339)] in UTC: the fraction of the second is cut off. *)
Definition RFC3339 (t : Z) : string := RFC3339Nano (t / 1000000000 * 1000000000).

Record QueuePusher := mkQueue { EndpointURL : string; HMACKey : bytes; ATBVersion : string }.

Definition MarshalEnvelope (p : QueuePusher) (meta : PushMeta) : option bytes :=
  GoValue.Marshal (AStruct
    [("bundle_id", AString (BundleID meta)); ("digest", AString (Digest meta));
     ("seal_timestamp", AString (RFC3339 (SealTimestamp meta))); ("profile_id", AString (ProfileID meta));
     ("atb_version", AString (ATBVersion p))]).

Definition SignatureHex (p : QueuePusher) (body : bytes) : string := S_of (hex_encode (hmac_sha256 (HMACKey p) body)).

Record post := mkPost { url : string; p_Body : bytes; X_ATB_Signature : string }.

Inductive queue_error := NoEndpoint | NoHMACKey | NoATBVersion | Envelope | Request (text : string) | Send (text : string) | HTTPStatus (code : Z).

(** The queue: an error before the request is sent, one of the transport, or the status of the response. *)
Inductive queue_response := RequestFails (text : string) | TransportFails (text : string) | Responds (code : Z).

(** What was sent, and the error. *)
Definition QueuePush (p : QueuePusher) (meta : PushMeta) (queue : post -> queue_response) : option post * option queue_error :=
  if String.eqb (TrimSpace (EndpointURL p)) "" then (None, Some NoEndpoint)
  else if (length (HMACKey p) =? 0)%nat then (None, Some NoHMACKey)
  else if String.eqb (TrimSpace (ATBVersion p)) "" then (None, Some NoATBVersion)
  else
    match MarshalEnvelope p meta with
    | None => (None, Some Envelope)
    | Some body =>
        let req := mkPost (EndpointURL p) body (SignatureHex p body) in
        match queue req with
        | RequestFails text => (None, Some (Request text))
        | TransportFails text => (Some req, Some (Send text))
        | Responds code => (Some req, if (code <? 200) || (300 <=? code) then Some (HTTPStatus code) else None)
        end
    end.

(** ** Names *)

Lemma has_prefix_cat p s : HasPrefix (p +:+ s) p = true.
Proof. unfold HasPrefix. rewrite B_app. induction (B p) as [|c b IH]; cbn; [done|]. by rewrite bool_decide_eq_true_2. Qed.

Lemma trim_prefix_cat p s : TrimPrefix (p +:+ s) p = s.
Proof. unfold TrimPrefix. rewrite has_prefix_cat, B_app, drop_app_length. apply S_of_B. Qed.

Lemma has_suffix_cat s p : HasSuffix (s +:+ p) p = true.
Proof.
  unfold HasSuffix. rewrite B_app, reverse_app. generalize (reverse (B s)). induction (reverse (B p)) as [|c b IH]; intros r; [done|].
  cbn. by rewrite bool_decide_eq_true_2, IH.
Qed.

Lemma trim_suffix_cat s p : TrimSuffix (s +:+ p) p = s.
Proof.
  unfold TrimSuffix. rewrite has_suffix_cat, B_app, length_app.
  replace (length (B s) + length (B p) - length (B p))%nat with (length (B s)) by lia. by rewrite take_app_length, S_of_B.
Qed.

Lemma last_element p x : slash ∉ x -> List.last (split_at slash (p ++ slash :: x)) [] = x.
Proof.
  intros Hx. induction p as [|c p IH]; cbn [app split_at].
  - rewrite bool_decide_eq_true_2 by done. by rewrite split_at_none.
  - case_bool_decide.
    + destruct (split_at slash (p ++ slash :: x)) as [|l ls] eqn:E; [|exact IH].
      by destruct (split_at_spec slash (p ++ slash :: x)) as (_ & Hne & _).
    + destruct (split_at slash (p ++ slash :: x)) as [|l [|l' ls]] eqn:E; [|exfalso|exact IH].
      * by destruct (split_at_spec slash (p ++ slash :: x)) as (_ & Hne & _).
      * destruct (split_at_spec slash (p ++ slash :: x)) as (Hj & _ & Hall). rewrite E in Hj, Hall. cbn in Hj.
        apply Forall_cons in Hall as [Hl _]. rewrite Hj in Hl. apply Hl, elem_of_app. right. by left.
Qed.

Definition file_of (h : string) : string := "sha256-" +:+ h +:+ ".atb".

Lemma file_of_plain h : slash ∉ B h -> slash ∉ B (file_of h).
Proof.
  intros Hh. unfold file_of. rewrite !B_app, !elem_of_app. intros [H|[H|H]]; [|done|].
  - revert H. apply (bool_decide_eq_true_1 (slash ∉ B "sha256-")). vm_compute. reflexivity.
  - revert H. apply (bool_decide_eq_true_1 (slash ∉ B ".atb")). vm_compute. reflexivity.
Qed.

Lemma file_name_hash key h :
  h <> "" -> List.last (split_at slash key) [] = B (file_of h) -> key_name_hash key = Some h.
Proof.
  intros Hh E. unfold key_name_hash. rewrite E, S_of_B. unfold file_of.
  rewrite has_prefix_cat, trim_prefix_cat, trim_suffix_cat.
  assert (HasSuffix ("sha256-" +:+ h +:+ ".atb") ".atb" = true) as ->.
  { assert ("sha256-" +:+ h +:+ ".atb" = ("sha256-" +:+ h) +:+ ".atb") as -> by (apply B_inj; by rewrite !B_app, app_assoc).
    apply has_suffix_cat. }
  cbn [negb orb]. destruct (String.eqb_spec h ""); done.
Qed.

Lemma key_hash_of prefix h : h <> "" -> slash ∉ B h -> key_name_hash (B (ObjectKey prefix h)) = Some h.
Proof.
  intros Hne Hh. apply file_name_hash; [done|]. unfold ObjectKey. cbv zeta. fold (file_of h).
  destruct (String.eqb prefix ""); [by rewrite split_at_none by by apply file_of_plain|].
  rewrite B_app, B_app. change (B "/") with [slash]. cbn [app]. apply last_element. by apply file_of_plain.
Qed.

(** The name that a pushed bundle gets gives its head hash back, from the key and from the URI of the object, and the URI
    that the bundle was pushed to is one whose bucket is the same. *)
Theorem pushed_name_gives_hash bucket prefix h :
  bucket <> "" -> slash ∉ B bucket -> h <> "" -> slash ∉ B h ->
  let key := ObjectKey prefix h in
  KeyHash ("s3://" +:+ bucket +:+ "/" +:+ key) = Some h /\
  (HasPrefix key "s3://" = false -> KeyHash key = Some h) /\
  cut slash (drop 5 (B ("s3://" +:+ bucket +:+ "/" +:+ key))) = (B bucket, Some (B key)).
Proof.
  intros Hb Hbs Hne Hh key.
  assert (drop 5 (B ("s3://" +:+ bucket +:+ "/" +:+ key)) = B bucket ++ slash :: B key) as Hd.
  { rewrite !B_app. reflexivity. }
  unfold KeyHash. rewrite has_prefix_cat, Hd, cut_app by done. split_and!; [by apply key_hash_of| |done].
  intros ->. by apply key_hash_of.
Qed.

Lemma pushed_name_gives_hash_witness :
  KeyHash ("s3://" +:+ "evidence" +:+ "/" +:+ ObjectKey "a/b" "00ff") = Some "00ff".
Proof.
  refine (proj1 (pushed_name_gives_hash "evidence" "a/b" "00ff" _ _ _ _)); [discriminate| |discriminate|];
    apply (bool_decide_eq_true_1 _); vm_compute; reflexivity.
Defined.

Example uris :
  map ParseS3URI ["s3://b"; "s3://b/"; "s3://b//a/c/"; "s3://"; "s3:///k"; "http://b"] =
  [Ok ("b", ""); Ok ("b", ""); Ok ("b", "a/c"); Err MissingBucket; Err MissingBucket; Err NotS3URI].
Proof. vm_compute. reflexivity. Qed.

Example keys : map (fun p => ObjectKey p "ab") [""; "a"; "a/b/"] = ["sha256-ab.atb"; "a/sha256-ab.atb"; "a/b/sha256-ab.atb"].
Proof. vm_compute. reflexivity. Qed.

Example key_hashes :
  map KeyHash ["s3://bucket/a/sha256-00ff.atb"; "sha256-00ff.atb"; "s3://bucket"; "a/sha256-.atb"; "a/sha256-1.atb.gz"] =
  [Some "00ff"; Some "00ff"; None; None; None].
Proof. vm_compute. reflexivity. Qed.

(** RFC 4231, the second test case. *)
Example hmac_vector :
  S_of (hex_encode (hmac_sha256 (B "Jefe") (B "what do ya want for nothing?"))) =
  "5bdcc146bf60754e6a042426089575c75a003f089d2739839dec58b964ec3843".
Proof. vm_compute. reflexivity. Qed.
End Push.
