(* ===== verification/Encrypt.v ===== *)
(** * Package internal/encrypt: encrypted bundles

    [encrypt.go]: magic, version, salt, nonce, tag and ciphertext in one file. PBKDF2 and AES-GCM are
    arguments with what the code relies on: opening what was sealed under the same key and nonce gives the
    plaintext, a sealed text is as long as the plaintext and its tag, and nothing else opens. Theorems:
    decryption undoes encryption, and what decrypts is exactly what the encryption can have written. *)

From S2P Require Import Prelude GoText.

Module Encrypt.

Definition Magic : string := "ATBE".
Definition LegacyVersion : ascii := chr 1.
Definition Version : ascii := chr 2.
Definition SaltSize : nat := 16.
Definition NonceSize : nat := 12.
Definition TagSize : nat := 16.
Definition LegacyPBKDF2Iterations : Z := 100000.
Definition PBKDF2Iterations : Z := 600000.
Definition HeaderSize : nat := 4 + 1 + SaltSize + NonceSize + TagSize.

(** [pbkdf2.Key] with SHA-256 and 32 bytes, and the sealing and opening of AES-GCM without additional data. *)
Class AEAD := {
  derive : string -> bytes -> Z -> bytes;
  seal : bytes -> bytes -> bytes -> bytes;
  open : bytes -> bytes -> bytes -> option bytes;
  seal_length : forall key nonce text, length (seal key nonce text) = (length text + TagSize)%nat;
  open_spec : forall key nonce sealed text, open key nonce sealed = Some text <-> sealed = seal key nonce text
}.

Inductive encrypt_error :=
| ErrInvalidFormat | ErrUnsupportedVersion (version : ascii) | ErrDecryptFailed | ESaltSize | ENonceSize | EPassword | EGCMOutput | ERandom.

Definition kdfParamsForVersion (version : ascii) : result encrypt_error Z :=
  if bool_decide (version = LegacyVersion) then Ok LegacyPBKDF2Iterations
  else if bool_decide (version = Version) then Ok PBKDF2Iterations
  else Err (ErrUnsupportedVersion version).

Section encrypt.
Context `{AEAD}.

Definition encryptWithParams (plaintext : bytes) (password : string) (salt nonce : bytes) (version : ascii) (iterations : Z) :
    result encrypt_error bytes :=
  if negb (length salt =? SaltSize)%nat then Err ESaltSize
  else if negb (length nonce =? NonceSize)%nat then Err ENonceSize
  else if String.eqb password "" then Err EPassword
  else
    let sealed := seal (derive password salt iterations) nonce plaintext in
    if (length sealed <? TagSize)%nat then Err EGCMOutput
    else
      let tagOffset := (length sealed - TagSize)%nat in
      Ok (B Magic ++ [version] ++ salt ++ nonce ++ drop tagOffset sealed ++ take tagOffset sealed).

Definition encryptWithVersion (plaintext : bytes) (password : string) (salt nonce : bytes) (version : ascii) :
    result encrypt_error bytes :=
  let? iterations := kdfParamsForVersion version in
  encryptWithParams plaintext password salt nonce version iterations.

Definition EncryptWithSaltNonce (plaintext : bytes) (password : string) (salt nonce : bytes) : result encrypt_error bytes :=
  encryptWithVersion plaintext password salt nonce Version.

(** The random bytes read, if they can be. *)
Definition Encrypt (plaintext : bytes) (password : string) (salt nonce : option bytes) : result encrypt_error bytes :=
  match salt, nonce with
  | Some salt, Some nonce => EncryptWithSaltNonce plaintext password salt nonce
  | _, _ => Err ERandom
  end.

Definition slice (from len : nat) (data : bytes) : bytes := take len (drop from data).

Definition Decrypt (data : bytes) (password : string) : result encrypt_error bytes :=
  if (length data <? HeaderSize)%nat then Err ErrInvalidFormat
  else if String.eqb password "" then Err EPassword
  else if negb (bool_decide (slice 0 4 data = B Magic)) then Err ErrInvalidFormat
  else
    let version := default (chr 0) (data !! 4%nat) in
    let? iterations := kdfParamsForVersion version in
    let salt := slice 5 SaltSize data in
    let nonce := slice 21 NonceSize data in
    let tag := slice 33 TagSize data in
    let ciphertext := drop 49 data in
    match open (derive password salt iterations) nonce (ciphertext ++ tag) with
    | None => Err ErrDecryptFailed
    | Some plaintext => Ok plaintext
    end.

(** ** Layout *)

Lemma layout_parts (version : ascii) (salt nonce tag text : bytes) :
  length salt = SaltSize -> length nonce = NonceSize -> length tag = TagSize ->
  let data := B Magic ++ [version] ++ salt ++ nonce ++ tag ++ text in
  (length data <? HeaderSize)%nat = false /\ slice 0 4 data = B Magic /\ data !! 4%nat = Some version /\
  slice 5 SaltSize data = salt /\ slice 21 NonceSize data = nonce /\ slice 33 TagSize data = tag /\ drop 49 data = text.
Proof.
  intros Hs Hn Ht data. unfold data, slice, HeaderSize, SaltSize, NonceSize, TagSize in *. split_and!.
  - apply Nat.ltb_ge. rewrite !length_app. cbn. lia.
  - reflexivity.
  - reflexivity.
  - change (drop 5 (B Magic ++ [version] ++ salt ++ nonce ++ tag ++ text)) with (salt ++ nonce ++ tag ++ text).
    by rewrite take_app_length'.
  - change (drop 21 (B Magic ++ [version] ++ salt ++ nonce ++ tag ++ text)) with (drop 16 (salt ++ nonce ++ tag ++ text)).
    by rewrite drop_app_length', take_app_length'.
  - change (drop 33 (B Magic ++ [version] ++ salt ++ nonce ++ tag ++ text)) with (drop 28 (salt ++ nonce ++ tag ++ text)).
    rewrite app_assoc, drop_app_length' by (rewrite length_app; lia). by rewrite take_app_length'.
  - change (drop 49 (B Magic ++ [version] ++ salt ++ nonce ++ tag ++ text)) with (drop 44 (salt ++ nonce ++ tag ++ text)).
    rewrite !app_assoc, drop_app_length' by (rewrite !length_app; lia). done.
Qed.

Lemma layout_of data :
  (length data <? HeaderSize)%nat = false -> slice 0 4 data = B Magic ->
  exists version, data !! 4%nat = Some version /\
    data = B Magic ++ [version] ++ slice 5 SaltSize data ++ slice 21 NonceSize data ++ slice 33 TagSize data ++ drop 49 data.
Proof.
  intros Hl Hm. apply Nat.ltb_ge in Hl. unfold HeaderSize, SaltSize, NonceSize, TagSize, slice in *.
  destruct (data !! 4%nat) as [v|] eqn:Ev; [|apply lookup_ge_None in Ev; lia]. exists v. split; [done|].
  rewrite <- Hm. rewrite drop_0. rewrite <- (take_drop 4 data) at 1. f_equal.
  rewrite (drop_S data v 4) by done. cbn [app]. f_equal.
  rewrite <- (take_drop 16 (drop 5 data)) at 1. rewrite drop_drop. f_equal.
  rewrite <- (take_drop 12 (drop (5 + 16) data)) at 1. rewrite drop_drop. f_equal.
  rewrite <- (take_drop 16 (drop (5 + 16 + 12) data)) at 1. by rewrite drop_drop.
Qed.

(** ** Round trip *)

Lemma encrypted_data plaintext password salt nonce version out :
  encryptWithVersion plaintext password salt nonce version = Ok out ->
  exists iterations tag text, kdfParamsForVersion version = Ok iterations /\ password <> "" /\
    length salt = SaltSize /\ length nonce = NonceSize /\ length tag = TagSize /\
    text ++ tag = seal (derive password salt iterations) nonce plaintext /\ length text = length plaintext /\
    out = B Magic ++ [version] ++ salt ++ nonce ++ tag ++ text.
Proof.
  unfold encryptWithVersion. destruct (kdfParamsForVersion version) as [iterations|]; [|done]. unfold encryptWithParams.
  destruct (Nat.eqb_spec (length salt) SaltSize); [|done]. destruct (Nat.eqb_spec (length nonce) NonceSize); [|done]. cbn [negb].
  destruct (String.eqb_spec password ""); [done|]. cbv zeta.
  pose proof (seal_length (derive password salt iterations) nonce plaintext) as Hl.
  set (sealed := seal _ _ _) in *. destruct (length sealed <? TagSize)%nat eqn:E; [done|].
  intros Hout%Ok_inj. exists iterations, (drop (length sealed - TagSize) sealed), (take (length sealed - TagSize) sealed).
  split_and!; try done; [rewrite length_drop; lia|apply take_drop|rewrite length_take; lia].
Qed.

(** C40: Decryption undoes encryption: what is encrypted under a password, with either version of the format, decrypts under
    that password to what it was, and is longer by the header. *)
Theorem decrypt_encrypt plaintext password salt nonce version out :
  encryptWithVersion plaintext password salt nonce version = Ok out ->
  Decrypt out password = Ok plaintext /\ length out = (HeaderSize + length plaintext)%nat.
Proof.
  intros (iterations & tag & text & Hk & Hp & Hs & Hn & Ht & Hseal & Hl & ->)%encrypted_data.
  destruct (layout_parts version salt nonce tag text Hs Hn Ht) as (E1 & E2 & E3 & E4 & E5 & E6 & E7). split.
  - unfold Decrypt. rewrite E1, E2, E3, E4, E5, E6, E7. rewrite bool_decide_eq_true_2 by done.
    destruct (String.eqb_spec password ""); [done|]. cbn [negb]. change (default (chr 0) (Some version)) with version. rewrite Hk.
    by rewrite (proj2 (open_spec (derive password salt iterations) nonce (text ++ tag) plaintext) Hseal).
  - unfold HeaderSize. rewrite !length_app. cbn [length]. change (length (B Magic)) with 4%nat. lia.
Qed.

(** What decrypts was encrypted: if decryption gives a plaintext, the data is what encrypting that plaintext under that
    password writes, with the version, the salt and the nonce that the data bears. *)
Theorem decrypted_was_encrypted data password plaintext :
  Decrypt data password = Ok plaintext ->
  exists version, version ∈ [LegacyVersion; Version] /\
    encryptWithVersion plaintext password (slice 5 SaltSize data) (slice 21 NonceSize data) version = Ok data.
Proof.
  unfold Decrypt. destruct (length data <? HeaderSize)%nat eqn:El; [done|]. destruct (String.eqb_spec password ""); [done|].
  destruct (bool_decide_reflect (slice 0 4 data = B Magic)) as [Hm|]; [|done]. cbn [negb].
  destruct (layout_of data El Hm) as (version & Hv & Hdata). rewrite Hv. change (default (chr 0) (Some version)) with version.
  destruct (kdfParamsForVersion version) as [iterations|] eqn:Ek; [|done]. cbv zeta.
  destruct (open _ _ _) as [text|] eqn:Eo; [|done]. intros [= ->]. apply open_spec in Eo. exists version. split.
  { unfold kdfParamsForVersion in Ek. repeat case_bool_decide; subst; [left|right; left|]; done. }
  unfold encryptWithVersion. rewrite Ek. unfold encryptWithParams.
  apply Nat.ltb_ge in El. unfold HeaderSize, SaltSize, NonceSize, TagSize in *.
  assert (length (slice 5 16 data) = 16%nat) as Hs by (unfold slice; rewrite length_take, length_drop; lia).
  assert (length (slice 21 12 data) = 12%nat) as Hn by (unfold slice; rewrite length_take, length_drop; lia).
  assert (length (slice 33 16 data) = 16%nat) as Ht by (unfold slice; rewrite length_take, length_drop; lia).
  rewrite Hs, Hn. cbn [negb Nat.eqb]. destruct (String.eqb_spec password ""); [done|]. rewrite <- Eo. rewrite length_app, Ht.
  replace (length (drop 49 data) + 16 <? 16)%nat with false by (symmetry; apply Nat.ltb_ge; lia).
  replace (length (drop 49 data) + 16 - 16)%nat with (length (drop 49 data)) by lia.
  rewrite drop_app_length, take_app_length. by rewrite <- Hdata.
Qed.
End encrypt.

(** ** Example *)

(** A cipher that hides nothing: the plaintext with a tag that depends on everything. *)
Definition toy_tag (key nonce text : bytes) : bytes := take 16 ((key ++ nonce ++ text) ++ replicate 16 (chr 0)).

#[local] Program Instance toy_aead : AEAD := {|
  derive password salt iterations := B password ++ take 2 salt ++ [chr (iterations mod 256)];
  seal key nonce text := text ++ toy_tag key nonce text;
  open key nonce sealed :=
    let text := take (length sealed - 16) sealed in
    if bool_decide (sealed = text ++ toy_tag key nonce text) then Some text else None
|}.
Next Obligation.
  intros key nonce text. cbv beta. rewrite length_app. unfold toy_tag, TagSize. rewrite length_take, length_app, length_replicate. lia.
Qed.
Next Obligation.
  intros key nonce sealed text. cbv beta zeta. assert (length (toy_tag key nonce text) = 16%nat) as Ht.
  { unfold toy_tag. rewrite length_take, length_app, length_replicate. lia. }
  case_bool_decide as E; [|split; [done|intros ->]].
  - split; [by intros [= <-]|]. intros ->. rewrite length_app, Ht in *.
    replace (length text + 16 - 16)%nat with (length text) in * by lia. by rewrite take_app_length.
  - exfalso. apply E. rewrite length_app, Ht. replace (length text + 16 - 16)%nat with (length text) by lia. by rewrite take_app_length.
Qed.

Definition salt16 : bytes := B "0123456789abcdef".
Definition nonce12 : bytes := B "0123456789ab".

Definition encrypted : bytes :=
  match EncryptWithSaltNonce (B "bundle") "secret" salt16 nonce12 with Ok out => out | Err _ => [] end.

Lemma encrypted_ok : encryptWithVersion (B "bundle") "secret" salt16 nonce12 Version = Ok encrypted.
Proof. vm_compute. reflexivity. Qed.

Lemma decrypt_encrypt_witness : Decrypt encrypted "secret" = Ok (B "bundle") /\ length encrypted = (HeaderSize + length (B "bundle"))%nat.
Proof. exact (decrypt_encrypt (B "bundle") "secret" salt16 nonce12 Version encrypted encrypted_ok). Defined.

Lemma decrypted_ok : Decrypt encrypted "secret" = Ok (B "bundle").
Proof. vm_compute. reflexivity. Qed.

Lemma decrypted_was_encrypted_witness :
  exists version, version ∈ [LegacyVersion; Version] /\
    encryptWithVersion (B "bundle") "secret" (slice 5 SaltSize encrypted) (slice 21 NonceSize encrypted) version = Ok encrypted.
Proof. exact (decrypted_was_encrypted encrypted "secret" (B "bundle") decrypted_ok). Defined.

Example refused :
  [Decrypt encrypted "Secret"; Decrypt encrypted ""; Decrypt (take 40 encrypted) "secret"; Decrypt (B "X" ++ drop 1 encrypted) "secret";
   Decrypt (take 4 encrypted ++ chr 3 :: drop 5 encrypted) "secret"; Decrypt (take 4 encrypted ++ chr 1 :: drop 5 encrypted) "secret"] =
  [Err ErrDecryptFailed; Err EPassword; Err ErrInvalidFormat; Err ErrInvalidFormat; Err (ErrUnsupportedVersion (chr 3)); Err ErrDecryptFailed].
Proof. vm_compute. reflexivity. Qed.
End Encrypt.
