(* ===== verification/Canonicalize.v ===== *)
(** * Package internal/canonicalize: RFC 8785 canonical JSON

    [writeValue] and its helpers as the package writes them, over the values
    [json.Unmarshal] delivers. The theorems: the canonical form of a value does not
    depend on the order a map is iterated in, two values with the same canonical
    bytes are the same value, canonical bytes decode to the value they were written
    from, and canonicalizing them again changes nothing. *)

From S2P Require Import Prelude GoText GoFloat GoJson GoValue.

Module Canonicalize.

(** ** The package *)

(** One rune of [writeString]. *)
Definition write_rune (r : Z) : bytes :=
  if r =? 34 then [bs_char; quote]
  else if r =? 92 then [bs_char; bs_char]
  else if r =? 8 then B "\b"
  else if r =? 12 then B "\f"
  else if r =? 10 then B "\n"
  else if r =? 13 then B "\r"
  else if r =? 9 then B "\t"
  else if r <? 32 then u_escape r
  else encode_rune r.

Definition write_runes (s : string) : bytes := mjoin (write_rune <$> runes (B s)).

Definition writeString (s : string) : bytes := quote :: write_runes s ++ [quote].

(** [strconv.FormatFloat] with the format [serializeNumber] selects; infinities and
    NaN are written as null. *)
Definition number_literal (f : float64) : numlit :=
  let '(m, e) := shortest f in
  if use_exponent f then format_e (sign_of f) m e else format_f (sign_of f) m e.

Definition serializeNumber (f : float64) : bytes :=
  if is_finite f then print_num (number_literal f) else B "null".

Definition utf16_units (s : string) : list Z := utf16_encode (runes (B s)).

Definition utf16Less (a b : string) : bool := lex_ltb (utf16_units a) (utf16_units b).

Fixpoint writeValue (v : any) : option bytes :=
  match v with
  | ANil => Some (B "null")
  | ABool true => Some (B "true")
  | ABool false => Some (B "false")
  | AFloat f => Some (serializeNumber f)
  | AString s => Some (writeString s)
  | ASlice l =>
      items ← mapM writeValue l;
      Some ("["%char :: join_comma items ++ ["]"%char])
  | AMap l =>
      kvs ← mapM (fun kv => pair kv.1 <$> writeValue kv.2) l;
      let sorted := insertion_sort (fun p q => utf16Less p.1 q.1) kvs in
      Some ("{"%char ::
            join_comma (map (fun kv => writeString kv.1 ++ ":"%char :: kv.2) sorted)
            ++ ["}"%char])
  | _ => None
  end.

Definition canonicalizeRaw (raw : bytes) : option bytes := Unmarshal raw ≫= writeValue.

Definition MarshalRaw (raw : bytes) : option bytes := canonicalizeRaw raw.

(** [Marshal]: to JSON with the standard encoder, back to a value, and out again. *)
Definition Marshal (v : any) : option bytes := GoValue.Marshal v ≫= canonicalizeRaw.

(** ** Values the decoder delivers *)

(** Valid UTF-8 strings, distinct keys, and finite numbers whose shortest literal
    reads back (true of every float64; decided by evaluation). *)
Fixpoint wf_any (v : any) : bool :=
  match v with
  | ANil | ABool _ => true
  | AFloat f => float_ok f
  | AString s => valid_utf8 (B s)
  | ASlice l => forallb wf_any l
  | AMap l =>
      bool_decide (NoDup l.*1) && forallb (fun kv => valid_utf8 (B kv.1) && wf_any kv.2) l
  | _ => false
  end.

(** Equality of JSON values: objects are unordered. *)
#[local] Unset Elimination Schemes.
Inductive same_value : any -> any -> Prop :=
| same_nil : same_value ANil ANil
| same_bool b : same_value (ABool b) (ABool b)
| same_float f : same_value (AFloat f) (AFloat f)
| same_string s : same_value (AString s) (AString s)
| same_slice l l' : Forall2 same_value l l' -> same_value (ASlice l) (ASlice l')
| same_map l l' l'' :
    l' ≡ₚ l'' -> Forall2 (fun p q => p.1 = q.1 /\ same_value p.2 q.2) l l'' ->
    same_value (AMap l) (AMap l').
#[local] Set Elimination Schemes.

(** ** Escaping *)

Lemma encode_rune_high r :
  scalar r = true -> 128 <= r -> Forall (fun c => 128 <= code c) (encode_rune r).
Proof.
  intros Hr Hge. unfold encode_rune. rewrite Hr. unfold scalar in Hr. boolify.
  pose proof (divmod_64 r) as [D1 M1]. pose proof (divmod_64 (r / 64)) as [D2 M2].
  pose proof (divmod_64 (r / 64 / 64)) as [D3 M3]. rewrite !Z.div_div in * by lia.
  change (64 * 64) with 4096 in *. change (4096 * 64) with 262144 in *.
  replace (r <? 128) with false by lia.
  destruct (r <? 2048) eqn:?; boolify; [|destruct (r <? 65536) eqn:?; boolify];
    rewrite !Forall_cons, Forall_nil; split_and!; rewrite ?code_chr by lia; done || lia.
Qed.

Lemma unescape_write_ascii b t :
  code b < 128 -> unescape (write_rune (code b) ++ t) = push (encode_rune (code b)) (unescape t).
Proof. destruct b as [[] [] [] [] [] [] [] []]; intros Hb; first [reflexivity|by vm_compute in Hb]. Qed.

Lemma unescape_write_rune r t :
  scalar r = true -> unescape (write_rune r ++ t) = push (encode_rune r) (unescape t).
Proof.
  intros Hr. destruct (Z_lt_ge_dec r 128) as [Hlt|Hge].
  - assert (0 <= r) by (unfold scalar in Hr; boolify; lia).
    rewrite <- (code_chr r) by lia. apply unescape_write_ascii. rewrite code_chr; lia.
  - unfold write_rune. repeat match goal with
    | |- context [if (?a =? ?b) then _ else _] => replace (a =? b) with false by lia
    end. replace (r <? 32) with false by lia. apply unescape_high, encode_rune_high; [done|lia].
Qed.

Lemma parse_write_runes s t :
  parse_string (write_runes s ++ quote :: t) = Some (coerce_string s, t).
Proof.
  assert (unescape (write_runes s ++ quote :: t) = Some (coerce_utf8 (B s), t)) as H.
  { unfold write_runes, coerce_utf8, encode_runes. generalize (runes_scalar (B s)).
    induction 1 as [|r rs Hr _ IH]; [done|].
    rewrite !mjoin_fmap_cons, <- app_assoc, unescape_write_rune by done. by rewrite IH. }
  unfold parse_string. rewrite H. cbn. by rewrite coerce_utf8_idem.
Qed.

(** ** The canonical tree *)
Fixpoint canon_tree (v : any) : option json :=
  match v with
  | ANil => Some JNull
  | ABool b => Some (JBool b)
  | AFloat f => Some (if is_finite f then JNum (number_literal f) else JNull)
  | AString s => Some (JStr s)
  | ASlice l => JArr <$> mapM canon_tree l
  | AMap l =>
      (fun kvs => JObj (insertion_sort (fun p q => utf16Less p.1 q.1) kvs)) <$>
      mapM (fun kv => pair kv.1 <$> canon_tree kv.2) l
  | _ => None
  end.

Lemma mapM_fmap_compose {A C D} (f : A -> option C) (g : C -> D) (h : A -> option D) l :
  Forall (fun x => h x = g <$> f x) l -> mapM h l = map g <$> mapM f l.
Proof.
  induction 1 as [|x l Hx _ IH]; [done|]. cbn. rewrite Hx, IH.
  destruct (f x); [|done]. cbn. by destruct (mapM f l).
Qed.

Lemma insertion_sort_map {A C} (less : A -> A -> bool) (less' : C -> C -> bool) (g : A -> C) l :
  (forall x y, less' (g x) (g y) = less x y) ->
  insertion_sort less' (map g l) = map g (insertion_sort less l).
Proof.
  intros Hg. unfold insertion_sort.
  assert (forall x l, insert_sorted less' (g x) (map g l) = map g (insert_sorted less x l)) as Hi.
  { intros x. induction l0 as [|y t IH]; [done|]. cbn. rewrite Hg.
    destruct (less x y); [done|]. cbn. by rewrite IH. }
  enough (forall acc, fold_left (fun acc x => insert_sorted less' x acc) (map g l) (map g acc)
    = map g (fold_left (fun acc x => insert_sorted less x acc) l acc)) as H by apply (H []).
  induction l as [|x l IH]; intros acc; [done|]. cbn. rewrite Hi. apply IH.
Qed.

(** [writeValue] prints the canonical tree. *)
Lemma writeValue_tree v : writeValue v = json_print_with write_runes <$> canon_tree v.
Proof.
  induction v as [|b|z|f|s|l IH|l IH|l|l IH|rj] using any_nested_ind; try done.
  - by destruct b.
  - cbn. unfold serializeNumber. by destruct (is_finite f).
  - cbn [writeValue canon_tree]. rewrite (mapM_fmap_compose canon_tree _ writeValue l IH).
    by destruct (mapM canon_tree l).
  - cbn [writeValue canon_tree].
    rewrite (mapM_fmap_compose (fun kv => pair kv.1 <$> canon_tree kv.2)
      (fun kv => (kv.1, json_print_with write_runes kv.2))).
    + destruct (mapM (fun kv => pair kv.1 <$> canon_tree kv.2) l) as [kvs|]; [|done].
      cbn. do 3 f_equal. rewrite (insertion_sort_map (fun p q => utf16Less p.1 q.1)) by done.
      by rewrite map_map.
    + eapply Forall_impl; [exact IH|]. intros [k v] Hv. cbn in *. rewrite Hv.
      by destruct (canon_tree v).
Qed.

(** ** Numbers *)

Lemma number_literal_wf f : wf_num (number_literal f) = true.
Proof.
  unfold number_literal. pose proof (shortest_nonneg' f) as H. destruct (shortest f) as [m e].
  cbn in H. destruct (use_exponent f); [by apply wf_format_e|by apply wf_format_f].
Qed.

Lemma ParseFloat_number_literal f : float_ok f = true -> ParseFloat (number_literal f) = Some f.
Proof.
  intros H. unfold number_literal.
  pose proof (ParseFloat_format_f f H) as Hf. pose proof (ParseFloat_format_e f H) as He.
  revert Hf He. destruct (shortest f) as [m e]. cbn [fst snd]. intros Hf He.
  destruct (use_exponent f) eqn:E; [|exact Hf]. apply He. intros s Hs. subst f. discriminate E.
Qed.

Lemma number_literal_inj f g :
  float_ok f = true -> float_ok g = true -> number_literal f = number_literal g -> f = g.
Proof.
  intros Hf Hg H. apply ParseFloat_number_literal in Hf, Hg. rewrite H in Hf. congruence.
Qed.

Lemma float_ok_finite f : float_ok f = true -> is_finite f = true.
Proof. unfold float_ok. intros. by boolify. Qed.

Lemma utf16_units_inj a b :
  valid_utf8 (B a) = true -> valid_utf8 (B b) = true -> utf16_units a = utf16_units b -> a = b.
Proof.
  intros Ha Hb H. apply B_inj. apply runes_inj; [done|done|].
  apply utf16_encode_inj; auto with atb.
Qed.

(** ** The tree of a decoded value *)

Lemma wf_any_map l :
  wf_any (AMap l) = true ->
  NoDup l.*1 /\ Forall (fun kv => valid_utf8 (B kv.1) = true /\ wf_any kv.2 = true) l.
Proof.
  cbn [wf_any]. intros H. boolify. split; [done|].
  match goal with H : forallb _ _ = true |- _ => apply forallb_Forall_iff in H; revert H end.
  intros H'. eapply Forall_impl; [exact H'|]. intros x Hx. by apply andb_true_iff in Hx.
Qed.

Lemma wf_any_slice l : wf_any (ASlice l) = true -> Forall (fun v => wf_any v = true) l.
Proof. cbn [wf_any]. apply forallb_Forall_iff. Qed.

Lemma Forall2_perm_r {A C} (R : A -> C -> Prop) l k k' :
  Forall2 R l k -> k ≡ₚ k' -> exists l', l ≡ₚ l' /\ Forall2 R l' k'.
Proof.
  intros HR Hp. revert l HR.
  induction Hp as [|x k k' Hp IH|x y k|k1 k2 k3 H1 IH1 H2 IH2]; intros l HR.
  - inversion HR; subst. by exists [].
  - inversion HR as [|a ? l0 ? Ha Hl]; subst. destruct (IH l0 Hl) as (l' & Hl' & HR').
    exists (a :: l'). split; [by constructor|by constructor].
  - inversion HR as [|a ? l0 ? Ha Hl]; subst. inversion Hl as [|a' ? l1 ? Ha' Hl']; subst.
    exists (a' :: a :: l1). split; [constructor|by repeat constructor].
  - destruct (IH1 l HR) as (l' & Hl' & HR'). destruct (IH2 l' HR') as (l'' & Hl'' & HR'').
    exists l''. split; [by etrans|done].
Qed.

Lemma canon_tree_total v : wf_any v = true -> is_Some (canon_tree v).
Proof.
  induction v as [|b|z|f|s|l IH|l IH|l|l IH|rj] using any_nested_ind; intros Hv; try done;
    cbn [canon_tree]; try by eexists.
  - apply fmap_is_Some, mapM_is_Some. apply wf_any_slice in Hv.
    induction IH; inversion Hv; constructor; auto.
  - apply fmap_is_Some, mapM_is_Some. apply wf_any_map in Hv as [_ Hv].
    induction IH as [|[k v] l Hx _ IHl]; inversion Hv as [|? ? [? ?] ?]; constructor; auto.
    apply fmap_is_Some. auto.
Qed.

Lemma canon_tree_wf v j : canon_tree v = Some j -> wf_json j = true.
Proof.
  revert j. induction v as [|b|z|f|s|l IH|l IH|l|l IH|rj] using any_nested_ind; intros j Hj;
    cbn [canon_tree] in Hj; simplify_eq; try done.
  - destruct (is_finite f); [apply number_literal_wf|done].
  - apply fmap_Some in Hj as (l' & Hl & ->). apply mapM_Some in Hl.
    cbn [wf_json]. apply forallb_Forall_iff.
    induction Hl; inversion IH; constructor; eauto.
  - apply fmap_Some in Hj as (l' & Hl & ->). apply mapM_Some in Hl.
    eapply wf_json_obj_perm; [symmetry; apply insertion_sort_perm|].
    cbn [wf_json]. apply forallb_Forall_iff.
    induction Hl as [|[k v] y l l' Hy _ IHl]; inversion IH; constructor; eauto.
    cbn in Hy. apply fmap_Some in Hy as (w & Hw & ->). eauto.
Qed.

Definition valid_json_string (s : string) : Prop := valid_utf8 (B s) = true.

Lemma coerce_string_valid s : valid_json_string s -> coerce_string s = s.
Proof. intros H. unfold coerce_string. rewrite valid_utf8_coerce by done. apply S_of_B. Qed.

Lemma coerce_members l :
  Forall (fun kv : string * json => coerce_string kv.1 = kv.1 /\ coerce_json kv.2 = kv.2) l ->
  coerce_json (JObj l) = JObj l.
Proof.
  intros H. cbn [coerce_json]. f_equal.
  induction H as [|[k v] l [Hk Hv] _ IH]; [done|]. cbn in *. by rewrite Hk, Hv, IH.
Qed.

Lemma coerce_canon_tree v j : wf_any v = true -> canon_tree v = Some j -> coerce_json j = j.
Proof.
  revert j. induction v as [|b|z|f|s|l IH|l IH|l|l IH|rj] using any_nested_ind; intros j Hv Hj;
    cbn [canon_tree] in Hj; simplify_eq; try done.
  - by destruct (is_finite f).
  - cbn [wf_any coerce_json] in *. by rewrite coerce_string_valid.
  - apply fmap_Some in Hj as (l' & Hl & ->). apply mapM_Some in Hl. apply wf_any_slice in Hv.
    cbn [coerce_json]. f_equal. induction Hl; [done|]. inversion IH; inversion Hv; subst. cbn.
    f_equal; auto.
  - apply fmap_Some in Hj as (l' & Hl & ->). apply mapM_Some in Hl.
    apply wf_any_map in Hv as [_ Hv]. apply coerce_members.
    rewrite insertion_sort_perm.
    induction Hl as [|[k v] y l l' Hy _ IHl]; [constructor|].
    inversion IH; inversion Hv as [|? ? [? ?] ?]; subst. cbn in Hy.
    apply fmap_Some in Hy as (w & Hw & ->). constructor; [|auto].
    cbn in *. split; [by apply coerce_string_valid|eauto].
Qed.

(** Decoding the printed tree, at any sufficient nesting. *)
Lemma parse_canon v j d :
  wf_any v = true -> canon_tree v = Some j -> (json_depth j <= d)%nat ->
  parse_value d (json_print_with write_runes j) = Some (j, []).
Proof.
  intros Hv Hj Hd. rewrite <- (app_nil_r (json_print_with _ _)).
  rewrite (parse_value_print write_runes parse_write_runes) by eauto using canon_tree_wf || done.
  by erewrite coerce_canon_tree.
Qed.

(** ** Equal trees are equal values *)

Lemma canon_tree_arr w l :
  canon_tree w = Some (JArr l) -> exists k, w = ASlice k /\ mapM canon_tree k = Some l.
Proof.
  destruct w; cbn [canon_tree]; intros H; simplify_eq.
  - by destruct (is_finite f).
  - apply fmap_Some in H as (k & Hk & ?). simplify_eq. eauto.
  - by apply fmap_Some in H as (? & _ & ?).
Qed.

Lemma canon_tree_obj w l :
  canon_tree w = Some (JObj l) ->
  exists k kvs, w = AMap k /\ mapM (fun kv => pair kv.1 <$> canon_tree kv.2) k = Some kvs /\
    l = insertion_sort (fun p q => utf16Less p.1 q.1) kvs.
Proof.
  destruct w; cbn [canon_tree]; intros H; simplify_eq.
  - by destruct (is_finite f).
  - by apply fmap_Some in H as (? & _ & ?).
  - apply fmap_Some in H as (k & Hk & ?). simplify_eq. eauto.
Qed.

Lemma same_of_leaf v w j :
  wf_any v = true -> wf_any w = true -> canon_tree v = Some j -> canon_tree w = Some j ->
  match v with ASlice _ | AMap _ => True | _ => same_value v w end.
Proof.
  intros Hv Hw Ev Ew.
  destruct v; try done; destruct w; cbn [canon_tree wf_any] in *;
    try (apply fmap_Some in Ew as (? & _ & ->));
    repeat match goal with
    | H : float_ok ?f = true, E : context [is_finite ?f] |- _ => rewrite (float_ok_finite f H) in E
    end; simplify_eq; try constructor.
  match goal with |- same_value (AFloat ?f) (AFloat ?g) =>
    enough (f = g) as -> by constructor; by apply number_literal_inj end.
Qed.

Lemma same_of_tree v w j :
  wf_any v = true -> wf_any w = true -> canon_tree v = Some j -> canon_tree w = Some j ->
  same_value v w.
Proof.
  revert w j. induction v as [|b|z|f|s|l IH|l IH|l|l IH|rj] using any_nested_ind;
    intros w j Hv Hw Ev Ew; try exact (same_of_leaf _ _ _ Hv Hw Ev Ew).
  - cbn [canon_tree] in Ev. apply fmap_Some in Ev as (l' & Hl & ->).
    apply canon_tree_arr in Ew as (k & -> & Hk). constructor.
    apply mapM_Some in Hl, Hk. apply wf_any_slice in Hv, Hw.
    revert k Hk Hw. induction Hl as [|x y l l' Hx Hl IHl]; intros k Hk Hw; inversion Hk; subst;
      [constructor|].
    inversion IH; inversion Hv; inversion Hw; subst. constructor; eauto.
  - cbn [canon_tree] in Ev. apply fmap_Some in Ev as (kvs & Hl & ->).
    apply canon_tree_obj in Ew as (k & kvs' & -> & Hk & Heq).
    apply mapM_Some in Hl, Hk.
    assert (kvs' ≡ₚ kvs) as Hp.
    { rewrite <- (insertion_sort_perm (fun p q => utf16Less p.1 q.1) kvs), Heq.
      symmetry. apply insertion_sort_perm. }
    destruct (Forall2_perm_r _ _ _ _ Hk Hp) as (k' & Hkk & Hk').
    econstructor; [exact Hkk|].
    apply wf_any_map in Hv as [_ Hv]. apply wf_any_map in Hw as [_ Hw]. rewrite Hkk in Hw.
    clear Hk Hp Hkk Heq k kvs'. revert k' Hk' Hw.
    induction Hl as [|[kx x] y l l' Hx Hl IHl]; intros k Hk Hw; inversion Hk as [|[ky w] ? ? ? Hy]; subst;
      [constructor|].
    inversion IH; inversion Hv as [|? ? [? ?]]; inversion Hw as [|? ? [? ?]]; subst.
    cbn in *. apply fmap_Some in Hx as (jx & Hx & ->). apply fmap_Some in Hy as (jy & Hy & ?).
    simplify_eq. constructor; [|eauto]. cbn. split; [done|eauto].
Qed.

(** ** The same value has one tree *)

(** Object members: distinct, valid keys. *)
Definition keyed {V} (l : list (string * V)) : Prop :=
  NoDup l.*1 /\ Forall (fun k => valid_utf8 (B k) = true) l.*1.

#[global] Instance keyed_perm {V} : Proper ((≡ₚ) ==> iff) (@keyed V).
Proof. intros l l' Hp. unfold keyed. by rewrite Hp. Qed.

Lemma sort_members_unique {V} (l l' : list (string * V)) :
  keyed l -> l' ≡ₚ l ->
  insertion_sort (fun p q => utf16Less p.1 q.1) l =
  insertion_sort (fun p q => utf16Less p.1 q.1) l'.
Proof.
  intros [Hn Hk] Hp. apply (sort_by_key_unique (fun p : string * V => utf16_units p.1)); [|done].
  intros [kx x] [ky y] Hx Hy Hu. cbn in Hu.
  assert (forall kz z, (kz, z) ∈ l -> valid_utf8 (B kz) = true) as Hval.
  { intros kz z Hz. rewrite Forall_forall in Hk. apply Hk, list_elem_of_fmap.
    by exists (kz, z). }
  apply utf16_units_inj in Hu; [|by eauto|by eauto]. subst ky.
  f_equal. by apply (NoDup_fst_unique l kx).
Qed.

Lemma wf_any_keyed l : wf_any (AMap l) = true -> keyed l.
Proof.
  intros [Hn Hl]%wf_any_map. split; [done|]. apply Forall_fmap.
  eapply Forall_impl; [exact Hl|]. by intros x [? _].
Qed.

Lemma members_keyed {V W} (f : V -> option W) l l' :
  keyed l -> Forall2 (fun x y => pair x.1 <$> f x.2 = Some y) l l' -> keyed l'.
Proof. intros H Hl. unfold keyed. by rewrite (Forall2_pair_keys f _ _ Hl). Qed.

Lemma canon_tree_same v : forall w, wf_any v = true -> same_value v w -> canon_tree v = canon_tree w.
Proof.
  induction v as [|b|z|f|s|l IH|l IH|l|l IH|rj] using any_nested_ind; intros w Hv Hs;
    inversion Hs as [| | | |? l' Hl|? l' l'' Hp Hl]; subst; try done.
  - cbn [canon_tree]. f_equal. apply wf_any_slice in Hv.
    clear Hs. induction Hl as [|x y l l' Hx _ IHl]; [done|].
    inversion IH as [|? ? Hx']; inversion Hv; subst. cbn [mapM].
    rewrite (Hx' y) by done. rewrite IHl by done. done.
  - pose proof (canon_tree_total _ Hv) as [j Hj]. rewrite Hj. symmetry.
    cbn [canon_tree] in *. apply fmap_Some in Hj as (kvs & Hk & ->).
    pose proof (wf_any_keyed _ Hv) as Hkey. apply wf_any_map in Hv as [Hnd Hv].
    assert (mapM (fun kv => pair kv.1 <$> canon_tree kv.2) l'' = Some kvs) as Hk''.
    { rewrite <- Hk. clear Hk Hp Hnd Hs Hkey.
      induction Hl as [|[kx x] [ky y] l l'' [Hxy Hx] _ IHl]; [done|].
      inversion IH as [|? ? Hx']; inversion Hv as [|? ? [? ?]]; subst. cbn in *. subst.
      rewrite (Hx' y) by done. rewrite IHl by done. done. }
    apply mapM_Some in Hk''. symmetry in Hp.
    destruct (Permutation_Forall2 Hp Hk'') as (kvs' & Hpk & Hk').
    apply mapM_Some in Hk'. rewrite Hk'. cbn. do 2 f_equal.
    symmetry. apply sort_members_unique; [|by apply Permutation_sym].
    apply mapM_Some in Hk. by eapply members_keyed.
Qed.

(** ** Decoding the canonical tree *)

(** Nesting of a value, as the decoder counts it. *)
Fixpoint any_depth (v : any) : nat :=
  match v with
  | ASlice l => S (max_list (map any_depth l))
  | AMap l => S (max_list (map (fun kv => any_depth kv.2) l))
  | _ => O
  end.

Lemma max_list_perm l l' : l ≡ₚ l' -> max_list l = max_list l'.
Proof. unfold max_list. induction 1; cbn; lia. Qed.

Lemma canon_tree_depth v j : canon_tree v = Some j -> json_depth j = any_depth v.
Proof.
  revert j. induction v as [|b|z|f|s|l IH|l IH|l|l IH|rj] using any_nested_ind; intros j Hj;
    cbn [canon_tree] in Hj; simplify_eq; try done.
  - by destruct (is_finite f).
  - apply fmap_Some in Hj as (l' & Hl & ->). apply mapM_Some in Hl.
    cbn [json_depth any_depth]. do 2 f_equal.
    induction Hl; inversion IH; subst; cbn; f_equal; auto.
  - apply fmap_Some in Hj as (l' & Hl & ->). apply mapM_Some in Hl.
    cbn [json_depth any_depth]. f_equal.
    rewrite (max_list_perm _ (map (fun kv => json_depth kv.2) l'))
      by (apply Permutation_map, insertion_sort_perm).
    f_equal. induction Hl as [|[k v] y l l' Hy _ IHl]; inversion IH; subst; [done|].
    cbn in Hy. apply fmap_Some in Hy as (w & Hw & ->). cbn. f_equal; auto.
Qed.

Lemma Forall2_wit {C D} (Q : C -> D -> Prop) l :
  Forall (fun y => exists z, Q y z) l -> exists l', Forall2 Q l l'.
Proof.
  induction 1 as [|y l [z Hz] _ [l' IH]]; [by exists []|]. by exists (z :: l'); constructor.
Qed.

Lemma Forall2_Forall_r {A C} (P : A -> C -> Prop) (Q : C -> Prop) l l' :
  Forall2 P l l' -> Forall (fun x => forall y, P x y -> Q y) l -> Forall Q l'.
Proof. induction 1; inversion 1; subst; constructor; auto. Qed.

(** The decoder accepts the canonical tree and gives a decoded value with that tree. *)
Definition redecodes (j : json) (w : any) : Prop :=
  of_json j = Some w /\ wf_any w = true /\ canon_tree w = Some j.

Lemma redecodes_slice l k : Forall2 redecodes l k -> redecodes (JArr l) (ASlice k).
Proof.
  intros Hk. unfold redecodes. cbn [of_json wf_any canon_tree]. split_and!.
  - replace (mapM of_json l) with (Some k); [done|]. symmetry. apply mapM_Some.
    eapply Forall2_impl; [exact Hk|]. by intros ? ? (? & _ & _).
  - apply forallb_Forall_iff. eapply Forall2_Forall_r; [exact Hk|].
    apply Forall_true. by intros ? ? (_ & ? & _).
  - replace (mapM canon_tree k) with (Some l); [done|]. symmetry. apply mapM_Some.
    apply Forall2_flip. eapply Forall2_impl; [exact Hk|]. by intros ? ? (_ & _ & ?).
Qed.

Lemma redecodes_map l k :
  keyed l -> Forall2 (fun x y => x.1 = y.1 /\ redecodes x.2 y.2) l k ->
  redecodes (JObj (insertion_sort (fun p q => utf16Less p.1 q.1) l))
    (AMap (default [] (mapM (fun kv => pair kv.1 <$> of_json kv.2)
      (insertion_sort (fun p q => utf16Less p.1 q.1) l)))).
Proof.
  intros Hl Hk. set (sl := insertion_sort _ l).
  assert (sl ≡ₚ l) as Hp by apply insertion_sort_perm.
  symmetry in Hp. destruct (Permutation_Forall2 Hp Hk) as (k' & Hkk & Hk').
  assert (mapM (fun kv => pair kv.1 <$> of_json kv.2) sl = Some k') as Hd.
  { apply mapM_Some. eapply Forall2_impl; [exact Hk'|].
    intros [kx x] [ky y] [He (Ho & _)]. cbn in *. subst. by rewrite Ho. }
  rewrite Hd. cbn [default]. change (default [] (Some k')) with k'.
  assert (k'.*1 = sl.*1) as Hkeys.
  { clear -Hk'. induction Hk' as [|x y ? ? [He _] _ IH]; [done|]. cbn. by rewrite He, IH. }
  assert (keyed sl) as [Hn Hv] by (by rewrite <- Hp).
  unfold redecodes. cbn [of_json wf_any canon_tree]. rewrite Hd. split_and!.
  - cbn. rewrite assoc_of_list_nodup by (by rewrite Hkeys). done.
  - assert (NoDup k'.*1) by (by rewrite Hkeys).
    apply andb_true_iff. split; [by apply bool_decide_eq_true|].
    apply forallb_Forall_iff. rewrite <- Hkeys in Hv. rewrite Forall_fmap in Hv.
    rewrite Forall_forall in Hv |- *. intros y Hy. apply andb_true_iff. split; [by apply Hv|].
    apply list_elem_of_lookup in Hy as [i Hi].
    destruct (Forall2_lookup_r _ _ _ _ _ Hk' Hi) as (x & _ & _ & (_ & ? & _)). done.
  - replace (mapM (fun kv => pair kv.1 <$> canon_tree kv.2) k') with (Some sl).
    + cbn. do 2 f_equal. symmetry. by apply sort_members_unique.
    + symmetry. apply mapM_Some, Forall2_flip. eapply Forall2_impl; [exact Hk'|].
      intros [kx x] [ky y] [He (_ & _ & Hc)]. cbn in *. subst. by rewrite Hc.
Qed.

Lemma of_json_canon v j :
  wf_any v = true -> canon_tree v = Some j -> exists w, redecodes j w.
Proof.
  revert j. induction v as [|b|z|f|s|l IH|l IH|l|l IH|rj] using any_nested_ind; intros j Hv Hj;
    try done; cbn [canon_tree] in Hj; simplify_eq.
  - by exists ANil.
  - by exists (ABool b).
  - exists (AFloat f). unfold redecodes. cbn [of_json wf_any canon_tree] in *.
    rewrite float_ok_finite by done. cbn [of_json]. rewrite ParseFloat_number_literal by done.
    by rewrite Hv.
  - by exists (AString s).
  - apply fmap_Some in Hj as (l' & Hl & ->). apply mapM_Some in Hl. apply wf_any_slice in Hv.
    destruct (Forall2_wit redecodes l') as [k Hk]; [|eauto using redecodes_slice].
    eapply Forall2_Forall_r; [exact Hl|]. rewrite Forall_forall in *.
    intros x Hx y Hy. by apply (IH x Hx y); [apply Hv|].
  - apply fmap_Some in Hj as (l' & Hl & ->). apply mapM_Some in Hl.
    pose proof (wf_any_keyed _ Hv) as Hkey. apply wf_any_map in Hv as [_ Hv].
    destruct (Forall2_wit (fun x y => x.1 = y.1 /\ redecodes x.2 y.2) l') as [k Hk];
      [|eexists; eapply redecodes_map; [by eapply members_keyed|exact Hk]].
    eapply Forall2_Forall_r; [exact Hl|]. rewrite Forall_forall in *.
    intros [kx x] Hx y Hy. cbn in Hy. apply fmap_Some in Hy as (jx & Hj & ->).
    destruct (IH _ Hx jx) as [w Hw]; [by apply (Hv _ Hx)|done|]. by exists (kx, w).
Qed.

(** ** Theorems *)

Lemma writeValue_inv v b :
  writeValue v = Some b ->
  exists j, canon_tree v = Some j /\ b = json_print_with write_runes j.
Proof. rewrite writeValue_tree. intros (j & ? & ->)%fmap_Some. eauto. Qed.

Lemma same_value_canon v w :
  wf_any v = true -> same_value v w -> writeValue v = writeValue w.
Proof. intros Hv Hs. rewrite !writeValue_tree. by rewrite (canon_tree_same v w). Qed.

Lemma canon_same_value v w b :
  wf_any v = true -> wf_any w = true -> writeValue v = Some b -> writeValue w = Some b ->
  same_value v w.
Proof.
  intros Hv Hw (j & Hj & ->)%writeValue_inv (j' & Hj' & Hb)%writeValue_inv.
  set (d := Nat.max (json_depth j) (json_depth j')).
  assert (Some (j, []) = Some (j', [] : bytes)) as Heq; [|simplify_eq; by eapply same_of_tree].
  rewrite <- (parse_canon v j d), <- (parse_canon w j' d) by (done || lia). by rewrite Hb.
Qed.

Lemma Unmarshal_canon v b :
  wf_any v = true -> (any_depth v <= max_nesting_depth)%nat -> writeValue v = Some b ->
  exists w, Unmarshal b = Some w /\ same_value v w /\ writeValue w = Some b.
Proof.
  intros Hv Hd (j & Hj & ->)%writeValue_inv.
  destruct (of_json_canon v j Hv Hj) as (w & Hw & Hwf & Hjw). exists w.
  rewrite writeValue_tree, Hjw. split_and!; [|by eapply same_of_tree|done].
  unfold Unmarshal. erewrite (json_parse_print_with write_runes parse_write_runes).
  - cbn. by erewrite coerce_canon_tree.
  - by eapply canon_tree_wf.
  - by erewrite canon_tree_depth.
Qed.

(** ** What the decoder delivers is well formed *)

Fixpoint valid_json (j : json) : bool :=
  match j with
  | JStr s => valid_utf8 (B s)
  | JArr l => forallb valid_json l
  | JObj l => forallb (fun kv => valid_utf8 (B kv.1) && valid_json kv.2) l
  | _ => true
  end.

Fixpoint floats_ok (v : any) : bool :=
  match v with
  | ANil | ABool _ | AString _ => true
  | AFloat f => float_ok f
  | ASlice l => forallb floats_ok l
  | AMap l => forallb (fun kv => floats_ok kv.2) l
  | _ => false
  end.

Lemma valid_coerce_string s : valid_utf8 (B (coerce_string s)) = true.
Proof. unfold coerce_string. rewrite B_S_of. apply valid_coerce_utf8. Qed.

Lemma valid_coerce_json j : valid_json (coerce_json j) = true.
Proof.
  induction j as [|b|n|s|l IH|l IH] using json_nested_ind; try done.
  - apply valid_coerce_string.
  - cbn [coerce_json valid_json]. apply forallb_Forall_iff, Forall_fmap. exact IH.
  - cbn [coerce_json valid_json]. apply forallb_Forall_iff, Forall_fmap.
    eapply Forall_impl; [exact IH|]. intros [k v] Hv. cbn in *.
    by rewrite valid_coerce_string, Hv.
Qed.

Lemma coerce_valid_json j : valid_json j = true -> coerce_json j = j.
Proof.
  induction j as [|b|n|s|l IH|l IH] using json_nested_ind; intros Hv; try done;
    cbn [valid_json coerce_json] in *.
  - f_equal. by apply coerce_string_valid.
  - f_equal. apply forallb_Forall_iff in Hv.
    induction Hv; inversion IH; subst; cbn; f_equal; auto.
  - f_equal. apply forallb_Forall_iff in Hv.
    induction Hv as [|[k v] l Hkv _ IHl]; inversion IH; subst; cbn in *; [done|]. boolify.
    rewrite coerce_string_valid by done. f_equal; [f_equal; auto|auto].
Qed.

Lemma assoc_set_elem {V} k (v : V) l x : x ∈ assoc_set k v l -> x = (k, v) \/ x ∈ l.
Proof.
  induction l as [|[k1 v1] l IH]; cbn.
  - intros ?%list_elem_of_singleton. auto.
  - destruct (String.eqb k k1); rewrite !elem_of_cons; naive_solver.
Qed.

Lemma assoc_set_keys {V} k (v : V) l : NoDup l.*1 -> NoDup (assoc_set k v l).*1.
Proof.
  induction l as [|[k1 v1] l IH]; cbn; intros Hn; [repeat constructor; by intros ?%elem_of_nil|].
  apply NoDup_cons in Hn as [Hk Hn].
  destruct (String.eqb_spec k k1) as [->|Hne]; cbn; constructor; auto.
  intros Hin. apply list_elem_of_fmap in Hin as ([k2 v2] & -> & Hin).
  apply assoc_set_elem in Hin as [Hin|Hin]; [by simplify_eq|].
  destruct Hk. apply list_elem_of_fmap. by exists (k2, v2).
Qed.

Lemma assoc_of_list_spec {V} (l : list (string * V)) :
  NoDup (assoc_of_list l).*1 /\ forall x, x ∈ assoc_of_list l -> x ∈ l.
Proof.
  unfold assoc_of_list.
  enough (forall acc, NoDup acc.*1 ->
    NoDup (fold_left (fun m kv => assoc_set kv.1 kv.2 m) l acc).*1 /\
    forall x, x ∈ fold_left (fun m kv => assoc_set kv.1 kv.2 m) l acc -> x ∈ acc \/ x ∈ l) as H.
  { destruct (H []) as [H1 H2]; [constructor|]. split; [done|].
    intros x Hx. destruct (H2 x Hx) as [Hx'|]; [by apply elem_of_nil in Hx'|done]. }
  induction l as [|[k v] l IH]; intros acc Hn; cbn; [auto|].
  destruct (IH (assoc_set k v acc)) as [H1 H2]; [by apply assoc_set_keys|]. split; [done|].
  intros x [Hx|Hx]%H2; [|by right; right].
  apply assoc_set_elem in Hx as [->|?]; [right; left|by left].
Qed.

Lemma of_json_wf j w :
  valid_json j = true -> of_json j = Some w -> floats_ok w = true -> wf_any w = true.
Proof.
  revert w. induction j as [|b|n|s|l IH|l IH] using json_nested_ind; intros w Hj Hw Hf;
    cbn [of_json] in Hw; simplify_eq; try done.
  - by apply fmap_Some in Hw as (f & _ & ->).
  - apply fmap_Some in Hw as (k & Hk & ->). apply mapM_Some in Hk.
    cbn [valid_json floats_ok wf_any] in *. rewrite !forallb_Forall_iff in *.
    induction Hk; [done|]. inversion IH; inversion Hj; inversion Hf; subst. constructor; auto.
  - apply fmap_Some in Hw as (k & Hk & ->). apply mapM_Some in Hk.
    cbn [valid_json floats_ok] in *. rewrite !forallb_Forall_iff in *.
    destruct (assoc_of_list_spec k) as [Hn Hin].
    assert (Forall (fun kv => valid_utf8 (B kv.1) = true /\
      (floats_ok kv.2 = true -> wf_any kv.2 = true)) k) as Hwf.
    { clear -Hk IH Hj. induction Hk as [|[kx x] y l k Hy _ IHk]; [done|].
      inversion IH; inversion Hj as [|? ? [Hv1 Hv2]%andb_true_iff ?]; subst. cbn in *.
      apply fmap_Some in Hy as (w & Hw & ->). constructor; [|auto]. cbn. eauto. }
    rewrite Forall_forall in Hwf, Hf. cbn [wf_any]. apply andb_true_iff.
    split; [by apply bool_decide_eq_true|]. apply forallb_Forall_iff, Forall_forall.
    intros x Hx. apply andb_true_iff. destruct (Hwf x (Hin x Hx)). split; [done|]. auto.
Qed.

(** ** Properties *)

(** C1: the canonical form is exactly JSON equality. Two decoded values have the same
    canonical bytes if and only if they are the same JSON value: member order never
    changes the bytes (so map iteration order cannot change a hash), and different
    values never share them. *)
Theorem canonical_form_decides_equality v w :
  wf_any v = true -> wf_any w = true -> (writeValue v = writeValue w <-> same_value v w).
Proof.
  intros Hv Hw. split; [|by apply same_value_canon]. intros H.
  destruct (canon_tree_total v Hv) as [j Hj].
  assert (writeValue v = Some (json_print_with write_runes j)) as Hb
    by (by rewrite writeValue_tree, Hj).
  eapply canon_same_value; [done|done|exact Hb|by rewrite <- H].
Qed.

(** C34: canonical bytes are JSON for the value they came from, and a fixed point.
    Within the decoder's nesting limit, every decoded value has canonical bytes, they
    decode to the same value, and canonicalizing them again returns them unchanged. *)
Theorem canonical_bytes_roundtrip v :
  wf_any v = true -> (any_depth v <= max_nesting_depth)%nat ->
  exists b w, writeValue v = Some b /\ Unmarshal b = Some w /\ same_value v w /\
    MarshalRaw b = Some b.
Proof.
  intros Hv Hd. destruct (canon_tree_total v Hv) as [j Hj].
  assert (writeValue v = Some (json_print_with write_runes j)) as Hb
    by (by rewrite writeValue_tree, Hj).
  destruct (Unmarshal_canon v _ Hv Hd Hb) as (w & Hw & Hs & Hw').
  exists (json_print_with write_runes j), w. split_and!; [done|done|done|].
  unfold MarshalRaw, canonicalizeRaw. by rewrite Hw.
Qed.

(** The package's comments promise the ES6 number form of RFC 8785; the exponent form
    keeps Go's two exponent digits, and negative zero keeps its sign. *)
Theorem serializeNumber_differs_from_ES6 :
  serializeNumber (round_decimal false 1 (-7)) = B "1e-07" /\
  serializeNumber (S754_zero true) = B "-0".
Proof. split; vm_compute; reflexivity. Qed.

(** ** Witnesses *)

Definition sample : any :=
  AMap [("b", ASlice [ANil; ABool true; AFloat (round_decimal false 25 (-1))]);
        ("a", AString "x")].
Definition sample' : any :=
  AMap [("a", AString "x");
        ("b", ASlice [ANil; ABool true; AFloat (round_decimal false 25 (-1))])].

Lemma canonical_form_decides_equality_witness :
  (writeValue sample = writeValue sample' <-> same_value sample sample') /\
  writeValue sample = writeValue sample'.
Proof.
  split; [|vm_compute; reflexivity].
  apply canonical_form_decides_equality; vm_compute; reflexivity.
Defined.

Lemma canonical_bytes_roundtrip_witness :
  exists b w, writeValue sample = Some b /\ Unmarshal b = Some w /\ same_value sample w /\
    MarshalRaw b = Some b.
Proof.
  apply canonical_bytes_roundtrip; [vm_compute; reflexivity|].
  unfold max_nesting_depth. cbn. lia.
Defined.

End Canonicalize.
