(* ===== verification/Event.v ===== *)
(** * Package internal/event: the event model

    [Event] and its nested structs, their JSON encoding (field order, names and
    [omitempty] as the struct tags say) and their decoding. The lemmas show that the
    encoding determines every field. *)

From S2P Require Import Prelude GoText GoFloat GoJson GoValue GoStruct Canonicalize.
Import Canonicalize.

(** ** Decoded values survive another round *)

Lemma num_value_clean n : num_value (clean_exponent n) = num_value n.
Proof.
  unfold clean_exponent, num_value. destruct n as [neg ds fr ex]. cbn [n_exp n_int n_frac n_neg].
  destruct ex as [[[m sg] [|c [|d [|? ?]]]]|]; try done.
  destruct (code c =? 48) eqn:E; [|done]. boolify. cbn [n_exp n_int n_frac n_neg].
  assert (digits_value [c; d] = digits_value [d]) as ->; [|done].
  unfold digits_value, digit_value. cbn [fold_left]. rewrite E. lia.
Qed.

Lemma ParseFloat_json_float f : float_ok f = true -> ParseFloat (json_float f) = Some f.
Proof.
  intros H. pose proof (ParseFloat_number_literal f H) as Hp.
  unfold json_float, number_literal, ParseFloat in *. destruct (shortest f) as [m e].
  destruct (use_exponent f); [|done]. by rewrite num_value_clean.
Qed.

Lemma redecode_slice l : redecode (ASlice l) = ASlice <$> mapM redecode l.
Proof.
  unfold redecode at 1. cbn [to_json].
  assert (mapM redecode l = js ← mapM to_json l; mapM of_json (map coerce_json js)) as ->.
  { induction l as [|v l IH]; [done|]. cbn [mapM]. rewrite IH. unfold redecode.
    destruct (to_json v) as [j|]; cbn; [|done].
    destruct (mapM to_json l) as [js|]; cbn; [done|]. by destruct (of_json (coerce_json j)). }
  by destruct (mapM to_json l).
Qed.

Lemma redecode_map l m :
  NoDup l.*1 -> Forall (fun k => coerce_string k = k) l.*1 ->
  mapM (fun kv => pair kv.1 <$> redecode kv.2) l = Some m ->
  exists m', redecode (AMap l) = Some (AMap m') /\ m' ≡ₚ m.
Proof.
  intros Hn Hk Hm. unfold redecode at 1. cbn [to_json].
  assert (exists kvs, mapM (fun kv => pair kv.1 <$> to_json kv.2) l = Some kvs /\
    Forall2 (fun x y => pair x.1 <$> of_json (coerce_json x.2) = Some y) kvs m) as (kvs & Hj & Hd).
  { apply mapM_Some in Hm. clear -Hm. induction Hm as [|[k v] y l m Hy _ (kvs & Hj & Hd)].
    { by exists []. }
    cbn in Hy. unfold redecode in Hy. destruct (to_json v) as [j|] eqn:Ej; [|done]. cbn in Hy.
    exists ((k, j) :: kvs). cbn [mapM fst snd]. rewrite Ej, Hj. split; [done|by constructor]. }
  rewrite Hj. pose proof (mapM_keys _ _ _ Hj) as Hkeys. clear Hj Hm.
  cbn [fmap option_fmap option_map mbind option_bind coerce_json of_json].
  set (sl := insertion_sort key_less kvs). assert (kvs ≡ₚ sl) as Hp by (symmetry; apply insertion_sort_perm).
  destruct (Permutation_Forall2 Hp Hd) as (m' & Hpm & Hd').
  assert (NoDup m'.*1) as Hn'.
  { rewrite (Forall2_pair_keys (fun j => of_json (coerce_json j)) _ _ Hd'), <- Hp. by rewrite Hkeys. }
  exists m'. split; [|done].
  replace (mapM (fun kv => pair kv.1 <$> of_json kv.2)
      (map (fun kv => (coerce_string kv.1, coerce_json kv.2)) sl)) with (Some m').
  { cbn. by rewrite assoc_of_list_nodup. }
  symmetry. rewrite <- Hkeys, Hp in Hk. clear -Hd' Hk. induction Hd' as [|[k j] y sl m Hy _ IH]; [done|].
  cbn in Hk, Hy. apply Forall_cons in Hk as [Hk Hks]. cbn [map mapM fst snd].
  rewrite Hk, Hy, IH by done. done.
Qed.

Lemma wf_any_map_intro m m' :
  keyed m -> Forall (fun kv => wf_any kv.2 = true) m -> m' ≡ₚ m -> wf_any (AMap m') = true.
Proof.
  intros Hk Hm Hp. rewrite <- Hp in Hk, Hm. destruct Hk as [Hn Hk]. cbn [wf_any].
  apply andb_true_iff. split; [by apply bool_decide_eq_true|]. apply forallb_Forall_iff.
  rewrite Forall_fmap in Hk. rewrite Forall_forall in *. intros x Hx. apply andb_true_iff.
  split; [by apply Hk|by apply Hm].
Qed.

(** A decoded value, encoded and decoded again, is the same value. *)
Lemma redecode_same v :
  wf_any v = true -> exists w, redecode v = Some w /\ wf_any w = true /\ same_value v w.
Proof.
  induction v as [|b|z|f|s|l IH|l IH|l|l IH|rj] using any_nested_ind; intros Hv; try done.
  - eexists. split_and!; [reflexivity|done|constructor].
  - eexists. split_and!; [reflexivity|done|constructor].
  - exists (AFloat f). cbn [wf_any] in Hv. unfold redecode. cbn [to_json].
    rewrite float_ok_finite by done. cbn [mbind option_bind coerce_json of_json]. rewrite ParseFloat_json_float by done.
    split_and!; [done|done|constructor].
  - exists (AString s). unfold redecode. cbn. rewrite coerce_string_valid by done.
    split_and!; [done|done|constructor].
  - apply wf_any_slice in Hv.
    destruct (Forall2_wit (fun v w => redecode v = Some w /\ wf_any w = true /\ same_value v w) l)
      as [k Hk]; [rewrite Forall_forall in *; auto|].
    exists (ASlice k). rewrite redecode_slice. split_and!.
    + replace (mapM redecode l) with (Some k); [done|]. symmetry. apply mapM_Some.
      eapply Forall2_impl; [exact Hk|]. by intros ? ? (? & _ & _).
    + cbn [wf_any]. apply forallb_Forall_iff. eapply Forall2_Forall_r; [exact Hk|].
      apply Forall_true. by intros ? ? (_ & ? & _).
    + constructor. eapply Forall2_impl; [exact Hk|]. by intros ? ? (_ & _ & ?).
  - pose proof (wf_any_keyed _ Hv) as Hkey. apply wf_any_map in Hv as [Hn Hv].
    destruct (Forall2_wit (fun x y => x.1 = y.1 /\ redecode x.2 = Some y.2 /\
      wf_any y.2 = true /\ same_value x.2 y.2) l) as [m Hm].
    { rewrite Forall_forall in *. intros [k v] Hx. destruct (Hv _ Hx) as [_ Hw].
      destruct (IH _ Hx Hw) as (w & ? & ? & ?). by exists (k, w). }
    assert (mapM (fun kv => pair kv.1 <$> redecode kv.2) l = Some m) as HmM.
    { apply mapM_Some. eapply Forall2_impl; [exact Hm|]. intros [k v] [k' w] (He & Hr & _).
      cbn in *. subst. by rewrite Hr. }
    destruct (redecode_map l m) as (m' & Hr & Hp); [done| |done|].
    { destruct Hkey as [_ Hkey]. eapply Forall_impl; [exact Hkey|]. apply coerce_string_valid. }
    exists (AMap m'). split_and!; [done| |].
    + eapply wf_any_map_intro; [|..|exact Hp].
      * unfold keyed. rewrite (mapM_keys _ _ _ HmM). exact Hkey.
      * eapply Forall2_Forall_r; [exact Hm|]. apply Forall_true. by intros ? ? (_ & _ & ? & _).
    + econstructor; [exact Hp|]. eapply Forall2_impl; [exact Hm|]. by intros ? ? (? & _ & _ & ?).
Qed.

(** ** Encoded structs that are the same value *)

(** Two fields agree when both are absent, or both decode to the same value. *)
Definition agree (x y : option any) : Prop :=
  match x, y with
  | None, None => True
  | Some v, Some w => exists v' w', redecode v = Some v' /\ redecode w = Some w' /\ same_value v' w'
  | _, _ => False
  end.

Lemma same_map_assoc m m' k :
  NoDup m.*1 -> NoDup m'.*1 -> same_value (AMap m) (AMap m') ->
  match assoc k m, assoc k m' with
  | None, None => True | Some v, Some w => same_value v w | _, _ => False
  end.
Proof.
  intros Hm Hm' Hs. inversion Hs as [| | | | |? ? m'' Hp Hl]; subst.
  rewrite (assoc_perm m' m'' k) by done. clear Hs Hp Hm Hm'.
  induction Hl as [|[k1 v] [k2 w] m m'' [Hk Hv] _ IH]; [done|]. cbn in *. subst k2.
  by destruct (String.eqb k k1).
Qed.

Lemma struct_agree names l l' w w' k :
  good_names names = true -> l.*1 `sublist_of` names -> l'.*1 `sublist_of` names ->
  redecode (AStruct l) = Some w -> redecode (AStruct l') = Some w' -> same_value w w' ->
  agree (assoc k l) (assoc k l').
Proof.
  intros Hg Hl Hl' Hw Hw' Hs.
  destruct (good_names_sub _ _ Hg Hl) as (Hn & _ & Hc).
  destruct (good_names_sub _ _ Hg Hl') as (Hn' & _ & Hc').
  rewrite redecode_struct in Hw, Hw' by done.
  apply fmap_Some in Hw as (m & Hm & ->). apply fmap_Some in Hw' as (m' & Hm' & ->).
  pose proof (same_map_assoc m m' k) as H.
  rewrite (mapM_keys _ _ _ Hm), (mapM_keys _ _ _ Hm') in H. specialize (H Hn Hn' Hs).
  rewrite (assoc_mapM _ _ _ k Hm), (assoc_mapM _ _ _ k Hm') in H.
  assert (forall l m, mapM (fun kv => pair kv.1 <$> redecode kv.2) l = Some m ->
    forall v, assoc k l = Some v -> is_Some (redecode v)) as Htot.
  { clear. intros l m Hm. apply mapM_Some in Hm.
    induction Hm as [|[k1 v1] y l m Hy _ IH]; [done|]. cbn. cbn in Hy.
    apply fmap_Some in Hy as (u & Hu & _). intros v.
    destruct (String.eqb k k1); [intros; simplify_eq; by exists u|apply IH]. }
  specialize (Htot l m Hm) as H1. specialize (Htot l' m' Hm') as H2.
  destruct (assoc k l) as [v|], (assoc k l') as [v'|]; cbn in *; try done.
  - destruct (H1 v eq_refl) as [u Hu]. destruct (H2 v' eq_refl) as [u' Hu'].
    rewrite Hu, Hu' in H. eauto.
  - destruct (H1 v eq_refl) as [u Hu]. by rewrite Hu in H.
  - destruct (H2 v' eq_refl) as [u Hu]. by rewrite Hu in H.
Qed.

Definition valid_string (s : string) : bool := valid_utf8 (B s).
Definition valid_ptr (x : option string) : bool :=
  match x with None => true | Some s => valid_string s end.

Lemma agree_string s t :
  valid_string s = true -> valid_string t = true ->
  agree (Some (AString s)) (Some (AString t)) -> s = t.
Proof.
  intros Hs Ht (v & w & Hv & Hw & H). cbn in Hv, Hw. simplify_eq.
  rewrite !coerce_string_valid in H by done. by inversion H.
Qed.

Lemma agree_string_at (s t : string) (x y : option any) :
  valid_string s = true -> valid_string t = true ->
  x = Some (AString s) -> y = Some (AString t) -> agree x y -> s = t.
Proof. intros Hs Ht -> ->. by apply agree_string. Qed.

Definition opt_string (s : string) : option any :=
  if String.eqb s "" then None else Some (AString s).

Lemma agree_opt_string_at (s t : string) (x y : option any) :
  valid_string s = true -> valid_string t = true ->
  x = opt_string s -> y = opt_string t -> agree x y -> s = t.
Proof.
  intros Hs Ht -> ->. unfold opt_string.
  destruct (String.eqb_spec s ""), (String.eqb_spec t ""); subst; try done.
  by apply agree_string.
Qed.

Lemma agree_ptr_at x y u v :
  valid_ptr x = true -> valid_ptr y = true ->
  u = AString <$> x -> v = AString <$> y -> agree u v -> x = y.
Proof.
  intros Hx Hy -> -> H. destruct x, y; try done. f_equal. by apply agree_string.
Qed.

(** ** Fields read back *)

Lemma read_string s x :
  valid_string s = true -> (j ← to_json (AString s); dec_string (coerce_json j) x) = Some s.
Proof. intros H. cbn. by rewrite coerce_string_valid. Qed.

Lemma read_omit_string s :
  valid_string s = true ->
  match opt_string s with
  | None => Some ""
  | Some v => j ← to_json v; dec_string (coerce_json j) ""
  end = Some s.
Proof.
  intros H. unfold opt_string. destruct (String.eqb_spec s "") as [->|]; [done|].
  by apply read_string.
Qed.

Lemma read_ptr_string x :
  valid_ptr x = true ->
  match AString <$> x with
  | None => Some None
  | Some v => j ← to_json v; dec_ptr "" dec_string (coerce_json j) None
  end = Some x.
Proof. destruct x as [s|]; [|done]. cbn [valid_ptr]. intros H. cbn. by rewrite coerce_string_valid. Qed.

Definition int64 (z : Z) : bool := (-9223372036854775808 <=? z) && (z <=? 9223372036854775807).

Lemma read_int z x :
  int64 z = true -> (j ← to_json (AInt z); dec_int (coerce_json j) x) = Some z.
Proof.
  intros H. cbn [to_json mbind option_bind coerce_json dec_int]. unfold ParseInt, int_lit.
  cbn [n_frac n_exp n_neg n_int].
  destruct (digits_spec (Z.abs z)) as [-> _]; [lia|].
  replace (if z <? 0 then - Z.abs z else Z.abs z) with z by (destruct (z <? 0) eqn:?; boolify; lia).
  unfold int64 in H. by rewrite H.
Qed.

(** Looks every field up in a field list. *)
Ltac assoc_fields :=
  split_and!;
  rewrite ?assoc_app, ?assoc_omit_string, ?assoc_omit_ptr, ?assoc_omit_bool;
  cbn [assoc String.eqb Ascii.eqb Bool.eqb app]; rewrite ?option_match_id; reflexivity.

(** Two structs agree on a string field, found by its lookups. *)
Ltac at_key E F :=
  first [eapply agree_string_at; [| |exact E|exact F|]
        |eapply agree_opt_string_at; [| |exact E|exact F|]
        |eapply agree_ptr_at; [| |exact E|exact F|]]; auto.

(** A nested pointer to a struct. *)
Lemma read_ptr_struct {A} (enc : A -> any) (zero : A) (dec : json -> A -> option A) (x : option A) :
  (forall a, x = Some a -> is_Some (to_json (enc a))) ->
  (forall a j, x = Some a -> to_json (enc a) = Some j ->
     coerce_json j <> JNull /\ dec (coerce_json j) zero = Some a) ->
  match enc <$> x with
  | None => Some None
  | Some v => j ← to_json v; dec_ptr zero dec (coerce_json j) None
  end = Some x.
Proof.
  intros Htot Hdec. destruct x as [a|]; [|done]. cbn [fmap option_fmap option_map].
  destruct (Htot a eq_refl) as [j Hj]. destruct (Hdec a j eq_refl Hj) as [Hn Hd]. rewrite Hj.
  cbn [mbind option_bind]. unfold dec_ptr.
  destruct (coerce_json j); try done; change (default zero None) with zero; by rewrite Hd.
Qed.

Lemma struct_not_null l j : to_json (AStruct l) = Some j -> coerce_json j <> JNull.
Proof. cbn [to_json]. by intros (kvs & _ & ->)%fmap_Some. Qed.

Module CheckpointInfo.
Record t := mk {
  SourceSystem : string;
  AcquisitionStream : string;
  Position : string;
  ObservedAt : string;
  Adapter : string;
  AdapterVersion : string
}.

Definition zero : t := mk "" "" "" "" "" "".

Definition fields (c : t) : list (string * any) :=
  [("source_system", AString (SourceSystem c));
   ("acquisition_stream", AString (AcquisitionStream c));
   ("position", AString (Position c));
   ("observed_at", AString (ObservedAt c));
   ("adapter", AString (Adapter c))]
  ++ omit_string "adapter_version" (AdapterVersion c).

Definition names : list string :=
  ["source_system"; "acquisition_stream"; "position"; "observed_at"; "adapter";
   "adapter_version"].

Definition encode (c : t) : any := AStruct (fields c).

Definition decode (j : json) (c : t) : option t :=
  match j with
  | JNull => Some c
  | JObj l =>
      a ← decode_field names "source_system" dec_string l (SourceSystem c);
      b ← decode_field names "acquisition_stream" dec_string l (AcquisitionStream c);
      p ← decode_field names "position" dec_string l (Position c);
      o ← decode_field names "observed_at" dec_string l (ObservedAt c);
      d ← decode_field names "adapter" dec_string l (Adapter c);
      v ← decode_field names "adapter_version" dec_string l (AdapterVersion c);
      Some (mk a b p o d v)
  | _ => None
  end.

#[global] Instance eq_dec : EqDecision t.
Proof. solve_decision. Defined.

Definition valid (c : t) : bool :=
  valid_string (SourceSystem c) && valid_string (AcquisitionStream c) &&
  valid_string (Position c) && valid_string (ObservedAt c) && valid_string (Adapter c) &&
  valid_string (AdapterVersion c).

Lemma checkpoint_fields_sub c : (fields c).*1 `sublist_of` names.
Proof. unfold fields, names. solve_fields. Qed.

Lemma checkpoint_fields_assoc c :
  assoc "source_system" (fields c) = Some (AString (SourceSystem c)) /\
  assoc "acquisition_stream" (fields c) = Some (AString (AcquisitionStream c)) /\
  assoc "position" (fields c) = Some (AString (Position c)) /\
  assoc "observed_at" (fields c) = Some (AString (ObservedAt c)) /\
  assoc "adapter" (fields c) = Some (AString (Adapter c)) /\
  assoc "adapter_version" (fields c) = opt_string (AdapterVersion c).
Proof. unfold fields. assoc_fields. Qed.

Lemma checkpoint_encode_inj c c' w w' :
  valid c = true -> valid c' = true ->
  redecode (encode c) = Some w -> redecode (encode c') = Some w' -> same_value w w' -> c = c'.
Proof.
  intros Hc Hc' Hw Hw' Hs. unfold valid in Hc, Hc'. boolify.
  pose proof (fun k => struct_agree names _ _ w w' k eq_refl (checkpoint_fields_sub c) (checkpoint_fields_sub c')
    Hw Hw' Hs) as Hk.
  destruct (checkpoint_fields_assoc c) as (E1 & E2 & E3 & E4 & E5 & E6).
  destruct (checkpoint_fields_assoc c') as (F1 & F2 & F3 & F4 & F5 & F6).
  destruct c, c'. f_equal; [at_key E1 F1|at_key E2 F2|at_key E3 F3|at_key E4 F4|at_key E5 F5|at_key E6 F6].
Qed.

Lemma checkpoint_decode_encode c j :
  valid c = true -> to_json (encode c) = Some j -> decode (coerce_json j) zero = Some c.
Proof.
  intros Hc Hj. unfold valid in Hc. boolify.
  destruct (struct_decode names (fields c) j eq_refl (checkpoint_fields_sub c) Hj) as (jl & -> & _ & Hd).
  destruct (checkpoint_fields_assoc c) as (E1 & E2 & E3 & E4 & E5 & E6).
  unfold decode. rewrite !Hd, E1, E2, E3, E4, E5, E6. rewrite !read_string by done.
  cbn [mbind option_bind AdapterVersion zero]. rewrite read_omit_string by done. by destruct c.
Qed.
End CheckpointInfo.

Module AcquisitionInfo.
Record t := mk {
  Mode : string;
  SourceSystem : string;
  SourceRecordID : string;
  SourceTimestamp : string;
  AcquiredAt : string;
  SourceDigest : string;
  Adapter : string;
  AdapterVersion : string;
  Checkpoint : option CheckpointInfo.t
}.

Definition zero : t := mk "" "" "" "" "" "" "" "" None.

Definition fields (a : t) : list (string * any) :=
  omit_string "mode" (Mode a)
  ++ omit_string "source_system" (SourceSystem a)
  ++ omit_string "source_record_id" (SourceRecordID a)
  ++ omit_string "source_timestamp" (SourceTimestamp a)
  ++ omit_string "acquired_at" (AcquiredAt a)
  ++ omit_string "source_digest" (SourceDigest a)
  ++ omit_string "adapter" (Adapter a)
  ++ omit_string "adapter_version" (AdapterVersion a)
  ++ omit_ptr CheckpointInfo.encode "checkpoint" (Checkpoint a).

Definition names : list string :=
  ["mode"; "source_system"; "source_record_id"; "source_timestamp"; "acquired_at";
   "source_digest"; "adapter"; "adapter_version"; "checkpoint"].

Definition encode (a : t) : any := AStruct (fields a).

Definition decode (j : json) (a : t) : option t :=
  match j with
  | JNull => Some a
  | JObj l =>
      m ← decode_field names "mode" dec_string l (Mode a);
      s ← decode_field names "source_system" dec_string l (SourceSystem a);
      r ← decode_field names "source_record_id" dec_string l (SourceRecordID a);
      ts ← decode_field names "source_timestamp" dec_string l (SourceTimestamp a);
      aq ← decode_field names "acquired_at" dec_string l (AcquiredAt a);
      d ← decode_field names "source_digest" dec_string l (SourceDigest a);
      ad ← decode_field names "adapter" dec_string l (Adapter a);
      av ← decode_field names "adapter_version" dec_string l (AdapterVersion a);
      c ← decode_field names "checkpoint" (dec_ptr CheckpointInfo.zero CheckpointInfo.decode) l
            (Checkpoint a);
      Some (mk m s r ts aq d ad av c)
  | _ => None
  end.

#[global] Instance eq_dec : EqDecision t.
Proof. solve_decision. Defined.

Definition valid (a : t) : bool :=
  valid_string (Mode a) && valid_string (SourceSystem a) && valid_string (SourceRecordID a) &&
  valid_string (SourceTimestamp a) && valid_string (AcquiredAt a) &&
  valid_string (SourceDigest a) && valid_string (Adapter a) && valid_string (AdapterVersion a) &&
  match Checkpoint a with None => true | Some c => CheckpointInfo.valid c end.

Lemma acquisition_fields_sub a : (fields a).*1 `sublist_of` names.
Proof. unfold fields, names. solve_fields. Qed.

Lemma acquisition_fields_assoc a :
  assoc "mode" (fields a) = opt_string (Mode a) /\
  assoc "source_system" (fields a) = opt_string (SourceSystem a) /\
  assoc "source_record_id" (fields a) = opt_string (SourceRecordID a) /\
  assoc "source_timestamp" (fields a) = opt_string (SourceTimestamp a) /\
  assoc "acquired_at" (fields a) = opt_string (AcquiredAt a) /\
  assoc "source_digest" (fields a) = opt_string (SourceDigest a) /\
  assoc "adapter" (fields a) = opt_string (Adapter a) /\
  assoc "adapter_version" (fields a) = opt_string (AdapterVersion a) /\
  assoc "checkpoint" (fields a) = CheckpointInfo.encode <$> Checkpoint a.
Proof. unfold fields. assoc_fields. Qed.

Lemma acquisition_encode_inj a a' w w' :
  valid a = true -> valid a' = true ->
  redecode (encode a) = Some w -> redecode (encode a') = Some w' -> same_value w w' -> a = a'.
Proof.
  intros Ha Ha' Hw Hw' Hs. unfold valid in Ha, Ha'. boolify.
  pose proof (fun k => struct_agree names _ _ w w' k eq_refl (acquisition_fields_sub a) (acquisition_fields_sub a')
    Hw Hw' Hs) as Hk.
  destruct (acquisition_fields_assoc a) as (E1 & E2 & E3 & E4 & E5 & E6 & E7 & E8 & E9).
  destruct (acquisition_fields_assoc a') as (F1 & F2 & F3 & F4 & F5 & F6 & F7 & F8 & F9).
  pose proof (Hk "checkpoint") as Hc. rewrite E9, F9 in Hc.
  assert (Checkpoint a = Checkpoint a') as Hcp.
  { destruct (Checkpoint a), (Checkpoint a'); try done. destruct Hc as (u & u' & Hu & Hu' & Hsu).
    f_equal. by eapply CheckpointInfo.checkpoint_encode_inj. }
  destruct a, a'; cbn in Hcp |- *. f_equal; [at_key E1 F1|at_key E2 F2|at_key E3 F3
    |at_key E4 F4|at_key E5 F5|at_key E6 F6|at_key E7 F7|at_key E8 F8|exact Hcp].
Qed.

Lemma acquisition_decode_encode a j :
  valid a = true -> to_json (encode a) = Some j -> decode (coerce_json j) zero = Some a.
Proof.
  intros Ha Hj. unfold valid in Ha. boolify.
  destruct (struct_decode names (fields a) j eq_refl (acquisition_fields_sub a) Hj) as (jl & -> & Htot & Hd).
  destruct (acquisition_fields_assoc a) as (E1 & E2 & E3 & E4 & E5 & E6 & E7 & E8 & E9).
  unfold decode. rewrite !Hd, E1, E2, E3, E4, E5, E6, E7, E8, E9.
  cbn [Mode SourceSystem SourceRecordID SourceTimestamp AcquiredAt SourceDigest
    Adapter AdapterVersion Checkpoint zero].
  rewrite !read_omit_string by done. cbn [mbind option_bind].
  rewrite read_ptr_struct; [by destruct a| |].
  - intros c Hc. apply (Htot "checkpoint"). by rewrite E9, Hc.
  - intros c jc Hc Hjc. rewrite Hc in *. split; [by eapply struct_not_null|].
    by apply CheckpointInfo.checkpoint_decode_encode.
Qed.
End AcquisitionInfo.

Module Event.
Record t := mk {
  Sequence : Z;
  PrevHash : string;
  Type_ : string;
  HashAlgo : string;
  Data : any;
  ActorID : option string;
  OrgID : option string;
  WorkspaceID : option string;
  Timestamp : string;
  TraceID : string;
  SpanID : string;
  ParentSpanID : string;
  Acquisition : option AcquisitionInfo.t
}.

Definition zero : t := mk 0 "" "" "" ANil None None None "" "" "" "" None.

Definition fields (e : t) : list (string * any) :=
  [("seq", AInt (Sequence e)); ("prev_hash", AString (PrevHash e));
   ("type", AString (Type_ e))]
  ++ omit_string "hash_algo" (HashAlgo e)
  ++ [("data", Data e)]
  ++ omit_ptr AString "actor_id" (ActorID e)
  ++ omit_ptr AString "org_id" (OrgID e)
  ++ omit_ptr AString "workspace_id" (WorkspaceID e)
  ++ omit_string "timestamp" (Timestamp e)
  ++ omit_string "trace_id" (TraceID e)
  ++ omit_string "span_id" (SpanID e)
  ++ omit_string "parent_span_id" (ParentSpanID e)
  ++ omit_ptr AcquisitionInfo.encode "acquisition" (Acquisition e).

Definition names : list string :=
  ["seq"; "prev_hash"; "type"; "hash_algo"; "data"; "actor_id"; "org_id"; "workspace_id";
   "timestamp"; "trace_id"; "span_id"; "parent_span_id"; "acquisition"].

Definition encode (e : t) : any := AStruct (fields e).

Definition decode (j : json) (e : t) : option t :=
  match j with
  | JNull => Some e
  | JObj l =>
      sq ← decode_field names "seq" dec_int l (Sequence e);
      ph ← decode_field names "prev_hash" dec_string l (PrevHash e);
      ty ← decode_field names "type" dec_string l (Type_ e);
      ha ← decode_field names "hash_algo" dec_string l (HashAlgo e);
      da ← decode_field names "data" dec_any l (Data e);
      ai ← decode_field names "actor_id" (dec_ptr "" dec_string) l (ActorID e);
      oi ← decode_field names "org_id" (dec_ptr "" dec_string) l (OrgID e);
      wi ← decode_field names "workspace_id" (dec_ptr "" dec_string) l (WorkspaceID e);
      ts ← decode_field names "timestamp" dec_string l (Timestamp e);
      ti ← decode_field names "trace_id" dec_string l (TraceID e);
      si ← decode_field names "span_id" dec_string l (SpanID e);
      ps ← decode_field names "parent_span_id" dec_string l (ParentSpanID e);
      ac ← decode_field names "acquisition" (dec_ptr AcquisitionInfo.zero AcquisitionInfo.decode)
             l (Acquisition e);
      Some (mk sq ph ty ha da ai oi wi ts ti si ps ac)
  | _ => None
  end.

(** [e.PrevHash = prev; e.Sequence = seq] on a copy. *)
Definition relink (seq : Z) (prev : string) (e : t) : t :=
  mk seq prev (Type_ e) (HashAlgo e) (Data e) (ActorID e) (OrgID e) (WorkspaceID e)
    (Timestamp e) (TraceID e) (SpanID e) (ParentSpanID e) (Acquisition e).

Definition with_data (d : any) (e : t) : t :=
  mk (Sequence e) (PrevHash e) (Type_ e) (HashAlgo e) d (ActorID e) (OrgID e) (WorkspaceID e)
    (Timestamp e) (TraceID e) (SpanID e) (ParentSpanID e) (Acquisition e).

Lemma relink_id e seq prev : Sequence e = seq -> PrevHash e = prev -> relink seq prev e = e.
Proof. intros <- <-. by destruct e. Qed.

Definition valid (e : t) : bool :=
  int64 (Sequence e) && valid_string (PrevHash e) && valid_string (Type_ e) &&
  valid_string (HashAlgo e) && valid_ptr (ActorID e) && valid_ptr (OrgID e) &&
  valid_ptr (WorkspaceID e) && valid_string (Timestamp e) && valid_string (TraceID e) &&
  valid_string (SpanID e) && valid_string (ParentSpanID e) &&
  match Acquisition e with None => true | Some a => AcquisitionInfo.valid a end.

Lemma event_fields_sub e : (fields e).*1 `sublist_of` names.
Proof. unfold fields, names. solve_fields. Qed.

Lemma event_fields_assoc e :
  assoc "seq" (fields e) = Some (AInt (Sequence e)) /\
  assoc "prev_hash" (fields e) = Some (AString (PrevHash e)) /\
  assoc "type" (fields e) = Some (AString (Type_ e)) /\
  assoc "hash_algo" (fields e) = opt_string (HashAlgo e) /\
  assoc "data" (fields e) = Some (Data e) /\
  assoc "actor_id" (fields e) = AString <$> ActorID e /\
  assoc "org_id" (fields e) = AString <$> OrgID e /\
  assoc "workspace_id" (fields e) = AString <$> WorkspaceID e /\
  assoc "timestamp" (fields e) = opt_string (Timestamp e) /\
  assoc "trace_id" (fields e) = opt_string (TraceID e) /\
  assoc "span_id" (fields e) = opt_string (SpanID e) /\
  assoc "parent_span_id" (fields e) = opt_string (ParentSpanID e) /\
  assoc "acquisition" (fields e) = AcquisitionInfo.encode <$> Acquisition e.
Proof. unfold fields. assoc_fields. Qed.

(** Equal in every field a reader interprets: the payload up to JSON equality, the
    other fields exactly. *)
Definition same_event (e e' : t) : Prop :=
  agree (Some (Data e)) (Some (Data e')) /\
  relink 0 "" (with_data ANil e) = relink 0 "" (with_data ANil e') /\ PrevHash e = PrevHash e'.

Lemma event_encode_inj e e' w w' :
  valid e = true -> valid e' = true ->
  redecode (encode e) = Some w -> redecode (encode e') = Some w' -> same_value w w' ->
  same_event e e'.
Proof.
  intros He He' Hw Hw' Hs. unfold valid in He, He'. boolify.
  pose proof (fun k => struct_agree names _ _ w w' k eq_refl (event_fields_sub e) (event_fields_sub e')
    Hw Hw' Hs) as Hk.
  destruct (event_fields_assoc e) as (E1 & E2 & E3 & E4 & E5 & E6 & E7 & E8 & E9 & E10 & E11 & E12 & E13).
  destruct (event_fields_assoc e') as (F1 & F2 & F3 & F4 & F5 & F6 & F7 & F8 & F9 & F10 & F11 & F12 & F13).
  pose proof (Hk "acquisition") as Hc. rewrite E13, F13 in Hc.
  assert (Acquisition e = Acquisition e') as Ha.
  { destruct (Acquisition e), (Acquisition e'); try done. destruct Hc as (u & u' & Hu & Hu' & Hsu).
    f_equal. by eapply AcquisitionInfo.acquisition_encode_inj. }
  split; [by rewrite <- E5, <- F5|]. split; [|at_key E2 F2].
  unfold relink, with_data. cbn. f_equal;
    [at_key E3 F3|at_key E4 F4|at_key E6 F6|at_key E7 F7|at_key E8 F8|at_key E9 F9|at_key E10 F10
    |at_key E11 F11|at_key E12 F12|exact Ha].
Qed.

(** Decoding an encoded event gives the event back, with the payload as decoded. *)
Lemma event_decode_encode e d j :
  valid e = true -> redecode (Data e) = Some d -> to_json (encode e) = Some j ->
  decode (coerce_json j) zero = Some (with_data d e).
Proof.
  intros He Hdata Hj. unfold valid in He. boolify.
  destruct (struct_decode names (fields e) j eq_refl (event_fields_sub e) Hj) as (jl & -> & Htot & Hd).
  destruct (event_fields_assoc e) as (E1 & E2 & E3 & E4 & E5 & E6 & E7 & E8 & E9 & E10 & E11 & E12 & E13).
  unfold decode. rewrite !Hd, E1, E2, E3, E4, E5, E6, E7, E8, E9, E10, E11, E12, E13.
  cbn [Sequence PrevHash Type_ HashAlgo Data ActorID OrgID WorkspaceID Timestamp TraceID SpanID
    ParentSpanID Acquisition zero].
  rewrite !read_omit_string, !read_string, !read_ptr_string, read_int by done.
  change (jv ← to_json (Data e); dec_any (coerce_json jv) ANil) with (redecode (Data e)).
  rewrite Hdata. cbn [mbind option_bind].
  rewrite read_ptr_struct; [by destruct e| |].
  - intros c Hc. apply (Htot "acquisition"). by rewrite E13, Hc.
  - intros c jc Hc Hjc. rewrite Hc in *. split; [by eapply struct_not_null|].
    by apply AcquisitionInfo.acquisition_decode_encode.
Qed.
End Event.
