(* ===== verification/HashChain.v ===== *)
(** * Package internal/hash: the hash chain

    [Compute], [Chain] and [Verify] as the package has them; [linked] is the abstract
    chain both [Verify] here and the bundle's own verifier refine. The main results:
    a chain [Chain] builds verifies, [Verify] accepts exactly the linked chains, and two
    linked chains with the same head hash carry the same events, unless the two chains
    themselves contain a SHA-256 collision or an event that hashes to the genesis
    sentinel. *)

From S2P Require Import Prelude GoText Sha256 GoFloat GoJson GoValue GoStruct Canonicalize Event.
Import Canonicalize.

Module HashChain.

Definition GenesisHash : string :=
  "0000000000000000000000000000000000000000000000000000000000000000".

(** The canonical bytes of an event. *)
Definition canonical (e : Event.t) : option bytes := Marshal (Event.encode e).

Inductive compute_error := CanonicalizeFailed.

Definition Compute (e : Event.t) : result compute_error string :=
  match canonical e with
  | None => Err CanonicalizeFailed
  | Some c => Ok (sha256_hex (B (Event.PrevHash e) ++ c))
  end.

(** [Chain]: the slice is rewritten in place, up to the event that fails. *)
Fixpoint chain_from (i : Z) (prev : string) (events : list Event.t) :
    list Event.t * result Z string :=
  match events with
  | [] => ([], Ok prev)
  | e :: rest =>
      let e' := Event.relink (i + 1) prev e in
      match Compute e' with
      | Err _ => (e' :: rest, Err i)
      | Ok h => let '(rest', r) := chain_from (i + 1) h rest in (e' :: rest', r)
      end
  end.

Definition Chain (events : list Event.t) : list Event.t * result Z string :=
  chain_from 0 GenesisHash events.

(** The failures of a verification, by the index of the record. *)
Inductive verify_error :=
| CountMismatch (events hashes : nat)
| ComputeFailed (i : Z)
| SequenceMismatch (i expected got : Z)
| PrevHashMismatch (i : Z) (expected got : string)
| RecordHashMismatch (i : Z) (expected got : string).

Fixpoint verify_from (i : Z) (prev : string) (events : list Event.t) (hashes : list string) :
    result verify_error unit :=
  match events, hashes with
  | e :: es, h :: hs =>
      let expectedSeq := i + 1 in
      match Compute (Event.relink expectedSeq prev e) with
      | Err _ => Err (ComputeFailed i)
      | Ok computed =>
          if negb (Event.Sequence e =? expectedSeq) then
            Err (SequenceMismatch i expectedSeq (Event.Sequence e))
          else if negb (String.eqb (Event.PrevHash e) prev) then
            Err (PrevHashMismatch i prev (Event.PrevHash e))
          else if negb (String.eqb computed h) then Err (RecordHashMismatch i h computed)
          else verify_from (i + 1) computed es hs
      end
  | _, _ => Ok tt
  end.

Definition Verify (events : list Event.t) (hashes : list string) : result verify_error unit :=
  if negb (length events =? length hashes)%nat
  then Err (CountMismatch (length events) (length hashes))
  else verify_from 0 GenesisHash events hashes.

(** ** The abstract chain *)

(** Events numbered from [seq], each carrying its predecessor's hash, with their
    hashes. *)
Fixpoint linked (seq : Z) (prev : string) (es : list Event.t) (hs : list string) : Prop :=
  match es, hs with
  | [], [] => True
  | e :: es', h :: hs' =>
      Event.Sequence e = seq /\ Event.PrevHash e = prev /\ Compute e = Ok h /\
      linked (seq + 1) h es' hs'
  | _, _ => False
  end.

Definition head_hash (hs : list string) : string := default GenesisHash (last hs).

(** The bytes an event's hash is taken over. *)
Definition preimage (e : Event.t) : bytes :=
  B (Event.PrevHash e) ++ default [] (canonical e).

Lemma Compute_Ok e h : Compute e = Ok h -> is_Some (canonical e) /\ h = sha256_hex (preimage e).
Proof.
  unfold Compute, preimage. destruct (canonical e) as [c|]; intros; simplify_eq. by split.
Qed.

Lemma length_Compute e h : Compute e = Ok h -> String.length h = 64%nat.
Proof. intros [_ ->]%Compute_Ok. apply length_sha256_hex. Qed.

(** ** Verify accepts exactly the linked chains *)

Lemma verify_from_linked i prev es hs :
  length es = length hs ->
  verify_from i prev es hs = Ok tt <-> linked (i + 1) prev es hs.
Proof.
  revert i prev hs. induction es as [|e es IH]; intros i prev [|h hs] Hlen; try done.
  cbn [verify_from linked]. injection Hlen as Hlen. split.
  - intros H. destruct (Compute _) as [c|] eqn:Ec; [|done].
    destruct (Event.Sequence e =? i + 1) eqn:E1; [|done].
    destruct (String.eqb (Event.PrevHash e) prev) eqn:E2; [|done].
    destruct (String.eqb c h) eqn:E3; [|done]. cbn in H. boolify. subst c.
    rewrite Event.relink_id in Ec by done. split_and!; [done..|]. by apply IH.
  - intros (H1 & H2 & H3 & H4). rewrite Event.relink_id, H3 by done. subst prev.
    rewrite H1, Z.eqb_refl, !String.eqb_refl. cbn. by apply IH.
Qed.

Lemma Verify_linked es hs : Verify es hs = Ok tt <-> linked 1 GenesisHash es hs.
Proof.
  unfold Verify. destruct (length es =? length hs)%nat eqn:E; boolify; cbn [negb].
  - apply (verify_from_linked 0). done.
  - split; [done|]. intros H. destruct E. revert H. generalize 1 GenesisHash. clear.
    revert hs. induction es as [|e es IH]; intros [|h hs] z s; cbn; try done.
    intros (_ & _ & _ & H). f_equal. by eapply IH.
Qed.

(** ** What the canonical bytes determine *)

(** Events the decoder delivers: valid strings, and a value within the nesting limit. *)
Definition canonical_ok (e : Event.t) : bool :=
  Event.valid e &&
  match to_json (Event.encode e) with
  | None => false
  | Some j =>
      (json_depth j <=? max_nesting_depth)%nat &&
      match of_json (coerce_json j) with None => false | Some w => wf_any w end
  end.

Lemma Marshal_redecode v j :
  to_json v = Some j -> (json_depth j <= max_nesting_depth)%nat ->
  Marshal v = redecode v ≫= writeValue.
Proof.
  intros Hj Hd. unfold Marshal, GoValue.Marshal, redecode. rewrite Hj. cbn [fmap option_fmap option_map mbind option_bind].
  unfold canonicalizeRaw, Unmarshal. by rewrite json_parse_print by eauto using to_json_wf.
Qed.

Lemma canonical_ok_inv e :
  canonical_ok e = true ->
  Event.valid e = true /\
  exists j w, to_json (Event.encode e) = Some j /\ (json_depth j <= max_nesting_depth)%nat /\
    redecode (Event.encode e) = Some w /\ wf_any w = true.
Proof.
  unfold canonical_ok, redecode. intros [Hv H]%andb_true_iff. split; [done|].
  destruct (to_json (Event.encode e)) as [j|]; [|done].
  apply andb_true_iff in H as [Hd Hw]. apply Nat.leb_le in Hd. cbn [mbind option_bind].
  destruct (of_json (coerce_json j)) as [w|]; [|done]. by exists j, w.
Qed.

Lemma canonical_ok_value e :
  canonical_ok e = true ->
  exists w, redecode (Event.encode e) = Some w /\ wf_any w = true /\ canonical e = writeValue w.
Proof.
  intros (_ & j & w & Hj & Hd & Hw & Hwf)%canonical_ok_inv. exists w. split_and!; [done|done|].
  unfold canonical. rewrite (Marshal_redecode _ _ Hj Hd). by rewrite Hw.
Qed.

Lemma canonical_inj e e' c :
  canonical_ok e = true -> canonical_ok e' = true ->
  canonical e = Some c -> canonical e' = Some c -> Event.same_event e e'.
Proof.
  intros He He' Hc Hc'.
  destruct (canonical_ok_value e He) as (w & Hw & Hwf & E).
  destruct (canonical_ok_value e' He') as (w' & Hw' & Hwf' & E').
  rewrite E in Hc. rewrite E' in Hc'. apply canonical_ok_inv in He as [? _], He' as [? _].
  eapply Event.event_encode_inj; [done|done|exact Hw|exact Hw'|]. by eapply canon_same_value.
Qed.

(** ** Events that have a hash *)

(** A payload the encoder accepts, within the nesting limit of an event, whose numbers
    read back. *)
Definition data_ok (v : any) : bool :=
  match to_json v with
  | None => false
  | Some j =>
      (json_depth j <? max_nesting_depth)%nat &&
      match of_json (coerce_json j) with None => false | Some w => floats_ok w end
  end.

Definition seq_ok (z : Z) : bool :=
  match ParseFloat (int_lit z) with None => false | Some f => float_ok f end.

Definition event_ok (e : Event.t) : bool :=
  Event.valid e && seq_ok (Event.Sequence e) && data_ok (Event.Data e).

(** A value of strings only: what the attribution fields are made of. *)
Definition stringy (d : nat) (v : any) : Prop :=
  exists j w, to_json v = Some j /\ (json_depth j <= d)%nat /\
    of_json (coerce_json j) = Some w /\ floats_ok w = true.

Lemma stringy_string d s : stringy d (AString s).
Proof. exists (JStr s), (AString (coerce_string s)). split_and!; [done|cbn; lia|done|done]. Qed.

Lemma stringy_weaken d d' v : (d <= d')%nat -> stringy d v -> stringy d' v.
Proof. intros Hd (j & w & ? & ? & ? & ?). exists j, w. split_and!; [done|lia|done|done]. Qed.

Lemma max_list_Forall l d : Forall (fun n => (n <= d)%nat) l -> (max_list l <= d)%nat.
Proof. unfold max_list. induction 1; cbn; lia. Qed.

Lemma stringy_struct d names l :
  good_names names = true -> l.*1 `sublist_of` names -> Forall (fun kv => stringy d kv.2) l ->
  stringy (S d) (AStruct l).
Proof.
  intros Hg Hs Hl. destruct (good_names_sub _ _ Hg Hs) as (Hn & _ & Hc).
  assert (exists kvs, mapM (fun kv => pair kv.1 <$> to_json kv.2) l = Some kvs /\
    Forall (fun n => (n <= d)%nat) (map (fun kv => json_depth kv.2) kvs)) as (kvs & Hk & Hd).
  { clear -Hl. induction Hl as [|[k v] l (j & w & Hj & Hd & _) _ (kvs & Hk & Hds)]; [by exists []|].
    cbn in Hj. exists ((k, j) :: kvs). cbn [mapM fst snd]. rewrite Hj, Hk. split; [done|].
    by constructor. }
  assert (exists m, mapM (fun kv => pair kv.1 <$> redecode kv.2) l = Some m /\
    forallb (fun kv => floats_ok kv.2) m = true) as (m & Hm & Hf).
  { clear -Hl. induction Hl as [|[k v] l (j & w & Hj & Hd & Hw & Hf) _ (m & Hm & Hfs)]; [by exists []|].
    cbn in Hj. assert (redecode v = Some w) as Hr by (unfold redecode; by rewrite Hj).
    exists ((k, w) :: m). cbn [mapM fst snd forallb]. by rewrite Hr, Hm, Hf, Hfs. }
  pose proof (redecode_struct l Hn Hc) as Hr. rewrite Hm in Hr. unfold redecode in Hr.
  cbn [to_json] in Hr. rewrite Hk in Hr. exists (JObj kvs), (AMap m). split_and!.
  - cbn [to_json]. by rewrite Hk.
  - cbn [json_depth]. apply le_n_S. by apply max_list_Forall.
  - exact Hr.
  - exact Hf.
Qed.

Lemma omit_string_stringy d k s : Forall (fun kv => stringy d kv.2) (omit_string k s).
Proof.
  unfold omit_string. destruct (String.eqb s ""); constructor; [|constructor]. apply stringy_string.
Qed.

Lemma omit_ptr_stringy {A} (f : A -> any) d k x :
  (forall a, x = Some a -> stringy d (f a)) -> Forall (fun kv => stringy d kv.2) (omit_ptr f k x).
Proof. intros H. destruct x; constructor; [|constructor]. by apply H. Qed.

Ltac solve_stringy :=
  repeat first
    [ apply Forall_app; split | apply omit_string_stringy
    | apply omit_ptr_stringy; intros; first [apply stringy_string|idtac]
    | apply Forall_cons; split | apply Forall_nil_2 | apply stringy_string ].

Lemma checkpoint_stringy c : stringy 1 (CheckpointInfo.encode c).
Proof.
  eapply stringy_struct; [|apply CheckpointInfo.checkpoint_fields_sub|]; [done|].
  unfold CheckpointInfo.fields. solve_stringy.
Qed.

Lemma acquisition_stringy a : stringy 2 (AcquisitionInfo.encode a).
Proof.
  eapply stringy_struct; [|apply AcquisitionInfo.acquisition_fields_sub|]; [done|].
  unfold AcquisitionInfo.fields. solve_stringy. apply checkpoint_stringy.
Qed.

Lemma event_stringy e d :
  seq_ok (Event.Sequence e) = true -> (2 <= d)%nat -> stringy d (Event.Data e) ->
  stringy (S d) (Event.encode e).
Proof.
  intros Hseq Hd2 Hd. eapply stringy_struct; [|apply Event.event_fields_sub|]; [done|].
  unfold Event.fields. solve_stringy.
  - unfold seq_ok in Hseq. destruct (ParseFloat (int_lit (Event.Sequence e))) as [f|] eqn:Ef; [|done].
    exists (JNum (int_lit (Event.Sequence e))), (AFloat f). split_and!; [done|cbn; lia| |done].
    cbn [coerce_json of_json]. by rewrite Ef.
  - done.
  - apply (stringy_weaken 2); [done|]. apply acquisition_stringy.
Qed.

Lemma event_ok_canonical e : event_ok e = true -> canonical_ok e = true.
Proof.
  unfold event_ok. intros [[Hv Hs]%andb_true_iff Hd]%andb_true_iff.
  unfold data_ok in Hd. destruct (to_json (Event.Data e)) as [j|] eqn:Ej; [|done].
  apply andb_true_iff in Hd as [Hd Hw]. apply Nat.ltb_lt in Hd.
  destruct (of_json (coerce_json j)) as [w|] eqn:Ew; [|done].
  assert (exists d, max_nesting_depth = S d /\ (2 <= d)%nat) as (d & Emax & Hd2).
  { exists (pred max_nesting_depth). unfold max_nesting_depth. lia. }
  destruct (event_stringy e d Hs Hd2) as (j' & w' & Hj' & Hd' & Hw' & Hf').
  { exists j, w. split_and!; [done|lia|done|done]. }
  unfold canonical_ok. rewrite Hv, Hj', Hw'. cbn [andb].
  replace (json_depth j' <=? max_nesting_depth)%nat with true by (symmetry; apply Nat.leb_le; lia).
  cbn [andb]. eapply of_json_wf; [apply valid_coerce_json|exact Hw'|done].
Qed.

Lemma canonical_ok_Compute e : canonical_ok e = true -> exists h, Compute e = Ok h.
Proof.
  intros H. destruct (canonical_ok_value e H) as (w & _ & Hwf & Hc).
  unfold Compute. rewrite Hc, writeValue_tree.
  destruct (canon_tree_total w Hwf) as [j ->]. cbn [fmap option_fmap option_map]. by eexists.
Qed.

(** ** A decoded payload hashes like the original *)

Lemma same_value_refl v : wf_any v = true -> same_value v v.
Proof.
  intros Hv. destruct (canon_tree_total v Hv) as [j Hj]. by eapply same_of_tree.
Qed.

Lemma coerce_json_depth j : json_depth (coerce_json j) = json_depth j.
Proof.
  induction j as [|b|n|s|l IH|l IH] using json_nested_ind; try done;
    cbn [coerce_json json_depth]; do 2 f_equal; rewrite map_map;
    induction IH as [|x l Hx _ IHl]; cbn; f_equal; auto.
Qed.

Lemma max_list_mono (l l' : list nat) : Forall2 le l l' -> (max_list l <= max_list l')%nat.
Proof. unfold max_list. induction 1; cbn; lia. Qed.

Lemma max_list_elem l n : n ∈ l -> (n <= max_list l)%nat.
Proof. unfold max_list. induction 1; cbn; lia. Qed.

Lemma of_json_depth j w : of_json j = Some w -> (any_depth w <= json_depth j)%nat.
Proof.
  revert w. induction j as [|b|n|s|l IH|l IH] using json_nested_ind; intros w Hw;
    cbn [of_json] in Hw; simplify_eq; try (cbn; lia).
  - apply fmap_Some in Hw as (f & _ & ->). cbn. lia.
  - apply fmap_Some in Hw as (k & Hk & ->). apply mapM_Some in Hk. cbn [any_depth json_depth].
    apply le_n_S, max_list_mono. induction Hk; inversion IH; subst; constructor; auto.
  - apply fmap_Some in Hw as (k & Hk & ->). apply mapM_Some in Hk. cbn [any_depth json_depth].
    apply le_n_S, max_list_Forall, Forall_fmap, Forall_forall. intros x Hx.
    apply (assoc_of_list_spec k) in Hx. apply list_elem_of_lookup in Hx as [i Hi].
    destruct (Forall2_lookup_r _ _ _ _ _ Hk Hi) as ([kx y] & Hy & Heq). cbn in Heq.
    apply fmap_Some in Heq as (u & Hu & ->). cbn.
    apply list_elem_of_lookup_2 in Hy. rewrite Forall_forall in IH.
    etrans; [apply (IH _ Hy u Hu)|]. apply max_list_elem, list_elem_of_fmap. by exists (kx, y).
Qed.

Lemma to_json_depth v j : wf_any v = true -> to_json v = Some j -> json_depth j = any_depth v.
Proof.
  revert j. induction v as [|b|z|f|s|l IH|l IH|l|l IH|rj] using any_nested_ind; intros j Hv Hj;
    try done; cbn [to_json] in Hj; simplify_eq; try done.
  - by destruct (is_finite f); simplify_eq.
  - apply fmap_Some in Hj as (l' & Hl & ->). apply mapM_Some in Hl. apply wf_any_slice in Hv.
    cbn [json_depth any_depth]. do 2 f_equal.
    induction Hl; inversion IH; inversion Hv; subst; cbn; f_equal; auto.
  - apply fmap_Some in Hj as (l' & Hl & ->). apply mapM_Some in Hl. apply wf_any_map in Hv as [_ Hv].
    cbn [json_depth any_depth]. f_equal.
    rewrite (max_list_perm _ (map (fun kv => json_depth kv.2) l'))
      by (apply Permutation_map, insertion_sort_perm).
    f_equal. induction Hl as [|[k v] y l l' Hy _ IHl]; [done|].
    inversion IH; inversion Hv as [|? ? [? ?]]; subst. cbn in *.
    apply fmap_Some in Hy as (w & Hw & ->). cbn. f_equal; auto.
Qed.

(** The fields of an event and of the event with another payload. *)
Lemma with_data_fields e d :
  Forall2 (fun x y => x.1 = y.1 /\ (x.2 = y.2 \/ (x.2 = Event.Data e /\ y.2 = d)))
    (Event.fields e) (Event.fields (Event.with_data d e)).
Proof.
  assert (forall l : list (string * any),
    Forall2 (fun x y => x.1 = y.1 /\ (x.2 = y.2 \/ (x.2 = Event.Data e /\ y.2 = d))) l l) as Hrefl.
  { induction l; constructor; auto. }
  unfold Event.fields, Event.with_data. cbn.
  do 3 (constructor; [by auto|]).
  apply Forall2_app; [apply Hrefl|]. constructor; [by auto|]. apply Hrefl.
Qed.

Lemma redecode_list (l l' m : list (string * any)) v d :
  redecode v = Some d ->
  Forall2 (fun x y => x.1 = y.1 /\ (x.2 = y.2 \/ (x.2 = v /\ y.2 = d))) l l' ->
  mapM (fun kv => pair kv.1 <$> redecode kv.2) l = Some m ->
  Forall (fun kv => wf_any kv.2 = true) m ->
  exists m', mapM (fun kv => pair kv.1 <$> redecode kv.2) l' = Some m' /\
    Forall2 (fun p q => p.1 = q.1 /\ same_value p.2 q.2) m m' /\
    Forall (fun kv => wf_any kv.2 = true) m'.
Proof.
  intros Hv HF. revert m. induction HF as [|[k x] [k' y] l l' [Hk Hxy] _ IH]; intros m Hm Hwf.
  { exists []. injection Hm as <-. split_and!; constructor. }
  cbn in Hk. subst k'. cbn [mapM fst snd] in Hm |- *.
  destruct (redecode x) as [u|] eqn:Eu; [|done]. cbn in Hm.
  destruct (mapM _ l) as [m0|] eqn:Em; [|done]. cbn in Hm. injection Hm as <-.
  apply Forall_cons in Hwf as [Hu Hwf]. cbn in Hu.
  destruct (IH m0 eq_refl Hwf) as (m' & Hm' & HF' & Hwf').
  assert (exists u', redecode y = Some u' /\ same_value u u' /\ wf_any u' = true) as (u' & Hy & Hs & Hu').
  { cbn in Hxy. destruct Hxy as [<- | [-> ->]].
    - exists u. split_and!; [done|by apply same_value_refl|done].
    - rewrite Hv in Eu. injection Eu as ->.
      destruct (redecode_same u Hu) as (u' & ? & ? & ?). by exists u'. }
  exists ((k, u') :: m'). rewrite Hy, Hm'. split_and!; [done| |]; by constructor.
Qed.

Lemma to_json_list (l l' : list (string * any)) kvs v d jd jd' :
  to_json v = Some jd -> to_json d = Some jd' -> (json_depth jd' <= json_depth jd)%nat ->
  Forall2 (fun x y => x.1 = y.1 /\ (x.2 = y.2 \/ (x.2 = v /\ y.2 = d))) l l' ->
  mapM (fun kv => pair kv.1 <$> to_json kv.2) l = Some kvs ->
  exists kvs', mapM (fun kv => pair kv.1 <$> to_json kv.2) l' = Some kvs' /\
    Forall2 le (map (fun kv => json_depth kv.2) kvs') (map (fun kv => json_depth kv.2) kvs).
Proof.
  intros Hv Hd Hle HF. revert kvs.
  induction HF as [|[k x] [k' y] l l' [Hk Hxy] _ IH]; intros kvs Hm.
  { exists []. injection Hm as <-. by repeat constructor. }
  cbn in Hk. subst k'. cbn [mapM fst snd] in Hm |- *.
  destruct (to_json x) as [u|] eqn:Eu; [|done]. cbn in Hm.
  destruct (mapM _ l) as [m0|] eqn:Em; [|done]. cbn in Hm. injection Hm as <-.
  destruct (IH m0 eq_refl) as (m' & Hm' & HF').
  assert (exists u', to_json y = Some u' /\ (json_depth u' <= json_depth u)%nat) as (u' & Hy & Hu').
  { cbn in Hxy. destruct Hxy as [<- | [-> ->]]; [by exists u|].
    rewrite Hv in Eu. injection Eu as ->. by exists jd'. }
  exists ((k, u') :: m'). rewrite Hy, Hm'. split; [done|]. by constructor.
Qed.

Lemma event_redecode e :
  redecode (Event.encode e) = AMap <$> mapM (fun kv => pair kv.1 <$> redecode kv.2) (Event.fields e) /\
  NoDup (Event.fields e).*1.
Proof.
  destruct (good_names_sub Event.names (Event.fields e).*1) as (Hn & _ & Hc);
    [done|apply Event.event_fields_sub|]. split; [by apply redecode_struct|done].
Qed.

(** Replacing the payload by what the decoder makes of it changes neither the event's
    canonical bytes nor that it has any. *)
Lemma with_data_ok e d :
  canonical_ok e = true -> redecode (Event.Data e) = Some d ->
  canonical_ok (Event.with_data d e) = true /\ canonical (Event.with_data d e) = canonical e.
Proof.
  intros Hok Hd. pose proof Hok as (Hv & j & w & Hj & Hdep & Hw & Hwf)%canonical_ok_inv.
  destruct (event_redecode e) as [He Hn]. rewrite He in Hw.
  apply fmap_Some in Hw as (m & Hm & ->).
  pose proof (wf_any_map _ Hwf) as [Hnm Hwm].
  assert (wf_any d = true) as Hwd.
  { pose proof (assoc_mapM _ _ _ "data" Hm) as Ha.
    destruct (Event.event_fields_assoc e) as (_ & _ & _ & _ & E5 & _). rewrite E5 in Ha. cbn in Ha.
    rewrite Hd in Ha. apply assoc_elem in Ha; [|done]. rewrite Forall_forall in Hwm. by apply (Hwm _ Ha). }
  destruct (redecode_list _ _ m _ d Hd (with_data_fields e d) Hm) as (m' & Hm' & HF & Hwf');
    [eapply Forall_impl; [exact Hwm|]; by intros ? [_ ?]|].
  destruct (event_redecode (Event.with_data d e)) as [He' Hn']. rewrite Hm' in He'.
  assert (wf_any (AMap m') = true) as Hwf''.
  { eapply wf_any_map_intro; [|exact Hwf'|done]. pose proof (wf_any_keyed _ Hwf) as Hk.
    unfold keyed in *. replace m'.*1 with m.*1; [done|].
    clear -HF. induction HF as [|? ? ? ? [E _] _ IH]; [done|]. cbn. by rewrite E, IH. }
  assert (same_value (AMap m) (AMap m')) as Hs by (by econstructor).
  assert (exists j', to_json (Event.encode (Event.with_data d e)) = Some j' /\
    (json_depth j' <= json_depth j)%nat) as (j' & Hj' & Hdep').
  { unfold Event.encode in Hj |- *. cbn [to_json] in Hj |- *.
    apply fmap_Some in Hj as (kvs & Hk & ->).
    assert (exists jd, to_json (Event.Data e) = Some jd) as [jd Hjd].
    { unfold redecode in Hd. destruct (to_json (Event.Data e)); [by eexists|done]. }
    destruct (redecode_same d Hwd) as (d' & Hd' & _ & _). unfold redecode in Hd'.
    destruct (to_json d) as [jd'|] eqn:Ejd'; [|done].
    destruct (to_json_list (Event.fields e) (Event.fields (Event.with_data d e)) kvs _ d jd jd'
      Hjd Ejd') as (kvs' & Hk' & Hle); [|apply with_data_fields|done|].
    - rewrite (to_json_depth d jd' Hwd Ejd'), <- (coerce_json_depth jd). apply of_json_depth.
      unfold redecode in Hd. by rewrite Hjd in Hd.
    - exists (JObj kvs'). rewrite Hk'. split; [done|]. cbn [json_depth]. apply le_n_S.
      by apply max_list_mono. }
  assert (redecode (Event.encode (Event.with_data d e)) = Some (AMap m')) as Hr' by (by rewrite He').
  split.
  - unfold canonical_ok. change (Event.valid (Event.with_data d e)) with (Event.valid e).
    rewrite Hv, Hj'. cbn [andb]. unfold redecode in Hr'. rewrite Hj' in Hr'. cbn in Hr'. rewrite Hr'.
    replace (json_depth j' <=? max_nesting_depth)%nat with true by (symmetry; apply Nat.leb_le; lia).
    done.
  - unfold canonical. rewrite (Marshal_redecode _ _ Hj'), (Marshal_redecode _ _ Hj) by lia.
    rewrite Hr'. rewrite He, Hm. cbn [fmap option_fmap option_map mbind option_bind].
    symmetry. by apply same_value_canon.
Qed.

(** ** Chain *)

Lemma default_last_cons {A} (p h : A) hs : default p (last (h :: hs)) = default h (last hs).
Proof.
  destruct hs as [|h' hs _] using rev_ind; [done|]. by rewrite app_comm_cons, !last_snoc.
Qed.

Lemma chain_from_linked i prev es es' h :
  chain_from i prev es = (es', Ok h) ->
  exists hs, linked (i + 1) prev es' hs /\ default prev (last hs) = h /\
    Forall2 (fun e e' => exists s p, e' = Event.relink s p e) es es'.
Proof.
  revert i prev es' h. induction es as [|e es IH]; intros i prev es' h H; cbn [chain_from] in H.
  - simplify_eq. exists []. repeat split. constructor.
  - destruct (Compute (Event.relink (i + 1) prev e)) as [c|] eqn:Ec; [|done].
    destruct (chain_from (i + 1) c es) as [rest r] eqn:Er. simplify_eq.
    destruct (IH _ _ _ _ Er) as (hs & Hl & Hh & Hf).
    exists (c :: hs). split_and!.
    + by cbn [linked].
    + by rewrite default_last_cons.
    + constructor; [by eauto|done].
Qed.

(** ** Tamper evidence *)

Lemma linked_length s p es hs : linked s p es hs -> length es = length hs.
Proof.
  revert s p hs. induction es as [|e es IH]; intros s p [|h hs]; cbn; try done.
  intros (_ & _ & _ & H). f_equal. by eapply IH.
Qed.

Lemma linked_snoc s p es e hs h :
  linked s p (es ++ [e]) (hs ++ [h]) <->
  linked s p es hs /\ Event.Sequence e = s + Z.of_nat (length es) /\
  Event.PrevHash e = default p (last hs) /\ Compute e = Ok h.
Proof.
  revert s p hs. induction es as [|e1 es IH]; intros s p hs.
  - destruct hs as [|h1 hs]; cbn [app linked length last default].
    + change (default p (last [])) with p. replace (s + Z.of_nat 0) with s by lia. naive_solver.
    + destruct hs; cbn; naive_solver.
  - destruct hs as [|h1 hs]; cbn [app linked length].
    + split; [|by intros [[] _]]. intros (_ & _ & _ & H). apply linked_length in H.
      rewrite length_app in H. cbn in H. lia.
    + rewrite IH. replace (s + 1 + Z.of_nat (length es)) with (s + Z.of_nat (S (length es))) by lia.
      rewrite default_last_cons. naive_solver.
Qed.

Lemma linked_last_length s es hs :
  linked s GenesisHash es hs -> String.length (head_hash hs) = 64%nat.
Proof.
  intros H. unfold head_hash. destruct hs as [|h hs _] using rev_ind; [done|].
  destruct es as [|e es _] using rev_ind; [by destruct hs|].
  apply linked_snoc in H as (_ & _ & _ & H). rewrite last_snoc. by eapply length_Compute.
Qed.

(** One step back from two equal hashes. *)
Lemma Compute_back e e' h :
  String.length (Event.PrevHash e) = String.length (Event.PrevHash e') ->
  Compute e = Ok h -> Compute e' = Ok h ->
  (Event.PrevHash e = Event.PrevHash e' /\ canonical e = canonical e') \/
  sha256_collision (preimage e) (preimage e').
Proof.
  intros Hlen He He'. apply Compute_Ok in He as [[c Hc] ->]. apply Compute_Ok in He' as [[c' Hc'] Hh].
  apply sha256_hex_eq in Hh as [Heq|Hcol]; [left|by right].
  unfold preimage in Heq. rewrite Hc, Hc' in Heq. cbn in Heq.
  apply app_inj_length in Heq as [Hp ->]; [|by rewrite !length_B].
  split; [by apply B_inj|congruence].
Qed.

(** Where two chains with the same head part: a collision between two of their own
    preimages, or an event whose hash is the genesis sentinel. *)
Definition chain_break (es es' : list Event.t) : Prop :=
  (exists e e', e ∈ es /\ e' ∈ es' /\ sha256_collision (preimage e) (preimage e')) \/
  (exists e, e ∈ es ++ es' /\ Compute e = Ok GenesisHash).

Lemma chain_break_snoc es es' e e' : chain_break es es' -> chain_break (es ++ [e]) (es' ++ [e']).
Proof.
  intros [(x & y & Hx & Hy & H)|(x & Hx & H)]; [left|right].
  - exists x, y. rewrite !elem_of_app. auto.
  - exists x. rewrite !elem_of_app in *. naive_solver.
Qed.

Lemma linked_same_head s es hs es' hs' :
  linked s GenesisHash es hs -> linked s GenesisHash es' hs' -> head_hash hs = head_hash hs' ->
  (hs = hs' /\ Forall2 (fun e e' => Event.Sequence e = Event.Sequence e' /\ canonical e = canonical e') es es')
  \/ chain_break es es'.
Proof.
  revert hs es' hs'. induction es as [|e es IH] using rev_ind; intros hs es' hs' H H' Hh.
  - destruct hs; [|done]. destruct es' as [|e' es' _] using rev_ind.
    { destruct hs'; [|done]. left. by split. }
    destruct hs' as [|h' hs' _] using rev_ind; [by destruct es'|].
    apply linked_snoc in H' as (_ & _ & _ & H'). unfold head_hash in Hh. rewrite last_snoc in Hh.
    cbn in Hh. subst h'. right. right. exists e'. split; [|done]. apply elem_of_app. right.
    apply elem_of_app. right. left.
  - destruct hs as [|h hs _] using rev_ind; [by destruct es|].
    apply linked_snoc in H as (H & Hs & Hp & Hc).
    destruct es' as [|e' es' _] using rev_ind.
    { destruct hs'; [|done]. unfold head_hash in Hh. rewrite last_snoc in Hh. cbn in Hh. subst h.
      right. right. exists e. split; [|done]. rewrite app_nil_r. apply elem_of_app. right. left. }
    destruct hs' as [|h' hs' _] using rev_ind; [by destruct es'|].
    apply linked_snoc in H' as (H' & Hs' & Hp' & Hc').
    unfold head_hash in Hh. rewrite !last_snoc in Hh. cbn in Hh. subst h'.
    fold (head_hash hs) in Hp. fold (head_hash hs') in Hp'.
    destruct (Compute_back e e' h) as [[Hpp Hcc]|Hcol]; [|done|done| |].
    + rewrite Hp, Hp'. by rewrite (linked_last_length _ _ _ H), (linked_last_length _ _ _ H').
    + destruct (IH hs es' hs' H H') as [[-> Hf]|Hb]; [congruence| |by right; apply chain_break_snoc].
      left. split; [done|]. pose proof (Forall2_length _ _ _ Hf) as Hlen.
      apply Forall2_app; [done|]. constructor; [|constructor]. split; [|done].
      by rewrite Hs, Hs', Hlen.
    + right. left. exists e, e'. rewrite !elem_of_app. split_and!; [right; left|right; left|done].
Qed.

Lemma canonical_bytes_equal_fields e e' :
  canonical_ok e = true -> canonical_ok e' = true -> canonical e = canonical e' ->
  Event.same_event e e'.
Proof.
  intros He He' H. destruct (canonical_ok_value e He) as (w & _ & Hwf & Hc).
  destruct (canon_tree_total w Hwf) as [j Hj].
  eapply canonical_inj; [done|done| |rewrite <- H]; by rewrite Hc, writeValue_tree, Hj.
Qed.

(** ** Properties *)

(** An event's hash input commits to every field. Two events with the same
    canonical bytes agree on the payload (as JSON values) and on every other field but
    the position, which the chain fixes: type, algorithm, attribution, timestamp, trace
    context, acquisition envelope and checkpoint, and the previous hash. *)
Theorem canonical_bytes_commit_to_fields e e' :
  canonical_ok e = true -> canonical_ok e' = true -> canonical e = canonical e' ->
  Event.same_event e e'.
Proof. apply canonical_bytes_equal_fields. Qed.

(** A chain built by [Chain] verifies. [Chain] changes only positions and previous
    hashes, the hash it returns is the head of the chain, and [Verify] accepts the
    result with the events' own hashes. *)
Theorem Chain_verifies es es' h :
  Chain es = (es', Ok h) ->
  exists hs, Verify es' hs = Ok tt /\ head_hash hs = h /\
    Forall2 (fun e e' => exists s p, e' = Event.relink s p e) es es'.
Proof.
  intros H. destruct (chain_from_linked 0 GenesisHash es es' h H) as (hs & Hl & Hh & Hf).
  exists hs. split_and!; [by apply Verify_linked|done|done].
Qed.

(** ** Witnesses *)

Definition sample_event (data : any) : Event.t :=
  Event.mk 1 GenesisHash "ai.tool.exec" "sha256" data None None None "" "" "" "" None.

Lemma canonical_bytes_commit_to_fields_witness :
  Event.same_event (sample_event sample) (sample_event sample').
Proof. apply canonical_bytes_commit_to_fields; vm_compute; reflexivity. Defined.

Definition sample_chain : list Event.t * result Z string :=
  Eval vm_compute in Chain [sample_event sample; sample_event ANil].

Lemma Chain_verifies_witness :
  exists hs, Verify sample_chain.1 hs = Ok tt /\
    head_hash hs = match sample_chain.2 with Ok h => h | Err _ => "" end /\
    Forall2 (fun e e' => exists s p, e' = Event.relink s p e)
      [sample_event sample; sample_event ANil] sample_chain.1.
Proof. apply Chain_verifies. vm_compute. reflexivity. Defined.

End HashChain.
