(* ===== verification/Bundle.v ===== *)
(** * Package internal/bundle: the in-memory bundle

    Records, construction ([NewWithOptions], [AppendWithOptions]), verification and the
    manifest, with the package's sentinel errors. The clock and the random bundle id of
    a new bundle are inputs. The theorems: every bundle the constructors build verifies;
    [Verify] accepts exactly the linked chains; verification makes tampering evident;
    manifests read back as they were written; acquisition metadata only enters bundles
    that declare manifest version 3. *)

From S2P Require Import Prelude GoText Sha256 GoFloat GoJson GoValue GoStruct Canonicalize Event HashChain.
Import Canonicalize HashChain.

Module Bundle.

(** ** Constants and records *)

Definition MaxLineSizeBytes : Z := 16 * 1024 * 1024.
Definition MaxBundleSizeBytes : Z := 512 * 1024 * 1024.
Definition MaxBundleRecords : Z := 1000000.
Definition ManifestEventType : string := "atb.bundle.manifest".
Definition AnchorEventType : string := "atb.bundle.anchor".
Definition TypeBundleSignature : string := "atb.bundle.signature".
Definition ManifestVersion : string := "1".
Definition ManifestVersionV2 : Z := 2.
Definition ManifestVersionV3 : Z := 3.
Definition ManifestVersionMax : Z := 3.

(** A nil digest is the empty list. *)
Record Record_ := mkRecord {
  Event_ : Event.t;
  Hash : string;
  sourcePrefixHash : bytes;
  sourcePrefixWithoutLFHash : bytes;
  sourcePrefixWithoutLFPresent : bool
}.

Definition bundle := list Record_.

Record NewOptions := mkNewOptions { ManifestVersion_ : Z; CaptureRunID_ : string }.

Record ManifestData := mkManifest {
  Version : string;
  CreatedAt : string;
  BundleID : string;
  CaptureRunID : string
}.

#[global] Instance ManifestData_eq_dec : EqDecision ManifestData.
Proof. solve_decision. Defined.

Record AppendOptions := mkOptions {
  ActorID : option string;
  OrgID : option string;
  WorkspaceID : option string;
  Timestamp : string;
  TraceID : string;
  SpanID : string;
  ParentSpanID : string;
  Acquisition : option AcquisitionInfo.t
}.

Definition no_options (ts : string) : AppendOptions := mkOptions None None None ts "" "" "" None.

(** ** Errors *)

Inductive sentinel :=
| ErrTamper | ErrMalformed | ErrResourceLimit | ErrNoManifest | ErrNotABundle | ErrBundleLocked.

#[global] Instance sentinel_eq_dec : EqDecision sentinel.
Proof. solve_decision. Defined.

Inductive manifest_error :=
| MAbsent | MNotJSON | MDataType | MVersionNotInteger | MVersionType
| MVersionTooNew (version : Z) | MStringForm (version : Z)
| MV1Unmarshal | MV1IsV2 | MVersionValue | MStructVersion (version : string) | MStructMissing.

(** [errors.Is(err, ErrMalformed)]: which manifest errors wrap the sentinel. *)
Definition manifest_malformed (e : manifest_error) : bool :=
  match e with
  | MNotJSON | MDataType | MVersionNotInteger | MVersionType | MVersionTooNew _ | MStringForm _ =>
      true
  | _ => false
  end.

Inductive append_error :=
| AManifestNotFirst
| AAcquisitionNoManifest
| AAcquisitionManifest (e : manifest_error)
| AAcquisitionVersion (version : string)
| AEventType (type : string)
| ACompute.

Inductive new_error :=
| NBundleID | NUnsupportedVersion (v : Z) | NMarshalManifest | NAppend (e : append_error).

(** ** The event type pattern *)

Definition lower (c : ascii) : bool := (97 <=? code c) && (code c <=? 122).
Definition word_char (c : ascii) : bool := lower c || is_digit c || (code c =? 95).

(** [eventTypeRegexp] as an automaton: at the start of a segment, or inside one, with
    whether a dot has been read. *)
Fixpoint match_type (start dotted : bool) (s : bytes) : bool :=
  match s with
  | [] => negb start && dotted
  | c :: t =>
      if start then lower c && match_type false dotted t
      else if code c =? 46 then match_type true true t
      else word_char c && match_type false dotted t
  end.

Definition eventTypeRegexp (s : string) : bool := match_type true false (B s).

(** ** The manifest *)

(** [int(v)] of a float64: truncation. Out of range the result is implementation
    specific; this is the value amd64 delivers. *)
Definition float_to_int (f : float64) : Z :=
  match f with
  | S754_zero _ => 0
  | S754_finite s m e =>
      let n := if 0 <=? e then Z.pos m * 2 ^ e else Z.pos m / 2 ^ (- e) in
      let z := if s then - n else n in
      if int64 z then z else -9223372036854775808
  | _ => -9223372036854775808
  end.

(** [fmt.Sscanf(v, "%d", &n)]: white space (no newline), a sign, digits; the rest of the
    text is not read. *)
Fixpoint scan_space (rs : list Z) : option (list Z) :=
  match rs with
  | [] => Some []
  | r :: t => if r =? 10 then None else if is_space r then scan_space t else Some rs
  end.

Fixpoint scan_digits (rs : list Z) : bytes :=
  match rs with
  | r :: t => if (48 <=? r) && (r <=? 57) then chr r :: scan_digits t else []
  | [] => []
  end.

Definition Sscanf_d (v : string) : option Z :=
  rs ← scan_space (runes (B v));
  let '(neg, ds) :=
    match rs with
    | 45 :: t => (true, scan_digits t)
    | 43 :: t => (false, scan_digits t)
    | _ => (false, scan_digits rs)
    end in
  match ds with
  | [] => None
  | _ => let n := if neg then - digits_value ds else digits_value ds in
         if int64 n then Some n else None
  end.

Definition manifestVersionToInt (value : any) : result manifest_error Z :=
  match value with
  | ANil => Ok 1
  | AFloat f => Ok (float_to_int f)
  | AInt z => Ok z
  | AString v =>
      if String.eqb v "" then Ok 1
      else match Sscanf_d v with None => Err MVersionNotInteger | Some n => Ok n end
  | _ => Err MVersionType
  end.

Definition index (l : list (string * any)) (k : string) : any := default ANil (assoc k l).

(** The struct with the one field [Version any] the version is probed with. *)
Definition probe_version (data : string) : option any :=
  j ← json_parse (B data);
  match j with
  | JNull => Some ANil
  | JObj l => decode_field ["version"] "version" dec_any l ANil
  | _ => None
  end.

Definition manifestVersionFromRecord (r : Record_) : result manifest_error Z :=
  match Event.Data (Event_ r) with
  | AString data =>
      match probe_version data with
      | None => Err MNotJSON
      | Some v => manifestVersionToInt v
      end
  | AMap data => manifestVersionToInt (index data "version")
  | _ => Err MDataType
  end.

Definition manifest_names : list string := ["version"; "created_at"; "bundle_id"; "capture_run_id"].

Definition decode_manifest (j : json) : option ManifestData :=
  match j with
  | JNull => Some (mkManifest "" "" "" "")
  | JObj l =>
      v ← decode_field manifest_names "version" dec_string l "";
      c ← decode_field manifest_names "created_at" dec_string l "";
      b ← decode_field manifest_names "bundle_id" dec_string l "";
      r ← decode_field manifest_names "capture_run_id" dec_string l "";
      Some (mkManifest v c b r)
  | _ => None
  end.

Definition parseManifestDataV1 (raw : string) : result manifest_error ManifestData :=
  match json_parse (B raw) ≫= decode_manifest with
  | None => Err MV1Unmarshal
  | Some m => if String.eqb (Version m) "2" then Err MV1IsV2 else Ok m
  end.

Definition f2 : float64 := round_decimal false 2 0.
Definition f3 : float64 := round_decimal false 3 0.

Definition manifestVersionString (value : any) : result manifest_error string :=
  match value with
  | AFloat f => if feqb f f2 then Ok "2" else if feqb f f3 then Ok "3" else Err MVersionValue
  | AInt z =>
      if z =? ManifestVersionV2 then Ok "2"
      else if z =? ManifestVersionV3 then Ok "3" else Err MVersionValue
  | AString v => if String.eqb v "" then Err MVersionValue else Ok v
  | _ => Err MVersionValue
  end.

(** [s, _ := v.(string)] *)
Definition as_string (v : any) : string := match v with AString s => s | _ => "" end.

Definition parseManifestDataV2 (fields : list (string * any)) : result manifest_error ManifestData :=
  let? version := manifestVersionString (index fields "version") in
  let createdAt := as_string (index fields "created_at") in
  let bundleID := as_string (index fields "bundle_id") in
  let captureRunID := as_string (index fields "capture_run_id") in
  if negb (String.eqb version "2") && negb (String.eqb version "3") then
    Err (MStructVersion version)
  else if String.eqb createdAt "" || String.eqb bundleID "" then Err MStructMissing
  else Ok (mkManifest version createdAt bundleID captureRunID).

Definition parseManifestData (r : Record_) : result manifest_error ManifestData :=
  if negb (String.eqb (Event.Type_ (Event_ r)) ManifestEventType) then Err MAbsent
  else
    let? version := manifestVersionFromRecord r in
    if ManifestVersionMax <? version then Err (MVersionTooNew version)
    else match Event.Data (Event_ r) with
         | AString data =>
             if version <=? 1 then parseManifestDataV1 data else Err (MStringForm version)
         | AMap data => parseManifestDataV2 data
         | _ => Err MDataType
         end.

Definition hasManifestRecord (records : bundle) : bool :=
  match records with
  | [] => false
  | r :: _ => String.eqb (Event.Type_ (Event_ r)) ManifestEventType
  end.

Definition Manifest (b : bundle) : option ManifestData :=
  match b with
  | r :: _ =>
      if hasManifestRecord b then
        match parseManifestData r with Ok m => Some m | Err _ => None end
      else None
  | [] => None
  end.

(** The error of [ManifestE]: the sentinel [ErrNoManifest], or the parse error. *)
Definition ManifestE (b : bundle) : result (option manifest_error) ManifestData :=
  match b with
  | r :: _ =>
      if hasManifestRecord b then map_err Some (parseManifestData r) else Err None
  | [] => Err None
  end.

(** ** Append *)

Definition append_event (eventType : string) (data : any) (opts : option AppendOptions)
    (sequence : Z) (prevHash : string) : Event.t :=
  match opts with
  | None => Event.mk sequence prevHash eventType "sha256" data None None None "" "" "" "" None
  | Some o =>
      Event.mk sequence prevHash eventType "sha256" data (ActorID o) (OrgID o) (WorkspaceID o)
        (Timestamp o) (TraceID o) (SpanID o) (ParentSpanID o) (Acquisition o)
  end.

(** The acquisition guard: acquisition metadata needs a declared manifest version 3. *)
Definition acquisition_guard (b : bundle) (eventType : string) (opts : option AppendOptions) :
    result append_error unit :=
  match opts with
  | Some o =>
      match Acquisition o with
      | Some _ =>
          if String.eqb eventType ManifestEventType then Ok tt
          else if negb (hasManifestRecord b) then Err AAcquisitionNoManifest
          else match b with
               | [] => Ok tt
               | r :: _ =>
                   match parseManifestData r with
                   | Err e => Err (AAcquisitionManifest e)
                   | Ok m =>
                       if String.eqb (Version m) "3" then Ok tt
                       else Err (AAcquisitionVersion (Version m))
                   end
               end
      | None => Ok tt
      end
  | None => Ok tt
  end.

Definition prev_hash (b : bundle) : string :=
  match last b with None => GenesisHash | Some r => Hash r end.

Definition next_sequence (b : bundle) (eventType : string) : Z :=
  if String.eqb eventType ManifestEventType then 0
  else if hasManifestRecord b then Z.of_nat (length b)
  else Z.of_nat (length b) + 1.

Definition AppendWithOptions (b : bundle) (eventType : string) (data : any)
    (opts : option AppendOptions) : result append_error bundle :=
  if String.eqb eventType ManifestEventType && (0 <? Z.of_nat (length b)) then
    Err AManifestNotFirst
  else
    let? _ := acquisition_guard b eventType opts in
    if negb (eventTypeRegexp eventType) then Err (AEventType eventType)
    else
      let e := append_event eventType data opts (next_sequence b eventType) (prev_hash b) in
      match Compute e with
      | Err _ => Err ACompute
      | Ok h => Ok (b ++ [mkRecord e h [] [] false])
      end.

Definition Append (b : bundle) (eventType : string) (data : any) : result append_error bundle :=
  AppendWithOptions b eventType data None.

(** ** New *)

Definition manifest_fields (m : ManifestData) : list (string * any) :=
  [("version", AString (Version m)); ("created_at", AString (CreatedAt m));
   ("bundle_id", AString (BundleID m))] ++ omit_string "capture_run_id" (CaptureRunID m).

(** The random source: the sixteen bytes read, or a failure. *)
Definition newBundleID (random : option bytes) : result new_error string :=
  match random with None => Err NBundleID | Some b => Ok (S_of (hex_encode b)) end.

Definition NewWithOptions (createdAt : string) (random : option bytes) (opts : NewOptions) :
    result new_error bundle :=
  let? bundleID := newBundleID random in
  let v := ManifestVersion_ opts in
  if (v =? 0) || (v =? 1) then
    match GoValue.Marshal (AStruct (manifest_fields
            (mkManifest ManifestVersion createdAt bundleID (CaptureRunID_ opts)))) with
    | None => Err NMarshalManifest
    | Some payload =>
        map_err NAppend
          (AppendWithOptions [] ManifestEventType (AString (S_of payload)) (Some (no_options createdAt)))
    end
  else if (v =? ManifestVersionV2) || (v =? ManifestVersionV3) then
    let data :=
      [("version", AInt v); ("created_at", AString createdAt); ("bundle_id", AString bundleID)]
      ++ omit_string "capture_run_id" (CaptureRunID_ opts) in
    map_err NAppend
      (AppendWithOptions [] ManifestEventType (AMap data) (Some (no_options createdAt)))
  else Err (NUnsupportedVersion v).

Definition New (createdAt : string) (random : option bytes) : result new_error bundle :=
  NewWithOptions createdAt random (mkNewOptions 0 "").

(** ** Verify *)

(** A failed verification, and whether the error wraps [ErrTamper]. *)
Inductive verify_failure :=
| VManifest (e : verify_error)
| VLegacy (e : verify_error).

Fixpoint verify_records (i : Z) (prev : string) (records : bundle) : result verify_error unit :=
  match records with
  | [] => Ok tt
  | record :: rest =>
      let event := Event_ record in
      match Compute (Event.relink i prev event) with
      | Err _ => Err (ComputeFailed i)
      | Ok computed =>
          if negb (Event.Sequence event =? i) then
            Err (SequenceMismatch i i (Event.Sequence event))
          else if negb (String.eqb (Event.PrevHash event) prev) then
            Err (PrevHashMismatch i prev (Event.PrevHash event))
          else if negb (String.eqb computed (Hash record)) then
            Err (RecordHashMismatch i (Hash record) computed)
          else verify_records (i + 1) computed rest
      end
  end.

Definition verifyManifestBundle (records : bundle) : result verify_error unit :=
  verify_records 0 GenesisHash records.

Definition Verify (b : bundle) : result verify_failure unit :=
  if hasManifestRecord b then map_err VManifest (verifyManifestBundle b)
  else map_err VLegacy (HashChain.Verify (map Event_ b) (map Hash b)).

Definition verify_tamper (f : verify_failure) : bool :=
  match f with
  | VManifest (ComputeFailed _) => false
  | VManifest _ => true
  | VLegacy _ => false
  end.

(** ** Verification is the abstract chain *)

Definition events (b : bundle) : list Event.t := map Event_ b.
Definition hashes (b : bundle) : list string := map Hash b.

(** The number of the first record: 0 for a manifest, 1 in a legacy bundle. *)
Definition first_seq (b : bundle) : Z := if hasManifestRecord b then 0 else 1.

Lemma verify_records_linked i prev b :
  verify_records i prev b = Ok tt <-> linked i prev (events b) (hashes b).
Proof.
  revert i prev. induction b as [|r b IH]; intros i prev; [done|].
  cbn [verify_records events hashes map linked]. split.
  - intros H. destruct (Compute _) as [c|] eqn:Ec; [|done].
    destruct (Event.Sequence (Event_ r) =? i) eqn:E1; [|done].
    destruct (String.eqb (Event.PrevHash (Event_ r)) prev) eqn:E2; [|done].
    destruct (String.eqb c (Hash r)) eqn:E3; [|done]. cbn in H. boolify. subst c.
    rewrite Event.relink_id in Ec by done. split_and!; [done..|]. by apply IH.
  - intros (H1 & H2 & H3 & H4). rewrite Event.relink_id, H3 by done. rewrite H1, H2, Z.eqb_refl, !String.eqb_refl.
    cbn. by apply IH.
Qed.

Lemma bundle_Verify_linked b :
  Verify b = Ok tt <-> linked (first_seq b) GenesisHash (events b) (hashes b).
Proof.
  unfold Verify, first_seq, verifyManifestBundle. destruct (hasManifestRecord b).
  - rewrite <- verify_records_linked. by destruct (verify_records _ _ _) as [[]|].
  - fold (events b) (hashes b). rewrite <- HashChain.Verify_linked.
    by destruct (HashChain.Verify _ _) as [[]|].
Qed.

(** ** Construction *)

Lemma append_inv b ty data opts b' :
  AppendWithOptions b ty data opts = Ok b' ->
  exists h, let e := append_event ty data opts (next_sequence b ty) (prev_hash b) in
    b' = b ++ [mkRecord e h [] [] false] /\ Compute e = Ok h /\
    (ty = ManifestEventType -> b = []) /\
    eventTypeRegexp ty = true /\ acquisition_guard b ty opts = Ok tt.
Proof.
  unfold AppendWithOptions. intros H.
  destruct (_ && _) eqn:E1; [done|].
  destruct (acquisition_guard b ty opts) as [[]|] eqn:E2; [|done].
  destruct (eventTypeRegexp ty) eqn:E3; [|done]. cbn [negb] in H.
  destruct (Compute _) as [h|] eqn:E4; [|done]. simplify_eq. exists h.
  split_and!; try done. intros ->. rewrite String.eqb_refl in E1. destruct b; [done|].
  cbn [andb length] in E1. boolify. lia.
Qed.

Lemma append_event_fields ty data opts s p :
  Event.Sequence (append_event ty data opts s p) = s /\
  Event.PrevHash (append_event ty data opts s p) = p /\
  Event.Type_ (append_event ty data opts s p) = ty /\
  Event.Data (append_event ty data opts s p) = data.
Proof. by destruct opts. Qed.

Lemma prev_hash_head b : prev_hash b = default GenesisHash (last (hashes b)).
Proof.
  unfold prev_hash, hashes. destruct b as [|r b _] using rev_ind; [done|].
  rewrite map_app. cbn [map]. by rewrite !last_snoc.
Qed.

Lemma hasManifest_app b r :
  b <> [] -> hasManifestRecord (b ++ [r]) = hasManifestRecord b.
Proof. by destruct b. Qed.

Lemma next_sequence_first b ty r :
  (ty = ManifestEventType -> b = []) -> Event.Type_ (Event_ r) = ty ->
  next_sequence b ty = first_seq (b ++ [r]) + Z.of_nat (length b).
Proof.
  intros Hm Hr. unfold next_sequence, first_seq.
  destruct (String.eqb_spec ty ManifestEventType) as [E|E].
  - rewrite (Hm E). cbn [app hasManifestRecord length]. rewrite Hr, E. done.
  - destruct b as [|r0 b].
    + cbn [app hasManifestRecord]. rewrite Hr. destruct (String.eqb_spec ty ManifestEventType); [done|].
      done.
    + rewrite hasManifest_app by done. destruct (hasManifestRecord (r0 :: b)); lia.
Qed.

Lemma append_linked b ty data opts b' :
  AppendWithOptions b ty data opts = Ok b' -> Verify b = Ok tt -> Verify b' = Ok tt.
Proof.
  intros (h & -> & Hc & Hm & _)%append_inv Hv. rewrite bundle_Verify_linked in *.
  set (e := append_event _ _ _ _ _) in *.
  destruct (append_event_fields ty data opts (next_sequence b ty) (prev_hash b)) as (Hs & Hp & Ht & _).
  fold e in Hs, Hp, Ht. unfold events, hashes. rewrite !map_app. cbn [map Event_ Hash].
  apply linked_snoc. split_and!; [| |by rewrite Hp, prev_hash_head|done].
  - destruct b as [|r0 b]; [done|]. unfold first_seq. by rewrite hasManifest_app.
  - rewrite Hs, length_map. by apply next_sequence_first.
Qed.

(** The bundles the package's operations build in memory. *)
Inductive built : bundle -> Prop :=
| built_empty : built []
| built_append b ty data opts b' :
    built b -> AppendWithOptions b ty data opts = Ok b' -> built b'.

Lemma New_append ts rnd opts b :
  NewWithOptions ts rnd opts = Ok b ->
  exists data, AppendWithOptions [] ManifestEventType data (Some (no_options ts)) = Ok b.
Proof.
  unfold NewWithOptions. destruct (newBundleID rnd) as [id|]; [|done].
  destruct (_ || _); [|destruct (_ || _); [|done]].
  - destruct (GoValue.Marshal _); [|done].
    destruct (AppendWithOptions _ _ _ _) eqn:E; [|done]. cbn. intros; simplify_eq. eauto.
  - destruct (AppendWithOptions _ _ _ _) eqn:E; [|done]. cbn. intros; simplify_eq. eauto.
Qed.

Lemma built_new ts rnd opts b : NewWithOptions ts rnd opts = Ok b -> built b.
Proof. intros [data H]%New_append. eapply built_append; [constructor|exact H]. Qed.

Lemma built_verified b : built b -> Verify b = Ok tt.
Proof. induction 1; [done|]. by eapply append_linked. Qed.

(** ** The acquisition profile *)

Definition declares_v3 (b : bundle) : Prop :=
  exists r rest m, b = r :: rest /\ parseManifestData r = Ok m /\ Version m = "3".

Lemma guard_declares b ty o a :
  acquisition_guard b ty (Some o) = Ok tt -> Acquisition o = Some a -> ty <> ManifestEventType ->
  declares_v3 b.
Proof.
  unfold acquisition_guard. intros H Ha Hty. rewrite Ha in H.
  destruct (String.eqb_spec ty ManifestEventType); [done|].
  destruct (hasManifestRecord b) eqn:E; [|done]. cbn [negb] in H. destruct b as [|r b]; [done|].
  destruct (parseManifestData r) as [m|] eqn:Em; [|done].
  destruct (String.eqb_spec (Version m) "3"); [|done]. by exists r, b, m.
Qed.

Lemma built_acquisition b :
  built b -> forall r, r ∈ b -> Event.Type_ (Event_ r) <> ManifestEventType ->
  Event.Acquisition (Event_ r) <> None -> declares_v3 b.
Proof.
  induction 1 as [|b ty data opts b' Hb IH Ha]; intros r Hr Hty Hacq; [by apply elem_of_nil in Hr|].
  apply append_inv in Ha as (h & -> & _ & _ & _ & Hg).
  assert (declares_v3 b -> declares_v3 (b ++ [mkRecord (append_event ty data opts (next_sequence b ty)
    (prev_hash b)) h [] [] false])) as Hmono.
  { intros (r0 & rest & m & -> & H1 & H2). by exists r0, (rest ++ [mkRecord (append_event ty data opts
      (next_sequence (r0 :: rest) ty) (prev_hash (r0 :: rest))) h [] [] false]), m. }
  apply elem_of_app in Hr as [Hr|Hr]; [by eauto|].
  apply list_elem_of_singleton in Hr. subst r. cbn [Event_] in *. apply Hmono.
  destruct opts as [o|]; [|done]. cbn in Hty, Hacq.
  destruct (Acquisition o) eqn:E; [|done]. by eapply guard_declares.
Qed.
(** ** Event type names *)

Definition dot : ascii := "."%char.

(** One name of a dotted event type. *)
Definition segment (s : bytes) : Prop :=
  exists c t, s = c :: t /\ lower c = true /\ Forall (fun c => word_char c = true) t.

Lemma word_char_not_dot c : word_char c = true -> (code c =? 46) = false.
Proof.
  unfold word_char, lower, is_digit. intros H. apply Z.eqb_neq. intros E. rewrite E in H.
  by vm_compute in H.
Qed.

Lemma match_type_spec s d :
  (match_type false d s = true <->
   exists w rest, Forall (fun c => word_char c = true) w /\ Forall segment rest /\
     s = w ++ mjoin (cons dot <$> rest) /\ (d = true \/ rest <> [])) /\
  (match_type true d s = true <->
   exists g rest, segment g /\ Forall segment rest /\
     s = g ++ mjoin (cons dot <$> rest) /\ (d = true \/ rest <> [])).
Proof.
  revert d. induction s as [|c s IH]; intros d; cbn [match_type].
  - split; split.
    + cbn. intros ->. exists [], []. repeat split; auto.
    + intros (w & rest & _ & _ & H & Hd). destruct w; [|done]. destruct rest; [|done].
      by destruct Hd.
    + done.
    + intros (g & rest & (? & ? & -> & _) & _ & H & _). done.
  - split; split.
    + destruct (code c =? 46) eqn:E.
      * intros (g & rest & Hg & Hr & -> & _)%(proj2 (IH true)). exists [], (g :: rest).
        assert (c = dot) as -> by (apply code_inj; boolify; by rewrite E).
        split_and!; [done|by constructor|done|by right].
      * intros [Hw H]%andb_true_iff. apply (proj1 (IH d)) in H as (w & rest & H1 & H2 & -> & H4).
        exists (c :: w), rest. split_and!; [by constructor|done|done|done].
    + intros (w & rest & Hw & Hr & H & Hd). destruct w as [|c' w].
      * destruct rest as [|g rest]; [done|]. cbn in H. injection H as -> H.
        change (code dot =? 46) with true. cbn match. apply (proj2 (IH true)).
        apply Forall_cons in Hr as [Hg Hr]. exists g, rest. split_and!; [done|done|done|by left].
      * cbn in H. injection H as -> ->. apply Forall_cons in Hw as [Hc Hw].
        rewrite word_char_not_dot by done. rewrite Hc. cbn [andb]. apply (proj1 (IH d)).
        by exists w, rest.
    + intros [Hc H]%andb_true_iff. apply (proj1 (IH d)) in H as (w & rest & H1 & H2 & -> & H4).
      exists (c :: w), rest. split_and!; [by exists c, w|done|done|done].
    + intros (g & rest & (c' & t & -> & Hc & Ht) & Hr & H & Hd). cbn in H. injection H as -> ->.
      rewrite Hc. cbn [andb]. apply (proj1 (IH d)). by exists t, rest.
Qed.

(** ** New bundles *)

Lemma valid_hex b : valid_string (S_of (hex_encode b)) = true.
Proof. unfold valid_string. rewrite B_S_of. apply ascii_valid, hex_ascii. Qed.

Lemma append_first data ts :
  valid_string ts = true -> data_ok data = true ->
  exists r, AppendWithOptions [] ManifestEventType data (Some (no_options ts)) = Ok [r] /\
    Event.Type_ (Event_ r) = ManifestEventType /\ Event.Data (Event_ r) = data.
Proof.
  intros Hts Hd. unfold AppendWithOptions.
  change (String.eqb ManifestEventType ManifestEventType) with true.
  change (eventTypeRegexp ManifestEventType) with true.
  change (next_sequence [] ManifestEventType) with 0. change (prev_hash []) with GenesisHash.
  cbn [andb length Z.of_nat Z.ltb Z.compare acquisition_guard no_options Acquisition negb].
  set (e := append_event _ _ _ _ _).
  destruct (canonical_ok_Compute e) as [h Hh].
  { apply event_ok_canonical. unfold event_ok.
    replace (Event.valid e) with true by (symmetry; unfold Event.valid; cbn; by rewrite Hts).
    change (Event.Data e) with data. rewrite Hd. change (Event.Sequence e) with 0. vm_compute. reflexivity. }
  rewrite Hh. cbn [app]. eexists. split; [reflexivity|]. by cbn.
Qed.

Lemma manifest_data_ok v ts id run :
  v = 2 \/ v = 3 ->
  data_ok (AMap ([("version", AInt v); ("created_at", AString ts); ("bundle_id", AString id)]
      ++ omit_string "capture_run_id" run)) = true.
Proof.
  intros Hv. unfold omit_string. destruct (String.eqb run ""); destruct Hv as [-> | ->]; vm_compute; reflexivity.
Qed.

(** What the manifest of a new bundle says. *)
Definition new_manifest (v : Z) (ts id run : string) : ManifestData :=
  mkManifest (if v <=? 1 then "1" else if v =? 2 then "2" else "3") ts id run.

Lemma parse_v23 v ts id run r :
  v = 2 \/ v = 3 -> ts <> "" -> id <> "" -> Event.Type_ (Event_ r) = ManifestEventType ->
  Event.Data (Event_ r) =
    AMap ([("version", AInt v); ("created_at", AString ts); ("bundle_id", AString id)]
      ++ omit_string "capture_run_id" run) ->
  parseManifestData r = Ok (new_manifest v ts id run).
Proof.
  intros Hv Hts Hid Ht Hd. unfold parseManifestData, manifestVersionFromRecord. rewrite Ht, Hd.
  unfold parseManifestDataV2, index, omit_string.
  apply String.eqb_neq in Hts, Hid.
  destruct (String.eqb_spec run "") as [->|Hr]; destruct Hv as [-> | ->]; cbn; rewrite Hts, Hid; done.
Qed.

(** The members of a version 1 manifest. *)
Definition v1_members (ts id run : string) : list (string * json) :=
  [("version", JStr "1"); ("created_at", JStr ts); ("bundle_id", JStr id)]
  ++ (if String.eqb run "" then [] else [("capture_run_id", JStr run)]).

Lemma v1_json ts id run :
  to_json (AStruct (manifest_fields (mkManifest ManifestVersion ts id run))) =
  Some (JObj (v1_members ts id run)).
Proof. unfold manifest_fields, v1_members, omit_string. cbn. by destruct (String.eqb run ""). Qed.

Lemma v1_parse ts id run :
  valid_string ts = true -> valid_string id = true -> valid_string run = true ->
  json_parse (json_print (JObj (v1_members ts id run))) = Some (JObj (v1_members ts id run)).
Proof.
  intros Hts Hid Hrun. rewrite json_parse_print.
  - f_equal. apply coerce_members. unfold v1_members.
    destruct (String.eqb run ""); repeat (constructor; [split; [vm_compute; reflexivity|]|]);
      try constructor; cbn [snd coerce_json]; f_equal; by apply coerce_string_valid.
  - unfold v1_members. by destruct (String.eqb run "").
  - unfold v1_members, max_nesting_depth. destruct (String.eqb run ""); cbn; lia.
Qed.

Lemma v1_decode ts id run :
  decode_field ["version"] "version" dec_any (v1_members ts id run) ANil = Some (AString "1") /\
  decode_manifest (JObj (v1_members ts id run)) = Some (mkManifest "1" ts id run).
Proof.
  unfold v1_members. destruct (String.eqb_spec run "") as [->|]; split; vm_compute; reflexivity.
Qed.

Lemma parse_v1 ts id run payload r :
  valid_string ts = true -> valid_string id = true -> valid_string run = true ->
  GoValue.Marshal (AStruct (manifest_fields (mkManifest ManifestVersion ts id run))) = Some payload ->
  Event.Type_ (Event_ r) = ManifestEventType -> Event.Data (Event_ r) = AString (S_of payload) ->
  parseManifestData r = Ok (mkManifest "1" ts id run).
Proof.
  intros Hts Hid Hrun Hp Ht Hd. unfold GoValue.Marshal in Hp. rewrite v1_json in Hp.
  cbn [fmap option_fmap option_map] in Hp. injection Hp as <-.
  destruct (v1_decode ts id run) as [Hv Hm].
  unfold parseManifestData, manifestVersionFromRecord, probe_version, parseManifestDataV1.
  rewrite Ht, Hd, B_S_of, v1_parse by done. cbn [mbind option_bind]. rewrite Hv, Hm. done.
Qed.

Lemma hex_nonempty b : b <> [] -> S_of (hex_encode b) <> "".
Proof. by destruct b. Qed.

(** A new bundle: it is built for every supported version, verifies, and its manifest
    reads back. *)
Lemma new_bundle ts rnd v run :
  valid_string ts = true -> ts <> "" -> rnd <> [] -> valid_string run = true ->
  0 <= v <= 3 ->
  exists b, NewWithOptions ts (Some rnd) (mkNewOptions v run) = Ok b /\
    ManifestE b = Ok (new_manifest v ts (S_of (hex_encode rnd)) run).
Proof.
  intros Hts Hne Hrnd Hrun Hv. set (id := S_of (hex_encode rnd)).
  assert (valid_string id = true) as Hid by apply valid_hex.
  unfold NewWithOptions. cbn [newBundleID ManifestVersion_ CaptureRunID_]. fold id.
  destruct ((v =? 0) || (v =? 1)) eqn:E1.
  - destruct (GoValue.Marshal (AStruct _)) as [payload|] eqn:Ep;
      [|unfold GoValue.Marshal in Ep; by rewrite v1_json in Ep].
    destruct (append_first (AString (S_of payload)) ts Hts) as (r & Ha & Ht & Hd); [done|].
    rewrite Ha. exists [r]. split; [done|]. unfold ManifestE, hasManifestRecord. rewrite Ht.
    rewrite (parse_v1 ts id run payload r) by done.
    unfold new_manifest. by replace (v <=? 1) with true by lia.
  - assert (v = 2 \/ v = 3) as Hv' by lia.
    replace ((v =? ManifestVersionV2) || (v =? ManifestVersionV3)) with true
      by (unfold ManifestVersionV2, ManifestVersionV3; lia).
    destruct (append_first _ ts Hts (manifest_data_ok v ts id run Hv')) as (r & Ha & Ht & Hd).
    rewrite Ha. exists [r]. split; [done|]. unfold ManifestE, hasManifestRecord. rewrite Ht.
    rewrite (parse_v23 v ts id run r) by (done || by apply hex_nonempty). done.
Qed.

(** ** Tamper evidence *)

Definition head (b : bundle) : string := head_hash (hashes b).

Lemma Forall2_same_event es es' :
  Forall (fun e => canonical_ok e = true) es -> Forall (fun e => canonical_ok e = true) es' ->
  Forall2 (fun e e' => Event.Sequence e = Event.Sequence e' /\ canonical e = canonical e') es es' ->
  Forall2 (fun e e' => Event.Sequence e = Event.Sequence e' /\ Event.same_event e e') es es'.
Proof.
  intros H H' HF. revert H H'. induction HF as [|e e' es es' [Hs Hc] _ IH]; intros H H'; [done|].
  apply Forall_cons in H as [He H]. apply Forall_cons in H' as [He' H'].
  constructor; [|by apply IH]. split; [done|]. by apply canonical_bytes_equal_fields.
Qed.

(** ** Accepted manifests *)

Lemma parseV1_sound s m : parseManifestDataV1 s = Ok m -> Version m <> "2".
Proof.
  unfold parseManifestDataV1. destruct (json_parse (B s) ≫= decode_manifest) as [m'|]; [|discriminate].
  destruct (String.eqb_spec (Version m') "2"); [discriminate|]. by intros [= <-].
Qed.

Lemma parseV2_sound l m :
  parseManifestDataV2 l = Ok m ->
  (Version m = "2" \/ Version m = "3") /\ CreatedAt m <> "" /\ BundleID m <> "".
Proof.
  unfold parseManifestDataV2. destruct (manifestVersionString (index l "version")) as [v|]; [|discriminate].
  destruct (negb (String.eqb v "2") && negb (String.eqb v "3")) eqn:Ev; [discriminate|].
  destruct (_ || _) eqn:E; [discriminate|]. intros [= <-]. cbn [Version CreatedAt BundleID]. boolify.
  split_and!; [|done|done]. apply andb_false_iff in Ev as [Ev|Ev]; boolify; auto.
Qed.

(** ** Properties *)

(** C2: [Verify] is the chain. It accepts a bundle exactly when its records are
    numbered consecutively (from 0 with a manifest, from 1 in a legacy bundle), each
    carries its predecessor's hash, starting at the genesis sentinel, and each stored
    hash is the hash of its event. *)
Theorem Verify_refines_chain b :
  Verify b = Ok tt <-> linked (first_seq b) GenesisHash (events b) (hashes b).
Proof. apply bundle_Verify_linked. Qed.

(** C3: tampering is evident. If two verified bundles of the same kind have the same
    head hash, they have the same hashes and, record by record, the same events; the
    only alternative is a concrete SHA-256 collision between two of their own hash
    inputs, or an event among them whose hash is the genesis sentinel. *)
Theorem verified_head_determines_bundle b b' :
  Verify b = Ok tt -> Verify b' = Ok tt -> hasManifestRecord b = hasManifestRecord b' ->
  head b = head b' ->
  Forall (fun e => canonical_ok e = true) (events b) ->
  Forall (fun e => canonical_ok e = true) (events b') ->
  (hashes b = hashes b' /\
   Forall2 (fun e e' => Event.Sequence e = Event.Sequence e' /\ Event.same_event e e')
     (events b) (events b')) \/
  chain_break (events b) (events b').
Proof.
  rewrite !bundle_Verify_linked. unfold first_seq. intros Hb Hb' Hm Hh Hc Hc'. rewrite Hm in Hb.
  destruct (linked_same_head _ _ _ _ _ Hb Hb' Hh) as [[Heq HF]|Hbr]; [left|by right].
  split; [done|by apply Forall2_same_event].
Qed.

(** C35: every bundle the package builds verifies, at every point of its life: after the
    constructor and after any sequence of successful appends, with a manifest or as a
    legacy bundle. *)
Theorem built_bundles_verify b : built b -> Verify b = Ok tt.
Proof. apply built_verified. Qed.

(** [NewWithOptions] succeeds for every supported manifest version; the bundle is
    a verified single manifest record, and [ManifestE] reads back the version, the
    creation time, the random id and the capture run. *)
Theorem NewWithOptions_manifest ts rnd v run :
  valid_string ts = true -> ts <> "" -> rnd <> [] -> valid_string run = true -> 0 <= v <= 3 ->
  exists b, NewWithOptions ts (Some rnd) (mkNewOptions v run) = Ok b /\ length b = 1%nat /\
    Verify b = Ok tt /\ ManifestE b = Ok (new_manifest v ts (S_of (hex_encode rnd)) run).
Proof.
  intros Hts Hne Hrnd Hrun Hv. destruct (new_bundle ts rnd v run) as (b & Hb & Hm); try done.
  exists b. split_and!; [done| |by eapply built_verified, built_new|done].
  apply New_append in Hb as [data Hb]. by apply append_inv in Hb as (h & -> & _).
Qed.

(** The acquisition profile is declared before it is used. In every bundle the
    package builds, a record other than the manifest that carries an acquisition
    envelope is preceded by a manifest that declares version 3. *)
Theorem acquisition_requires_v3 b r :
  built b -> r ∈ b -> Event.Type_ (Event_ r) <> ManifestEventType ->
  Event.Acquisition (Event_ r) <> None -> declares_v3 b.
Proof. intros Hb. by apply built_acquisition. Qed.

(** The event type pattern accepts exactly the dotted names of at least two
    segments, each a lower-case letter followed by lower-case letters, digits and
    underscores. *)
Theorem eventTypeRegexp_grammar s :
  eventTypeRegexp s = true <->
  exists g rest, segment g /\ Forall segment rest /\ rest <> [] /\
    B s = g ++ mjoin (cons dot <$> rest).
Proof.
  unfold eventTypeRegexp. rewrite (proj2 (match_type_spec (B s) false)).
  split; intros (g & rest & H); exists g, rest; naive_solver.
Qed.

(** An accepted manifest has a known shape. A structured manifest declares "2" or
    "3" and names its creation time and bundle id; a string manifest probes as version
    1 or below and does not declare "2"; no other payload type is accepted. *)
Theorem parseManifestData_sound r m :
  parseManifestData r = Ok m ->
  Event.Type_ (Event_ r) = ManifestEventType /\
  match Event.Data (Event_ r) with
  | AMap _ => (Version m = "2" \/ Version m = "3") /\ CreatedAt m <> "" /\ BundleID m <> ""
  | AString s => Version m <> "2" /\
      exists v n, probe_version s = Some v /\ manifestVersionToInt v = Ok n /\ n <= 1
  | _ => False
  end.
Proof.
  unfold parseManifestData, manifestVersionFromRecord. intros H.
  destruct (String.eqb_spec (Event.Type_ (Event_ r)) ManifestEventType) as [Ht|]; [|discriminate].
  split; [exact Ht|]. cbn [negb] in H.
  destruct (Event.Data (Event_ r)) as [| | | |s| |l| | |]; try discriminate.
  - destruct (probe_version s) as [v|] eqn:Ep; [|discriminate].
    destruct (manifestVersionToInt v) as [n|] eqn:En; [|discriminate].
    destruct (ManifestVersionMax <? n); [discriminate|].
    destruct (n <=? 1) eqn:E1; [|discriminate]. apply Z.leb_le in E1.
    split; [by eapply parseV1_sound|]. by exists v, n.
  - destruct (manifestVersionToInt (index l "version")) as [n|]; [|discriminate].
    destruct (ManifestVersionMax <? n); [discriminate|]. by eapply parseV2_sound.
Qed.

(** A manifest from a newer release is refused as malformed: whatever its form, a
    version above 3 gives an error that wraps [ErrMalformed]. *)
Theorem newer_manifest_is_malformed r n :
  Event.Type_ (Event_ r) = ManifestEventType -> manifestVersionFromRecord r = Ok n ->
  ManifestVersionMax < n ->
  parseManifestData r = Err (MVersionTooNew n) /\ manifest_malformed (MVersionTooNew n) = true.
Proof.
  intros Ht Hv Hn. unfold parseManifestData. rewrite Ht, Hv.
  change (String.eqb ManifestEventType ManifestEventType) with true. cbn [negb].
  by replace (ManifestVersionMax <? n) with true by lia.
Qed.

(** A string manifest that repeats the key "version", the second time with null, probes
    as version 1 and is then read as declaring version 3, although the string form of
    version 3 is meant to be refused. *)
Theorem string_manifest_can_declare_v3 :
  exists r, Event.Data (Event_ r) =
      AString (S_of ("{"%char :: quote :: B "version" ++ [quote; ":"%char; quote; "3"%char; quote]
        ++ [","%char; quote] ++ B "version" ++ [quote; ":"%char] ++ B "null}")) /\
    match parseManifestData r with Ok m => Version m = "3" | Err _ => False end.
Proof.
  exists (mkRecord (Event.mk 0 GenesisHash ManifestEventType "sha256"
    (AString (S_of ("{"%char :: quote :: B "version" ++ [quote; ":"%char; quote; "3"%char; quote]
        ++ [","%char; quote] ++ B "version" ++ [quote; ":"%char] ++ B "null}")))
    None None None "" "" "" "" None) "" [] [] false).
  split; [reflexivity|vm_compute; reflexivity].
Qed.

(** ** Witnesses *)

Definition sample_new : bundle :=
  Eval vm_compute in
    match NewWithOptions "2026-01-02T03:04:05Z" (Some (B "0123456789abcdef")) (mkNewOptions 3 "run-1")
    with Ok b => b | Err _ => [] end.

Definition sample_acquisition : AcquisitionInfo.t :=
  AcquisitionInfo.mk "retrospective" "chatlog" "1" "" "2026-01-02T03:04:06Z" "" "atb.chatlog" "" None.

Definition sample_options : AppendOptions :=
  mkOptions (Some "alice") None None "2026-01-02T03:04:06Z" "" "" "" (Some sample_acquisition).

Definition sample_bundle : bundle :=
  Eval vm_compute in
    match AppendWithOptions sample_new "ai.tool.exec" Canonicalize.sample (Some sample_options)
    with Ok b => b | Err _ => [] end.

Lemma sample_built : built sample_bundle.
Proof.
  apply (built_append sample_new "ai.tool.exec" Canonicalize.sample (Some sample_options)).
  - apply (built_append [] ManifestEventType
      (AMap [("version", AInt 3); ("created_at", AString "2026-01-02T03:04:05Z");
             ("bundle_id", AString "30313233343536373839616263646566");
             ("capture_run_id", AString "run-1")]) (Some (no_options "2026-01-02T03:04:05Z"))).
    + constructor.
    + vm_compute. reflexivity.
  - vm_compute. reflexivity.
Defined.

Lemma verified_head_determines_bundle_witness :
  (hashes sample_bundle = hashes sample_bundle /\
   Forall2 (fun e e' => Event.Sequence e = Event.Sequence e' /\ Event.same_event e e')
     (events sample_bundle) (events sample_bundle)) \/
  chain_break (events sample_bundle) (events sample_bundle).
Proof.
  apply verified_head_determines_bundle;
    [vm_compute; reflexivity|vm_compute; reflexivity|vm_compute; reflexivity|reflexivity
    |apply forallb_Forall_iff; vm_compute; reflexivity
    |apply forallb_Forall_iff; vm_compute; reflexivity].
Defined.

Lemma built_bundles_verify_witness : Verify sample_bundle = Ok tt.
Proof. apply built_bundles_verify, sample_built. Defined.

Lemma NewWithOptions_manifest_witness :
  exists b, NewWithOptions "2026-01-02T03:04:05Z" (Some (B "0123456789abcdef")) (mkNewOptions 1 "")
      = Ok b /\ length b = 1%nat /\ Verify b = Ok tt /\
    ManifestE b = Ok (new_manifest 1 "2026-01-02T03:04:05Z" "30313233343536373839616263646566" "").
Proof. apply NewWithOptions_manifest; first [vm_compute; reflexivity|discriminate|lia]. Defined.

Lemma acquisition_requires_v3_witness : declares_v3 sample_bundle.
Proof.
  apply (acquisition_requires_v3 sample_bundle (nth 1 sample_bundle (mkRecord Event.zero "" [] [] false)));
    [apply sample_built|vm_compute; right; left|vm_compute; discriminate|vm_compute; discriminate].
Defined.

Lemma parseManifestData_sound_witness :
  match sample_new with
  | r :: _ => Event.Type_ (Event_ r) = ManifestEventType
  | [] => False
  end.
Proof.
  pose proof (parseManifestData_sound (nth 0 sample_new (mkRecord Event.zero "" [] [] false))
    (mkManifest "3" "2026-01-02T03:04:05Z" "30313233343536373839616263646566" "run-1")) as H.
  destruct H as [H _]; [vm_compute; reflexivity|]. exact H.
Defined.

Definition newer_record : Record_ :=
  mkRecord (Event.mk 0 GenesisHash ManifestEventType "sha256" (AMap [("version", AInt 4)])
    None None None "" "" "" "" None) "" [] [] false.

Lemma newer_manifest_is_malformed_witness :
  parseManifestData newer_record = Err (MVersionTooNew 4) /\
  manifest_malformed (MVersionTooNew 4) = true.
Proof. apply newer_manifest_is_malformed; vm_compute; reflexivity. Defined.

End Bundle.
