(* ===== verification/BundleIO.v ===== *)
(** * Package internal/bundle: reading and writing bundle files

    [LoadReaderWithLimits] over the bytes a reader delivers, the incremental
    source-prefix tracker, [Save] with its atomic write, [LoadVerified], and the
    advisory lock with bounded retry. The theorems: the tracker computes the digests of
    the exact bytes before each signature record; the resource limits hold of every
    accepted input; a saved bundle loads back to the same events and still verifies;
    at every point of an atomic write the file holds the old or the new contents. *)

From S2P Require Import Prelude GoText Sha256 GoFloat GoJson GoValue GoStruct Canonicalize Event HashChain Bundle.
Import Canonicalize HashChain Bundle.

Module BundleIO.

Definition newline : ascii := chr 10.
Definition carriage : ascii := chr 13.

(** ** The source prefix tracker *)

(** A [hash.Hash] is the bytes written to it; [Sum] digests them. *)
Record sourcePrefixTracker := mkTracker {
  withLF : bytes;
  withoutLastByte : bytes;
  processedBytes : Z;
  previousByte : ascii;
  byteBeforePreviousByte : ascii
}.

Definition new_tracker : sourcePrefixTracker := mkTracker [] [] 0 (chr 0) (chr 0).

Definition tracker_add (t : sourcePrefixTracker) (rawLine : bytes) : sourcePrefixTracker :=
  match rawLine with
  | [] => t
  | first :: _ =>
      let n := Z.of_nat (length rawLine) in
      let w0 := if 0 <? processedBytes t then withoutLastByte t ++ [previousByte t]
                else withoutLastByte t in
      let w1 := if 1 <? n then w0 ++ removelast rawLine else w0 in
      let '(before, prev) :=
        if 2 <=? n then
          (nth (length rawLine - 2) rawLine (chr 0), nth (length rawLine - 1) rawLine (chr 0))
        else (previousByte t, first) in
      mkTracker (withLF t ++ rawLine) w1 (processedBytes t + n) prev before
  end.

(** The two digests and whether the second is present. *)
Definition tracker_snapshot (t : sourcePrefixTracker) : bytes * bytes * bool :=
  let with_lf := Sha256.sum256 (withLF t) in
  if (1 <? processedBytes t) && bool_decide (previousByte t = newline) &&
     negb (bool_decide (byteBeforePreviousByte t = newline))
  then (with_lf, Sha256.sum256 (withoutLastByte t), true)
  else (with_lf, [], false).

(** ** Lines *)

(** [scanRawLines] on buffered data: the token and the rest, if one is complete. *)
Fixpoint index_byte (c : ascii) (data : bytes) : option nat :=
  match data with
  | [] => None
  | d :: t => if bool_decide (d = c) then Some O else S <$> index_byte c t
  end.

Definition scanRawLines (data : bytes) (atEOF : bool) : option (bytes * bytes) :=
  match index_byte newline data with
  | Some i => Some (take (S i) data, drop (S i) data)
  | None => if atEOF && negb (bool_decide (data = [])) then Some (data, []) else None
  end.

(** The tokens of a whole input. *)
Fixpoint raw_lines_fuel (fuel : nat) (data : bytes) : list bytes :=
  match fuel with
  | O => []
  | S fuel =>
      match scanRawLines data true with
      | None => []
      | Some (line, rest) => line :: raw_lines_fuel fuel rest
      end
  end.

Definition raw_lines (data : bytes) : list bytes := raw_lines_fuel (length data) data.

Definition strip_last (c : ascii) (line : bytes) : bytes :=
  if bool_decide (last line = Some c) then removelast line else line.

Definition strip_line (rawLine : bytes) : bytes := strip_last carriage (strip_last newline rawLine).

(** A [bufio.Scanner] with a buffer of [size] bytes: a longer token, or an unterminated
    one that fills the buffer, is [bufio.ErrTooLong]. *)
Definition scan_too_long (size : Z) (rawLine : bytes) : bool :=
  let n := Z.of_nat (length rawLine) in
  if bool_decide (last rawLine = Some newline) then size <? n else size <=? n.

Definition token_too_long (rawLine : bytes) : bool := scan_too_long (MaxLineSizeBytes + 2) rawLine.

(** ** Load *)

Definition record_fields (r : Record_) : list (string * any) :=
  [("event", Event.encode (Event_ r)); ("hash", AString (Hash r))].

Definition record_names : list string := ["event"; "hash"].

Definition decode_record (j : json) : option Record_ :=
  match j with
  | JNull => Some (mkRecord Event.zero "" [] [] false)
  | JObj l =>
      e ← decode_field record_names "event" Event.decode l Event.zero;
      h ← decode_field record_names "hash" dec_string l "";
      Some (mkRecord e h [] [] false)
  | _ => None
  end.

Definition set_prefix (t : sourcePrefixTracker) (r : Record_) : Record_ :=
  if String.eqb (Event.Type_ (Event_ r)) TypeBundleSignature then
    let '(a, b, p) := tracker_snapshot t in mkRecord (Event_ r) (Hash r) a b p
  else r.

Record LoadLimits := mkLimits { MaxBytes : Z; MaxRecords : Z }.

Inductive load_error :=
| LNilReader | LLimitsNotPositive | LTooManyBytes | LLineTooLong | LTooManyRecords
| LUnmarshal | LScan | LTokenTooLong | LManifest (e : manifest_error).

Definition load_sentinel (e : load_error) : option sentinel :=
  match e with
  | LNilReader | LUnmarshal => Some ErrMalformed
  | LLimitsNotPositive | LTooManyBytes | LLineTooLong | LTooManyRecords => Some ErrResourceLimit
  | LManifest e => if manifest_malformed e then Some ErrMalformed else None
  | LScan | LTokenTooLong => None
  end.

(** A reader: the bytes it delivers, whether it ends with an error instead of EOF, and
    how many bytes it has handed over when the scanner delivers the token that ends at
    a given offset (the scanner reads ahead). *)
Record reader := mkReader { r_bytes : bytes; r_fails : bool; r_ahead : Z -> Z }.

(** A reader has delivered at least what was consumed and at most its contents. *)
Definition sane_reader (r : reader) : Prop :=
  forall pos, 0 <= pos <= Z.of_nat (length (r_bytes r)) ->
    pos <= r_ahead r pos <= Z.of_nat (length (r_bytes r)).

Fixpoint load_lines (limits : LoadLimits) (ahead : Z -> Z) (pos : Z) (t : sourcePrefixTracker)
    (records : bundle) (lines : list bytes) : result load_error bundle :=
  match lines with
  | [] => Ok records
  | rawLine :: rest =>
      if token_too_long rawLine then Err LTokenTooLong
      else
        let pos' := pos + Z.of_nat (length rawLine) in
        if MaxBytes limits <? ahead pos' then Err LTooManyBytes
        else
          let line := strip_line rawLine in
          if MaxLineSizeBytes <? Z.of_nat (length line) then Err LLineTooLong
          else if bool_decide (line = []) then
            load_lines limits ahead pos' (tracker_add t rawLine) records rest
          else if MaxRecords limits <=? Z.of_nat (length records) then Err LTooManyRecords
          else
            match json_parse line ≫= decode_record with
            | None => Err LUnmarshal
            | Some r =>
                load_lines limits ahead pos' (tracker_add t rawLine)
                  (records ++ [set_prefix t r]) rest
            end
  end.

(** A nil reader is [None]. *)
Definition LoadReaderWithLimits (r : option reader) (limits : LoadLimits) :
    result load_error bundle :=
  match r with
  | None => Err LNilReader
  | Some r =>
      if (MaxBytes limits <=? 0) || (MaxRecords limits <=? 0) then Err LLimitsNotPositive
      else
        let? records := load_lines limits (r_ahead r) 0 new_tracker [] (raw_lines (r_bytes r)) in
        if r_fails r then Err LScan
        else if MaxBytes limits <? Z.of_nat (length (r_bytes r)) then Err LTooManyBytes
        else if hasManifestRecord records then
          match records with
          | r0 :: _ =>
              match parseManifestData r0 with
              | Ok _ => Ok records
              | Err e => Err (LManifest e)
              end
          | [] => Ok records
          end
        else Ok records
  end.

Definition LoadReader (r : option reader) : result load_error bundle :=
  LoadReaderWithLimits r (mkLimits MaxBundleSizeBytes MaxBundleRecords).

(** [Load]: the file's contents, if it opens, and whether the context is cancelled
    before or after reading. *)
Inductive file_error := FCancelled | FOpen | FLoad (e : load_error).

Definition Load (cancelled_before : bool) (file : option reader) (cancelled_after : bool) :
    result file_error bundle :=
  if cancelled_before then Err FCancelled
  else match file with
       | None => Err FOpen
       | Some r =>
           match LoadReader (Some r) with
           | Err e => Err (FLoad e)
           | Ok b => if cancelled_after then Err FCancelled else Ok b
           end
       end.

Inductive verified_error :=
| VLoad (e : file_error) | VNoManifest | VNotABundle (type : string) | VVerify (f : verify_failure).

Definition LoadVerified (file : option reader) : result verified_error bundle :=
  match Load false file false with
  | Err e => Err (VLoad e)
  | Ok [] => Err VNoManifest
  | Ok (r :: rest) =>
      if negb (String.eqb (Event.Type_ (Event_ r)) ManifestEventType) then
        Err (VNotABundle (Event.Type_ (Event_ r)))
      else match Verify (r :: rest) with
           | Err f => Err (VVerify f)
           | Ok _ => Ok (r :: rest)
           end
  end.

Definition verified_sentinel (e : verified_error) : option sentinel :=
  match e with
  | VLoad (FLoad e) => load_sentinel e
  | VLoad _ => None
  | VNoManifest => Some ErrNoManifest
  | VNotABundle _ => Some ErrNotABundle
  | VVerify f => if verify_tamper f then Some ErrTamper else None
  end.

(** ** Save *)

(** [json.Encoder.Encode]: the encoding and a newline. *)
Definition encode_record (r : Record_) : option bytes :=
  (fun b => b ++ [newline]) <$> GoValue.Marshal (AStruct (record_fields r)).

Definition encode_records (b : bundle) : option bytes := mjoin <$> mapM encode_record b.

(** [setSourcePrefixHashes] on the bytes written. *)
Definition clear_prefix (r : Record_) : Record_ := mkRecord (Event_ r) (Hash r) [] [] false.

Fixpoint set_prefixes (t : sourcePrefixTracker) (records : bundle) (lines : list bytes) : bundle :=
  match lines with
  | [] => records
  | rawLine :: rest =>
      match records with
      | r :: rs =>
          if bool_decide (strip_line rawLine = []) then
            set_prefixes (tracker_add t rawLine) records rest
          else set_prefix t r :: set_prefixes (tracker_add t rawLine) rs rest
      | [] => []
      end
  end.

Definition setSourcePrefixHashes (records : bundle) (raw : bytes) : bundle :=
  set_prefixes new_tracker (map clear_prefix records) (raw_lines raw).
(** ** The file system and the atomic write *)

(** Files by path: contents and permission bits. *)
Abbreviation files := (gmap string (bytes * Z)).

Definition bundleFileMode : Z := 384.

Inductive write_stage := WCreate | WChmod | WWrite | WSync | WClose | WRename | WRemove | WSyncDir.

#[global] Instance write_stage_eq_dec : EqDecision write_stage.
Proof. solve_decision. Defined.

(** [writeAtomic]: which calls fail, how many bytes are written when a crash or a failed
    write interrupts it, and the name [os.CreateTemp] chooses. The result lists the
    states of the file system one after the other, so that a crash leaves one of them. *)
Definition writeAtomic (fails : write_stage -> bool) (partial : nat) (tmp : string)
    (fs : files) (path : string) (data : bytes) (perm : Z) : list files * result write_stage unit :=
  let perm := if perm =? 0 then bundleFileMode else perm in
  let cleanup (s : files) : list files := if fails WRemove then [] else [delete tmp s] in
  if fails WCreate then ([], Err WCreate)
  else
    let s1 := <[tmp := ([], bundleFileMode)]> fs in
    if fails WChmod then (s1 :: cleanup s1, Err WChmod)
    else
      let s2 := <[tmp := ([], perm)]> fs in
      let s3 := <[tmp := (take partial data, perm)]> fs in
      if fails WWrite then ([s1; s2; s3] ++ cleanup s3, Err WWrite)
      else
        let s4 := <[tmp := (data, perm)]> fs in
        if fails WSync then ([s1; s2; s3; s4] ++ cleanup s4, Err WSync)
        else if fails WClose then ([s1; s2; s3; s4] ++ cleanup s4, Err WClose)
        else if fails WRename then ([s1; s2; s3; s4] ++ cleanup s4, Err WRename)
        else
          let s5 := <[path := (data, perm)]> (delete tmp s4) in
          if fails WSyncDir then ([s1; s2; s3; s4; s5], Err WSyncDir)
          else ([s1; s2; s3; s4; s5], Ok tt).

(** The state a run leaves. *)
Definition final_state (fs : files) (states : list files) : files := default fs (last states).

(** ** Save *)

Inductive save_error := SCancelled | SMkdir | SEncode | SWrite (s : write_stage) | SLock (locked : bool) | SRelease.

(** The encoding loop; the context is polled after each record. *)
Fixpoint encode_loop (cancelled : nat -> bool) (i : nat) (b : bundle) (buf : bytes) :
    result save_error bytes :=
  match b with
  | [] => Ok buf
  | r :: rest =>
      match encode_record r with
      | None => Err SEncode
      | Some line =>
          if cancelled i then Err SCancelled
          else encode_loop cancelled (S i) rest (buf ++ line)
      end
  end.

Record save_env := mkEnv {
  env_cancelled : nat -> bool;
  env_mkdir_fails : bool;
  env_fails : write_stage -> bool;
  env_partial : nat;
  env_tmp : string
}.

(** [saveUnlocked]: the states of the file system, the bundle with refreshed digests, and
    the error. *)
Definition saveUnlocked (env : save_env) (fs : files) (path : string) (b : bundle) :
    list files * bundle * result save_error unit :=
  if env_cancelled env 0 then ([], b, Err SCancelled)
  else if env_mkdir_fails env then ([], b, Err SMkdir)
  else match encode_loop (fun i => env_cancelled env (S i)) 0 b [] with
       | Err e => ([], b, Err e)
       | Ok buf =>
           let '(states, r) :=
             writeAtomic (env_fails env) (env_partial env) (env_tmp env) fs path buf bundleFileMode in
           match r with
           | Err st => (states, b, Err (SWrite st))
           | Ok _ => (states, setSourcePrefixHashes b buf, Ok tt)
           end
       end.

(** ** The advisory lock *)

(** What one attempt to lock [path.lock] gives. *)
Inductive lock_outcome := Acquired | Locked | LockFailed.

Definition withBundleLock (lock : lock_outcome) (release_fails : bool)
    (fn : list files * bundle * result save_error unit) (fs : files) (b : bundle) :
    list files * bundle * result save_error unit :=
  match lock with
  | Locked => ([], b, Err (SLock true))
  | LockFailed => ([], b, Err (SLock false))
  | Acquired =>
      let '(states, b', r) := fn in
      match r with
      | Err e => (states, b', Err e)
      | Ok _ => (states, b', if release_fails then Err SRelease else Ok tt)
      end
  end.

Definition Save (cancelled : bool) (lock : lock_outcome) (release_fails : bool) (env : save_env)
    (fs : files) (path : string) (b : bundle) : list files * bundle * result save_error unit :=
  if cancelled then ([], b, Err SCancelled)
  else withBundleLock lock release_fails (saveUnlocked env fs path b) fs b.

Definition DefaultLockRetryInterval : Z := 200000000.

Inductive retry_result := RAcquired | RLocked | RFailed | RCancelled.

(** The sleep between two attempts. *)
Definition sleep_for (deadline interval now : Z) : Z :=
  let sleepFor := deadline - now in if interval <? sleepFor then interval else sleepFor.

(** [AcquireWithRetry]: the outcome of each attempt, the clock read after it, and whether
    the context ends the sleep that follows. The result carries the sleeps begun. The
    loop runs on fuel; without enough it is still waiting. *)
Fixpoint retry_loop (fuel : nat) (attempt : nat -> lock_outcome) (clock : nat -> Z)
    (cancelled : nat -> bool) (deadline interval : Z) (i : nat) : option (list Z * retry_result) :=
  match fuel with
  | O => None
  | S fuel =>
      match attempt i with
      | Acquired => Some ([], RAcquired)
      | LockFailed => Some ([], RFailed)
      | Locked =>
          if deadline - clock i <=? 0 then Some ([], RLocked)
          else
            let sleepFor := sleep_for deadline interval (clock i) in
            if cancelled i then Some ([sleepFor], RCancelled)
            else
              '(sleeps, r) ← retry_loop fuel attempt clock cancelled deadline interval (S i);
              Some (sleepFor :: sleeps, r)
      end
  end.

Definition AcquireWithRetry (fuel : nat) (attempt : nat -> lock_outcome) (clock : nat -> Z)
    (cancelled : nat -> bool) (start timeout interval : Z) : option (list Z * retry_result) :=
  if timeout <=? 0 then
    Some ([], match attempt O with Acquired => RAcquired | Locked => RLocked | LockFailed => RFailed end)
  else
    let interval := if interval <=? 0 then DefaultLockRetryInterval else interval in
    retry_loop fuel attempt clock cancelled (start + timeout) interval 0.

(** A clock that has seen each sleep pass. *)
Definition waits (clock : nat -> Z) (deadline interval : Z) : Prop :=
  forall i, clock i + sleep_for deadline interval (clock i) <= clock (S i).

(** ** The tracker is a digest of the prefix *)

Definition tracker_of (p : bytes) : sourcePrefixTracker :=
  mkTracker p (removelast p) (Z.of_nat (length p)) (nth (length p - 1) p (chr 0))
    (if (2 <=? length p)%nat then nth (length p - 2) p (chr 0) else chr 0).

Lemma nth_last_snoc {A} (l : list A) x d : nth (length (l ++ [x]) - 1) (l ++ [x]) d = x.
Proof.
  rewrite length_app. cbn. replace (length l + 1 - 1)%nat with (length l + 0)%nat by lia.
  by rewrite app_nth2_plus.
Qed.

Lemma nth_before_last {A} (l : list A) x y d :
  nth (length (l ++ [x; y]) - 2) (l ++ [x; y]) d = x.
Proof.
  rewrite length_app. cbn. replace (length l + 2 - 2)%nat with (length l + 0)%nat by lia.
  by rewrite app_nth2_plus.
Qed.

Lemma tracker_add_long t l y x :
  tracker_add t (l ++ [y; x]) =
  mkTracker (withLF t ++ l ++ [y; x])
    ((if 0 <? processedBytes t then withoutLastByte t ++ [previousByte t] else withoutLastByte t)
       ++ l ++ [y])
    (processedBytes t + Z.of_nat (length (l ++ [y; x]))) x y.
Proof.
  assert (length (l ++ [y; x]) = S (S (length l))) as Hl by (rewrite length_app; cbn; lia).
  assert (removelast (l ++ [y; x]) = l ++ [y]) as Hr.
  { change [y; x] with ([y] ++ [x]). by rewrite app_assoc, removelast_last. }
  assert (nth (length (l ++ [y; x]) - 1) (l ++ [y; x]) (chr 0) = x) as Hx.
  { change [y; x] with ([y] ++ [x]). by rewrite app_assoc, nth_last_snoc. }
  pose proof (nth_before_last l y x (chr 0)) as Hy.
  revert Hl Hr Hx Hy. unfold tracker_add. destruct (l ++ [y; x]) as [|c r] eqn:E; [by destruct l|].
  rewrite <- E. intros Hl Hr Hx Hy. rewrite Hr, Hx, Hy, Hl.
  replace (1 <? Z.of_nat (S (S (length l)))) with true by (symmetry; apply Z.ltb_lt; lia).
  by replace (2 <=? Z.of_nat (S (S (length l)))) with true by (symmetry; apply Z.leb_le; lia).
Qed.

Lemma tracker_of_snoc p x :
  tracker_of (p ++ [x]) =
  mkTracker (p ++ [x]) p (Z.of_nat (length p) + 1) x
    (match reverse p with [] => chr 0 | y :: _ => y end).
Proof.
  unfold tracker_of. rewrite removelast_last, nth_last_snoc. f_equal.
  - rewrite length_app. cbn. lia.
  - destruct p as [|y p _] using rev_ind; [done|].
    rewrite reverse_app. cbn [reverse rev_append app]. 
    rewrite <- app_assoc. cbn [app]. rewrite nth_before_last. rewrite length_app. cbn [length].
    by replace (2 <=? length p + 2)%nat with true by (symmetry; apply Nat.leb_le; lia).
Qed.

Lemma tracker_previous p : Z.of_nat (length p) > 0 ->
  removelast p ++ [nth (length p - 1) p (chr 0)] = p.
Proof.
  intros H. destruct p as [|y p _] using rev_ind; [cbn in H; lia|].
  by rewrite removelast_last, nth_last_snoc.
Qed.

Lemma tracker_without p :
  (if 0 <? processedBytes (tracker_of p)
   then withoutLastByte (tracker_of p) ++ [previousByte (tracker_of p)]
   else withoutLastByte (tracker_of p)) = p.
Proof.
  cbn [tracker_of processedBytes withoutLastByte previousByte].
  destruct (0 <? Z.of_nat (length p)) eqn:E; boolify; [apply tracker_previous; lia|].
  destruct p; [done|cbn in E; lia].
Qed.

(** Adding a line to the tracker of a prefix gives the tracker of the longer prefix. *)
Lemma tracker_add_app p l : tracker_add (tracker_of p) l = tracker_of (p ++ l).
Proof.
  destruct l as [|x l _] using rev_ind; [by rewrite app_nil_r|].
  destruct l as [|y l _] using rev_ind.
  - cbn [app]. rewrite tracker_of_snoc. unfold tracker_add. cbn [length].
    change (1 <? Z.of_nat 1) with false. change (2 <=? Z.of_nat 1) with false. cbn match zeta.
    rewrite tracker_without. f_equal.
    cbn [previousByte tracker_of]. destruct p as [|y p _] using rev_ind; [done|].
    by rewrite nth_last_snoc, reverse_app.
  - rewrite <- app_assoc. cbn [app]. rewrite tracker_add_long, tracker_without.
    replace (p ++ l ++ [y; x]) with ((p ++ l ++ [y]) ++ [x]) by (by rewrite <- !app_assoc).
    rewrite tracker_of_snoc. cbn [withLF tracker_of processedBytes].
    rewrite !reverse_app. cbn [reverse rev_append app]. f_equal.
    + by rewrite <- !app_assoc.
    + rewrite !length_app. cbn. lia.
Qed.

(** The digests of a prefix, by definition: of all of it and, when it ends in a newline
    that follows another byte, of all but that newline. *)
Definition prefix_digests (p : bytes) : bytes * bytes * bool :=
  match reverse p with
  | c :: d :: _ =>
      if bool_decide (c = newline) && negb (bool_decide (d = newline))
      then (Sha256.sum256 p, Sha256.sum256 (removelast p), true)
      else (Sha256.sum256 p, [], false)
  | _ => (Sha256.sum256 p, [], false)
  end.

Lemma snapshot_digests p : tracker_snapshot (tracker_of p) = prefix_digests p.
Proof.
  destruct p as [|x p _] using rev_ind; [done|]. rewrite tracker_of_snoc.
  unfold tracker_snapshot, prefix_digests.
  cbn [withLF withoutLastByte processedBytes previousByte byteBeforePreviousByte].
  rewrite reverse_app, removelast_last. cbn [reverse rev_append app].
  destruct p as [|y p _] using rev_ind; [done|]. rewrite reverse_app, length_app. cbn [reverse rev_append app length].
  replace (1 <? Z.of_nat (length p + 1) + 1) with true by (symmetry; apply Z.ltb_lt; lia). done.
Qed.

(** ** What Load returns *)

(** The lines of an input, each with the bytes before it. *)
Fixpoint prefixed (p : bytes) (lines : list bytes) : list (bytes * bytes) :=
  match lines with
  | [] => []
  | l :: rest => (p, l) :: prefixed (p ++ l) rest
  end.

(** The lines that hold records. *)
Definition record_lines (data : bytes) : list (bytes * bytes) :=
  filter (fun pl => strip_line pl.2 <> []) (prefixed [] (raw_lines data)).

Definition with_digests (d : bytes * bytes * bool) (r : Record_) : Record_ :=
  if String.eqb (Event.Type_ (Event_ r)) TypeBundleSignature
  then mkRecord (Event_ r) (Hash r) d.1.1 d.1.2 d.2 else r.

(** A record read from a line with a given prefix. *)
Definition reads_line (pl : bytes * bytes) (r : Record_) : Prop :=
  exists r0, json_parse (strip_line pl.2) ≫= decode_record = Some r0 /\
    r = with_digests (prefix_digests pl.1) r0.

Lemma set_prefix_of p r : set_prefix (tracker_of p) r = with_digests (prefix_digests p) r.
Proof.
  unfold set_prefix, with_digests. rewrite snapshot_digests.
  destruct (String.eqb _ _); [|done]. by destruct (prefix_digests p) as [[a b] c].
Qed.

Lemma load_lines_spec limits ahead pos p records lines b :
  load_lines limits ahead pos (tracker_of p) records lines = Ok b ->
  Z.of_nat (length records) <= MaxRecords limits ->
  exists new, b = records ++ new /\
    Forall2 reads_line (filter (fun pl => strip_line pl.2 <> []) (prefixed p lines)) new /\
    Z.of_nat (length b) <= MaxRecords limits /\
    Forall (fun l => Z.of_nat (length (strip_line l)) <= MaxLineSizeBytes) lines.
Proof.
  revert pos p records. induction lines as [|l lines IH]; intros pos p records H Hn;
    cbn [load_lines] in H.
  { simplify_eq. exists []. rewrite app_nil_r. by repeat split; try constructor. }
  destruct (token_too_long l); [done|]. destruct (_ <? ahead _); [done|].
  destruct (MaxLineSizeBytes <? _) eqn:El; [done|]. apply Z.ltb_ge in El.
  rewrite tracker_add_app in H. cbn [prefixed].
  destruct (bool_decide (strip_line l = [])) eqn:En; boolify.
  - destruct (IH _ _ _ H Hn) as (new & -> & HF & Hb & Hl). exists new.
    split_and!; [done| |done|by constructor].
    rewrite filter_cons_False by (cbn; by intros []). done.
  - destruct (MaxRecords limits <=? _) eqn:Em; [done|]. apply Z.leb_gt in Em.
    destruct (_ ≫= decode_record) as [r|] eqn:Er; [|done]. rewrite set_prefix_of in H.
    destruct (IH _ _ _ H) as (new & -> & HF & Hb & Hl); [rewrite length_app; cbn; lia|].
    exists (with_digests (prefix_digests p) r :: new). rewrite <- app_assoc.
    split_and!; [done| |by rewrite <- app_assoc in Hb|by constructor].
    rewrite filter_cons_True by done. constructor; [by exists r|done].
Qed.

(** ** Lines written are lines read *)

Lemma index_byte_app c l r : c ∉ l -> index_byte c (l ++ c :: r) = Some (length l).
Proof.
  induction l as [|x l IH]; cbn; intros H; [by rewrite bool_decide_true|].
  rewrite not_elem_of_cons in H. destruct H as [Hx Hl].
  rewrite bool_decide_false by congruence. by rewrite IH.
Qed.

Lemma scanRawLines_line l r :
  newline ∉ l -> scanRawLines (l ++ newline :: r) true = Some (l ++ [newline], r).
Proof.
  intros H. unfold scanRawLines. rewrite index_byte_app by done.
  replace (l ++ newline :: r) with ((l ++ [newline]) ++ r) by (by rewrite <- app_assoc).
  replace (S (length l)) with (length (l ++ [newline])) by (rewrite length_app; cbn; lia).
  by rewrite take_app_length, drop_app_length.
Qed.

Definition terminate (l : bytes) : bytes := l ++ [newline].

Lemma raw_lines_terminated ls :
  Forall (fun l => newline ∉ l) ls -> raw_lines (mjoin (terminate <$> ls)) = terminate <$> ls.
Proof.
  intros H. unfold raw_lines.
  enough (forall fuel, (length (mjoin (terminate <$> ls)) <= fuel)%nat ->
    raw_lines_fuel fuel (mjoin (terminate <$> ls)) = terminate <$> ls) as Hf by (by apply Hf).
  induction H as [|l ls Hl _ IH]; intros fuel Hf.
  { by destruct fuel. }
  rewrite mjoin_fmap_cons in Hf |- *. rewrite fmap_cons.
  replace (terminate l ++ mjoin (terminate <$> ls)) with (l ++ newline :: mjoin (terminate <$> ls))
    in Hf |- * by (unfold terminate; by rewrite <- app_assoc).
  rewrite length_app in Hf. cbn [length] in Hf.
  destruct fuel as [|fuel]; [lia|]. cbn [raw_lines_fuel]. rewrite scanRawLines_line by done.
  rewrite IH by lia. done.
Qed.

Lemma printable_no_newline l : Forall printable l -> newline ∉ l.
Proof.
  intros H Hin. rewrite Forall_forall in H. specialize (H _ Hin). by vm_compute in H.
Qed.

(** A written line loses its newline and nothing else. *)
Lemma strip_terminated l : Forall printable l -> strip_line (terminate l) = l.
Proof.
  intros H. assert (strip_last newline (l ++ [newline]) = l) as E.
  { unfold strip_last. rewrite last_snoc, bool_decide_true by done. apply removelast_last. }
  unfold strip_line, terminate. rewrite E. unfold strip_last. rewrite bool_decide_false; [done|]. intros Hl. apply last_Some_elem_of in Hl.
  rewrite Forall_forall in H. specialize (H _ Hl). by vm_compute in H.
Qed.

(** ** Records written are records read *)

Definition record_ok (r : Record_) : bool :=
  canonical_ok (Event_ r) && valid_string (Hash r) &&
  match to_json (AStruct (record_fields r)) with
  | None => false
  | Some j => (json_depth j <=? max_nesting_depth)%nat &&
              (Z.of_nat (length (json_print j)) <=? MaxLineSizeBytes)
  end.

(** The record a reader sees: the payload decoded, the digests not yet set. *)
Definition reloaded (r r' : Record_) : Prop :=
  exists d, redecode (Event.Data (Event_ r)) = Some d /\
    r' = mkRecord (Event.with_data d (Event_ r)) (Hash r) [] [] false.

Lemma canonical_ok_data e :
  canonical_ok e = true -> exists d, redecode (Event.Data e) = Some d.
Proof.
  intros (_ & j & w & _ & _ & Hw & _)%canonical_ok_inv.
  destruct (event_redecode e) as [He _]. rewrite He in Hw. apply fmap_Some in Hw as (m & Hm & _).
  destruct (Event.event_fields_assoc e) as (_ & _ & _ & _ & E5 & _).
  apply mapM_Some in Hm. revert E5. clear -Hm.
  induction Hm as [|[k v] y l m Hy _ IH]; [done|]. cbn [assoc]. cbn in Hy.
  apply fmap_Some in Hy as (u & Hu & _).
  destruct (String.eqb "data" k); [intros [= <-]; by exists u|exact IH].
Qed.

Lemma reload_line r :
  record_ok r = true ->
  exists l r', encode_record r = Some (terminate l) /\ Forall printable l /\ l <> [] /\
    Z.of_nat (length l) <= MaxLineSizeBytes /\ reloaded r r' /\
    json_parse l ≫= decode_record = Some r'.
Proof.
  unfold record_ok. intros [[Hc Hh]%andb_true_iff Hj]%andb_true_iff.
  destruct (to_json (AStruct (record_fields r))) as [j|] eqn:Ej; [|done].
  apply andb_true_iff in Hj as [Hd Hl]. apply Nat.leb_le in Hd. apply Z.leb_le in Hl.
  pose proof (to_json_wf _ _ Ej) as Hwf.
  destruct (canonical_ok_data _ Hc) as [d Hdata].
  exists (json_print j), (mkRecord (Event.with_data d (Event_ r)) (Hash r) [] [] false).
  split_and!; [|by apply json_print_printable| |done|by exists d|].
  - unfold encode_record, GoValue.Marshal. by rewrite Ej.
  - destruct (json_print_start escape_string j Hwf) as (c & t & E & _).
    unfold json_print. by rewrite E.
  - rewrite json_parse_print by done. cbn [mbind option_bind].
    destruct (struct_decode record_names (record_fields r) j eq_refl) as (jl & -> & Htot & Hdec);
      [unfold record_fields, record_names; repeat constructor|done|].
    unfold decode_record. rewrite (Hdec _ "event"), (Hdec _ "hash").
    change (assoc "event" (record_fields r)) with (Some (Event.encode (Event_ r))).
    destruct (Htot "event" (Event.encode (Event_ r)) eq_refl) as [je Hje].
    cbn match. rewrite Hje. cbn [mbind option_bind]. apply canonical_ok_inv in Hc as [Hv _].
    rewrite (Event.event_decode_encode _ d je Hv Hdata Hje). cbn [mbind option_bind].
    change (assoc "hash" (record_fields r)) with (Some (AString (Hash r))).
    cbn match. by rewrite read_string.
Qed.

(** ** A saved bundle loads back *)

Lemma token_fits l :
  Forall printable l -> Z.of_nat (length l) <= MaxLineSizeBytes -> token_too_long (terminate l) = false.
Proof.
  intros _ H. unfold token_too_long, scan_too_long, terminate. rewrite last_snoc, bool_decide_true by done.
  rewrite length_app. cbn [length]. apply Z.ltb_ge. lia.
Qed.

Lemma encode_records_lines b :
  Forall (fun r => record_ok r = true) b ->
  exists ls b', encode_records b = Some (mjoin (terminate <$> ls)) /\
    Forall (fun l => Forall printable l /\ l <> [] /\ Z.of_nat (length l) <= MaxLineSizeBytes) ls /\
    Forall2 reloaded b b' /\
    Forall2 (fun l r => json_parse l ≫= decode_record = Some r) ls b'.
Proof.
  unfold encode_records. induction 1 as [|r b Hr _ (ls & b' & He & Hls & Hb & Hp)].
  { exists [], []. by repeat constructor. }
  destruct (reload_line r Hr) as (l & r' & Hl & H1 & H2 & H3 & H4 & H5).
  exists (l :: ls), (r' :: b'). split_and!; [|by constructor..]. cbn [mapM]. rewrite Hl.
  destruct (mapM encode_record b) as [ys|]; [|done]. injection He as He.
  rewrite mjoin_fmap_cons, <- He. done.
Qed.

Lemma load_written limits ahead ls rs pos p records :
  (forall pos', 0 <= pos' -> pos' <= pos + Z.of_nat (length (mjoin (terminate <$> ls))) ->
     ahead pos' <= MaxBytes limits) -> 0 <= pos ->
  Z.of_nat (length records + length ls) <= MaxRecords limits ->
  Forall (fun l => Forall printable l /\ l <> [] /\ Z.of_nat (length l) <= MaxLineSizeBytes) ls ->
  Forall2 (fun l r => json_parse l ≫= decode_record = Some r) ls rs ->
  load_lines limits ahead pos (tracker_of p) records (terminate <$> ls) =
  Ok (records ++ set_prefixes (tracker_of p) rs (terminate <$> ls)).
Proof.
  intros Ha Hpos Hn Hls HF. revert pos p records Ha Hpos Hn.
  induction HF as [|l r ls rs Hr _ IH]; intros pos p records Ha Hpos Hn.
  { cbn. by rewrite app_nil_r. }
  apply Forall_cons in Hls as [(Hl1 & Hl2 & Hl3) Hls].
  rewrite fmap_cons. cbn [load_lines set_prefixes]. rewrite token_fits by done.
  rewrite mjoin_fmap_cons, length_app in Ha. cbn [length] in Hn.
  replace (MaxBytes limits <? ahead (pos + Z.of_nat (length (terminate l)))) with false
    by (symmetry; apply Z.ltb_ge, Ha; lia).
  rewrite !strip_terminated by done.
  replace (MaxLineSizeBytes <? Z.of_nat (length l)) with false by (symmetry; apply Z.ltb_ge; lia).
  rewrite !bool_decide_false by done.
  replace (MaxRecords limits <=? Z.of_nat (length records)) with false
    by (symmetry; apply Z.leb_gt; lia).
  rewrite Hr, tracker_add_app, IH; [by rewrite <- app_assoc|done| |lia|rewrite length_app; cbn; lia].
  intros pos' H0 H1. apply Ha; lia.
Qed.

Lemma reloaded_clear b b' : Forall2 reloaded b b' -> map clear_prefix b' = b'.
Proof. induction 1 as [|r r' b b' (d & _ & ->) _ IH]; [done|]. cbn. by rewrite IH. Qed.

(** ** The manifest reads back *)

Lemma feqb_finite f s m e : feqb f (S754_finite s m e) = true -> f = S754_finite s m e.
Proof.
  unfold feqb, SFeqb, SFcompare. destruct f as [s'|s'| |s' m' e']; destruct s; try destruct s'; try done;
    destruct (Z.compare_spec e' e) as [->| |]; try done;
    change (Pos.compare_cont Eq m' m) with (Pos.compare m' m);
    destruct (Pos.compare_spec m' m) as [->| |]; done.
Qed.

Lemma redecode_map_inv l d :
  keyed l -> redecode (AMap l) = Some d ->
  exists m', d = AMap m' /\ forall k, assoc k m' = assoc k l ≫= redecode.
Proof.
  intros [Hn Hv] Hd.
  assert (Forall (fun k => coerce_string k = k) l.*1) as Hc
    by (eapply Forall_impl; [exact Hv|]; apply coerce_string_valid).
  assert (exists m, mapM (fun kv => pair kv.1 <$> redecode kv.2) l = Some m) as [m Hm].
  { unfold redecode in Hd. cbn [to_json] in Hd.
    destruct (mapM (fun kv => pair kv.1 <$> to_json kv.2) l) as [kvs|] eqn:Ek; [|done].
    cbn [fmap option_fmap option_map mbind option_bind coerce_json of_json] in Hd.
    destruct (mapM (fun kv => pair kv.1 <$> of_json kv.2) _) as [ds|] eqn:Ed; [|done].
    apply mapM_Some in Ed.
    apply (Forall2_Forall_l _ (fun kv => is_Some (of_json kv.2))) in Ed;
      [|apply Forall_true; intros [? ?] [? ?]; cbn; by intros (? & -> & _)%fmap_Some].
    rewrite Forall_fmap, insertion_sort_perm in Ed.
    apply mapM_Some in Ek.
    assert (is_Some (mapM (fun kv => pair kv.1 <$> redecode kv.2) l)) as [m Hm]; [|by exists m].
    apply mapM_is_Some. clear -Ek Ed.
    induction Ek as [|[k v] y l kvs Hy _ IH]; [constructor|]. apply Forall_cons in Ed as [Hj Ed].
    cbn in Hy. apply fmap_Some in Hy as (j & Hj' & ->). constructor; [|auto].
    cbn in Hj |- *. unfold redecode. rewrite Hj'. cbn. destruct Hj as [u ->]. by eexists. }
  destruct (redecode_map l m Hn Hc Hm) as (m' & Hr & Hp). rewrite Hr in Hd. injection Hd as <-.
  exists m'. split; [done|]. intros k. rewrite <- (assoc_mapM _ _ _ k Hm).
  apply assoc_perm; [|done]. rewrite Hp. by rewrite (mapM_keys _ _ _ Hm).
Qed.

Lemma encode_rune_nonempty r : encode_rune r <> [].
Proof. unfold encode_rune. repeat case_match; done. Qed.

Lemma coerce_string_nonempty s : s <> "" -> coerce_string s <> "".
Proof.
  intros Hs H. apply Hs, B_nil_inv. apply (f_equal B) in H. unfold coerce_string in H.
  rewrite B_S_of in H. unfold coerce_utf8, encode_runes, runes in H.
  rewrite <- (concat_chunks (B s)). destruct (chunks (B s)) as [|[r bs] t]; [done|]. cbn in H.
  apply app_eq_nil in H as [H _]. by destruct (encode_rune_nonempty r).
Qed.

Lemma reload_string_field l l' k :
  (forall k, assoc k l' = assoc k l ≫= redecode) ->
  as_string (index l k) <> "" -> as_string (index l' k) <> "".
Proof.
  intros Ha. unfold index. rewrite Ha. destruct (assoc k l) as [v|]; [|done].
  destruct v; try done. cbn. apply coerce_string_nonempty.
Qed.

(** The version values a structured manifest may carry survive a round. *)
Lemma reload_version v s :
  manifestVersionString v = Ok s -> s = "2" \/ s = "3" ->
  exists v', redecode v = Some v' /\ manifestVersionString v' = Ok s /\
    exists n, manifestVersionToInt v' = Ok n /\ n <= ManifestVersionMax.
Proof.
  intros Hv Hs. destruct v as [| |z|f|t| | | | |]; try done; cbn [manifestVersionString] in Hv.
  - unfold ManifestVersionV2, ManifestVersionV3 in Hv.
    destruct (z =? 2) eqn:E2; [|destruct (z =? 3) eqn:E3; [|done]]; boolify; subst; injection Hv as <-.
    + exists (AFloat f2). split_and!; [by vm_compute|by vm_compute|]. exists 2. by vm_compute.
    + exists (AFloat f3). split_and!; [by vm_compute|by vm_compute|]. exists 3. by vm_compute.
  - destruct (feqb f f2) eqn:E2; [|destruct (feqb f f3) eqn:E3; [|done]]; injection Hv as <-.
    + apply (feqb_finite f false 4503599627370496 (-51)) in E2. subst f.
      exists (AFloat f2). split_and!; [by vm_compute|by vm_compute|]. exists 2. by vm_compute.
    + apply (feqb_finite f false 6755399441055744 (-51)) in E3. subst f.
      exists (AFloat f3). split_and!; [by vm_compute|by vm_compute|]. exists 3. by vm_compute.
  - destruct (String.eqb t ""); [done|]. injection Hv as ->. exists (AString s).
    destruct Hs as [-> | ->]; (split_and!; [by vm_compute|done|]); [exists 2|exists 3]; by vm_compute.
Qed.

(** Payloads as Go maps and valid strings. *)
Definition payload_ok (v : any) : bool :=
  match v with
  | AMap l => bool_decide (NoDup l.*1) && forallb (fun k => valid_utf8 (B k)) l.*1
  | AString s => valid_string s
  | _ => true
  end.

Lemma reload_manifest r d m h :
  parseManifestData r = Ok m -> payload_ok (Event.Data (Event_ r)) = true ->
  redecode (Event.Data (Event_ r)) = Some d ->
  exists m', parseManifestData (mkRecord (Event.with_data d (Event_ r)) h [] [] false) = Ok m' /\
    Version m' = Version m.
Proof.
  unfold parseManifestData, manifestVersionFromRecord. cbn [Event_ Event.with_data Event.Type_ Event.Data].
  intros Hm Hp Hd. destruct (String.eqb (Event.Type_ (Event_ r)) ManifestEventType); [|done].
  cbn [negb] in *. destruct (Event.Data (Event_ r)) as [| | | |s| |l| | |]; try done.
  - cbn in Hd. injection Hd as <-. rewrite coerce_string_valid by done. by exists m.
  - cbn [payload_ok] in Hp. apply andb_true_iff in Hp as [Hn Hk]. apply bool_decide_eq_true in Hn.
    apply forallb_Forall_iff in Hk.
    destruct (redecode_map_inv l d (conj Hn Hk) Hd) as (l' & -> & Ha).
    destruct (manifestVersionToInt (index l "version")) as [n|]; [|done].
    destruct (ManifestVersionMax <? n); [done|].
    pose proof (parseV2_sound _ _ Hm) as (Hver & Hc & Hb).
    unfold parseManifestDataV2 in Hm |- *.
    destruct (manifestVersionString (index l "version")) as [s|] eqn:Es; [|done].
    destruct (negb (String.eqb s "2") && negb (String.eqb s "3")) eqn:E23; [done|].
    destruct (_ || _) eqn:Ee; [done|]. injection Hm as <-. cbn [Version CreatedAt BundleID] in *.
    destruct (reload_version _ s Es Hver) as (v' & Hv' & Hs' & n' & Hn' & Hle).
    assert (index l' "version" = v') as Hver'.
    { unfold index in *. rewrite Ha. destruct (assoc "version" l) as [v|]; [|done].
      change (default ANil (Some v)) with v in Hv'. cbn [mbind option_bind]. by rewrite Hv'. }
    rewrite Hver', Hn', Hs', E23.
    replace (ManifestVersionMax <? n') with false by (symmetry; apply Z.ltb_ge; done).
    apply (reload_string_field l l') in Hc, Hb; [|done|done].
    apply String.eqb_neq in Hc, Hb. rewrite Hc, Hb. by eexists.
Qed.

(** ** A reloaded bundle verifies *)

Lemma set_prefix_fields t r :
  Event_ (set_prefix t r) = Event_ r /\ Hash (set_prefix t r) = Hash r.
Proof.
  unfold set_prefix. destruct (String.eqb _ _); [|done]. by destruct (tracker_snapshot t) as [[? ?] ?].
Qed.

Lemma set_prefixes_fields t b lines :
  events (set_prefixes t b lines) = events b /\ hashes (set_prefixes t b lines) = hashes b.
Proof.
  revert t b. induction lines as [|l lines IH]; intros t b; [done|].
  destruct b as [|r b]; [done|]. cbn [set_prefixes].
  destruct (bool_decide _); [apply IH|]. destruct (IH (tracker_add t l) b) as [He Hh].
  destruct (set_prefix_fields t r) as [E1 E2]. unfold events, hashes in *. cbn [map].
  by rewrite E1, E2, He, Hh.
Qed.

Lemma hasManifest_events b b' :
  events b = events b' -> hasManifestRecord b = hasManifestRecord b'.
Proof. destruct b, b'; try done. cbn. by intros [= -> _]. Qed.

Lemma Verify_fields b b' :
  events b = events b' -> hashes b = hashes b' -> Verify b = Ok tt -> Verify b' = Ok tt.
Proof.
  intros He Hh. rewrite !bundle_Verify_linked, He, Hh. unfold first_seq.
  by rewrite (hasManifest_events b b' He).
Qed.

Lemma reloaded_linked s p b b' :
  Forall (fun r => canonical_ok (Event_ r) = true) b -> Forall2 reloaded b b' ->
  linked s p (events b) (hashes b) -> linked s p (events b') (hashes b').
Proof.
  intros Hok HF. revert s p. induction HF as [|r r' b b' (d & Hd & ->) _ IH]; intros s p; [done|].
  apply Forall_cons in Hok as [Hr Hok]. cbn [events hashes map linked Event_ Hash].
  intros (H1 & H2 & H3 & H4). split_and!; [done|done| |by apply IH].
  destruct (with_data_ok _ d Hr Hd) as [_ Hc]. revert H3. unfold Compute.
  change (Event.PrevHash (Event.with_data d (Event_ r))) with (Event.PrevHash (Event_ r)).
  by rewrite Hc.
Qed.

Lemma reloaded_manifest_flag b b' :
  Forall2 reloaded b b' -> hasManifestRecord b' = hasManifestRecord b.
Proof. by destruct 1 as [|r r' b b' (d & _ & ->)]. Qed.

Lemma record_ok_canonical b :
  Forall (fun r => record_ok r = true) b -> Forall (fun r => canonical_ok (Event_ r) = true) b.
Proof.
  intros H. eapply Forall_impl; [exact H|]. intros r Hr. unfold record_ok in Hr.
  by apply andb_true_iff in Hr as [[Hr _]%andb_true_iff _].
Qed.

Lemma reloaded_verifies b b' :
  Forall (fun r => record_ok r = true) b -> Forall2 reloaded b b' ->
  Verify b = Ok tt -> Verify b' = Ok tt.
Proof.
  intros Hok HF. rewrite !bundle_Verify_linked. unfold first_seq.
  rewrite (reloaded_manifest_flag b b' HF). apply reloaded_linked; [by apply record_ok_canonical|done].
Qed.

Lemma parseManifestData_event r r' : Event_ r = Event_ r' -> parseManifestData r = parseManifestData r'.
Proof. intros H. unfold parseManifestData, manifestVersionFromRecord. by rewrite H. Qed.

(** Loading what was written: the reloaded records, with the digests [Save] sets. *)
Lemma load_saved b b' ls rd limits :
  Forall (fun l => Forall printable l /\ l <> [] /\ Z.of_nat (length l) <= MaxLineSizeBytes) ls ->
  Forall2 reloaded b b' -> Forall2 (fun l r => json_parse l ≫= decode_record = Some r) ls b' ->
  r_bytes rd = mjoin (terminate <$> ls) -> r_fails rd = false -> sane_reader rd ->
  0 < MaxBytes limits -> 0 < MaxRecords limits ->
  Z.of_nat (length (r_bytes rd)) <= MaxBytes limits -> Z.of_nat (length b) <= MaxRecords limits ->
  (hasManifestRecord b = true -> exists m, ManifestE b = Ok m) ->
  (forall r, r ∈ b -> payload_ok (Event.Data (Event_ r)) = true) ->
  LoadReaderWithLimits (Some rd) limits = Ok (setSourcePrefixHashes b' (r_bytes rd)).
Proof.
  intros Hls Hb Hp Hbytes Hfail Hsane Hmb Hmr Hlen Hn Hman Hpay.
  unfold LoadReaderWithLimits, setSourcePrefixHashes. rewrite Hfail.
  replace (MaxBytes limits <=? 0) with false by (symmetry; apply Z.leb_gt; lia).
  replace (MaxRecords limits <=? 0) with false by (symmetry; apply Z.leb_gt; lia). cbn [orb].
  rewrite Hbytes, raw_lines_terminated
    by (eapply Forall_impl; [exact Hls|]; intros x (? & _ & _); by apply printable_no_newline).
  rewrite (reloaded_clear _ _ Hb). change new_tracker with (tracker_of []).
  pose proof (Forall2_length _ _ _ Hb) as Hlb. pose proof (Forall2_length _ _ _ Hp) as Hlp.
  rewrite (load_written limits _ ls b'); [|..|done|done].
  - cbn [app]. rewrite Hbytes in Hlen.
    replace (MaxBytes limits <? _) with false by (symmetry; apply Z.ltb_ge; lia).
    set (sp := set_prefixes _ _ _).
    assert (events sp = events b') as Hev by apply set_prefixes_fields.
    rewrite (hasManifest_events sp b' Hev), (reloaded_manifest_flag b b' Hb).
    destruct (hasManifestRecord b) eqn:Ehm; [|done]. specialize (Hman eq_refl).
    destruct Hb as [|r r' b b' (d & Hd & ->)]; [done|].
    destruct Hman as [m Hman]. unfold ManifestE in Hman. rewrite Ehm in Hman.
    destruct (parseManifestData r) as [m0|] eqn:Em; [|done].
    destruct sp as [|r0 sp]; [done|]. injection Hev as Hr0 _.
    destruct (reload_manifest r d m0 (Hash r) Em) as (m' & Hm' & _); [apply Hpay; left|done|].
    rewrite (parseManifestData_event r0 (mkRecord (Event.with_data d (Event_ r)) (Hash r) [] [] false)) by done.
    by rewrite Hm'.
  - intros pos H0 H1. destruct (Hsane pos) as [_ Ha]; [rewrite Hbytes; lia|]. lia.
  - lia.
  - cbn [length]. rewrite Hlp, <- Hlb. lia.
Qed.

(** ** The lock is waited for a bounded number of attempts *)

Lemma waits_progress clock deadline interval :
  0 < interval -> waits clock deadline interval ->
  forall i, deadline <= clock i \/ clock O + Z.of_nat i * interval <= clock i.
Proof.
  intros Hi Hw i. induction i as [|i IH]; [right; lia|].
  specialize (Hw i). unfold sleep_for in Hw. destruct (interval <? deadline - clock i) eqn:E; boolify; lia.
Qed.

Lemma retry_returns attempt clock cancelled deadline interval n :
  deadline <= clock n ->
  forall fuel i, (i <= n)%nat -> (n - i < fuel)%nat ->
  exists sleeps r, retry_loop fuel attempt clock cancelled deadline interval i = Some (sleeps, r) /\
    (length sleeps <= n - i)%nat /\ Forall (fun s => 0 < s \/ interval <= 0) sleeps /\
    Forall (fun s => s <= interval) sleeps.
Proof.
  intros Hn. induction fuel as [|fuel IH]; intros i Hi Hf; [lia|]. cbn [retry_loop].
  assert (forall r : retry_result, exists sleeps r0, Some ([] : list Z, r) = Some (sleeps, r0) /\
    (length sleeps <= n - i)%nat /\ Forall (fun s => 0 < s \/ interval <= 0) sleeps /\
    Forall (fun s => s <= interval) sleeps) as Hnil.
  { intros r. exists [], r. split_and!; [done|cbn; lia|constructor..]. }
  destruct (attempt i); [apply Hnil| |apply Hnil].
  destruct (deadline - clock i <=? 0) eqn:E; boolify; [apply Hnil|].
  assert (i <> n) by (intros ->; lia).
  assert ((0 < sleep_for deadline interval (clock i) \/ interval <= 0) /\
    sleep_for deadline interval (clock i) <= interval) as [Hs1 Hs2].
  { unfold sleep_for. destruct (interval <? deadline - clock i) eqn:E'; boolify; lia. }
  destruct (cancelled i).
  { exists [sleep_for deadline interval (clock i)], RCancelled.
    split_and!; [done|cbn; lia|by constructor; [|constructor]..]. }
  destruct (IH (S i)) as (sleeps & r & -> & Hl & H1 & H2); [lia|lia|].
  eexists _, r. split_and!; [done|cbn; lia|by constructor..].
Qed.

(** ** Atomic writes *)

Lemma cleanup_id (fs : files) (tmp : string) v : fs !! tmp = None -> delete tmp (<[tmp := v]> fs) = fs.
Proof. intros H. by rewrite delete_insert_eq, delete_id. Qed.

(** A state that shows the old file or the complete new one, and nothing else moved. *)
Definition old_or_new (fs : files) (tmp path : string) (new : bytes * Z) (s : files) : Prop :=
  (s !! path = fs !! path \/ s !! path = Some new) /\
  forall q, q <> path -> q <> tmp -> s !! q = fs !! q.

Lemma old_temp fs tmp path new v : tmp <> path -> old_or_new fs tmp path new (<[tmp := v]> fs).
Proof.
  intros H. split; [left; by rewrite lookup_insert_ne|]. intros q Hq Ht. by rewrite lookup_insert_ne.
Qed.

Lemma old_self fs tmp path new : old_or_new fs tmp path new fs.
Proof. split; [by left|done]. Qed.

Lemma new_renamed fs tmp path new :
  tmp <> path -> fs !! tmp = None ->
  old_or_new fs tmp path new (<[path := new]> (delete tmp (<[tmp := new]> fs))).
Proof.
  intros H Hn. rewrite cleanup_id by done. split; [right; by rewrite lookup_insert_eq|].
  intros q Hq _. by rewrite lookup_insert_ne.
Qed.

Lemma encode_loop_ok cancelled i b buf raw :
  encode_loop cancelled i b buf = Ok raw ->
  exists more, encode_records b = Some more /\ raw = buf ++ more.
Proof.
  unfold encode_records. revert i buf. induction b as [|r b IH]; intros i buf H; cbn [encode_loop] in H.
  { simplify_eq. exists []. by rewrite app_nil_r. }
  destruct (encode_record r) as [l|] eqn:El; [|done]. destruct (cancelled i); [done|].
  destruct (IH _ _ H) as (more & Hm & ->). cbn [mapM]. rewrite El.
  destruct (mapM encode_record b) as [ls|]; [|done]. injection Hm as <-.
  exists (l ++ mjoin ls). split; [done|by rewrite <- app_assoc].
Qed.

Lemma encode_loop_total b raw i buf :
  encode_records b = Some raw -> encode_loop (fun _ => false) i b buf = Ok (buf ++ raw).
Proof.
  unfold encode_records. revert raw i buf. induction b as [|r b IH]; intros raw i buf H.
  { injection H as <-. cbn. by rewrite app_nil_r. }
  cbn [mapM] in H. cbn [encode_loop]. destruct (encode_record r) as [l|]; [|done].
  destruct (mapM encode_record b) as [ls|] eqn:E; [|done]. injection H as <-.
  rewrite (IH (mjoin ls)) by done. by rewrite <- app_assoc.
Qed.

(** Every state of an atomic write. *)
Lemma writeAtomic_states fails partial tmp fs path data perm states r :
  tmp <> path -> fs !! tmp = None ->
  writeAtomic fails partial tmp fs path data perm = (states, r) ->
  let new := (data, if perm =? 0 then bundleFileMode else perm) in
  Forall (old_or_new fs tmp path new) states /\
  match r with
  | Ok _ | Err WSyncDir => final_state fs states = <[path := new]> fs
  | Err _ => fails WRemove = false -> final_state fs states = fs
  end.
Proof.
  intros Hne Hn H. unfold writeAtomic in H. cbn zeta. set (new := (data, _)) in *.
  destruct (fails WRemove) eqn:Er;
    repeat match type of H with (if fails ?s then _ else _) = _ => destruct (fails s) end;
    injection H as <- <-; split;
    repeat first [apply Forall_nil_2 | apply Forall_cons_2
                 | by apply old_temp | by apply new_renamed | rewrite cleanup_id by done
                 | apply old_self];
    unfold final_state; cbn; rewrite ?cleanup_id by done; done.
Qed.

(** What a successful load has read. *)
Lemma load_inv rd limits b :
  LoadReaderWithLimits (Some rd) limits = Ok b ->
  Forall2 reads_line (record_lines (r_bytes rd)) b /\
  Z.of_nat (length (r_bytes rd)) <= MaxBytes limits /\
  Z.of_nat (length b) <= MaxRecords limits /\
  Forall (fun l => Z.of_nat (length (strip_line l)) <= MaxLineSizeBytes) (raw_lines (r_bytes rd)).
Proof.
  unfold LoadReaderWithLimits. intros H.
  destruct ((MaxBytes limits <=? 0) || (MaxRecords limits <=? 0)) eqn:El; [done|].
  apply orb_false_iff in El as [_ El]. apply Z.leb_gt in El.
  destruct (load_lines _ _ _ _ _ _) as [rs|] eqn:E; [|done]. destruct (r_fails rd); [done|].
  destruct (MaxBytes limits <? _) eqn:Eb; [done|]. apply Z.ltb_ge in Eb.
  assert (rs = b) as -> by (destruct (hasManifestRecord rs), rs as [|r0 rs]; try congruence;
    destruct (parseManifestData r0); congruence).
  change new_tracker with (tracker_of []) in E.
  destruct (load_lines_spec _ _ _ _ _ _ _ E) as (new & Hb & HF & Hn & Hl); [cbn; lia|].
  cbn [app] in Hb. subst new. split_and!; [exact HF|done|done|done].
Qed.

(** ** Properties *)

(** C33: loading reads every record and binds signatures to the exact source bytes.
    When a load succeeds, its records are the parsed non-empty lines in order; each
    signature record carries the SHA-256 of all bytes before its line and, when those
    end in a newline after another byte, of the bytes without that newline; and the
    byte, record and line limits hold of the input. *)
Theorem Load_binds_source_prefix rd limits b :
  LoadReaderWithLimits (Some rd) limits = Ok b ->
  Forall2 reads_line (record_lines (r_bytes rd)) b /\
  Z.of_nat (length (r_bytes rd)) <= MaxBytes limits /\
  Z.of_nat (length b) <= MaxRecords limits /\
  Forall (fun l => Z.of_nat (length (strip_line l)) <= MaxLineSizeBytes) (raw_lines (r_bytes rd)).
Proof.
  intros H. destruct (load_inv rd limits b H) as (HF & Hb & Hn & Hl). by split_and!.
Qed.

(** A saved bundle loads back. For records within the line and nesting limits,
    encoding succeeds, and loading the bytes under limits they fit gives, in order, the
    same events (payloads as JSON decodes them) and hashes, with the source-prefix
    digests [Save] itself records; if the bundle verified before, it still does. *)
Theorem saved_bundle_loads b :
  Forall (fun r => record_ok r = true /\ payload_ok (Event.Data (Event_ r)) = true) b ->
  (hasManifestRecord b = true -> is_ok (ManifestE b) = true) ->
  exists raw b', encode_records b = Some raw /\ Forall2 reloaded b b' /\
    (forall rd limits, r_bytes rd = raw -> r_fails rd = false -> sane_reader rd ->
       0 < MaxBytes limits -> 0 < MaxRecords limits ->
       Z.of_nat (length raw) <= MaxBytes limits -> Z.of_nat (length b) <= MaxRecords limits ->
       LoadReaderWithLimits (Some rd) limits = Ok (setSourcePrefixHashes b' raw)) /\
    (Verify b = Ok tt -> Verify (setSourcePrefixHashes b' raw) = Ok tt).
Proof.
  intros Hok Hman.
  assert (Forall (fun r => record_ok r = true) b) as Hr
    by (eapply Forall_impl; [exact Hok|]; by intros ? [? _]).
  destruct (encode_records_lines b Hr) as (ls & b' & He & Hls & Hb & Hp).
  exists (mjoin (terminate <$> ls)), b'. split_and!; [done|done| |].
  - intros rd limits Hraw Hf Hs H1 H2 H3 H4. rewrite <- Hraw.
    apply (load_saved b b' ls rd limits); try done; [by rewrite Hraw| |].
    + intros Hm. specialize (Hman Hm). destruct (ManifestE b) as [m|]; [by exists m|done].
    + intros r Hin. rewrite Forall_forall in Hok. by apply Hok.
  - intros Hv. apply (Verify_fields b'); [symmetry..|by eapply reloaded_verifies];
      unfold setSourcePrefixHashes; rewrite (reloaded_clear b b' Hb); apply set_prefixes_fields.
Qed.

(** C14: the write is atomic. Whatever calls fail and wherever a crash interrupts it,
    every state of the file system shows the old file or the complete new one, and no
    other file changes but the temporary one. On success the new contents are in place
    and the temporary file is gone; a failure before the rename, with the temporary file
    removed, leaves the file system as it was. *)
Theorem writeAtomic_atomic fails partial tmp fs path data perm states r :
  tmp <> path -> fs !! tmp = None ->
  writeAtomic fails partial tmp fs path data perm = (states, r) ->
  let new := (data, if perm =? 0 then bundleFileMode else perm) in
  Forall (old_or_new fs tmp path new) states /\
  match r with
  | Ok _ | Err WSyncDir => final_state fs states = <[path := new]> fs
  | Err _ => fails WRemove = false -> final_state fs states = fs
  end.
Proof. apply writeAtomic_states. Qed.

(** [LoadVerified] returns only verified bundles with a manifest: its first record
    is a manifest that parses, and the records form the hash chain from 0. *)
Theorem LoadVerified_sound file b :
  LoadVerified file = Ok b ->
  exists r rest m, b = r :: rest /\ parseManifestData r = Ok m /\
    linked 0 GenesisHash (events b) (hashes b).
Proof.
  unfold LoadVerified, Load. intros H. destruct file as [rd|]; [|done].
  destruct (LoadReader (Some rd)) as [[|r rest]|] eqn:El; [done| |done].
  destruct (String.eqb_spec (Event.Type_ (Event_ r)) ManifestEventType) as [Ht|]; [|done].
  cbn [negb] in H. destruct (Verify (r :: rest)) as [[]|] eqn:Ev; [|done]. injection H as <-.
  assert (hasManifestRecord (r :: rest) = true) as Hm by (cbn; by rewrite Ht).
  apply bundle_Verify_linked in Ev. unfold first_seq in Ev. rewrite Hm in Ev.
  destruct (parseManifestData r) as [m|e] eqn:Em; [by exists r, rest, m|].
  exfalso. unfold LoadReader, LoadReaderWithLimits in El. cbn match in El.
  destruct (_ || _); [done|]. destruct (load_lines _ _ _ _ _ _) as [rs|]; [|done].
  destruct (r_fails rd); [done|]. destruct (_ <? _); [done|].
  destruct (hasManifestRecord rs) eqn:Ers; [|congruence].
  destruct rs as [|r0 rs]; [done|]. destruct (parseManifestData r0) eqn:E0; congruence.
Qed.

(** C38: waiting for the lock is bounded. Against a clock that sees each sleep pass,
    [AcquireWithRetry] returns within timeout/interval + 2 attempts, whatever other
    processes do, and never sleeps longer than the interval at a time. *)
Theorem AcquireWithRetry_terminates attempt clock cancelled start timeout interval :
  let interval' := if interval <=? 0 then DefaultLockRetryInterval else interval in
  start <= clock O -> waits clock (start + timeout) interval' ->
  forall fuel, (Z.to_nat (timeout / interval') + 2 <= fuel)%nat ->
  exists sleeps r,
    AcquireWithRetry fuel attempt clock cancelled start timeout interval = Some (sleeps, r) /\
    Forall (fun s => 0 < s <= interval') sleeps.
Proof.
  intros interval' H0 Hw fuel Hf. unfold AcquireWithRetry. fold interval'.
  assert (0 < interval') as Hi.
  { unfold interval', DefaultLockRetryInterval. destruct (interval <=? 0) eqn:E; boolify; lia. }
  destruct (timeout <=? 0) eqn:Et; [by eexists [], _|]. boolify.
  set (n := S (Z.to_nat (timeout / interval'))).
  destruct (retry_returns attempt clock cancelled (start + timeout) interval' n) with (fuel := fuel)
    (i := 0%nat) as (sleeps & r & -> & _ & H1 & H2); [|lia|unfold n; lia|].
  - destruct (waits_progress clock (start + timeout) interval' Hi Hw n) as [?|H]; [done|].
    pose proof (Z.mul_succ_div_gt timeout interval' Hi). 
    assert (Z.of_nat n = timeout / interval' + 1) as E.
    { unfold n. rewrite Nat2Z.inj_succ, Z2Nat.id by (apply Z.div_pos; lia). lia. }
    rewrite E in H. nia.
  - exists sleeps, r. split; [done|]. rewrite Forall_forall in *. intros s Hs.
    specialize (H1 s Hs). specialize (H2 s Hs). cbn in *. lia.
Qed.

(** ** Witnesses *)

Definition sample_signed : bundle :=
  Eval vm_compute in
    match Append sample_bundle TypeBundleSignature (AMap [("bundle_hash", AString "00")])
    with Ok b => b | Err _ => [] end.

Definition sample_raw : bytes :=
  Eval vm_compute in match encode_records sample_signed with Some raw => raw | None => [] end.

Definition sample_reader : reader :=
  mkReader sample_raw false (fun _ => Z.of_nat (length sample_raw)).

Definition sample_loaded : bundle :=
  Eval vm_compute in match LoadReader (Some sample_reader) with Ok b => b | Err _ => [] end.

Lemma Load_binds_source_prefix_witness :
  Forall2 reads_line (record_lines sample_raw) sample_loaded.
Proof.
  apply (Load_binds_source_prefix sample_reader (mkLimits MaxBundleSizeBytes MaxBundleRecords)).
  vm_compute. reflexivity.
Defined.

Lemma saved_bundle_loads_witness :
  exists raw b', encode_records sample_signed = Some raw /\ Forall2 reloaded sample_signed b'.
Proof.
  destruct (saved_bundle_loads sample_signed) as (raw & b' & H1 & H2 & _).
  - repeat (constructor; [split; vm_compute; reflexivity|]). constructor.
  - intros _. vm_compute. reflexivity.
  - exists raw, b'. split; [exact H1|exact H2].
Defined.

Lemma writeAtomic_atomic_witness :
  let w := writeAtomic (fun st => bool_decide (st = WRename)) 1 "b.tmp"
             (<[ "b" := ([newline], bundleFileMode) ]> ∅) "b" (B "new") 0 in
  Forall (old_or_new (<[ "b" := ([newline], bundleFileMode) ]> ∅) "b.tmp" "b" (B "new", bundleFileMode)) w.1.
Proof.
  pose proof (writeAtomic_atomic (fun st => bool_decide (st = WRename)) 1 "b.tmp"
    (<[ "b" := ([newline], bundleFileMode) ]> ∅) "b" (B "new") 0 _ _
    ltac:(discriminate) ltac:(reflexivity) eq_refl) as [H _]. exact H.
Defined.

Lemma LoadVerified_sound_witness :
  exists r rest m, sample_loaded = r :: rest /\ parseManifestData r = Ok m /\
    linked 0 GenesisHash (events sample_loaded) (hashes sample_loaded).
Proof. apply (LoadVerified_sound (Some sample_reader)). vm_compute. reflexivity. Defined.

Lemma AcquireWithRetry_terminates_witness :
  exists sleeps r,
    AcquireWithRetry 5 (fun _ => Locked) (fun i => Z.of_nat i * 1000) (fun _ => false) 0 3000 1000
      = Some (sleeps, r) /\ Forall (fun s => 0 < s <= 1000) sleeps.
Proof.
  apply (AcquireWithRetry_terminates (fun _ => Locked) (fun i => Z.of_nat i * 1000) (fun _ => false)
    0 3000 1000).
  - vm_compute. discriminate.
  - intros i. unfold sleep_for. cbn [Z.leb Z.compare].
    destruct (1000 <? 0 + 3000 - Z.of_nat i * 1000) eqn:E; boolify; lia.
  - vm_compute. repeat constructor.
Defined.
End BundleIO.
