(* ===== verification/Rooted.v ===== *)
(** * Package bundle: bundles below a directory

    [rooted.go]: bundles read and written through a directory that was opened once
    ([os.Root]). Paths are relative to it; what the operating system refuses is an argument. Theorems:
    the paths that are accepted name something below the directory, and an interrupted write leaves the
    old contents or the new ones. *)

From S2P Require Import Prelude GoText GoPath Sha256 GoFloat GoJson GoValue GoStruct GoUnicode Canonicalize Event HashChain Bundle BundleIO.
Import Canonicalize HashChain Bundle BundleIO.

Module Rooted.

(** The files below the directory, by relative path. Their mode is always [bundleFileMode]. *)
Abbreviation tree := (gmap string bytes).

(** ** Paths *)

Inductive path_error := PAbs (text : string) | PEscapes.

Section paths.
(** [filepath.Abs] of the data directory: it can fail. *)
Context (Abs : string -> result string string).

Definition RootedRelativePath (dataDir path : string) : result path_error string :=
  match Abs dataDir with
  | Err text => Err (PAbs text)
  | Ok root =>
      let path := if IsAbs path then Rel_abs root path else path in
      if negb (IsLocal path) || String.eqb (Clean path) "." then Err PEscapes else Ok (Clean path)
  end.

(** A path that the agent accepts for a bundle, absolute or not, is relative and clean, and none of its elements is empty,
    "." or "..": lexically it names something below the data directory. *)
Theorem accepted_paths_stay_below dataDir path accepted :
  RootedRelativePath dataDir path = Ok accepted ->
  exists l, l <> [] /\ Forall proper l /\ accepted = S_of (join slash l) /\ Clean accepted = accepted.
Proof.
  unfold RootedRelativePath. destruct (Abs dataDir) as [root|]; [|done]. cbv zeta.
  set (p := if IsAbs path then _ else _). destruct (IsLocal p) eqn:El; [|done]. cbn [negb orb].
  destruct (String.eqb_spec (Clean p) ".") as [|Hc]; [done|]. intros [= <-].
  destruct (IsLocal_proper p El Hc) as (Hne & Hall & ->). eexists. split_and!; [exact Hne|done|done|by apply Clean_proper].
Qed.
End paths.

(** ** The atomic write *)

Inductive stage := SMkdir | SRandom | SCreate | SWrite | SSync | SClose | SRename | SOpenDir | SSyncDir | SRemove.

#[global] Instance stage_eq_dec : EqDecision stage.
Proof. solve_decision. Defined.

(** The directory of a path, and a name in it. *)
Definition Dir (path : string) : string := Clean (S_of (join slash (take (length (split_at slash (B path)) - 1) (split_at slash (B path))))).

Definition temporary_name (path : string) (random : bytes) : string :=
  Join (Dir path) (".atb-" +:+ S_of (hex_encode random) +:+ ".tmp").

(** The states of the files one after the other, and the outcome. The temporary file is removed at the end, if that works; after
    the rename there is none. *)
Definition WriteAtomicRooted (fails : stage -> bool) (partial : nat) (random : bytes) (fs : tree) (path : string) (data : bytes) :
    list tree * result stage unit :=
  if fails SMkdir then ([], Err SMkdir)
  else if fails SRandom then ([], Err SRandom)
  else if fails SCreate then ([], Err SCreate)
  else
    let tmp := temporary_name path random in
    let cleanup (s : tree) : list tree := if fails SRemove then [] else [delete tmp s] in
    let s1 := <[tmp := []]> fs in
    let s2 := <[tmp := take partial data]> fs in
    if fails SWrite then ([s1; s2] ++ cleanup s2, Err SWrite)
    else
      let s3 := <[tmp := data]> fs in
      if fails SSync then ([s1; s2; s3] ++ cleanup s3, Err SSync)
      else if fails SClose then ([s1; s2; s3] ++ cleanup s3, Err SClose)
      else if fails SRename then ([s1; s2; s3] ++ cleanup s3, Err SRename)
      else
        let s4 := <[path := data]> (delete tmp s3) in
        let written := [s1; s2; s3; s4] in
        if fails SOpenDir then (written, Err SOpenDir)
        else if fails SSyncDir then (written, Err SSyncDir)
        else (written, Ok tt).

(** The stages after which the file has its new contents. *)
Definition renamed (s : stage) : bool := bool_decide (s ∈ [SOpenDir; SSyncDir]).

Definition final (fs : tree) (states : list tree) : tree := default fs (last states).

(** ** Load and save *)

(** [LoadRooted] opens, reads and verifies. *)
Definition LoadRooted (open_fails : bool) (fs : tree) (path : string) : result verified_error bundle :=
  LoadVerified (if open_fails then None else (fun raw => mkReader raw false (fun _ => Z.of_nat (length raw))) <$> fs !! path).

Inductive save_error := RCancelled | RMkdir | RLock | REncode | RWrite (s : stage).

Record save_env := mkEnv {
  cancelled : nat -> bool;
  mkdir_fails : bool;
  locked : bool;
  write_fails : stage -> bool;
  partial : nat;
  random : bytes
}.

(** The context is polled before each record. *)
Fixpoint encode_polled (cancelled : nat -> bool) (i : nat) (b : bundle) (buf : bytes) : result save_error bytes :=
  match b with
  | [] => Ok buf
  | r :: rest =>
      if cancelled i then Err RCancelled
      else match encode_record r with
           | None => Err REncode
           | Some line => encode_polled cancelled (S i) rest (buf ++ line)
           end
  end.

(** The files afterwards, the bundle with its digests refreshed, and the outcome. *)
Definition SaveRooted (env : save_env) (fs : tree) (path : string) (b : bundle) : (tree * bundle) * result save_error unit :=
  if cancelled env 0 then ((fs, b), Err RCancelled)
  else if mkdir_fails env then ((fs, b), Err RMkdir)
  else if locked env then ((fs, b), Err RLock)
  else
    match encode_polled (fun i => cancelled env (S i)) 0 b [] with
    | Err e => ((fs, b), Err e)
    | Ok buf =>
        let '(states, r) := WriteAtomicRooted (write_fails env) (partial env) (random env) fs path buf in
        match r with
        | Err s => ((final fs states, b), Err (RWrite s))
        | Ok _ => ((final fs states, setSourcePrefixHashes b buf), Ok tt)
        end
    end.

(** ** Old or new *)

(** The states of [path], and no other file but the temporary one is different. *)
Definition old_or_new (fs : tree) (tmp path : string) (data : bytes) (s : tree) : Prop :=
  (s !! path = fs !! path \/ s !! path = Some data) /\ forall q, q <> path -> q <> tmp -> s !! q = fs !! q.

Lemma tmp_states fs tmp path data contents : tmp <> path -> old_or_new fs tmp path data (<[tmp := contents]> fs).
Proof.
  intros Hne. split; [left; by rewrite lookup_insert_ne|]. intros q _ Hq. by rewrite lookup_insert_ne.
Qed.

Lemma tmp_cleaned fs tmp path data contents : tmp <> path -> old_or_new fs tmp path data (delete tmp (<[tmp := contents]> fs)).
Proof.
  intros Hne. split; [left; rewrite lookup_delete_ne by done; by rewrite lookup_insert_ne|].
  intros q _ Hq. rewrite lookup_delete_ne by done. by rewrite lookup_insert_ne.
Qed.

Lemma tmp_renamed fs tmp path data contents :
  tmp <> path -> old_or_new fs tmp path data (<[path := data]> (delete tmp (<[tmp := contents]> fs))).
Proof.
  intros Hne. split; [right; by rewrite lookup_insert_eq|].
  intros q Hp Hq. rewrite lookup_insert_ne, lookup_delete_ne by done. by rewrite lookup_insert_ne.
Qed.

(** The last character of a temporary name is not the one of a bundle or of a JSON file. *)
Definition last_char (s : string) : option ascii := last (B s).

Lemma write_states fails partial random fs path data :
  temporary_name path random <> path ->
  Forall (old_or_new fs (temporary_name path random) path data) (WriteAtomicRooted fails partial random fs path data).1.
Proof.
  intros Hne. unfold WriteAtomicRooted. cbv zeta. set (tmp := temporary_name path random) in *.
  destruct (fails SMkdir); [constructor|]. destruct (fails SRandom); [constructor|]. destruct (fails SCreate); [constructor|].
  destruct (fails SWrite); [|destruct (fails SSync); [|destruct (fails SClose); [|destruct (fails SRename);
    [|destruct (fails SOpenDir); [|destruct (fails SSyncDir)]]]]]; cbn [fst]; destruct (fails SRemove); cbn [app];
    repeat apply Forall_cons_2; auto using tmp_states, tmp_cleaned, tmp_renamed, Forall_nil_2.
Qed.

Lemma final_state_of (P : tree -> Prop) fs states : P fs -> Forall P states -> P (final fs states).
Proof.
  intros Hfs Hall. unfold final. destruct (last states) as [s|] eqn:E; [|done].
  rewrite Forall_forall in Hall. apply Hall. apply last_Some in E as (l & ->). apply elem_of_app. right. by left.
Qed.

(** What a write leaves in the file. *)
Lemma write_final fails partial random fs path data :
  temporary_name path random <> path ->
  let '(states, r) := WriteAtomicRooted fails partial random fs path data in
  final fs states !! path = match r with
                            | Ok _ => Some data
                            | Err s => if renamed s then Some data else fs !! path
                            end /\
  forall q, q <> path -> q <> temporary_name path random -> final fs states !! q = fs !! q.
Proof.
  intros Hne. assert (forall q, q <> path -> q <> temporary_name path random ->
    final fs (WriteAtomicRooted fails partial random fs path data).1 !! q = fs !! q) as Hother.
  { intros q Hp Hq. apply (final_state_of (fun s => s !! q = fs !! q)); [done|].
    eapply Forall_impl; [by apply write_states|]. intros s [_ Hs]. by apply Hs. }
  revert Hother. unfold WriteAtomicRooted. cbv zeta. set (tmp := temporary_name path random) in *.
  assert (forall c, <[tmp := c]> fs !! path = fs !! path) as Ht by (intros; by rewrite lookup_insert_ne).
  assert (forall c, delete tmp (<[tmp := c]> fs) !! path = fs !! path) as Hd
    by (intros; rewrite lookup_delete_ne by done; by rewrite lookup_insert_ne).
  destruct (fails SMkdir); [done|]. destruct (fails SRandom); [done|]. destruct (fails SCreate); [done|].
  destruct (fails SWrite); [|destruct (fails SSync); [|destruct (fails SClose); [|destruct (fails SRename);
    [|destruct (fails SOpenDir); [|destruct (fails SSyncDir)]]]]]; cbn [fst]; destruct (fails SRemove); cbn [app];
    intros Hother; (split; [|exact Hother]); first [by apply Ht|by apply Hd|by apply lookup_insert_eq].
Qed.

Lemma encode_polled_ok c i b buf out :
  encode_polled c i b buf = Ok out -> exists raw, encode_records b = Some raw /\ out = buf ++ raw.
Proof.
  unfold encode_records. revert i buf. induction b as [|r b IH]; intros i buf; cbn [encode_polled].
  - intros [= ->]. exists []. by rewrite app_nil_r.
  - destruct (c i); [done|]. destruct (encode_record r) as [line|] eqn:El; [|done]. intros (raw & Hraw & ->)%IH.
    exists (line ++ raw). rewrite <- app_assoc. split; [|done]. cbn [mapM]. rewrite El. cbn [mbind option_bind].
    destruct (mapM encode_record b) as [lines|]; [|done]. cbn in *. injection Hraw as <-. done.
Qed.

Ltac unchanged := split_and!; [left; by split|discriminate|done].

(** The outcome of a save: with no error the file holds the encoding; with an error it holds it too, or what it held. *)
Lemma save_final env fs path b fs' b' r :
  temporary_name path (random env) <> path ->
  SaveRooted env fs path b = ((fs', b'), r) ->
  (fs' !! path = fs !! path /\ is_ok r = false \/ exists raw, encode_records b = Some raw /\ fs' !! path = Some raw) /\
  (is_ok r = true -> exists raw, b' = setSourcePrefixHashes b raw) /\
  forall q, q <> path -> q <> temporary_name path (random env) -> fs' !! q = fs !! q.
Proof.
  intros Hne. unfold SaveRooted. destruct (cancelled env 0); [by intros [= <- <- <-]; unchanged|].
  destruct (mkdir_fails env); [by intros [= <- <- <-]; unchanged|]. destruct (locked env); [by intros [= <- <- <-]; unchanged|].
  destruct (encode_polled _ _ _ _) as [buf|] eqn:Ee; [|by intros [= <- <- <-]; unchanged].
  apply encode_polled_ok in Ee as (raw & Hraw & Hbuf). cbn [app] in Hbuf. subst buf.
  pose proof (write_final (write_fails env) (partial env) (random env) fs path raw Hne) as Hw.
  destruct (WriteAtomicRooted _ _ _ _ _ _) as [states [[]|s]]; destruct Hw as [Hp Hq]; intros [= <- <- <-].
  - split_and!; [right; by exists raw|intros _; by exists raw|exact Hq].
  - split_and!; [|done|exact Hq]. destruct (renamed s); [right; by exists raw|by left].
Qed.

(** Whatever fails and wherever a crash interrupts it, an atomic write below the directory leaves the file as it was or with
    all of its new contents, and leaves every other file but its temporary one alone. *)
Theorem rooted_write_is_atomic fails partial random fs path data :
  temporary_name path random <> path ->
  Forall (old_or_new fs (temporary_name path random) path data) (WriteAtomicRooted fails partial random fs path data).1.
Proof. exact (write_states fails partial random fs path data). Qed.

Lemma rooted_write_is_atomic_witness :
  Forall (old_or_new ∅ (temporary_name "s/b.atb" [chr 255]) "s/b.atb" (B "new"))
    (WriteAtomicRooted (fun _ => false) 1 [chr 255] ∅ "s/b.atb" (B "new")).1.
Proof. apply (rooted_write_is_atomic (fun _ => false) 1 [chr 255] ∅ "s/b.atb" (B "new")). vm_compute. discriminate. Defined.

Lemma accepted_paths_stay_below_witness :
  exists l, l <> [] /\ Forall proper l /\ "s/b.atb" = S_of (join slash l) /\ Clean "s/b.atb" = "s/b.atb".
Proof. apply (accepted_paths_stay_below (fun p => Ok ("/home/" +:+ p)) "data" "/home/data/x/../s/b.atb"). vm_compute. reflexivity. Defined.

Example rooted_paths :
  map (RootedRelativePath (fun p => Ok ("/home/" +:+ p)) "data") ["a/b.atb"; "/home/data/c.atb"; "/home/other.atb"; "../x"; "a/.."; ""] =
  [Ok "a/b.atb"; Ok "c.atb"; Err PEscapes; Err PEscapes; Err PEscapes; Err PEscapes].
Proof. vm_compute. reflexivity. Qed.

Example temporary_names : map (fun p => temporary_name p [chr 171]) ["s/x/b.atb"; "b.atb"] = ["s/x/.atb-ab.tmp"; ".atb-ab.tmp"].
Proof. vm_compute. reflexivity. Qed.
End Rooted.
