(* ===== verification/BundleSign.v ===== *)
(** * Signing: internal/bundle/sign.go, internal/sign/bundle.go and
      internal/verify/bundle_signature.go

    Appending a signature record to the bytes of a bundle, the signature record itself,
    and its verification against the source bytes a loader bound to it. The signature
    schemes are an interface ([Crypto]); signing backends are functions of the digest.
    The theorems: signing a verified bundle and loading the result verifies both the
    chain and the signature; a verified signature is a valid signature of the bytes
    before its record; the size arithmetic cannot overflow. *)

From S2P Require Import Prelude GoText Sha256 GoFloat GoJson GoValue GoStruct Canonicalize Event HashChain Bundle BundleIO.
Import Canonicalize HashChain Bundle BundleIO.

(** ** encoding/base64, standard alphabet with padding *)

Module Base64.
Definition char_of (n : Z) : ascii :=
  if n <? 26 then chr (65 + n)
  else if n <? 52 then chr (71 + n)
  else if n <? 62 then chr (n - 4)
  else if n =? 62 then "+"%char else "/"%char.

Definition value_of (c : ascii) : option Z :=
  let n := code c in
  if (65 <=? n) && (n <=? 90) then Some (n - 65)
  else if (97 <=? n) && (n <=? 122) then Some (n - 71)
  else if (48 <=? n) && (n <=? 57) then Some (n + 4)
  else if n =? 43 then Some 62
  else if n =? 47 then Some 63
  else None.

Definition pad : ascii := "="%char.

Fixpoint encode (b : bytes) : bytes :=
  match b with
  | [] => []
  | [x] =>
      let n := code x in [char_of (n / 4); char_of (n mod 4 * 16); pad; pad]
  | [x; y] =>
      let n := code x in let m := code y in
      [char_of (n / 4); char_of (n mod 4 * 16 + m / 16); char_of (m mod 16 * 4); pad]
  | x :: y :: z :: t =>
      let n := code x in let m := code y in let k := code z in
      char_of (n / 4) :: char_of (n mod 4 * 16 + m / 16) ::
      char_of (m mod 16 * 4 + k / 64) :: char_of (k mod 64) :: encode t
  end.

(** Quanta of four characters; padding only in the last. Bits beyond the last byte are
    not checked (the encoding is not strict). *)
Fixpoint decode_quanta (s : bytes) : option bytes :=
  match s with
  | [] => Some []
  | a :: b :: c :: d :: t =>
      x ← value_of a; y ← value_of b;
      if bool_decide (c = pad) then
        if bool_decide (d = pad /\ t = []) then Some [chr (x * 4 + y / 16)] else None
      else
        z ← value_of c;
        if bool_decide (d = pad) then
          if bool_decide (t = []) then Some [chr (x * 4 + y / 16); chr (y mod 16 * 16 + z / 4)]
          else None
        else
          w ← value_of d; r ← decode_quanta t;
          Some (chr (x * 4 + y / 16) :: chr (y mod 16 * 16 + z / 4) :: chr (z mod 4 * 64 + w) :: r)
  | _ => None
  end.

(** [DecodeString] skips line breaks. *)
Definition decode (s : bytes) : option bytes :=
  decode_quanta (List.filter (fun c => negb ((code c =? 10) || (code c =? 13))) s).
End Base64.

(** ** Base64 reads back *)

Module Base64Facts.
Import Base64.

Lemma value_char n : 0 <= n < 64 -> value_of (char_of n) = Some n.
Proof.
  intros Hn. unfold value_of, char_of.
  destruct (n <? 26) eqn:E1; boolify.
  { rewrite code_chr by lia. replace ((65 <=? 65 + n) && (65 + n <=? 90)) with true by lia. f_equal. lia. }
  destruct (n <? 52) eqn:E2; boolify.
  { rewrite code_chr by lia. replace ((65 <=? 71 + n) && (71 + n <=? 90)) with false by lia.
    replace ((97 <=? 71 + n) && (71 + n <=? 122)) with true by lia. f_equal. lia. }
  destruct (n <? 62) eqn:E3; boolify.
  { rewrite code_chr by lia. replace ((65 <=? n - 4) && (n - 4 <=? 90)) with false by lia.
    replace ((97 <=? n - 4) && (n - 4 <=? 122)) with false by lia.
    replace ((48 <=? n - 4) && (n - 4 <=? 57)) with true by lia. f_equal. lia. }
  destruct (n =? 62) eqn:E4; boolify; [by subst|]. assert (n = 63) as -> by lia. done.
Qed.

Lemma char_visible n : 0 <= n < 64 -> visible (char_of n) /\ char_of n <> pad.
Proof.
  intros Hn. split.
  - unfold visible, char_of. destruct (n <? 26) eqn:E1; boolify; [rewrite code_chr; lia|].
    destruct (n <? 52) eqn:E2; boolify; [rewrite code_chr; lia|].
    destruct (n <? 62) eqn:E3; boolify; [rewrite code_chr; lia|].
    destruct (n =? 62); vm_compute; split; congruence.
  - intros H. apply (f_equal value_of) in H. rewrite value_char in H by done. done.
Qed.

Ltac byte_bounds :=
  repeat match goal with
  | c : ascii |- _ =>
      lazymatch goal with
      | H : 0 <= code c < 256 |- _ => fail
      | _ => pose proof (code_range c)
      end
  end;
  repeat match goal with
  | c : ascii |- _ =>
      lazymatch goal with
      | H : code c = 4 * (code c / 4) + code c mod 4 |- _ => fail
      | _ =>
          pose proof (Z.div_mod (code c) 4 ltac:(lia)); pose proof (Z.mod_pos_bound (code c) 4 ltac:(lia));
          pose proof (Z.div_mod (code c) 16 ltac:(lia)); pose proof (Z.mod_pos_bound (code c) 16 ltac:(lia));
          pose proof (Z.div_mod (code c) 64 ltac:(lia)); pose proof (Z.mod_pos_bound (code c) 64 ltac:(lia))
      end
  end.

Lemma join2 a q : 0 <= q < 16 -> (a * 16 + q) / 16 = a /\ (a * 16 + q) mod 16 = q.
Proof.
  intros Hq. split; [rewrite Z.div_add_l by lia; rewrite Z.div_small by lia; lia|].
  rewrite Z.add_comm, Z.mod_add by lia. by apply Z.mod_small.
Qed.

Lemma join4 a q : 0 <= q < 4 -> (a * 4 + q) / 4 = a /\ (a * 4 + q) mod 4 = q.
Proof.
  intros Hq. split; [rewrite Z.div_add_l by lia; rewrite Z.div_small by lia; lia|].
  rewrite Z.add_comm, Z.mod_add by lia. by apply Z.mod_small.
Qed.

Lemma chr_of c n : code c = n -> chr n = c.
Proof. intros <-. apply chr_code. Qed.

Lemma triples_ind (P : bytes -> Prop) :
  P [] -> (forall x, P [x]) -> (forall x y, P [x; y]) ->
  (forall x y z t, P t -> P (x :: y :: z :: t)) -> forall b, P b.
Proof.
  intros H0 H1 H2 H3. fix go 1. intros [|x [|y [|z t]]]; [exact H0|apply H1|apply H2|apply H3, go].
Qed.

Lemma decode_encode_quanta b : decode_quanta (encode b) = Some b.
Proof.
  induction b as [| x | x y | x y z t IH] using triples_ind.
  - done.
  - cbn [encode decode_quanta]. byte_bounds. rewrite !value_char by lia. cbn [mbind option_bind].
    rewrite !bool_decide_true by done. do 2 f_equal. apply chr_of.
    rewrite Z.div_mul by lia. lia.
  - cbn [encode decode_quanta]. byte_bounds. rewrite !value_char by lia. cbn [mbind option_bind].
    rewrite bool_decide_false by (apply char_visible; lia).
    rewrite !bool_decide_true by done.
    destruct (join2 (code x mod 4) (code y / 16)) as [-> ->]; [lia|].
    rewrite Z.div_mul by lia. do 2 f_equal; [apply chr_of; lia|]. f_equal. apply chr_of. lia.
  - cbn [encode decode_quanta]. byte_bounds. rewrite !value_char by lia. cbn [mbind option_bind].
    rewrite !bool_decide_false by (apply char_visible; lia). rewrite IH.
    destruct (join2 (code x mod 4) (code y / 16)) as [-> ->]; [lia|].
    destruct (join4 (code y mod 16) (code z / 64)) as [-> ->]; [lia|]. cbn [mbind option_bind].
    f_equal. f_equal; [apply chr_of; lia|]. f_equal; [apply chr_of; lia|].
    f_equal. apply chr_of. lia.
Qed.

Lemma encode_visible b : Forall visible (encode b).
Proof.
  induction b as [| x | x y | x y z t IH] using triples_ind; cbn [encode]; byte_bounds;
    repeat (constructor; [first [apply char_visible; lia|vm_compute; split; congruence]|]); done.
Qed.
End Base64Facts.

(** ** The signature schemes *)

(** What [crypto/x509] makes of a PKIX public key. *)
Inductive pkix_key := PkixECDSA (p256 : bool) (key : bytes) | PkixOther.

Class Crypto := {
  ed25519_Verify : bytes -> bytes -> bytes -> bool;
  ParsePKIXPublicKey : bytes -> option pkix_key;
  ParseUncompressedPublicKey : bytes -> option bytes;
  ecdsa_VerifyASN1 : bytes -> bytes -> bytes -> bool
}.

Module BundleSign.
Import Base64Facts.

(** ** internal/sign: the signature record *)

Record BundleSignature := mkSignature {
  BundleHash : string;
  Signature : string;
  PublicKey : string;
  Algorithm : string;
  KeyID : string;
  Backend : string;
  SignedAt : string
}.

(** [time.Now] when the caller gives no time. *)
Definition NewBundleSignatureRecord (nowNano : string) (bundleHash publicKey signature : bytes)
    (keyID backend algorithm signedAt : string) : list (string * string) :=
  let algorithm := if String.eqb algorithm "" then "ed25519" else algorithm in
  let backend := if String.eqb backend "" then "local" else backend in
  let signedAt := if String.eqb signedAt "" then nowNano else signedAt in
  [("bundle_hash", S_of (hex_encode bundleHash));
   ("signature", S_of (Base64.encode signature));
   ("pubkey", S_of (Base64.encode publicKey));
   ("algorithm", algorithm);
   ("backend", backend);
   ("signed_at", signedAt)] ++ (if String.eqb keyID "" then [] else [("key_id", keyID)]).

Definition bundleSignatureField (fields : list (string * any)) (key : string) : string :=
  match assoc key fields with
  | Some (AString text) => TrimSpace text
  | _ => ""
  end.

(** [strings.ToLower] on the letters the supported algorithm names have. *)
Definition ToLower (s : string) : string :=
  S_of (map (fun c => if (65 <=? code c) && (code c <=? 90) then chr (code c + 32) else c) (B s)).

Definition bundleSignatureAlgorithm (fields : list (string * any)) : string :=
  let algorithm := bundleSignatureField fields "algorithm" in
  if String.eqb algorithm "" then "ed25519" else ToLower algorithm.

Inductive signature_error :=
| SigNotObject | SigHashAbsent | SigSignatureAbsent | SigKeyAbsent
| SigExpectedLength | SigHashHex | SigHashLength | SigHashMismatch
| SigDecodeSignature | SigDecodeKey | SigEdSignatureLength | SigEdKeyLength | SigEdMismatch
| SigKeyNotECDSA | SigKeyNotP256 | SigKeyBadPoint | SigKeyForm | SigECMismatch
| SigUnsupported (algorithm : string) | SigSourceUnavailable.

(** [errors.Is(err, ErrTamper)]: only signature mismatches. *)
Definition signature_tamper (e : signature_error) : bool :=
  match e with SigEdMismatch | SigECMismatch => true | _ => false end.

Definition ParseBundleSignature (data : any) : result signature_error BundleSignature :=
  match data with
  | AMap fields =>
      let bundleHash := bundleSignatureField fields "bundle_hash" in
      if String.eqb bundleHash "" then Err SigHashAbsent
      else
        let signature := bundleSignatureField fields "signature" in
        if String.eqb signature "" then Err SigSignatureAbsent
        else
          let publicKey :=
            let pk := bundleSignatureField fields "pubkey" in
            if String.eqb pk "" then bundleSignatureField fields "public_key" else pk in
          if String.eqb publicKey "" then Err SigKeyAbsent
          else Ok (mkSignature bundleHash signature publicKey (bundleSignatureAlgorithm fields)
                     (bundleSignatureField fields "key_id") (bundleSignatureField fields "backend")
                     (bundleSignatureField fields "signed_at"))
  | _ => Err SigNotObject
  end.

Section verify.
Context `{Crypto}.

Definition parseECDSAP256PublicKey (raw : bytes) : result signature_error bytes :=
  match ParsePKIXPublicKey raw with
  | Some (PkixECDSA p256 key) => if p256 then Ok key else Err SigKeyNotP256
  | Some PkixOther => Err SigKeyNotECDSA
  | None =>
      match raw with
      | c :: _ =>
          if (length raw =? 65)%nat && (code c =? 4) then
            match ParseUncompressedPublicKey raw with
            | None => Err SigKeyBadPoint
            | Some key => Ok key
            end
          else Err SigKeyForm
      | [] => Err SigKeyForm
      end
  end.

Definition VerifyBundleSignature (signature : BundleSignature) (expected : bytes) :
    result signature_error unit :=
  if negb (length expected =? 32)%nat then Err SigExpectedLength
  else
    match hex_decode (B (TrimSpace (BundleHash signature))) with
    | None => Err SigHashHex
    | Some storedHash =>
        if negb (length storedHash =? 32)%nat then Err SigHashLength
        else if negb (bool_decide (storedHash = expected)) then Err SigHashMismatch
        else
          let algo := if String.eqb (Algorithm signature) "" then "ed25519" else Algorithm signature in
          match Base64.decode (B (TrimSpace (Signature signature))) with
          | None => Err SigDecodeSignature
          | Some rawSignature =>
              match Base64.decode (B (TrimSpace (PublicKey signature))) with
              | None => Err SigDecodeKey
              | Some rawPublicKey =>
                  if String.eqb algo "ed25519" then
                    if negb (length rawSignature =? 64)%nat then Err SigEdSignatureLength
                    else if negb (length rawPublicKey =? 32)%nat then Err SigEdKeyLength
                    else if ed25519_Verify rawPublicKey storedHash rawSignature then Ok tt
                    else Err SigEdMismatch
                  else if String.eqb algo "ecdsa-p256" then
                    match parseECDSAP256PublicKey rawPublicKey with
                    | Err e => Err e
                    | Ok pub =>
                        if ecdsa_VerifyASN1 pub storedHash rawSignature then Ok tt
                        else Err SigECMismatch
                    end
                  else Err (SigUnsupported algo)
              end
          end
    end.

(** ** internal/verify: signatures of a loaded bundle *)

(** [strings.EqualFold] against a hexadecimal text. *)
Definition EqualFold (a b : string) : bool := bool_decide (fold_name a = fold_name b).

Definition hashBundleSnapshotBeforeRecord (record : Record_) (signedHash : string) :
    result signature_error bytes :=
  if negb (length (sourcePrefixHash record) =? 32)%nat then Err SigSourceUnavailable
  else if sourcePrefixWithoutLFPresent record &&
          (length (sourcePrefixWithoutLFHash record) =? 32)%nat &&
          EqualFold (TrimSpace signedHash) (S_of (hex_encode (sourcePrefixWithoutLFHash record)))
  then Ok (sourcePrefixWithoutLFHash record)
  else Ok (sourcePrefixHash record).

Fixpoint latest_signature (i : Z) (records : bundle) : Z :=
  match records with
  | [] => -1
  | r :: rest =>
      let later := latest_signature (i + 1) rest in
      if 0 <=? later then later
      else if String.eqb (Event.Type_ (Event_ r)) TypeBundleSignature then i else -1
  end.

Definition latestBundleSignatureIndex (records : bundle) : Z := latest_signature 0 records.

Record BundleSignatureResult := mkResult {
  Present : bool;
  Verified : bool;
  ResultHash : string;
  Error : option signature_error
}.

Definition inspectBundleSignature (b : bundle) : option BundleSignatureResult :=
  let i := latestBundleSignatureIndex b in
  if i <? 0 then None
  else
    record ← b !! Z.to_nat i;
    Some match ParseBundleSignature (Event.Data (Event_ record)) with
         | Err e => mkResult true false "" (Some e)
         | Ok signature =>
             match hashBundleSnapshotBeforeRecord record (BundleHash signature) with
             | Err e => mkResult true false (BundleHash signature) (Some e)
             | Ok expected =>
                 match VerifyBundleSignature signature expected with
                 | Err e => mkResult true false (BundleHash signature) (Some e)
                 | Ok _ => mkResult true true (BundleHash signature) None
                 end
             end
         end.

Definition stringField (fields : list (string * any)) (key : string) : string :=
  match assoc key fields with Some (AString s) => s | _ => "" end.

Record SignatureProvenance := mkProvenance {
  prov_Sequence : Z;
  prov_Backend : string;
  prov_KeyID : string;
  prov_SignedAt : string;
  prov_PubKey : string;
  prov_BundleHash : string;
  prov_Valid : bool;
  prov_Error : option signature_error
}.

Definition buildSignatureProvenance (record : Record_) : SignatureProvenance :=
  let seq := Event.Sequence (Event_ record) in
  match Event.Data (Event_ record) with
  | AMap fields =>
      let backend := stringField fields "backend" in
      let backend := if String.eqb backend "" then "local" else backend in
      let keyID := stringField fields "key_id" in
      let signedAt := stringField fields "signed_at" in
      let pubKey := stringField fields "pubkey" in
      let pubKey := if String.eqb pubKey "" then stringField fields "public_key" else pubKey in
      match ParseBundleSignature (Event.Data (Event_ record)) with
      | Err e => mkProvenance seq backend keyID signedAt pubKey "" false (Some e)
      | Ok signature =>
          match hashBundleSnapshotBeforeRecord record (BundleHash signature) with
          | Err e => mkProvenance seq backend keyID signedAt pubKey (BundleHash signature) false (Some e)
          | Ok expected =>
              match VerifyBundleSignature signature expected with
              | Err e => mkProvenance seq backend keyID signedAt pubKey (BundleHash signature) false (Some e)
              | Ok _ => mkProvenance seq backend keyID signedAt pubKey (BundleHash signature) true None
              end
          end
      end
  | _ => mkProvenance seq "local" "" "" "" "" false (Some SigNotObject)
  end.

Definition inspectAllBundleSignatures (b : bundle) : list SignatureProvenance :=
  map buildSignatureProvenance
    (List.filter (fun r => String.eqb (Event.Type_ (Event_ r)) TypeBundleSignature) b).
End verify.

(** ** internal/bundle/sign.go: appending a signature *)

Definition MaxInt : Z := 9223372036854775807.
Definition MaxInt64 : Z := 9223372036854775807.

Inductive sign_error :=
| GNilSigner | GCancelled | GOpen | GRead | GReadLimit | GInputTooLarge | GClose
| GLoad (e : load_error) | GVerify (f : verify_failure)
| GSigner | GEmptySignature | GKeyLength | GAlgorithm (a : string)
| GAppend (e : append_error) | GEncode | GCapacity | GOutputLimit | GOutputTooLarge
| GMkdir | GWrite (st : write_stage) | GLocked (locked : bool) | GRelease.

Definition sign_resource_limit (e : sign_error) : bool :=
  match e with
  | GReadLimit | GInputTooLarge | GCapacity | GOutputLimit | GOutputTooLarge => true
  | GLoad e => bool_decide (load_sentinel e = Some ErrResourceLimit)
  | _ => false
  end.

(** [io.ReadAll] of a [LimitReader] of [maxBytes+1] bytes: the source's error is only
    seen when the source ends before the limit. *)
Definition readSigningInput (content : bytes) (fails : bool) (maxBytes : Z) : result sign_error bytes :=
  if (maxBytes <=? 0) || (maxBytes =? MaxInt64) then Err GReadLimit
  else
    let raw := take_Z (maxBytes + 1) content in
    if fails && (Z.of_nat (length content) <=? maxBytes) then Err GRead
    else if maxBytes <? Z.of_nat (length raw) then Err GInputTooLarge
    else Ok raw.

Definition signedPayloadCapacity (rawSize recordSize : Z) : result sign_error Z :=
  if (rawSize <? 0) || (recordSize <? 0) || (wrap64 (MaxInt - 2) <? rawSize) then Err GCapacity
  else if wrap64 (wrap64 (MaxInt - 2) - rawSize) <? recordSize then Err GCapacity
  else Ok (wrap64 (wrap64 (rawSize + recordSize) + 2)).

Definition signedPayloadMetrics (rawSize recordSize : Z) (needsSeparator : bool) :
    result sign_error (Z * Z) :=
  let? capacity := signedPayloadCapacity rawSize recordSize in
  let outputSize := if needsSeparator && (0 <? rawSize) then capacity else wrap64 (capacity - 1) in
  Ok (outputSize, capacity).

(** Everything outside the bytes: the file system calls and the clock. *)
Record sign_env := mkSignEnv {
  se_cancelled : bool;
  se_mode : option Z;
  se_close_fails : bool;
  se_now : string;
  se_now_nano : string;
  se_mkdir_fails : bool;
  se_fails : write_stage -> bool;
  se_partial : nat;
  se_tmp : string
}.

(** The bytes [appendSignedRecord] writes. *)
Definition needs_separator (rawBundle : bytes) : bool :=
  negb (bool_decide (rawBundle = [])) && negb (bool_decide (last rawBundle = Some newline)).

Definition signed_payload (rawBundle encodedRecord : bytes) : bytes :=
  rawBundle ++ (if needs_separator rawBundle then [newline] else []) ++ encodedRecord ++ [newline].

Definition appendSignedRecord (env : sign_env) (fs : files) (outputPath : string)
    (rawBundle : bytes) (record : Record_) (outputMode maxBytes : Z) :
    list files * result sign_error bytes :=
  match GoValue.Marshal (AStruct (record_fields record)) with
  | None => ([], Err GEncode)
  | Some encodedRecord =>
      match signedPayloadMetrics (Z.of_nat (length rawBundle)) (Z.of_nat (length encodedRecord))
              (needs_separator rawBundle) with
      | Err e => ([], Err e)
      | Ok (outputSize, capacity) =>
          if maxBytes <=? 0 then ([], Err GOutputLimit)
          else if maxBytes <? outputSize then ([], Err GOutputTooLarge)
          else
            let payload := signed_payload rawBundle encodedRecord in
            if se_mkdir_fails env then ([], Err GMkdir)
            else
              let '(states, r) := writeAtomic (se_fails env) (se_partial env) (se_tmp env) fs
                                    outputPath payload outputMode in
              (states, match r with Err st => Err (GWrite st) | Ok _ => Ok payload end)
      end
  end.

(** What a backend returns for a digest. *)
Record signed := mkSigned {
  s_signature : bytes;
  s_pubKey : bytes;
  s_keyID : string;
  s_backend : string;
  s_algorithm : string
}.

(** The interface [signer.Signer]: a function of the digest. *)
Abbreviation signer := (bytes -> option signed).

(** The algorithm switch: the name recorded, or an error. *)
Definition check_signed (s : signed) : result sign_error string :=
  if (length (s_signature s) =? 0)%nat then Err GEmptySignature
  else if String.eqb (s_algorithm s) "" || String.eqb (s_algorithm s) "ed25519" then
    if negb (length (s_pubKey s) =? 32)%nat then Err GKeyLength else Ok "ed25519"
  else if String.eqb (s_algorithm s) "ecdsa-p256" then
    if negb (length (s_pubKey s) =? 65)%nat then Err GKeyLength else Ok "ecdsa-p256"
  else Err (GAlgorithm (s_algorithm s)).

(** [bytes.NewReader]: everything is available from the start. *)
Definition bytes_reader (b : bytes) : reader := mkReader b false (fun _ => Z.of_nat (length b)).

(** [signToWithSignerLimited]: the bytes written come back with the hex digest. *)
Definition signToWithSignerLimited (env : sign_env) (file : option (bytes * bool)) (same_path : bool)
    (s : signer) (maxBytes : Z) (fs : files) (outputPath : string) :
    list files * result sign_error (string * bytes) :=
  match file with
  | None => ([], Err GOpen)
  | Some (content, read_fails) =>
      match readSigningInput content read_fails maxBytes with
      | Err e => ([], Err e)
      | Ok rawBundle =>
          if se_cancelled env then ([], Err GCancelled)
          else
            let sourceMode := default bundleFileMode (se_mode env) in
            if se_close_fails env then ([], Err GClose)
            else
              match LoadReader (Some (bytes_reader rawBundle)) with
              | Err e => ([], Err (GLoad e))
              | Ok b =>
                  match Verify b with
                  | Err f => ([], Err (GVerify f))
                  | Ok _ =>
                      let digest := Sha256.sum256 rawBundle in
                      match s digest with
                      | None => ([], Err GSigner)
                      | Some sg =>
                          match check_signed sg with
                          | Err e => ([], Err e)
                          | Ok algorithm =>
                              let record := NewBundleSignatureRecord (se_now_nano env) digest
                                (s_pubKey sg) (s_signature sg) (s_keyID sg) (s_backend sg)
                                algorithm (se_now env) in
                              match AppendWithOptions b TypeBundleSignature (AStringMap record)
                                      (Some (no_options (se_now env))) with
                              | Err e => ([], Err (GAppend e))
                              | Ok b' =>
                                  match last b' with
                                  | None => ([], Err GEncode)
                                  | Some signedRecord =>
                                      let outputMode := if same_path then sourceMode else bundleFileMode in
                                      let '(states, r) := appendSignedRecord env fs outputPath rawBundle
                                                            signedRecord outputMode maxBytes in
                                      (states, match r with
                                               | Err e => Err e
                                               | Ok payload => Ok (S_of (hex_encode digest), payload)
                                               end)
                                  end
                              end
                          end
                      end
                  end
              end
      end
  end.

(** [LocalSigner.Sign]: an Ed25519 key of the right size signs the digest verbatim. *)
Definition LocalSigner_Sign (ed25519_Sign : bytes -> bytes -> bytes) (public : bytes -> bytes)
    (privateKey : bytes) : signer :=
  fun digest =>
    if negb (length privateKey =? 64)%nat then None
    else Some (mkSigned (ed25519_Sign privateKey digest) (public privateKey) "" "" "ed25519").

(** [SignToWithSignerRetry] around the lock: fail-fast, or the bounded retry. *)
Definition SignToWithSignerRetry (nil_signer cancelled : bool) (lockWait : Z) (lock : lock_outcome)
    (retry : retry_result) (release_fails : bool)
    (body : list files * result sign_error (string * bytes)) :
    list files * result sign_error (string * bytes) :=
  if nil_signer then ([], Err GNilSigner)
  else if cancelled then ([], Err GCancelled)
  else if lockWait <=? 0 then
    match lock with
    | Locked => ([], Err (GLocked true))
    | LockFailed => ([], Err (GLocked false))
    | Acquired =>
        match body.2 with
        | Err e => (body.1, Err e)
        | Ok v => (body.1, if release_fails then Err GRelease else Ok v)
        end
    end
  else
    match retry with
    | RAcquired => body
    | RLocked => ([], Err (GLocked true))
    | RFailed => ([], Err (GLocked false))
    | RCancelled => ([], Err GCancelled)
    end.

Lemma base64_roundtrip b : Base64.decode (Base64.encode b) = Some b.
Proof.
  unfold Base64.decode.
  replace (List.filter _ (Base64.encode b)) with (Base64.encode b); [apply decode_encode_quanta|].
  generalize (encode_visible b). generalize (Base64.encode b). clear b.
  induction 1 as [|c l [Hc _] _ IH]; [done|]. cbn [List.filter].
  replace (code c =? 10) with false by lia. replace (code c =? 13) with false by lia.
  cbn [orb negb]. by rewrite <- IH.
Qed.

(** ** String maps encode like maps of strings *)

Definition any_map (l : list (string * string)) : list (string * any) :=
  map (fun kv => (kv.1, AString kv.2)) l.

Lemma to_json_string_map l : to_json (AStringMap l) = to_json (AMap (any_map l)).
Proof.
  cbn [to_json]. unfold any_map.
  replace (mapM (fun kv => pair kv.1 <$> to_json kv.2) (map (fun kv => (kv.1, AString kv.2)) l))
    with (Some (map (fun kv => (kv.1, JStr kv.2)) l)); [done|].
  induction l as [|[k v] l IH]; [done|]. cbn [map mapM fst snd]. by rewrite <- IH.
Qed.

Lemma redecode_string_map l : redecode (AStringMap l) = redecode (AMap (any_map l)).
Proof. unfold redecode. by rewrite to_json_string_map. Qed.

Lemma assoc_any_map k l : assoc k (any_map l) = AString <$> assoc k l.
Proof. induction l as [|[k1 v] l IH]; [done|]. cbn. by destruct (String.eqb k k1). Qed.

Lemma mapM_any_map l :
  mapM (fun kv => pair kv.1 <$> redecode kv.2) (any_map l) =
  Some (map (fun kv => (kv.1, AString (coerce_string kv.2))) l).
Proof.
  unfold any_map. induction l as [|[k v] l IH]; [done|]. cbn [map mapM fst snd]. by rewrite IH.
Qed.

Lemma keys_any_map {V} (f : string -> V) (l : list (string * string)) :
  (map (fun kv => (kv.1, f kv.2)) l).*1 = l.*1.
Proof. induction l as [|[k v] l IH]; [done|]. cbn. by rewrite IH. Qed.

Lemma string_map_stringy l : keyed l -> stringy 1 (AStringMap l).
Proof.
  intros [Hn Hv]. destruct (redecode_map (any_map l) _ ltac:(unfold any_map; by rewrite keys_any_map)
    ltac:(unfold any_map; rewrite keys_any_map; eapply Forall_impl; [exact Hv|]; apply coerce_string_valid)
    (mapM_any_map l)) as (m & Hr & Hp).
  rewrite <- redecode_string_map in Hr. unfold redecode in Hr.
  destruct (to_json (AStringMap l)) as [j|] eqn:Ej; [|done]. cbn [mbind option_bind] in Hr.
  exists j, (AMap m). split_and!; [done| |done|].
  - cbn [to_json] in Ej. injection Ej as <-. cbn [json_depth]. apply le_n_S, max_list_Forall.
    apply Forall_fmap. rewrite insertion_sort_perm. apply Forall_fmap, Forall_true.
    intros [k v]. cbn. lia.
  - cbn [floats_ok]. apply forallb_Forall_iff. rewrite Hp. by apply Forall_fmap, Forall_true.
Qed.

(** ** Lines of an extended input *)

Lemma split_lines p :
  exists ls tail, Forall (fun l => newline ∉ l) ls /\ (newline ∉ tail) /\
    p = mjoin (terminate <$> ls) ++ tail.
Proof.
  induction p as [|c p (ls & tail & Hls & Ht & ->)].
  { exists [], []. split_and!; [constructor|by intros ?%elem_of_nil|done]. }
  destruct (decide (c = newline)) as [->|Hc].
  - exists ([] :: ls), tail. split_and!; [|done|done]. constructor; [by intros ?%elem_of_nil|done].
  - destruct ls as [|l ls].
    + exists [], (c :: tail). split_and!; [constructor| |done].
      by rewrite not_elem_of_cons.
    + apply Forall_cons in Hls as [Hl Hls]. exists ((c :: l) :: ls), tail.
      split_and!; [|done|done]. constructor; [by rewrite not_elem_of_cons|done].
Qed.

Definition tail_line (tail : bytes) : list bytes := if bool_decide (tail = []) then [] else [tail].

Lemma index_byte_None c l : c ∉ l -> index_byte c l = None.
Proof.
  induction l as [|x l IH]; [done|]. rewrite not_elem_of_cons. intros [Hx Hl]. cbn.
  rewrite bool_decide_false by congruence. by rewrite IH.
Qed.

Lemma raw_lines_split ls tail :
  Forall (fun l => newline ∉ l) ls -> newline ∉ tail ->
  raw_lines (mjoin (terminate <$> ls) ++ tail) = (terminate <$> ls) ++ tail_line tail.
Proof.
  intros H Ht. unfold raw_lines.
  enough (forall fuel, (length (mjoin (terminate <$> ls) ++ tail) <= fuel)%nat ->
    raw_lines_fuel fuel (mjoin (terminate <$> ls) ++ tail) = (terminate <$> ls) ++ tail_line tail)
    as Hf by (by apply Hf).
  induction H as [|l ls Hl _ IH]; intros fuel Hf.
  { unfold tail_line. destruct tail as [|c tail].
    { rewrite bool_decide_true by done. by destruct fuel. }
    rewrite bool_decide_false by done. destruct fuel as [|fuel]; [cbn in Hf; lia|].
    change (mjoin (terminate <$> []) ++ c :: tail) with (c :: tail). cbn [raw_lines_fuel]. unfold scanRawLines.
    rewrite index_byte_None by done. cbn [andb]. rewrite bool_decide_false by done. cbn [negb].
    by destruct fuel. }
  rewrite mjoin_fmap_cons in Hf |- *. rewrite fmap_cons.
  replace ((terminate l ++ mjoin (terminate <$> ls)) ++ tail)
    with (l ++ newline :: mjoin (terminate <$> ls) ++ tail) in Hf |- *
    by (unfold terminate; by rewrite <- !app_assoc).
  rewrite length_app in Hf. cbn [length] in Hf.
  destruct fuel as [|fuel]; [lia|]. cbn [raw_lines_fuel]. rewrite scanRawLines_line by done.
  rewrite IH by lia. done.
Qed.

(** ** Loading in two parts *)

Lemma load_lines_app limits ahead pos p records l1 l2 :
  load_lines limits ahead pos (tracker_of p) records (l1 ++ l2) =
  match load_lines limits ahead pos (tracker_of p) records l1 with
  | Err e => Err e
  | Ok rs => load_lines limits ahead (pos + Z.of_nat (length (mjoin l1))) (tracker_of (p ++ mjoin l1)) rs l2
  end.
Proof.
  revert pos p records. induction l1 as [|l l1 IH]; intros pos p records.
  { cbn. by rewrite app_nil_r, Z.add_0_r. }
  cbn [app load_lines]. destruct (token_too_long l); [done|]. destruct (_ <? ahead _); [done|].
  destruct (MaxLineSizeBytes <? _); [done|].
  assert (forall rs, load_lines limits ahead (pos + Z.of_nat (length l)) (tracker_of (p ++ l)) rs (l1 ++ l2) =
    match load_lines limits ahead (pos + Z.of_nat (length l)) (tracker_of (p ++ l)) rs l1 with
    | Err e => Err e
    | Ok rs0 => load_lines limits ahead (pos + Z.of_nat (length (mjoin (l :: l1))))
        (tracker_of (p ++ mjoin (l :: l1))) rs0 l2
    end) as Hr.
  { intros rs. rewrite IH. change (mjoin (l :: l1)) with (l ++ mjoin l1).
    rewrite length_app, app_assoc.
    by replace (pos + Z.of_nat (length l) + Z.of_nat (length (mjoin l1)))
      with (pos + Z.of_nat (length l + length (mjoin l1))) by lia. }
  rewrite tracker_add_app.
  destruct (bool_decide _); [apply Hr|]. destruct (_ <=? _); [done|].
  destruct (_ ≫= _); [|done]. apply Hr.
Qed.

(** Where the reader is does not matter while it is below the limit. *)
Lemma load_lines_ahead limits a a' pos pos' t records lines :
  (forall x, a x <= MaxBytes limits) -> (forall x, a' x <= MaxBytes limits) ->
  load_lines limits a pos t records lines = load_lines limits a' pos' t records lines.
Proof.
  intros Ha Ha'. revert pos pos' t records. induction lines as [|l lines IH]; intros pos pos' t records; [done|].
  cbn [load_lines]. destruct (token_too_long l); [done|].
  replace (MaxBytes limits <? a _) with false by (symmetry; apply Z.ltb_ge, Ha).
  replace (MaxBytes limits <? a' _) with false by (symmetry; apply Z.ltb_ge, Ha').
  destruct (MaxLineSizeBytes <? _); [done|]. destruct (bool_decide _); [apply IH|].
  destruct (_ <=? _); [done|]. destruct (_ ≫= _); [apply IH|done].
Qed.

(** Terminating the last line does not change what is read from it. *)
Lemma last_unterminated tail : tail <> [] -> newline ∉ tail -> last tail <> Some newline.
Proof. intros _ H Hl. apply H. by apply last_Some_elem_of. Qed.

Lemma strip_terminate tail : newline ∉ tail -> strip_line (terminate tail) = strip_line tail.
Proof.
  intros H. unfold strip_line. f_equal. unfold strip_last at 1, terminate.
  rewrite last_snoc, bool_decide_true, removelast_last by done.
  unfold strip_last. rewrite bool_decide_false; [done|]. intros Hl. apply H. by apply last_Some_elem_of.
Qed.

Lemma token_terminate tail :
  newline ∉ tail -> token_too_long (terminate tail) = token_too_long tail.
Proof.
  intros H. unfold token_too_long, scan_too_long, terminate. rewrite last_snoc, bool_decide_true by done.
  rewrite bool_decide_false by (intros Hl; apply H; by apply last_Some_elem_of).
  rewrite length_app. cbn [length].
  destruct (MaxLineSizeBytes + 2 <=? Z.of_nat (length tail)) eqn:E; boolify;
    [apply Z.ltb_lt; lia|apply Z.ltb_ge; lia].
Qed.

Lemma load_terminate limits ahead pos t records tail :
  (forall x, ahead x <= MaxBytes limits) -> newline ∉ tail ->
  load_lines limits ahead pos t records [terminate tail] =
  load_lines limits ahead pos t records [tail].
Proof.
  intros Ha H. cbn [load_lines]. rewrite token_terminate, strip_terminate by done.
  destruct (token_too_long tail); [done|].
  replace (MaxBytes limits <? ahead (pos + Z.of_nat (length (terminate tail)))) with false
    by (symmetry; apply Z.ltb_ge, Ha).
  replace (MaxBytes limits <? ahead (pos + Z.of_nat (length tail))) with false
    by (symmetry; apply Z.ltb_ge, Ha).
  done.
Qed.

(** ** Loading a signed payload *)

Lemma last_app_nonempty {A} (l k : list A) : k <> [] -> last (l ++ k) = last k.
Proof.
  intros Hk. destruct k as [|x k _] using rev_ind; [done|]. by rewrite app_assoc, !last_snoc.
Qed.

Lemma needs_separator_split ls tail :
  newline ∉ tail ->
  needs_separator (mjoin (terminate <$> ls) ++ tail) = negb (bool_decide (tail = [])).
Proof.
  intros Ht. unfold needs_separator. destruct tail as [|c tail].
  - rewrite app_nil_r, (bool_decide_true ([] = [])) by done. cbn [negb].
    destruct ls as [|l ls _] using rev_ind; [done|].
    rewrite fmap_app, mjoin_app_bytes. cbn [fmap list_fmap].
    change (mjoin [terminate l]) with (terminate l ++ []). rewrite app_nil_r.
    replace (mjoin (terminate <$> ls) ++ terminate l) with ((mjoin (terminate <$> ls) ++ l) ++ [newline])
      by (rewrite <- app_assoc; reflexivity).
    rewrite last_snoc, (bool_decide_true (Some newline = Some newline)) by done. apply andb_false_r.
  - rewrite !bool_decide_false; [done| | |]; [done| |by destruct (mjoin (terminate <$> ls))].
    rewrite last_app_nonempty by done. intros H. apply Ht. by apply last_Some_elem_of.
Qed.

Definition default_limits : LoadLimits := mkLimits MaxBundleSizeBytes MaxBundleRecords.

Lemma LoadReader_inv raw b :
  LoadReader (Some (bytes_reader raw)) = Ok b ->
  load_lines default_limits (fun _ => Z.of_nat (length raw)) 0 (tracker_of []) [] (raw_lines raw) = Ok b /\
  Z.of_nat (length raw) <= MaxBundleSizeBytes /\
  (hasManifestRecord b = true -> exists r rest m, b = r :: rest /\ parseManifestData r = Ok m).
Proof.
  unfold LoadReader, LoadReaderWithLimits. fold default_limits. intros H.
  change ((MaxBytes default_limits <=? 0) || (MaxRecords default_limits <=? 0)) with false in H.
  cbn [r_ahead r_bytes r_fails bytes_reader] in H. change new_tracker with (tracker_of []) in H.
  destruct (load_lines _ _ _ _ _ _) as [rs|] eqn:El; [|done].
  destruct (MaxBytes default_limits <? _) eqn:Eb; [done|]. apply Z.ltb_ge in Eb.
  destruct (hasManifestRecord rs) eqn:Em.
  - destruct rs as [|r0 rs]; [done|]. destruct (parseManifestData r0) as [m|] eqn:Ep; [|done].
    injection H as <-. split_and!; [done|done|]. intros _. by exists r0, rs, m.
  - injection H as <-. split_and!; [done|done|]. by rewrite Em.
Qed.

Lemma LoadReader_intro raw b :
  load_lines default_limits (fun _ => Z.of_nat (length raw)) 0 (tracker_of []) [] (raw_lines raw) = Ok b ->
  Z.of_nat (length raw) <= MaxBundleSizeBytes ->
  (hasManifestRecord b = true -> exists r rest m, b = r :: rest /\ parseManifestData r = Ok m) ->
  LoadReader (Some (bytes_reader raw)) = Ok b.
Proof.
  intros Hl Hb Hm. unfold LoadReader, LoadReaderWithLimits. fold default_limits.
  change ((MaxBytes default_limits <=? 0) || (MaxRecords default_limits <=? 0)) with false.
  cbn [r_ahead r_bytes r_fails bytes_reader]. change new_tracker with (tracker_of []).
  rewrite Hl. replace (MaxBytes default_limits <? _) with false by (symmetry; by apply Z.ltb_ge).
  destruct (hasManifestRecord b); [|done]. destruct (Hm eq_refl) as (r & rest & m & -> & Hp).
  by rewrite Hp.
Qed.

Definition separator (raw : bytes) : bytes := if needs_separator raw then [newline] else [].

(** The lines of a bundle and of the payload signing it writes. *)
Lemma signed_lines raw x :
  newline ∉ x ->
  exists ls tail, (newline ∉ tail) /\
    raw_lines raw = (terminate <$> ls) ++ tail_line tail /\
    raw ++ separator raw = mjoin ((terminate <$> ls) ++ (terminate <$> tail_line tail)) /\
    raw_lines (signed_payload raw x) = terminate <$> (ls ++ tail_line tail ++ [x]).
Proof.
  intros Hx. destruct (split_lines raw) as (ls & tail & Hls & Htl & Eraw). exists ls, tail.
  assert (raw ++ separator raw = mjoin ((terminate <$> ls) ++ (terminate <$> tail_line tail))) as Epre.
  { unfold separator. rewrite Eraw, needs_separator_split, mjoin_app_bytes by done.
    unfold tail_line. destruct (bool_decide (tail = [])) eqn:E; boolify; cbn [negb].
    - subst. by rewrite !app_nil_r.
    - rewrite <- app_assoc. f_equal. change (mjoin (terminate <$> [tail])) with (terminate tail ++ []).
      by rewrite app_nil_r. }
  split_and!; [done|rewrite Eraw; by apply raw_lines_split|done|].
  assert (signed_payload raw x = mjoin (terminate <$> (ls ++ tail_line tail ++ [x]))) as ->.
  { unfold signed_payload. fold (separator raw). rewrite app_assoc, Epre.
    rewrite !fmap_app, (app_assoc (terminate <$> ls)), (mjoin_app_bytes (_ ++ _)).
    change (mjoin (terminate <$> [x])) with (terminate x ++ []). by rewrite (app_nil_r (terminate x)). }
  apply raw_lines_terminated. rewrite !Forall_app. split_and!; [done| |by repeat constructor].
  unfold tail_line. destruct (bool_decide _); by repeat constructor.
Qed.

Lemma load_signed raw b x r' :
  LoadReader (Some (bytes_reader raw)) = Ok b ->
  Forall printable x -> x <> [] -> Z.of_nat (length x) <= MaxLineSizeBytes ->
  json_parse x ≫= decode_record = Some r' ->
  Event.Type_ (Event_ r') = TypeBundleSignature ->
  Z.of_nat (length (signed_payload raw x)) <= MaxBundleSizeBytes ->
  Z.of_nat (length b) < MaxBundleRecords ->
  LoadReader (Some (bytes_reader (signed_payload raw x))) =
  Ok (b ++ [with_digests (prefix_digests (raw ++ separator raw)) r']).
Proof.
  intros Hload Hx Hxn Hxl Hr Ht Hpl Hn.
  apply LoadReader_inv in Hload as (Hlines & Hraw & Hm).
  destruct (signed_lines raw x (printable_no_newline x Hx)) as (ls & tail & Htl & Erl & Epre & Epl).
  apply LoadReader_intro; [|done|].
  - rewrite Epl.
    rewrite !fmap_app, load_lines_app.
    rewrite (load_lines_ahead default_limits _ (fun _ => Z.of_nat (length raw)) 0 0 (tracker_of []) [])
      by (intros; cbn; lia).
    rewrite Erl, load_lines_app in Hlines.
    destruct (load_lines default_limits _ 0 (tracker_of []) [] (terminate <$> ls)) as [rs|] eqn:E1; [|done].
    rewrite load_lines_app. cbn [app] in Hlines |- *.
    replace (load_lines default_limits _ _ (tracker_of (mjoin (terminate <$> ls))) rs (terminate <$> tail_line tail))
      with (Ok b : result load_error bundle).
    + rewrite <- mjoin_app_bytes, <- Epre. cbn [fmap list_fmap load_lines].
      rewrite token_fits, strip_terminated by done.
      replace (MaxBytes default_limits <? _) with false by (symmetry; by apply Z.ltb_ge).
      replace (MaxLineSizeBytes <? _) with false by (symmetry; by apply Z.ltb_ge).
      rewrite bool_decide_false by done.
      replace (MaxRecords default_limits <=? _) with false by (symmetry; by apply Z.leb_gt).
      by rewrite Hr, set_prefix_of.
    + symmetry. unfold tail_line in *. destruct (bool_decide (tail = [])); [exact Hlines|].
      change (terminate <$> [tail]) with [terminate tail].
      rewrite load_terminate; [|intros; cbn; lia|done]. rewrite <- Hlines.
      apply load_lines_ahead; intros; cbn; lia.
  - destruct b as [|r0 b].
    + cbn [app hasManifestRecord]. unfold with_digests. rewrite Ht. cbn. by rewrite Ht.
    + intros Hman. destruct Hm as (r & rest & m & [= <- <-] & Hp); [done|].
      by exists r0, (b ++ [with_digests (prefix_digests (raw ++ separator raw)) r']), m.
Qed.

(** ** The digest a verifier expects *)

Lemma hex_fold_inj a b : EqualFold (S_of (hex_encode a)) (S_of (hex_encode b)) = true -> a = b.
Proof.
  unfold EqualFold, fold_name. rewrite !B_S_of. intros H. apply bool_decide_eq_true in H.
  apply hex_encode_inj.
  assert (forall c, (48 <= code c <= 57 \/ 97 <= code c <= 102) -> forall d,
    (48 <= code d <= 57 \/ 97 <= code d <= 102) -> fold_rune (code c) = fold_rune (code d) -> c = d) as Hinj.
  { intros c Hc d Hd E. apply code_inj. unfold fold_rune in E.
    destruct ((97 <=? code c) && (code c <=? 122)) eqn:E1; destruct ((97 <=? code d) && (code d <=? 122)) eqn:E2;
      repeat match goal with
      | E : context [if (?x =? ?y) then _ else _] |- _ => destruct (Z.eqb_spec x y)
      end; lia. }
  assert (forall l : bytes, Forall (fun c => 48 <= code c <= 57 \/ 97 <= code c <= 102) (hex_encode l)) as Hhex.
  { unfold hex_encode. induction l as [|c l IH]; [constructor|]. cbn.
    pose proof (code_range c). pose proof (Z.div_mod (code c) 16 ltac:(lia)).
    pose proof (Z.mod_pos_bound (code c) 16 ltac:(lia)).
    assert (forall n, 0 <= n < 16 -> 48 <= code (hex_digit n) <= 57 \/ 97 <= code (hex_digit n) <= 102) as Hd.
    { intros n Hn. unfold hex_digit. destruct (n <? 10) eqn:?; boolify; rewrite code_chr; lia. }
    constructor; [apply Hd; lia|]. constructor; [apply Hd; lia|exact IH]. }
  assert (forall l, Forall (fun c => 48 <= code c <= 57 \/ 97 <= code c <= 102) l -> runes l = code <$> l) as Hr.
  { induction 1 as [|c l Hc _ IH]; [done|]. unfold runes in *. rewrite chunks_ascii by lia. cbn. by rewrite IH. }
  rewrite !Hr in H by apply Hhex. revert H. generalize (Hhex a) (Hhex b).
  generalize (hex_encode a) (hex_encode b). clear -Hinj.
  induction l as [|c l IH]; intros [|d k] Hl Hk E; try done. cbn in E.
  apply Forall_cons in Hl as [Hc Hl]. apply Forall_cons in Hk as [Hd Hk]. injection E as E1 E2.
  f_equal; [by apply Hinj|by apply IH].
Qed.

Lemma TrimSpace_hex b : TrimSpace (S_of (hex_encode b)) = S_of (hex_encode b).
Proof. apply TrimSpace_visible. rewrite B_S_of. apply hex_visible. Qed.

Lemma TrimSpace_base64 b : TrimSpace (S_of (Base64.encode b)) = S_of (Base64.encode b).
Proof. apply TrimSpace_visible. rewrite B_S_of. apply encode_visible. Qed.

Lemma EqualFold_refl s : EqualFold s s = true.
Proof. unfold EqualFold. by apply bool_decide_eq_true. Qed.

Lemma snapshot_expected raw r r0 :
  r = with_digests (prefix_digests (raw ++ separator raw)) r0 ->
  Event.Type_ (Event_ r0) = TypeBundleSignature ->
  hashBundleSnapshotBeforeRecord r (S_of (hex_encode (Sha256.sum256 raw))) = Ok (Sha256.sum256 raw).
Proof.
  intros -> Ht. unfold with_digests. rewrite Ht, String.eqb_refl.
  unfold hashBundleSnapshotBeforeRecord. cbn [sourcePrefixHash sourcePrefixWithoutLFHash sourcePrefixWithoutLFPresent].
  rewrite TrimSpace_hex. unfold separator, prefix_digests, needs_separator.
  destruct (bool_decide (raw = [])) eqn:E0; boolify; cbn [negb andb].
  { subst. cbn. by rewrite Sha256.length_sum256. }
  destruct raw as [|c raw _] using rev_ind; [done|]. rewrite last_snoc.
  destruct (bool_decide (Some c = Some newline)) eqn:E1; cbn [negb]; boolify.
  - rewrite app_nil_r, reverse_app. cbn [reverse rev_append app].
    destruct (reverse raw) as [|d t]; [cbn; by rewrite Sha256.length_sum256|].
    injection E1 as ->. rewrite (bool_decide_true (newline = newline)) by done. cbn [andb].
    destruct (bool_decide (d = newline)); cbn [negb fst snd]; rewrite !Sha256.length_sum256; [done|].
    cbn [Nat.eqb negb andb]. destruct (EqualFold _ _) eqn:E2; [|done].
    apply hex_fold_inj in E2. by rewrite E2.
  - rewrite reverse_app. cbn [reverse rev_append app]. rewrite reverse_app. cbn [reverse rev_append app].
    rewrite (bool_decide_true (newline = newline)), (bool_decide_false (c = newline)) by congruence.
    cbn [andb negb fst snd]. rewrite removelast_last, !Sha256.length_sum256, EqualFold_refl. done.
Qed.

(** ** The signature record reads back *)

Definition signature_names : list string :=
  ["bundle_hash"; "signature"; "pubkey"; "algorithm"; "backend"; "signed_at"; "key_id"].

Lemma record_keyed nano h pk sg kid be al at_ :
  keyed (NewBundleSignatureRecord nano h pk sg kid be al at_).
Proof.
  unfold NewBundleSignatureRecord, keyed.
  destruct (String.eqb kid ""); cbn [app fmap list_fmap fst]; (split; [|repeat constructor]);
    apply (bool_decide_unpack _); vm_compute; exact I.
Qed.

Lemma S_of_nonempty b : b <> [] -> S_of b <> "".
Proof. by destruct b. Qed.

Lemma encode_nonempty b : b <> [] -> Base64.encode b <> [].
Proof. destruct b as [|x [|y [|z t]]]; done. Qed.

Lemma hex_encode_nonempty b : b <> [] -> hex_encode b <> [].
Proof. by destruct b. Qed.

Lemma string_field m k s :
  assoc k m = Some (AString s) -> Forall visible (B s) -> bundleSignatureField m k = s.
Proof. intros H Hv. unfold bundleSignatureField. rewrite H. by apply TrimSpace_visible. Qed.

Lemma parse_reloaded nano h pk sg kid be al at_ d :
  h <> [] -> pk <> [] -> sg <> [] -> al = "ed25519" \/ al = "ecdsa-p256" ->
  redecode (AStringMap (NewBundleSignatureRecord nano h pk sg kid be al at_)) = Some d ->
  exists sig, ParseBundleSignature d = Ok sig /\ BundleHash sig = S_of (hex_encode h) /\
    Signature sig = S_of (Base64.encode sg) /\ PublicKey sig = S_of (Base64.encode pk) /\
    Algorithm sig = al.
Proof.
  intros Hh Hpk Hsg Hal Hd. rewrite redecode_string_map in Hd.
  pose proof (record_keyed nano h pk sg kid be al at_) as Hk.
  assert (keyed (any_map (NewBundleSignatureRecord nano h pk sg kid be al at_))) as Hk'
    by (unfold keyed, any_map in *; by rewrite keys_any_map).
  destruct (redecode_map_inv _ d Hk' Hd) as (m & -> & Ha).
  assert (forall k s, assoc k (NewBundleSignatureRecord nano h pk sg kid be al at_) = Some s ->
    Forall visible (B s) -> bundleSignatureField m k = s) as Hf.
  { intros k s Hs Hv. apply string_field; [|done]. rewrite Ha, assoc_any_map, Hs. cbn.
    by rewrite coerce_string_valid by (by apply visible_valid). }
  assert (al <> "") as Hal0 by (by destruct Hal as [-> | ->]).
  assert (Forall visible (B al)) as Hvis.
  { destruct Hal as [-> | ->]; repeat constructor; vm_compute; congruence. }
  unfold ParseBundleSignature.
  rewrite (Hf "bundle_hash" (S_of (hex_encode h))) by (done || (rewrite B_S_of; apply hex_visible)).
  rewrite (Hf "signature" (S_of (Base64.encode sg))) by (done || (rewrite B_S_of; apply encode_visible)).
  rewrite (Hf "pubkey" (S_of (Base64.encode pk))) by (done || (rewrite B_S_of; apply encode_visible)).
  pose proof (S_of_nonempty _ (hex_encode_nonempty h Hh)) as N1.
  pose proof (S_of_nonempty _ (encode_nonempty sg Hsg)) as N2.
  pose proof (S_of_nonempty _ (encode_nonempty pk Hpk)) as N3.
  apply String.eqb_neq in N1, N2, N3. rewrite N1, N2, N3, N3. eexists. split_and!; [reflexivity|done..|].
  cbn [Algorithm]. unfold bundleSignatureAlgorithm.
  assert (assoc "algorithm" (NewBundleSignatureRecord nano h pk sg kid be al at_) = Some al) as Eal.
  { unfold NewBundleSignatureRecord. apply String.eqb_neq in Hal0. rewrite Hal0. done. }
  rewrite (Hf "algorithm" al Eal Hvis). destruct Hal as [-> | ->]; vm_compute; reflexivity.
Qed.

Section sign_verify.
Context `{Crypto}.

(** The scheme accepts a signature of the digest. *)
Definition scheme_accepts (algorithm : string) (pub digest sg : bytes) : Prop :=
  if String.eqb algorithm "ed25519" then
    length sg = 64%nat /\ length pub = 32%nat /\ ed25519_Verify pub digest sg = true
  else
    algorithm = "ecdsa-p256" /\
    exists key, parseECDSAP256PublicKey pub = Ok key /\ ecdsa_VerifyASN1 key digest sg = true.

Lemma VerifyBundleSignature_spec sig digest :
  length digest = 32%nat ->
  VerifyBundleSignature sig digest = Ok tt <->
  hex_decode (B (TrimSpace (BundleHash sig))) = Some digest /\
  exists sg pub, Base64.decode (B (TrimSpace (Signature sig))) = Some sg /\
    Base64.decode (B (TrimSpace (PublicKey sig))) = Some pub /\
    scheme_accepts (if String.eqb (Algorithm sig) "" then "ed25519" else Algorithm sig) pub digest sg.
Proof.
  intros Hl. unfold VerifyBundleSignature, scheme_accepts. rewrite Hl. cbn [Nat.eqb negb].
  destruct (hex_decode _) as [h|]; [|naive_solver].
  split.
  - intros Hv. destruct (length h =? 32)%nat eqn:E1; [|done]. cbn [negb] in Hv.
    destruct (bool_decide (h = digest)) eqn:E2; [|done]. boolify. subst h. cbn [negb] in Hv.
    split; [done|]. destruct (Base64.decode (B (TrimSpace (Signature sig)))) as [sg|]; [|done].
    destruct (Base64.decode (B (TrimSpace (PublicKey sig)))) as [pub|]; [|done].
    exists sg, pub. split_and!; [done|done|].
    set (al := if String.eqb (Algorithm sig) "" then _ else _) in *.
    destruct (String.eqb al "ed25519").
    + destruct (length sg =? 64)%nat eqn:E3; [|done]. destruct (length pub =? 32)%nat eqn:E4; [|done].
      cbn [negb] in Hv. destruct (ed25519_Verify _ _ _) eqn:E5; [|done]. by boolify.
    + destruct (String.eqb_spec al "ecdsa-p256"); [|done]. split; [done|].
      destruct (parseECDSAP256PublicKey pub) as [key|]; [|done].
      destruct (ecdsa_VerifyASN1 _ _ _) eqn:E5; [|done]. by exists key.
  - intros ([= ->] & sg & pub & -> & -> & Hs). rewrite Hl. cbn [Nat.eqb negb].
    rewrite bool_decide_true by done. cbn [negb].
    set (al := if String.eqb (Algorithm sig) "" then _ else _) in *.
    destruct (String.eqb al "ed25519").
    + destruct Hs as (-> & -> & ->). done.
    + destruct Hs as (-> & key & -> & ->). done.
Qed.

Lemma latest_signature_snoc i b r :
  0 <= i -> Event.Type_ (Event_ r) = TypeBundleSignature ->
  latest_signature i (b ++ [r]) = i + Z.of_nat (length b).
Proof.
  intros Hi Ht. revert i Hi. induction b as [|r0 b IH]; intros i Hi.
  - cbn. rewrite Ht. cbn. lia.
  - cbn [app latest_signature]. rewrite IH by lia.
    replace (0 <=? i + 1 + Z.of_nat (length b)) with true by (symmetry; apply Z.leb_le; lia).
    cbn [length]. lia.
Qed.
End sign_verify.

(** ** Sizes *)

Lemma capacity_spec rawSize recordSize :
  match signedPayloadCapacity rawSize recordSize with
  | Ok c => 0 <= rawSize /\ 0 <= recordSize /\ c = rawSize + recordSize + 2 /\ c <= MaxInt
  | Err e => e = GCapacity /\
      (rawSize < 0 \/ recordSize < 0 \/ MaxInt < rawSize + recordSize + 2)
  end.
Proof.
  unfold signedPayloadCapacity. destruct (rawSize <? 0) eqn:E1; boolify; cbn [orb]; [by auto|].
  destruct (recordSize <? 0) eqn:E2; boolify; cbn [orb]; [by auto|].
  change (wrap64 (MaxInt - 2)) with (MaxInt - 2).
  destruct (MaxInt - 2 <? rawSize) eqn:E3; boolify; [split; [done|lia]|].
  unfold MaxInt in *. rewrite wrap64_id by lia.
  destruct (_ - 2 - rawSize <? recordSize) eqn:E4; boolify; [split; [done|lia]|].
  rewrite !wrap64_id by (rewrite ?wrap64_id by lia; lia). lia.
Qed.

Lemma length_payload raw x :
  Z.of_nat (length (signed_payload raw x)) =
  Z.of_nat (length raw) + Z.of_nat (length x) + (if needs_separator raw then 2 else 1).
Proof.
  unfold signed_payload. rewrite !length_app. destruct (needs_separator raw); cbn [length]; lia.
Qed.

Lemma needs_separator_pos raw : needs_separator raw = true -> 0 < Z.of_nat (length raw).
Proof. destruct raw; [done|cbn; lia]. Qed.

Lemma metrics_spec (raw x : bytes) :
  let n := Z.of_nat (length raw) + Z.of_nat (length x) in
  match signedPayloadMetrics (Z.of_nat (length raw)) (Z.of_nat (length x)) (needs_separator raw) with
  | Ok (outputSize, capacity) =>
      outputSize = n + (if needs_separator raw then 2 else 1) /\ capacity = n + 2 /\ capacity <= MaxInt
  | Err e => e = GCapacity /\ MaxInt < n + 2
  end.
Proof.
  cbn zeta. unfold signedPayloadMetrics.
  pose proof (capacity_spec (Z.of_nat (length raw)) (Z.of_nat (length x))) as Hc.
  destruct (signedPayloadCapacity _ _) as [c|e]; [|destruct Hc as [-> Hc]; split; [done|lia]].
  destruct Hc as (_ & _ & -> & Hle). split; [|done].
  destruct (needs_separator raw) eqn:En; cbn [andb].
  - apply needs_separator_pos in En. rewrite (proj2 (Z.ltb_lt _ _) En). lia.
  - rewrite wrap64_id by (unfold MaxInt in *; lia). lia.
Qed.

Lemma appendSignedRecord_inv env fs path raw r mode maxBytes states payload :
  appendSignedRecord env fs path raw r mode maxBytes = (states, Ok payload) ->
  exists x, GoValue.Marshal (AStruct (record_fields r)) = Some x /\
    payload = signed_payload raw x /\ Z.of_nat (length payload) <= maxBytes.
Proof.
  unfold appendSignedRecord. destruct (GoValue.Marshal _) as [x|]; [|done].
  pose proof (metrics_spec raw x) as Hm.
  destruct (signedPayloadMetrics _ _ _) as [[out cap]|]; [|done]. destruct Hm as (-> & _).
  destruct (maxBytes <=? 0); [done|].
  destruct (maxBytes <? _) eqn:E; [done|]. apply Z.ltb_ge in E.
  destruct (se_mkdir_fails env); [done|].
  destruct (writeAtomic _ _ _ _ _ _ _) as [st [|]]; [|done]. intros [= <- <-].
  exists x. split_and!; [done|done|]. by rewrite length_payload.
Qed.

(** ** Signing and verifying *)

Section sign_main.
Context `{Crypto}.

(** The record signing appends, as a reader of the payload sees it. *)
Lemma signature_record_ok b al nano h pk sg kid be now r x :
  valid_string now = true -> valid_string nano = true -> valid_string kid = true ->
  valid_string be = true -> valid_string al = true ->
  seq_ok (next_sequence b TypeBundleSignature) = true -> valid_string (prev_hash b) = true ->
  int64 (next_sequence b TypeBundleSignature) = true ->
  Event_ r = append_event TypeBundleSignature
    (AStringMap (NewBundleSignatureRecord nano h pk sg kid be al now))
    (Some (no_options now)) (next_sequence b TypeBundleSignature) (prev_hash b) ->
  valid_string (Hash r) = true ->
  GoValue.Marshal (AStruct (record_fields r)) = Some x -> Z.of_nat (length x) <= MaxLineSizeBytes ->
  record_ok r = true.
Proof.
  intros Hnow Hnano Hkid Hbe Hal Hseq Hprev Hint He Hh Hx Hlen.
  set (rec := NewBundleSignatureRecord nano h pk sg kid be al now) in *.
  assert (stringy 1 (AStringMap rec)) as Hst by apply string_map_stringy, record_keyed.
  assert (stringy 3 (Event.encode (Event_ r))) as Hev.
  { apply event_stringy; [by rewrite He|lia|]. rewrite He. cbn [append_event Event.Data].
    by apply (stringy_weaken 1); [lia|]. }
  assert (stringy 4 (AStruct (record_fields r))) as (j & w & Hj & Hdep & _ & _).
  { eapply stringy_struct with (names := record_names); [done|unfold record_fields, record_names; repeat constructor|].
    unfold record_fields. repeat constructor; cbn [snd]; [done|apply stringy_string]. }
  unfold record_ok. rewrite Hh, Hj. unfold GoValue.Marshal in Hx. rewrite Hj in Hx. injection Hx as <-.
  replace (json_depth j <=? max_nesting_depth)%nat with true
    by (symmetry; apply Nat.leb_le; unfold max_nesting_depth; lia).
  replace (_ <=? MaxLineSizeBytes) with true by (symmetry; by apply Z.leb_le).
  rewrite !andb_true_r. apply event_ok_canonical. unfold event_ok.
  replace (Event.valid (Event_ r)) with true.
  2:{ rewrite He. unfold Event.valid.
      cbn [append_event no_options ActorID OrgID WorkspaceID Timestamp TraceID SpanID ParentSpanID
        Acquisition Event.Sequence Event.PrevHash Event.Type_ Event.HashAlgo Event.ActorID Event.OrgID
        Event.WorkspaceID Event.Timestamp Event.TraceID Event.SpanID Event.ParentSpanID
        Event.Acquisition valid_ptr]. by rewrite Hint, Hprev, Hnow. }
  assert (Event.Sequence (Event_ r) = next_sequence b TypeBundleSignature) as -> by (by rewrite He).
  assert (Event.Data (Event_ r) = AStringMap rec) as -> by (by rewrite He). rewrite Hseq. cbn [andb].
  destruct Hst as (jd & wd & Hjd & Hdd & Hwd & Hfd). unfold data_ok. rewrite Hjd, Hwd, Hfd.
  rewrite andb_true_r. apply Nat.ltb_lt. unfold max_nesting_depth. lia.
Qed.
Lemma Compute_valid e h : Compute e = Ok h -> valid_string h = true.
Proof. intros [_ ->]%Compute_Ok. apply valid_hex. Qed.

Lemma prev_hash_valid b : Verify b = Ok tt -> valid_string (prev_hash b) = true.
Proof.
  intros Hv%bundle_Verify_linked. rewrite prev_hash_head.
  destruct b as [|r b _] using rev_ind; [done|]. unfold events, hashes in *. rewrite !map_app in Hv.
  cbn [map] in Hv. apply linked_snoc in Hv as (_ & _ & _ & Hc).
  rewrite map_app. cbn [map]. rewrite last_snoc. by eapply Compute_valid.
Qed.

Lemma next_sequence_small b ty :
  Z.of_nat (length b) < MaxBundleRecords -> int64 (next_sequence b ty) = true.
Proof.
  intros H'. unfold next_sequence, int64, MaxBundleRecords in *.
  destruct (String.eqb _ _); [done|]. destruct (hasManifestRecord b); lia.
Qed.

Lemma verify_replace_last b r r' :
  Event.Type_ (Event_ r) <> ManifestEventType ->
  reloaded r r' -> canonical_ok (Event_ r) = true ->
  Verify (b ++ [r]) = Ok tt ->
  forall d, Verify (b ++ [with_digests d r']) = Ok tt.
Proof.
  intros Hty (dt & Hd & ->) Hok Hv d.
  assert (exists r2, with_digests d (mkRecord (Event.with_data dt (Event_ r)) (Hash r) [] [] false) = r2 /\
    Event_ r2 = Event.with_data dt (Event_ r) /\ Hash r2 = Hash r) as (r2 & -> & He & Hh).
  { eexists. split; [reflexivity|]. unfold with_digests. by destruct (String.eqb _ _). }
  rewrite !bundle_Verify_linked in *. unfold events, hashes in *. rewrite !map_app in *. cbn [map] in *.
  rewrite He, Hh. apply linked_snoc in Hv as (Hv & H1 & H2 & H3). apply linked_snoc.
  assert (first_seq (b ++ [r2]) = first_seq (b ++ [r])) as ->.
  { unfold first_seq. destruct b as [|r0 b]; [|done]. cbn [app hasManifestRecord]. by rewrite He. }
  split_and!; [done|done|done|].
  destruct (with_data_ok _ dt Hok Hd) as [_ Hc]. revert H3. unfold Compute.
  change (Event.PrevHash (Event.with_data dt (Event_ r))) with (Event.PrevHash (Event_ r)).
  by rewrite Hc.
Qed.

(** What a successful signing did. *)
Lemma sign_inv env content same s maxBytes fs path states hexd payload :
  signToWithSignerLimited env (Some (content, false)) same s maxBytes fs path = (states, Ok (hexd, payload)) ->
  exists b sg al r x,
    LoadReader (Some (bytes_reader content)) = Ok b /\ Verify b = Ok tt /\
    s (Sha256.sum256 content) = Some sg /\ check_signed sg = Ok al /\
    AppendWithOptions b TypeBundleSignature
      (AStringMap (NewBundleSignatureRecord (se_now_nano env) (Sha256.sum256 content) (s_pubKey sg)
        (s_signature sg) (s_keyID sg) (s_backend sg) al (se_now env)))
      (Some (no_options (se_now env))) = Ok (b ++ [r]) /\
    GoValue.Marshal (AStruct (record_fields r)) = Some x /\
    payload = signed_payload content x /\ Z.of_nat (length payload) <= maxBytes /\
    hexd = S_of (hex_encode (Sha256.sum256 content)).
Proof.
  unfold signToWithSignerLimited. intros H'.
  destruct (readSigningInput content false maxBytes) as [raw|] eqn:Er; [|done].
  assert (raw = content) as ->.
  { unfold readSigningInput in Er. destruct (_ || _); [done|]. cbn [andb] in Er.
    destruct (maxBytes <? _) eqn:El; [done|]. injection Er as <-. apply Z.ltb_ge in El.
    rewrite take_Z_take in *. rewrite length_take in El. apply take_ge. lia. }
  destruct (se_cancelled env); [done|]. destruct (se_close_fails env); [done|].
  destruct (LoadReader _) as [b|]; [|done]. destruct (Verify b) as [[]|] eqn:Ev; [|done].
  destruct (s _) as [sg|] eqn:Es; [|done]. destruct (check_signed sg) as [al|] eqn:Ec; [|done].
  destruct (AppendWithOptions _ _ _ _) as [b'|] eqn:Ea; [|done].
  pose proof Ea as (h & -> & _)%append_inv. rewrite last_snoc in H'.
  destruct (appendSignedRecord _ _ _ _ _ _ _) as [st [p|]] eqn:Ep; [|done]. injection H' as <- <- <-.
  apply appendSignedRecord_inv in Ep as (x & Hx & -> & Hl).
  exists b, sg, al. eexists. exists x. split_and!; done.
Qed.

Lemma check_signed_spec sg al :
  check_signed sg = Ok al ->
  (al = "ed25519" \/ al = "ecdsa-p256") /\ s_signature sg <> [] /\ s_pubKey sg <> [].
Proof.
  unfold check_signed. intros H'. destruct (s_signature sg) as [|c t] eqn:Es; [done|]. cbn [length Nat.eqb] in H'.
  destruct (_ || _).
  - destruct (length (s_pubKey sg) =? 32)%nat eqn:E; [|done]. injection H' as <-.
    split_and!; [by left|done|]. by destruct (s_pubKey sg).
  - destruct (String.eqb _ "ecdsa-p256"); [|done].
    destruct (length (s_pubKey sg) =? 65)%nat eqn:E; [|done]. injection H' as <-.
    split_and!; [by right|done|]. by destruct (s_pubKey sg).
Qed.

Lemma signature_verifies b r0 raw nano sg al kid be at_ d pk :
  sg <> [] -> pk <> [] -> al = "ed25519" \/ al = "ecdsa-p256" ->
  scheme_accepts al pk (Sha256.sum256 raw) sg ->
  Event.Type_ (Event_ r0) = TypeBundleSignature ->
  Event.Data (Event_ r0) = d ->
  redecode (AStringMap (NewBundleSignatureRecord nano (Sha256.sum256 raw) pk sg kid be al at_)) = Some d ->
  inspectBundleSignature (b ++ [with_digests (prefix_digests (raw ++ separator raw)) r0]) =
  Some (mkResult true true (S_of (hex_encode (Sha256.sum256 raw))) None).
Proof.
  intros Hsg Hpk Hal Hacc Ht Hdata Hd.
  assert (Sha256.sum256 raw <> []) as Hne
    by (intros E; pose proof (Sha256.length_sum256 raw) as Hl; by rewrite E in Hl).
  destruct (parse_reloaded nano _ pk sg kid be al at_ d Hne Hpk Hsg Hal Hd)
    as (sig & Hp & H1 & H2 & H3 & H4).
  set (r := with_digests _ r0).
  assert (Event_ r = Event_ r0) as He by (unfold r, with_digests; by destruct (String.eqb _ _)).
  unfold inspectBundleSignature, latestBundleSignatureIndex.
  rewrite latest_signature_snoc by (done || by rewrite He).
  replace (0 + Z.of_nat (length b) <? 0) with false by (symmetry; apply Z.ltb_ge; lia).
  rewrite Z.add_0_l, Nat2Z.id. unfold bundle.
  rewrite (list_lookup_middle b [] r (length b)) by done. cbn [mbind option_bind].
  rewrite He, Hdata, Hp, H1, (snapshot_expected raw r r0 eq_refl Ht).
  assert (VerifyBundleSignature sig (Sha256.sum256 raw) = Ok tt) as ->; [|done].
  apply VerifyBundleSignature_spec; [apply Sha256.length_sum256|].
  rewrite H1, H2, H3, H4, TrimSpace_hex, !TrimSpace_base64, !B_S_of, hex_decode_encode, !base64_roundtrip.
  split; [done|]. exists sg, pk. split_and!; [done|done|].
  by destruct Hal as [-> | ->].
Qed.
End sign_main.

Lemma latest_signature_type i b :
  0 <= i -> 0 <= latest_signature i b ->
  exists j r, latest_signature i b = i + Z.of_nat j /\ b !! j = Some r /\
    Event.Type_ (Event_ r) = TypeBundleSignature.
Proof.
  unfold bundle. revert i. induction b as [|r b IH]; intros i Hi H'; [cbn in H'; lia|].
  cbn [latest_signature] in *. destruct (0 <=? latest_signature (i + 1) b) eqn:E.
  - apply Z.leb_le in E. destruct (IH (i + 1) ltac:(lia) E) as (j & r' & -> & Hj & Ht).
    exists (S j), r'. split_and!; [lia|done|done].
  - destruct (String.eqb _ _) eqn:Et; [|lia]. apply String.eqb_eq in Et.
    exists 0%nat, r. split_and!; [lia|done|done].
Qed.

Lemma prefix_cases p :
  prefix_digests p = (Sha256.sum256 p, [], false) \/
  exists q, p = q ++ [newline] /\ prefix_digests p = (Sha256.sum256 p, Sha256.sum256 q, true).
Proof.
  destruct p as [|c p _] using rev_ind; [by left|].
  unfold prefix_digests. rewrite reverse_app, removelast_last. cbn [reverse rev_append app].
  destruct (reverse p); [by left|]. destruct (bool_decide (c = newline)) eqn:E; [|by left].
  boolify. subst c. destruct (negb _); [|by left]. right. by exists p.
Qed.

(** The digest a signature is checked against is one of the prefix digests. *)
Lemma snapshot_digest r r0 p signedHash digest :
  r = with_digests (prefix_digests p) r0 -> Event.Type_ (Event_ r) = TypeBundleSignature ->
  hashBundleSnapshotBeforeRecord r signedHash = Ok digest ->
  (digest = Sha256.sum256 p \/ exists q, p = q ++ [newline] /\ digest = Sha256.sum256 q) /\
  length digest = 32%nat.
Proof.
  intros -> Ht Hd. unfold hashBundleSnapshotBeforeRecord, with_digests in *.
  destruct (String.eqb (Event.Type_ (Event_ r0)) TypeBundleSignature) eqn:E;
    [|rewrite Ht, String.eqb_refl in E; done].
  cbn [sourcePrefixHash sourcePrefixWithoutLFPresent sourcePrefixWithoutLFHash] in Hd.
  destruct (negb _) in Hd; [done|]. destruct (prefix_cases p) as [Hp | (q & Hq & Hp)];
    rewrite Hp in Hd; cbn [fst snd andb] in Hd.
  - injection Hd as <-. split; [by left|apply Sha256.length_sum256].
  - destruct (_ && _) in Hd; injection Hd as <-; (split; [|apply Sha256.length_sum256]);
      [right; by exists q|by left].
Qed.

(** ** Properties *)

Section properties.
Context `{Crypto}.

(** C13: what is signed verifies. If the backend's signatures are accepted by their
    scheme, then after a successful signing of a bundle the written file loads, its
    records are the signed bundle followed by the signature record, the hash chain
    verifies, and the signature verifies against the bytes of the file before it,
    whether or not the signed file ended in a newline. *)
Theorem signed_bundle_verifies env content same s fs path states hexd payload b :
  signToWithSignerLimited env (Some (content, false)) same s MaxBundleSizeBytes fs path =
    (states, Ok (hexd, payload)) ->
  LoadReader (Some (bytes_reader content)) = Ok b ->
  Z.of_nat (length b) < MaxBundleRecords ->
  seq_ok (next_sequence b TypeBundleSignature) = true ->
  Z.of_nat (length payload) <= Z.of_nat (length content) + MaxLineSizeBytes ->
  (forall sg al, s (Sha256.sum256 content) = Some sg -> check_signed sg = Ok al ->
     scheme_accepts al (s_pubKey sg) (Sha256.sum256 content) (s_signature sg) /\
     valid_string (s_keyID sg) = true /\ valid_string (s_backend sg) = true) ->
  valid_string (se_now env) = true -> valid_string (se_now_nano env) = true ->
  exists r, LoadReader (Some (bytes_reader payload)) = Ok (b ++ [r]) /\
    Verify (b ++ [r]) = Ok tt /\ hexd = sha256_hex content /\
    inspectBundleSignature (b ++ [r]) = Some (mkResult true true hexd None).
Proof.
  intros Hsign Hload Hn Hseq Hlen Hback Hnow Hnano.
  apply sign_inv in Hsign as (b0 & sg & al & r & x & Hl & Hv & Hs & Hc & Ha & Hx & -> & Hmax & ->).
  rewrite Hload in Hl. injection Hl as <-.
  destruct (Hback sg al Hs Hc) as (Hacc & Hkid & Hbe).
  apply check_signed_spec in Hc as (Hal & Hsg & Hpk).
  pose proof (append_linked _ _ _ _ _ Ha Hv) as Hv'.
  apply append_inv in Ha as (h & Hr & Hcomp & _).
  remember (append_event _ _ _ _ _) as e eqn:He in Hr, Hcomp.
  apply app_inj_2 in Hr as [_ Hr]; [|done]. injection Hr as ->. rewrite length_payload in Hlen.
  assert (record_ok (mkRecord e h [] [] false) = true) as Hok.
  { apply (signature_record_ok b al (se_now_nano env) (Sha256.sum256 content) (s_pubKey sg)
      (s_signature sg) (s_keyID sg) (s_backend sg) (se_now env) _ x); try done.
    - by destruct Hal as [-> | ->].
    - by apply prev_hash_valid.
    - by apply next_sequence_small.
    - by eapply Compute_valid.
    - destruct (needs_separator content); lia. }
  destruct (reload_line _ Hok) as (l & r' & El & Hpr & Hne & Hll & Hre & Hpa).
  assert (l = x) as ->.
  { unfold encode_record in El. rewrite Hx in El. injection El as El. by apply app_inj_2 in El as [-> _]. }
  pose proof Hre as (d & Hd & Er'). cbn [Event_] in Hd. rewrite He in Hd.
  eexists. split_and!.
  - apply (load_signed content b x r'); try done. by rewrite Er', He.
  - eapply verify_replace_last; [|exact Hre| |exact Hv']; [by rewrite He|].
    unfold record_ok in Hok. by apply andb_true_iff in Hok as [[? _]%andb_true_iff _].
  - done.
  - eapply (signature_verifies b r' content); [exact Hsg|exact Hpk|exact Hal|exact Hacc| |reflexivity|].
    + by rewrite Er', He.
    + rewrite Er'. exact Hd.
Qed.

(** C12: a verified signature is a signature of the file's own bytes. When inspection
    of a loaded bundle reports a verified signature, its latest signature record decodes
    to a signature and key that the named scheme accepts for a digest which is the
    SHA-256 of the exact bytes before that record's line, or of those bytes without
    their final newline. *)
Theorem verified_signature_sound rd limits b res :
  LoadReaderWithLimits (Some rd) limits = Ok b ->
  inspectBundleSignature b = Some res -> Verified res = true ->
  exists i r p l sig sg pub digest,
    latestBundleSignatureIndex b = Z.of_nat i /\ b !! i = Some r /\
    record_lines (r_bytes rd) !! i = Some (p, l) /\
    ParseBundleSignature (Event.Data (Event_ r)) = Ok sig /\
    (digest = Sha256.sum256 p \/ exists q, p = q ++ [newline] /\ digest = Sha256.sum256 q) /\
    hex_decode (B (TrimSpace (BundleHash sig))) = Some digest /\
    Base64.decode (B (TrimSpace (Signature sig))) = Some sg /\
    Base64.decode (B (TrimSpace (PublicKey sig))) = Some pub /\
    scheme_accepts (if String.eqb (Algorithm sig) "" then "ed25519" else Algorithm sig) pub digest sg.
Proof.
  intros Hload Hi Hres. unfold inspectBundleSignature in Hi.
  destruct (latestBundleSignatureIndex b <? 0) eqn:Ei; [done|]. apply Z.ltb_ge in Ei.
  set (i := Z.to_nat (latestBundleSignatureIndex b)) in *.
  destruct (b !! i) as [r|] eqn:Er; [|done]. cbn [mbind option_bind] in Hi. injection Hi as Hi.
  destruct (ParseBundleSignature _) as [sig|] eqn:Ep; [|by subst res].
  destruct (hashBundleSnapshotBeforeRecord r _) as [digest|] eqn:Eh; [|by subst res].
  destruct (VerifyBundleSignature sig digest) as [[]|] eqn:Ev; [|by subst res].
  destruct (load_inv rd limits b Hload) as [HF _].
  destruct (Forall2_lookup_r _ _ _ _ _ HF Er) as ([p l] & Hpl & r0 & _ & Hr).
  destruct (latest_signature_type 0 b) as (j & r1 & Hj & Er1 & Ht); [lia|done|].
  assert (j = i /\ r1 = r) as [-> ->].
  { assert (j = i) as -> by (unfold i, latestBundleSignatureIndex; lia).
    split; [done|]. unfold bundle in *. congruence. }
  destruct (snapshot_digest r r0 p _ _ Hr Ht Eh) as [Hdig Hlen].
  apply VerifyBundleSignature_spec in Ev as [Hhex (sg & pub & H1 & H2 & H3)]; [|done].
  exists i, r, p, l, sig, sg, pub, digest. split_and!; try done.
Qed.
End properties.

(** C39: the output size is exact and never overflows. With every sum and difference
    taken in 64-bit two's complement, the size computed for a raw bundle and an encoded
    record is the length of the bytes then written, the capacity is within the machine
    range and enough for them; and the computation fails, with a resource limit error,
    exactly when the capacity would not fit. *)
Theorem signedPayloadMetrics_exact (raw x : bytes) :
  match signedPayloadMetrics (Z.of_nat (length raw)) (Z.of_nat (length x)) (needs_separator raw) with
  | Ok (outputSize, capacity) =>
      outputSize = Z.of_nat (length (signed_payload raw x)) /\
      outputSize <= capacity <= MaxInt /\ capacity <= outputSize + 1
  | Err e => sign_resource_limit e = true /\
      MaxInt < Z.of_nat (length raw) + Z.of_nat (length x) + 2
  end.
Proof.
  pose proof (metrics_spec raw x) as Hm.
  destruct (signedPayloadMetrics _ _ _) as [[out cap]|e].
  - rewrite length_payload. destruct Hm as (-> & -> & Hle). destruct (needs_separator raw); lia.
  - destruct Hm as [-> Hm]. split; [done|exact Hm].
Qed.

(** ** Witnesses *)

(** A scheme in which a signature is the digest written twice. *)
Definition toy : Crypto := {|
  ed25519_Verify := fun pk d sg => bool_decide (sg = d ++ d);
  ParsePKIXPublicKey := fun _ => None;
  ParseUncompressedPublicKey := fun raw => Some raw;
  ecdsa_VerifyASN1 := fun _ _ _ => false
|}.

Definition toy_signer : signer :=
  LocalSigner_Sign (fun _ d => d ++ d) (take 32) (replicate 64 "k"%char).

Definition toy_env : sign_env :=
  mkSignEnv false None false "2026-01-01T00:00:00Z" "" false (fun _ => false) 0 "b.tmp".

(** The sample bundle without its final newline. *)
Definition unterminated : bytes := Eval vm_compute in removelast sample_raw.

Definition toy_signed : list files * result sign_error (string * bytes) :=
  Eval vm_compute in
    signToWithSignerLimited toy_env (Some (unterminated, false)) true toy_signer MaxBundleSizeBytes ∅ "b".

Definition toy_payload : bytes :=
  Eval vm_compute in match toy_signed.2 with Ok (_, p) => p | Err _ => [] end.

Definition toy_bundle : bundle :=
  Eval vm_compute in match LoadReader (Some (bytes_reader unterminated)) with Ok b => b | Err _ => [] end.

Definition toy_reloaded : bundle :=
  Eval vm_compute in match LoadReader (Some (bytes_reader toy_payload)) with Ok b => b | Err _ => [] end.

Lemma signed_bundle_verifies_witness :
  exists r, LoadReader (Some (bytes_reader toy_payload)) = Ok (toy_bundle ++ [r]) /\
    Verify (toy_bundle ++ [r]) = Ok tt /\
    @inspectBundleSignature toy (toy_bundle ++ [r]) =
      Some (mkResult true true (sha256_hex unterminated) None).
Proof.
  destruct (@signed_bundle_verifies toy toy_env unterminated true toy_signer ∅ "b"
    toy_signed.1 (sha256_hex unterminated) toy_payload toy_bundle)
    as (r & H1 & H2 & _ & H4).
  - vm_compute. reflexivity.
  - vm_compute. reflexivity.
  - vm_compute. reflexivity.
  - vm_compute. reflexivity.
  - vm_compute. discriminate.
  - intros sg al [= <-] [= <-]. split_and!; [|reflexivity..].
    vm_compute. repeat split.
  - vm_compute. reflexivity.
  - vm_compute. reflexivity.
  - exists r. split; [exact H1|]. split; [exact H2|exact H4].
Defined.

Lemma verified_signature_sound_witness :
  exists (i : nat) r p l sig sg pub digest, toy_reloaded !! i = Some r /\
    record_lines toy_payload !! i = Some (p, l) /\
    ParseBundleSignature (Event.Data (Event_ r)) = Ok sig /\
    (digest = Sha256.sum256 p \/ exists q, p = q ++ [newline] /\ digest = Sha256.sum256 q) /\
    @scheme_accepts toy (if String.eqb (Algorithm sig) "" then "ed25519" else Algorithm sig) pub digest sg.
Proof.
  destruct (@verified_signature_sound toy (bytes_reader toy_payload) default_limits toy_reloaded
    (mkResult true true (sha256_hex unterminated) None))
    as (i & r & p & l & sig & sg & pub & digest & _ & H1 & H2 & H3 & H4 & _ & _ & _ & H5).
  - vm_compute. reflexivity.
  - vm_compute. reflexivity.
  - reflexivity.
  - exists i, r, p, l, sig, sg, pub, digest. split_and!; assumption.
Defined.
End BundleSign.
