(* ===== verification/Profiles.v ===== *)
(** * Package internal/profiles: obligation profiles

    [schema.go], [evaluate.go], [loader.go] and [dsl.go]: the schema of a profile, its
    validation, the two ways a profile is compiled, and its evaluation over the records of
    a bundle. YAML decoding is third-party code: the functions take the decoded structs.
    A map is an association list in the order an iteration visits it. The theorems:
    validation accepts exactly the well-formed schemas; a profile passes exactly when the
    bundle meets its obligations; records of other event types do not matter. *)

From S2P Require Import Prelude GoText GoFloat GoJson GoValue GoUnicode GoTime Event Bundle.
From Stdlib Require Import SpecFloat.
Import Bundle.

Module Profiles.

(** ** Schemas *)

Record requiredWhenRule := mkRequiredWhen { WhenType : string; AtOrAfter : bool; rw_Message : string }.

Record EventRule := mkEventRule {
  Type_ : string;
  Fields : list string;
  Message : string;
  Severity : string;
  RequiredWhen : list requiredWhenRule
}.

Record RelationPredicate := mkPredicate { Side : string; p_Field : string; Equals : string }.

Record RelationRule := mkRelation {
  Name : string;
  From : string;
  To : string;
  Field : string;
  r_Message : string;
  Predicates : list RelationPredicate
}.

Record ProfileSchema := mkSchema {
  ID : string;
  Version : Z;
  WorkflowClass : string;
  BlindSpots : list string;
  Weights : list (string * float64);
  SupportsCAS : bool;
  SCMode : string;
  Required : list EventRule;
  Optional : list EventRule;
  Relations : list RelationRule
}.

Definition expectedWeightKeys : list string := ["EC"; "FC"; "RC"; "TC"; "SC"; "XC"; "AC"; "GC"].

Inductive schema_error :=
| SID | SVersion | SWorkflowClass
| SWeightKeys | SUnknownWeight (key : string) | SMissingWeight (key : string) | SWeightSum
| SRuleType (section : string) | SDuplicate (section type : string) | SSeverity (type : string)
| SWhenOnRequired (type : string) | SWhenEmpty (type : string) | SWhenSelf (type : string)
| SWhenUnknown (type when : string) | SCycle
| SSide (i j : nat) | SPredicateField (i j : nat) | SPredicateEquals (i j : nat).

(** ** Validation *)

Definition one : float64 := round_decimal false 1 0.
Definition epsilon : float64 := round_decimal false 1 (-9).

(** [math.Abs(sum-1.0) > 1e-9] *)
Definition sums_wrong (sum : float64) : bool := fltb epsilon (SFabs (fsub sum one)).

Fixpoint sum_weights (weights : list (string * float64)) (sum : float64) : result schema_error float64 :=
  match weights with
  | [] => Ok sum
  | (key, value) :: rest =>
      if negb (bool_decide (key ∈ expectedWeightKeys)) then Err (SUnknownWeight key)
      else sum_weights rest (fadd sum value)
  end.

Definition validateWeights (weights : list (string * float64)) : result schema_error unit :=
  if negb (length weights =? length expectedWeightKeys)%nat then Err SWeightKeys
  else
    let? sum := sum_weights weights (S754_zero false) in
    match List.find (fun k => negb (bool_decide (k ∈ weights.*1))) expectedWeightKeys with
    | Some k => Err (SMissingWeight k)
    | None => if sums_wrong sum then Err SWeightSum else Ok tt
    end.

Fixpoint validate_conditions (ruleType : string) (conds : list requiredWhenRule) : result schema_error unit :=
  match conds with
  | [] => Ok tt
  | r :: rest =>
      let when := TrimSpace (WhenType r) in
      if String.eqb when "" then Err (SWhenEmpty ruleType)
      else if String.eqb when ruleType then Err (SWhenSelf ruleType)
      else validate_conditions ruleType rest
  end.

Fixpoint validate_event_rules (section : string) (seen : list string) (rules : list EventRule) :
    result schema_error unit :=
  match rules with
  | [] => Ok tt
  | rule :: rest =>
      let ruleType := TrimSpace (Type_ rule) in
      if String.eqb ruleType "" then Err (SRuleType section)
      else if bool_decide (ruleType ∈ seen) then Err (SDuplicate section ruleType)
      else
        let severity := TrimSpace (Severity rule) in
        if negb (String.eqb severity "critical" || String.eqb severity "warning") then Err (SSeverity ruleType)
        else if String.eqb section "required" && negb (length (RequiredWhen rule) =? 0)%nat
        then Err (SWhenOnRequired ruleType)
        else
          let? _ := validate_conditions ruleType (RequiredWhen rule) in
          validate_event_rules section (ruleType :: seen) rest
  end.

Definition validateEventRules (section : string) (rules : list EventRule) : result schema_error unit :=
  validate_event_rules section [] rules.

(** The edges of the required_when relation: the condition's type to the rule's. *)
Fixpoint condition_edges (types : list string) (from : string) (conds : list requiredWhenRule) :
    result schema_error (list (string * string)) :=
  match conds with
  | [] => Ok []
  | rw :: rest =>
      let when := TrimSpace (WhenType rw) in
      if String.eqb when "" then condition_edges types from rest
      else if negb (bool_decide (when ∈ types)) then Err (SWhenUnknown from when)
      else let? es := condition_edges types from rest in Ok ((when, from) :: es)
  end.

Fixpoint rule_edges (types : list string) (rules : list EventRule) : result schema_error (list (string * string)) :=
  match rules with
  | [] => Ok []
  | rule :: rest =>
      let? es := condition_edges types (TrimSpace (Type_ rule)) (RequiredWhen rule) in
      let? es' := rule_edges types rest in
      Ok (es ++ es')
  end.

Definition event_types (rules : list EventRule) : list string :=
  List.filter (fun t => negb (String.eqb t "")) (map (fun rule => TrimSpace (Type_ rule)) rules).

Definition validateRequiredWhenReferences (required optional : list EventRule) : result schema_error unit :=
  let types := event_types required ++ event_types optional in
  let? es := rule_edges types required in
  let? es' := rule_edges types optional in
  let edges := es ++ es' in
  if existsb (fun e => negb (String.eqb e.1 e.2) && bool_decide ((e.2, e.1) ∈ edges)) edges
  then Err SCycle else Ok tt.

Fixpoint validate_predicates (i j : nat) (ps : list RelationPredicate) : result schema_error unit :=
  match ps with
  | [] => Ok tt
  | p :: rest =>
      let side := TrimSpace (Side p) in
      if negb (String.eqb side "from" || String.eqb side "to") then Err (SSide i j)
      else if String.eqb (TrimSpace (p_Field p)) "" then Err (SPredicateField i j)
      else if String.eqb (TrimSpace (Equals p)) "" then Err (SPredicateEquals i j)
      else validate_predicates i (S j) rest
  end.

Fixpoint validate_relations (i : nat) (rules : list RelationRule) : result schema_error unit :=
  match rules with
  | [] => Ok tt
  | rule :: rest => let? _ := validate_predicates i 0 (Predicates rule) in validate_relations (S i) rest
  end.

Definition validateRelationRules (rules : list RelationRule) : result schema_error unit := validate_relations 0 rules.

Definition validateSchema (s : ProfileSchema) : result schema_error unit :=
  if String.eqb (TrimSpace (ID s)) "" then Err SID
  else if Version s <? 1 then Err SVersion
  else if String.eqb (TrimSpace (WorkflowClass s)) "" then Err SWorkflowClass
  else
    let? _ := validateWeights (Weights s) in
    let? _ := validateEventRules "required" (Required s) in
    let? _ := validateEventRules "optional" (Optional s) in
    let? _ := validateRequiredWhenReferences (Required s) (Optional s) in
    validateRelationRules (Relations s).

(** ** Loading: [loader.go] *)

Section loading.
Context `{Unicode}.

Definition trimAndFilter (values : list string) : list string :=
  List.filter (fun v => negb (String.eqb v "")) (map TrimSpace values).

Definition normalise_condition (c : requiredWhenRule) : requiredWhenRule :=
  mkRequiredWhen (TrimSpace (WhenType c)) (AtOrAfter c) (TrimSpace (rw_Message c)).

Definition normaliseEventRule (rule : EventRule) : EventRule :=
  mkEventRule (TrimSpace (Type_ rule)) (trimAndFilter (Fields rule)) (TrimSpace (Message rule))
    (TrimSpace (Severity rule)) (map normalise_condition (RequiredWhen rule)).

Definition normalise_predicate (p : RelationPredicate) : RelationPredicate :=
  mkPredicate (ToLower (TrimSpace (Side p))) (TrimSpace (p_Field p)) (TrimSpace (Equals p)).

Definition normaliseRelationRule (rule : RelationRule) : RelationRule :=
  mkRelation (TrimSpace (Name rule)) (TrimSpace (From rule)) (TrimSpace (To rule)) (TrimSpace (Field rule))
    (TrimSpace (r_Message rule)) (map normalise_predicate (Predicates rule)).

Definition normaliseSchema (s : ProfileSchema) : ProfileSchema :=
  mkSchema (TrimSpace (ID s)) (Version s) (TrimSpace (WorkflowClass s)) (trimAndFilter (BlindSpots s))
    (fold_left (fun m kv => assoc_set (TrimSpace kv.1) kv.2 m) (Weights s) [])
    (SupportsCAS s) (TrimSpace (SCMode s)) (map normaliseEventRule (Required s))
    (map normaliseEventRule (Optional s)) (map normaliseRelationRule (Relations s)).

(** After the YAML decoder. *)
Definition ParseSchema (decoded : ProfileSchema) : result schema_error ProfileSchema :=
  let schema := normaliseSchema decoded in
  let? _ := validateSchema schema in
  Ok schema.

(** The embedded templates, each read and decoded: no two have the same id. *)
Fixpoint load_templates (loaded : list (string * ProfileSchema)) (decoded : list ProfileSchema) :
    option (list (string * ProfileSchema)) :=
  match decoded with
  | [] => Some loaded
  | d :: rest =>
      match ParseSchema d with
      | Err _ => None
      | Ok schema =>
          match assoc (ID schema) loaded with
          | Some _ => None
          | None => load_templates (assoc_set (ID schema) schema loaded) rest
          end
      end
  end.

Definition loadTemplates (decoded : list ProfileSchema) : option (list (string * ProfileSchema)) :=
  load_templates [] decoded.

Definition LoadSchema (templates : option (list (string * ProfileSchema))) (id : string) : option ProfileSchema :=
  m ← templates; assoc id m.

Definition HasSchema (templates : option (list (string * ProfileSchema))) (id : string) : bool :=
  match LoadSchema templates id with Some _ => true | None => false end.
End loading.

(** ** User profiles: [dsl.go] *)

Record dslProfile := mkDSL {
  d_ID : string;
  d_Version : Z;
  d_Description : string;
  d_RequiredEvents : list string;
  d_WarningEvents : list string;
  d_CASWeights : list (string * float64)
}.

Inductive dsl_error :=
| DID | DCollision (id : string) | DUnknownWeight (key : string) | DWeightSum
| DEmptyEvent (field : string) | DDuplicateEvent (field type : string).

Fixpoint compile_weights (raw full : list (string * float64)) (sum : float64) :
    result dsl_error (list (string * float64) * float64) :=
  match raw with
  | [] => Ok (full, sum)
  | (key, value) :: rest =>
      let k := TrimSpace key in
      if negb (bool_decide (k ∈ expectedWeightKeys)) then Err (DUnknownWeight key)
      else compile_weights rest (assoc_set k value full) (fadd sum value)
  end.

Definition compileDSLWeights (raw : list (string * float64)) (supportsCAS : bool) :
    result dsl_error (list (string * float64)) :=
  let full := map (fun k => (k, S754_zero false)) expectedWeightKeys in
  if negb supportsCAS then Ok full
  else
    let? r := compile_weights raw full (S754_zero false) in
    if sums_wrong r.2 then Err DWeightSum else Ok r.1.

Fixpoint compile_events (seen types : list string) (field severity : string) : result dsl_error (list EventRule) :=
  match types with
  | [] => Ok []
  | et :: rest =>
      let et := TrimSpace et in
      if String.eqb et "" then Err (DEmptyEvent field)
      else if bool_decide (et ∈ seen) then Err (DDuplicateEvent field et)
      else
        let? rules := compile_events (et :: seen) rest field severity in
        Ok (mkEventRule et [] (et +:+ " missing") severity [] :: rules)
  end.

Definition compileDSLEvents (types : list string) (field severity : string) : result dsl_error (list EventRule) :=
  compile_events [] types field severity.

Fixpoint last_segment (acc b : bytes) : bytes :=
  match b with
  | [] => acc
  | c :: rest => if bool_decide (c = "."%char) then last_segment [] rest else last_segment (acc ++ [c]) rest
  end.

Definition workflowClassFromID (id : string) : string := S_of (last_segment [] (B id)).

(** [ParseDSLProfile] after the YAML decoder; [has_schema] is [HasSchema]. *)
Definition ParseDSLProfile (has_schema : string -> bool) (dsl : dslProfile) : result dsl_error ProfileSchema :=
  let id := TrimSpace (d_ID dsl) in
  let description := TrimSpace (d_Description dsl) in
  if String.eqb id "" then Err DID
  else
    let version := if d_Version dsl <? 1 then 1 else d_Version dsl in
    if has_schema id then Err (DCollision id)
    else
      let supportsCAS := (0 <? length (d_CASWeights dsl))%nat in
      let? weights := compileDSLWeights (d_CASWeights dsl) supportsCAS in
      let? required := compileDSLEvents (d_RequiredEvents dsl) "required_events" "critical" in
      let? optional := compileDSLEvents (d_WarningEvents dsl) "warning_events" "warning" in
      let workflowClass := if String.eqb description "" then workflowClassFromID id else description in
      Ok (mkSchema id version workflowClass [] weights supportsCAS "" required optional []).

(** ** Evaluation: [evaluate.go] *)

Record CriticalFailure := mkFailure { f_ID : string; Kind : string; Detail : string }.

#[export] Instance failure_eq_dec : EqDecision CriticalFailure.
Proof. solve_decision. Defined.

Record EvaluationResult := mkResult {
  Pass : bool;
  CriticalFailures : list CriticalFailure;
  RequiredWarnings : list string;
  InformationalNotes : list string
}.

Definition add_failure (f : CriticalFailure) (r : EvaluationResult) : EvaluationResult :=
  mkResult (Pass r) (CriticalFailures r ++ [f]) (RequiredWarnings r) (InformationalNotes r).

Definition add_warning (w : string) (r : EvaluationResult) : EvaluationResult :=
  mkResult (Pass r) (CriticalFailures r) (RequiredWarnings r ++ [w]) (InformationalNotes r).

Definition dataMap (data : any) : option (list (string * any)) :=
  match data with AMap l => Some l | _ => None end.

Definition hasField (data : option (list (string * any))) (key : string) : bool :=
  match data with
  | None => false
  | Some m =>
      match assoc key m with
      | None => false
      | Some (AString s) => negb (String.eqb s "")
      | Some ANil => false
      | Some _ => true
      end
  end.

Definition missingFields (data : option (list (string * any))) (fields : list string) : list string :=
  List.filter (fun f => negb (hasField data f)) fields.

Definition push_record (k : string) (r : Record_) (m : gmap string (list Record_)) : gmap string (list Record_) :=
  <[k := default [] (m !! k) ++ [r]]> m.

Definition indexRecordsByType (records : list Record_) : gmap string (list Record_) :=
  fold_left (fun m r => push_record (Event.Type_ (Event_ r)) r m) records ∅.

Definition fieldString (r : Record_) (field : string) : string :=
  match dataMap (Event.Data (Event_ r)) with
  | None => ""
  | Some m => match assoc field m with Some (AString s) => s | _ => "" end
  end.

Definition indexByField (records : list Record_) (field : string) : gmap string (list Record_) :=
  fold_left (fun m r =>
    let value := fieldString r field in
    if String.eqb value "" then m else push_record value r m) records ∅.

(** Reading a Go map of slices. *)
Definition at_key (m : gmap string (list Record_)) (k : string) : list Record_ := default [] (m !! k).

Inductive timestamp := NoTimestamp | BadTimestamp | At (t : Z).

Definition parseEventTimestamp (r : Record_) : timestamp :=
  let raw := TrimSpace (Event.Timestamp (Event_ r)) in
  if String.eqb raw "" then NoTimestamp
  else match parse_rfc3339 (B raw) with None => BadTimestamp | Some t => At t end.

Definition messageOrDefault (message fallback : string) : string :=
  if negb (String.eqb (TrimSpace message) "") then message else fallback.

Definition requiredEventID (eventType : string) : string := "required:" +:+ eventType.
Definition optionalEventID (eventType : string) : string := "optional:" +:+ eventType.
Definition requiredFieldID (eventType field : string) : string := "required:" +:+ eventType +:+ ":field:" +:+ field.
Definition requiredWhenID (targetType conditionType : string) : string :=
  "required_when:" +:+ targetType +:+ ":when:" +:+ conditionType.

Definition relationID (rule : RelationRule) : string :=
  let name := TrimSpace (Name rule) in
  if negb (String.eqb name "") then "relation:" +:+ name
  else "relation:" +:+ From rule +:+ ":" +:+ To rule +:+ ":" +:+ Field rule.

Definition relationPredicateID (rule : RelationRule) (p : RelationPredicate) : string :=
  relationID rule +:+ ":predicate:" +:+ p_Field p +:+ ":" +:+ Equals p.

Definition relationDefaultMessage (rule : RelationRule) : string :=
  if negb (String.eqb (TrimSpace (Name rule)) "") then Name rule
  else From rule +:+ " " +:+ To rule +:+ " must match on " +:+ Field rule.

Definition appendUniqueStrings (dst values : list string) : list string :=
  fold_left (fun dst v => if bool_decide (v ∈ dst) then dst else dst ++ [v]) values dst.

Definition less_failure (a b : CriticalFailure) : bool :=
  if String.eqb (Kind a) (Kind b) then string_ltb (Detail a) (Detail b) else string_ltb (Kind a) (Kind b).

Definition finaliseEvaluationResult (r : EvaluationResult) : EvaluationResult :=
  mkResult (length (CriticalFailures r) =? 0)%nat (insertion_sort less_failure (CriticalFailures r))
    (insertion_sort string_ltb (appendUniqueStrings [] (RequiredWarnings r)))
    (insertion_sort string_ltb (appendUniqueStrings [] (InformationalNotes r))).

Section evaluate.
Context `{Unicode}.

Definition relationPredicateMessage (rule : RelationRule) (p : RelationPredicate) (actual : string) : string :=
  relationDefaultMessage rule +:+ ": predicate " +:+ Side p +:+ "." +:+ p_Field p +:+ " got " +:+ Quote actual +:+
  ", want " +:+ Quote (Equals p).

Definition appendRuleFinding (result : EvaluationResult) (rule : EventRule) (id kind detail : string) :
    EvaluationResult :=
  if EqualFold (Severity rule) "warning" then add_warning detail result
  else add_failure (mkFailure id kind detail) result.

(** [evaluateRequiredRule] and [evaluateOptionalRule] differ in the id of a missing event. *)
Definition evaluate_rule (event_id : string -> string) (result : EvaluationResult) (records : list Record_)
    (rule : EventRule) : EvaluationResult :=
  match records with
  | [] => appendRuleFinding result rule (event_id (Type_ rule)) "missing_event"
            (messageOrDefault (Message rule) (Type_ rule +:+ " missing"))
  | first :: _ =>
      match missingFields (dataMap (Event.Data (Event_ first))) (Fields rule) with
      | [] => result
      | missing :: _ => appendRuleFinding result rule (requiredFieldID (Type_ rule) missing) "missing_field"
            (messageOrDefault (Message rule) (Type_ rule +:+ " missing required fields"))
      end
  end.

Definition evaluateRequiredRule := evaluate_rule requiredEventID.
Definition evaluateOptionalRule := evaluate_rule optionalEventID.

Fixpoint first_predicate_failure (rule : RelationRule) (from to : Record_) (ps : list RelationPredicate) :
    option CriticalFailure :=
  match ps with
  | [] => None
  | p :: rest =>
      let target := if String.eqb (Side p) "from" then from else to in
      let actual := fieldString target (p_Field p) in
      if EqualFold actual (Equals p) then first_predicate_failure rule from to rest
      else Some (mkFailure (relationPredicateID rule p) "relation_violation" (relationPredicateMessage rule p actual))
  end.

Definition firstRelationPredicateFailure (rule : RelationRule) (from to : Record_) : option CriticalFailure :=
  first_predicate_failure rule from to (Predicates rule).

Definition zero_failure : CriticalFailure := mkFailure "" "" "".

Fixpoint relation_failure (rule : RelationRule) (from : Record_) (linked : list Record_)
    (firstFailure : CriticalFailure) : option CriticalFailure :=
  match linked with
  | [] => if bool_decide (firstFailure = zero_failure) then None else Some firstFailure
  | to :: rest =>
      match firstRelationPredicateFailure rule from to with
      | None => None
      | Some f => relation_failure rule from rest (if bool_decide (firstFailure = zero_failure) then f else firstFailure)
      end
  end.

Definition relationPredicateFailure (rule : RelationRule) (from : Record_) (linked : list Record_) :
    option CriticalFailure := relation_failure rule from linked zero_failure.

Definition evaluate_link (rule : RelationRule) (toByField : gmap string (list Record_)) (result : EvaluationResult)
    (fromRecord : Record_) : EvaluationResult :=
  let fieldValue := fieldString fromRecord (Field rule) in
  let linked := at_key toByField fieldValue in
  let bound := negb (String.eqb fieldValue "") && (0 <? length linked)%nat in
  if bound && (length (Predicates rule) =? 0)%nat then result
  else if bound then
    match relationPredicateFailure rule fromRecord linked with
    | Some f => add_failure f result
    | None => result
    end
  else
    add_failure (mkFailure (relationID rule) "relation_violation"
      (messageOrDefault (r_Message rule) (relationDefaultMessage rule))) result.

Definition evaluateRelationRule (result : EvaluationResult) (recordsByType : gmap string (list Record_))
    (rule : RelationRule) : EvaluationResult :=
  let fromRecords := at_key recordsByType (From rule) in
  let toRecords := at_key recordsByType (To rule) in
  if (length fromRecords =? 0)%nat then result
  else if (length toRecords =? 0)%nat then result
  else fold_left (evaluate_link rule (indexByField toRecords (Field rule))) fromRecords result.

Definition unable (targetType conditionType what : string) : string :=
  "required_when: unable to enforce ordering between " +:+ targetType +:+ " and " +:+ conditionType +:+
  " because " +:+ what.

(** Whether a target has a valid time stamp, and whether one is not before [t]. *)
Fixpoint scan_targets (t : Z) (targets : list Record_) (anyValid : bool) : bool * bool :=
  match targets with
  | [] => (anyValid, false)
  | r :: rest =>
      match parseEventTimestamp r with
      | At ts => if negb (ts <? t) then (true, true) else scan_targets t rest true
      | _ => scan_targets t rest anyValid
      end
  end.

Definition evaluate_condition (recordsByType : gmap string (list Record_)) (targetType : string)
    (result : EvaluationResult) (cond : requiredWhenRule) : EvaluationResult :=
  let targetRecords := at_key recordsByType targetType in
  let conditionType := WhenType cond in
  match at_key recordsByType conditionType with
  | [] => result
  | first :: _ =>
      if (length targetRecords =? 0)%nat then
        let detail := if String.eqb (TrimSpace (rw_Message cond)) ""
                      then "required_when: " +:+ targetType +:+ " required when " +:+ conditionType +:+ " present"
                      else rw_Message cond in
        add_failure (mkFailure (requiredWhenID targetType conditionType) "missing_event" detail) result
      else if negb (AtOrAfter cond) then result
      else
        match parseEventTimestamp first with
        | NoTimestamp => add_warning (unable targetType conditionType (conditionType +:+ " timestamp is missing")) result
        | BadTimestamp => add_warning (unable targetType conditionType (conditionType +:+ " timestamp is invalid")) result
        | At condTime =>
            let '(anyValid, anyAtOrAfter) := scan_targets condTime targetRecords false in
            if negb anyValid then
              add_warning (unable targetType conditionType (targetType +:+ " timestamps are missing or invalid")) result
            else if negb anyAtOrAfter then
              add_failure (mkFailure (requiredWhenID targetType conditionType) "temporal_violation"
                ("required_when: " +:+ targetType +:+ " must occur at or after " +:+ conditionType)) result
            else result
        end
  end.

Definition evaluateRequiredWhenRules (result : EvaluationResult) (schema : ProfileSchema)
    (recordsByType : gmap string (list Record_)) : EvaluationResult :=
  fold_left (fun result rule => fold_left (evaluate_condition recordsByType (Type_ rule)) (RequiredWhen rule) result)
    (Required schema ++ Optional schema) result.

Definition Evaluate (schema : ProfileSchema) (records : list Record_) : EvaluationResult :=
  let result := mkResult false [] [] [] in
  let recordsByType := indexRecordsByType records in
  let result := fold_left (fun result rule =>
    evaluateRequiredRule result (at_key recordsByType (Type_ rule)) rule) (Required schema) result in
  let result := fold_left (fun result rule =>
    evaluateOptionalRule result (at_key recordsByType (Type_ rule)) rule) (Optional schema) result in
  let result := fold_left (fun result rule => evaluateRelationRule result recordsByType rule) (Relations schema) result in
  let result := evaluateRequiredWhenRules result schema recordsByType in
  finaliseEvaluationResult
    (mkResult (Pass result) (CriticalFailures result) (RequiredWarnings result)
       (InformationalNotes result ++ BlindSpots schema)).
End evaluate.

(** ** Validation accepts the well-formed schemas *)

Definition rule_type (rule : EventRule) : string := TrimSpace (Type_ rule).

Definition wf_weights (weights : list (string * float64)) : Prop :=
  length weights = 8%nat /\ Forall (fun kv => kv.1 ∈ expectedWeightKeys) weights /\
  Forall (fun k => k ∈ weights.*1) expectedWeightKeys /\
  sums_wrong (fold_left (fun sum kv => fadd sum kv.2) weights (S754_zero false)) = false.

Definition wf_condition (ruleType : string) (c : requiredWhenRule) : Prop :=
  TrimSpace (WhenType c) <> "" /\ TrimSpace (WhenType c) <> ruleType.

Definition wf_rule (section : string) (rule : EventRule) : Prop :=
  rule_type rule <> "" /\ TrimSpace (Severity rule) ∈ ["critical"; "warning"] /\
  (section = "required" -> RequiredWhen rule = []) /\ Forall (wf_condition (rule_type rule)) (RequiredWhen rule).

Definition wf_rules (section : string) (rules : list EventRule) : Prop :=
  NoDup (rule_type <$> rules) /\ Forall (wf_rule section) rules.

(** A rule for [b] is conditional on [a]. *)
Definition conditional (rules : list EventRule) (a b : string) : Prop :=
  exists rule c, rule ∈ rules /\ rule_type rule = b /\ c ∈ RequiredWhen rule /\ TrimSpace (WhenType c) = a.

Definition wf_references (rules : list EventRule) : Prop :=
  (forall a b, conditional rules a b -> a ∈ (rule_type <$> rules)) /\
  (forall a b, a <> b -> conditional rules a b -> ~ conditional rules b a).

Definition wf_predicate (p : RelationPredicate) : Prop :=
  TrimSpace (Side p) ∈ ["from"; "to"] /\ TrimSpace (p_Field p) <> "" /\ TrimSpace (Equals p) <> "".

Definition wf_relations (rules : list RelationRule) : Prop := Forall (fun r => Forall wf_predicate (Predicates r)) rules.

Definition wf_schema (s : ProfileSchema) : Prop :=
  TrimSpace (ID s) <> "" /\ 1 <= Version s /\ TrimSpace (WorkflowClass s) <> "" /\
  wf_weights (Weights s) /\ wf_rules "required" (Required s) /\ wf_rules "optional" (Optional s) /\
  wf_references (Required s ++ Optional s) /\ wf_relations (Relations s).

Lemma sum_weights_ok weights sum :
  match sum_weights weights sum with
  | Ok s => Forall (fun kv => kv.1 ∈ expectedWeightKeys) weights /\
            s = fold_left (fun sum kv => fadd sum kv.2) weights sum
  | Err _ => ~ Forall (fun kv => kv.1 ∈ expectedWeightKeys) weights
  end.
Proof.
  revert sum. induction weights as [|[k v] l IH]; intros sum; [done|]. cbn [sum_weights fold_left].
  case_bool_decide as Hk; cbn [negb].
  - specialize (IH (fadd sum v)). destruct (sum_weights l _) as [s|e].
    + destruct IH as [H ->]. by split; [constructor|].
    + intros [_ Hl]%Forall_cons. done.
  - intros [? _]%Forall_cons. done.
Qed.

Lemma find_none {A} (f : A -> bool) l : List.find f l = None <-> Forall (fun x => f x = false) l.
Proof.
  induction l as [|x l IH]; cbn; [by split|]. rewrite Forall_cons. destruct (f x); [|rewrite IH; naive_solver].
  split; [done|by intros [? _]].
Qed.

Lemma validateWeights_ok weights : validateWeights weights = Ok tt <-> wf_weights weights.
Proof.
  unfold validateWeights, wf_weights. change (length expectedWeightKeys) with 8%nat.
  destruct (Nat.eqb_spec (length weights) 8) as [El|El]; cbn [negb]; [|naive_solver].
  pose proof (sum_weights_ok weights (S754_zero false)) as H.
  destruct (sum_weights weights _) as [s|e]; [|split; [done|]; by intros (_ & ? & _)].
  destruct H as [Hk ->].
  destruct (List.find _ expectedWeightKeys) as [k|] eqn:Ef.
  - apply find_some in Ef as [Hin Hk']. split; [done|]. intros (_ & _ & Hall & _).
    rewrite Forall_forall in Hall. apply negb_true_iff, bool_decide_eq_false in Hk'. destruct Hk'. apply Hall.
    by apply list_elem_of_In.
  - apply find_none in Ef. assert (Forall (fun k => k ∈ weights.*1) expectedWeightKeys) as Hp.
    { eapply Forall_impl; [exact Ef|]. cbn beta. intros k Hb. by apply negb_false_iff, bool_decide_eq_true in Hb. }
    destruct (sums_wrong _); naive_solver.
Qed.

Lemma validate_conditions_ok ty conds :
  validate_conditions ty conds = Ok tt <-> Forall (wf_condition ty) conds.
Proof.
  induction conds as [|c l IH]; cbn [validate_conditions]; [by split|]. rewrite Forall_cons. unfold wf_condition at 1.
  destruct (String.eqb_spec (TrimSpace (WhenType c)) ""); [naive_solver|].
  destruct (String.eqb_spec (TrimSpace (WhenType c)) ty); [naive_solver|]. rewrite IH. naive_solver.
Qed.

Lemma validate_event_rules_ok section seen rules :
  validate_event_rules section seen rules = Ok tt <->
  NoDup (rule_type <$> rules) /\ (forall t, t ∈ seen -> t ∉ (rule_type <$> rules)) /\ Forall (wf_rule section) rules.
Proof.
  revert seen. induction rules as [|r l IH]; intros seen; cbn [validate_event_rules].
  { split; [|done]. intros _. split; [constructor|]. split; [|done]. by intros t _ ?%elem_of_nil. }
  rewrite fmap_cons, NoDup_cons, Forall_cons. fold (rule_type r).
  unfold wf_rule at 1.
  destruct (String.eqb_spec (rule_type r) "") as [E|E]; [naive_solver|].
  case_bool_decide as Hs.
  { split; [done|]. intros (_ & Hd & _). destruct (Hd _ Hs). by left. }
  destruct (String.eqb_spec (TrimSpace (Severity r)) "critical") as [Ec|Ec], (String.eqb_spec (TrimSpace (Severity r)) "warning") as [Ew|Ew];
    cbn [orb negb]; [congruence| | |split; [done|]; intros (_ & _ & (_ & Hin & _) & _); set_solver].
  all: assert (TrimSpace (Severity r) ∈ ["critical"; "warning"]) as Hsev by set_solver.
  all: destruct (String.eqb_spec section "required") as [Er|Er], (Nat.eqb_spec (length (RequiredWhen r)) 0) as [El|El]; cbn [andb negb].
  all: try (split; [done|]; intros (_ & _ & (_ & _ & Hn & _) & _); by rewrite Hn in El).
  all: destruct (validate_conditions _ _) as [[]|e] eqn:Ev;
    [apply validate_conditions_ok in Ev|
     split; [done|]; intros (_ & _ & (_ & _ & _ & Hc) & _); apply validate_conditions_ok in Hc; congruence].
  all: rewrite IH; split; [intros (H1 & H2 & H3)|intros ((H1 & H1') & H2 & (H3 & H4 & H5 & H6) & H7)].
  all: try (split; [done|]; split; [|done]; intros t [->|Ht]%elem_of_cons; [done|]; intros Hin; apply (H2 t Ht); by right).
  all: split; [split; [apply H2; by left|done]|].
  all: split; [intros t Ht [->|Hin]%elem_of_cons; [done|]; by apply (H2 t); [right|]|].
  all: split; [|done]; split; [done|]; split; [done|]; split; [|done].
  all: intros Hsec; first [congruence|by destruct (RequiredWhen r)].
Qed.

Lemma validateEventRules_ok section rules : validateEventRules section rules = Ok tt <-> wf_rules section rules.
Proof.
  unfold validateEventRules. rewrite validate_event_rules_ok. unfold wf_rules. split; [naive_solver|].
  intros [? ?]. split; [done|]. split; [|done]. by intros t ?%elem_of_nil.
Qed.

Definition conditions_of (rules : list EventRule) : list (string * string) :=
  rule ← rules; (fun c => (TrimSpace (WhenType c), rule_type rule)) <$> RequiredWhen rule.

Lemma conditions_elem rules a b : (a, b) ∈ conditions_of rules <-> conditional rules a b.
Proof.
  unfold conditions_of, conditional. rewrite list_elem_of_bind. split.
  - intros (rule & Hin & Hrule). apply list_elem_of_fmap in Hin as (c & [= -> ->] & Hc). by exists rule, c.
  - intros (rule & c & Hrule & <- & Hc & <-). exists rule. split; [|done]. apply list_elem_of_fmap. by exists c.
Qed.

Lemma condition_edges_ok types from conds :
  Forall (fun c => TrimSpace (WhenType c) <> "") conds ->
  match condition_edges types from conds with
  | Ok es => es = (fun c => (TrimSpace (WhenType c), from)) <$> conds /\
             Forall (fun c => TrimSpace (WhenType c) ∈ types) conds
  | Err _ => ~ Forall (fun c => TrimSpace (WhenType c) ∈ types) conds
  end.
Proof.
  induction 1 as [|c l Hc Hl IH]; cbn [condition_edges]; [by split|].
  destruct (String.eqb_spec (TrimSpace (WhenType c)) ""); [done|].
  case_bool_decide as Ht; cbn [negb]; [|by intros [? _]%Forall_cons].
  destruct (condition_edges types from l) as [es|e]; [|by intros [_ ?]%Forall_cons].
  destruct IH as [-> Hf]. split; [done|by constructor].
Qed.

Definition named_conditions (rules : list EventRule) : Prop :=
  Forall (fun r => Forall (fun c => TrimSpace (WhenType c) <> "") (RequiredWhen r)) rules.

Lemma rule_edges_ok types rules :
  named_conditions rules ->
  match rule_edges types rules with
  | Ok es => es = conditions_of rules /\ (forall a b, conditional rules a b -> a ∈ types)
  | Err _ => ~ (forall a b, conditional rules a b -> a ∈ types)
  end.
Proof.
  induction 1 as [|r l Hr Hl IH]; cbn [rule_edges].
  { split; [done|]. intros a b H. apply conditions_elem in H. by apply elem_of_nil in H. }
  pose proof (condition_edges_ok types (rule_type r) (RequiredWhen r) Hr) as Hc. fold (rule_type r).
  assert (forall a b, conditional (r :: l) a b <->
    (exists c, c ∈ RequiredWhen r /\ a = TrimSpace (WhenType c) /\ b = rule_type r) \/ conditional l a b) as Hsplit.
  { intros a b. unfold conditional. setoid_rewrite elem_of_cons. naive_solver. }
  destruct (condition_edges _ _ _) as [es|e].
  - destruct Hc as [-> Hin]. rewrite Forall_forall in Hin. destruct (rule_edges types l) as [es'|e].
    + destruct IH as [-> Hall]. split; [done|]. intros a b [(c & Hc & -> & _)|H]%Hsplit; [by apply Hin|by eapply Hall].
    + intros Hall. apply IH. intros a b H. apply (Hall a b), Hsplit. by right.
  - intros Hall. apply Hc. apply Forall_forall. intros c Hin. apply (Hall _ (rule_type r)), Hsplit. left. by exists c.
Qed.

Lemma event_types_all rules :
  Forall (fun r => rule_type r <> "") rules -> event_types rules = rule_type <$> rules.
Proof.
  unfold event_types. induction 1 as [|r l Hr Hl IH]; [done|]. cbn [map List.filter fmap list_fmap].
  fold (rule_type r). destruct (String.eqb_spec (rule_type r) ""); [done|]. cbn [negb]. by rewrite IH.
Qed.

Lemma wf_rules_named section rules :
  wf_rules section rules -> Forall (fun r => rule_type r <> "") rules /\ named_conditions rules.
Proof.
  intros [_ H]. split; (eapply Forall_impl; [exact H|]); intros r (H1 & _ & _ & H2); [done|].
  eapply Forall_impl; [exact H2|]. by intros c [? _].
Qed.

Lemma validateRequiredWhenReferences_ok required optional :
  wf_rules "required" required -> wf_rules "optional" optional ->
  validateRequiredWhenReferences required optional = Ok tt <-> wf_references (required ++ optional).
Proof.
  intros [Hr1 Hr2]%wf_rules_named [Ho1 Ho2]%wf_rules_named. unfold validateRequiredWhenReferences, wf_references.
  rewrite (event_types_all required), (event_types_all optional) by done. rewrite <- fmap_app.
  set (types := rule_type <$> required ++ optional).
  assert (forall a b, conditional (required ++ optional) a b <-> conditional required a b \/ conditional optional a b) as Hsplit.
  { intros a b. unfold conditional. setoid_rewrite elem_of_app. naive_solver. }
  pose proof (rule_edges_ok types required Hr2) as H1. pose proof (rule_edges_ok types optional Ho2) as H2.
  destruct (rule_edges types required) as [es|e].
  2:{ split; [done|]. intros [Hall _]. destruct H1. intros a b H. eapply Hall, Hsplit. by left. }
  destruct (rule_edges types optional) as [es'|e].
  2:{ split; [done|]. intros [Hall _]. destruct H2. intros a b H. eapply Hall, Hsplit. by right. }
  destruct H1 as [-> H1], H2 as [-> H2].
  assert (forall a b, (a, b) ∈ conditions_of required ++ conditions_of optional <->
    conditional (required ++ optional) a b) as Hedge.
  { intros a b. rewrite elem_of_app, !conditions_elem. by rewrite Hsplit. }
  destruct (existsb _ _) eqn:E.
  - split; [done|]. intros [_ Hno]. apply existsb_exists in E as ([a b] & Hin & [Hne Hback]%andb_true_iff).
    cbn [fst snd] in *. apply list_elem_of_In in Hin.
    apply negb_true_iff, String.eqb_neq in Hne. apply bool_decide_eq_true in Hback.
    by destruct (Hno a b Hne); apply Hedge.
  - split; [intros _|done]. split.
    + intros a b [H|H]%Hsplit; [by eapply H1|by eapply H2].
    + intros a b Hne Hab Hba. assert (existsb (fun e => negb (String.eqb e.1 e.2) &&
        bool_decide ((e.2, e.1) ∈ conditions_of required ++ conditions_of optional))
        (conditions_of required ++ conditions_of optional) = true) as E'; [|congruence].
      apply existsb_exists. exists (a, b). split; [by apply list_elem_of_In, Hedge|]. cbn [fst snd].
      apply andb_true_iff. split; [by apply negb_true_iff, String.eqb_neq|]. by apply bool_decide_eq_true, Hedge.
Qed.

Lemma validate_predicates_ok i j ps : validate_predicates i j ps = Ok tt <-> Forall wf_predicate ps.
Proof.
  revert j. induction ps as [|p l IH]; intros j; cbn [validate_predicates]; [by split|].
  rewrite Forall_cons. unfold wf_predicate at 1.
  destruct (String.eqb_spec (TrimSpace (Side p)) "from") as [Ef|Ef], (String.eqb_spec (TrimSpace (Side p)) "to") as [Et|Et];
    cbn [orb negb]; [congruence| | |split; [done|]; intros ((? & _) & _); set_solver].
  all: assert (TrimSpace (Side p) ∈ ["from"; "to"]) as Hs by set_solver.
  all: destruct (String.eqb_spec (TrimSpace (p_Field p)) ""); [naive_solver|].
  all: destruct (String.eqb_spec (TrimSpace (Equals p)) ""); [naive_solver|].
  all: rewrite IH; naive_solver.
Qed.

Lemma validateRelationRules_ok rules : validateRelationRules rules = Ok tt <-> wf_relations rules.
Proof.
  unfold validateRelationRules, wf_relations. generalize O. induction rules as [|r l IH]; intros i; cbn [validate_relations]; [by split|].
  rewrite Forall_cons, <- (IH (S i)), <- (validate_predicates_ok i 0).
  destruct (validate_predicates _ _ _) as [[]|]; naive_solver.
Qed.

(** C32: [validateSchema] accepts exactly the well-formed schemas: named, with a version,
    the eight weights, rules of distinct types with a known severity, conditions on
    optional rules only that refer to declared types, never to the rule's own type and
    never to each other in both directions, and complete predicates. *)
Theorem validateSchema_decides s : validateSchema s = Ok tt <-> wf_schema s.
Proof.
  unfold validateSchema, wf_schema.
  destruct (String.eqb_spec (TrimSpace (ID s)) ""); [naive_solver|].
  destruct (Z.ltb_spec (Version s) 1); [naive_solver lia|].
  destruct (String.eqb_spec (TrimSpace (WorkflowClass s)) ""); [naive_solver|].
  rewrite <- validateWeights_ok, <- !validateEventRules_ok.
  destruct (validateWeights _) as [[]|]; [|naive_solver].
  destruct (validateEventRules "required" _) as [[]|] eqn:Er; [|naive_solver].
  destruct (validateEventRules "optional" _) as [[]|] eqn:Eo; [|naive_solver].
  apply validateEventRules_ok in Er, Eo. rewrite <- (validateRequiredWhenReferences_ok _ _ Er Eo), <- validateRelationRules_ok.
  destruct (validateRequiredWhenReferences _ _) as [[]|]; naive_solver.
Qed.

(** ** What a profile asks for *)

Definition of_type (records : list Record_) (t : string) : list Record_ :=
  List.filter (fun r => String.eqb (Event.Type_ (Event_ r)) t) records.

(** A timestamp that is present and valid. *)
Definition instant (r : Record_) : option Z := match parseEventTimestamp r with At t => Some t | _ => None end.

Section obligations.
Context `{Unicode}.
Context (records : list Record_).

(** The first record of the type has the fields. *)
Definition event_met (rule : EventRule) : Prop :=
  exists r, hd_error (of_type records (Type_ rule)) = Some r /\
    Forall (fun f => hasField (dataMap (Event.Data (Event_ r))) f = true) (Fields rule).

Definition predicate_met (from to : Record_) (p : RelationPredicate) : Prop :=
  EqualFold (fieldString (if String.eqb (Side p) "from" then from else to) (p_Field p)) (Equals p) = true.

(** If both types occur, every record of the one type names a record of the other that
    meets the predicates. *)
Definition relation_met (rule : RelationRule) : Prop :=
  of_type records (To rule) <> [] ->
  forall from, from ∈ of_type records (From rule) ->
    fieldString from (Field rule) <> "" /\
    exists to, to ∈ of_type records (To rule) /\ fieldString to (Field rule) = fieldString from (Field rule) /\
      Forall (predicate_met from to) (Predicates rule).

(** If the condition's type occurs, so does the rule's; and where the order can be told,
    some record of the rule is not before the first record of the condition. *)
Definition condition_met (rule : EventRule) (c : requiredWhenRule) : Prop :=
  forall first, hd_error (of_type records (WhenType c)) = Some first ->
    of_type records (Type_ rule) <> [] /\
    (AtOrAfter c = true -> forall t, instant first = Some t ->
       (exists r t', r ∈ of_type records (Type_ rule) /\ instant r = Some t') ->
       exists r t', r ∈ of_type records (Type_ rule) /\ instant r = Some t' /\ t <= t').

Definition critical (rule : EventRule) : Prop := EqualFold (Severity rule) "warning" = false.

Definition obligations_met (schema : ProfileSchema) : Prop :=
  (forall rule, rule ∈ Required schema ++ Optional schema -> critical rule -> event_met rule) /\
  (forall rule, rule ∈ Relations schema -> relation_met rule) /\
  (forall rule c, rule ∈ Required schema ++ Optional schema -> c ∈ RequiredWhen rule -> condition_met rule c).
End obligations.

(** ** Evaluation decides the obligations *)

Lemma push_record_at k r m t : at_key (push_record k r m) t = at_key m t ++ (if String.eqb k t then [r] else []).
Proof.
  unfold at_key, push_record. destruct (String.eqb_spec k t) as [->|Hne].
  - by rewrite lookup_insert_eq.
  - rewrite lookup_insert_ne by done. by rewrite app_nil_r.
Qed.

Lemma index_by_type records t : at_key (indexRecordsByType records) t = of_type records t.
Proof.
  unfold indexRecordsByType. rewrite <- (app_nil_l (of_type records t)).
  change ([] : list Record_) with (at_key ∅ t) at 1. generalize (∅ : gmap string (list Record_)).
  induction records as [|r l IH]; intros m; cbn [fold_left of_type List.filter]; [by rewrite app_nil_r|].
  rewrite IH, push_record_at, <- app_assoc. f_equal. by destruct (String.eqb _ _).
Qed.

Lemma index_by_field records f v :
  v <> "" -> at_key (indexByField records f) v = List.filter (fun r => String.eqb (fieldString r f) v) records.
Proof.
  intros Hv. unfold indexByField. rewrite <- (app_nil_l (List.filter _ _)).
  change ([] : list Record_) with (at_key ∅ v) at 1. generalize (∅ : gmap string (list Record_)).
  induction records as [|r l IH]; intros m; cbn [fold_left List.filter]; [by rewrite app_nil_r|].
  rewrite IH. destruct (String.eqb_spec (fieldString r f) "") as [E|E].
  - rewrite E. by destruct (String.eqb_spec "" v) as [<-|].
  - rewrite push_record_at, <- app_assoc. f_equal. by destruct (String.eqb _ _).
Qed.

(** [r'] adds failures to [r], none exactly if [P]. *)
Definition adds (r r' : EvaluationResult) (P : Prop) : Prop :=
  exists fs, CriticalFailures r' = CriticalFailures r ++ fs /\ (fs = [] <-> P).

Lemma adds_none r r' (P : Prop) : CriticalFailures r' = CriticalFailures r -> P -> adds r r' P.
Proof. intros Hr HP. exists []. rewrite app_nil_r. by split. Qed.

Lemma adds_one r f (P : Prop) : ~ P -> adds r (add_failure f r) P.
Proof. intros HP. by exists [f]. Qed.

Lemma adds_iff r r' (P Q : Prop) : (P <-> Q) -> adds r r' P -> adds r r' Q.
Proof. intros HPQ (fs & Hf & HP). exists fs. by rewrite <- HPQ. Qed.

Lemma adds_fold {A} (f : EvaluationResult -> A -> EvaluationResult) (P : A -> Prop) l r :
  (forall r x, x ∈ l -> adds r (f r x) (P x)) -> adds r (fold_left f l r) (forall x, x ∈ l -> P x).
Proof.
  revert r. induction l as [|x l IH]; intros r Hf; cbn [fold_left].
  { apply adds_none; [done|]. by intros x ?%elem_of_nil. }
  destruct (Hf r x) as (fs & E1 & H1); [by left|].
  destruct (IH (f r x)) as (fs' & E2 & H2); [intros r' y Hy; apply Hf; by right|].
  exists (fs ++ fs'). rewrite E2, E1, <- app_assoc. split; [done|]. split.
  - intros [? ?]%app_nil y [->|Hy]%elem_of_cons; [by apply H1|by apply H2].
  - intros Hall. rewrite (proj2 H1), (proj2 H2); [done| |]; [intros y Hy; apply Hall; by right|apply Hall; by left].
Qed.

Lemma adds_trans r1 r2 r3 (P Q : Prop) : adds r1 r2 P -> adds r2 r3 Q -> adds r1 r3 (P /\ Q).
Proof.
  intros (fs & E1 & H1) (fs' & E2 & H2). exists (fs ++ fs'). rewrite E2, E1, <- app_assoc. split; [done|].
  rewrite <- H1, <- H2. split; [apply app_nil|by intros [-> ->]].
Qed.

Section decides.
Context `{Unicode}.

Lemma missing_none data fields : missingFields data fields = [] <-> Forall (fun f => hasField data f = true) fields.
Proof.
  unfold missingFields. induction fields as [|f l IH]; [by split|]. cbn [List.filter]. rewrite Forall_cons.
  destruct (hasField data f); cbn [negb]; [rewrite IH; naive_solver|]. split; [done|by intros [? _]].
Qed.

Lemma adds_finding r rule id kind detail P :
  ~ P -> adds r (appendRuleFinding r rule id kind detail) (critical rule -> P).
Proof.
  intros HP. unfold appendRuleFinding, critical. destruct (EqualFold _ _); [by apply adds_none|].
  apply adds_one. auto.
Qed.

Lemma rule_adds records eid r rule :
  adds r (evaluate_rule eid r (of_type records (Type_ rule)) rule) (critical rule -> event_met records rule).
Proof.
  unfold evaluate_rule, event_met. destruct (of_type records (Type_ rule)) as [|first rest]; cbn [hd_error].
  - apply adds_finding. by intros (? & ? & _).
  - destruct (missingFields _ _) as [|f fs] eqn:Em.
    + apply adds_none; [done|]. intros _. exists first. split; [done|]. by apply missing_none.
    + apply adds_finding. intros (x & [= <-] & Hf). apply missing_none in Hf. congruence.
Qed.

Lemma first_predicate_failure_none rule from to ps :
  first_predicate_failure rule from to ps = None <-> Forall (predicate_met from to) ps.
Proof.
  induction ps as [|p l IH]; cbn [first_predicate_failure]; [by split|]. rewrite Forall_cons. unfold predicate_met at 1.
  destruct (EqualFold _ _); [rewrite IH; naive_solver|]. split; [done|by intros [? _]].
Qed.

Lemma first_predicate_failure_nonzero rule from to ps f :
  first_predicate_failure rule from to ps = Some f -> f <> zero_failure.
Proof.
  induction ps as [|p l IH]; cbn [first_predicate_failure]; [done|]. destruct (EqualFold _ _); [done|]. by intros [= <-].
Qed.

Lemma relation_failure_none rule from linked f0 :
  f0 <> zero_failure \/ linked <> [] ->
  relation_failure rule from linked f0 = None <->
  exists to, to ∈ linked /\ Forall (predicate_met from to) (Predicates rule).
Proof.
  revert f0. induction linked as [|to l IH]; intros f0 Hf; cbn [relation_failure].
  - rewrite bool_decide_false by (by destruct Hf). split; [done|]. by intros (? & ?%elem_of_nil & _).
  - destruct (firstRelationPredicateFailure rule from to) as [f|] eqn:E.
    + rewrite IH.
      * setoid_rewrite elem_of_cons. split; [naive_solver|]. intros (x & [->|Hx] & Hp); [|by exists x].
        apply (first_predicate_failure_none rule) in Hp. unfold firstRelationPredicateFailure in E. congruence.
      * left. case_bool_decide; [by eapply first_predicate_failure_nonzero|done].
    + split; [intros _|done]. exists to. split; [by left|]. by apply (first_predicate_failure_none rule).
Qed.

Definition link_met (records : list Record_) (rule : RelationRule) (from : Record_) : Prop :=
  fieldString from (Field rule) <> "" /\
  exists to, to ∈ of_type records (To rule) /\ fieldString to (Field rule) = fieldString from (Field rule) /\
    Forall (predicate_met from to) (Predicates rule).

Lemma link_adds records r rule from :
  adds r (evaluate_link rule (indexByField (of_type records (To rule)) (Field rule)) r from) (link_met records rule from).
Proof.
  unfold evaluate_link, link_met.
  destruct (String.eqb_spec (fieldString from (Field rule)) "") as [E|E]; cbn [negb andb].
  { apply adds_one. by intros [? _]. }
  rewrite index_by_field by done.
  set (linked := List.filter _ _).
  assert (forall to, to ∈ linked <-> to ∈ of_type records (To rule) /\ fieldString to (Field rule) = fieldString from (Field rule)) as Hl.
  { intros to. unfold linked. rewrite !list_elem_of_In, filter_In. by rewrite String.eqb_eq. }
  destruct linked as [|to l] eqn:El; cbn [length Nat.ltb Nat.leb andb].
  { apply adds_one. intros [_ (to & H1 & H2 & _)]. by apply (elem_of_nil to), Hl. }
  change (0 <? S (length l))%nat with true. cbn [andb].
  destruct (Predicates rule) as [|p ps] eqn:Ep; cbn [length Nat.eqb].
  - apply adds_none; [done|]. split; [done|]. exists to. destruct (proj1 (Hl to)) as [H1 H2]; [by left|]. by split_and!.
  - rewrite <- Ep in *. assert (to :: l <> []) as Hnil by done.
    pose proof (relation_failure_none rule from (to :: l) zero_failure (or_intror Hnil)) as Hn.
    fold (relationPredicateFailure rule from (to :: l)) in Hn.
    assert ((exists x, x ∈ to :: l /\ Forall (predicate_met from x) (Predicates rule)) <->
      exists x, x ∈ of_type records (To rule) /\ fieldString x (Field rule) = fieldString from (Field rule) /\
        Forall (predicate_met from x) (Predicates rule)) as Hx by (setoid_rewrite Hl; naive_solver).
    destruct (relationPredicateFailure _ _ _).
    + apply adds_one. intros [_ Hx'%Hx%Hn]. done.
    + apply adds_none; [done|]. split; [done|]. by apply Hx, Hn.
Qed.

Lemma relation_adds records r rule :
  adds r (evaluateRelationRule r (indexRecordsByType records) rule) (relation_met records rule).
Proof.
  unfold evaluateRelationRule, relation_met. rewrite !index_by_type.
  destruct (Nat.eqb_spec (length (of_type records (From rule))) 0) as [E|_].
  { apply nil_length_inv in E. rewrite E. apply adds_none; [done|]. by intros _ from ?%elem_of_nil. }
  destruct (Nat.eqb_spec (length (of_type records (To rule))) 0) as [E|E].
  { apply nil_length_inv in E. rewrite E. by apply adds_none. }
  eapply adds_iff; [|apply (adds_fold _ (link_met records rule)); intros r' x _; apply link_adds].
  split; [by intros Hl _|]. intros Hl. apply Hl. intros E'. by rewrite E' in E.
Qed.

Lemma scan_targets_spec t targets any :
  ((scan_targets t targets any).2 = true <-> exists r t', r ∈ targets /\ instant r = Some t' /\ t <= t') /\
  ((scan_targets t targets any).1 = true <-> any = true \/ exists r t', r ∈ targets /\ instant r = Some t').
Proof.
  revert any. induction targets as [|r l IH]; intros any; cbn [scan_targets].
  { split; [split; [done|by intros (? & ? & ?%elem_of_nil & _)]|].
    split; [by left|by intros [?|(? & ? & ?%elem_of_nil & _)]]. }
  assert (forall P : Record_ -> Z -> Prop, (exists x t', x ∈ r :: l /\ P x t') <-> (exists t', P r t') \/ exists x t', x ∈ l /\ P x t') as Hc.
  { intros P. setoid_rewrite elem_of_cons. naive_solver. }
  rewrite (Hc (fun x t' => instant x = Some t' /\ t <= t')), (Hc (fun x t' => instant x = Some t')). clear Hc.
  unfold instant at 1 3. destruct (parseEventTimestamp r) as [| |ts].
  1,2: destruct (IH any) as [-> ->]; naive_solver.
  destruct (Z.ltb_spec ts t); cbn [negb].
  - destruct (IH true) as [-> ->]. split; [|naive_solver]. split; [by right|]. intros [(t' & [= <-] & ?)|?]; [lia|done].
  - cbn. split; (split; [intros _|done]); [left; eauto|right; eauto].
Qed.

Lemma condition_adds records r rule c :
  adds r (evaluate_condition (indexRecordsByType records) (Type_ rule) r c) (condition_met records rule c).
Proof.
  unfold evaluate_condition, condition_met. rewrite !index_by_type.
  destruct (of_type records (WhenType c)) as [|first rest]; cbn [hd_error]; [by apply adds_none|].
  destruct (Nat.eqb_spec (length (of_type records (Type_ rule))) 0) as [E|E].
  { apply nil_length_inv in E. apply adds_one. intros Hm. by destruct (Hm first eq_refl) as [? _]. }
  assert (of_type records (Type_ rule) <> []) as Hne by (intros E'; by rewrite E' in E).
  destruct (AtOrAfter c); cbn [negb]; [|apply adds_none; [done|by intros x [= <-]]].
  destruct (parseEventTimestamp first) as [| |t] eqn:Et.
  1,2: apply adds_none; [done|]; intros x [= <-]; (split; [done|]); intros _ t' Ht'; unfold instant in Ht'; by rewrite Et in Ht'.
  destruct (scan_targets_spec t (of_type records (Type_ rule)) false) as [H2 H1].
  destruct (scan_targets t _ false) as [any after]. cbn [fst snd] in H1, H2.
  assert (instant first = Some t) as Hi by (unfold instant; by rewrite Et).
  destruct any; cbn [negb].
  - destruct after; cbn [negb].
    + apply adds_none; [done|]. intros x [= <-]. split; [done|]. intros _ t' Ht'. rewrite Hi in Ht'. injection Ht' as <-.
      intros _. by apply H2.
    + apply adds_one. intros Hm. destruct (Hm first eq_refl) as [_ Hx]. specialize (Hx eq_refl t Hi).
      destruct (proj1 H1 eq_refl) as [?|Hv]; [done|]. apply H2 in Hx; done.
  - apply adds_none; [done|]. intros x [= <-]. split; [done|]. intros _ t' _ Hv.
    assert (false = true) by (apply H1; by right). done.
Qed.

Lemma Evaluate_failures schema records :
  CriticalFailures (Evaluate schema records) = [] <-> obligations_met records schema.
Proof.
  unfold Evaluate, obligations_met.
  set (r0 := mkResult false [] [] []). set (m := indexRecordsByType records).
  set (r1 := fold_left _ (Required schema) r0). set (r2 := fold_left _ (Optional schema) r1).
  set (r3 := fold_left _ (Relations schema) r2). set (r4 := evaluateRequiredWhenRules r3 schema m).
  assert (adds r0 r1 (forall rule, rule ∈ Required schema -> critical rule -> event_met records rule)) as H1.
  { apply adds_fold. intros r rule _. unfold m. rewrite index_by_type. apply rule_adds. }
  assert (adds r1 r2 (forall rule, rule ∈ Optional schema -> critical rule -> event_met records rule)) as H2.
  { apply adds_fold. intros r rule _. unfold m. rewrite index_by_type. apply rule_adds. }
  assert (adds r2 r3 (forall rule, rule ∈ Relations schema -> relation_met records rule)) as H3.
  { apply adds_fold. intros r rule _. apply relation_adds. }
  assert (adds r3 r4 (forall rule, rule ∈ Required schema ++ Optional schema ->
    forall c, c ∈ RequiredWhen rule -> condition_met records rule c)) as H4.
  { apply (adds_fold _ (fun rule => forall c, c ∈ RequiredWhen rule -> condition_met records rule c)).
    intros r rule _. apply adds_fold. intros r' c _. apply condition_adds. }
  destruct (adds_trans _ _ _ _ _ (adds_trans _ _ _ _ _ (adds_trans _ _ _ _ _ H1 H2) H3) H4) as (fs & E & Hfs).
  cbn [finaliseEvaluationResult CriticalFailures]. rewrite E. unfold r0. cbn [CriticalFailures app].
  rewrite insertion_sort_nil, Hfs. split.
  - intros [[[Hr Ho] Hl] Hc]. split; [|split; [exact Hl|]].
    + intros rule [Hin|Hin]%elem_of_app; [by apply Hr|by apply Ho].
    + intros rule c Hin. by apply Hc.
  - intros (Hr & Hl & Hc). split; [split; [split|exact Hl]|].
    + intros rule Hin. apply Hr, elem_of_app. by left.
    + intros rule Hin. apply Hr, elem_of_app. by right.
    + intros rule Hin c. by apply Hc.
Qed.
Lemma Evaluate_Pass schema records :
  Pass (Evaluate schema records) = true <-> CriticalFailures (Evaluate schema records) = [].
Proof.
  unfold Evaluate. set (r := mkResult _ _ _ _). cbn [finaliseEvaluationResult Pass CriticalFailures].
  by rewrite insertion_sort_nil, Nat.eqb_eq, length_zero_iff_nil.
Qed.

(** C11: a profile passes exactly when its obligations are met: for every rule that is not
    a warning, the first record of its type exists and has the fields; every relation
    between two types that occur holds for each of its records; and every condition that
    occurs is answered, in order where the time stamps can tell. *)
Theorem Evaluate_decides schema records :
  Pass (Evaluate schema records) = true <-> obligations_met records schema.
Proof. by rewrite Evaluate_Pass, Evaluate_failures. Qed.
End decides.

(** ** Examples *)

Section examples.
Existing Instance ascii_only.

Definition equal_weights (w : float64) : list (string * float64) := map (fun k => (k, w)) expectedWeightKeys.
Definition eighth : float64 := round_decimal false 125 (-3).

Definition sample_rule (type : string) (fields : list string) (conds : list requiredWhenRule) : EventRule :=
  mkEventRule type fields "" "critical" conds.

Definition sample_schema : ProfileSchema :=
  mkSchema "p" 1 "review" [] (equal_weights eighth) true ""
    [sample_rule "ai.request.received" ["request_id"] []]
    [mkEventRule "ai.action.executed" ["action_id"] "" "warning" [mkRequiredWhen "ai.request.received" true ""]]
    [mkRelation "bound" "ai.action.executed" "ai.policy.decision" "action_id" "" [mkPredicate "to" "decision" "allow"]].

Definition sample_record (type time : string) (fields : list (string * string)) : Record_ :=
  mkRecord (Event.mk 0 "" type "" (AMap (map (fun kv => (kv.1, AString kv.2)) fields)) None None None time "" "" "" None)
    "" [] [] false.

Definition sample_records : list Record_ :=
  [sample_record "ai.request.received" "2026-01-02T03:04:05Z" [("request_id", "r")];
   sample_record "ai.policy.decision" "" [("action_id", "a"); ("decision", "ALLOW")];
   sample_record "ai.action.executed" "2026-01-02T03:04:06Z" [("action_id", "a")]].

Example sample_valid : validateSchema sample_schema = Ok tt.
Proof. vm_compute. reflexivity. Qed.

Example sample_passes : Pass (Evaluate sample_schema sample_records) = true.
Proof. vm_compute. reflexivity. Qed.

Example too_early : map Kind (CriticalFailures (Evaluate sample_schema
  [sample_record "ai.request.received" "2026-01-02T03:04:05Z" [("request_id", "r")];
   sample_record "ai.action.executed" "2026-01-02T04:04:04+01:00" [("action_id", "a")]])) = ["temporal_violation"].
Proof. vm_compute. reflexivity. Qed.

Example unbound : map Kind (CriticalFailures (Evaluate sample_schema
  (sample_records ++ [sample_record "ai.action.executed" "" [("action_id", "b")]]))) = ["relation_violation"].
Proof. vm_compute. reflexivity. Qed.

(** The test of the sum is false for a sum that is not a number. *)
Example nan_weights_are_valid : validateWeights (equal_weights S754_nan) = Ok tt.
Proof. vm_compute. reflexivity. Qed.

(** Only two rules that refer to each other are found to be a cycle. *)
Example longer_cycles_are_valid :
  validateRequiredWhenReferences []
    [sample_rule "a" [] [mkRequiredWhen "b" false ""]; sample_rule "b" [] [mkRequiredWhen "c" false ""];
     sample_rule "c" [] [mkRequiredWhen "a" false ""]] = Ok tt.
Proof. vm_compute. reflexivity. Qed.

(** A user profile without weights compiles to a schema that validation refuses. *)
Example dsl_without_weights :
  match ParseDSLProfile (fun _ => false) (mkDSL "custom" 1 "" ["ai.request.received"] [] []) with
  | Ok s => validateSchema s
  | Err _ => Ok tt
  end = Err SWeightSum.
Proof. vm_compute. reflexivity. Qed.
End examples.
End Profiles.
