(* ===== verification/Templates.v ===== *)
(** * Package internal/profiles: the embedded templates

    The profile files under [templates/], as the YAML decoder returns them, in the order
    [templateFS.ReadDir] lists them. They load: the ids the code passes to
    [MustLoadSchema] are there. *)

From S2P Require Import Prelude GoText GoFloat GoUnicode Profiles.

Module Templates.
Import Profiles.

(** The weights have two decimals. *)
Definition cents (n : Z) : float64 := round_decimal false n (-2).

Definition background_automation : ProfileSchema :=
  mkSchema "atb.profile.background_automation" 1 "background_automation"
    [
      "Limitation: scheduler integrity is not attested. | Mitigation: corroboration from scheduler queue (L4). | Residual: compromised scheduler without external witness.";
      "Limitation: real-world job effect vs recorded outcome. | Mitigation: result_set_digest and tool receipts (L2/L3). | Residual: uninstrumented side effects.";
      "Limitation: policy authorisation not required by this profile. | Mitigation: append ai.policy.decision when required (L2). | Residual: unattended jobs without policy events.";
      "Limitation: XC credit requires corroboration events. | Mitigation: atb corroborate (L4). | Residual: adapter not used."]
    [
      ("EC", cents 15);
      ("FC", cents 10);
      ("RC", cents 15);
      ("TC", cents 10);
      ("SC", cents 5);
      ("XC", cents 20);
      ("AC", cents 5);
      ("GC", cents 20)]
    true ""
    [
      mkEventRule "atb.bundle.manifest" []
          "atb.bundle.manifest missing" "critical" [];
      mkEventRule "ai.job.scheduled" ["job_id"; "job_type"; "trigger_source"; "scheduled_by_id_hash"]
          "ai.job.scheduled missing required fields" "critical" [];
      mkEventRule "ai.job.started" ["job_id"; "worker_id_hash"; "started_at"]
          "ai.job.started missing required fields" "critical" [];
      mkEventRule "ai.job.completed" ["job_id"; "outcome"; "completion_reason"]
          "ai.job.completed missing required fields" "critical" []]
    [
      mkEventRule "ai.job.step" ["job_id"; "step_index"; "step_type"; "step_outcome"]
          "ai.job.step missing required fields" "warning" []]
    [
      mkRelation "job_started_requires_scheduled" "ai.job.started" "ai.job.scheduled" "job_id"
          "job_started_requires_scheduled: ai.job.started job_id does not match ai.job.scheduled" [];
      mkRelation "job_completed_requires_started" "ai.job.completed" "ai.job.started" "job_id"
          "job_completed_requires_started: ai.job.completed job_id does not match ai.job.started" []].

Definition data_export : ProfileSchema :=
  mkSchema "atb.profile.data_export" 1 "data_export"
    [
      "Limitation: downstream recipient handling after export is not attested. | Mitigation: corroboration receipt from recipient system (L4). | Residual: post-delivery data handling.";
      "Limitation: classification label correctness is not verified. | Mitigation: record classification digest at export time (L2). | Residual: label accuracy without independent verification.";
      "Limitation: XC credit requires corroboration events. | Mitigation: atb corroborate (L4). | Residual: adapter not used."]
    [
      ("EC", cents 15);
      ("FC", cents 10);
      ("RC", cents 15);
      ("TC", cents 10);
      ("SC", cents 10);
      ("XC", cents 20);
      ("AC", cents 10);
      ("GC", cents 10)]
    true "policy_decision"
    [
      mkEventRule "atb.bundle.manifest" []
          "atb.bundle.manifest missing" "critical" [];
      mkEventRule "ai.request.received" ["request_id"; "actor_id_hash"; "purpose_tag"]
          "ai.request.received missing required fields" "critical" [];
      mkEventRule "ai.policy.decision" ["policy_id"; "policy_version"; "decision"; "decision_reason_codes"; "subject_id_hash"; "action_id"]
          "ai.policy.decision missing required fields" "critical" [];
      mkEventRule "data.export.precommit" ["action_id"; "action_type"; "action_parameters_digest"; "target_resource_id"; "intended_effect"]
          "data.export.precommit missing required fields" "critical" [];
      mkEventRule "data.export.executed" ["action_id"; "execution_outcome"; "tool_receipt_digest"]
          "data.export.executed missing required fields" "critical" []]
    [
      mkEventRule "ai.human.approval" ["approval_id"; "approver_id_hash"; "approval_outcome"; "justification_digest"; "action_id"]
          "ai.human.approval required for data export workflows" "warning" [mkRequiredWhen "data.export.executed" true "ai.human.approval required when data exports execute"]]
    [
      mkRelation "policy_binds_action" "ai.policy.decision" "data.export.precommit" "action_id"
          "policy_binds_action: ai.policy.decision action_id does not match data.export.precommit" [];
      mkRelation "execution_after_authorization" "data.export.executed" "ai.policy.decision" "action_id"
          "execution_after_authorization: ai.policy.decision decision is not allow for executed action_id" [mkPredicate "to" "decision" "allow"]].

Definition human_override : ProfileSchema :=
  mkSchema "atb.profile.human_override" 1 "human_override"
    [
      "Limitation: approver identity is caller-asserted only. | Mitigation: policy signatures and external IdP binding (L3). | Residual: physical identity of approver.";
      "Limitation: justification quality is not assessed. | Mitigation: justification_digest binds recorded text (L2). | Residual: comprehension of context.";
      "Limitation: XC credit requires corroboration events. | Mitigation: atb corroborate (L4). | Residual: adapter not used."]
    [
      ("EC", cents 15);
      ("FC", cents 10);
      ("RC", cents 20);
      ("TC", cents 20);
      ("SC", cents 10);
      ("XC", cents 10);
      ("AC", cents 5);
      ("GC", cents 10)]
    true ""
    [
      mkEventRule "atb.bundle.manifest" []
          "atb.bundle.manifest missing" "critical" [];
      mkEventRule "ai.request.received" ["request_id"; "actor_id_hash"; "purpose_tag"]
          "ai.request.received missing required fields" "critical" [];
      mkEventRule "ai.human.approval" ["approval_id"; "approver_id_hash"; "approval_outcome"; "justification_digest"; "action_id"]
          "ai.human.approval missing required fields" "critical" [];
      mkEventRule "ai.action.precommit" ["action_id"; "action_type"; "action_parameters_digest"; "target_resource_id"; "intended_effect"]
          "ai.action.precommit missing required fields" "critical" [];
      mkEventRule "ai.action.executed" ["action_id"; "execution_outcome"; "tool_receipt_digest"]
          "ai.action.executed missing required fields" "critical" []]
    [
      mkEventRule "ai.action.committed" ["action_id"; "commit_outcome"; "sink_receipt_digest"]
          "ai.action.committed recommended to confirm committed outcome" "warning" []]
    [
      mkRelation "approval_binds_action" "ai.human.approval" "ai.action.precommit" "action_id"
          "approval_binds_action: ai.human.approval action_id does not match ai.action.precommit" [];
      mkRelation "execution_after_approval" "ai.action.executed" "ai.human.approval" "action_id"
          "execution_after_approval: executed action_id has no approved ai.human.approval record" []].

Definition policy_decision : ProfileSchema :=
  mkSchema "atb.profile.policy_decision" 1 "policy_decision"
    [
      "Limitation: does not verify policy rule set correctness. | Mitigation: record policy_version and policy_doc_hash with signatures (L3). | Residual: policy engine internal evaluation logic.";
      "Limitation: policy engine internal state is not attested. | Mitigation: source signatures on ai.policy.decision (L3). | Residual: engine state beyond recorded decision fields.";
      "Limitation: XC credit requires corroboration events. | Mitigation: atb corroborate (L4). | Residual: adapter not used."]
    [
      ("EC", cents 15);
      ("FC", cents 10);
      ("RC", cents 15);
      ("TC", cents 10);
      ("SC", cents 25);
      ("XC", cents 10);
      ("AC", cents 10);
      ("GC", cents 5)]
    true "policy_decision"
    [
      mkEventRule "atb.bundle.manifest" []
          "atb.bundle.manifest missing" "critical" [];
      mkEventRule "ai.request.received" ["request_id"; "actor_id_hash"; "purpose_tag"]
          "ai.request.received missing required fields" "critical" [];
      mkEventRule "ai.policy.decision" ["policy_id"; "policy_version"; "decision"; "decision_reason_codes"; "subject_id_hash"; "action_id"]
          "ai.policy.decision missing required fields" "critical" []]
    [
      mkEventRule "ai.action.precommit" ["action_id"; "action_type"; "action_parameters_digest"]
          "ai.action.precommit recommended to bind policy to a pending action" "warning" [mkRequiredWhen "ai.request.received" true "ai.action.precommit must occur at or after ai.request.received"]]
    [
      mkRelation "policy_binds_action" "ai.policy.decision" "ai.action.precommit" "action_id"
          "policy_binds_action: ai.policy.decision action_id does not match ai.action.precommit" []].

Definition privileged_tool_action : ProfileSchema :=
  mkSchema "atb.profile.privileged_tool_action" 1 "privileged_tool_action"
    [
      "Limitation: operator bypass of the ACP gate is not detectable from bundle events alone. | Mitigation: enforce ACP gate at runtime (L5) and/or append atb.corroboration.external (L4). | Residual: actions executed entirely outside the gate remain invisible.";
      "Limitation: tool provider internal processing is not attested unless tool receipts are cryptographically verifiable. | Mitigation: record tool_receipt_digest from verifiable provider receipts (L3). | Residual: provider execution fidelity without receipt verification.";
      "Limitation: XC credit requires at least one valid atb.corroboration.external event. | Mitigation: run atb corroborate with a configured adapter (L4). | Residual: absence of corroboration indicates the adapter was not used, not necessarily a recording failure."]
    [
      ("EC", cents 20);
      ("FC", cents 15);
      ("RC", cents 20);
      ("TC", cents 5);
      ("SC", cents 10);
      ("XC", cents 10);
      ("AC", cents 10);
      ("GC", cents 10)]
    true "policy_decision"
    [
      mkEventRule "atb.bundle.manifest" []
          "atb.bundle.manifest missing" "critical" [];
      mkEventRule "ai.request.received" ["request_id"; "actor_id_hash"; "purpose_tag"]
          "ai.request.received missing required fields" "critical" [];
      mkEventRule "ai.action.precommit" ["action_id"; "action_type"; "action_parameters_digest"; "target_resource_id"; "intended_effect"]
          "ai.action.precommit missing required fields" "critical" [];
      mkEventRule "ai.policy.decision" ["policy_id"; "policy_version"; "decision"; "decision_reason_codes"; "subject_id_hash"; "action_id"]
          "ai.policy.decision missing required fields" "critical" [];
      mkEventRule "ai.action.executed" ["action_id"; "execution_outcome"; "tool_receipt_digest"]
          "ai.action.executed missing required fields" "critical" [];
      mkEventRule "ai.action.committed" ["action_id"; "commit_outcome"; "sink_receipt_digest"]
          "ai.action.committed missing required fields" "critical" []]
    [
      mkEventRule "ai.human.approval" ["approval_id"; "approver_id_hash"; "approval_outcome"; "justification_digest"; "action_id"]
          "ai.human.approval required for high-impact action types" "warning" [mkRequiredWhen "ai.action.executed" true "ai.human.approval required when actions execute"]]
    [
      mkRelation "commit_requires_precommit" "ai.action.committed" "ai.action.precommit" "action_id"
          "commit_requires_precommit: ai.action.committed action_id does not match ai.action.precommit" [];
      mkRelation "policy_binds_action" "ai.policy.decision" "ai.action.precommit" "action_id"
          "policy_binds_action: ai.policy.decision action_id does not match ai.action.precommit" [];
      mkRelation "execution_after_authorization" "ai.action.executed" "ai.policy.decision" "action_id"
          "execution_after_authorization: ai.policy.decision decision is not allow for executed action_id" [mkPredicate "to" "decision" "allow"]].

Definition rag_answer : ProfileSchema :=
  mkSchema "atb.profile.rag_answer" 1 "rag_answer"
    [
      "Limitation: retrieval completeness beyond recorded corpus/version. | Mitigation: ai.retrieval.executed with corpus metadata (L2). | Residual: corpus content not attested.";
      "Limitation: model provider internal execution fidelity. | Mitigation: prompt_digest and output_digest (L2/L3). | Residual: provider-side execution without independent attestation.";
      "Limitation: XC credit requires corroboration events. | Mitigation: atb corroborate (L4). | Residual: adapter not used."]
    [
      ("EC", cents 25);
      ("FC", cents 15);
      ("RC", cents 15);
      ("TC", cents 10);
      ("SC", cents 15);
      ("XC", cents 5);
      ("AC", cents 5);
      ("GC", cents 10)]
    true "retrieval_executed"
    [
      mkEventRule "atb.bundle.manifest" []
          "atb.bundle.manifest missing" "critical" [];
      mkEventRule "ai.request.received" ["request_id"; "actor_id_hash"; "purpose_tag"]
          "ai.request.received missing required fields" "critical" [];
      mkEventRule "ai.model.invoked" ["model_provider"; "model_id"; "model_parameters_digest"; "prompt_digest"]
          "ai.model.invoked missing required fields" "critical" [];
      mkEventRule "ai.model.output" ["output_digest"; "output_format"]
          "ai.model.output missing required fields" "critical" []]
    [
      mkEventRule "ai.policy.decision" ["policy_id"; "policy_version"; "decision"; "decision_reason_codes"]
          "ai.policy.decision recommended for recorded authorisation context" "warning" [];
      mkEventRule "ai.retrieval.executed" [
        "retrieval_query_hash";
        "retrieval_corpus_id";
        "retrieval_corpus_version";
        "top_k";
        "result_set_digest"]
          "ai.retrieval.executed recommended for RAG answer provenance" "warning" [];
      mkEventRule "ai.response.sent" ["request_id"; "output_digest"]
          "ai.response.sent recommended for response delivery evidence" "warning" [mkRequiredWhen "ai.model.invoked" true "ai.response.sent must occur at or after ai.model.invoked"]]
    [
      mkRelation "request_to_response" "ai.response.sent" "ai.request.received" "request_id"
          "request_to_response: ai.response.sent request_id does not match ai.request.received" []].

Definition decoded : list ProfileSchema :=
  [background_automation; data_export; human_override; policy_decision; privileged_tool_action; rag_answer].

Section loading.
Context `{Unicode}.

(** [templateSchemas]: after the first [LoadSchema]. *)
Definition templateSchemas : option (list (string * ProfileSchema)) := loadTemplates decoded.

(** Every template is valid and already in normal form. *)
Lemma templates_load : templateSchemas = Some (map (fun s => (ID s, s)) decoded).
Proof. vm_compute. reflexivity. Qed.

Lemma LoadSchema_template id : LoadSchema templateSchemas id = List.find (fun s => String.eqb id (ID s)) decoded.
Proof.
  rewrite templates_load. cbn [LoadSchema mbind option_bind]. generalize decoded as l.
  induction l as [|s l IH]; [done|]. cbn [map List.find]. by destruct (String.eqb id (ID s)) eqn:E; cbn; rewrite E.
Qed.
End loading.
End Templates.
