(* ===== verification/Policy.v ===== *)
(** * Policy signatures: internal/sign/policy.go

    Ed25519 signatures over a policy decision and over the policy document it names, and
    the part of [atb append] ([cmd/atb/main.go]) that embeds them in an event's payload.
    A [map[string]any] is an association list; [None] is a nil map. The theorem: what
    [atb append] signs verifies after the event was stored and read back. *)

From S2P Require Import Prelude GoText Sha256 GoFloat GoJson GoValue GoStruct Canonicalize Event HashChain Bundle BundleIO BundleSign.
Import Canonicalize BundleIO.

Module Policy.

Abbreviation fields := (list (string * any)).

Definition FieldPolicySignature : string := "policy_signature".
Definition FieldPolicySignerPubKey : string := "policy_signer_pubkey".
Definition FieldPolicyDocHash : string := "policy_doc_hash".
Definition FieldPolicyDocSignature : string := "policy_doc_signature".
Definition TypeAIPolicyDecision : string := "ai.policy.decision".

Inductive invalid_detail :=
| PubKeyAbsent | DocHashAbsent | Canonicalize | DecodeSignature | SignatureLength | DecodeKey | KeyLength
| DecodeDocHash | Mismatch.

(** [policySignatureError]: the sentinel it wraps, and its detail. *)
Inductive policy_error := ErrSignatureAbsent | ErrSignatureInvalid (d : invalid_detail).

Inductive sign_error := PrivateKeySize | PayloadError | DocHashError.

Section policy.
Context `{Crypto}.

Definition fieldString (f : option fields) (key : string) : string :=
  match f with
  | None => ""
  | Some l => match assoc key l with Some (AString s) => TrimSpace s | _ => "" end
  end.

Definition without (keys : list string) (l : fields) : fields :=
  List.filter (fun kv => negb (bool_decide (kv.1 ∈ keys))) l.

Definition canonicalPolicyDecisionPayload (f : option fields) : option bytes :=
  match f with
  | None => None
  | Some l => Marshal (AMap (without [FieldPolicySignature; FieldPolicySignerPubKey] l))
  end.

(** ed25519.Sign and the public half of a private key. *)
Context (ed25519_Sign : bytes -> bytes -> bytes).

Definition SignPolicyDecision (f : option fields) (privKey : bytes) : result sign_error string :=
  if negb (length privKey =? 64)%nat then Err PrivateKeySize
  else match canonicalPolicyDecisionPayload f with
       | None => Err PayloadError
       | Some payload => Ok (S_of (Base64.encode (ed25519_Sign privKey payload)))
       end.

Definition VerifyPolicyDecision (f : option fields) : result policy_error unit :=
  let signatureText := fieldString f FieldPolicySignature in
  if String.eqb signatureText "" then Err ErrSignatureAbsent
  else
    let publicKeyText := fieldString f FieldPolicySignerPubKey in
    if String.eqb publicKeyText "" then Err (ErrSignatureInvalid PubKeyAbsent)
    else
      match canonicalPolicyDecisionPayload f with
      | None => Err (ErrSignatureInvalid Canonicalize)
      | Some payload =>
          match Base64.decode (B signatureText) with
          | None => Err (ErrSignatureInvalid DecodeSignature)
          | Some signature =>
              if negb (length signature =? 64)%nat then Err (ErrSignatureInvalid SignatureLength)
              else
                match Base64.decode (B publicKeyText) with
                | None => Err (ErrSignatureInvalid DecodeKey)
                | Some publicKey =>
                    if negb (length publicKey =? 32)%nat then Err (ErrSignatureInvalid KeyLength)
                    else if ed25519_Verify publicKey payload signature then Ok tt
                    else Err (ErrSignatureInvalid Mismatch)
                end
          end
      end.

Definition SignPolicyDoc (f : option fields) (docHash : string) (privKey : bytes) : result sign_error string :=
  if negb (length privKey =? 64)%nat then Err PrivateKeySize
  else
    match canonicalPolicyDecisionPayload f with
    | None => Err PayloadError
    | Some payload =>
        match hex_decode (B docHash) with
        | None => Err DocHashError
        | Some docHashBytes =>
            Ok (S_of (Base64.encode (ed25519_Sign privKey (Sha256.sum256 payload ++ docHashBytes))))
        end
    end.

Definition VerifyPolicyDocSignature (f : option fields) : result policy_error unit :=
  let sigText := fieldString f FieldPolicyDocSignature in
  if String.eqb sigText "" then Err ErrSignatureAbsent
  else
    let pubKeyText := fieldString f FieldPolicySignerPubKey in
    if String.eqb pubKeyText "" then Err (ErrSignatureInvalid PubKeyAbsent)
    else
      let docHashText := fieldString f FieldPolicyDocHash in
      if String.eqb docHashText "" then Err (ErrSignatureInvalid DocHashAbsent)
      else
        let fieldsForPayload := without [FieldPolicyDocSignature] (default [] f) in
        match canonicalPolicyDecisionPayload (Some fieldsForPayload) with
        | None => Err (ErrSignatureInvalid Canonicalize)
        | Some payload =>
            match hex_decode (B docHashText) with
            | None => Err (ErrSignatureInvalid DecodeDocHash)
            | Some docHashBytes =>
                let msg := Sha256.sum256 payload ++ docHashBytes in
                match Base64.decode (B sigText) with
                | None => Err (ErrSignatureInvalid DecodeSignature)
                | Some sig =>
                    if negb (length sig =? 64)%nat then Err (ErrSignatureInvalid SignatureLength)
                    else
                      match Base64.decode (B pubKeyText) with
                      | None => Err (ErrSignatureInvalid DecodeKey)
                      | Some pubKey =>
                          if negb (length pubKey =? 32)%nat then Err (ErrSignatureInvalid KeyLength)
                          else if ed25519_Verify pubKey msg sig then Ok tt
                          else Err (ErrSignatureInvalid Mismatch)
                      end
                end
            end
        end.

(** ** [atb append --policy-doc --sign-policy] *)

Inductive append_error := NotObject | ReadDoc | LoadKey | Sign (e : sign_error).

Context (public : bytes -> bytes).

(** The payload is changed in place; [doc] and [key] are what reading the two files
    gives. *)
Definition maybePolicyDocEmbed (eventType : string) (data : any) (docPath keyPath : string) (doc key : option bytes) :
    result append_error any :=
  if String.eqb (TrimSpace docPath) "" then Ok data
  else if negb (String.eqb eventType TypeAIPolicyDecision) then Ok data
  else
    match data with
    | AMap l =>
        match doc with
        | None => Err ReadDoc
        | Some contents =>
            let docHash := S_of (hex_encode (Sha256.sum256 contents)) in
            let l := assoc_set FieldPolicyDocHash (AString docHash) l in
            if String.eqb (TrimSpace keyPath) "" then Ok (AMap l)
            else
              match key with
              | None => Err LoadKey
              | Some privateKey =>
                  let? sig := map_err Sign (SignPolicyDoc (Some l) docHash privateKey) in
                  Ok (AMap (assoc_set FieldPolicyDocSignature (AString sig) l))
              end
        end
    | _ => Err NotObject
    end.

Definition maybeSignPolicyDecisionEvent (eventType : string) (data : any) (keyPath : string) (key : option bytes) :
    result append_error any :=
  if String.eqb keyPath "" then Ok data
  else if negb (String.eqb eventType TypeAIPolicyDecision) then Ok data
  else
    match data with
    | AMap l =>
        match key with
        | None => Err LoadKey
        | Some privateKey =>
            let? signature := map_err Sign (SignPolicyDecision (Some l) privateKey) in
            Ok (AMap (assoc_set FieldPolicySignerPubKey (AString (S_of (Base64.encode (public privateKey))))
                       (assoc_set FieldPolicySignature (AString signature) l)))
        end
    | _ => Err NotObject
    end.

(** What [append] does to the payload: first the document, then the decision. *)
Definition sign_payload (eventType : string) (data : any) (docPath keyPath : string) (doc key : option bytes) :
    result append_error any :=
  let? data := maybePolicyDocEmbed eventType data docPath keyPath doc key in
  maybeSignPolicyDecisionEvent eventType data keyPath key.
End policy.

(** ** Maps *)

Lemma without_set_in keys k (v : any) l : k ∈ keys -> without keys (assoc_set k v l) = without keys l.
Proof.
  intros Hk. unfold without. induction l as [|[k' v'] l IH]; cbn [assoc_set List.filter fst].
  - by rewrite bool_decide_true.
  - destruct (String.eqb_spec k k') as [<-|Hne]; cbn [List.filter fst]; [by rewrite bool_decide_true|]. by rewrite IH.
Qed.

Lemma without_absent k (l : fields) : assoc k l = None -> without [k] l = l.
Proof.
  unfold without. induction l as [|[k' v'] l IH]; [done|]. cbn [assoc List.filter fst].
  destruct (String.eqb_spec k k') as [<-|Hne]; [done|]. intros Hl.
  rewrite bool_decide_false by (intros Hin%list_elem_of_singleton; congruence). cbn [negb]. by rewrite IH.
Qed.

Lemma without_comm a b l : without a (without b l) = without b (without a l).
Proof.
  unfold without. induction l as [|x l IH]; [done|]. cbn [List.filter].
  destruct (negb (bool_decide (x.1 ∈ a))) eqn:Ea, (negb (bool_decide (x.1 ∈ b))) eqn:Eb; cbn [List.filter];
    rewrite ?Ea, ?Eb, ?IH; done.
Qed.

Lemma wf_without keys l : wf_any (AMap l) = true -> wf_any (AMap (without keys l)) = true.
Proof.
  cbn [wf_any]. rewrite !andb_true_iff, !bool_decide_eq_true, !forallb_Forall_iff. unfold without. intros [Hn Hl]. split.
  - clear Hl. induction l as [|x l IH]; [done|]. cbn [List.filter fmap list_fmap] in *. apply NoDup_cons in Hn as [Hx Hn].
    destruct (negb _); [|by apply IH]. rewrite fmap_cons. constructor; [|by apply IH].
    intros Hin. apply Hx. apply list_elem_of_fmap in Hin as (y & E & Hy). apply list_elem_of_fmap. exists y. split; [done|].
    apply list_elem_of_In in Hy. apply filter_In in Hy as [Hy _]. by apply list_elem_of_In.
  - rewrite Forall_forall in *. intros x Hx. apply Hl. apply list_elem_of_In in Hx. apply filter_In in Hx as [Hx _].
    by apply list_elem_of_In.
Qed.

Lemma wf_set k s l : wf_any (AMap l) = true -> valid_string k = true -> valid_string s = true ->
  wf_any (AMap (assoc_set k (AString s) l)) = true.
Proof.
  cbn [wf_any]. rewrite !andb_true_iff, !bool_decide_eq_true, !forallb_Forall_iff. intros [Hn Hl] Hk Hs. split.
  - by apply assoc_set_keys.
  - apply Forall_forall. intros x [->|Hx]%assoc_set_elem.
    + cbn. by rewrite andb_true_iff.
    + rewrite Forall_forall in Hl. by apply Hl.
Qed.

Lemma same_without keys l m : same_value (AMap l) (AMap m) -> same_value (AMap (without keys l)) (AMap (without keys m)).
Proof.
  inversion 1 as [| | | | |? ? m' Hp HF]; subst. apply (same_map _ _ (without keys m')).
  - unfold without. clear -Hp. induction Hp; cbn [List.filter]; [done|by destruct (negb _); [constructor|]| |by etrans].
    destruct (negb (bool_decide (x.1 ∈ keys))), (negb (bool_decide (y.1 ∈ keys))); by try constructor.
  - unfold without. clear -HF. induction HF as [|x y l m' [E Hs] _ IH]; [done|]. cbn [List.filter]. rewrite E.
    destruct (negb _); [by constructor|done].
Qed.

Lemma same_assoc l m k : NoDup m.*1 -> same_value (AMap l) (AMap m) ->
  match assoc k l, assoc k m with
  | Some v, Some w => same_value v w
  | None, None => True
  | _, _ => False
  end.
Proof.
  intros Hn. inversion 1 as [| | | | |? ? m' Hp HF]; subst.
  rewrite (assoc_perm m m') by done. clear -HF.
  induction HF as [|[k1 v] [k2 w] l m' [E Hs] _ IH]; [done|]. cbn in E, Hs |- *. subst k2.
  by destruct (String.eqb k k1).
Qed.

Lemma same_field_string l m k : NoDup m.*1 -> same_value (AMap l) (AMap m) -> fieldString (Some m) k = fieldString (Some l) k.
Proof.
  intros Hn Hs. pose proof (same_assoc l m k Hn Hs) as H. unfold fieldString.
  destruct (assoc k l) as [v|], (assoc k m) as [w|]; try done. by inversion H.
Qed.

(** ** Canonical bytes of equal values *)

Lemma Marshal_wf v : wf_any v = true -> (any_depth v <= max_nesting_depth)%nat -> Marshal v = writeValue v.
Proof.
  intros Hv Hd. destruct (redecode_same v Hv) as (w & Hw & _ & Hs). unfold redecode in Hw.
  destruct (to_json v) as [j|] eqn:Ej; [|discriminate]. cbn [mbind option_bind] in Hw.
  unfold Marshal. assert (GoValue.Marshal v = Some (json_print j)) as Em by (unfold GoValue.Marshal; by rewrite Ej).
  rewrite Em. cbn [mbind option_bind]. unfold canonicalizeRaw.
  assert ((json_depth j <= max_nesting_depth)%nat) as Hdj by (by rewrite (HashChain.to_json_depth v j)).
  rewrite (Unmarshal_Marshal v _ Em) by (intros j'; rewrite Ej; by intros [= <-]).
  unfold normalise. rewrite Ej. cbn [mbind option_bind]. rewrite (proj2 (Nat.leb_le _ _) Hdj), Hw.
  cbn [mbind option_bind]. symmetry. by apply same_value_canon.
Qed.

Lemma same_depth v w : wf_any v = true -> wf_any w = true -> same_value v w -> any_depth v = any_depth w.
Proof.
  intros Hv Hw Hs. destruct (canon_tree_total v Hv) as [j Hj]. pose proof (canon_tree_same v w Hv Hs) as E.
  rewrite <- (canon_tree_depth v j Hj). rewrite E in Hj. by apply canon_tree_depth.
Qed.

Lemma max_list_filter {A} (f : A -> nat) p l : (max_list (map f (List.filter p l)) <= max_list (map f l))%nat.
Proof. unfold max_list. induction l as [|x l IH]; [done|]. cbn. destruct (p x); cbn; lia. Qed.

Lemma depth_without keys l : (any_depth (AMap (without keys l)) <= any_depth (AMap l))%nat.
Proof. cbn [any_depth]. pose proof (max_list_filter (fun kv => any_depth kv.2) (fun kv => negb (bool_decide (kv.1 ∈ keys))) l). unfold without. lia. Qed.

Lemma depth_set k s l : (any_depth (AMap (assoc_set k (AString s) l)) <= any_depth (AMap l))%nat.
Proof.
  cbn [any_depth]. apply le_n_S. unfold max_list. induction l as [|[k' v'] l IH]; cbn; [done|].
  destruct (String.eqb k k'); cbn; lia.
Qed.

Lemma payload_same l m :
  wf_any (AMap l) = true -> wf_any (AMap m) = true -> (any_depth (AMap l) <= max_nesting_depth)%nat ->
  same_value (AMap l) (AMap m) -> canonicalPolicyDecisionPayload (Some m) = canonicalPolicyDecisionPayload (Some l).
Proof.
  intros Hl Hm Hd Hs. unfold canonicalPolicyDecisionPayload. set (ks := [_; _]).
  pose proof (same_without ks l m Hs) as Hs'. pose proof (wf_without ks l Hl) as Hl'. pose proof (wf_without ks m Hm) as Hm'.
  pose proof (depth_without ks l) as Hd'. rewrite !Marshal_wf by (done || (try rewrite <- (same_depth _ _ Hl' Hm' Hs')); lia).
  symmetry. by apply same_value_canon.
Qed.

(** ** Signing and verifying *)

Lemma payload_total l :
  wf_any (AMap l) = true -> (any_depth (AMap l) <= max_nesting_depth)%nat ->
  exists p, canonicalPolicyDecisionPayload (Some l) = Some p.
Proof.
  intros Hl Hd. unfold canonicalPolicyDecisionPayload. set (ks := [_; _]). pose proof (wf_without ks l Hl) as Hl'.
  pose proof (depth_without ks l). rewrite Marshal_wf by (done || lia). rewrite writeValue_tree.
  destruct (canon_tree_total _ Hl') as [j ->]. by eexists.
Qed.

Lemma base64_text b : valid_string (S_of (Base64.encode b)) = true.
Proof. unfold valid_string. rewrite B_S_of. apply visible_valid, Base64Facts.encode_visible. Qed.

Lemma base64_field b : b <> [] -> String.eqb (S_of (Base64.encode b)) "" = false.
Proof.
  intros Hb. apply String.eqb_neq. intros E. apply (f_equal B) in E. rewrite B_S_of in E.
  by apply (BundleSign.encode_nonempty b).
Qed.

(** A payload with one more text member, where the member is set. *)
Lemma field_set k s l k' :
  fieldString (Some (assoc_set k (AString s) l)) k' = if String.eqb k' k then TrimSpace s else fieldString (Some l) k'.
Proof. unfold fieldString. rewrite assoc_set_lookup. by destruct (String.eqb k' k). Qed.

Section roundtrip.
Context `{Crypto} (sign : bytes -> bytes -> bytes) (public : bytes -> bytes) (priv : bytes).
Context (sizes : length priv = 64%nat /\ (forall msg, length (sign priv msg) = 64%nat) /\ length (public priv) = 32%nat).
Context (signs : forall msg, ed25519_Verify (public priv) msg (sign priv msg) = true).

Lemma nonempty64 msg : sign priv msg <> [].
Proof. destruct sizes as (_ & Hs & _). intros E. specialize (Hs msg). by rewrite E in Hs. Qed.

Lemma public_nonempty : public priv <> [].
Proof. destruct sizes as (_ & _ & Hp). intros E. by rewrite E in Hp. Qed.

Lemma decision_verifies l p :
  canonicalPolicyDecisionPayload (Some l) = Some p ->
  fieldString (Some l) FieldPolicySignature = S_of (Base64.encode (sign priv p)) ->
  fieldString (Some l) FieldPolicySignerPubKey = S_of (Base64.encode (public priv)) ->
  VerifyPolicyDecision (Some l) = Ok tt.
Proof.
  intros Hp Hs Hk. unfold VerifyPolicyDecision. rewrite Hs, Hk, Hp.
  rewrite !base64_field by (apply nonempty64 || apply public_nonempty).
  rewrite !B_S_of, !BundleSign.base64_roundtrip. destruct sizes as (_ & Hl & Hpl). rewrite Hl, Hpl, signs. done.
Qed.

Lemma document_verifies l p h :
  canonicalPolicyDecisionPayload (Some (without [FieldPolicyDocSignature] l)) = Some p -> h <> [] ->
  fieldString (Some l) FieldPolicyDocSignature = S_of (Base64.encode (sign priv (Sha256.sum256 p ++ h))) ->
  fieldString (Some l) FieldPolicyDocHash = S_of (hex_encode h) ->
  fieldString (Some l) FieldPolicySignerPubKey = S_of (Base64.encode (public priv)) ->
  VerifyPolicyDocSignature (Some l) = Ok tt.
Proof.
  intros Hp Hh Hs Hd Hk. unfold VerifyPolicyDocSignature. rewrite Hs, Hk, Hd.
  rewrite !base64_field by (apply nonempty64 || apply public_nonempty).
  assert (String.eqb (S_of (hex_encode h)) "" = false) as ->.
  { apply String.eqb_neq. intros E. apply (f_equal B) in E. rewrite B_S_of in E.
    apply (f_equal length) in E. rewrite length_hex_encode in E. by destruct h. }
  change (default [] (Some l)) with l. rewrite Hp, !B_S_of, hex_decode_encode, !BundleSign.base64_roundtrip.
  destruct sizes as (_ & Hl & Hpl). rewrite Hl, Hpl, signs. done.
Qed.

(** The document step, with a key: the payload it makes. *)
Lemma embed_spec F contents docPath keyPath :
  wf_any (AMap F) = true -> (any_depth (AMap F) <= max_nesting_depth)%nat -> TrimSpace docPath <> "" -> TrimSpace keyPath <> "" ->
  exists l p, maybePolicyDocEmbed sign TypeAIPolicyDecision (AMap F) docPath keyPath (Some contents) (Some priv) = Ok (AMap l) /\
    l = assoc_set FieldPolicyDocSignature (AString (S_of (Base64.encode (sign priv (Sha256.sum256 p ++ Sha256.sum256 contents)))))
          (assoc_set FieldPolicyDocHash (AString (S_of (hex_encode (Sha256.sum256 contents)))) F) /\
    canonicalPolicyDecisionPayload
      (Some (assoc_set FieldPolicyDocHash (AString (S_of (hex_encode (Sha256.sum256 contents)))) F)) = Some p /\
    wf_any (AMap l) = true /\ (any_depth (AMap l) <= max_nesting_depth)%nat.
Proof.
  intros Hw Hd Hdoc Hkey. set (h := S_of (hex_encode (Sha256.sum256 contents))).
  set (F1 := assoc_set FieldPolicyDocHash (AString h) F).
  assert (valid_string h = true) as Hh by (unfold valid_string, h; rewrite B_S_of; apply visible_valid, hex_visible).
  assert (wf_any (AMap F1) = true) as Hw1 by (by apply wf_set).
  assert ((any_depth (AMap F1) <= max_nesting_depth)%nat) as Hd1 by (pose proof (depth_set FieldPolicyDocHash h F); unfold F1; lia).
  destruct (payload_total F1 Hw1 Hd1) as [p Hp]. eexists _, p. split; [|split; [reflexivity|]].
  - unfold maybePolicyDocEmbed. apply String.eqb_neq in Hdoc, Hkey. rewrite Hdoc, Hkey. cbn [negb]. rewrite String.eqb_refl. cbn [negb].
    fold h. fold F1. unfold SignPolicyDoc. destruct sizes as (-> & _). cbn [Nat.eqb negb]. rewrite Hp. unfold h at 1.
    rewrite B_S_of, hex_decode_encode. reflexivity.
  - split; [exact Hp|]. split; [apply wf_set; [exact Hw1|reflexivity|apply base64_text]|].
    etrans; [apply depth_set|]. exact Hd1.
Qed.

(** The decision step, for any payload. *)
Lemma decision_spec l keyPath :
  wf_any (AMap l) = true -> (any_depth (AMap l) <= max_nesting_depth)%nat -> keyPath <> "" ->
  exists l' p, maybeSignPolicyDecisionEvent sign public TypeAIPolicyDecision (AMap l) keyPath (Some priv) = Ok (AMap l') /\
    l' = assoc_set FieldPolicySignerPubKey (AString (S_of (Base64.encode (public priv))))
           (assoc_set FieldPolicySignature (AString (S_of (Base64.encode (sign priv p)))) l) /\
    canonicalPolicyDecisionPayload (Some l) = Some p /\
    wf_any (AMap l') = true /\ (any_depth (AMap l') <= max_nesting_depth)%nat.
Proof.
  intros Hw Hd Hkey. destruct (payload_total l Hw Hd) as [p Hp]. eexists _, p. split; [|split; [reflexivity|]].
  - unfold maybeSignPolicyDecisionEvent. apply String.eqb_neq in Hkey. rewrite Hkey, String.eqb_refl. cbn [negb].
    unfold SignPolicyDecision. destruct sizes as (-> & _). cbn [Nat.eqb negb]. rewrite Hp. reflexivity.
  - split; [exact Hp|]. split; [apply wf_set; [apply wf_set; [exact Hw|reflexivity|apply base64_text]|reflexivity|apply base64_text]|].
    etrans; [apply depth_set|]. etrans; [apply depth_set|]. exact Hd.
Qed.

(** C31: what [atb append] signs verifies. For a policy decision whose payload is a decoded
    JSON object without a document signature, signing succeeds, the signed payload
    survives being stored and read back, and then the signature of the decision verifies,
    and so does the signature of the document if one was given. *)
Theorem signed_policy_verifies F docPath keyPath contents :
  wf_any (AMap F) = true -> (any_depth (AMap F) <= max_nesting_depth)%nat ->
  assoc FieldPolicyDocSignature F = None -> TrimSpace keyPath <> "" ->
  exists data G, sign_payload sign public TypeAIPolicyDecision (AMap F) docPath keyPath (Some contents) (Some priv) = Ok data /\
    redecode data = Some (AMap G) /\ VerifyPolicyDecision (Some G) = Ok tt /\
    (TrimSpace docPath <> "" -> VerifyPolicyDocSignature (Some G) = Ok tt).
Proof.
  intros Hw Hd Hno Hkey. assert (keyPath <> "") as Hkey' by (intros ->; by apply Hkey). set (h := Sha256.sum256 contents).
  assert (exists l, maybePolicyDocEmbed sign TypeAIPolicyDecision (AMap F) docPath keyPath (Some contents) (Some priv) = Ok (AMap l) /\
    wf_any (AMap l) = true /\ (any_depth (AMap l) <= max_nesting_depth)%nat /\
    (TrimSpace docPath <> "" -> exists p, canonicalPolicyDecisionPayload (Some (without [FieldPolicyDocSignature] l)) = Some p /\
       fieldString (Some l) FieldPolicyDocSignature = S_of (Base64.encode (sign priv (Sha256.sum256 p ++ h))) /\
       fieldString (Some l) FieldPolicyDocHash = S_of (hex_encode h))) as (l & El & Hl & Hdl & Hdoc).
  { destruct (String.eqb_spec (TrimSpace docPath) "") as [E|E].
    - exists F. split_and!; [|done|done|done]. unfold maybePolicyDocEmbed. by rewrite E.
    - destruct (embed_spec F contents docPath keyPath Hw Hd E Hkey) as (l & p & El & -> & Hp & Hl & Hdl).
      eexists. split; [exact El|]. split_and!; [exact Hl|exact Hdl|]. intros _. exists p. rewrite !field_set. split_and!.
      + rewrite without_set_in by (by left). rewrite without_absent; [exact Hp|].
        rewrite assoc_set_lookup. exact Hno.
      + cbn -[TrimSpace]. apply BundleSign.TrimSpace_base64.
      + cbn -[TrimSpace]. apply BundleSign.TrimSpace_hex. }
  destruct (decision_spec l keyPath Hl Hdl Hkey') as (l' & p & El' & -> & Hp & Hl' & Hdl').
  set (l' := assoc_set FieldPolicySignerPubKey _ _) in *.
  destruct (redecode_same _ Hl') as (w & Hr & Hww & Hs). assert (exists G, w = AMap G) as [G ->] by (inversion Hs; by eexists).
  assert (NoDup G.*1) as Hn by (apply wf_any_map in Hww as [Hn _]; exact Hn).
  pose proof (fun k => same_field_string l' G k Hn Hs) as Hf.
  exists (AMap l'), G. split_and!; [|exact Hr| |].
  - unfold sign_payload. rewrite El. exact El'.
  - apply (decision_verifies G p).
    + rewrite (payload_same l' G) by done. rewrite <- Hp. unfold canonicalPolicyDecisionPayload, l'.
      by rewrite !without_set_in by set_solver.
    + rewrite Hf. unfold l'. rewrite !field_set. cbn -[TrimSpace]. apply BundleSign.TrimSpace_base64.
    + rewrite Hf. unfold l'. rewrite !field_set. cbn -[TrimSpace]. apply BundleSign.TrimSpace_base64.
  - intros (q & Hq & H1 & H2)%Hdoc. apply (document_verifies G q h).
    + pose proof (same_without [FieldPolicyDocSignature] l' G Hs) as Hs'.
      rewrite (payload_same (without [FieldPolicyDocSignature] l')); [|by apply wf_without|by apply wf_without| |exact Hs'].
      * rewrite <- Hq. unfold canonicalPolicyDecisionPayload. rewrite !(without_comm _ [FieldPolicyDocSignature]). unfold l'.
        by rewrite !without_set_in by set_solver.
      * etrans; [apply depth_without|]. exact Hdl'.
    + intros E. apply (f_equal length) in E. unfold h in E. rewrite Sha256.length_sum256 in E. done.
    + rewrite Hf. unfold l'. rewrite !field_set. exact H1.
    + rewrite Hf. unfold l'. rewrite !field_set. exact H2.
    + rewrite Hf. unfold l'. rewrite !field_set. cbn -[TrimSpace]. apply BundleSign.TrimSpace_base64.
Qed.
End roundtrip.

(** ** Concrete signatures *)

(** A scheme that signs a message with its digest, twice. *)
Definition toy_sign (_ msg : bytes) : bytes := Sha256.sum256 msg ++ Sha256.sum256 msg.
Definition toy_scheme : Crypto := {|
  ed25519_Verify := fun pk msg sg => bool_decide (sg = Sha256.sum256 msg ++ Sha256.sum256 msg);
  ParsePKIXPublicKey := fun _ => None;
  ParseUncompressedPublicKey := fun raw => Some raw;
  ecdsa_VerifyASN1 := fun _ _ _ => false
|}.
Definition toy_key : bytes := replicate 64 "k"%char.
Definition toy_public (priv : bytes) : bytes := take 32 priv.

Definition sample_decision : fields :=
  [("policy_id", AString "p-1"); ("decision", AString "allow"); ("decision_reason_codes", ASlice [AString "ok"])].

Lemma signed_policy_verifies_witness :
  exists data G, sign_payload toy_sign toy_public TypeAIPolicyDecision (AMap sample_decision) "policy.md" "key.pem"
      (Some (B "rules")) (Some toy_key) = Ok data /\
    redecode data = Some (AMap G) /\ @VerifyPolicyDecision toy_scheme (Some G) = Ok tt /\
    @VerifyPolicyDocSignature toy_scheme (Some G) = Ok tt.
Proof.
  destruct (@signed_policy_verifies toy_scheme toy_sign toy_public toy_key) with
    (F := sample_decision) (docPath := "policy.md") (keyPath := "key.pem") (contents := B "rules") as (data & G & H1 & H2 & H3 & H4).
  - split; [vm_compute; reflexivity|]. split; [|vm_compute; reflexivity].
    intros msg. unfold toy_sign. rewrite length_app, !Sha256.length_sum256. reflexivity.
  - intros msg. apply bool_decide_eq_true. reflexivity.
  - vm_compute. reflexivity.
  - apply Nat.leb_le. vm_compute. reflexivity.
  - reflexivity.
  - vm_compute. discriminate.
  - exists data, G. refine (conj H1 (conj H2 (conj H3 (H4 _)))). vm_compute. discriminate.
Defined.

(** [SignPolicyDoc] signs a document signature that the payload already has, and
    [VerifyPolicyDocSignature] leaves it out. *)
Example stale_document_signature :
  match sign_payload toy_sign toy_public TypeAIPolicyDecision
          (AMap (sample_decision ++ [(FieldPolicyDocSignature, AString "old")])) "policy.md" "key.pem"
          (Some (B "rules")) (Some toy_key) with
  | Ok (AMap l) => @VerifyPolicyDocSignature toy_scheme (Some l)
  | _ => Ok tt
  end = Err (ErrSignatureInvalid Mismatch).
Proof. vm_compute. reflexivity. Qed.
End Policy.
