(* ===== verification/Verify.v ===== *)
(** * Package internal/verify: profile results and policy signatures

    The functions of [verify.go] and [profiles.go] that turn the evaluation of a profile into
    a result with its obligations, and joins it with the signatures of the policy
    decisions in the bundle. The text of a signature error is an argument. The theorem:
    a profile passes the signature checks exactly when every policy decision is signed
    as the mode asks. *)

From S2P Require Import Prelude GoText Sha256 GoFloat GoJson GoValue GoUnicode GoStruct Canonicalize Event HashChain Bundle BundleIO BundleSign Profiles Policy.
Import Bundle.

Module Verify.

Abbreviation CriticalFailure := Profiles.CriticalFailure.
Abbreviation mkFailure := Profiles.mkFailure.

Record ObligationResult := mkObligation {
  o_ID : string;
  o_Kind : string;
  EventType : string;
  o_Severity : string;
  Status : string;
  o_Message : string
}.

Record ProfileResult := mkProfileResult {
  ProfileID : string;
  Version : Z;
  WorkflowClass : string;
  Pass : bool;
  CriticalFailures : list CriticalFailure;
  RequiredWarnings : list string;
  InformationalNotes : list string;
  Obligations : list ObligationResult
}.

(** ** Results of a schema *)

Definition matchingFailure (failures : list CriticalFailure) (id prefix : string) : option CriticalFailure :=
  List.find (fun f => String.eqb (Profiles.f_ID f) id || HasPrefix (Profiles.f_ID f) prefix) failures.

Definition requiredObligationID (eventType : string) : string := "required:" +:+ eventType.

Definition relationObligationID (rule : Profiles.RelationRule) : string :=
  let name := TrimSpace (Profiles.Name rule) in
  if negb (String.eqb name "") then "relation:" +:+ name
  else "relation:" +:+ Profiles.From rule +:+ ":" +:+ Profiles.To rule +:+ ":" +:+ Profiles.Field rule.

Definition warningObligationID (index : nat) : string := "warning:" +:+ show_int (Z.of_nat index + 1).

Definition obligation (failures : list CriticalFailure) (id prefix kind eventType severity : string) : ObligationResult :=
  match matchingFailure failures id prefix with
  | Some f => mkObligation (Profiles.f_ID f) (Profiles.Kind f) eventType severity "fail" (Profiles.Detail f)
  | None => mkObligation id kind eventType severity "pass" ""
  end.

Definition schemaObligations (schema : Profiles.ProfileSchema) (evaluation : Profiles.EvaluationResult) :
    list ObligationResult :=
  let failures := Profiles.CriticalFailures evaluation in
  map (fun rule => let id := requiredObligationID (Profiles.Type_ rule) in
    obligation failures id (id +:+ ":field:") "required_event" (Profiles.Type_ rule) (Profiles.Severity rule))
    (Profiles.Required schema) ++
  map (fun rule => let id := relationObligationID rule in
    obligation failures id (id +:+ ":predicate:") "relation" "" "critical") (Profiles.Relations schema) ++
  imap (fun i w => mkObligation (warningObligationID i) "required_warning" "" "warning" "warning" w)
    (Profiles.RequiredWarnings evaluation).

Definition evaluateSchemaProfile `{Unicode} (schema : Profiles.ProfileSchema) (records : list Record_) : ProfileResult :=
  let evaluation := Profiles.Evaluate schema records in
  mkProfileResult (Profiles.ID schema) (Profiles.Version schema) (Profiles.WorkflowClass schema)
    (Profiles.Pass evaluation) (Profiles.CriticalFailures evaluation) (Profiles.RequiredWarnings evaluation)
    (Profiles.InformationalNotes evaluation) (schemaObligations schema evaluation).

(** A profile: its identification, as the interface's methods give it. *)
Definition stampProfileResult (id : string) (version : Z) (workflowClass : string) (r : ProfileResult) : ProfileResult :=
  mkProfileResult (if String.eqb (TrimSpace (ProfileID r)) "" then id else ProfileID r)
    (if Version r =? 0 then version else Version r)
    (if String.eqb (TrimSpace (WorkflowClass r)) "" then workflowClass else WorkflowClass r)
    (Pass r) (CriticalFailures r) (RequiredWarnings r) (InformationalNotes r) (Obligations r).

(** Unlike the function of the same name in package profiles, it drops empty strings. *)
Definition appendUniqueStrings (dst values : list string) : list string :=
  fold_left (fun dst v => if String.eqb v "" then dst else if bool_decide (v ∈ dst) then dst else dst ++ [v]) values dst.

Definition finaliseProfileResult (r : ProfileResult) : ProfileResult :=
  mkProfileResult (ProfileID r) (Version r) (WorkflowClass r) (length (CriticalFailures r) =? 0)%nat
    (insertion_sort Profiles.less_failure (CriticalFailures r))
    (insertion_sort string_ltb (appendUniqueStrings [] (RequiredWarnings r)))
    (insertion_sort string_ltb (appendUniqueStrings [] (InformationalNotes r))) (Obligations r).

(** ** Policy decisions *)

Section policy.
Context `{Crypto} (error_text : Policy.policy_error -> string).

(** Warnings, notes and failures. *)
Definition findings : Type := list string * list string * list CriticalFailure.

Definition report_signature (r : result Policy.policy_error unit) (verified absent kind failed : string)
    (f : findings) : findings :=
  let '(warnings, notes, failures) := f in
  match r with
  | Ok _ => (warnings, notes ++ [verified], failures)
  | Err Policy.ErrSignatureAbsent => (warnings ++ [absent], notes, failures)
  | Err e => (warnings, notes, failures ++ [mkFailure "" kind (failed +:+ error_text e)])
  end.

Definition has_doc_hash (l : list (string * any)) : bool :=
  match assoc Policy.FieldPolicyDocHash l with
  | Some (AString docHash) => negb (String.eqb (TrimSpace docHash) "")
  | _ => false
  end.

Definition inspect_record (f : findings) (record : Record_) : findings :=
  if negb (String.eqb (Event.Type_ (Event_ record)) Policy.TypeAIPolicyDecision) then f
  else
    match Event.Data (Event_ record) with
    | AMap l =>
        let f := report_signature (Policy.VerifyPolicyDecision (Some l))
          "ai.policy.decision: signature verified" "ai.policy.decision: policy_signature absent"
          "signature_verification" "ai.policy.decision: signature verification failed: " f in
        if has_doc_hash l then
          report_signature (Policy.VerifyPolicyDocSignature (Some l))
            "ai.policy.decision: policy_doc_signature verified" "ai.policy.decision: policy_doc_signature absent"
            "policy_doc_signature_verification" "ai.policy.decision: policy_doc_signature verification failed: " f
        else f
    | _ =>
        let '(warnings, notes, failures) := f in
        (warnings, notes, failures ++ [mkFailure "" "signature_verification"
          "ai.policy.decision: signature verification failed: policy decision data is not an object"])
    end.

Definition inspectPolicyDecisionSignatures (records : list Record_) : findings :=
  fold_left inspect_record records ([], [], []).

Definition about_absence (warning : string) : bool :=
  Contains warning "policy_signature absent" || Contains warning "policy_doc_signature absent".

Definition applyPolicyDecisionSignatureChecks (result : ProfileResult) (f : findings) (strict : bool) : ProfileResult :=
  let '(warnings, notes, failures) := f in
  let promoted := if strict
    then map (fun w => mkFailure "" "signature_verification" w) (List.filter about_absence warnings) else [] in
  let warnings := if strict then List.filter (fun w => negb (about_absence w)) warnings else warnings in
  finaliseProfileResult
    (mkProfileResult (ProfileID result) (Version result) (WorkflowClass result) (Pass result)
       (CriticalFailures result ++ failures ++ promoted) (RequiredWarnings result ++ warnings)
       (InformationalNotes result ++ notes) (Obligations result)).

(** ** What the checks decide *)

(** A signature that verifies; outside strict mode, also one that is not there. *)
Definition acceptable (strict : bool) (r : result Policy.policy_error unit) : Prop :=
  r = Ok tt \/ (strict = false /\ r = Err Policy.ErrSignatureAbsent).

Definition signed_decision (strict : bool) (record : Record_) : Prop :=
  Event.Type_ (Event_ record) = Policy.TypeAIPolicyDecision ->
  exists l, Event.Data (Event_ record) = AMap l /\ acceptable strict (Policy.VerifyPolicyDecision (Some l)) /\
    (has_doc_hash l = true -> acceptable strict (Policy.VerifyPolicyDocSignature (Some l))).

(** No failure, and in strict mode no warning of an absent signature. *)
Definition clean (strict : bool) (f : findings) : Prop :=
  f.2 = [] /\ (strict = true -> List.filter about_absence f.1.1 = []).

Lemma report_clean strict r verified absent kind failed f :
  about_absence absent = true ->
  clean strict (report_signature r verified absent kind failed f) <-> clean strict f /\ acceptable strict r.
Proof.
  intros Ha. destruct f as [[ws ns] fs]. unfold clean, acceptable. destruct r as [[]|[|d]]; cbn [report_signature fst snd].
  - split; [intros []; auto|intros [[] _]; auto].
  - rewrite List.filter_app. cbn [List.filter]. rewrite Ha. split.
    + intros [Hf Hw]. destruct strict; [specialize (Hw eq_refl); by apply app_nil in Hw as [_ ?]|]. split; [done|]. by right.
    + intros [[Hf Hw] [?|[-> _]]]; [discriminate|]. split; [done|]. discriminate.
  - split; [intros [E _]; by apply app_nil in E as [_ ?]|]. by intros [_ [?|[_ ?]]].
Qed.

Lemma inspect_clean strict f record :
  clean strict (inspect_record f record) <-> clean strict f /\ signed_decision strict record.
Proof.
  unfold inspect_record, signed_decision.
  destruct (String.eqb_spec (Event.Type_ (Event_ record)) Policy.TypeAIPolicyDecision) as [E|E]; cbn [negb];
    [|split; [intros ?; by split|by intros [? _]]].
  assert (forall (P : Prop), (Event.Type_ (Event_ record) = Policy.TypeAIPolicyDecision -> P) <-> P) as HP by (intros P; split; auto).
  rewrite HP. clear HP E.
  assert (forall f', (clean strict (f'.1, f'.2 ++ [mkFailure "" "signature_verification"
    "ai.policy.decision: signature verification failed: policy decision data is not an object"]) <-> False)) as Hbad.
  { intros f'. split; [|done]. intros [Hf _]. by apply app_nil in Hf as [_ ?]. }
  assert (about_absence "ai.policy.decision: policy_signature absent" = true) as Ha1 by (vm_compute; reflexivity).
  assert (about_absence "ai.policy.decision: policy_doc_signature absent" = true) as Ha2 by (vm_compute; reflexivity).
  destruct (Event.Data (Event_ record)) as [| | | | | |l| | |];
    try (destruct f as [[ws ns] fs]; rewrite (Hbad (ws, ns, fs)); split; [done|]; by intros [_ (? & ? & _)]).
  transitivity (clean strict f /\ acceptable strict (Policy.VerifyPolicyDecision (Some l)) /\
    (has_doc_hash l = true -> acceptable strict (Policy.VerifyPolicyDocSignature (Some l)))).
  - destruct (has_doc_hash l).
    + rewrite (report_clean _ _ _ _ _ _ _ Ha2), (report_clean _ _ _ _ _ _ _ Ha1). split; [intros [[] ?]; auto|intros (? & ? & Hd); auto].
    + rewrite (report_clean _ _ _ _ _ _ _ Ha1). split; [intros []; split_and!; done|intros (? & ? & _); auto].
  - split; [intros (? & Hl); split; [done|]; by exists l|]. intros (? & l' & [= <-] & Hl). by split.
Qed.

Lemma checks_failures result records strict :
  CriticalFailures (applyPolicyDecisionSignatureChecks result (inspectPolicyDecisionSignatures records) strict) = [] <->
  CriticalFailures result = [] /\ Forall (signed_decision strict) records.
Proof.
  assert (clean strict (inspectPolicyDecisionSignatures records) <-> Forall (signed_decision strict) records) as <-.
  { unfold inspectPolicyDecisionSignatures.
    assert (forall f, clean strict (fold_left inspect_record records f) <-> clean strict f /\ Forall (signed_decision strict) records) as Hf.
    { induction records as [|r l IH]; intros f; cbn [fold_left]; [split; [by intros|by intros [? _]]|].
      rewrite IH, inspect_clean, Forall_cons. tauto. }
    rewrite Hf. split; [by intros [_ ?]|]. intros ?. by split. }
  unfold applyPolicyDecisionSignatureChecks, clean.
  destruct (inspectPolicyDecisionSignatures records) as [[ws ns] fs]. cbn [fst snd finaliseProfileResult CriticalFailures].
  rewrite insertion_sort_nil. split.
  - intros [Hr [Hf Hp]%app_nil]%app_nil. split; [done|]. split; [done|]. intros ->. by apply map_eq_nil in Hp.
  - intros (-> & -> & Hs). destruct strict; [by rewrite Hs|done].
Qed.
Lemma checks_Pass result f strict :
  Pass (applyPolicyDecisionSignatureChecks result f strict) = true <->
  CriticalFailures (applyPolicyDecisionSignatureChecks result f strict) = [].
Proof.
  unfold applyPolicyDecisionSignatureChecks. destruct f as [[ws ns] fs]. cbn [finaliseProfileResult Pass CriticalFailures].
  by rewrite insertion_sort_nil, Nat.eqb_eq, length_zero_iff_nil.
Qed.

(** The signature checks of a profile. A profile passes them exactly when it passed
    before and every policy decision of the bundle is an object whose signature verifies,
    and whose document signature verifies if it names a document; outside strict mode an
    absent signature passes as well. *)
Theorem policy_checks_decide result records strict :
  Pass (applyPolicyDecisionSignatureChecks result (inspectPolicyDecisionSignatures records) strict) = true <->
  CriticalFailures result = [] /\ Forall (signed_decision strict) records.
Proof. by rewrite checks_Pass, checks_failures. Qed.
End policy.

(** ** Examples *)

(** A required rule of severity warning is listed as passed although its event is
    missing. *)
Example warning_rule_listed_as_pass :
  map Status (Obligations (@evaluateSchemaProfile ascii_only
    (Profiles.mkSchema "p" 1 "w" [] [] false "" [Profiles.mkEventRule "a.b" [] "" "warning" []] [] []) [])) =
  ["pass"; "warning"].
Proof. vm_compute. reflexivity. Qed.

(** Strict mode refuses an unsigned decision that the default mode lets pass. *)
Example strict_mode :
  let r := mkRecord (Event.mk 1 "" "ai.policy.decision" "" (AMap [("decision", AString "allow")]) None None None "" "" "" "" None)
             "" [] [] false in
  let checked strict := applyPolicyDecisionSignatureChecks (mkProfileResult "p" 1 "w" true [] [] [] [])
    (@inspectPolicyDecisionSignatures Policy.toy_scheme (fun _ => "") [r]) strict in
  (Pass (checked false), Pass (checked true)) = (true, false).
Proof. vm_compute. reflexivity. Qed.
End Verify.
