(* ===== verification/Score.v ===== *)
(** * Package internal/verify: the completeness score

    The sub-scores of [profiles.go], [verify.go], [anchor_classify.go] and
    [corroboration.go], the Completeness Assurance Score made of them, and the snapshot
    checks. A [range] over a Go map visits the keys in an order the language leaves open:
    the order is an argument, the class [RangeOrder]. Floating-point operations are
    those of [GoFloat], one rounding each, as on amd64. *)

From S2P Require Import Prelude GoText Sha256 GoFloat GoJson GoValue GoUnicode GoTime GoStruct Canonicalize Event HashChain Bundle BundleIO BundleSign Profiles Templates Policy Verify.
Import Bundle.

Module Score.
Import Profiles.

(** ** Ranging over a map *)

(** The pairs a range statement visits; the number tells the statements apart. *)
Class RangeOrder := {
  range : nat -> gmap string float64 -> list (string * float64);
  range_perm i m : range i m ≡ₚ map_to_list m
}.

(** ** Floats *)

Definition zero : float64 := S754_zero false.
Definition hundredths (n : Z) : float64 := round_decimal false n (-2).
Definition float_of_int (n : Z) : float64 := round_decimal (n <? 0) (Z.abs n) 0.

(** [math.Round]: half away from zero. *)
Definition Round (f : float64) : float64 :=
  match f with
  | S754_finite s m e =>
      if 0 <=? e then f
      else
        let n := (Z.pos m + 2 ^ (- e - 1)) / 2 ^ (- e) in
        if n =? 0 then S754_zero s else binary_round prec emax s (Z.to_pos n) 0
  | _ => f
  end.

(** [math.Min] *)
Definition Min (x y : float64) : float64 :=
  match x, y with
  | S754_infinity true, _ | _, S754_infinity true => S754_infinity true
  | S754_nan, _ | _, S754_nan => S754_nan
  | S754_zero s, S754_zero _ => if s then x else y
  | _, _ => if fltb x y then x else y
  end.

(** ** Required events and fields: [profiles.go] *)

Record eventRequirement := mkRequirement { eventType : string; requiredFields : list string }.

Definition request_fields : list string := ["request_id"; "actor_id_hash"; "purpose_tag"].
Definition precommit_fields : list string :=
  ["action_id"; "action_type"; "action_parameters_digest"; "target_resource_id"; "intended_effect"].
Definition decision_fields : list string :=
  ["policy_id"; "policy_version"; "decision"; "decision_reason_codes"; "subject_id_hash"; "action_id"].

Definition privilegedCriticalRequirements : list eventRequirement := [
  mkRequirement "atb.bundle.manifest" [];
  mkRequirement "ai.request.received" request_fields;
  mkRequirement "ai.action.precommit" precommit_fields;
  mkRequirement "ai.policy.decision" decision_fields;
  mkRequirement "ai.action.executed" ["action_id"; "execution_outcome"; "tool_receipt_digest"];
  mkRequirement "ai.action.committed" ["action_id"; "commit_outcome"; "sink_receipt_digest"]].

Definition ragCriticalRequirements : list eventRequirement := [
  mkRequirement "atb.bundle.manifest" [];
  mkRequirement "ai.request.received" request_fields;
  mkRequirement "ai.model.invoked" ["model_provider"; "model_id"; "model_parameters_digest"; "prompt_digest"];
  mkRequirement "ai.model.output" ["output_digest"; "output_format"]].

Definition dataExportCriticalRequirements : list eventRequirement := [
  mkRequirement "atb.bundle.manifest" [];
  mkRequirement "ai.request.received" request_fields;
  mkRequirement "ai.policy.decision" decision_fields;
  mkRequirement "data.export.precommit" precommit_fields;
  mkRequirement "data.export.executed" ["action_id"; "execution_outcome"; "tool_receipt_digest"]].

Definition policyDecisionCriticalRequirements : list eventRequirement := [
  mkRequirement "atb.bundle.manifest" [];
  mkRequirement "ai.request.received" request_fields;
  mkRequirement "ai.policy.decision" decision_fields].

Definition humanOverrideCriticalRequirements : list eventRequirement := [
  mkRequirement "atb.bundle.manifest" [];
  mkRequirement "ai.request.received" request_fields;
  mkRequirement "ai.human.approval"
    ["approval_id"; "approver_id_hash"; "approval_outcome"; "justification_digest"; "action_id"];
  mkRequirement "ai.action.precommit" precommit_fields;
  mkRequirement "ai.action.executed" ["action_id"; "execution_outcome"; "tool_receipt_digest"]].

Definition backgroundAutomationCriticalRequirements : list eventRequirement := [
  mkRequirement "atb.bundle.manifest" [];
  mkRequirement "ai.job.scheduled" ["job_id"; "job_type"; "trigger_source"; "scheduled_by_id_hash"];
  mkRequirement "ai.job.started" ["job_id"; "worker_id_hash"; "started_at"];
  mkRequirement "ai.job.completed" ["job_id"; "outcome"; "completion_reason"]].

(** [float64(a) / float64(b)] of two lengths. *)
Definition fraction_of (a b : nat) : float64 := fdiv (float_of_int (Z.of_nat a)) (float_of_int (Z.of_nat b)).

Definition eventCoverage (recordsByType : gmap string (list Record_)) (requirements : list eventRequirement) : float64 :=
  if (length requirements =? 0)%nat then zero
  else
    let present := List.filter (fun r => 0 <? length (at_key recordsByType (eventType r)))%nat requirements in
    fraction_of (length present) (length requirements).

Definition record_completeness (fields : list string) (total : float64) (record : Record_) : float64 :=
  if (length fields =? 0)%nat then fadd total one
  else
    match dataMap (Event.Data (Event_ record)) with
    | None => total
    | Some data =>
        let present := List.filter (fun f => hasField (Some data) f) fields in
        fadd total (fraction_of (length present) (length fields))
    end.

Definition fieldCompleteness (recordsByType : gmap string (list Record_)) (requirements : list eventRequirement) :
    float64 :=
  let total := fold_left (fun total r =>
    fold_left (record_completeness (requiredFields r)) (at_key recordsByType (eventType r)) total) requirements zero in
  let count := length (mjoin (map (fun r => at_key recordsByType (eventType r)) requirements)) in
  if (count =? 0)%nat then zero else fdiv total (float_of_int (Z.of_nat count)).

(** ** Relations between records *)

Definition boolScore (ok : bool) : float64 := if ok then one else zero.

Definition averageScores (scores : list float64) : float64 :=
  if (length scores =? 0)%nat then zero
  else fdiv (fold_left fadd scores zero) (float_of_int (Z.of_nat (length scores))).

Definition nonempty {A} (l : list A) : bool := (0 <? length l)%nat.

Definition allRecordsBound (records : list Record_) (field : string) (targetIndex : gmap string (list Record_)) : bool :=
  forallb (fun r => let value := fieldString r field in
    negb (String.eqb value "" || (length (at_key targetIndex value) =? 0)%nat)) records && nonempty records.

Section bound.
Context `{Unicode}.

Definition allExecutedAuthorised (executed : list Record_) (policyByAction : gmap string (list Record_)) : bool :=
  nonempty executed &&
  forallb (fun r => let actionID := fieldString r "action_id" in
    negb (String.eqb actionID "") &&
    existsb (fun policy => EqualFold (fieldString policy "decision") "allow") (at_key policyByAction actionID)) executed.

Definition allExecutedApproved (executed : list Record_) (approvalByAction : gmap string (list Record_)) : bool :=
  forallb (fun r => let actionID := fieldString r "action_id" in
    negb (String.eqb actionID "") &&
    existsb (fun approval => EqualFold (fieldString approval "approval_outcome") "approved")
      (at_key approvalByAction actionID)) executed.
End bound.

(** ** Times *)

Definition Second : Z := 1000000000.
Definition Minute : Z := 60 * Second.
Definition minDuration : Z := -9223372036854775808.
Definition maxDuration : Z := 9223372036854775807.

(** [t.Sub(u)] saturates. *)
Definition Sub (t u : Z) : Z := Z.max minDuration (Z.min maxDuration (t - u)).

(** [d.Round(time.Second)] of a positive duration. *)
Definition RoundSecond (d : Z) : Z :=
  let r := d mod Second in
  if r + r <? Second then d - r else if d + Second - r <=? maxDuration then d + Second - r else maxDuration.

(** The decimals [Duration.String] prints: without trailing zeros. *)
Fixpoint trim_fraction (fuel : nat) (width n : Z) : bytes :=
  match fuel with
  | O => []
  | S fuel =>
      if n =? 0 then []
      else if n mod 10 =? 0 then trim_fraction fuel (width - 1) (n / 10)
      else chr 46 :: replicate (Z.to_nat (width - Z.of_nat (length (digits n)))) (digit 0) ++ digits n
  end.

(** [d.String()] of a duration of a second or more. *)
Definition duration_string (d : Z) : string :=
  let secs := d / Second in
  let fraction := S_of (trim_fraction 10 9 (d mod Second)) in
  let s := show_int (secs mod 60) +:+ fraction +:+ "s" in
  let mins := secs / 60 in
  if mins =? 0 then s
  else
    let ms := show_int (mins mod 60) +:+ "m" +:+ s in
    if mins / 60 =? 0 then ms else show_int (mins / 60) +:+ "h" +:+ ms.

Definition formatDuration (d : Z) : string :=
  if d mod Minute =? 0 then show_int (d / Minute) +:+ "m" else duration_string (RoundSecond d).

Definition window_prefix : string := "bounded_execution_window: action_id ".

(** The warning for one action. *)
Definition window_warning (precommitByAction : gmap string (list Record_)) (kv : string * list Record_) : option string :=
  match at_key precommitByAction kv.1, kv.2 with
  | p :: _, e :: _ =>
      match parseEventTimestamp p, parseEventTimestamp e with
      | NoTimestamp, _ | _, NoTimestamp => None
      | At t, At u =>
          let window := Sub u t in
          if 10 * Minute <? window
          then Some (window_prefix +:+ kv.1 +:+ " execution window " +:+ formatDuration window +:+ " exceeded 10m limit")
          else None
      | _, _ => Some (window_prefix +:+ kv.1 +:+ " has invalid RFC 3339 timestamp")
      end
  | _, _ => None
  end.

(** The warnings are sorted, so the order of the map does not matter. *)
Definition boundedExecutionWindowWarnings (precommitByAction executedByAction : gmap string (list Record_)) :
    list string :=
  insertion_sort string_ltb (omap (window_warning precommitByAction) (map_to_list executedByAction)).

Definition temporalBeforeScore (beforeRecords modelRecords : list Record_) : float64 :=
  match beforeRecords, modelRecords with
  | b :: _, m :: _ =>
      match parseEventTimestamp b, parseEventTimestamp m with
      | NoTimestamp, _ | _, NoTimestamp => one
      | At t, At u => if u <? t then hundredths 70 else one
      | _, _ => hundredths 70
      end
  | _, _ => one
  end.

(** ** Anchors and corroboration: [anchor_classify.go], [corroboration.go] *)

Inductive AnchorVerifyResult := AnchorAbsent | AnchorPresentBadData | AnchorDigestOnly | AnchorVerified.

Definition xcScore (r : AnchorVerifyResult) : float64 :=
  match r with
  | AnchorPresentBadData => hundredths 10
  | AnchorDigestOnly => hundredths 50
  | AnchorVerified => one
  | AnchorAbsent => zero
  end.

Definition acScore (r : AnchorVerifyResult) : float64 :=
  match r with AnchorVerified => one | _ => zero end.

Definition hasNonEmptyString (m : list (string * any)) (key : string) : bool :=
  match assoc key m with Some (AString s) => negb (String.eqb s "") | _ => false end.

Definition valid_corroboration (r : Record_) : bool :=
  String.eqb (Event.Type_ (Event_ r)) "atb.corroboration.external" &&
  match Event.Data (Event_ r) with
  | AMap dm =>
      hasNonEmptyString dm "source" && hasNonEmptyString dm "reference_id" && hasNonEmptyString dm "digest" &&
      match assoc "retrieved_at" dm with
      | Some (AString ts) => negb (String.eqb ts "") && bool_decide (is_Some (parse_rfc3339 (B ts)))
      | _ => false
      end
  | _ => false
  end.

Definition countValidCorroborationEvents (records : list Record_) : nat :=
  length (List.filter valid_corroboration records).

Definition xcScoreWithCorroboration (r : AnchorVerifyResult) (records : list Record_) : float64 :=
  let valid := countValidCorroborationEvents records in
  if (valid =? 0)%nat then xcScore r
  else
    let corrobXC := Min one (float_of_int (Z.of_nat valid)) in
    let base := xcScore r in
    if fltb base corrobXC then corrobXC else base.

(** [snapshot_checks.go]. [encode_text] is the text of a failure to encode. *)
Section snapshots.
Context (encode_text : string).

Definition SnapshotBundleHash (records : list Record_) : option string :=
  (fun raw => S_of (hex_encode (Sha256.sum256 raw))) <$> BundleIO.encode_records records.

Definition snapshot_failure (before : list Record_) (record : Record_) : option string :=
  let at_seq := "snapshot_hash_mismatch at seq " +:+ show_int (Event.Sequence (Event_ record)) in
  if negb (String.eqb (Event.Type_ (Event_ record)) "atb.snapshot") then None
  else
    match Event.Data (Event_ record) with
    | AMap fields =>
        let recordedHash := TrimSpace (BundleSign.stringField fields "bundle_hash") in
        if String.eqb recordedHash "" then Some (at_seq +:+ ": bundle_hash missing")
        else
          match SnapshotBundleHash before with
          | None => Some (at_seq +:+ ": recompute bundle hash: " +:+ encode_text)
          | Some computedHash => if String.eqb recordedHash computedHash then None else Some at_seq
          end
    | _ => Some (at_seq +:+ ": snapshot data is not an object")
    end.

Definition VerifySnapshotHashes (records : list Record_) : list string :=
  omap (fun f => f) (imap (fun i r => snapshot_failure (take i records) r) records).

Definition hasVerifiedSnapshot (records : list Record_) : bool :=
  existsb (fun r => String.eqb (Event.Type_ (Event_ r)) "atb.snapshot") records &&
  (length (VerifySnapshotHashes records) =? 0)%nat.
End snapshots.

Record CorroborationPolicy := mkPolicy {
  AnchorBonus : float64;
  SignatureBonus : float64;
  SnapshotBonus : float64;
  MaxBonus : float64
}.

Definition DefaultCorroborationPolicy : CorroborationPolicy :=
  mkPolicy (hundredths 5) (hundredths 3) (hundredths 2) (hundredths 10).

(** Whether [Validate] accepts the policy. *)
Definition Validate (p : option CorroborationPolicy) : bool :=
  match p with
  | None => true
  | Some p => negb (fltb (MaxBonus p) (fadd (fadd (AnchorBonus p) (SignatureBonus p)) (SnapshotBonus p)))
  end.

Definition computeCorroborationBonus (p : option CorroborationPolicy)
    (anchorVerified signatureVerified snapshotVerified : bool) : float64 :=
  match p with
  | None => zero
  | Some p =>
      let bonus := zero in
      let bonus := if anchorVerified then fadd bonus (AnchorBonus p) else bonus in
      let bonus := if signatureVerified then fadd bonus (SignatureBonus p) else bonus in
      let bonus := if snapshotVerified then fadd bonus (SnapshotBonus p) else bonus in
      Min bonus (MaxBonus p)
  end.

(** ** Profiles: the interface and its implementations *)

Record Profile := mkProfile {
  p_ID : string;
  p_Version : Z;
  p_WorkflowClass : string;
  p_BlindSpots : list string;
  DefaultWeights : gmap string float64;
  evaluate : list Record_ -> Verify.ProfileResult;
  (** [profileWithSchema], where the profile implements it. *)
  profileSchema : option ProfileSchema
}.

Definition profileIDPrivilegedToolAction : string := "atb.profile.privileged_tool_action".
Definition profileIDRAGAnswer : string := "atb.profile.rag_answer".
Definition profileIDDataExport : string := "atb.profile.data_export".
Definition profileIDPolicyDecision : string := "atb.profile.policy_decision".
Definition profileIDHumanOverride : string := "atb.profile.human_override".
Definition profileIDBackgroundAutomation : string := "atb.profile.background_automation".

Section scores.
Context `{Unicode}.

Definition loadSchemaIfAvailable (id : string) : option ProfileSchema := LoadSchema Templates.templateSchemas id.

(** [MustLoadSchema]: it panics on an unknown id. *)
Definition loadSchema : string -> option ProfileSchema := loadSchemaIfAvailable.

(** A profile backed by a schema: each method reads it. *)
Definition schema_profile (schema : ProfileSchema) (exposed : option ProfileSchema) : Profile :=
  mkProfile (ID schema) (Version schema) (WorkflowClass schema) (BlindSpots schema) (list_to_map (Weights schema))
    (Verify.evaluateSchemaProfile schema) exposed.

(** The six built-in profiles. [None] stands for the panic of [loadSchema]. *)
Definition builtin (id : string) : option Profile := (fun s => schema_profile s None) <$> loadSchema id.

Definition externalSchemaProfile (schema : ProfileSchema) : Profile := schema_profile schema (Some schema).

(** [registeredProfiles], in the order of [init]. *)
Definition registered_ids : list string :=
  [profileIDPrivilegedToolAction; profileIDRAGAnswer; profileIDDataExport; profileIDPolicyDecision;
   profileIDHumanOverride; profileIDBackgroundAutomation].

Definition ProfileByID (id : string) : option Profile :=
  i ← List.find (fun i => String.eqb i id) registered_ids; builtin i.

Definition SupportsCAS_id (profileID : string) : bool :=
  match loadSchemaIfAvailable profileID with Some schema => SupportsCAS schema | None => false end.

Definition profileSupportsCAS (profile : Profile) : bool :=
  match profileSchema profile with
  | Some schema => SupportsCAS schema
  | None => SupportsCAS_id (p_ID profile)
  end.

(** ** Sub-scores *)

Definition has_type (records : list Record_) (type : string) : bool :=
  existsb (fun r => String.eqb (Event.Type_ (Event_ r)) type) records.

Definition add_if (b : bool) (n : Z) (total : float64) : float64 := if b then fadd total (hundredths n) else total.

Definition computeSC (records : list Record_) (profileID : string) : float64 :=
  match loadSchemaIfAvailable profileID with
  | None => zero
  | Some schema =>
      if negb (SupportsCAS schema) then zero
      else
        let manifest_at_zero := existsb (fun r => String.eqb (Event.Type_ (Event_ r)) "atb.bundle.manifest" &&
          (Event.Sequence (Event_ r) =? 0)) records in
        let total := add_if (has_type records "atb.bundle.anchor") 40 zero in
        let total := add_if manifest_at_zero 25 total in
        let total := add_if (has_type records "ai.request.received") 20 total in
        let total := add_if (has_type records "atb.bundle.signature") 10 total in
        let total :=
          if String.eqb (SCMode schema) "policy_decision" then add_if (has_type records "ai.policy.decision") 15 total
          else if String.eqb (SCMode schema) "retrieval_executed"
          then add_if (has_type records "ai.retrieval.executed") 15 total
          else total in
        Min total one
  end.

Definition sub_scores (ec fc rc tc sc xc ac gc : float64) : gmap string float64 :=
  list_to_map [("EC", ec); ("FC", fc); ("RC", rc); ("TC", tc); ("SC", sc); ("XC", xc); ("AC", ac); ("GC", gc)].

Definition zeroSubScores : gmap string float64 := sub_scores zero zero zero zero zero zero zero zero.

Definition genericSchemaSubScores (schema : ProfileSchema) (records : list Record_) (anchorResult : AnchorVerifyResult) :
    gmap string float64 :=
  let reqs := map (fun rule => mkRequirement (Type_ rule) (Fields rule)) (Required schema) in
  let recordsByType := indexRecordsByType records in
  sub_scores (eventCoverage recordsByType reqs) (fieldCompleteness recordsByType reqs) zero zero zero
    (xcScoreWithCorroboration anchorResult records) (acScore anchorResult) zero.

(** The entries every built-in profile computes alike. *)
Definition builtin_scores (id : string) (reqs : list eventRequirement) (records : list Record_)
    (anchorResult : AnchorVerifyResult) (rc tc gc : float64) : gmap string float64 :=
  let recordsByType := indexRecordsByType records in
  sub_scores (eventCoverage recordsByType reqs) (fieldCompleteness recordsByType reqs) rc tc (computeSC records id)
    (xcScoreWithCorroboration anchorResult records) (acScore anchorResult) gc.

Definition window_score (precommitByAction executedByAction : gmap string (list Record_)) : float64 :=
  if nonempty (boundedExecutionWindowWarnings precommitByAction executedByAction) then hundredths 70 else one.

Definition policyDecisionSubScores (records : list Record_) (anchorResult : AnchorVerifyResult) : gmap string float64 :=
  let of_type := at_key (indexRecordsByType records) in
  let decisions := of_type "ai.policy.decision" in
  let precommitByAction := indexByField (of_type "ai.action.precommit") "action_id" in
  let policyByAction := indexByField decisions "action_id" in
  let bound := nonempty decisions && nonempty (of_type "ai.action.precommit") &&
    allRecordsBound decisions "action_id" precommitByAction in
  builtin_scores profileIDPolicyDecision policyDecisionCriticalRequirements records anchorResult (boolScore bound)
    (temporalBeforeScore decisions (of_type "ai.action.executed"))
    (boolScore (bound && allRecordsBound decisions "action_id" policyByAction)).

Definition humanOverrideSubScores (records : list Record_) (anchorResult : AnchorVerifyResult) : gmap string float64 :=
  let of_type := at_key (indexRecordsByType records) in
  let precommits := of_type "ai.action.precommit" in
  let approvals := of_type "ai.human.approval" in
  let executed := of_type "ai.action.executed" in
  let precommitByAction := indexByField precommits "action_id" in
  let approvalByAction := indexByField approvals "action_id" in
  let executedByAction := indexByField executed "action_id" in
  let approvalBound := nonempty approvals && nonempty precommits && allRecordsBound approvals "action_id" precommitByAction in
  builtin_scores profileIDHumanOverride humanOverrideCriticalRequirements records anchorResult
    (averageScores [boolScore approvalBound; boolScore (allExecutedApproved executed approvalByAction)])
    (window_score precommitByAction executedByAction)
    (boolScore (nonempty approvals && nonempty precommits && nonempty executed &&
       allRecordsBound approvals "action_id" precommitByAction && allRecordsBound executed "action_id" precommitByAction)).

Definition backgroundAutomationSubScores (records : list Record_) (anchorResult : AnchorVerifyResult) :
    gmap string float64 :=
  let of_type := at_key (indexRecordsByType records) in
  let scheduled := of_type "ai.job.scheduled" in
  let started := of_type "ai.job.started" in
  let completed := of_type "ai.job.completed" in
  let consistent := nonempty scheduled && nonempty started && nonempty completed &&
    allRecordsBound started "job_id" (indexByField scheduled "job_id") &&
    allRecordsBound completed "job_id" (indexByField started "job_id") &&
    allRecordsBound started "job_id" (indexByField completed "job_id") in
  builtin_scores profileIDBackgroundAutomation backgroundAutomationCriticalRequirements records anchorResult
    (boolScore consistent) one (boolScore consistent).

Definition dataExportSubScores (records : list Record_) (anchorResult : AnchorVerifyResult) : gmap string float64 :=
  let of_type := at_key (indexRecordsByType records) in
  let precommits := of_type "data.export.precommit" in
  let decisions := of_type "ai.policy.decision" in
  let executed := of_type "data.export.executed" in
  let precommitByAction := indexByField precommits "action_id" in
  let policyByAction := indexByField decisions "action_id" in
  let executedByAction := indexByField executed "action_id" in
  builtin_scores profileIDDataExport dataExportCriticalRequirements records anchorResult
    (averageScores
       [boolScore (nonempty decisions && nonempty precommits && allRecordsBound decisions "action_id" precommitByAction);
        boolScore (nonempty executed && nonempty decisions && allExecutedAuthorised executed policyByAction)])
    (window_score precommitByAction executedByAction)
    (boolScore (nonempty precommits && nonempty executed && nonempty decisions &&
       allRecordsBound executed "action_id" precommitByAction && allExecutedAuthorised executed policyByAction)).

Definition privilegedToolActionSubScores (records : list Record_) (anchorResult : AnchorVerifyResult) :
    gmap string float64 :=
  let of_type := at_key (indexRecordsByType records) in
  let precommits := of_type "ai.action.precommit" in
  let decisions := of_type "ai.policy.decision" in
  let executed := of_type "ai.action.executed" in
  let committed := of_type "ai.action.committed" in
  let precommitByAction := indexByField precommits "action_id" in
  let policyByAction := indexByField decisions "action_id" in
  let executedByAction := indexByField executed "action_id" in
  let committedByAction := indexByField committed "action_id" in
  builtin_scores profileIDPrivilegedToolAction privilegedCriticalRequirements records anchorResult
    (averageScores
       [boolScore (nonempty committed && nonempty precommits && allRecordsBound committed "action_id" precommitByAction);
        boolScore (nonempty decisions && nonempty precommits && allRecordsBound decisions "action_id" precommitByAction);
        boolScore (nonempty executed && nonempty decisions && allExecutedAuthorised executed policyByAction)])
    (window_score precommitByAction executedByAction)
    (boolScore (nonempty precommits && nonempty executed && nonempty committed &&
       allRecordsBound executed "action_id" precommitByAction && allRecordsBound committed "action_id" precommitByAction &&
       allRecordsBound committed "action_id" executedByAction && allRecordsBound executed "action_id" committedByAction)).

Definition ragAnswerSubScores (records : list Record_) (anchorResult : AnchorVerifyResult) : gmap string float64 :=
  let of_type := at_key (indexRecordsByType records) in
  let requestToResponse :=
    match of_type "ai.request.received", of_type "ai.response.sent" with
    | q :: _, a :: _ =>
        let requestID := fieldString q "request_id" in
        if negb (String.eqb requestID "") && String.eqb requestID (fieldString a "request_id") then one else zero
    | _, _ => zero
    end in
  let model := of_type "ai.model.invoked" in
  builtin_scores profileIDRAGAnswer ragCriticalRequirements records anchorResult requestToResponse
    (averageScores [temporalBeforeScore (of_type "ai.policy.decision") model;
                    temporalBeforeScore (of_type "ai.retrieval.executed") model])
    (hundredths 30).

Definition profileSubScoreBuilders : list (string * (list Record_ -> AnchorVerifyResult -> gmap string float64)) :=
  [(profileIDPrivilegedToolAction, privilegedToolActionSubScores); (profileIDRAGAnswer, ragAnswerSubScores);
   (profileIDDataExport, dataExportSubScores); (profileIDPolicyDecision, policyDecisionSubScores);
   (profileIDHumanOverride, humanOverrideSubScores); (profileIDBackgroundAutomation, backgroundAutomationSubScores)].

Definition subScoresForProfile (profile : Profile) (records : list Record_) (anchorResult : AnchorVerifyResult) :
    gmap string float64 :=
  match assoc (p_ID profile) profileSubScoreBuilders with
  | Some builder => builder records anchorResult
  | None =>
      match profileSchema profile with
      | Some schema => genericSchemaSubScores schema records anchorResult
      | None => zeroSubScores
      end
  end.
End scores.

(** ** The score *)

Definition roundCASFloat (value : float64) : float64 :=
  let precision := float_of_int 1000000000000 in fdiv (Round (fmul value precision)) precision.

(** [switch] over the thresholds, for the two families of labels. *)
Definition graded (labels : string * string * string * string) (score : float64) : string :=
  let '(high, medium, low, none) := labels in
  if fleb (hundredths 85) score then high
  else if fleb (hundredths 60) score then medium
  else if fleb (hundredths 30) score then low
  else none.

Definition gradeFromScore : float64 -> string := graded ("High", "Medium", "Low", "Insufficient").
Definition coverageGradeFromScore : float64 -> string :=
  graded ("High coverage", "Moderate coverage", "Low coverage", "Minimal coverage").

Definition casApplicability (profile : Profile) : list (string * string) :=
  if String.eqb (p_ID profile) profileIDRAGAnswer then
    [("GC", "Gating completeness is not assessable without captured gating evidence.")]
  else if bool_decide (p_ID profile ∈ [profileIDPrivilegedToolAction; profileIDDataExport; profileIDPolicyDecision;
                                       profileIDHumanOverride; profileIDBackgroundAutomation]) then []
  else [("RC", "The profile declares no relation rules."); ("TC", "The profile declares no temporal rules.");
        ("SC", "Generic scoring cannot assess source binding for a custom profile.");
        ("GC", "The profile declares no gating rules.")].

Record DimensionAssessment := mkDimension {
  Assessable : bool;
  Score_ : option float64;
  Weight : float64;
  Reason : string
}.

Record CASResult := mkCAS {
  Overall : float64;
  Grade : string;
  CorroborationBonus : float64;
  EffectiveScore : float64;
  SubScores : gmap string float64;
  WeightVector : gmap string float64;
  CoverageScore : float64;
  CoverageGrade : string;
  AssessmentCoverage : float64;
  Dimensions : gmap string DimensionAssessment;
  IntegrityValid : bool;
  AssuranceValid : bool
}.

(** Reading a Go map of floats. *)
Definition score_at (m : gmap string float64) (k : string) : float64 := default zero (m !! k).

Record cas_sums := mkSums {
  declaredWeight : float64;
  assessableWeight : float64;
  coverageTotal : float64;
  dimensions : gmap string DimensionAssessment
}.

Definition cas_step (scores : gmap string float64) (applicability : list (string * string)) (s : cas_sums)
    (kv : string * float64) : cas_sums :=
  let '(key, weight) := kv in
  if fleb weight zero then s
  else
    let declared := fadd (declaredWeight s) weight in
    match assoc key applicability with
    | Some reason =>
        mkSums declared (assessableWeight s) (coverageTotal s)
          (<[key := mkDimension false None weight reason]> (dimensions s))
    | None =>
        let score := score_at scores key in
        mkSums declared (fadd (assessableWeight s) weight) (fadd (coverageTotal s) (fmul weight score))
          (<[key := mkDimension true (Some score) weight ""]> (dimensions s))
    end.

Definition weighted_total (scores : gmap string float64) (weights : list (string * float64)) : float64 :=
  fold_left (fun total kv => fadd total (fmul kv.2 (score_at scores kv.1))) weights zero.

Section cas.
Context `{RangeOrder}.

Definition computeCASWithApplicability (subScores weights : gmap string float64) (applicability : list (string * string))
    (integrityValid : bool) : CASResult :=
  let sums := fold_left (cas_step subScores applicability) (range 0 weights) (mkSums zero zero zero ∅) in
  let coverage := if fltb zero (assessableWeight sums)
    then roundCASFloat (fdiv (coverageTotal sums) (assessableWeight sums)) else zero in
  let assessed := if fltb zero (declaredWeight sums)
    then roundCASFloat (fdiv (assessableWeight sums) (declaredWeight sums)) else zero in
  if negb integrityValid then
    mkCAS zero "Insufficient" zero zero subScores weights zero "" zero ∅ integrityValid integrityValid
  else
    let total := weighted_total subScores (range 1 weights) in
    mkCAS total (gradeFromScore total) zero total subScores weights coverage (coverageGradeFromScore coverage) assessed
      (dimensions sums) integrityValid integrityValid.

Definition ComputeCAS (subScores weights : gmap string float64) (integrityValid : bool) : CASResult :=
  computeCASWithApplicability subScores weights [] integrityValid.
End cas.

(** ** What does not depend on the order of the map *)

(** The assessment of a dimension of positive weight. *)
Definition assessment (scores : gmap string float64) (applicability : list (string * string)) (key : string)
    (weight : float64) : option DimensionAssessment :=
  if fleb weight zero then None
  else Some match assoc key applicability with
       | Some reason => mkDimension false None weight reason
       | None => mkDimension true (Some (score_at scores key)) weight ""
       end.

Lemma cas_step_dimensions scores app s key weight :
  dimensions (cas_step scores app s (key, weight)) =
  match assessment scores app key weight with Some d => <[key := d]> (dimensions s) | None => dimensions s end.
Proof. unfold cas_step, assessment. destruct (fleb weight zero); [done|]. by destruct (assoc key app). Qed.

Lemma fold_dimensions scores app l s k :
  NoDup l.*1 ->
  dimensions (fold_left (cas_step scores app) l s) !! k =
  match assoc k l with
  | Some w => match assessment scores app k w with Some d => Some d | None => dimensions s !! k end
  | None => dimensions s !! k
  end.
Proof.
  revert s. induction l as [|[key w] l IH]; intros s Hn; [done|]. cbn [fold_left assoc].
  apply NoDup_cons in Hn as [Hk Hn]. rewrite IH, cas_step_dimensions by done. clear IH.
  destruct (String.eqb_spec k key) as [->|Hne].
  - destruct (assoc key l) as [w'|] eqn:E.
    + destruct Hk. apply (assoc_elem key w' l Hn) in E. by apply (list_elem_of_fmap_2 fst) in E.
    + destruct (assessment scores app key w); [by rewrite lookup_insert_eq|done].
  - assert ((match assessment scores app key w with Some d => <[key := d]> (dimensions s) | None => dimensions s end) !! k
      = dimensions s !! k) as ->; [|done].
    destruct (assessment scores app key w); [by rewrite lookup_insert_ne|done].
Qed.

Lemma assoc_map_to_list (m : gmap string float64) k : assoc k (map_to_list m) = m !! k.
Proof.
  pose proof (NoDup_fst_map_to_list m) as Hn. destruct (m !! k) as [w|] eqn:E.
  - apply (assoc_elem k w _ Hn). by apply elem_of_map_to_list.
  - apply assoc_None. intros ([k' w] & -> & Hin)%list_elem_of_fmap. apply elem_of_map_to_list in Hin. cbn in E. congruence.
Qed.

Lemma range_assoc `{RangeOrder} i m k : assoc k (range i m) = m !! k.
Proof.
  rewrite (assoc_perm (range i m) (map_to_list m)); [apply assoc_map_to_list| |apply range_perm].
  rewrite range_perm. apply NoDup_fst_map_to_list.
Qed.

(** The dimensions of a score, whatever the order of the weights. *)
Lemma cas_dimensions `{RangeOrder} scores weights app valid k :
  Dimensions (computeCASWithApplicability scores weights app valid) !! k =
  if valid then w ← weights !! k; assessment scores app k w else None.
Proof.
  unfold computeCASWithApplicability. destruct valid; cbn [negb Dimensions]; [|done].
  rewrite fold_dimensions by (rewrite range_perm; apply NoDup_fst_map_to_list).
  rewrite range_assoc. destruct (weights !! k) as [w|]; [|done]. cbn [mbind option_bind].
  by destruct (assessment scores app k w).
Qed.

(** ** Scores of a passing profile *)

Definition requirements_of (schema : ProfileSchema) : list eventRequirement :=
  map (fun rule => mkRequirement (Type_ rule) (Fields rule)) (Required schema).

Lemma eventCoverage_full records reqs :
  reqs <> [] -> Forall (fun r => of_type records (eventType r) <> []) reqs ->
  eventCoverage (indexRecordsByType records) reqs = fraction_of (length reqs) (length reqs).
Proof.
  intros Hne Hall. unfold eventCoverage. destruct (length reqs =? 0)%nat eqn:E.
  { apply Nat.eqb_eq, length_zero_iff_nil in E. done. }
  assert (List.filter (fun r => 0 <? length (at_key (indexRecordsByType records) (eventType r)))%nat reqs = reqs) as ->; [|done].
  clear E Hne. induction Hall as [|r l Hr _ IH]; [done|]. cbn [List.filter]. rewrite index_by_type, IH.
  destruct (of_type records (eventType r)); [done|]. by cbn.
Qed.

Lemma allRecordsBound_relation `{Unicode} records rule :
  relation_met records rule -> of_type records (From rule) <> [] -> of_type records (To rule) <> [] ->
  allRecordsBound (of_type records (From rule)) (Field rule) (indexByField (of_type records (To rule)) (Field rule)) = true.
Proof.
  intros Hr Hf Ht. unfold allRecordsBound. apply andb_true_iff. split.
  - apply forallb_forall. intros from Hin%list_elem_of_In. destruct (Hr Ht from Hin) as (Hne & to & Hto & Heq & _).
    rewrite index_by_field by done. apply negb_true_iff, orb_false_iff. split; [by apply String.eqb_neq|].
    apply Nat.eqb_neq. intros E%length_zero_iff_nil.
    assert (to ∈ List.filter (fun r => String.eqb (fieldString r (Field rule)) (fieldString from (Field rule)))
      (of_type records (To rule))) as Hto'; [|rewrite E in Hto'; by apply not_elem_of_nil in Hto'].
    apply list_elem_of_In, filter_In. split; [by apply list_elem_of_In|]. by apply String.eqb_eq.
  - by destruct (of_type records (From rule)).
Qed.

Lemma allExecutedAuthorised_relation `{Unicode} records rule :
  relation_met records rule -> Field rule = "action_id" -> Predicates rule = [mkPredicate "to" "decision" "allow"] ->
  of_type records (From rule) <> [] -> of_type records (To rule) <> [] ->
  allExecutedAuthorised (of_type records (From rule)) (indexByField (of_type records (To rule)) "action_id") = true.
Proof.
  intros Hr HF HP Hf Ht. unfold allExecutedAuthorised. apply andb_true_iff. split; [by destruct (of_type records (From rule))|].
  apply forallb_forall. intros from Hin%list_elem_of_In. destruct (Hr Ht from Hin) as (Hne & to & Hto & Heq & Hp).
  rewrite HF in Hne, Heq. rewrite HP in Hp. apply Forall_cons in Hp as [Hp _].
  apply andb_true_iff. split; [by apply negb_true_iff, String.eqb_neq|].
  rewrite index_by_field by done. apply existsb_exists. exists to. split; [|exact Hp].
  apply filter_In. split; [by apply list_elem_of_In|]. by apply String.eqb_eq.
Qed.

Lemma find_template id s :
  List.find (fun s => String.eqb id (ID s)) Templates.decoded = Some s -> s ∈ Templates.decoded /\ ID s = id.
Proof.
  intros E. apply find_some in E as [Hin Heq]. split; [by apply list_elem_of_In|]. by apply String.eqb_eq in Heq.
Qed.

Lemma ProfileByID_template `{Unicode} id p :
  ProfileByID id = Some p -> exists s, s ∈ Templates.decoded /\ ID s = id /\ p = schema_profile s None.
Proof.
  unfold ProfileByID, builtin, loadSchema, loadSchemaIfAvailable.
  destruct (List.find _ registered_ids) as [i|] eqn:Hi; [|done]. cbn [mbind option_bind].
  apply find_some in Hi as [_ Hi]. apply String.eqb_eq in Hi as ->.
  rewrite Templates.LoadSchema_template. destruct (List.find _ _) as [s|] eqn:Hs; [|done].
  apply find_template in Hs as [Hin Hid]. cbn [fmap option_fmap option_map]. intros Hp. exists s. split_and!; congruence.
Qed.

(** The tables of the Go code and the rules of the templates ask for the same events. *)
Lemma template_scores `{Unicode} s records anchor :
  s ∈ Templates.decoded -> exists rc tc gc,
  subScoresForProfile (schema_profile s None) records anchor =
  builtin_scores (ID s) (requirements_of s) records anchor rc tc gc.
Proof.
  intros Hs. repeat (apply elem_of_cons in Hs as [-> | Hs]); [..|by apply not_elem_of_nil in Hs]; by do 3 eexists.
Qed.

Lemma template_rules `{Unicode} s :
  s ∈ Templates.decoded -> Forall critical (Required s) /\ Required s <> [] /\
  fraction_of (length (requirements_of s)) (length (requirements_of s)) = one.
Proof.
  intros Hs. repeat (apply elem_of_cons in Hs as [-> | Hs]); [..|by apply not_elem_of_nil in Hs];
    (split; [repeat constructor; vm_compute; reflexivity|split; [done|vm_compute; reflexivity]]).
Qed.

Lemma template_covered `{Unicode} s records :
  s ∈ Templates.decoded -> obligations_met records s ->
  Forall (fun r => of_type records (eventType r) <> []) (requirements_of s).
Proof.
  intros Hs [He _]. destruct (template_rules s Hs) as [Hc _]. apply Forall_fmap, Forall_forall.
  intros rule Hin. rewrite Forall_forall in Hc. cbn. destruct (He rule) as (r & Hr & _); [|by apply Hc|].
  - apply elem_of_app. by left.
  - by destruct (of_type records (Type_ rule)).
Qed.

Lemma evaluate_failures `{Unicode} schema records :
  Verify.CriticalFailures (Verify.evaluateSchemaProfile schema records) = [] <-> obligations_met records schema.
Proof. apply Evaluate_failures. Qed.

Lemma sub_scores_EC ec fc rc tc sc xc ac gc : sub_scores ec fc rc tc sc xc ac gc !! "EC" = Some ec.
Proof. reflexivity. Qed.

Lemma sub_scores_RC ec fc rc tc sc xc ac gc : sub_scores ec fc rc tc sc xc ac gc !! "RC" = Some rc.
Proof. reflexivity. Qed.

Lemma nonempty_iff {A} (l : list A) : l <> [] -> nonempty l = true.
Proof. by destruct l. Qed.

Lemma privileged_relations `{Unicode} records anchor :
  obligations_met records Templates.privileged_tool_action ->
  privilegedToolActionSubScores records anchor !! "RC" = Some one.
Proof.
  intros Hm. pose proof (template_covered Templates.privileged_tool_action records) as Hc.
  specialize (Hc ltac:(set_solver) Hm).
  assert (Forall (relation_met records) (Relations Templates.privileged_tool_action)) as Hr
    by (apply Forall_forall; apply Hm).
  unfold requirements_of in Hc. cbn [Templates.privileged_tool_action Required Relations map] in Hc, Hr.
  repeat apply Forall_cons in Hc as [? Hc]. cbn [eventType Type_] in *.
  apply Forall_cons in Hr as [R1 Hr]. apply Forall_cons in Hr as [R2 Hr]. apply Forall_cons in Hr as [R3 _].
  pose proof (allRecordsBound_relation _ _ R1) as E1. pose proof (allRecordsBound_relation _ _ R2) as E2.
  pose proof (allExecutedAuthorised_relation _ _ R3 eq_refl eq_refl) as E3. cbn [From To Field] in E1, E2, E3.
  unfold privilegedToolActionSubScores, builtin_scores. cbv zeta. rewrite sub_scores_RC, !index_by_type.
  rewrite E1, E2, E3, !nonempty_iff by done. vm_compute. reflexivity.
Qed.

(** The score agrees with the obligations. When a built-in profile passes, its event
    coverage is 1 although the score reads the Go tables and not the template; and when
    the profile for privileged tool actions passes, so is its relation consistency. *)
Theorem passing_profile_scores `{Unicode} id p records anchor :
  ProfileByID id = Some p -> Verify.CriticalFailures (evaluate p records) = [] ->
  subScoresForProfile p records anchor !! "EC" = Some one /\
  (id = profileIDPrivilegedToolAction -> subScoresForProfile p records anchor !! "RC" = Some one).
Proof.
  intros (s & Hs & Hid & ->)%ProfileByID_template Hp. pose proof (proj1 (evaluate_failures s records) Hp) as Hm. split.
  - destruct (template_scores s records anchor Hs) as (rc & tc & gc & ->). destruct (template_rules s Hs) as (_ & Hne & Hone).
    unfold builtin_scores. cbv zeta. rewrite sub_scores_EC, eventCoverage_full, Hone; [done| |by apply template_covered].
    unfold requirements_of. by destruct (Required s).
  - intros ->. assert (s = Templates.privileged_tool_action) as ->.
    { repeat (apply elem_of_cons in Hs as [-> | Hs]); [..|by apply not_elem_of_nil in Hs]; done. }
    change (subScoresForProfile _ records anchor) with (privilegedToolActionSubScores records anchor).
    by apply privileged_relations.
Qed.

(** ** Examples *)

Section examples.
Existing Instance ascii_only.

Definition timed_event (seq : Z) (time type : string) (data : list (string * string)) : Record_ :=
  mkRecord (Event.mk seq "" type "" (AMap (map (fun kv => (kv.1, AString kv.2)) data)) None None None time "" "" "" None)
    "" [] [] false.

Definition sample_event (seq : Z) := timed_event seq "".

(** A privileged tool action, from request to commit. *)
Definition sample_payloads : list (string * list (string * string)) :=
  [("ai.request.received", [("request_id", "r"); ("actor_id_hash", "h"); ("purpose_tag", "deploy")]);
   ("ai.action.precommit", [("action_id", "a"); ("action_type", "t"); ("action_parameters_digest", "d");
                            ("target_resource_id", "x"); ("intended_effect", "e")]);
   ("ai.policy.decision", [("policy_id", "p"); ("policy_version", "1"); ("decision", "allow");
                           ("decision_reason_codes", "ok"); ("subject_id_hash", "h"); ("action_id", "a")]);
   ("ai.human.approval", [("approval_id", "p"); ("approver_id_hash", "h"); ("approval_outcome", "approved");
                          ("justification_digest", "d"); ("action_id", "a")]);
   ("ai.action.executed", [("action_id", "a"); ("execution_outcome", "ok"); ("tool_receipt_digest", "d")]);
   ("ai.action.committed", [("action_id", "a"); ("commit_outcome", "ok"); ("sink_receipt_digest", "d")])].

Definition sample_action : list Record_ :=
  imap (fun i p => sample_event (Z.of_nat i) p.1 p.2) (("atb.bundle.manifest", []) :: sample_payloads).

Definition privileged : Profile := schema_profile Templates.privileged_tool_action None.

Lemma privileged_registered : ProfileByID profileIDPrivilegedToolAction = Some privileged.
Proof.
  unfold ProfileByID, builtin, loadSchema, loadSchemaIfAvailable.
  change (List.find _ registered_ids) with (Some profileIDPrivilegedToolAction). cbn [mbind option_bind].
  rewrite Templates.LoadSchema_template. reflexivity.
Qed.

Lemma sample_action_passes : Verify.CriticalFailures (evaluate privileged sample_action) = [].
Proof. vm_compute. reflexivity. Qed.

Lemma passing_profile_scores_witness :
  subScoresForProfile privileged sample_action AnchorAbsent !! "EC" = Some one /\
  subScoresForProfile privileged sample_action AnchorAbsent !! "RC" = Some one.
Proof.
  destruct (passing_profile_scores profileIDPrivilegedToolAction privileged sample_action AnchorAbsent
    privileged_registered sample_action_passes) as [H1 H2].
  exact (conj H1 (H2 eq_refl)).
Defined.

(** A request twice, once without its fields: the profile passes, which looks at the first
    record only, and the field completeness is below 1. *)
Example first_record_decides :
  let records := sample_action ++ [sample_event 7 "ai.request.received" []] in
  Verify.CriticalFailures (evaluate privileged records) = [] /\
  fltb (score_at (subScoresForProfile privileged records AnchorAbsent) "FC") one = true.
Proof. vm_compute. split; reflexivity. Qed.

(** The template asks for the approval at or after the execution: an action approved
    before it was executed does not pass. *)
Definition timed_action (approved executed : string) : list Record_ :=
  imap (fun i p => timed_event (Z.of_nat i)
    (if String.eqb p.1 "ai.human.approval" then approved else if String.eqb p.1 "ai.action.executed" then executed else "")
    p.1 p.2) (("atb.bundle.manifest", []) :: sample_payloads).

Example approval_before_execution_fails :
  map Kind (Verify.CriticalFailures (evaluate privileged (timed_action "2026-01-02T10:00:00Z" "2026-01-02T10:05:00Z"))) =
    ["temporal_violation"] /\
  Verify.CriticalFailures (evaluate privileged (timed_action "2026-01-02T10:10:00Z" "2026-01-02T10:05:00Z")) = [].
Proof. vm_compute. split; reflexivity. Qed.

(** Without an approval event the profile fails as well, whatever the rule's severity. *)
Example missing_approval_fails :
  map Kind (Verify.CriticalFailures (evaluate privileged
    (List.filter (fun r => negb (String.eqb (Event.Type_ (Event_ r)) "ai.human.approval")) sample_action))) =
  ["missing_event"].
Proof. vm_compute. reflexivity. Qed.

(** The bound of 0.15 the policy documents is not checked. *)
Example unbounded_bonus :
  Validate (Some DefaultCorroborationPolicy) = true /\
  let generous := mkPolicy (hundredths 90) zero zero (hundredths 90) in
  Validate (Some generous) = true /\ gradeFromScore (Min one (fadd zero (computeCorroborationBonus (Some generous) true false false))) = "High".
Proof. vm_compute. split_and!; reflexivity. Qed.

Example window_text : map formatDuration [601000000000; 3600000000000; 5400499999999; 7321500000000; maxDuration] =
  ["10m1s"; "60m"; "1h30m0s"; "2h2m2s"; "2562047h47m16.854775807s"].
Proof. vm_compute. reflexivity. Qed.
End examples.
End Score.
