(* ===== verification/ProfileLoader.v ===== *)
(** * Package internal/verify: profiles in files

    [profile_loader.go]: the profile that [--profile] names, built in or in a file, in one
    of three formats. The YAML decoder is an argument, one function for each Go type that is decoded
    into. Theorems: when a profile of the oldest format passes, and what kinds of profile a
    file can give. *)

From S2P Require Import Prelude GoText Sha256 GoFloat GoJson GoValue GoUnicode GoTime GoStruct Canonicalize Event HashChain Bundle BundleIO BundleSign Profiles Templates Policy Verify Score.
Import Bundle.

Module ProfileLoader.
Import Score.

Record profileRequirementConfig := mkRequirementConfig { q_EventType : string; q_Message : string }.
Record profileRelationConfig := mkRelationConfig { From : string; To : string; rel_Message : string }.

Record profileFileConfig := mkFileConfig {
  f_ID : string;
  DisplayName : string;
  Description : string;
  DetectEventTypes : list string;
  Critical : list profileRequirementConfig;
  Required : list profileRequirementConfig;
  Relations : list profileRelationConfig
}.

Inductive profileFileFormat := FormatUnknown | FormatSchema | FormatLegacy | FormatDSL.

(** [yaml.Unmarshal] into a map, of which only the keys are looked at, into the configuration
    of this file, and into the two types of package profiles. *)
Record yaml_decoder := mkYaml {
  yaml_keys : bytes -> result string (list string);
  yaml_config : bytes -> result string profileFileConfig;
  yaml_schema : bytes -> result string Profiles.ProfileSchema;
  yaml_dsl : bytes -> result string Profiles.dslProfile
}.

Inductive loader_error :=
| EUnrecognised (spec : string)
| ERead (path text : string)
| EYaml (path text : string)
| ESchema (path : string) (e : Profiles.schema_error)
| EDSL (path : string) (e : Profiles.dsl_error)
| EMissingField (field : string)
| ENoCritical
| ECriticalEvent (i : nat)
| ERequiredEvent (i : nat)
| ERelationFrom (i : nat)
| ERelationTo (i : nat).

(** ** The oldest format *)

(** The first element that has the error. *)
Fixpoint first_error {A} (check : nat -> A -> option loader_error) (i : nat) (l : list A) : option loader_error :=
  match l with
  | [] => None
  | x :: rest => match check i x with Some e => Some e | None => first_error check (S i) rest end
  end.

Definition blank (s : string) : bool := String.eqb (TrimSpace s) "".

Definition check_relation (i : nat) (r : profileRelationConfig) : option loader_error :=
  if blank (From r) then Some (ERelationFrom i) else if blank (To r) then Some (ERelationTo i) else None.

Definition validate (c : profileFileConfig) : result loader_error unit :=
  if blank (f_ID c) then Err (EMissingField "id")
  else if blank (DisplayName c) then Err (EMissingField "display_name")
  else if (length (Critical c) =? 0)%nat then Err ENoCritical
  else
    match first_error (fun i o => if blank (q_EventType o) then Some (ECriticalEvent i) else None) 0 (Critical c) with
    | Some e => Err e
    | None =>
        match first_error (fun i o => if blank (q_EventType o) then Some (ERequiredEvent i) else None) 0 (Required c) with
        | Some e => Err e
        | None => match first_error check_relation 0 (Relations c) with Some e => Err e | None => Ok tt end
        end
    end.

Definition trim_requirement (o : profileRequirementConfig) : profileRequirementConfig :=
  mkRequirementConfig (TrimSpace (q_EventType o)) (TrimSpace (q_Message o)).

Definition normalise (c : profileFileConfig) : profileFileConfig :=
  mkFileConfig (TrimSpace (f_ID c)) (TrimSpace (DisplayName c)) (TrimSpace (Description c)) (map TrimSpace (DetectEventTypes c))
    (map trim_requirement (Critical c)) (map trim_requirement (Required c))
    (map (fun r => mkRelationConfig (TrimSpace (From r)) (TrimSpace (To r)) (TrimSpace (rel_Message r))) (Relations c)).

Definition obligationMessage (eventType message : string) : string :=
  if negb (String.eqb message "") then message else eventType +:+ " missing".

Definition relationMessage (r : profileRelationConfig) : string :=
  if negb (String.eqb (rel_Message r) "") then rel_Message r else From r +:+ " must precede " +:+ To r.

Definition sequence (r : Record_) : Z := Event.Sequence (Event_ r).

(** The sorting of the sequence numbers has no influence on whether one of them is smaller. *)
Definition relationSatisfied (fromRecords toRecords : list Record_) : bool :=
  if (length toRecords =? 0)%nat then true
  else if (length fromRecords =? 0)%nat then false
  else
    let fromSequences := insertion_sort Z.ltb (map sequence fromRecords) in
    forallb (fun toRecord => existsb (fun fromSequence => fromSequence <? sequence toRecord) fromSequences) toRecords.

Definition evaluate_file (c : profileFileConfig) (records : list Record_) : Verify.ProfileResult :=
  let recordsByType := Profiles.indexRecordsByType records in
  let absent o := negb (nonempty (Profiles.at_key recordsByType (q_EventType o))) in
  let missing := map (fun o => Profiles.mkFailure "" "missing_event" (obligationMessage (q_EventType o) (q_Message o)))
    (List.filter absent (Critical c)) in
  let warnings := map (fun o => obligationMessage (q_EventType o) (q_Message o)) (List.filter absent (Required c)) in
  let violated r := negb (relationSatisfied (Profiles.at_key recordsByType (From r)) (Profiles.at_key recordsByType (To r))) in
  let violations := map (fun r => Profiles.mkFailure "" "relation_violation" (relationMessage r)) (List.filter violated (Relations c)) in
  Verify.finaliseProfileResult
    (Verify.mkProfileResult (f_ID c) 1 (DisplayName c) false (missing ++ violations) warnings
       (if String.eqb (Description c) "" then [] else [Description c]) []).

(** [externalProfile], with the methods of the interface. *)
Definition externalProfile (c : profileFileConfig) : Profile :=
  mkProfile (f_ID c) 1 (DisplayName c) []
    (list_to_map (map (fun k => (k, zero)) ["EC"; "FC"; "RC"; "TC"; "SC"; "XC"; "AC"; "GC"])) (evaluate_file c) None.

(** ** Loading *)

Definition hasAnyKeys (values keys : list string) : bool := existsb (fun key => bool_decide (key ∈ values)) keys.

Section load.
Context `{Unicode} (yaml : yaml_decoder).
(** [os.ReadFile] of the path cleaned. *)
Context (ReadFile : string -> result string bytes).

Definition detectProfileFileFormat (content : bytes) : result string profileFileFormat :=
  match yaml_keys yaml content with
  | Err text => Err text
  | Ok raw =>
      Ok (if hasAnyKeys raw ["required_events"; "warning_events"; "cas_weights"] then FormatDSL
          else if hasAnyKeys raw ["version"; "workflow_class"; "required"; "optional"] then FormatSchema
          else if hasAnyKeys raw ["display_name"; "detect"; "obligations"] then FormatLegacy
          else FormatUnknown)
  end.

Definition HasSchema (id : string) : bool := match loadSchemaIfAvailable id with Some _ => true | None => false end.

Definition loadDSLProfileFromFile (path : string) (content : bytes) : result loader_error Profile :=
  match yaml_dsl yaml content with
  | Err text => Err (EYaml path text)
  | Ok dsl =>
      match Profiles.ParseDSLProfile HasSchema dsl with
      | Err e => Err (EDSL path e)
      | Ok schema => Ok (externalSchemaProfile schema)
      end
  end.

Definition loadSchemaProfileFromFile (path : string) (content : bytes) : result loader_error Profile :=
  match yaml_schema yaml content with
  | Err text => Err (EYaml path text)
  | Ok decoded =>
      match Profiles.ParseSchema decoded with
      | Err e => Err (ESchema path e)
      | Ok schema => Ok (externalSchemaProfile schema)
      end
  end.

Definition loadProfileFromFile (path : string) : result loader_error Profile :=
  match ReadFile path with
  | Err text => Err (ERead path text)
  | Ok content =>
      match detectProfileFileFormat content with
      | Err text => Err (EYaml path text)
      | Ok FormatDSL => loadDSLProfileFromFile path content
      | Ok FormatSchema => loadSchemaProfileFromFile path content
      | Ok format =>
          let legacy := match format with FormatLegacy => true | _ => false end in
          match yaml_config yaml content with
          | Err text => if legacy then Err (EYaml path text) else loadSchemaProfileFromFile path content
          | Ok cfg =>
              match validate cfg with
              | Err e => if negb legacy then loadSchemaProfileFromFile path content else Err e
              | Ok _ => Ok (externalProfile (normalise cfg))
              end
          end
      end
  end.

(** [filepath.Ext]: from the last dot of the last element. *)
Fixpoint ext_of (rev : bytes) : option bytes :=
  match rev with
  | [] => None
  | c :: t => if bool_decide (c = "/"%char) then None
              else if bool_decide (c = "."%char) then Some [c] else (fun x => x ++ [c]) <$> ext_of t
  end.

Definition Ext (path : string) : string := S_of (default [] (ext_of (reverse (B path)))).

Definition isProfilePath (spec : string) : bool :=
  existsb (fun c => bool_decide (c ∈ ["/"%char; "\"%char])) (B spec) || bool_decide (ToLower (Ext spec) ∈ [".yaml"; ".yml"]).

(** [None]: no profile and no error, for a blank name. *)
Definition ResolveProfile (spec : string) : result loader_error (option Profile) :=
  let spec := TrimSpace spec in
  if String.eqb spec "" then Ok None
  else if isProfilePath spec then let? p := loadProfileFromFile spec in Ok (Some p)
  else match ProfileByID spec with Some p => Ok (Some p) | None => Err (EUnrecognised spec) end.
End load.

(** ** When a profile of the oldest format passes *)

(** Every record of the one type comes after some record of the other. *)
Definition preceded (records : list Record_) (from to : string) : Prop :=
  forall r, r ∈ records -> Event.Type_ (Event_ r) = to ->
    exists r', r' ∈ records /\ Event.Type_ (Event_ r') = from /\ sequence r' < sequence r.

Definition occurs (records : list Record_) (type : string) : Prop :=
  exists r, r ∈ records /\ Event.Type_ (Event_ r) = type.

Lemma elem_of_type records t r : r ∈ Profiles.of_type records t <-> r ∈ records /\ Event.Type_ (Event_ r) = t.
Proof. unfold Profiles.of_type. rewrite list_elem_of_In, filter_In, <- list_elem_of_In, String.eqb_eq. tauto. Qed.

Lemma occurs_nonempty records t : nonempty (Profiles.of_type records t) = true <-> occurs records t.
Proof.
  unfold occurs. setoid_rewrite <- elem_of_type. destruct (Profiles.of_type records t) as [|r l].
  - split; [done|]. intros (r & Hr). by apply elem_of_nil in Hr.
  - split; [intros _; exists r; by left|done].
Qed.

Lemma relation_preceded records from to :
  relationSatisfied (Profiles.of_type records from) (Profiles.of_type records to) = true <-> preceded records from to.
Proof.
  assert (relationSatisfied (Profiles.of_type records from) (Profiles.of_type records to) = true <->
    forall r, r ∈ Profiles.of_type records to -> exists r', r' ∈ Profiles.of_type records from /\ sequence r' < sequence r) as ->.
  2: { unfold preceded. setoid_rewrite elem_of_type. naive_solver. }
  generalize (Profiles.of_type records from) as fs. generalize (Profiles.of_type records to) as ts. intros ts fs.
  unfold relationSatisfied. destruct ts as [|t ts]; [split; [|done]; intros _ r Hr; by apply elem_of_nil in Hr|].
  destruct fs as [|f fs].
  { split; [done|]. intros Hall. destruct (Hall t) as (r' & Hr' & _); [by left|]. by apply elem_of_nil in Hr'. }
  cbn [length Nat.eqb]. rewrite forallb_Forall_iff, Forall_forall.
  assert (forall r, existsb (fun s => s <? sequence r) (insertion_sort Z.ltb (map sequence (f :: fs))) = true <->
    exists r', r' ∈ f :: fs /\ sequence r' < sequence r) as Hex; [|by setoid_rewrite Hex].
  intros r. rewrite existsb_exists. split.
  - intros (s & Hin & Hs). apply list_elem_of_In in Hin. rewrite insertion_sort_perm in Hin.
    apply list_elem_of_In, in_map_iff in Hin as (r' & <- & Hr'). exists r'. split; [by apply list_elem_of_In|lia].
  - intros (r' & Hr' & Hlt). exists (sequence r'). split; [|lia]. apply list_elem_of_In. rewrite insertion_sort_perm.
    apply list_elem_of_In, in_map. by apply list_elem_of_In.
Qed.

Lemma filter_none {A} (f : A -> bool) l : List.filter f l = [] <-> Forall (fun x => f x = false) l.
Proof. induction l as [|x l IH]; [by split|]. cbn. rewrite Forall_cons, <- IH. destruct (f x); naive_solver. Qed.

(** A profile file of the oldest format is met exactly by the bundles in which every critical event type occurs and every
    record of the later type of a relation has a record of the earlier type before it, by sequence number. *)
Theorem file_profile_decides c records :
  Verify.Pass (evaluate (externalProfile c) records) = true <->
  Forall (fun o => occurs records (q_EventType o)) (Critical c) /\
  Forall (fun r => preceded records (From r) (To r)) (Relations c).
Proof.
  cbn [evaluate externalProfile]. unfold evaluate_file. cbn [Verify.finaliseProfileResult Verify.Pass Verify.CriticalFailures].
  rewrite Nat.eqb_eq, length_app, !length_map. cbv zeta.
  transitivity (List.filter (fun o => negb (nonempty (Profiles.at_key (Profiles.indexRecordsByType records) (q_EventType o)))) (Critical c) = [] /\
    List.filter (fun r => negb (relationSatisfied (Profiles.at_key (Profiles.indexRecordsByType records) (From r))
      (Profiles.at_key (Profiles.indexRecordsByType records) (To r)))) (Relations c) = []).
  { rewrite <- !length_zero_iff_nil. lia. }
  rewrite !filter_none, !Forall_forall.
  setoid_rewrite negb_false_iff. setoid_rewrite Profiles.index_by_type.
  setoid_rewrite occurs_nonempty. by setoid_rewrite relation_preceded.
Qed.

(** ** What a name can stand for *)

(** A file of the oldest format says what it has to say, around any spaces. *)
Definition complete (c : profileFileConfig) : Prop :=
  f_ID c <> "" /\ DisplayName c <> "" /\ Critical c <> [] /\
  Forall (fun o => q_EventType o <> "") (Critical c ++ Required c) /\
  Forall (fun r => From r <> "" /\ To r <> "") (Relations c).

Lemma first_error_none {A} (check : nat -> A -> option loader_error) i l :
  first_error check i l = None -> Forall (fun x => exists j, check j x = None) l.
Proof.
  revert i. induction l as [|x l IH]; intros i; [constructor|]. cbn. destruct (check i x) eqn:E; [done|].
  intros Hl%IH. constructor; eauto.
Qed.

Lemma blank_spec s : blank s = false <-> TrimSpace s <> "".
Proof. apply String.eqb_neq. Qed.

Lemma validate_complete c : validate c = Ok tt -> complete (normalise c).
Proof.
  unfold validate. destruct (blank (f_ID c)) eqn:E1; [done|]. destruct (blank (DisplayName c)) eqn:E2; [done|].
  destruct (length (Critical c) =? 0)%nat eqn:E3; [done|].
  destruct (first_error _ 0 (Critical c)) eqn:E4; [done|]. destruct (first_error _ 0 (Required c)) eqn:E5; [done|].
  destruct (first_error _ 0 (Relations c)) eqn:E6; [done|]. intros _.
  apply blank_spec in E1, E2. apply first_error_none in E4, E5, E6. apply Nat.eqb_neq in E3.
  unfold complete, normalise. cbn [f_ID DisplayName Critical Required Relations]. split_and!; [done|done| |..].
  - by destruct (Critical c).
  - rewrite <- map_app. apply Forall_fmap. rewrite Forall_app. split; (eapply Forall_impl; [eassumption|]);
      cbn; intros o (j & Ho); apply blank_spec; by destruct (blank (q_EventType o)).
  - apply Forall_fmap. eapply Forall_impl; [exact E6|]. cbn. intros r (j & Hr). unfold check_relation in Hr.
    destruct (blank (From r)) eqn:Ef; [done|]. destruct (blank (To r)) eqn:Et; [done|]. by apply blank_spec in Ef, Et.
Qed.

Section resolution.
Context `{Unicode} (yaml : yaml_decoder) (ReadFile : string -> result string bytes).

(** The kinds of profile that a file can hold. *)
Inductive file_profile : Profile -> Prop :=
| from_dsl s : loadSchemaIfAvailable (Profiles.ID s) = None -> file_profile (externalSchemaProfile s)
| from_schema s : Profiles.validateSchema s = Ok tt -> file_profile (externalSchemaProfile s)
| from_legacy c : complete c -> file_profile (externalProfile c).

Lemma schema_file path content p : loadSchemaProfileFromFile yaml path content = Ok p -> file_profile p.
Proof.
  unfold loadSchemaProfileFromFile. destruct (yaml_schema yaml content) as [d|]; [|done].
  unfold Profiles.ParseSchema. destruct (Profiles.validateSchema (Profiles.normaliseSchema d)) as [[]|] eqn:E; [|done].
  cbn. intros [= <-]. by apply from_schema.
Qed.

Lemma dsl_id has dsl s : Profiles.ParseDSLProfile has dsl = Ok s -> has (Profiles.ID s) = false.
Proof.
  unfold Profiles.ParseDSLProfile. destruct (String.eqb _ ""); [done|]. destruct (has _) eqn:E; [done|].
  destruct (Profiles.compileDSLWeights _ _); [|done]. cbn. destruct (Profiles.compileDSLEvents _ _ _); [|done]. cbn.
  destruct (Profiles.compileDSLEvents _ _ _); [|done]. cbn. by intros [= <-].
Qed.

Lemma dsl_file path content p : loadDSLProfileFromFile yaml path content = Ok p -> file_profile p.
Proof.
  unfold loadDSLProfileFromFile. destruct (yaml_dsl yaml content) as [d|]; [|done].
  destruct (Profiles.ParseDSLProfile HasSchema d) as [s|] eqn:E; [|done]. intros [= <-]. apply from_dsl.
  apply dsl_id in E. unfold HasSchema in E. by destruct (loadSchemaIfAvailable _).
Qed.

Lemma loaded_file path p : loadProfileFromFile yaml ReadFile path = Ok p -> file_profile p.
Proof.
  unfold loadProfileFromFile. destruct (ReadFile path) as [content|]; [|done].
  assert (Hl : forall legacy : bool,
    match yaml_config yaml content with
    | Err text => if legacy then Err (EYaml path text) else loadSchemaProfileFromFile yaml path content
    | Ok cfg =>
        match validate cfg with
        | Err e => if negb legacy then loadSchemaProfileFromFile yaml path content else Err e
        | Ok _ => Ok (externalProfile (normalise cfg))
        end
    end = Ok p -> file_profile p).
  { intros legacy. destruct (yaml_config yaml content) as [cfg|].
    - destruct (validate cfg) as [[]|] eqn:Ev; [|destruct legacy; [done|by apply schema_file]].
      intros [= <-]. by apply from_legacy, validate_complete.
    - destruct legacy; [done|by apply schema_file]. }
  destruct (detectProfileFileFormat yaml content) as [[]|]; [| | | |done].
  - apply (Hl false).
  - apply schema_file.
  - apply (Hl true).
  - apply dsl_file.
Qed.

(** A name that resolves to a profile is the id of a built-in profile, whose template is used, or the path of a file with a
    profile in one of three formats: a simple one under an id that no template has, a full schema that satisfies the validation
    of the templates, or one of the oldest format in which no name is blank and something is critical. *)
Theorem resolved_profiles spec p :
  ResolveProfile yaml ReadFile spec = Ok (Some p) ->
  (isProfilePath (TrimSpace spec) = true /\ file_profile p) \/
  (isProfilePath (TrimSpace spec) = false /\
   exists s, s ∈ Templates.decoded /\ Profiles.ID s = TrimSpace spec /\ p = schema_profile s None).
Proof.
  unfold ResolveProfile. destruct (String.eqb (TrimSpace spec) ""); [done|].
  destruct (isProfilePath (TrimSpace spec)).
  - destruct (loadProfileFromFile yaml ReadFile (TrimSpace spec)) as [q|] eqn:E; [|done]. cbn. intros [= <-].
    left. eauto using loaded_file.
  - destruct (ProfileByID (TrimSpace spec)) as [q|] eqn:E; [|done]. intros [= <-].
    right. split; [done|]. by apply ProfileByID_template.
Qed.
End resolution.

(** ** Files, by example *)

#[local] Existing Instance ascii_only.

(** A file of the oldest format under the id of a built-in profile: it asks for one event, and decides in the place of the
    built-in one. *)
Definition shadow : profileFileConfig :=
  mkFileConfig " atb.profile.privileged_tool_action " "Shadow" "" [] [mkRequirementConfig "note" ""] [] [].

Definition shadow_yaml : yaml_decoder :=
  mkYaml (fun _ => Ok ["id"; "display_name"; "obligations"]) (fun _ => Ok shadow) (fun _ => Err "schema") (fun _ => Err "dsl").

Lemma shadow_resolves :
  ResolveProfile shadow_yaml (fun _ => Ok []) "shadow.YML" = Ok (Some (externalProfile (normalise shadow))).
Proof. reflexivity. Qed.

Example shadow_id :
  p_ID (externalProfile (normalise shadow)) = profileIDPrivilegedToolAction /\
  profileSupportsCAS (externalProfile (normalise shadow)) = true.
Proof. vm_compute. auto. Qed.

Lemma resolved_profiles_witness :
  isProfilePath "shadow.YML" = true /\ file_profile (externalProfile (normalise shadow)).
Proof.
  destruct (resolved_profiles shadow_yaml (fun _ => Ok []) "shadow.YML" _ shadow_resolves) as [[_ Hp]|[Hp _]].
  - split; [reflexivity|exact Hp].
  - exfalso. vm_compute in Hp. discriminate Hp.
Defined.

Example format_order :
  detectProfileFileFormat (mkYaml (fun _ => Ok ["version"; "required_events"]) (fun _ => Err "") (fun _ => Err "") (fun _ => Err "")) []
    = Ok FormatDSL.
Proof. reflexivity. Qed.

Example paths : map isProfilePath ["atb.profile.rag_answer"; "a/b"; "custom.yaml"; "custom.yml.bak"; "x\y"] = [false; true; true; false; true].
Proof. vm_compute. reflexivity. Qed.
End ProfileLoader.
