(* ===== verification/AnchorClassify.v ===== *)
(** * Package internal/verify: the anchor of a bundle

    [anchor_classify.go]: the latest anchor record, its token, and the check of the token
    against the records before it. Package internal/anchor, which parses the token and
    verifies its certificates, is an argument here, as are the texts of errors. *)

From S2P Require Import Prelude GoText Sha256 GoFloat GoJson GoValue GoUnicode GoStruct Canonicalize Event HashChain Bundle BundleIO BundleSign Score.
Import Bundle.

Module AnchorClassify.
Import Score.

(** What [anchorpkg.VerifyTokenDetailed] reports: the steps that passed, and the text of
    the error that stopped it. *)
Record TokenVerification := mkVerification {
  v_MessageImprint : bool;
  v_Signature : bool;
  v_CertChain : bool
}.

(** Why the token bytes could not be read. *)
Inductive anchor_error := InvalidData | Unmarshal (raw : string) | Decode (text : string).

Record anchorClassifyEventData := mkPayload { BundleHash : string; TSRDER : string }.

Definition no_payload : anchorClassifyEventData := mkPayload "" "".

Record anchorInspection := mkInspection {
  Result : AnchorVerifyResult;
  i_Status : string;
  Summary : string;
  i_Reason : string;
  AnchorPresent : bool;
  AnchorHash : string;
  MessageImprintVerified : bool;
  SignatureVerified : bool;
  CertChainVerified : bool
}.

Definition TrimPrefix (s p : string) : string := if HasPrefix s p then S_of (drop (length (B p)) (B s)) else s.

Definition payload_names : list string := ["bundle_hash"; "tsr_der"].

(** [json.Unmarshal] into the payload. *)
Definition decode_payload (raw : string) : option anchorClassifyEventData :=
  j ← json_parse (B raw);
  match j with
  | JNull => Some no_payload
  | JObj l =>
      h ← decode_field payload_names "bundle_hash" dec_string l "";
      t ← decode_field payload_names "tsr_der" dec_string l "";
      Some (mkPayload h t)
  | _ => None
  end.

(** The payload and the token of an anchor record. *)
Definition record_token (r : Record_) : anchorClassifyEventData * result anchor_error bytes :=
  match Event.Data (Event_ r) with
  | AString raw =>
      match decode_payload raw with
      | None => (no_payload, Err (Unmarshal raw))
      | Some payload =>
          (payload, match Base64.decode (B (TrimSpace (TSRDER payload))) with
                    | None => Err (Decode (TSRDER payload))
                    | Some tokenBytes => Ok tokenBytes
                    end)
      end
  | _ => (no_payload, Err InvalidData)
  end.

(** The index of the last anchor record. *)
Fixpoint latest_anchor (i : nat) (records : list Record_) : option nat :=
  match records with
  | [] => None
  | r :: rest =>
      match latest_anchor (S i) rest with
      | Some j => Some j
      | None => if String.eqb (Event.Type_ (Event_ r)) AnchorEventType then Some i else None
      end
  end.

Definition latestAnchorTokenBytes (b : bundle) : option (nat * (anchorClassifyEventData * result anchor_error bytes)) :=
  i ← latest_anchor 0 b; r ← b !! i; Some (i, record_token r).

Section inspect.
Context (VerifyTokenDetailed : bytes -> bytes -> TokenVerification * option string).
Context (anchor_text : anchor_error -> string).
(** The text of the failure of an operation on the temporary file, if one fails, and of a
    failure to encode the records. *)
Context (temporary : option string) (encode_text : string).

Definition normalise_text (text : string) : string := TrimPrefix (TrimSpace text) "anchor: ".
Definition normaliseAnchorReason (err : option anchor_error) : string :=
  match err with None => "" | Some e => normalise_text (anchor_text e) end.

Definition anchorFailedSummary (reason : string) : string :=
  if String.eqb (TrimSpace reason) "" then "anchor: failed" else "anchor: failed (" +:+ reason +:+ ")".

Definition newFailedAnchorInspection (result : AnchorVerifyResult) (present : bool) (anchorHash reason : string) :
    anchorInspection :=
  mkInspection result "failed" (anchorFailedSummary reason) reason present anchorHash false false false.

Definition isChainNotVerifiedAnchorError (text : string) : bool := Contains text "certificate verification failed".

(** The snapshot is saved to a temporary file and the file is hashed. *)
Definition hashBundleSnapshotBeforeAnchor (b : bundle) (anchorIndex : nat) : result string bytes :=
  match temporary with
  | Some text => Err text
  | None =>
      match BundleIO.encode_records (take anchorIndex b) with
      | None => Err encode_text
      | Some raw => Ok (Sha256.sum256 raw)
      end
  end.

Definition inspectAnchor (b : option bundle) (bundlePath : string) : anchorInspection :=
  let absent := newFailedAnchorInspection AnchorAbsent false "" "anchor record not present" in
  match b with
  | None => absent
  | Some b =>
      match latestAnchorTokenBytes b with
      | None => absent
      | Some (anchorIndex, (payload, token)) =>
          let bad := newFailedAnchorInspection AnchorPresentBadData true (BundleHash payload) in
          match token with
          | Err e => bad (normaliseAnchorReason (Some e))
          | Ok [] => bad (normaliseAnchorReason None)
          | Ok tokenBytes =>
              if String.eqb (TrimSpace bundlePath) "" then bad "bundle path required for anchor verification"
              else
                match hashBundleSnapshotBeforeAnchor b anchorIndex with
                | Err text => bad text
                | Ok snapshotHash =>
                    let '(v, err) := VerifyTokenDetailed tokenBytes snapshotHash in
                    let inspection result status summary reason :=
                      mkInspection result status summary reason true (BundleHash payload)
                        (v_MessageImprint v) (v_Signature v) (v_CertChain v) in
                    match err with
                    | None => inspection AnchorVerified "verified"
                                "anchor: verified (message imprint, signature, chain)" ""
                    | Some text =>
                        let reason := normalise_text text in
                        if isChainNotVerifiedAnchorError text then
                          inspection AnchorDigestOnly "partial"
                            "anchor: partial (message imprint only - chain not verified)" reason
                        else inspection AnchorPresentBadData "failed" (anchorFailedSummary reason) reason
                    end
                end
          end
      end
  end.

Definition ClassifyAnchor (b : option bundle) (bundlePath : string) : AnchorVerifyResult :=
  Result (inspectAnchor b bundlePath).

(** ** What a verified anchor commits to *)

Lemma latest_anchor_spec i records j :
  latest_anchor i records = Some j -> exists k r, j = (i + k)%nat /\ records !! k = Some r /\
    Event.Type_ (Event_ r) = AnchorEventType /\
    Forall (fun r' => Event.Type_ (Event_ r') <> AnchorEventType) (drop (S k) records).
Proof.
  revert i j. induction records as [|r l IH]; intros i j; cbn [latest_anchor]; [done|].
  destruct (latest_anchor (S i) l) as [j'|] eqn:E.
  - intros [= ->]. apply IH in E as (k & r' & -> & Hk & Ht & Hl). exists (S k), r'. split_and!; [lia|done|done|done].
  - destruct (String.eqb_spec (Event.Type_ (Event_ r)) AnchorEventType) as [Ht|]; [|done]. intros [= <-].
    exists 0%nat, r. split_and!; [lia|done|done|]. cbn. rewrite drop_0. clear -E.
    revert i E. generalize 1%nat as n. induction l as [|r' l IH]; intros n i; [constructor|]. cbn [latest_anchor].
    destruct (latest_anchor (S (S i)) l) eqn:E; [done|].
    destruct (String.eqb_spec (Event.Type_ (Event_ r')) AnchorEventType) as [|Hne]; [done|]. constructor; [done|].
    by apply (IH n (S i)).
Qed.

(** An anchor is reported as verified only if the last anchor record of the bundle
    carries a token that was accepted, without an error, for the SHA-256 of the encoding
    of exactly the records before it. *)
Theorem verified_anchor_sound b bundlePath :
  ClassifyAnchor (Some b) bundlePath = AnchorVerified ->
  exists before r after raw payload token,
    b = before ++ r :: after /\ Event.Type_ (Event_ r) = AnchorEventType /\
    Forall (fun r' => Event.Type_ (Event_ r') <> AnchorEventType) after /\
    Event.Data (Event_ r) = AString raw /\ decode_payload raw = Some payload /\
    Base64.decode (B (TrimSpace (TSRDER payload))) = Some token /\ token <> [] /\
    exists encoded, BundleIO.encode_records before = Some encoded /\
      (VerifyTokenDetailed token (Sha256.sum256 encoded)).2 = None.
Proof.
  unfold ClassifyAnchor, inspectAnchor, latestAnchorTokenBytes.
  destruct (latest_anchor 0 b) as [j|] eqn:Hj; [|done]. cbn [mbind option_bind].
  apply latest_anchor_spec in Hj as (k & r & -> & Hk & Ht & Hl). cbn [Nat.add]. unfold bundle in *. rewrite Hk.
  cbn [mbind option_bind]. unfold record_token.
  destruct (Event.Data (Event_ r)) as [| | | |raw| | | | |] eqn:Hd; try done.
  destruct (decode_payload raw) as [payload|] eqn:Hp; [|done].
  destruct (Base64.decode (B (TrimSpace (TSRDER payload)))) as [[|c token]|] eqn:Hb; [done| |done].
  destruct (String.eqb (TrimSpace bundlePath) ""); [done|]. unfold hashBundleSnapshotBeforeAnchor.
  destruct temporary; [done|]. destruct (BundleIO.encode_records (take k b)) as [encoded|] eqn:He; [|done].
  destruct (VerifyTokenDetailed (c :: token) (Sha256.sum256 encoded)) as [v [text|]] eqn:Hv.
  - cbn. by destruct (isChainNotVerifiedAnchorError text).
  - intros _. exists (take k b), r, (drop (S k) b), raw, payload, (c :: token).
    split_and!; try done; [by rewrite take_drop_middle|]. exists encoded. by rewrite Hv.
Qed.
End inspect.

(** ** Examples *)

(** A time-stamping authority whose tokens are the digest itself. *)
Definition toy_token (token digest : bytes) : TokenVerification * option string :=
  if bool_decide (token = digest) then (mkVerification true true true, None)
  else (mkVerification false false false, Some "anchor: digest mismatch").

Definition anchor_data (token : bytes) : any :=
  AString (S_of (default [] (GoValue.Marshal (AStruct
    [("bundle_hash", AString "h"); ("tsr_der", AString (S_of (Base64.encode token)))])))).

Definition with_type (type : string) (data : any) (r : Record_) : Record_ :=
  mkRecord (Event.with_data data (Event.mk (Event.Sequence (Event_ r)) "" type "" ANil None None None "" "" "" "" None))
    (Hash r) [] [] false.

Definition anchored (token : bytes) : bundle :=
  [sample_event 0 "atb.bundle.manifest" []; with_type AnchorEventType (anchor_data token) (sample_event 1 "" [])].

Definition prefix_digest : bytes :=
  Sha256.sum256 (default [] (BundleIO.encode_records [sample_event 0 "atb.bundle.manifest" []])).

Lemma anchored_verified :
  ClassifyAnchor toy_token (fun _ => "") None "" (Some (anchored prefix_digest)) "b.atb" = AnchorVerified.
Proof. vm_compute. reflexivity. Qed.

Lemma verified_anchor_sound_witness :
  exists before r after raw payload token,
    anchored prefix_digest = before ++ r :: after /\ Event.Type_ (Event_ r) = AnchorEventType /\
    Forall (fun r' => Event.Type_ (Event_ r') <> AnchorEventType) after /\
    Event.Data (Event_ r) = AString raw /\ decode_payload raw = Some payload /\
    Base64.decode (B (TrimSpace (TSRDER payload))) = Some token /\ token <> [] /\
    exists encoded, BundleIO.encode_records before = Some encoded /\
      (toy_token token (Sha256.sum256 encoded)).2 = None.
Proof.
  exact (verified_anchor_sound toy_token (fun _ => "") None "" (anchored prefix_digest) "b.atb" anchored_verified).
Defined.

Example wrong_digest :
  ClassifyAnchor toy_token (fun _ => "") None "" (Some (anchored (Sha256.sum256 []))) "b.atb" = AnchorPresentBadData.
Proof. vm_compute. reflexivity. Qed.
End AnchorClassify.
