(* ===== verification/Report.v ===== *)
(** * Package internal/verify: the verification report

    [verify.go], [evaluate.go], [provability_gaps.go] and [timestamps.go]: the checks of a
    bundle put together. The texts of errors, [%T], and the token verification of package
    internal/anchor are arguments. Ranging over maps of scores uses [RangeOrder], one number per
    range statement that is executed. The theorems: when the report grants assurance, and
    what of it does not depend on the order in which maps are visited. *)

From S2P Require Import Prelude GoText Sha256 GoFloat GoJson GoValue GoUnicode GoTime GoStruct Canonicalize Event HashChain Bundle BundleIO BundleSign Profiles Templates Policy Verify Score AnchorClassify.
Import Bundle.

Module Report.
Import Score AnchorClassify.

(** ** Data *)

Record IntegrityResult := mkIntegrity {
  ChainValid : bool;
  Canonicalization : string;
  HashAlgo : string;
  FirstSeq : Z;
  LastSeq : Z;
  IntegrityError : string
}.

Record AnchoringResult := mkAnchoring {
  AnchorRequired : bool;
  a_Present : bool;
  a_Status : string;
  a_Summary : string;
  a_MessageImprintVerified : bool;
  a_SignatureVerified : bool;
  TSAVerified : bool;
  a_CertChainVerified : bool;
  a_Hash : string;
  a_Reason : string;
  Errors : list string
}.

Record ResidualRisk := mkRisk { Level : string; Drivers : list string; RecommendedNextEvidence : list string }.

Record ProvabilityGap := mkGap { Gap : string; Layer : string; Mitigation : string; ClosedWhen : string }.

#[export] Instance gap_eq_dec : EqDecision ProvabilityGap.
Proof. solve_decision. Defined.

Record Report := mkReport {
  BundlePath : string;
  Retrospective : bool;
  Integrity : IntegrityResult;
  Anchoring : AnchoringResult;
  BundleSignature : option BundleSign.BundleSignatureResult;
  Signatures : list BundleSign.SignatureProvenance;
  Results : list Verify.ProfileResult;
  CAS : option CASResult;
  InformationalNotes : list string;
  Exclusions : list string;
  ProvabilityGaps : list ProvabilityGap;
  Risk : ResidualRisk
}.

Definition appendUniqueStrings : list string -> list string -> list string := Verify.appendUniqueStrings.

(** ** Time stamps: [timestamps.go] *)

Definition timestamp_prefix (r : Record_) : string :=
  "timestamp validation: seq " +:+ show_int (Event.Sequence (Event_ r)) +:+ " (" +:+ Event.Type_ (Event_ r) +:+ ")".

Section timestamps.
Context `{Unicode}.

Fixpoint validate_timestamps (previous : option civil) (records : list Record_) : list string :=
  match records with
  | [] => []
  | r :: rest =>
      let raw := TrimSpace (Event.Timestamp (Event_ r)) in
      if String.eqb (Event.Type_ (Event_ r)) ManifestEventType || String.eqb raw "" then validate_timestamps previous rest
      else
        match parse_civil (B raw) with
        | None =>
            (timestamp_prefix r +:+ " has invalid RFC 3339 timestamp " +:+ Quote raw) :: validate_timestamps previous rest
        | Some parsed =>
            match previous with
            | Some p =>
                if instant_of parsed <? instant_of p then
                  (timestamp_prefix r +:+ " timestamp " +:+ Quote raw +:+ " is earlier than the preceding timestamp " +:+
                   Quote (S_of (format_civil p))) :: validate_timestamps (Some parsed) rest
                else validate_timestamps (Some parsed) rest
            | None => validate_timestamps (Some parsed) rest
            end
        end
  end.

Definition ValidateTimestamps (records : list Record_) : list string := validate_timestamps None records.
End timestamps.

(** ** Anchors in the records: [scanAnchoring] *)

Definition with_anchor_hash (h : string) (a : AnchoringResult) : AnchoringResult :=
  mkAnchoring (AnchorRequired a) (a_Present a) (a_Status a) (a_Summary a) (a_MessageImprintVerified a)
    (a_SignatureVerified a) (TSAVerified a) (a_CertChainVerified a) h (a_Reason a) (Errors a).

Definition with_present (a : AnchoringResult) : AnchoringResult :=
  mkAnchoring (AnchorRequired a) true (a_Status a) (a_Summary a) (a_MessageImprintVerified a)
    (a_SignatureVerified a) (TSAVerified a) (a_CertChainVerified a) (a_Hash a) (a_Reason a) (Errors a).

Definition with_error (text : string) (a : AnchoringResult) : AnchoringResult :=
  mkAnchoring (AnchorRequired a) (a_Present a) (a_Status a) (a_Summary a) (a_MessageImprintVerified a)
    (a_SignatureVerified a) (TSAVerified a) (a_CertChainVerified a) (a_Hash a) (a_Reason a) (Errors a ++ [text]).

(** [json.Unmarshal] into a [map[string]any]; [null] leaves it nil. *)
Definition decode_map (raw : string) : option (list (string * any)) :=
  j ← json_parse (B raw);
  match j with
  | JNull => Some []
  | JObj _ => match of_json j with Some (AMap l) => Some l | _ => None end
  | _ => None
  end.

Section scan.
(** The dynamic type [%T] names, and the text of a JSON error. *)
Context (type_name : any -> string) (json_text : string -> string).

Definition scan_anchor (result : AnchoringResult) (ir : nat * Record_) : AnchoringResult :=
  let '(i, r) := ir in
  let at_index := "anchor record at index " +:+ show_int (Z.of_nat i) in
  if negb (String.eqb (Event.Type_ (Event_ r)) AnchorEventType) then result
  else
    let result := with_present result in
    match Event.Data (Event_ r) with
    | AString raw =>
        match decode_map raw with
        | None => with_error (at_index +:+ ": invalid JSON payload: " +:+ json_text raw) result
        | Some payload =>
            let bundle_hash := BundleSign.stringField payload "bundle_hash" in
            let tsr_hash := BundleSign.stringField payload "tsr_hash" in
            if negb (String.eqb bundle_hash "") && String.eqb (a_Hash result) "" then with_anchor_hash bundle_hash result
            else if negb (String.eqb tsr_hash "") && String.eqb (a_Hash result) "" then with_anchor_hash tsr_hash result
            else result
        end
    | d => with_error (at_index +:+ ": data is " +:+ type_name d +:+ ", want string") result
    end.

Definition scanAnchoring (records : list Record_) : AnchoringResult :=
  fold_left scan_anchor (reverse (imap (fun i r => (i, r)) records))
    (mkAnchoring false false "failed" (anchorFailedSummary "anchor record not present") false false false false "" "" []).
End scan.

(** ** Profiles that apply *)

Section matching.
Context `{Unicode}.

Definition HasPrefix_profile (id : string) : bool := HasPrefix id "atb.profile.".

Definition profile_named (profileID : string) : option Profile :=
  match ProfileByID profileID with
  | Some p => Some p
  | None => if HasPrefix_profile profileID then None else ProfileByID ("atb.profile." +:+ profileID)
  end.

Definition purpose_candidates : list string :=
  [profileIDPrivilegedToolAction; profileIDDataExport; profileIDPolicyDecision; profileIDHumanOverride; profileIDRAGAnswer].

Definition purpose_match (purposeTag candidateID : string) : option Profile :=
  profile ← ProfileByID candidateID;
  schema ← loadSchemaIfAvailable candidateID;
  if String.eqb purposeTag (Profiles.WorkflowClass schema) || String.eqb purposeTag candidateID then Some profile else None.

Fixpoint first_some {A C} (f : A -> option C) (l : list A) : option C :=
  match l with [] => None | x :: l => match f x with Some y => Some y | None => first_some f l end end.

Definition record_purpose (r : Record_) : option Profile :=
  if negb (String.eqb (Event.Type_ (Event_ r)) "ai.request.received") then None
  else
    match Event.Data (Event_ r) with
    | AMap fields =>
        let purposeTag := TrimSpace (BundleSign.stringField fields "purpose_tag") in
        if String.eqb purposeTag "" then None else first_some (purpose_match purposeTag) purpose_candidates
    | _ => None
    end.

Definition profileFromPurposeTag (records : list Record_) : option Profile := first_some record_purpose records.

Definition matchingProfiles (records : list Record_) (profileID : string) : list Profile :=
  let one_of p := match p with Some p => [p] | None => [] end in
  if negb (String.eqb profileID "") then one_of (profile_named profileID)
  else
    match profileFromPurposeTag records with
    | Some p => [p]
    | None =>
        if has_type records "ai.job.scheduled" || has_type records "ai.job.started"
        then one_of (ProfileByID profileIDBackgroundAutomation)
        else if has_type records "data.export.precommit" || has_type records "data.export.executed"
        then one_of (ProfileByID profileIDDataExport)
        else if has_type records "ai.action.precommit" then one_of (ProfileByID profileIDPrivilegedToolAction)
        else if has_type records "ai.model.invoked" then one_of (ProfileByID profileIDRAGAnswer)
        else []
    end.
End matching.

(** ** Risk *)

Definition residualRiskNoMatchingProfile : ResidualRisk :=
  mkRisk "High" ["No matching obligation profile evaluated."]
    ["Select an obligation profile explicitly or emit profile-identifying events."].

Definition integrityFailureResidualRisk : ResidualRisk :=
  mkRisk "Critical" ["Chain integrity invalid; completeness scoring is diagnostic only."] [].

Definition recommendationBySubScore : list (string * string) := [
  ("AC", "Add RFC 3161 TSA anchoring for exports and privileged actions.");
  ("EC", "Ensure all critical event types are emitted at workflow call sites.");
  ("FC", "Add missing required fields to event data payloads.");
  ("GC", "Ensure precommit->execute->commit event chain is present for ACP gating.");
  ("RC", "Verify that cross-event relation IDs are consistent (e.g. action_id).");
  ("SC", "Add source signatures from policy engine or action gate.");
  ("TC", "Check event timestamps conform to RFC 3339 and are in causal order.");
  ("XC", "Configure external corroboration: gateway log, DB receipt, or queue dequeue.")].

(** The keys of the scores below a threshold, in the order they are visited. *)
Definition below (threshold : float64) (scores : list (string * float64)) : list string :=
  (List.filter (fun kv => fltb kv.2 threshold) scores).*1.

Section risk.
Context `{RangeOrder}.

Definition deriveResidualRisk (cas : CASResult) (profile : Verify.ProfileResult) : ResidualRisk :=
  let level :=
    if negb (Verify.Pass profile) || fltb (Overall cas) (hundredths 60) then "High"
    else if fltb (Overall cas) (hundredths 85) || nonempty (Verify.RequiredWarnings profile) then "Medium"
    else "Low" in
  let drivers := insertion_sort string_ltb (below (hundredths 70) (range 2 (SubScores cas))) in
  mkRisk level drivers (fold_left (fun acc driver =>
    match assoc driver recommendationBySubScore with Some next => appendUniqueStrings acc [next] | None => acc end)
    drivers []).
End risk.

Definition deriveResidualRiskWithoutCAS (profile : Verify.ProfileResult) : ResidualRisk :=
  let level :=
    if negb (Verify.Pass profile) then "High"
    else if nonempty (Verify.RequiredWarnings profile) then "Medium"
    else "Low" in
  mkRisk level [] (insertion_sort string_ltb (appendUniqueStrings []
    (map Profiles.Detail (Verify.CriticalFailures profile) ++ Verify.RequiredWarnings profile))).

(** ** Provability gaps: [provability_gaps.go] *)

Definition provabilityGapBySubScore : list (string * ProvabilityGap) := [
  ("EC", mkGap "event_coverage" "L2" "Emit all required event types for the selected profile at workflow call sites."
           "Profile pass is true and EC sub-score >= 0.85.");
  ("FC", mkGap "field_completeness" "L2" "Populate required fields on each event payload."
           "No missing_field critical failures and FC sub-score >= 0.85.");
  ("RC", mkGap "relation_consistency" "L2" "Keep cross-event IDs consistent (request_id, action_id)."
           "No relation_violation failures and RC sub-score >= 0.85.");
  ("TC", mkGap "temporal_consistency" "L2" "Record events in causal order with RFC 3339 timestamps."
           "No temporal_violation failures and TC sub-score >= 0.85.");
  ("SC", mkGap "source_binding" "L3" "Add policy_signature and policy_signer_pubkey to ai.policy.decision events."
           "SC sub-score >= 0.5 and no policy_signature absent warnings.");
  ("XC", mkGap "external_corroboration" "L4" "Append atb.corroboration.external via atb corroborate or an adapter."
           "XC sub-score >= 1.0 with at least one valid corroboration event.");
  ("AC", mkGap "timestamp_anchor" "L4" "Run atb anchor after snapshot for RFC 3161 timestamp commitment."
           "Anchor status is verified and AC sub-score receives anchor credit.");
  ("GC", mkGap "gating_completeness" "L5" "Record precommit, execute, and commit events through the ACP gate path."
           "GC sub-score >= 0.85 for gated workflow profiles.")].

Definition integrity_gap : ProvabilityGap :=
  mkGap "integrity" "L1" "Restore bundle from trusted backup or re-capture workflow evidence."
    "integrity.chain_valid is true.".

Definition retrospective_gap : ProvabilityGap :=
  mkGap "retrospective_capture" "L5"
    "Prefer live SDK or capture run instrumentation over chatlog import for primary evidence."
    "Bundle provenance is live capture, not retrospective import.".

Definition no_gap : ProvabilityGap := mkGap "" "" "" "".

(** [addGap]: gaps without a name, or with one that was seen, are not added. *)
Definition addGap (gaps : list ProvabilityGap) (gap : ProvabilityGap) : list ProvabilityGap :=
  if String.eqb (Gap gap) "" then gaps
  else if bool_decide (Gap gap ∈ map Gap gaps) then gaps
  else gaps ++ [gap].

Definition gap_of (key : string) : ProvabilityGap := default no_gap (assoc key provabilityGapBySubScore).

Definition less_gap (a b : ProvabilityGap) : bool :=
  if String.eqb (Layer a) (Layer b) then string_ltb (Gap a) (Gap b) else string_ltb (Layer a) (Layer b).

(** The gaps of the sub-scores below the threshold, in the order they are visited. *)
Definition score_gaps (scores : list (string * float64)) : list ProvabilityGap :=
  omap (fun kv => if fleb (hundredths 70) kv.2 then None else assoc kv.1 provabilityGapBySubScore) scores.

Definition report_gaps (anchoring : AnchoringResult) (scores : list (string * float64))
    (results : list Verify.ProfileResult) (retrospective : bool) : list ProvabilityGap :=
  let gaps := if AnchorRequired anchoring && negb (TSAVerified anchoring) then addGap [] (gap_of "AC") else [] in
  let gaps := fold_left addGap (score_gaps scores) gaps in
  match results with
  | [] => gaps
  | profile :: _ =>
      let gaps := fold_left (fun gaps warning =>
        if Contains warning "policy_signature absent" then addGap gaps (gap_of "SC") else gaps)
        (Verify.RequiredWarnings profile) gaps in
      if retrospective then addGap gaps retrospective_gap else gaps
  end.

Section report.
Context `{RangeOrder}.

(** [loop]: which execution of the range statement this is. *)
Definition DeriveProvabilityGaps (loop : nat) (report : Report) : list ProvabilityGap :=
  if negb (ChainValid (Integrity report)) then [integrity_gap]
  else
    let scores := match CAS report with Some cas => range loop (SubScores cas) | None => [] end in
    insertion_sort less_gap (report_gaps (Anchoring report) scores (Results report) (Retrospective report)).

(** ** Provenance *)

Definition provenance_of (data : list (string * any)) : string :=
  match assoc "metadata" data with
  | Some (AMap meta) => BundleSign.stringField meta "bundle_provenance"
  | _ => ""
  end.

Definition isRetrospectiveImportBundle (b : bundle) : bool :=
  match b with
  | [] => false
  | r :: _ =>
      String.eqb (Event.Type_ (Event_ r)) ManifestEventType &&
      match Event.Data (Event_ r) with
      | AMap data => String.eqb (TrimSpace (provenance_of data)) "retrospective-import"
      | AString raw =>
          match decode_map raw with
          | Some payload => String.eqb (TrimSpace (provenance_of payload)) "retrospective-import"
          | None => false
          end
      | _ => false
      end
  end.

Definition with_risk (risk : ResidualRisk) (r : Report) : Report :=
  mkReport (BundlePath r) (Retrospective r) (Integrity r) (Anchoring r) (BundleSignature r) (Signatures r) (Results r)
    (CAS r) (InformationalNotes r) (Exclusions r) (ProvabilityGaps r) risk.

Definition with_gaps (gaps : list ProvabilityGap) (r : Report) : Report :=
  mkReport (BundlePath r) (Retrospective r) (Integrity r) (Anchoring r) (BundleSignature r) (Signatures r) (Results r)
    (CAS r) (InformationalNotes r) (Exclusions r) gaps (Risk r).

Definition with_cas (cas : option CASResult) (r : Report) : Report :=
  mkReport (BundlePath r) (Retrospective r) (Integrity r) (Anchoring r) (BundleSignature r) (Signatures r) (Results r)
    cas (InformationalNotes r) (Exclusions r) (ProvabilityGaps r) (Risk r).

Definition retrospective_note : string :=
  "This bundle was constructed from imported logs. TSA anchoring reflects import time, not original event time.".

Definition applyRetrospectiveProvenance (r : Report) (b : bundle) : Report :=
  if isRetrospectiveImportBundle b then
    mkReport (BundlePath r) true (Integrity r) (Anchoring r) (BundleSignature r) (Signatures r) (Results r) (CAS r)
      (InformationalNotes r) (Exclusions r) (ProvabilityGaps r)
      (mkRisk (Level (Risk r)) (Drivers (Risk r))
         (appendUniqueStrings (RecommendedNextEvidence (Risk r)) [retrospective_note]))
  else r.

(** ** The evaluation *)

Context `{Unicode} `{Crypto}.
Context (VerifyTokenDetailed : bytes -> bytes -> TokenVerification * option string).
Context (anchor_text : anchor_error -> string) (temporary : option string) (encode_text : string).
Context (policy_text : Policy.policy_error -> string) (verify_text : verify_failure -> string).
Context (type_name : any -> string) (json_text : string -> string).

Definition inspect : option bundle -> string -> anchorInspection :=
  inspectAnchor VerifyTokenDetailed anchor_text temporary encode_text.

Definition new_integrity : IntegrityResult := mkIntegrity false "rfc8785" "sha256" 0 0 "".

Definition setIntegritySequenceBounds (result : IntegrityResult) (records : list Record_) : IntegrityResult :=
  match records with
  | [] => result
  | r :: _ =>
      mkIntegrity (ChainValid result) (Canonicalization result) (HashAlgo result) (Event.Sequence (Event_ r))
        (Event.Sequence (Event_ (List.last records r))) (IntegrityError result)
  end.

(** The anchoring part of the report: the records are scanned, and the inspection of the
    latest anchor overwrites most of it. *)
Definition anchoring_of (b : bundle) (bundlePath : string) (required : bool) : AnchoringResult :=
  let scanned := scanAnchoring type_name json_text b in
  let i := inspect (Some b) bundlePath in
  mkAnchoring required (AnchorPresent i) (i_Status i) (Summary i) (MessageImprintVerified i) (SignatureVerified i)
    (match Result i with AnchorVerified => true | _ => false end) (CertChainVerified i)
    (if String.eqb (a_Hash scanned) "" then AnchorHash i else a_Hash scanned) (i_Reason i) (Errors scanned).

(** [prepareVerificationReport] with the flag the caller sets next. *)
Definition prepareVerificationReport (b : option bundle) (bundlePath : string) (required : bool) : Report * bool :=
  let blank integrity anchoring notes risk :=
    mkReport bundlePath false integrity anchoring None [] [] None notes [] [] risk in
  match b with
  | None =>
      let scanned := scanAnchoring type_name json_text [] in
      (blank (mkIntegrity false "rfc8785" "sha256" 0 0 "bundle is nil")
         (mkAnchoring required (a_Present scanned) (a_Status scanned) (a_Summary scanned) false false false false
            (a_Hash scanned) "" (Errors scanned))
         [] integrityFailureResidualRisk, false)
  | Some b =>
      let integrity := setIntegritySequenceBounds new_integrity b in
      let notes := appendUniqueStrings [] (ValidateTimestamps b) in
      let anchoring := anchoring_of b bundlePath required in
      match Bundle.Verify b with
      | Err f =>
          (blank (mkIntegrity false "rfc8785" "sha256" (FirstSeq integrity) (LastSeq integrity) (verify_text f))
             anchoring notes integrityFailureResidualRisk, true)
      | Ok _ =>
          (blank (mkIntegrity true "rfc8785" "sha256" (FirstSeq integrity) (LastSeq integrity) "")
             anchoring notes (mkRisk "Critical" [] []), true)
      end
  end.

(** The result of one profile: its evaluation, stamped, with the signature checks. *)
Definition profile_result (b : bundle) (strict : bool) (profile : Profile) : Verify.ProfileResult :=
  Verify.applyPolicyDecisionSignatureChecks
    (Verify.stampProfileResult (p_ID profile) (p_Version profile) (p_WorkflowClass profile) (evaluate profile b))
    (Verify.inspectPolicyDecisionSignatures policy_text b) strict.

(** Without a profile the score is the source commitment alone. *)
Definition unprofiled_cas (b : bundle) (valid : bool) : CASResult :=
  let sc := computeSC b profileIDPrivilegedToolAction in
  let counted := fltb zero sc && valid in
  mkCAS (if counted then sc else zero) (if counted then gradeFromScore sc else "") zero (if counted then sc else zero)
    (list_to_map [("SC", sc)]) ∅ zero "" zero ∅ valid false.

(** The score of the first profile. *)
Definition profiled_cas (b : bundle) (bundlePath : string) (integrity : IntegrityResult) (anchoring : AnchoringResult)
    (profile : Profile) (result : Verify.ProfileResult) : CASResult :=
  let subScores := subScoresForProfile profile b (Result (inspect (Some b) bundlePath)) in
  let cas := computeCASWithApplicability subScores (DefaultWeights profile) (casApplicability profile) (ChainValid integrity) in
  let assured := ChainValid integrity && Verify.Pass result in
  let assured := if AnchorRequired anchoring then assured && TSAVerified anchoring else assured in
  mkCAS (Overall cas) (Grade cas) (CorroborationBonus cas) (EffectiveScore cas) (SubScores cas) (WeightVector cas)
    (CoverageScore cas) (CoverageGrade cas) (AssessmentCoverage cas) (Dimensions cas) (IntegrityValid cas) assured.

(** The score and the risk: both come from the first profile, if there is one. *)
Definition score_and_risk (b : bundle) (bundlePath : string) (allApplicable strict : bool) (prepared : Report)
    (selectedProfiles : list Profile) : option CASResult * ResidualRisk :=
  let valid := ChainValid (Integrity prepared) in
  let risk risk := if valid then risk else integrityFailureResidualRisk in
  match selectedProfiles with
  | [] => (if allApplicable then Some (unprofiled_cas b valid) else None, risk residualRiskNoMatchingProfile)
  | profile :: _ =>
      let result := profile_result b strict profile in
      if profileSupportsCAS profile then
        let cas := profiled_cas b bundlePath (Integrity prepared) (Anchoring prepared) profile result in
        (Some cas, risk (deriveResidualRisk cas result))
      else (None, risk (deriveResidualRiskWithoutCAS result))
  end.

Definition evaluateLoadedBundle (b : option bundle) (bundlePath : string) (profiles : list (option Profile))
    (allApplicable anchorRequired strictSourceSignatures : bool) : Report :=
  let prepared := (prepareVerificationReport b bundlePath anchorRequired).1 in
  match b with
  | None => prepared
  | Some b =>
      let selectedProfiles := if allApplicable then matchingProfiles b "" else omap (fun p => p) profiles in
      let scored := score_and_risk b bundlePath allApplicable strictSourceSignatures prepared selectedProfiles in
      let report := applyRetrospectiveProvenance
        (mkReport bundlePath false (Integrity prepared) (Anchoring prepared)
           (BundleSign.inspectBundleSignature b) (BundleSign.inspectAllBundleSignatures b)
           (map (profile_result b strictSourceSignatures) selectedProfiles) scored.1 (InformationalNotes prepared)
           (fold_left (fun acc p => appendUniqueStrings acc (p_BlindSpots p)) selectedProfiles []) [] scored.2) b in
      with_gaps (DeriveProvabilityGaps 3 report) report
  end.
End report.

(** ** EvaluateBundle *)

Record EvaluateConfig := mkConfig {
  c_BundlePath : string;
  Records : bundle;
  Profiles_ : list (option Profile);
  AllApplicable : bool;
  c_AnchorRequired : bool;
  RequireValidChain : bool;
  StrictSourceSignatures : bool
}.

Record evaluateOpts := mkOpts { corroboration : option CorroborationPolicy; strictSourceSignatures : bool }.

Inductive evaluate_error :=
| ENoProfiles | ENoInput | EProfileUnknown | EBundleNotFound | ELoad (e : BundleIO.file_error) | EChainInvalid.

Definition with_assurance (assured : bool) (cas : CASResult) : CASResult :=
  mkCAS (Overall cas) (Grade cas) (CorroborationBonus cas) (EffectiveScore cas) (SubScores cas) (WeightVector cas)
    (CoverageScore cas) (CoverageGrade cas) (AssessmentCoverage cas) (Dimensions cas) (IntegrityValid cas) assured.

Definition required_anchor_advice : string :=
  "Provide a verifiable timestamp anchor required by the selected verification policy.".

Definition applyRequiredAnchorRisk (r : Report) : Report :=
  if negb (AnchorRequired (Anchoring r)) || TSAVerified (Anchoring r) then r
  else
    let r := with_cas (with_assurance false <$> CAS r) r in
    if String.eqb (Level (Risk r)) "Critical" then r
    else with_risk (mkRisk "High" (appendUniqueStrings (Drivers (Risk r)) ["required_anchor_unverified"])
      (appendUniqueStrings (RecommendedNextEvidence (Risk r)) [required_anchor_advice])) r.

(** The score with the bonus of a corroboration policy. *)
Definition corroborated (bonus : float64) (cas : CASResult) : CASResult :=
  let effective := Min Profiles.one (fadd (Overall cas) bonus) in
  mkCAS (Overall cas) (gradeFromScore effective) bonus effective (SubScores cas) (WeightVector cas)
    (CoverageScore cas) (CoverageGrade cas) (AssessmentCoverage cas) (Dimensions cas) (IntegrityValid cas) (AssuranceValid cas).

Section evaluate.
Context `{RangeOrder} `{Unicode} `{Crypto}.
Context (VerifyTokenDetailed : bytes -> bytes -> TokenVerification * option string).
Context (anchor_text : anchor_error -> string) (temporary : option string) (encode_text : string).
Context (policy_text : Policy.policy_error -> string) (verify_text : verify_failure -> string).
Context (type_name : any -> string) (json_text : string -> string).

Definition loaded_report : option bundle -> string -> list (option Profile) -> bool -> bool -> bool -> Report :=
  evaluateLoadedBundle VerifyTokenDetailed anchor_text temporary encode_text policy_text verify_text type_name json_text.

(** The records of the configuration, or the bundle file; [missing] tells whether an open
    that fails does so because there is no file. *)
Definition load_input (cfg : EvaluateConfig) (file : option BundleIO.reader) (missing : bool) : result evaluate_error bundle :=
  match Records cfg with
  | [] =>
      match BundleIO.Load false file false with
      | Ok b => Ok b
      | Err BundleIO.FOpen => Err (if missing then EBundleNotFound else ELoad BundleIO.FOpen)
      | Err e => Err (ELoad e)
      end
  | records => Ok records
  end.

Definition corroborated_report (corroboration : option CorroborationPolicy) (b : bundle) (report : Report) : Report :=
  match corroboration with
  | None => report
  | Some policy =>
      let signatureVerified :=
        match BundleSignature report with Some s => BundleSign.Verified s | None => false end in
      let bonus := computeCorroborationBonus (Some policy) (TSAVerified (Anchoring report)) signatureVerified
        (hasVerifiedSnapshot encode_text b) in
      with_cas (corroborated bonus <$> CAS report) report
  end.

Definition EvaluateBundle (cfg : EvaluateConfig) (opts : evaluateOpts) (file : option BundleIO.reader) (missing : bool) :
    result evaluate_error Report :=
  if (length (Profiles_ cfg) =? 0)%nat && negb (AllApplicable cfg) then Err ENoProfiles
  else if (length (Records cfg) =? 0)%nat && String.eqb (TrimSpace (c_BundlePath cfg)) "" then Err ENoInput
  else
    let selected := omap (fun p => p) (Profiles_ cfg) in
    if nonempty (Profiles_ cfg) && (length selected =? 0)%nat && negb (AllApplicable cfg) then Err EProfileUnknown
    else
      let? b := load_input cfg file missing in
      let report := loaded_report (Some b) (c_BundlePath cfg) (Some <$> selected) (AllApplicable cfg)
        (c_AnchorRequired cfg) (strictSourceSignatures opts || StrictSourceSignatures cfg) in
      let report := applyRequiredAnchorRisk report in
      let report := with_gaps (DeriveProvabilityGaps 4 report) report in
      if RequireValidChain cfg && negb (ChainValid (Integrity report)) then Err EChainInvalid
      else
        Ok (corroborated_report (corroboration opts) b report).

(** ** Verify and VerifyWithProfile *)

Definition Verify (b : option bundle) (bundlePath profileID : string) : Report :=
  match b with
  | None => loaded_report None bundlePath [] (String.eqb profileID "") false false
  | Some _ =>
      if String.eqb (TrimSpace profileID) "" then loaded_report b bundlePath [] true false false
      else
        match profile_named profileID with
        | None => loaded_report b bundlePath [] false false false
        | Some p => loaded_report b bundlePath [Some p] false false false
        end
  end.

Definition VerifyWithProfile (b : option bundle) (bundlePath : string) (profile : option Profile) : Report :=
  match profile with
  | None => loaded_report b bundlePath [] false false false
  | Some p => loaded_report b bundlePath [Some p] false false false
  end.

(** ** Assurance *)

(** The chain, the obligations of a profile, the signatures, and the anchor if one is
    required. *)
Definition assured (b : bundle) (bundlePath : string) (required strict : bool) (profile : Profile) : Prop :=
  Bundle.Verify b = Ok tt /\
  Verify.CriticalFailures (evaluate profile b) = [] /\
  Forall (Verify.signed_decision strict) b /\
  (required = true -> ClassifyAnchor VerifyTokenDetailed anchor_text temporary encode_text (Some b) bundlePath = AnchorVerified).

Definition selected_profiles (cfg : EvaluateConfig) (b : bundle) : list Profile :=
  if AllApplicable cfg then matchingProfiles b "" else omap (fun p => p) (Profiles_ cfg).

Lemma profile_result_pass b strict profile :
  Verify.Pass (profile_result policy_text b strict profile) = true <->
  Verify.CriticalFailures (evaluate profile b) = [] /\ Forall (Verify.signed_decision strict) b.
Proof. unfold profile_result. by rewrite Verify.checks_Pass, Verify.checks_failures. Qed.
End evaluate.

Section assurance.
Context `{RangeOrder} `{Unicode} `{Crypto}.
Context (VerifyTokenDetailed : bytes -> bytes -> TokenVerification * option string).
Context (anchor_text : anchor_error -> string) (temporary : option string) (encode_text : string).
Context (policy_text : Policy.policy_error -> string) (verify_text : verify_failure -> string).
Context (type_name : any -> string) (json_text : string -> string).

#[local] Abbreviation prepare :=
  (prepareVerificationReport VerifyTokenDetailed anchor_text temporary encode_text verify_text type_name json_text).
#[local] Abbreviation evaluated :=
  (evaluateLoadedBundle VerifyTokenDetailed anchor_text temporary encode_text policy_text verify_text type_name json_text).
#[local] Abbreviation evaluate_bundle :=
  (EvaluateBundle VerifyTokenDetailed anchor_text temporary encode_text policy_text verify_text type_name json_text).
#[local] Abbreviation is_assured := (assured VerifyTokenDetailed anchor_text temporary encode_text).
#[local] Abbreviation classify := (ClassifyAnchor VerifyTokenDetailed anchor_text temporary encode_text).

Lemma omap_some {A} (l : list A) : omap (fun p => p) (Some <$> l) = l.
Proof. induction l as [|x l IH]; [done|]. cbn. by rewrite IH. Qed.

Lemma prepare_anchoring b path required :
  Anchoring (prepare (Some b) path required).1 =
  anchoring_of VerifyTokenDetailed anchor_text temporary encode_text type_name json_text b path required.
Proof. unfold prepareVerificationReport. by destruct (Bundle.Verify b). Qed.

Lemma prepare_valid b path required :
  ChainValid (Integrity (prepare (Some b) path required).1) = true <-> Bundle.Verify b = Ok tt.
Proof. unfold prepareVerificationReport. by destruct (Bundle.Verify b) as [[]|f]. Qed.

Lemma anchoring_verified b path required :
  TSAVerified (Anchoring (prepare (Some b) path required).1) = true <-> classify (Some b) path = AnchorVerified.
Proof. rewrite prepare_anchoring. cbn [TSAVerified anchoring_of]. unfold ClassifyAnchor, inspect. by destruct (Result _). Qed.

Lemma applyRetrospective_fields r b :
  Anchoring (applyRetrospectiveProvenance r b) = Anchoring r /\ CAS (applyRetrospectiveProvenance r b) = CAS r /\
  Integrity (applyRetrospectiveProvenance r b) = Integrity r.
Proof. unfold applyRetrospectiveProvenance. by destruct (isRetrospectiveImportBundle b). Qed.

Lemma evaluated_fields b path profiles all required strict :
  let prepared := (prepare (Some b) path required).1 in
  let r := evaluated (Some b) path profiles all required strict in
  Anchoring r = Anchoring prepared /\ Integrity r = Integrity prepared /\
  CAS r = (score_and_risk VerifyTokenDetailed anchor_text temporary encode_text policy_text b path all strict prepared
    (if all then matchingProfiles b "" else omap (fun p => p) profiles)).1.
Proof.
  unfold evaluateLoadedBundle. cbv zeta. cbn [with_gaps Anchoring Integrity CAS].
  split_and!; by destruct (isRetrospectiveImportBundle b) eqn:E; unfold applyRetrospectiveProvenance; rewrite E.
Qed.

Lemma profiled_assurance b path required strict p :
  let prepared := (prepare (Some b) path required).1 in
  AssuranceValid (profiled_cas VerifyTokenDetailed anchor_text temporary encode_text b path (Integrity prepared)
    (Anchoring prepared) p (profile_result policy_text b strict p)) = true <->
  is_assured b path required strict p.
Proof.
  cbv zeta. unfold profiled_cas, assured. cbn [AssuranceValid].
  pose proof (prepare_valid b path required) as Hv. pose proof (anchoring_verified b path required) as Ha.
  pose proof (profile_result_pass policy_text b strict p) as Hp.
  assert (AnchorRequired (Anchoring (prepare (Some b) path required).1) = required) as -> by by rewrite prepare_anchoring.
  destruct required; rewrite ?andb_true_iff, Hv, Hp, ?Ha; [|intuition discriminate]. intuition.
Qed.

(** Requiring an anchor only takes assurance away that was not granted. *)
Lemma required_anchor_cas r c :
  CAS r = Some c ->
  (AssuranceValid c = true -> AnchorRequired (Anchoring r) = true -> TSAVerified (Anchoring r) = true) ->
  exists c', CAS (applyRequiredAnchorRisk r) = Some c' /\ AssuranceValid c' = AssuranceValid c.
Proof.
  intros Hc Himp. unfold applyRequiredAnchorRisk.
  destruct (AnchorRequired (Anchoring r)); cbn [negb orb]; [|by exists c].
  destruct (TSAVerified (Anchoring r)); [by exists c|]. exists (with_assurance false c). split.
  - destruct (String.eqb _ _); cbn [with_risk with_cas CAS]; by rewrite Hc.
  - cbn. destruct (AssuranceValid c); [|done]. by apply Himp.
Qed.

(** What is left of the report when an error is not returned. *)
Lemma EvaluateBundle_inv cfg opts file missing b r :
  evaluate_bundle cfg opts file missing = Ok r -> load_input cfg file missing = Ok b ->
  let strict := strictSourceSignatures opts || StrictSourceSignatures cfg in
  let report := applyRequiredAnchorRisk (evaluated (Some b) (c_BundlePath cfg) (Some <$> omap (fun p => p) (Profiles_ cfg))
    (AllApplicable cfg) (c_AnchorRequired cfg) strict) in
  exists bonus, CAS r = (match bonus with None => CAS report | Some bonus => corroborated bonus <$> CAS report end).
Proof.
  intros Hr Hb. unfold EvaluateBundle in Hr.
  destruct (_ && negb (AllApplicable cfg)); [done|]. destruct ((_ =? 0)%nat && _); [done|].
  destruct (nonempty _ && _ && _); [done|]. rewrite Hb in Hr.
  destruct (RequireValidChain cfg && _); [done|]. apply Ok_inj in Hr. rewrite <- Hr. clear Hr.
  destruct (corroboration opts) as [policy|]; [by eexists (Some _)|by exists None].
Qed.

(** C8: assurance. When EvaluateBundle returns a report and the first selected profile
    supports scoring, the report grants assurance exactly when the hash chain verifies,
    the profile's evaluation has no critical failure, every policy decision is signed as
    the mode asks, and, if an anchor is required, the bundle's anchor is verified. *)
Theorem assurance_decides cfg opts file missing b r p rest :
  evaluate_bundle cfg opts file missing = Ok r -> load_input cfg file missing = Ok b ->
  selected_profiles cfg b = p :: rest -> profileSupportsCAS p = true ->
  exists c, CAS r = Some c /\
    (AssuranceValid c = true <->
     is_assured b (c_BundlePath cfg) (c_AnchorRequired cfg) (strictSourceSignatures opts || StrictSourceSignatures cfg) p).
Proof.
  intros Hr Hb Hsel Hcas. destruct (EvaluateBundle_inv _ _ _ _ _ _ Hr Hb) as [bonus Hbonus]. clear Hr.
  set (strict := strictSourceSignatures opts || StrictSourceSignatures cfg) in *.
  destruct (evaluated_fields b (c_BundlePath cfg) (Some <$> omap (fun p => p) (Profiles_ cfg)) (AllApplicable cfg)
    (c_AnchorRequired cfg) strict) as (Ha & _ & Hc).
  rewrite omap_some in Hc. unfold selected_profiles in Hsel. rewrite Hsel in Hc. cbn [score_and_risk] in Hc.
  rewrite Hcas in Hc. cbn [fst] in Hc.
  pose proof (profiled_assurance b (c_BundlePath cfg) (c_AnchorRequired cfg) strict p) as Hp. cbv zeta in Hp.
  destruct (required_anchor_cas _ _ Hc) as (c' & Hc' & Heq).
  { rewrite Ha, anchoring_verified. intros Hassured%Hp Hreq. rewrite prepare_anchoring in Hreq. by apply Hassured. }
  rewrite <- Heq in Hp. destruct bonus as [bonus|]; rewrite Hbonus, Hc'.
  - by exists (corroborated bonus c').
  - by exists c'.
Qed.
End assurance.

(** ** What does not depend on the order of the maps *)

Definition known_gaps : list ProvabilityGap := retrospective_gap :: provabilityGapBySubScore.*2.

Definition gap_key (g : ProvabilityGap) : list Z := pair_key (Layer g) (Gap g).

Lemma known_gap_names x y : x ∈ known_gaps -> y ∈ known_gaps -> Gap x = Gap y -> x = y.
Proof.
  assert (NoDup (map Gap known_gaps)) as Hn by (apply (bool_decide_unpack _); vm_compute; exact I).
  intros [i Hi]%list_elem_of_lookup [j Hj]%list_elem_of_lookup E.
  assert (i = j) as ->; [|congruence]. apply (NoDup_lookup _ i j (Gap x) Hn); rewrite list_lookup_fmap.
  - by rewrite Hi.
  - by rewrite Hj, E.
Qed.

Lemma addGap_perm l l' g : l ≡ₚ l' -> addGap l g ≡ₚ addGap l' g.
Proof.
  intros Hp. unfold addGap. destruct (String.eqb (Gap g) ""); [done|].
  rewrite (bool_decide_ext (Gap g ∈ map Gap l) (Gap g ∈ map Gap l')) by (by rewrite Hp).
  destruct (bool_decide _); [done|]. by rewrite Hp.
Qed.

Lemma addGap_names l g x : x ∈ map Gap (addGap l g) <-> x ∈ map Gap l \/ (x = Gap g /\ x <> "").
Proof.
  unfold addGap. destruct (String.eqb_spec (Gap g) "") as [E|E]; [split; [auto|]; intros [Hz|[-> Hz]]; done|].
  case_bool_decide as Hin; [split; [auto|]; intros [Hz|[-> Hz]]; done|].
  rewrite map_app, elem_of_app. cbn. rewrite list_elem_of_singleton. split; [|tauto]. intros [Hz|Hz]; subst; auto.
Qed.

Lemma addGap_swap l x y : (Gap x = Gap y -> x = y) -> addGap (addGap l x) y ≡ₚ addGap (addGap l y) x.
Proof.
  intros Hxy. pose proof (addGap_names l x (Gap y)) as Hy. pose proof (addGap_names l y (Gap x)) as Hx.
  destruct (String.eqb_spec (Gap x) (Gap y)) as [E|E]; [by rewrite (Hxy E)|].
  unfold addGap at 1 3. destruct (String.eqb_spec (Gap y) "") as [Ey|Ey].
  { unfold addGap. by rewrite Ey. }
  destruct (String.eqb_spec (Gap x) "") as [Ex|Ex].
  { unfold addGap. rewrite Ex. cbn. apply String.eqb_neq in Ey. by rewrite Ey. }
  rewrite (bool_decide_ext (Gap y ∈ map Gap (addGap l x)) (Gap y ∈ map Gap l)) by (rewrite Hy; split; [intros [?|[? _]]; congruence|auto]).
  rewrite (bool_decide_ext (Gap x ∈ map Gap (addGap l y)) (Gap x ∈ map Gap l)) by (rewrite Hx; split; [intros [?|[? _]]; congruence|auto]).
  unfold addGap. apply String.eqb_neq in Ex, Ey. rewrite Ex, Ey.
  destruct (bool_decide (Gap y ∈ map Gap l)), (bool_decide (Gap x ∈ map Gap l)); try done.
  rewrite <- !app_assoc. apply Permutation_app_head, Permutation_swap.
Qed.

Lemma fold_addGap_perm gs gs' l l' :
  Forall (fun g => g ∈ known_gaps) gs -> gs ≡ₚ gs' -> l ≡ₚ l' -> fold_left addGap gs l ≡ₚ fold_left addGap gs' l'.
Proof.
  intros Hk Hp. revert l l' Hk. induction Hp as [|x gs gs' Hp IH|x y gs|gs1 gs2 gs3 H12 IH12 H23 IH23]; intros l l' Hk Hl.
  - done.
  - apply Forall_cons in Hk as [_ Hk]. cbn. apply IH; [done|]. by apply addGap_perm.
  - apply Forall_cons in Hk as [Hy Hk]. apply Forall_cons in Hk as [Hx Hk]. cbn.
    assert (addGap (addGap l y) x ≡ₚ addGap (addGap l' x) y) as Hs.
    { rewrite (addGap_swap l y x) by (intros E; by apply known_gap_names). by apply addGap_perm, addGap_perm. }
    revert Hs. generalize (addGap (addGap l y) x) (addGap (addGap l' x) y). clear -gs.
    induction gs as [|g gs IH]; intros a b Hab; [done|]. cbn. apply IH. by apply addGap_perm.
  - etrans; [by apply IH12|]. apply IH23; [|done]. by rewrite <- H12.
Qed.

Lemma score_gaps_known scores : Forall (fun g => g ∈ known_gaps) (score_gaps scores).
Proof.
  apply Forall_forall. intros g (kv & Hin & Hg)%list_elem_of_omap. destruct (fleb _ _); [done|].
  apply list_elem_of_further. assert (NoDup provabilityGapBySubScore.*1) as Hn by (apply (bool_decide_unpack _); vm_compute; exact I).
  apply (assoc_elem _ _ _ Hn) in Hg. by apply (list_elem_of_fmap_2 snd) in Hg.
Qed.

Lemma addGap_known l g : Forall (fun g => g ∈ known_gaps) l -> g ∈ known_gaps -> Forall (fun g => g ∈ known_gaps) (addGap l g).
Proof.
  intros Hl Hg. unfold addGap. destruct (String.eqb _ _); [done|]. case_bool_decide; [done|].
  apply Forall_app. split; [done|by constructor].
Qed.

Lemma fold_known {A} (f : list ProvabilityGap -> A -> list ProvabilityGap) l acc :
  (forall acc x, x ∈ l -> Forall (fun g => g ∈ known_gaps) acc -> Forall (fun g => g ∈ known_gaps) (f acc x)) ->
  Forall (fun g => g ∈ known_gaps) acc -> Forall (fun g => g ∈ known_gaps) (fold_left f l acc).
Proof.
  revert acc. induction l as [|x l IH]; intros acc Hf Hacc; [done|]. cbn.
  apply IH; [intros a y Hy; apply Hf; by apply list_elem_of_further|]. apply Hf; [apply list_elem_of_here|done].
Qed.

Lemma gap_of_known k : k = "AC" \/ k = "SC" -> gap_of k ∈ known_gaps.
Proof. intros [-> | ->]; apply (bool_decide_unpack _); vm_compute; exact I. Qed.

Lemma report_gaps_known anchoring scores results retro :
  Forall (fun g => g ∈ known_gaps) (report_gaps anchoring scores results retro).
Proof.
  unfold report_gaps. set (g0 := if _ && _ then _ else _). cbv zeta.
  assert (Forall (fun g => g ∈ known_gaps) (fold_left addGap (score_gaps scores) g0)) as H1.
  { apply fold_known.
    - intros acc x Hx Hacc. apply addGap_known; [done|]. pose proof (score_gaps_known scores) as Hs.
      rewrite Forall_forall in Hs. by apply Hs.
    - unfold g0. destruct (_ && _); [|constructor]. apply addGap_known; [constructor|]. apply gap_of_known. by left. }
  destruct results as [|p rest]; [done|].
  set (g2 := fold_left _ (Verify.RequiredWarnings p) _).
  assert (Forall (fun g => g ∈ known_gaps) g2) as H2.
  { apply fold_known; [|done]. intros acc w _ Hacc. destruct (Contains _ _); [|done].
    apply addGap_known; [done|]. apply gap_of_known. by right. }
  destruct retro; [|done]. apply addGap_known; [done|]. apply list_elem_of_here.
Qed.

(** The sorted gaps are the same for every order of the scores. *)
Lemma report_gaps_order anchoring scores scores' results retro :
  scores ≡ₚ scores' ->
  insertion_sort less_gap (report_gaps anchoring scores results retro) =
  insertion_sort less_gap (report_gaps anchoring scores' results retro).
Proof.
  intros Hp. rewrite !(insertion_sort_ext less_gap (fun a b => lex_ltb (gap_key a) (gap_key b)))
    by (intros x y; unfold gap_key; by rewrite pair_key_ltb).
  apply sort_by_key_unique.
  - intros x y Hx Hy [_ E]%pair_key_inj. pose proof (report_gaps_known anchoring scores results retro) as Hk.
    rewrite Forall_forall in Hk. apply known_gap_names; [by apply Hk|by apply Hk|done].
  - assert (score_gaps scores ≡ₚ score_gaps scores') as Hs by (unfold score_gaps; by rewrite Hp).
    unfold report_gaps. set (g0 := if _ && _ then _ else _). cbv zeta.
    pose proof (fold_addGap_perm _ _ g0 g0 (score_gaps_known scores) Hs (Permutation_refl _)) as H1.
    destruct results as [|p rest]; [done|].
    assert (forall l l', l ≡ₚ l' ->
      fold_left (fun gaps w => if Contains w "policy_signature absent" then addGap gaps (gap_of "SC") else gaps)
        (Verify.RequiredWarnings p) l ≡ₚ
      fold_left (fun gaps w => if Contains w "policy_signature absent" then addGap gaps (gap_of "SC") else gaps)
        (Verify.RequiredWarnings p) l') as Hf.
    { induction (Verify.RequiredWarnings p) as [|w ws IH]; intros l l' Hl; [done|]. cbn [fold_left]. apply IH.
      destruct (Contains _ _); [by apply addGap_perm|done]. }
    destruct retro; [apply addGap_perm|]; by apply Hf.
Qed.

Definition same_cas (c c' : CASResult) : Prop :=
  SubScores c = SubScores c' /\ WeightVector c = WeightVector c' /\ Dimensions c = Dimensions c' /\
  CorroborationBonus c = CorroborationBonus c' /\ IntegrityValid c = IntegrityValid c' /\
  AssuranceValid c = AssuranceValid c'.

(** All of the report but the numbers of the score, their grades and the level of risk. *)
Definition same_findings (r r' : Report) : Prop :=
  BundlePath r = BundlePath r' /\ Retrospective r = Retrospective r' /\ Integrity r = Integrity r' /\
  Anchoring r = Anchoring r' /\ BundleSignature r = BundleSignature r' /\ Signatures r = Signatures r' /\
  Results r = Results r' /\ option_Forall2 same_cas (CAS r) (CAS r') /\ InformationalNotes r = InformationalNotes r' /\
  Exclusions r = Exclusions r' /\ ProvabilityGaps r = ProvabilityGaps r' /\
  Drivers (Risk r) = Drivers (Risk r') /\ RecommendedNextEvidence (Risk r) = RecommendedNextEvidence (Risk r').

Lemma below_perm threshold l l' : l ≡ₚ l' -> below threshold l ≡ₚ below threshold l'.
Proof.
  intros Hp. unfold below. apply fmap_Permutation. induction Hp as [|x l l' _ IH|x y l|]; cbn [List.filter].
  - done.
  - destruct (fltb x.2 threshold); [by constructor|done].
  - destruct (fltb x.2 threshold), (fltb y.2 threshold); try done. constructor.
  - by etrans.
Qed.

Section orders.
Context (o o' : RangeOrder) `{Unicode} `{Crypto}.
Context (VerifyTokenDetailed : bytes -> bytes -> TokenVerification * option string).
Context (anchor_text : anchor_error -> string) (temporary : option string) (encode_text : string).
Context (policy_text : Policy.policy_error -> string) (verify_text : verify_failure -> string).
Context (type_name : any -> string) (json_text : string -> string).

Lemma range_orders i m : @range o i m ≡ₚ @range o' i m.
Proof. by rewrite !range_perm. Qed.

Lemma cas_orders scores weights app valid :
  same_cas (@computeCASWithApplicability o scores weights app valid) (@computeCASWithApplicability o' scores weights app valid).
Proof.
  assert (Dimensions (@computeCASWithApplicability o scores weights app valid) =
    Dimensions (@computeCASWithApplicability o' scores weights app valid)) as Hd
    by (apply map_eq; intros k; by rewrite !cas_dimensions).
  revert Hd. unfold computeCASWithApplicability, same_cas. destruct valid; cbn; intros Hd; by split_and!.
Qed.

Lemma risk_orders c c' result :
  same_cas c c' -> let r := @deriveResidualRisk o c result in let r' := @deriveResidualRisk o' c' result in
  Drivers r = Drivers r' /\ RecommendedNextEvidence r = RecommendedNextEvidence r'.
Proof.
  intros [Hs _]. unfold deriveResidualRisk. cbv zeta. cbn [Drivers RecommendedNextEvidence]. rewrite Hs.
  rewrite (sort_strings_unique (below (hundredths 70) (@range o 2 (SubScores c')))
    (below (hundredths 70) (@range o' 2 (SubScores c')))); [done|].
  apply below_perm, range_orders.
Qed.

Lemma profiled_orders b path integrity anchoring p result :
  same_cas (@profiled_cas o _ VerifyTokenDetailed anchor_text temporary encode_text b path integrity anchoring p result)
    (@profiled_cas o' _ VerifyTokenDetailed anchor_text temporary encode_text b path integrity anchoring p result).
Proof.
  unfold profiled_cas. cbv zeta.
  destruct (cas_orders (subScoresForProfile p b (Result (inspect VerifyTokenDetailed anchor_text temporary encode_text (Some b) path)))
    (DefaultWeights p) (casApplicability p) (ChainValid integrity)) as (E1 & E2 & E3 & E4 & E5 & _).
  split_and!; cbn; done.
Qed.

Lemma scored_orders b path all strict prepared selected :
  let s := @score_and_risk o _ _ VerifyTokenDetailed anchor_text temporary encode_text policy_text b path all strict prepared selected in
  let s' := @score_and_risk o' _ _ VerifyTokenDetailed anchor_text temporary encode_text policy_text b path all strict prepared selected in
  option_Forall2 same_cas s.1 s'.1 /\ Drivers s.2 = Drivers s'.2 /\ RecommendedNextEvidence s.2 = RecommendedNextEvidence s'.2.
Proof.
  cbv zeta. unfold score_and_risk. destruct selected as [|p rest].
  - split; [|done]. destruct all; constructor. by split_and!.
  - destruct (profileSupportsCAS p); [|split; [constructor|done]]. cbn [fst snd].
    pose proof (profiled_orders b path (Integrity prepared) (Anchoring prepared) p (profile_result policy_text b strict p)) as Hs.
    split; [by constructor|]. destruct (ChainValid (Integrity prepared)); [|done]. by apply risk_orders.
Qed.

Lemma retrospective_orders r r' b :
  same_findings r r' -> same_findings (applyRetrospectiveProvenance r b) (applyRetrospectiveProvenance r' b).
Proof.
  intros (E1 & E2 & E3 & E4 & E5 & E6 & E7 & Hc & E8 & E9 & E10 & E11 & E12). unfold applyRetrospectiveProvenance.
  destruct (isRetrospectiveImportBundle b); [|by split_and!]. unfold same_findings. cbn. split_and!; try done. by rewrite E12.
Qed.

Lemma gaps_orders n r r' : same_findings r r' -> @DeriveProvabilityGaps o n r = @DeriveProvabilityGaps o' n r'.
Proof.
  intros (_ & E2 & E3 & E4 & _ & _ & E7 & Hc & _). unfold DeriveProvabilityGaps. rewrite E2, E3, E4, E7.
  destruct (negb _); [done|]. apply report_gaps_order. destruct Hc as [c c' [-> _]|]; [apply range_orders|done].
Qed.

(** Two verifications of the same bundle report the same, whatever order Go visits its
    maps in, but for the numbers of the score, their grades and the level of risk: the
    integrity, the anchor, the signatures, the results of the profiles, whether assurance
    is granted, the sub-scores and dimensions, the drivers of risk and the provability
    gaps. *)
Theorem report_determined b path profiles all required strict :
  same_findings
    (@evaluateLoadedBundle o _ _ VerifyTokenDetailed anchor_text temporary encode_text policy_text verify_text type_name
       json_text b path profiles all required strict)
    (@evaluateLoadedBundle o' _ _ VerifyTokenDetailed anchor_text temporary encode_text policy_text verify_text type_name
       json_text b path profiles all required strict).
Proof.
  unfold evaluateLoadedBundle. set (prepared := (prepareVerificationReport _ _ _ _ _ _ _ b path required).1).
  destruct b as [b|]; cbv zeta.
  - set (selected := if all then _ else _).
    destruct (scored_orders b path all strict prepared selected) as (Hc & Hd & Hr).
    set (r := mkReport _ _ _ _ _ _ _ (score_and_risk _ _ _ _ _ b path all strict prepared selected).1 _ _ _ _).
    set (r' := mkReport _ _ _ _ _ _ _ (score_and_risk _ _ _ _ _ b path all strict prepared selected).1 _ _ _ _).
    assert (same_findings r r') as Hs by (unfold same_findings, r, r'; cbn; by split_and!).
    apply (retrospective_orders r r' b) in Hs. pose proof (gaps_orders 3 _ _ Hs) as Hg.
    destruct Hs as (E1 & E2 & E3 & E4 & E5 & E6 & E7 & Hc' & E8 & E9 & E10 & E11 & E12).
    unfold same_findings. cbn [with_gaps BundlePath Retrospective Integrity Anchoring BundleSignature Signatures Results CAS
      InformationalNotes Exclusions ProvabilityGaps Risk]. split_and!; done.
  - unfold same_findings. split_and!; try done. unfold prepared, prepareVerificationReport. constructor.
Qed.
End orders.

(** ** Examples *)

(** Orders that follow a list of keys. *)
Fixpoint position (k : string) (keys : list string) : Z :=
  match keys with [] => 0 | x :: l => if String.eqb k x then 0 else 1 + position k l end.

Definition ordered (keys : list string) : RangeOrder := {|
  range _ m := insertion_sort (fun a b => position a.1 keys <? position b.1 keys) (map_to_list m);
  range_perm _ m := insertion_sort_perm _ _
|}.

Section examples.
Existing Instance ascii_only.
Existing Instance BundleSign.toy.

(** An authority that is not trusted. *)
Definition untrusted (_ _ : bytes) : TokenVerification * option string :=
  (mkVerification true false false, Some "anchor: certificate verification failed: unknown authority").

Definition append_all (b : bundle) (l : list (string * any)) : result append_error bundle :=
  fold_left (fun acc p => let? b := acc in Append b p.1 p.2) l (Ok b).

(** A privileged tool action with an anchor, as the library writes it. *)
Definition action_payloads : list (string * any) :=
  map (fun p => (p.1, AMap (map (fun kv => (kv.1, AString kv.2)) p.2))) sample_payloads ++
  [(AnchorEventType, anchor_data (B "token"))].

Definition action_bundle : bundle := match append_all sample_new action_payloads with Ok b => b | Err _ => [] end.

(** Whatever profile applies, and the profile for privileged tool actions. *)
Definition action_config : EvaluateConfig := mkConfig "b.atb" action_bundle [] true false true false.
Definition privileged_config : EvaluateConfig := mkConfig "b.atb" action_bundle [Some privileged] false false true false.

#[local] Abbreviation run_on cfg order :=
  (@EvaluateBundle order ascii_only BundleSign.toy untrusted (fun _ => "") None "" (fun _ => "") (fun _ => "")
    (fun _ => "") (fun _ => "") cfg (mkOpts None false) None false).

Definition run (order : RangeOrder) : result evaluate_error Report := run_on action_config order.

Lemma privileged_config_runs : is_ok (run_on privileged_config (ordered [])) = true.
Proof. vm_compute. reflexivity. Qed.

Definition privileged_report : Report :=
  get_ok (prepareVerificationReport untrusted (fun _ => "") None "" (fun _ => "") (fun _ => "") (fun _ => "") None "" false).1
    (run_on privileged_config (ordered [])).

Lemma privileged_report_ok : run_on privileged_config (ordered []) = Ok privileged_report.
Proof. exact (get_ok_spec _ _ privileged_config_runs). Qed.

Lemma load_records cfg file missing : nonempty (Records cfg) = true -> load_input cfg file missing = Ok (Records cfg).
Proof. unfold load_input. by destruct (Records cfg). Qed.

Lemma action_bundle_nonempty : nonempty (Records privileged_config) = true.
Proof. vm_compute. reflexivity. Qed.

Lemma privileged_supports : profileSupportsCAS privileged = true.
Proof. vm_compute. reflexivity. Qed.

Lemma assurance_decides_witness :
  exists c, CAS privileged_report = Some c /\
    (AssuranceValid c = true <->
     assured untrusted (fun _ => "") None "" (Records privileged_config) (c_BundlePath privileged_config)
       (c_AnchorRequired privileged_config) (strictSourceSignatures (mkOpts None false) || StrictSourceSignatures privileged_config)
       privileged).
Proof.
  exact (@assurance_decides (ordered []) ascii_only BundleSign.toy untrusted (fun _ => "") None "" (fun _ => "")
    (fun _ => "") (fun _ => "") (fun _ => "") privileged_config (mkOpts None false) None false
    (Records privileged_config) privileged_report privileged [] privileged_report_ok
    (load_records privileged_config None false action_bundle_nonempty) (eq_refl [privileged]) privileged_supports).
Defined.

Definition grade_of (r : result evaluate_error Report) : option (string * bool) :=
  match r with Ok r => (fun c => (Grade c, AssuranceValid c)) <$> CAS r | Err _ => None end.

(** The grade depends on the order in which Go visits the weights, which the language
    leaves open: for one and the same bundle, a complete privileged tool action whose
    anchor's authority is not trusted, one order gives the grade High and another Medium. *)
Theorem grade_depends_on_map_order :
  exists order order' : RangeOrder,
    grade_of (run order) = Some ("High", true) /\ grade_of (run order') = Some ("Medium", true).
Proof.
  exists (ordered ["EC"; "FC"; "RC"; "TC"; "SC"; "XC"; "AC"; "GC"]).
  exists (ordered ["EC"; "FC"; "TC"; "XC"; "RC"; "SC"; "AC"; "GC"]).
  split; vm_compute; reflexivity.
Qed.
End examples.
End Report.
