(* ===== verification/VerifyReport.v ===== *)
(** * Package internal/verify: the verdict for other programs

    [report.go] and package internal/identityevidence: the report of [EvaluateBundle] as
    the flat [VerifierReport] that is written as JSON, with the gate, the obligations and
    the failures merged, and the identity evidence of reviewers. Theorems: when the gate passes,
    and that the obligations that are listed agree with the verdict. *)

From S2P Require Import Prelude GoText Sha256 GoFloat GoJson GoValue GoUnicode GoTime GoStruct Canonicalize Event HashChain Bundle BundleIO BundleSign Profiles Templates Policy Verify Score AnchorClassify Report.
Import Bundle.

Module VerifyReport.
Import Score AnchorClassify Report.

Definition VerifyReportVersion : string := "verify.report.v1".

(** ** Identity evidence *)

Definition Field : string := "identity_evidence".

Record Evidence := mkEvidence {
  e_EventType : string;
  e_Sequence : Z;
  IdentityProvider : string;
  Subject : string;
  AuthContext : string;
  AssertionType : string;
  AssertionDigest : string;
  RawEvidenceDigest : string;
  Verification : string
}.

Definition stringValue (data : list (string * any)) (key : string) : string :=
  match assoc key data with Some (AString value) => TrimSpace value | _ => "" end.

Definition evidence_of (record : Record_) : option Evidence :=
  match Event.Data (Event_ record) with
  | AMap data =>
      match assoc Field data with
      | Some (AMap raw) =>
          let e := mkEvidence (Event.Type_ (Event_ record)) (Event.Sequence (Event_ record))
            (stringValue raw "identity_provider") (stringValue raw "subject") (stringValue raw "auth_context")
            (stringValue raw "assertion_type") (stringValue raw "assertion_digest") (stringValue raw "raw_evidence_digest")
            "caller_provided_unverified" in
          if String.eqb (IdentityProvider e) "" || String.eqb (Subject e) "" ||
             String.eqb (AssertionType e) "" || String.eqb (AssertionDigest e) "" then None else Some e
      | _ => None
      end
  | _ => None
  end.

Definition Extract (b : option bundle) : list Evidence :=
  match b with None => [] | Some b => omap evidence_of (b : list Record_) end.

(** ** The gate *)

Record GateResult := mkGate {
  g_Pass : bool;
  g_ChainValid : bool;
  ProfilePass : bool;
  g_AnchorRequired : bool;
  AnchorPass : option bool
}.

Definition gateResultFromVerify (r : Report) (profilePass : bool) : GateResult :=
  let valid := ChainValid (Integrity r) in
  let pass := valid && profilePass in
  let required := AnchorRequired (Anchoring r) in
  if required then
    let anchorPass := TSAVerified (Anchoring r) || String.eqb (a_Status (Anchoring r)) "verified" in
    mkGate (pass && anchorPass) valid profilePass required (Some anchorPass)
  else mkGate pass valid profilePass required None.

(** ** The obligations *)

Abbreviation ObligationResult := Verify.ObligationResult.
Abbreviation CriticalFailure := Profiles.CriticalFailure.

Definition override (next current : string) : string := if String.eqb next "" then current else next.

Definition mergeObligation (current next : ObligationResult) : ObligationResult :=
  Verify.mkObligation (Verify.o_ID current) (override (Verify.o_Kind next) (Verify.o_Kind current))
    (override (Verify.EventType next) (Verify.EventType current)) (override (Verify.o_Severity next) (Verify.o_Severity current))
    (override (Verify.Status next) (Verify.Status current)) (override (Verify.o_Message next) (Verify.o_Message current)).

Fixpoint upsertObligation (obligations : list ObligationResult) (obligation : ObligationResult) : list ObligationResult :=
  match obligations with
  | [] => [obligation]
  | o :: rest =>
      if String.eqb (Verify.o_ID o) (Verify.o_ID obligation) then mergeObligation o obligation :: rest
      else o :: upsertObligation rest obligation
  end.

Definition failureObligationID (failure : CriticalFailure) (index : nat) : string :=
  if negb (String.eqb (TrimSpace (Profiles.f_ID failure)) "") then Profiles.f_ID failure
  else "failure:" +:+ Profiles.Kind failure +:+ ":" +:+ show_int (Z.of_nat index + 1).

(** [strings.Cut]: the text before the first [sep], if there is one. *)
Fixpoint before_bytes (sep b : bytes) : option bytes :=
  if prefix_of_bytes sep b then Some []
  else match b with [] => None | c :: t => cons c <$> before_bytes sep t end.

Definition before (sep s : string) : option string := S_of <$> before_bytes (B sep) (B s).

Definition failureEventType (id : string) : string :=
  if HasPrefix id "required:" then let value := TrimPrefix id "required:" in default value (before ":field:" value)
  else if HasPrefix id "optional:" then TrimPrefix id "optional:"
  else if HasPrefix id "required_when:" then default "" (before ":when:" (TrimPrefix id "required_when:"))
  else "".

Definition failure_obligation (i : nat) (failure : CriticalFailure) : ObligationResult :=
  Verify.mkObligation (failureObligationID failure i) (Profiles.Kind failure) (failureEventType (Profiles.f_ID failure))
    "critical" "fail" (Profiles.Detail failure).

Definition warning_obligation (i : nat) (warning : string) : ObligationResult :=
  Verify.mkObligation (Verify.warningObligationID i) "required_warning" "" "warning" "warning" warning.

Definition reportObligations (profile : Verify.ProfileResult) : list ObligationResult :=
  let obligations := fold_left upsertObligation (imap failure_obligation (Verify.CriticalFailures profile))
    (Verify.Obligations profile) in
  fold_left upsertObligation (imap warning_obligation (Verify.RequiredWarnings profile)) obligations.

(** ** The report *)

Record VerifierReport := mkVerifierReport {
  v_BundlePath : string;
  v_Retrospective : bool;
  v_ProfileID : string;
  ProfileVersion : Z;
  v_Pass : bool;
  Gate : GateResult;
  CASScore : float64;
  CASGrade : string;
  v_CorroborationBonus : float64;
  v_EffectiveScore : float64;
  v_SubScores : gmap string float64;
  v_CoverageScore : float64;
  v_CoverageGrade : string;
  v_AssessmentCoverage : float64;
  DimensionAssessments : gmap string DimensionAssessment;
  v_IntegrityValid : bool;
  v_AssuranceValid : bool;
  Failures : list CriticalFailure;
  v_Obligations : list ObligationResult;
  v_Warnings : list string;
  v_Notes : list string;
  v_Exclusions : list string;
  v_Signatures : list BundleSign.SignatureProvenance;
  v_ProvabilityGaps : list ProvabilityGap;
  ReviewerIdentities : list Evidence;
  v_ResidualRisk : ResidualRisk
}.

Definition chain_failure (r : Report) : list CriticalFailure :=
  if ChainValid (Integrity r) then []
  else
    let detail := TrimSpace (IntegrityError (Integrity r)) in
    [Profiles.mkFailure "integrity:chain" "integrity_failure"
       (if String.eqb detail "" then "bundle hash chain is invalid" else detail)].

Definition of_cas {A} (f : CASResult -> A) (d : A) (r : Report) : A := match CAS r with Some c => f c | None => d end.

(** A figure of the coverage, which is left out when the score is not of an intact chain. *)
Definition of_coverage {A} (f : CASResult -> A) (d : A) (r : Report) : A :=
  of_cas (fun c => if IntegrityValid c then f c else d) d r.

Definition has_bonus (c : CASResult) : bool := negb (feqb (CorroborationBonus c) zero).

Definition ReportFromVerify (r : Report) : VerifierReport :=
  let report (gate : GateResult) (id : string) (version : Z) (pass : bool) (failures : list CriticalFailure)
      (obligations : list ObligationResult) (warnings notes : list string) (gaps : list ProvabilityGap) :=
    mkVerifierReport (BundlePath r) (Retrospective r) id version pass gate
      (of_cas Overall zero r) (of_cas Grade "" r)
      (of_cas (fun c => if has_bonus c then CorroborationBonus c else zero) zero r)
      (of_cas (fun c => if has_bonus c then EffectiveScore c else zero) zero r)
      (of_cas SubScores ∅ r) (of_coverage CoverageScore zero r) (of_coverage CoverageGrade "" r)
      (of_coverage AssessmentCoverage zero r) (of_coverage Dimensions ∅ r)
      (ChainValid (Integrity r)) (of_cas AssuranceValid false r) failures obligations warnings notes
      (Exclusions r) (Signatures r) gaps [] (Risk r) in
  match Results r with
  | [] => report (gateResultFromVerify r false) "" 0 false (chain_failure r) [] [] [] []
  | profile :: _ =>
      let gate := gateResultFromVerify r (Verify.Pass profile) in
      report gate (Verify.ProfileID profile) (Verify.Version profile) (g_Pass gate)
        (chain_failure r ++ Verify.CriticalFailures profile) (reportObligations profile) (Verify.RequiredWarnings profile)
        (Verify.InformationalNotes profile ++
         of_cas (fun c => if IntegrityValid c then [] else ["coverage_score omitted because integrity_valid is false"]) [] r)
        (ProvabilityGaps r)
  end.

Definition ReportFromVerifyWithBundle (r : Report) (b : option bundle) : VerifierReport :=
  let v := ReportFromVerify r in
  mkVerifierReport (v_BundlePath v) (v_Retrospective v) (v_ProfileID v) (ProfileVersion v) (v_Pass v) (Gate v) (CASScore v)
    (CASGrade v) (v_CorroborationBonus v) (v_EffectiveScore v) (v_SubScores v) (v_CoverageScore v) (v_CoverageGrade v)
    (v_AssessmentCoverage v) (DimensionAssessments v) (v_IntegrityValid v) (v_AssuranceValid v) (Failures v) (v_Obligations v)
    (v_Warnings v) (v_Notes v) (v_Exclusions v) (v_Signatures v) (v_ProvabilityGaps v) (Extract b) (v_ResidualRisk v).

(** ** The obligations agree with the verdict *)

Definition fails (o : ObligationResult) : Prop := Verify.Status o = "fail".

(** Some obligation has the identifier and fails. *)
Definition failing (id : string) (l : list ObligationResult) : Prop := Exists (fun o => Verify.o_ID o = id /\ fails o) l.

Lemma fold_left_invariant {A C} (P : A -> Prop) (f : A -> C -> A) l a :
  P a -> (forall a x, P a -> P (f a x)) -> P (fold_left f l a).
Proof. intros Ha Hf. revert a Ha. induction l as [|x l IH]; intros a Ha; [done|]. by apply IH, Hf. Qed.

Lemma upsert_fails o l : fails o -> failing (Verify.o_ID o) (upsertObligation l o).
Proof.
  unfold failing. intros Ho. induction l as [|x l IH]; cbn [upsertObligation]; [by apply Exists_cons_hd|].
  destruct (String.eqb_spec (Verify.o_ID x) (Verify.o_ID o)) as [E|E]; [apply Exists_cons_hd; split; [done|]|by apply Exists_cons_tl].
  unfold fails in *. cbn. by rewrite Ho.
Qed.

Lemma upsert_keeps id o l : failing id l -> fails o \/ Verify.o_ID o <> id -> failing id (upsertObligation l o).
Proof.
  unfold failing. intros Hl Ho. induction l as [|x l IH]; [by apply Exists_nil in Hl|]. cbn [upsertObligation].
  apply Exists_cons in Hl as [[Hx Hf]|Hl].
  - destruct (String.eqb_spec (Verify.o_ID x) (Verify.o_ID o)) as [E|E]; apply Exists_cons_hd; [|done].
    destruct Ho as [Ho|Ho]; [|congruence]. split; [done|]. unfold fails in *. cbn. by rewrite Ho.
  - destruct (String.eqb _ _); apply Exists_cons_tl; [done|by apply IH].
Qed.

Lemma upsert_origin o l : Exists fails (upsertObligation l o) -> fails o \/ Exists fails l.
Proof.
  induction l as [|x l IH]; cbn [upsertObligation]; [intros [?|?%Exists_nil]%Exists_cons; [by left|done]|].
  destruct (String.eqb _ _); intros [Hx|Hl]%Exists_cons.
  - unfold fails in *. cbn in Hx. unfold override in Hx. destruct (String.eqb (Verify.Status o) ""); [right; by apply Exists_cons_hd|by left].
  - right. by apply Exists_cons_tl.
  - right. by apply Exists_cons_hd.
  - destruct (IH Hl) as [?|?]; [by left|right; by apply Exists_cons_tl].
Qed.

Lemma fold_upsert_keeps id os l :
  failing id l -> Forall (fun o => fails o \/ Verify.o_ID o <> id) os -> failing id (fold_left upsertObligation os l).
Proof. intros Hl Hos. revert l Hl. induction Hos as [|o os Ho _ IH]; intros l Hl; [done|]. by apply IH, upsert_keeps. Qed.

Lemma fold_upsert_fails o os l : o ∈ os -> Forall fails os -> failing (Verify.o_ID o) (fold_left upsertObligation os l).
Proof.
  intros Hin Hos. revert l. induction Hos as [|o' os Ho' Hos IH]; intros l; [by apply elem_of_nil in Hin|]. cbn [fold_left].
  apply elem_of_cons in Hin as [->|Hin]; [|by apply IH].
  apply fold_upsert_keeps; [by apply upsert_fails|]. eapply Forall_impl; [exact Hos|]. by left.
Qed.

Lemma fold_upsert_origin os l : Exists fails (fold_left upsertObligation os l) -> Exists fails os \/ Exists fails l.
Proof.
  revert l. induction os as [|o os IH]; intros l; [by right|]. cbn [fold_left]. intros [?|?]%IH; [left; by apply Exists_cons_tl|].
  destruct (upsert_origin _ _ H) as [?|?]; [left; by apply Exists_cons_hd|by right].
Qed.

(** Identifiers that no warning has. *)
Definition no_warning_id (f : CriticalFailure) : Prop := HasPrefix (Profiles.f_ID f) "warning:" = false.

Lemma failureObligationID_warning f i j : no_warning_id f -> Verify.warningObligationID j <> failureObligationID f i.
Proof.
  unfold no_warning_id, failureObligationID. intros Hf E. destruct (negb _); [|discriminate E].
  rewrite <- E in Hf. discriminate Hf.
Qed.

Lemma reported_failure pr i f :
  Forall no_warning_id (Verify.CriticalFailures pr) -> Verify.CriticalFailures pr !! i = Some f ->
  failing (failureObligationID f i) (reportObligations pr).
Proof.
  intros Hids Hf. unfold reportObligations. apply fold_upsert_keeps.
  - change (failureObligationID f i) with (Verify.o_ID (failure_obligation i f)). apply fold_upsert_fails.
    + apply list_elem_of_lookup. exists i. by rewrite list_lookup_imap, Hf.
    + apply Forall_lookup. intros j o. rewrite list_lookup_imap. destruct (_ !! j); [|done]. by intros [= <-].
  - apply Forall_lookup. intros j o. rewrite list_lookup_imap. destruct (_ !! j); [|done]. intros [= <-]. right.
    apply failureObligationID_warning. rewrite Forall_lookup in Hids. by eapply Hids.
Qed.

Lemma reported_origin pr :
  Exists fails (reportObligations pr) -> Verify.CriticalFailures pr <> [] \/ Exists fails (Verify.Obligations pr).
Proof.
  unfold reportObligations. intros [Hw|[Hf|?]%fold_upsert_origin]%fold_upsert_origin; [|left|by right].
  - exfalso. apply Exists_exists in Hw as (o & Ho & Hfail). apply list_elem_of_lookup in Ho as [j Hj].
    rewrite list_lookup_imap in Hj. destruct (_ !! j); [|done]. injection Hj as <-. done.
  - intros E. rewrite E in Hf. by apply Exists_nil in Hf.
Qed.

(** *** Where the failures of a schema come from *)

Section schema.
Context `{Unicode}.

Abbreviation ids_ok r := (Forall no_warning_id (Profiles.CriticalFailures r)).

Lemma add_ok f r : ids_ok r -> no_warning_id f -> ids_ok (Profiles.add_failure f r).
Proof. intros Hr Hf. cbn. apply Forall_app. split; [done|]. by constructor. Qed.

Lemma finding_ok r rule id kind detail :
  ids_ok r -> HasPrefix id "warning:" = false -> ids_ok (Profiles.appendRuleFinding r rule id kind detail).
Proof. intros Hr Hid. unfold Profiles.appendRuleFinding. destruct (EqualFold _ _); [done|by apply add_ok]. Qed.

Lemma rule_ok event_id r records rule :
  (forall t, HasPrefix (event_id t) "warning:" = false) -> ids_ok r -> ids_ok (Profiles.evaluate_rule event_id r records rule).
Proof.
  intros He Hr. unfold Profiles.evaluate_rule. destruct records as [|first _]; [by apply finding_ok|].
  destruct (Profiles.missingFields _ _); [done|]. by apply finding_ok.
Qed.

Lemma relationID_ok rule t : HasPrefix (Profiles.relationID rule +:+ t) "warning:" = false.
Proof. unfold Profiles.relationID. by destruct (negb _). Qed.

Lemma relation_failure_ok rule from linked first f :
  no_warning_id first -> Profiles.relation_failure rule from linked first = Some f -> no_warning_id f.
Proof.
  assert (forall ps to f, Profiles.first_predicate_failure rule from to ps = Some f -> no_warning_id f) as Hp.
  { intros ps to f'. induction ps as [|p ps IH]; [done|]. cbn [Profiles.first_predicate_failure].
    destruct (EqualFold _ _); [done|]. intros [= <-]. unfold no_warning_id. cbn. unfold Profiles.relationPredicateID. apply relationID_ok. }
  revert first. induction linked as [|to linked IH]; intros first Hfirst; cbn [Profiles.relation_failure].
  - destruct (bool_decide _); [done|]. by intros [= <-].
  - unfold Profiles.firstRelationPredicateFailure. destruct (Profiles.first_predicate_failure _ _ _ _) as [f'|] eqn:E; [|done].
    apply IH. destruct (bool_decide _); [|done]. by eapply Hp.
Qed.

Lemma link_ok rule m r record : ids_ok r -> ids_ok (Profiles.evaluate_link rule m r record).
Proof.
  intros Hr. unfold Profiles.evaluate_link. cbv zeta. destruct (_ && (_ =? 0)%nat); [done|]. destruct (negb _ && _).
  - destruct (Profiles.relationPredicateFailure _ _ _) as [f|] eqn:E; [|done]. apply add_ok; [done|].
    unfold Profiles.relationPredicateFailure in E. by eapply relation_failure_ok in E.
  - apply add_ok; [done|]. unfold no_warning_id. cbn. unfold Profiles.relationID. by destruct (negb _).
Qed.

Lemma condition_ok m t r cond : ids_ok r -> ids_ok (Profiles.evaluate_condition m t r cond).
Proof.
  intros Hr. unfold Profiles.evaluate_condition. cbv zeta. destruct (Profiles.at_key m (Profiles.WhenType cond)) as [|first rest]; [exact Hr|].
  destruct (_ =? 0)%nat; [by apply add_ok|]. destruct (negb _); [done|].
  destruct (Profiles.parseEventTimestamp _); try exact Hr. destruct (Profiles.scan_targets _ _ _) as [a c].
  destruct (negb a); [done|]. destruct (negb c); [by apply add_ok|done].
Qed.

Lemma Evaluate_ids schema records : ids_ok (Profiles.Evaluate schema records).
Proof.
  unfold Profiles.Evaluate. cbn [Profiles.finaliseEvaluationResult Profiles.CriticalFailures].
  rewrite insertion_sort_perm. cbn [Profiles.CriticalFailures]. unfold Profiles.evaluateRequiredWhenRules.
  apply (fold_left_invariant (fun r => ids_ok r)); [|intros r rule Hr; apply (fold_left_invariant (fun r => ids_ok r)); [done|intros; by apply condition_ok]].
  apply (fold_left_invariant (fun r => ids_ok r)).
  - do 2 (apply (fold_left_invariant (fun r => ids_ok r)); [|intros r rule Hr; by apply rule_ok]). by cbn.
  - intros r rule Hr. unfold Profiles.evaluateRelationRule. cbv zeta. destruct (_ =? 0)%nat; [done|]. destruct (_ =? 0)%nat; [done|].
    apply (fold_left_invariant (fun r => ids_ok r)); [done|]. intros. by apply link_ok.
Qed.
End schema.

(** ** The theorems *)

Section obligations.
Context `{Unicode} `{Crypto} (policy_text : Policy.policy_error -> string).

Lemma signature_ids r verified absent kind failed f :
  Forall no_warning_id f.2 -> Forall no_warning_id (Verify.report_signature policy_text r verified absent kind failed f).2.
Proof.
  destruct f as [[ws ns] fs]. cbn [snd]. intros Hf. destruct r as [[]|[|d]]; cbn [Verify.report_signature snd]; [done..|].
  apply Forall_app. split; [done|]. by constructor.
Qed.

Lemma inspect_ids records : Forall no_warning_id (Verify.inspectPolicyDecisionSignatures policy_text records).2.
Proof.
  unfold Verify.inspectPolicyDecisionSignatures. apply (fold_left_invariant (fun f => Forall no_warning_id f.2)); [by cbn|].
  intros f r Hf. unfold Verify.inspect_record. destruct (negb _); [done|].
  destruct (Event.Data (Event_ r)) as [| | | | | |l| | |];
    try (destruct f as [[ws ns] fs]; cbn [snd] in *; apply Forall_app; split; [done|]; by constructor).
  cbv zeta. destruct (Verify.has_doc_hash l); repeat apply signature_ids; done.
Qed.

Lemma checks_ids result records strict :
  Forall no_warning_id (Verify.CriticalFailures result) ->
  Forall no_warning_id (Verify.CriticalFailures (Verify.applyPolicyDecisionSignatureChecks result
    (Verify.inspectPolicyDecisionSignatures policy_text records) strict)).
Proof.
  intros Hr. unfold Verify.applyPolicyDecisionSignatureChecks. pose proof (inspect_ids records) as Hi.
  destruct (Verify.inspectPolicyDecisionSignatures _ _) as [[ws ns] fs].
  cbn [Verify.finaliseProfileResult Verify.CriticalFailures snd] in *. rewrite insertion_sort_perm. rewrite !Forall_app.
  split_and!; [done|done|]. destruct strict; [|done]. apply Forall_map, Forall_true. by intros w.
Qed.

Lemma schema_origin schema ev :
  Exists fails (Verify.schemaObligations schema ev) -> Profiles.CriticalFailures ev <> [].
Proof.
  intros Hx E. apply Exists_exists in Hx as (o & Ho & Hf).
  assert (forall id prefix kind ty sev, o <> Verify.obligation [] id prefix kind ty sev) as Hno by (intros ? ? ? ? ? ->; done).
  unfold Verify.schemaObligations in Ho. rewrite E in Ho. rewrite !elem_of_app in Ho. destruct Ho as [Ho|[Ho|Ho]].
  - apply list_elem_of_In, in_map_iff in Ho as (rule & <- & _). by eapply Hno.
  - apply list_elem_of_In, in_map_iff in Ho as (rule & <- & _). by eapply Hno.
  - apply list_elem_of_lookup in Ho as [j Hj]. rewrite list_lookup_imap in Hj. destruct (_ !! j); [|done]. by injection Hj as <-.
Qed.

(** C26: The obligations of a verifier report agree with its verdict. For every profile that is made from a schema, every
    critical failure of the result is listed as an obligation with status "fail", under its own identifier or one made
    from its kind and number, whatever the merging of obligations with the same identifier did; and some listed
    obligation fails exactly when the profile does not pass. *)
Theorem obligations_agree_with_verdict b strict schema exposed :
  let pr := profile_result policy_text b strict (schema_profile schema exposed) in
  (forall i f, Verify.CriticalFailures pr !! i = Some f ->
     exists o, o ∈ reportObligations pr /\ Verify.o_ID o = failureObligationID f i /\ Verify.Status o = "fail") /\
  ((exists o, o ∈ reportObligations pr /\ Verify.Status o = "fail") <-> Verify.Pass pr = false).
Proof.
  intros pr.
  assert (Forall no_warning_id (Verify.CriticalFailures pr)) as Hids by (apply checks_ids, Evaluate_ids).
  assert (forall i f, Verify.CriticalFailures pr !! i = Some f ->
     exists o, o ∈ reportObligations pr /\ Verify.o_ID o = failureObligationID f i /\ Verify.Status o = "fail") as Hall.
  { intros i f Hf. by apply Exists_exists, (reported_failure pr i f). }
  split; [exact Hall|]. rewrite <- not_true_iff_false. subst pr. set (pr := profile_result _ _ _ _) in *. unfold profile_result in pr.
  assert (Verify.Pass pr = true <-> Verify.CriticalFailures pr = []) as -> by apply Verify.checks_Pass. split.
  - intros Hx E. apply Exists_exists in Hx. apply reported_origin in Hx as [?|Hx]; [done|].
    assert (Verify.Obligations pr = Verify.schemaObligations schema (Profiles.Evaluate schema b)) as Ho.
    { subst pr. unfold Verify.applyPolicyDecisionSignatureChecks. by destruct (Verify.inspectPolicyDecisionSignatures _ _) as [[ws ns] fs]. }
    rewrite Ho in Hx. apply schema_origin in Hx. apply Verify.checks_failures in E as [E _]. by apply Hx.
  - intros Hne. destruct (Verify.CriticalFailures pr) as [|f fs] eqn:E; [done|].
    destruct (Hall 0%nat f eq_refl) as (o & Ho & _ & Hf). by exists o.
Qed.
End obligations.

Section gate.
Context `{RangeOrder} `{Unicode} `{Crypto}.
Context (VerifyTokenDetailed : bytes -> bytes -> TokenVerification * option string).
Context (anchor_text : anchor_error -> string) (temporary : option string) (encode_text : string).
Context (policy_text : Policy.policy_error -> string) (verify_text : verify_failure -> string).
Context (type_name : any -> string) (json_text : string -> string).

#[local] Abbreviation prepare :=
  (prepareVerificationReport VerifyTokenDetailed anchor_text temporary encode_text verify_text type_name json_text).
#[local] Abbreviation evaluate_bundle :=
  (EvaluateBundle VerifyTokenDetailed anchor_text temporary encode_text policy_text verify_text type_name json_text).
#[local] Abbreviation is_assured := (assured VerifyTokenDetailed anchor_text temporary encode_text).

Lemma required_risk_fields r :
  Results (applyRequiredAnchorRisk r) = Results r /\ Anchoring (applyRequiredAnchorRisk r) = Anchoring r /\
  Integrity (applyRequiredAnchorRisk r) = Integrity r.
Proof. unfold applyRequiredAnchorRisk. destruct (_ || _); [done|]. cbv zeta. by destruct (String.eqb _ _). Qed.

Lemma EvaluateBundle_fields cfg opts file missing b r :
  evaluate_bundle cfg opts file missing = Ok r -> load_input cfg file missing = Ok b ->
  let strict := strictSourceSignatures opts || StrictSourceSignatures cfg in
  let prepared := (prepare (Some b) (c_BundlePath cfg) (c_AnchorRequired cfg)).1 in
  Results r = map (profile_result policy_text b strict) (selected_profiles cfg b) /\
  Anchoring r = Anchoring prepared /\ Integrity r = Integrity prepared.
Proof.
  intros Hr Hb. unfold EvaluateBundle in Hr.
  destruct (_ && negb (AllApplicable cfg)); [done|]. destruct ((_ =? 0)%nat && _); [done|].
  destruct (nonempty _ && _ && _); [done|]. rewrite Hb in Hr.
  destruct (RequireValidChain cfg && _); [done|]. apply Ok_inj in Hr. rewrite <- Hr. clear Hr. cbv zeta.
  set (strict := strictSourceSignatures opts || StrictSourceSignatures cfg).
  assert (forall c r, Results (corroborated_report encode_text c b r) = Results r /\
    Anchoring (corroborated_report encode_text c b r) = Anchoring r /\ Integrity (corroborated_report encode_text c b r) = Integrity r)
    as Hc by (by intros []).
  destruct (Hc (corroboration opts) (with_gaps (DeriveProvabilityGaps 4 (applyRequiredAnchorRisk (loaded_report VerifyTokenDetailed anchor_text
    temporary encode_text policy_text verify_text type_name json_text (Some b) (c_BundlePath cfg) (Some <$> omap (fun p => p) (Profiles_ cfg))
    (AllApplicable cfg) (c_AnchorRequired cfg) strict))) (applyRequiredAnchorRisk (loaded_report VerifyTokenDetailed anchor_text
    temporary encode_text policy_text verify_text type_name json_text (Some b) (c_BundlePath cfg) (Some <$> omap (fun p => p) (Profiles_ cfg))
    (AllApplicable cfg) (c_AnchorRequired cfg) strict)))) as (-> & -> & ->).
  cbn [with_gaps Results Anchoring Integrity].
  destruct (required_risk_fields (loaded_report VerifyTokenDetailed anchor_text
    temporary encode_text policy_text verify_text type_name json_text (Some b) (c_BundlePath cfg) (Some <$> omap (fun p => p) (Profiles_ cfg))
    (AllApplicable cfg) (c_AnchorRequired cfg) strict)) as (-> & -> & ->).
  unfold loaded_report.
  destruct (evaluated_fields VerifyTokenDetailed anchor_text temporary encode_text policy_text verify_text type_name json_text
    b (c_BundlePath cfg) (Some <$> omap (fun p => p) (Profiles_ cfg)) (AllApplicable cfg) (c_AnchorRequired cfg) strict) as (-> & -> & _).
  split; [|done]. unfold evaluateLoadedBundle. cbv zeta. cbn [with_gaps Results]. rewrite omap_some.
  unfold applyRetrospectiveProvenance, selected_profiles. by destruct (isRetrospectiveImportBundle b).
Qed.

Lemma inspected_status b path :
  i_Status (inspect VerifyTokenDetailed anchor_text temporary encode_text b path) = "verified" <->
  ClassifyAnchor VerifyTokenDetailed anchor_text temporary encode_text b path = AnchorVerified.
Proof.
  unfold ClassifyAnchor, inspect, inspectAnchor. cbv zeta. destruct b as [b|]; [|done].
  destruct (latestAnchorTokenBytes b) as [[i [payload token]]|]; [|done]. destruct token as [[|c t]|e]; [done| |done].
  destruct (String.eqb _ _); [done|]. destruct (hashBundleSnapshotBeforeAnchor _ _ _ _); [|done].
  destruct (VerifyTokenDetailed _ _) as [v [text|]]; [|done]. cbv zeta. by destruct (isChainNotVerifiedAnchorError text).
Qed.

Lemma verdict_of cfg opts file missing b r :
  evaluate_bundle cfg opts file missing = Ok r -> load_input cfg file missing = Ok b ->
  let strict := strictSourceSignatures opts || StrictSourceSignatures cfg in
  v_Pass (ReportFromVerify r) = g_Pass (Gate (ReportFromVerify r)) /\
  (v_Pass (ReportFromVerify r) = true <->
   exists p rest, selected_profiles cfg b = p :: rest /\ is_assured b (c_BundlePath cfg) (c_AnchorRequired cfg) strict p).
Proof.
  intros Hr Hb strict. destruct (EvaluateBundle_fields _ _ _ _ _ _ Hr Hb) as (Hres & Hanc & Hint).
  cbv zeta in *. unfold ReportFromVerify. rewrite Hres. fold strict. destruct (selected_profiles cfg b) as [|p rest]; cbn [map].
  { cbn [v_Pass Gate]. split; [unfold gateResultFromVerify; rewrite andb_false_r; by destruct (AnchorRequired _)|].
    split; [done|]. by intros (p & rest & ? & _). }
  cbn [v_Pass Gate]. split; [done|].
  transitivity (is_assured b (c_BundlePath cfg) (c_AnchorRequired cfg) strict p); [|split; [eauto|by intros (? & ? & [= -> ->] & ?)]].
  unfold gateResultFromVerify, assured. rewrite Hanc, Hint.
  pose proof (prepare_valid VerifyTokenDetailed anchor_text temporary encode_text verify_text type_name json_text b
    (c_BundlePath cfg) (c_AnchorRequired cfg)) as Hv.
  pose proof (anchoring_verified VerifyTokenDetailed anchor_text temporary encode_text verify_text type_name json_text b
    (c_BundlePath cfg) (c_AnchorRequired cfg)) as Ha.
  pose proof (profile_result_pass policy_text b strict p) as Hp.
  assert (a_Status (Anchoring (prepare (Some b) (c_BundlePath cfg) (c_AnchorRequired cfg)).1) = "verified" <->
    ClassifyAnchor VerifyTokenDetailed anchor_text temporary encode_text (Some b) (c_BundlePath cfg) = AnchorVerified) as Hs.
  { rewrite prepare_anchoring. cbn [a_Status anchoring_of]. apply inspected_status. }
  assert (AnchorRequired (Anchoring (prepare (Some b) (c_BundlePath cfg) (c_AnchorRequired cfg)).1) = c_AnchorRequired cfg) as ->
    by by rewrite prepare_anchoring.
  destruct (c_AnchorRequired cfg); cbn [g_Pass]; rewrite ?andb_true_iff, ?orb_true_iff, ?String.eqb_eq, Hv, Hp, ?Ha, ?Hs; [tauto|].
  intuition discriminate.
Qed.

(** The verdict for other programs. The verifier report of what EvaluateBundle returns passes exactly when there is a
    selected profile and, for the first one, the hash chain verifies, the evaluation has no critical failure, every
    policy decision is signed as the mode asks, and, if an anchor is required, the bundle's anchor is verified. The
    verdict is the one of the gate. *)
Theorem verifier_report_passes cfg opts file missing b r :
  evaluate_bundle cfg opts file missing = Ok r -> load_input cfg file missing = Ok b ->
  let strict := strictSourceSignatures opts || StrictSourceSignatures cfg in
  v_Pass (ReportFromVerify r) = g_Pass (Gate (ReportFromVerify r)) /\
  (v_Pass (ReportFromVerify r) = true <->
   exists p rest, selected_profiles cfg b = p :: rest /\ is_assured b (c_BundlePath cfg) (c_AnchorRequired cfg) strict p).
Proof. exact (verdict_of cfg opts file missing b r). Qed.
End gate.

(** ** Examples *)

Section examples.
#[local] Existing Instance ascii_only.
#[local] Existing Instance BundleSign.toy.

Lemma verifier_report_passes_witness :
  v_Pass (ReportFromVerify privileged_report) = true <->
  exists p rest, selected_profiles privileged_config (Records privileged_config) = p :: rest /\
    assured untrusted (fun _ => "") None "" (Records privileged_config) (c_BundlePath privileged_config)
      (c_AnchorRequired privileged_config)
      (strictSourceSignatures (mkOpts None false) || StrictSourceSignatures privileged_config) p.
Proof.
  exact (proj2 (@verifier_report_passes (ordered []) ascii_only BundleSign.toy untrusted (fun _ => "") None "" (fun _ => "")
    (fun _ => "") (fun _ => "") (fun _ => "") privileged_config (mkOpts None false) None false
    (Records privileged_config) privileged_report privileged_report_ok
    (load_records privileged_config None false action_bundle_nonempty))).
Defined.

(** The verdict of the complete action: its obligations are met, its decision is not signed. *)
Example verdicts :
  (fun r => (v_Pass r, map Verify.Status (v_Obligations r))) (ReportFromVerify privileged_report) =
    (true, replicate 9 "pass" ++ ["warning"; "warning"]).
Proof. vm_compute. reflexivity. Qed.

(** Failures of one relation share an identifier: both are counted, one is listed. *)
Example one_relation_listed_once :
  let f d := Profiles.mkFailure "relation:r" "relation_violation" d in
  map (fun o => (Verify.o_ID o, Verify.Status o, Verify.o_Message o))
    (reportObligations (Verify.mkProfileResult "p" 1 "w" false [f "one"; f "two"; Profiles.mkFailure "" "k" "three"] ["w"] []
       [Verify.mkObligation "relation:r" "relation" "" "critical" "fail" "one"])) =
  [("relation:r", "fail", "two"); ("failure:k:3", "fail", "three"); ("warning:1", "warning", "w")].
Proof. vm_compute. reflexivity. Qed.

Example event_types :
  map failureEventType ["required:a.b:field:c"; "required:a.b"; "optional:a.b"; "required_when:a:when:b"; "required_when:a"; "relation:r"]
  = ["a.b"; "a.b"; "a.b"; "a"; ""; ""].
Proof. vm_compute. reflexivity. Qed.
End examples.
End VerifyReport.
