(* ===== verification/TrustReport.v ===== *)
(** * Package internal/verify: the trust report of the auditor

    [trust_report.go]: the report of a verification as the structure that [atb trust-report]
    and the compliance pack write, with a section of evidence for each part of a profile.
    Theorems: how its verdict relates to the one of the verifier report, what the verdict
    on policy documents means, and when the section on an action passes. *)

From S2P Require Import Prelude GoText Sha256 GoFloat GoJson GoValue GoUnicode GoTime GoStruct Canonicalize Event HashChain Bundle BundleIO BundleSign Profiles Templates Policy Verify Score AnchorClassify Report VerifyReport.
Import Bundle.

Module TrustReport.
Import Score AnchorClassify Report.

Definition missingTrustFieldValue : string := "[missing]".

Record TrustChainSection := mkChain {
  Valid : bool;
  RecordCount : Z;
  c_FirstSeq : Z;
  c_LastSeq : Z;
  c_Canonicalisation : string;
  c_HashAlgo : string
}.

Record TrustAnchorSection := mkTrustAnchor {
  t_Present : bool;
  t_Status : string;
  t_Summary : string;
  t_MessageImprintVerified : bool;
  t_SignatureVerified : bool;
  t_TSAVerified : bool;
  t_CertChainVerified : bool;
  t_Reason : string;
  t_AnchorHash : string
}.

(** The fields in the order of their names. *)
Record TrustSection := mkSection {
  Title : string;
  s_Pass : bool;
  Fields : list (string * string);
  Notes : list string
}.

Record TrustReport := mkTrustReport {
  t_BundlePath : string;
  t_ProfileID : string;
  t_WorkflowClass : string;
  t_Pass : bool;
  t_CAS : option CASResult;
  t_CASScore : float64;
  t_CASGrade : string;
  t_ResidualRisk : string;
  Chain : TrustChainSection;
  t_Anchoring : TrustAnchorSection;
  Sections : list TrustSection;
  Warnings : list string;
  BlindSpots : list string;
  t_ProvabilityGaps : list ProvabilityGap;
  PolicyDocSignatureValid : option bool;
  t_ReviewerIdentities : list VerifyReport.Evidence
}.

(** ** Reading the records *)

Definition hasEventType (b : option bundle) (eventType : string) : bool :=
  match b with
  | None => false
  | Some b => existsb (fun r => String.eqb (Event.Type_ (Event_ r)) eventType) b
  end.

(** A field of the first record of a type, trimmed; nothing if that record has no such text. *)
Definition firstEventField (b : option bundle) (eventType fieldName : string) : string :=
  match b with
  | None => ""
  | Some b =>
      match List.find (fun r => String.eqb (Event.Type_ (Event_ r)) eventType) b with
      | None => ""
      | Some r =>
          match Event.Data (Event_ r) with
          | AMap fields => match assoc fieldName fields with Some (AString value) => TrimSpace value | _ => "" end
          | _ => ""
          end
      end
  end.

Definition trustFieldValue (value : string) : string := if String.eqb value "" then missingTrustFieldValue else value.

Definition firstNonEmpty (values : list string) : string :=
  default "" (List.find (fun value => negb (String.eqb value "")) values).

Definition digestPresenceNote (fieldName value : string) : string :=
  if negb (String.eqb value "") then fieldName +:+ " present" else fieldName +:+ " absent".

Definition retrievalPresenceNote (present : bool) : string :=
  if present then "ai.retrieval.executed present" else "ai.retrieval.executed absent: retrieval step not recorded".

Definition nonblank (s : string) : bool := negb (String.eqb s "").

(** The order in which missing events are named. *)
Definition event_order : list string :=
  ["ai.job.scheduled"; "ai.job.started"; "ai.job.completed"; "ai.action.precommit"; "ai.action.executed"; "ai.action.committed"].

Definition missingEventNotes (presence : list (string * bool)) (mismatchNote : string) : list string :=
  let notes := omap (fun eventType =>
    match assoc eventType presence with Some false => Some (eventType +:+ " missing") | _ => None end) event_order in
  match notes with [] => [mismatchNote] | _ => notes end.

Section build.
Context `{Unicode}.

Definition outcomeNote (label value : string) : string :=
  let trimmed := TrimSpace value in
  let lower := ToLower trimmed in
  if bool_decide (lower ∈ ["allow"; "deny"; "approved"; "rejected"]) then label +:+ ": " +:+ lower
  else if String.eqb lower "" then label +:+ ": " +:+ missingTrustFieldValue
  else label +:+ ": " +:+ trimmed.

Definition buildRequestTrustSection (b : option bundle) : TrustSection :=
  let field := firstEventField b "ai.request.received" in
  mkSection "Request" (nonblank (field "request_id") && nonblank (field "actor_id_hash") && nonblank (field "purpose_tag"))
    [("actor_id_hash", trustFieldValue (field "actor_id_hash")); ("purpose_tag", trustFieldValue (field "purpose_tag"));
     ("request_id", trustFieldValue (field "request_id"))] [].

Definition buildPolicyDecisionTrustSection (b : option bundle) : TrustSection :=
  let field := firstEventField b "ai.policy.decision" in
  mkSection "Policy decision"
    (nonblank (field "policy_id") && nonblank (field "policy_version") && nonblank (field "decision") && nonblank (field "action_id"))
    [("decision", trustFieldValue (field "decision")); ("policy_id", trustFieldValue (field "policy_id"))]
    [outcomeNote "decision" (field "decision")].

Definition buildActionGateTrustSection (b : option bundle) : TrustSection :=
  let precommitPresent := hasEventType b "ai.action.precommit" in
  let executedPresent := hasEventType b "ai.action.executed" in
  let committedPresent := hasEventType b "ai.action.committed" in
  let precommitActionID := firstEventField b "ai.action.precommit" "action_id" in
  let executedActionID := firstEventField b "ai.action.executed" "action_id" in
  let committedActionID := firstEventField b "ai.action.committed" "action_id" in
  let actionGatePass := precommitPresent && executedPresent && committedPresent && nonblank precommitActionID &&
    String.eqb precommitActionID executedActionID && String.eqb precommitActionID committedActionID in
  mkSection "Action gate" actionGatePass
    [("action_id", trustFieldValue (firstNonEmpty [precommitActionID; executedActionID; committedActionID]))]
    (if actionGatePass then ["precommit → execute → commit chain intact"]
     else missingEventNotes [("ai.action.precommit", precommitPresent); ("ai.action.executed", executedPresent);
                             ("ai.action.committed", committedPresent)]
            "action_id mismatch across ai.action.precommit, ai.action.executed, ai.action.committed").

Definition rag_sections (b : option bundle) : list TrustSection :=
  let request := firstEventField b "ai.request.received" in
  let model := firstEventField b "ai.model.invoked" in
  let requestID := request "request_id" in
  let responseNote :=
    if hasEventType b "ai.response.sent" then
      if nonblank requestID && String.eqb requestID (firstEventField b "ai.response.sent" "request_id")
      then "ai.response.sent present, request_id bound"
      else "ai.response.sent present, request_id not bound to ai.request.received"
    else "ai.response.sent absent" in
  [buildRequestTrustSection b;
   mkSection "Model invocation"
     (nonblank (model "model_provider") && nonblank (model "model_id") && nonblank (model "model_parameters_digest") &&
      nonblank (model "prompt_digest"))
     [("model_id", trustFieldValue (model "model_id")); ("model_provider", trustFieldValue (model "model_provider"))]
     [digestPresenceNote "model_parameters_digest" (model "model_parameters_digest")];
   mkSection "Retrieval" true [] [retrievalPresenceNote (hasEventType b "ai.retrieval.executed")];
   mkSection "Response" true [] [responseNote]].

Definition job_sections (b : option bundle) : list TrustSection :=
  let scheduled := firstEventField b "ai.job.scheduled" in
  let jobID := scheduled "job_id" in
  let scheduledPresent := hasEventType b "ai.job.scheduled" in
  let startedPresent := hasEventType b "ai.job.started" in
  let completedPresent := hasEventType b "ai.job.completed" in
  let jobExecutionPass := scheduledPresent && startedPresent && completedPresent && nonblank jobID &&
    String.eqb jobID (firstEventField b "ai.job.started" "job_id") &&
    String.eqb jobID (firstEventField b "ai.job.completed" "job_id") in
  [mkSection "Job scheduling"
     (nonblank jobID && nonblank (scheduled "job_type") && nonblank (scheduled "trigger_source") &&
      nonblank (scheduled "scheduled_by_id_hash"))
     [("job_id", trustFieldValue jobID); ("job_type", trustFieldValue (scheduled "job_type"))] [];
   mkSection "Job execution" jobExecutionPass
     [("outcome", trustFieldValue (firstEventField b "ai.job.completed" "outcome"))]
     (if jobExecutionPass then ["job_id consistent across scheduled/started/completed"]
      else missingEventNotes [("ai.job.scheduled", scheduledPresent); ("ai.job.started", startedPresent);
                              ("ai.job.completed", completedPresent)]
             "job_id mismatch across ai.job.scheduled, ai.job.started, ai.job.completed")].

Definition approval_section (b : option bundle) : TrustSection :=
  let field := firstEventField b "ai.human.approval" in
  mkSection "Human approval"
    (nonblank (field "approval_id") && nonblank (field "approver_id_hash") && nonblank (field "approval_outcome") &&
     nonblank (field "action_id"))
    [("approval_outcome", trustFieldValue (field "approval_outcome"))]
    [outcomeNote "approval_outcome" (field "approval_outcome")].

Definition buildTrustSections (r : Report) (b : option bundle) : list TrustSection :=
  match Results r with
  | [] => []
  | profile :: _ =>
      let id := Verify.ProfileID profile in
      if String.eqb id profileIDRAGAnswer then rag_sections b
      else if String.eqb id profileIDPrivilegedToolAction || String.eqb id profileIDDataExport then
        [buildRequestTrustSection b; buildPolicyDecisionTrustSection b; buildActionGateTrustSection b]
      else if String.eqb id profileIDBackgroundAutomation then job_sections b
      else if String.eqb id profileIDPolicyDecision then [buildRequestTrustSection b; buildPolicyDecisionTrustSection b]
      else if String.eqb id profileIDHumanOverride then
        [buildRequestTrustSection b; approval_section b; buildActionGateTrustSection b]
      else [mkSection "Evidence summary" true [] (Verify.InformationalNotes profile)]
  end.

Context `{Crypto}.

(** The fields of a policy decision that names a document. *)
Definition names_document (r : Record_) : option (list (string * any)) :=
  if String.eqb (Event.Type_ (Event_ r)) Policy.TypeAIPolicyDecision then
    match Event.Data (Event_ r) with
    | AMap fields => if Verify.has_doc_hash fields then Some fields else None
    | _ => None
    end
  else None.

Definition computePolicyDocSignatureValid (b : option bundle) : option bool :=
  match b with
  | None => None
  | Some b =>
      match omap names_document (b : list Record_) with
      | [] => None
      | decisions => Some (forallb (fun fields => is_ok (Policy.VerifyPolicyDocSignature (Some fields))) decisions)
      end
  end.

Definition TrustReportFromVerify (r : Report) (b : option bundle) : TrustReport :=
  let integrity := Integrity r in
  let a := Anchoring r in
  let cas := match CAS r with Some c => if IntegrityValid c then Some c else None | None => None end in
  let first {A} (f : Verify.ProfileResult -> A) (d : A) := match Results r with p :: _ => f p | [] => d end in
  mkTrustReport (BundlePath r) (first Verify.ProfileID "") (first Verify.WorkflowClass "")
    (first (fun p => ChainValid integrity && Verify.Pass p) false) cas
    (match cas with Some c => Overall c | None => zero end) (match cas with Some c => Grade c | None => "" end)
    (Level (Risk r))
    (mkChain (ChainValid integrity) (match b with Some b => Z.of_nat (length (b : list Record_)) | None => 0 end)
       (FirstSeq integrity) (LastSeq integrity) (Canonicalization integrity) (HashAlgo integrity))
    (mkTrustAnchor (a_Present a) (a_Status a) (a_Summary a) (a_MessageImprintVerified a) (a_SignatureVerified a)
       (TSAVerified a) (a_CertChainVerified a) (a_Reason a) (a_Hash a))
    (buildTrustSections r b) (first Verify.RequiredWarnings []) (Exclusions r) (ProvabilityGaps r)
    (computePolicyDocSignatureValid b) (VerifyReport.Extract b).
End build.

(** ** The verdict *)

Section verdict.
Context `{RangeOrder} `{Unicode} `{Crypto}.
Context (VerifyTokenDetailed : bytes -> bytes -> TokenVerification * option string).
Context (anchor_text : anchor_error -> string) (temporary : option string) (encode_text : string).
Context (policy_text : Policy.policy_error -> string) (verify_text : verify_failure -> string).
Context (type_name : any -> string) (json_text : string -> string).

#[local] Abbreviation evaluate_bundle :=
  (EvaluateBundle VerifyTokenDetailed anchor_text temporary encode_text policy_text verify_text type_name json_text).
#[local] Abbreviation is_assured := (assured VerifyTokenDetailed anchor_text temporary encode_text).
#[local] Abbreviation classify := (ClassifyAnchor VerifyTokenDetailed anchor_text temporary encode_text).

(** C24: The verdict of the trust report leaves the anchor out. For what EvaluateBundle returns, the trust report passes
    exactly when there is a selected profile and, for the first one, the chain verifies, the evaluation has no critical
    failure and every policy decision is signed as the mode asks, whether an anchor is required or not; the verifier
    report of the same evaluation passes exactly when the trust report does and, if an anchor is required, the
    bundle's anchor is verified. The two reports of a compliance pack, which requires no anchor, agree. *)
Theorem trust_verdict cfg opts file missing b r b' :
  evaluate_bundle cfg opts file missing = Ok r -> load_input cfg file missing = Ok b ->
  let strict := strictSourceSignatures opts || StrictSourceSignatures cfg in
  (t_Pass (TrustReportFromVerify r b') = true <->
   exists p rest, selected_profiles cfg b = p :: rest /\ is_assured b (c_BundlePath cfg) false strict p) /\
  (VerifyReport.v_Pass (VerifyReport.ReportFromVerify r) = true <->
   t_Pass (TrustReportFromVerify r b') = true /\ (c_AnchorRequired cfg = true -> classify (Some b) (c_BundlePath cfg) = AnchorVerified)).
Proof.
  intros Hr Hb strict. pose proof (VerifyReport.verdict_of VerifyTokenDetailed anchor_text temporary encode_text policy_text
    verify_text type_name json_text cfg opts file missing b r Hr Hb) as [_ Hv].
  cbv zeta in Hv. fold strict in Hv. rewrite Hv.
  destruct (VerifyReport.EvaluateBundle_fields _ _ _ _ _ _ _ _ _ _ _ _ _ _ Hr Hb) as (Hres & _ & Hint).
  unfold TrustReportFromVerify. cbv zeta in *. cbn [t_Pass]. rewrite Hres, Hint. fold strict.
  pose proof (prepare_valid VerifyTokenDetailed anchor_text temporary encode_text verify_text type_name json_text b
    (c_BundlePath cfg) (c_AnchorRequired cfg)) as Hvalid.
  unfold assured. destruct (selected_profiles cfg b) as [|p rest]; cbn [map].
  - split; [split; [done|by intros (? & ? & ? & _)]|]. split; [by intros (? & ? & ? & _)|by intros [? _]].
  - rewrite andb_true_iff, Hvalid, profile_result_pass. split.
    + split; [intros (? & ? & ?); exists p, rest; split_and!; done|]. intros (? & ? & [= <- <-] & ? & ? & ? & _). done.
    + split; [intros (? & ? & [= <- <-] & ? & ? & ? & ?); done|]. intros [(? & ? & ?) ?]. exists p, rest. split_and!; done.
Qed.
End verdict.

(** ** The policy documents *)

Section documents.
Context `{Unicode} `{Crypto}.

Definition verified_document (r : Record_) : Prop :=
  forall fields, names_document r = Some fields -> Policy.VerifyPolicyDocSignature (Some fields) = Ok tt.

Lemma strict_document r : Verify.signed_decision true r -> verified_document r.
Proof.
  unfold Verify.signed_decision, verified_document, names_document. intros Hs fields.
  destruct (String.eqb_spec (Event.Type_ (Event_ r)) Policy.TypeAIPolicyDecision) as [E|]; [|done].
  destruct (Hs E) as (l & -> & _ & Hd). destruct (Verify.has_doc_hash l) eqn:Hh; [|done]. intros [= <-].
  destruct (Hd eq_refl) as [?|[? _]]; done.
Qed.

Definition document_ok (fields : list (string * any)) : bool := is_ok (Policy.VerifyPolicyDocSignature (Some fields)).

Lemma documents_ok (l : list Record_) : forallb document_ok (omap names_document l) = true <-> Forall verified_document l.
Proof.
  rewrite forallb_Forall_iff. induction l as [|r l IH]; [by split; constructor|]. cbn [omap list_omap]. rewrite Forall_cons, <- IH.
  unfold verified_document. destruct (names_document r) as [f|]; [|naive_solver]. rewrite Forall_cons.
  assert (document_ok f = true <-> Policy.VerifyPolicyDocSignature (Some f) = Ok tt) as ->; [|naive_solver].
  unfold document_ok. by destruct (Policy.VerifyPolicyDocSignature (Some f)) as [[]|].
Qed.

Lemma documents_none (l : list Record_) : omap names_document l = [] <-> Forall (fun r => names_document r = None) l.
Proof.
  induction l as [|r l IH]; [by split|]. cbn [omap list_omap]. rewrite Forall_cons, <- IH. by destruct (names_document r); naive_solver.
Qed.

Lemma documents_some (l : list Record_) : omap names_document l <> [] <-> Exists (fun r => is_Some (names_document r)) l.
Proof.
  induction l as [|r l IH]; [by rewrite Exists_nil|]. cbn [omap list_omap]. rewrite Exists_cons, <- IH.
  destruct (names_document r) as [f|]; [split; [by left|done]|]. split; [by right|]. by intros [[? ?]|?].
Qed.

(** The verdict on policy documents: there is none exactly when no policy decision of the bundle names a document; it
    is true exactly when some decision does and the signature over the document of every one that does verifies. In
    particular it is never false for a bundle whose decisions are signed as strict mode asks. *)
Theorem doc_signatures_decide (b : bundle) :
  (computePolicyDocSignatureValid (Some b) = None <-> Forall (fun r => names_document r = None) b) /\
  (computePolicyDocSignatureValid (Some b) = Some true <->
   Exists (fun r => is_Some (names_document r)) b /\ Forall verified_document b) /\
  (Forall (Verify.signed_decision true) b -> computePolicyDocSignatureValid (Some b) <> Some false).
Proof.
  pose proof (documents_ok b) as Hok. pose proof (documents_none b) as Hnone. unfold computePolicyDocSignatureValid. fold document_ok.
  rewrite <- documents_some, <- Hnone, <- Hok. destruct (omap names_document _) as [|f fs] eqn:E; split_and!; try done.
  - split; [done|]. by intros [? _].
  - split; [|by intros [_ ->]]. intros Hf. apply (f_equal (default false)) in Hf. split; [done|exact Hf].
  - intros Hs Hf. apply (f_equal (default true)) in Hf. assert (Forall verified_document b) as Hall by (eapply Forall_impl; [exact Hs|apply strict_document]).
    apply Hok in Hall. change (forallb document_ok (f :: fs) = false) in Hf. congruence.
Qed.
End documents.

(** ** Examples *)

Section verdict_example.
#[local] Existing Instance ascii_only.
#[local] Existing Instance BundleSign.toy.

(** The complete action of the report's example, which is not signed. *)
Lemma trust_verdict_witness :
  (t_Pass (TrustReportFromVerify privileged_report None) = true <->
   exists p rest, selected_profiles privileged_config (Records privileged_config) = p :: rest /\
     assured untrusted (fun _ => "") None "" (Records privileged_config) (c_BundlePath privileged_config)
       false (strictSourceSignatures (mkOpts None false) || StrictSourceSignatures privileged_config) p).
Proof.
  exact (proj1 (@trust_verdict (ordered []) ascii_only BundleSign.toy untrusted (fun _ => "") None "" (fun _ => "")
    (fun _ => "") (fun _ => "") (fun _ => "") privileged_config (mkOpts None false) None false
    (Records privileged_config) privileged_report None privileged_report_ok
    (load_records privileged_config None false action_bundle_nonempty))).
Defined.

End verdict_example.

Section documents_example.
#[local] Existing Instance ascii_only.
#[local] Existing Instance Policy.toy_scheme.

(** A decision with its document, signed. *)
Definition signed_fields : list (string * any) :=
  match Policy.sign_payload Policy.toy_sign Policy.toy_public Policy.TypeAIPolicyDecision (AMap Policy.sample_decision) "policy.md"
          "key.pem" (Some (B "rules")) (Some Policy.toy_key) with
  | Ok (AMap l) => l
  | _ => []
  end.

Definition decision_record (fields : list (string * any)) : Record_ :=
  mkRecord (Event.mk 1 "" Policy.TypeAIPolicyDecision "" (AMap fields) None None None "" "" "" "" None) "" [] [] false.

Lemma signed_fields_verify :
  Policy.VerifyPolicyDecision (Some signed_fields) = Ok tt /\ Policy.VerifyPolicyDocSignature (Some signed_fields) = Ok tt /\
  is_Some (names_document (decision_record signed_fields)).
Proof. split; [vm_compute; reflexivity|]. split; [vm_compute; reflexivity|]. eexists. vm_compute. reflexivity. Qed.

Lemma doc_signatures_decide_witness :
  Forall (Verify.signed_decision true) [decision_record signed_fields] /\
  computePolicyDocSignatureValid (Some [decision_record signed_fields]) = Some true /\
  computePolicyDocSignatureValid (Some [decision_record signed_fields]) <> Some false.
Proof.
  destruct signed_fields_verify as (H1 & H2 & H3).
  assert (Forall (Verify.signed_decision true) [decision_record signed_fields]) as Hs.
  { constructor; [|constructor]. intros _. exists signed_fields. split; [reflexivity|]. split; [left; exact H1|]. intros _. left. exact H2. }
  destruct (doc_signatures_decide [decision_record signed_fields]) as (_ & [_ Ht] & Hf).
  split; [exact Hs|]. split; [|exact (Hf Hs)]. apply Ht. split; [by constructor|].
  constructor; [|constructor]. apply strict_document. by apply Forall_inv in Hs.
Defined.

(** Outside strict mode a bundle can pass while the verdict on its documents is negative. *)
Example unsigned_document :
  let b := [decision_record [("decision", AString "allow"); (Policy.FieldPolicyDocHash, AString "ab")]] in
  computePolicyDocSignatureValid (Some b) = Some false /\
  Verify.Pass (Verify.applyPolicyDecisionSignatureChecks (Verify.mkProfileResult "p" 1 "w" true [] [] [] [])
    (Verify.inspectPolicyDecisionSignatures (fun _ => "") b) false) = true.
Proof. vm_compute. split; reflexivity. Qed.

(** Two actions, each complete, the second executed first: the profile has no failure, and
    the section reports that the identifiers do not match. *)
Definition two_actions : list Record_ :=
  imap (fun i p => sample_event (Z.of_nat i) p.1 (map (fun kv => (kv.1, if String.eqb kv.1 "action_id" then p.2.1 else kv.2)) p.2.2))
    [("atb.bundle.manifest", ("", []));
     ("ai.request.received", ("", default [] (assoc "ai.request.received" sample_payloads)));
     ("ai.action.precommit", ("a", default [] (assoc "ai.action.precommit" sample_payloads)));
     ("ai.action.precommit", ("b", default [] (assoc "ai.action.precommit" sample_payloads)));
     ("ai.policy.decision", ("a", default [] (assoc "ai.policy.decision" sample_payloads)));
     ("ai.policy.decision", ("b", default [] (assoc "ai.policy.decision" sample_payloads)));
     ("ai.human.approval", ("a", default [] (assoc "ai.human.approval" sample_payloads)));
     ("ai.action.executed", ("b", default [] (assoc "ai.action.executed" sample_payloads)));
     ("ai.action.executed", ("a", default [] (assoc "ai.action.executed" sample_payloads)));
     ("ai.action.committed", ("a", default [] (assoc "ai.action.committed" sample_payloads)));
     ("ai.action.committed", ("b", default [] (assoc "ai.action.committed" sample_payloads)))].

(** The section on the action gate looks at the first record of each type only. For two actions that are each
    precommitted, decided, executed and committed, of which the second is executed first, the profile for privileged
    tool actions has no critical failure while the section does not pass and reports a mismatch of identifiers. *)
Theorem interleaved_actions_reported :
  Verify.CriticalFailures (evaluate privileged two_actions) = [] /\
  buildActionGateTrustSection (Some two_actions) =
    mkSection "Action gate" false [("action_id", "a")]
      ["action_id mismatch across ai.action.precommit, ai.action.executed, ai.action.committed"].
Proof. split; vm_compute; reflexivity. Qed.

Example complete_action_sections :
  map (fun s => (Title s, s_Pass s)) [buildRequestTrustSection (Some sample_action); buildPolicyDecisionTrustSection (Some sample_action);
    buildActionGateTrustSection (Some sample_action)] = [("Request", true); ("Policy decision", true); ("Action gate", true)] /\
  Notes (buildActionGateTrustSection (Some (take 4 sample_action))) = ["ai.action.executed missing"; "ai.action.committed missing"] /\
  outcomeNote "decision" " ALLOW " = "decision: allow" /\ outcomeNote "decision" " " = "decision: [missing]".
Proof. vm_compute. repeat split. Qed.
End documents_example.
End TrustReport.
