(* ===== verification/TrustGate.v ===== *)
(** * Package internal/trust: the trust gate

    [report.go], [cas.go] and [anchors.go], with the list of [trust_embed.go]: the report of
    [atb trust-report] in text and Markdown, with its categories of checks, the gate, the
    summary and the section on the score; and the verification of every anchor of a bundle.
    Files under the repository root, the time and the token verification are arguments, and
    every load of the bundle is one of its own. Theorems: when the gate passes, what the status of the
    report says, and what an anchor's result depends on. *)

From S2P Require Import Prelude GoText Sha256 GoFloat GoJson GoValue GoUnicode GoTime GoStruct Canonicalize Event HashChain Bundle BundleIO BundleSign Profiles Templates Policy Verify Score AnchorClassify Report VerifyReport.
Import Bundle.

Module TrustGate.
Import Score AnchorClassify.

Definition StatusPass : string := "pass".
Definition StatusFail : string := "fail".
Definition StatusWarn : string := "warn".
Definition SeverityCritical : string := "critical".
Definition SeverityAdvisory : string := "advisory".

Record Check := mkCheck {
  ID : string;
  Title : string;
  Status : string;
  Severity : string;
  Blocking : bool;
  Details : string;
  c_Evidence : list string
}.

Record Category := mkCategory { Key : string; cat_Title : string; cat_Status : string; Checks : list Check }.
Record Gate := mkGate { g_Status : string; BlockingFailures : Z; FailedChecks : list string }.
Record Summary := mkSummary { Total : Z; n_Pass : Z; n_Warn : Z; n_Fail : Z }.
Record AnchorQuality := mkQuality { XC : float64; AC : float64; Label : string }.

Record CASSection := mkCASSection {
  cs_ProfileID : string;
  cs_WorkflowClass : string;
  cs_Overall : float64;
  cs_Grade : string;
  cs_SubScores : gmap string float64;
  cs_Weights : gmap string float64;
  cs_AnchorQuality : AnchorQuality
}.

Record TrustGateReport := mkGateReport {
  r_Status : string;
  GeneratedAt : string;
  r_BundlePath : string;
  ChainLength : Z;
  HeadHash : string;
  r_Gate : Gate;
  r_Summary : Summary;
  Categories : list Category;
  r_CAS : option CASSection;
  r_ReviewerIdentities : list VerifyReport.Evidence
}.

(** ** Aggregation *)

(** The first failure decides, else any warning. *)
Definition aggregate (statuses : list string) : string :=
  if existsb (fun s => String.eqb s StatusFail) statuses then StatusFail
  else if existsb (fun s => String.eqb s StatusWarn) statuses then StatusWarn
  else StatusPass.

Definition aggregateStatus (categories : list Category) : string := aggregate (map cat_Status categories).
Definition aggregateChecksStatus (checks : list Check) : string := aggregate (map Status checks).

Definition blocks (c : Check) : bool := Blocking c && negb (String.eqb (Status c) StatusPass).

Definition evaluateGate (categories : list Category) : Gate :=
  let failed := concat (map (fun category =>
    map (fun check => Key category +:+ "." +:+ ID check) (List.filter blocks (Checks category))) categories) in
  mkGate (match failed with [] => StatusPass | _ => StatusFail end) (Z.of_nat (length failed)) failed.

Definition summarize_check (s : Summary) (c : Check) : Summary :=
  let one_if st := if String.eqb (Status c) st then 1 else 0 in
  mkSummary (Total s + 1) (n_Pass s + one_if StatusPass) (n_Warn s + one_if StatusWarn) (n_Fail s + one_if StatusFail).

Definition summarizeChecks (categories : list Category) : Summary :=
  fold_left (fun s category => fold_left summarize_check (Checks category) s) categories (mkSummary 0 0 0 0).

(** A category whose status is the one of its checks. *)
Definition category (key title : string) (checks : list Check) : Category :=
  mkCategory key title (aggregateChecksStatus checks) checks.

(** ** Evidence files *)

(** The files that are embedded in the binary. *)
Definition embedded_evidence : list string :=
  ["SECURITY.md"; "docs/specification/bundle-v1.md"; "docs/concepts/trust-model.md"; "docs/getting-started/quickstart.md";
   "docs/maintainers/automation-contract.md"; "schemas/event.v1.json"; "cmd/atb/main_test.go"; "test/golden/golden_test.go";
   "sdk/python/tests/test_properties.py"].

Definition HasEmbeddedTrustEvidence (name : string) : bool := bool_decide (name ∈ embedded_evidence).

Section report.
Context `{RangeOrder} `{Unicode} `{Crypto}.
Context (VerifyTokenDetailed : bytes -> bytes -> TokenVerification * option string).
Context (anchor_text : anchor_error -> string) (temporary : option string) (encode_text : string).
Context (policy_text : Policy.policy_error -> string) (verify_text : verify_failure -> string).
Context (type_name : any -> string) (json_text : string -> string).
(** The path of a file under a directory, if it is a file. *)
Context (file_under : string -> string -> option string).

Definition findEvidencePath (repoRoot repoRelative : string) : option string :=
  let trimmedRoot := TrimSpace repoRoot in
  match (if String.eqb trimmedRoot "" then None else file_under trimmedRoot repoRelative) with
  | Some path => Some path
  | None => if HasEmbeddedTrustEvidence repoRelative then Some repoRelative else None
  end.

Definition evidenceCheck (id title repoRoot repoRelative passDetails warnDetails severity : string) (blocking : bool) : Check :=
  match findEvidencePath repoRoot repoRelative with
  | Some path => mkCheck id title StatusPass severity blocking passDetails [path]
  | None => mkCheck id title StatusWarn severity blocking warnDetails []
  end.

Definition advisory (repoRoot id title repoRelative passDetails warnDetails : string) : Check :=
  evidenceCheck id title repoRoot repoRelative passDetails warnDetails SeverityAdvisory false.

Definition operationalSafetyCategory (repoRoot : string) : Category :=
  category "operational_safety" "Operational Safety"
    [advisory repoRoot "security_policy" "Security Policy" "SECURITY.md" "ATB includes a public security policy."
       "Security policy is missing (expected SECURITY.md).";
     advisory repoRoot "incident_response" "Incident Response" "SECURITY.md" "ATB includes an incident response runbook."
       "Incident response runbook is missing (expected SECURITY.md).";
     advisory repoRoot "security_docs" "Security Hardening Docs" "docs/concepts/trust-model.md"
       "ATB includes operational security guidance."
       "Operational security guidance is missing (expected docs/concepts/trust-model.md)."].

Definition testCoverageCategory (repoRoot : string) : Category :=
  category "test_coverage" "Test Coverage"
    [advisory repoRoot "go_tests" "Go Test Suite" "cmd/atb/main_test.go" "ATB includes the core CLI test suite definition."
       "Core CLI test file is missing (expected cmd/atb/main_test.go).";
     advisory repoRoot "cross_language_oracle" "Cross-Language Oracle" "test/golden/golden_test.go"
       "ATB includes the cross-language canonicalization oracle test."
       "Cross-language oracle test is missing (expected test/golden/golden_test.go).";
     advisory repoRoot "python_property_tests" "Python Property Tests" "sdk/python/tests/test_properties.py"
       "ATB includes the Python property test template for SDK invariants."
       "Property-based test template is missing (expected sdk/python/tests/test_properties.py)."].

Definition documentationCategory (repoRoot : string) : Category :=
  category "documentation" "Documentation"
    [advisory repoRoot "quickstart" "Quickstart Guide" "docs/getting-started/quickstart.md"
       "ATB includes end-user quickstart documentation."
       "Quickstart guide is missing (expected docs/getting-started/quickstart.md).";
     advisory repoRoot "ai_integration" "AI Integration Guide" "docs/maintainers/automation-contract.md"
       "ATB includes the AI integration contract documentation."
       "AI integration contract doc is missing (expected docs/maintainers/automation-contract.md).";
     advisory repoRoot "event_schema" "Event Schema" "schemas/event.v1.json" "ATB includes the event JSON schema."
       "Event schema is missing (expected schemas/event.v1.json)."].

(** ** The chain *)

Definition hash_chain (bundlePath status details : string) : Check :=
  mkCheck "hash_chain" "Hash Chain Verification" status SeverityCritical true details [bundlePath].

Definition chain_check (bundlePath : string) (loaded : result string bundle) : Check :=
  match loaded with
  | Err text => hash_chain bundlePath StatusFail ("Unable to load bundle for verification: " +:+ text)
  | Ok [] => hash_chain bundlePath StatusFail "Bundle is empty; no events available for chain verification."
  | Ok b =>
      match Bundle.Verify b with
      | Err f => hash_chain bundlePath StatusFail ("Hash chain verification failed: " +:+ verify_text f)
      | Ok _ => hash_chain bundlePath StatusPass
                  ("Verified " +:+ show_int (Z.of_nat (length b)) +:+ " event(s); chain is intact.")
      end
  end.

Definition cryptoCategory (bundlePath repoRoot : string) (loaded : result string bundle) : Category :=
  category "cryptographic_integrity" "Cryptographic Integrity"
    [advisory repoRoot "canonicalization_profile" "Canonicalization Profile" "docs/specification/bundle-v1.md"
       "ATB includes the RFC 8785-compatible canonicalization specification."
       "RFC8785-compatible canonicalization spec is missing (expected docs/specification/bundle-v1.md).";
     chain_check bundlePath loaded].

(** ** The profile *)

Definition failure_check (i : nat) (failure : Profiles.CriticalFailure) : Check :=
  mkCheck ("profile_failure_" +:+ show_int (Z.of_nat i + 1)) "Profile Critical Failure" StatusFail SeverityCritical true
    (Profiles.Kind failure +:+ ": " +:+ Profiles.Detail failure) [].

Definition warning_check (i : nat) (warning : string) : Check :=
  mkCheck ("profile_warning_" +:+ show_int (Z.of_nat i + 1)) "Profile Required Warning" StatusWarn SeverityAdvisory false warning [].

Definition profile_checks (profile : Verify.ProfileResult) : list Check :=
  mkCheck "profile_verification" "Profile Verification" StatusPass SeverityCritical true
    ("Profile " +:+ Verify.ProfileID profile +:+ " evaluated.") [] ::
  imap failure_check (Verify.CriticalFailures profile) ++ imap warning_check (Verify.RequiredWarnings profile).

Definition verify_bundle : option bundle -> string -> string -> Report.Report :=
  Report.Verify VerifyTokenDetailed anchor_text temporary encode_text policy_text verify_text type_name json_text.

Definition profileVerificationCategory (bundlePath profileID : string) (loaded : result string bundle) : option Category :=
  let profileID := TrimSpace profileID in
  if String.eqb profileID "" then None
  else
    match loaded with
    | Err _ => None
    | Ok b =>
        match Report.Results (verify_bundle (Some b) bundlePath profileID) with
        | [] => None
        | profile :: _ => Some (category "obligation_profile" "Obligation Profile" (profile_checks profile))
        end
    end.

(** ** The score *)

Definition nano : float64 := round_decimal false 1 (-9).

Definition fabs (x : float64) : float64 := SFabs x.

Definition nearlyEqual (a b : float64) : bool := fltb (fabs (fsub a b)) nano.

Definition anchorQualityLabel (xc ac : float64) : string :=
  if nearlyEqual xc Profiles.one && nearlyEqual ac Profiles.one then "verified"
  else if nearlyEqual xc (hundredths 50) && nearlyEqual ac (hundredths 40) then "digest-only"
  else if nearlyEqual xc (hundredths 10) && nearlyEqual ac zero then "present-degraded"
  else if nearlyEqual xc zero && nearlyEqual ac zero then "absent"
  else "partial".

Definition SubScoresForBundle (b : bundle) (bundlePath profileID : string) : gmap string float64 :=
  let anchorResult := ClassifyAnchor VerifyTokenDetailed anchor_text temporary encode_text (Some b) bundlePath in
  match ProfileByID profileID with None => zeroSubScores | Some p => subScoresForProfile p b anchorResult end.

(** The section, and the warning if the profile is not known. *)
Definition buildCASSection (bundlePath profileID : string) (loaded : result string bundle) : option CASSection * string :=
  let profileID := TrimSpace profileID in
  if String.eqb profileID "" then (None, "")
  else
    match ProfileByID profileID with
    | None => (None, "Profile " +:+ Quote profileID +:+ " was not found; CAS section omitted.")
    | Some profile =>
        if negb (SupportsCAS_id profileID) then (None, "")
        else
          match loaded with
          | Err _ => (None, "")
          | Ok b =>
              let subScores := SubScoresForBundle b bundlePath (p_ID profile) in
              let casResult := ComputeCAS subScores (DefaultWeights profile) (is_ok (Bundle.Verify b)) in
              let xc := score_at subScores "XC" in
              let ac := score_at subScores "AC" in
              (Some (mkCASSection (p_ID profile) (p_WorkflowClass profile) (Overall casResult) (Score.Grade casResult) subScores
                       (DefaultWeights profile) (mkQuality xc ac (anchorQualityLabel xc ac))), "")
          end
    end.

Definition casProfileWarningCategory (details : string) : Category :=
  mkCategory "completeness_assurance" "Completeness Assurance" StatusWarn
    [mkCheck "cas_profile" "CAS Profile Resolution" StatusWarn SeverityAdvisory false details []].

(** ** The report *)

(** The loads of the bundle, one for each place that asks. *)
Record loads := mkLoads {
  for_chain : result string bundle;
  for_profile : result string bundle;
  for_score : result string bundle;
  for_length : result string bundle;
  for_identities : result string bundle
}.

Definition chain_passed (categories : list Category) : bool :=
  existsb (fun category => String.eqb (Key category) "cryptographic_integrity" &&
    existsb (fun check => String.eqb (ID check) "hash_chain" && String.eqb (Status check) StatusPass) (Checks category)) categories.

Definition report_categories (repoRoot bundlePath profileID : string) (l : loads) : list Category :=
  [cryptoCategory bundlePath repoRoot (for_chain l); operationalSafetyCategory repoRoot; testCoverageCategory repoRoot;
   documentationCategory repoRoot] ++
  match profileVerificationCategory bundlePath profileID (for_profile l) with Some c => [c] | None => [] end ++
  let casWarning := (buildCASSection bundlePath profileID (for_score l)).2 in
  if String.eqb casWarning "" then [] else [casProfileWarningCategory casWarning].

Definition BuildReport (now repoRoot bundlePath profileID : string) (l : loads) : TrustGateReport :=
  let categories := report_categories repoRoot bundlePath profileID l in
  let chain := if chain_passed categories then match for_length l with Ok b => b | Err _ => [] end else [] in
  mkGateReport (aggregateStatus categories) now bundlePath (Z.of_nat (length (chain : list Record_)))
    (match last (chain : list Record_) with Some r => Hash r | None => "" end)
    (evaluateGate categories) (summarizeChecks categories) categories
    (buildCASSection bundlePath profileID (for_score l)).1
    (match for_identities l with Ok b => VerifyReport.Extract (Some b) | Err _ => [] end).
End report.

(** ** The anchors of a bundle *)

Record AnchorVerificationResult := mkAnchorResult {
  AnchorIndex : Z;
  BundleDigest : string;
  a_TSAGenTime : string;
  MessageImprintMatch : bool;
  av_TSAVerified : bool;
  av_CertChainVerified : bool;
  Error : string
}.

Record trustAnchorEventData := mkAnchorData { TSAGenTime : string; ad_BundleHash : string; TSRHash : string; ad_TSRDER : string }.

Inductive anchor_problem :=
  NotString | ParseFails (raw : string) | DecodeToken (text : string) | TokenEmpty | FieldEmpty | DigestOnly | DecodeHash (text : string).

Definition anchor_names : list string := ["certified_time"; "bundle_hash"; "tsr_hash"; "tsr_der"].

(** [json.Unmarshal] into [trustAnchorEventData]. *)
Definition decode_anchor_data (raw : string) : option trustAnchorEventData :=
  j ← json_parse (B raw);
  match j with
  | JNull => Some (mkAnchorData "" "" "" "")
  | JObj l =>
      t ← decode_field anchor_names "certified_time" dec_string l "";
      h ← decode_field anchor_names "bundle_hash" dec_string l "";
      r ← decode_field anchor_names "tsr_hash" dec_string l "";
      d ← decode_field anchor_names "tsr_der" dec_string l "";
      Some (mkAnchorData t h r d)
  | _ => None
  end.

Definition isHexDigest (value : string) : bool :=
  (length (B value) =? 64)%nat && match hex_decode (B value) with Some _ => true | None => false end.

Definition decode_token (value : string) : result anchor_problem bytes :=
  match Base64.decode (B value) with
  | None => Err (DecodeToken value)
  | Some [] => Err TokenEmpty
  | Some decoded => Ok decoded
  end.

Definition decodeTSRBytes (tsrDER tsrHash : string) : result anchor_problem bytes :=
  let value := TrimSpace tsrDER in
  if negb (String.eqb value "") then decode_token value
  else
    let value := TrimSpace tsrHash in
    if String.eqb value "" then Err FieldEmpty
    else if isHexDigest value then Err DigestOnly
    else decode_token value.

Section anchors.
Context (VerifyTokenDetailed : bytes -> bytes -> TokenVerification * option string).
Context (problem_text : anchor_problem -> string).

(** The result of one anchor record. *)
Definition verify_anchor (i : nat) (record : Record_) : AnchorVerificationResult :=
  let failed digest time p := mkAnchorResult (Z.of_nat i) digest time false false false (problem_text p) in
  match Event.Data (Event_ record) with
  | AString raw =>
      match decode_anchor_data raw with
      | None => failed "" "" (ParseFails raw)
      | Some data =>
          let failed := failed (ad_BundleHash data) (TSAGenTime data) in
          match decodeTSRBytes (ad_TSRDER data) (TSRHash data) with
          | Err p => failed p
          | Ok tsrBytes =>
              match hex_decode (B (TrimSpace (ad_BundleHash data))) with
              | None => failed (DecodeHash (ad_BundleHash data))
              | Some hashBytes =>
                  let '(v, err) := VerifyTokenDetailed tsrBytes hashBytes in
                  mkAnchorResult (Z.of_nat i) (ad_BundleHash data) (TSAGenTime data) (v_MessageImprint v)
                    (v_MessageImprint v && v_Signature v) (v_CertChain v) (default "" err)
              end
          end
      end
  | _ => failed "" "" NotString
  end.

Definition VerifyAnchors (b : option bundle) : list AnchorVerificationResult :=
  match b with
  | None => []
  | Some b =>
      omap id (imap (fun i record =>
        if String.eqb (Event.Type_ (Event_ record)) AnchorEventType then Some (verify_anchor i record) else None) b)
  end.
End anchors.

(** ** What the gate decides *)

Lemma existsb_status st l : existsb (fun s => String.eqb s st) l = true <-> st ∈ l.
Proof.
  rewrite existsb_exists. split.
  - intros (s & Hin & E%String.eqb_eq). subst. by apply list_elem_of_In.
  - intros Hin. exists st. split; [by apply list_elem_of_In|apply String.eqb_refl].
Qed.

Lemma aggregate_fail l : aggregate l = StatusFail <-> StatusFail ∈ l.
Proof. rewrite <- existsb_status. unfold aggregate. destruct (existsb _ l); [done|]. by destruct (existsb _ l). Qed.

Lemma aggregate_pass l : aggregate l = StatusPass <-> (StatusFail ∉ l) /\ (StatusWarn ∉ l).
Proof.
  rewrite <- !existsb_status. unfold aggregate. destruct (existsb _ l); [by naive_solver|].
  destruct (existsb _ l); naive_solver.
Qed.

(** A check has one of three statuses, and blocks the gate exactly if it fails. *)
Definition consistent (c : Check) : Prop :=
  Status c ∈ [StatusPass; StatusWarn; StatusFail] /\ (blocks c = true <-> Status c = StatusFail).

Definition consistent_category (c : Category) : Prop :=
  cat_Status c = aggregateChecksStatus (Checks c) /\ Forall consistent (Checks c).

Definition all_checks (categories : list Category) : list Check := concat (map Checks categories).

Lemma failed_checks categories :
  length (FailedChecks (evaluateGate categories)) = length (List.filter blocks (all_checks categories)).
Proof.
  unfold evaluateGate, all_checks. cbn [FailedChecks]. induction categories as [|c l IH]; [done|].
  cbn [map concat]. rewrite List.filter_app, !length_app, IH. f_equal. apply length_map.
Qed.

Lemma gate_status categories :
  g_Status (evaluateGate categories) = StatusPass <-> Forall (fun c => blocks c = false) (all_checks categories).
Proof.
  transitivity (length (FailedChecks (evaluateGate categories)) = 0%nat).
  - unfold evaluateGate. cbn [g_Status FailedChecks]. by destruct (concat _).
  - rewrite failed_checks. induction (all_checks categories) as [|c l IH]; [done|]. cbn [List.filter]. rewrite Forall_cons, <- IH.
    destruct (blocks c); naive_solver.
Qed.

Lemma gate_two categories : g_Status (evaluateGate categories) = StatusPass \/ g_Status (evaluateGate categories) = StatusFail.
Proof. unfold evaluateGate. cbn [g_Status]. destruct (concat _); auto. Qed.

Lemma summary_counts categories :
  Forall consistent (all_checks categories) ->
  let s := summarizeChecks categories in
  Total s = n_Pass s + n_Warn s + n_Fail s /\
  n_Fail s = Z.of_nat (length (List.filter blocks (all_checks categories))).
Proof.
  assert (forall l s, Forall consistent l ->
    let s' := fold_left summarize_check l s in
    Total s' - Total s = (n_Pass s' - n_Pass s) + (n_Warn s' - n_Warn s) + (n_Fail s' - n_Fail s) /\
    n_Fail s' - n_Fail s = Z.of_nat (length (List.filter blocks l))) as Hl.
  { induction l as [|c l IH]; intros s Hl; cbn [fold_left List.filter length]; [lia|]. apply Forall_cons in Hl as [[Hs Hb] Hl].
    specialize (IH (summarize_check s c) Hl). cbv zeta in *. destruct IH as [IH1 IH2].
    cbn [summarize_check Total n_Pass n_Warn n_Fail] in IH1, IH2.
    rewrite !elem_of_cons, elem_of_nil in Hs. destruct Hs as [Hs|[Hs|[Hs|[]]]]; rewrite Hs in *; cbn in IH1, IH2.
    - destruct (blocks c); [by destruct Hb as [Hb _]; specialize (Hb eq_refl)|]. lia.
    - destruct (blocks c); [by destruct Hb as [Hb _]; specialize (Hb eq_refl)|]. lia.
    - destruct Hb as [_ Hb]. rewrite (Hb eq_refl). cbn [length]. lia. }
  assert (forall cs s, Forall consistent (all_checks cs) ->
    let s' := fold_left (fun s category => fold_left summarize_check (Checks category) s) cs s in
    Total s' - Total s = (n_Pass s' - n_Pass s) + (n_Warn s' - n_Warn s) + (n_Fail s' - n_Fail s) /\
    n_Fail s' - n_Fail s = Z.of_nat (length (List.filter blocks (all_checks cs)))) as Hc.
  { induction cs as [|c cs IH]; intros s Hs; cbn [fold_left]; [cbn; lia|]. unfold all_checks in *. cbn [map concat] in *.
    apply Forall_app in Hs as [H1 H2]. destruct (Hl (Checks c) s H1) as [L1 L2]. destruct (IH (fold_left summarize_check (Checks c) s) H2) as [I1 I2].
    cbv zeta in *. rewrite List.filter_app, length_app. lia. }
  intros H. destruct (Hc categories (mkSummary 0 0 0 0) H) as [H1 H2]. unfold summarizeChecks. cbn in *. lia.
Qed.

Lemma profile_checks_consistent p :
  Forall consistent (profile_checks p) /\
  (Forall (fun c => blocks c = false) (profile_checks p) <-> Verify.CriticalFailures p = []) /\
  ((StatusWarn ∉ map Status (profile_checks p)) <-> Verify.RequiredWarnings p = []).
Proof.
  unfold profile_checks. assert (forall i f, blocks (failure_check i f) = true) as Hf by done.
  assert (forall i w, blocks (warning_check i w) = false) as Hw by done.
  split_and!.
  - constructor; [split; [by left|done]|]. apply Forall_app. split; apply Forall_lookup; intros j c; rewrite list_lookup_imap;
      destruct (_ !! j); try done; intros [= <-]; split; cbn; try done; set_solver.
  - rewrite Forall_cons, Forall_app. split.
    + intros (_ & Hl & _). destruct (Verify.CriticalFailures p); [done|]. apply Forall_cons in Hl as [? _]. done.
    + intros ->. split; [done|]. split; [constructor|]. apply Forall_lookup. intros j c. rewrite list_lookup_imap.
      destruct (_ !! j); [|done]. by intros [= <-].
  - cbn [map]. rewrite map_app, not_elem_of_cons, not_elem_of_app. split.
    + intros (_ & _ & Hl). destruct (Verify.RequiredWarnings p); [done|]. exfalso. apply Hl. by left.
    + intros ->. split; [done|]. split; [|apply not_elem_of_nil]. intros Hin.
      apply list_elem_of_In, in_map_iff in Hin as (c & Hc & Hin). apply list_elem_of_In, list_elem_of_lookup in Hin as [j Hj].
      rewrite list_lookup_imap in Hj. destruct (_ !! j); [|done]. by injection Hj as <-.
Qed.

Ltac embedded := apply (bool_decide_eq_true_1 _); vm_compute; reflexivity.

Section gate.
Context `{RangeOrder} `{Unicode} `{Crypto}.
Context (VerifyTokenDetailed : bytes -> bytes -> TokenVerification * option string).
Context (anchor_text : anchor_error -> string) (temporary : option string) (encode_text : string).
Context (policy_text : Policy.policy_error -> string) (verify_text : verify_failure -> string).
Context (type_name : any -> string) (json_text : string -> string).
Context (file_under : string -> string -> option string).

#[local] Abbreviation categories_of :=
  (report_categories VerifyTokenDetailed anchor_text temporary encode_text policy_text verify_text type_name json_text file_under).
#[local] Abbreviation build :=
  (BuildReport VerifyTokenDetailed anchor_text temporary encode_text policy_text verify_text type_name json_text file_under).
#[local] Abbreviation profile_category :=
  (profileVerificationCategory VerifyTokenDetailed anchor_text temporary encode_text policy_text verify_text type_name json_text).
#[local] Abbreviation cas_section := (buildCASSection VerifyTokenDetailed anchor_text temporary encode_text).

(** The files that are asked for are in the binary: these checks pass in every directory. *)
Lemma advisory_passes root id title file pass warn :
  file ∈ embedded_evidence ->
  Status (advisory file_under root id title file pass warn) = StatusPass /\
  Blocking (advisory file_under root id title file pass warn) = false.
Proof.
  intros Hf. unfold advisory, evidenceCheck, findEvidencePath. cbv zeta.
  destruct (if String.eqb (TrimSpace root) "" then None else file_under (TrimSpace root) file); [done|].
  unfold HasEmbeddedTrustEvidence. by rewrite bool_decide_eq_true_2.
Qed.

(** A load that gives a bundle with records whose chain verifies. *)
Definition chain_intact (loaded : result string bundle) : Prop :=
  exists b, loaded = Ok b /\ b <> [] /\ Bundle.Verify b = Ok tt.

Lemma chain_check_spec path loaded :
  consistent (chain_check verify_text path loaded) /\ Blocking (chain_check verify_text path loaded) = true /\
  (StatusWarn <> Status (chain_check verify_text path loaded)) /\
  (blocks (chain_check verify_text path loaded) = false <-> chain_intact loaded).
Proof.
  assert (forall st d, blocks (hash_chain path st d) = negb (String.eqb st StatusPass)) as Hb by done.
  assert (forall d, consistent (hash_chain path StatusFail d)) as Hf by (intros d; split; [by right; right; left|done]).
  unfold chain_check, chain_intact. destruct loaded as [[|r b]|text].
  - split_and!; [done..|]. rewrite Hb. split; [done|]. by intros (b & [= <-] & ? & _).
  - destruct (Bundle.Verify (r :: b)) as [[]|f] eqn:Hv.
    + split_and!; [split; [by left|done]|done|done|]. rewrite Hb. split; [|done]. intros _. by exists (r :: b).
    + split_and!; [done..|]. rewrite Hb. split; [done|]. intros (b' & [= <-] & _ & Hv'). congruence.
  - split_and!; [done..|]. rewrite Hb. split; [done|]. by intros (? & ? & _).
Qed.

End gate.

(** ** The report *)

Lemma check_statuses l : Forall consistent l -> Forall (fun s => s ∈ [StatusPass; StatusWarn; StatusFail]) (map Status l).
Proof. intros H. apply Forall_map. eapply Forall_impl; [exact H|]. by intros c [? _]. Qed.

Lemma aggregate_all_pass l :
  Forall (fun s => s ∈ [StatusPass; StatusWarn; StatusFail]) l -> aggregate l = StatusPass <-> Forall (fun s => s = StatusPass) l.
Proof.
  intros Hl. rewrite aggregate_pass. split.
  - intros [Hf Hw]. apply Forall_forall. intros s Hs. rewrite Forall_forall in Hl. specialize (Hl s Hs). set_solver.
  - intros Hp. rewrite Forall_forall in Hp. split; intros Hin; by apply Hp in Hin.
Qed.

Lemma aggregate_range l : aggregate l ∈ [StatusPass; StatusWarn; StatusFail].
Proof. unfold aggregate. repeat (destruct (existsb _ l)); set_solver. Qed.

(** The status of a report is the one its checks would have in one category. *)
Lemma report_status categories :
  Forall consistent_category categories ->
  (aggregateStatus categories = StatusFail <-> Exists (fun c => Status c = StatusFail) (all_checks categories)) /\
  (aggregateStatus categories = StatusPass <-> Forall (fun c => Status c = StatusPass) (all_checks categories)).
Proof.
  intros Hc. unfold aggregateStatus. rewrite aggregate_fail, aggregate_all_pass.
  2: { apply Forall_map. eapply Forall_impl; [exact Hc|]. intros c [-> _]. apply aggregate_range. }
  unfold all_checks. induction Hc as [|c l [Hs Hch] _ [IH1 IH2]]; cbn [map concat].
  - rewrite Exists_nil. split; [split; [apply not_elem_of_nil|done]|by split].
  - rewrite elem_of_cons, Exists_app, Forall_cons, Forall_app, IH1, IH2, Hs. unfold aggregateChecksStatus.
    rewrite aggregate_all_pass, Forall_map by (by apply check_statuses).
    assert (StatusFail = aggregate (map Status (Checks c)) <-> Exists (fun c => Status c = StatusFail) (Checks c)) as ->; [|tauto].
    split.
    + intros E. symmetry in E. apply aggregate_fail, list_elem_of_In, in_map_iff in E as (k & Hk & Hin).
      apply Exists_exists. exists k. split; [by apply list_elem_of_In|done].
    + intros Hx. symmetry. apply aggregate_fail. apply Exists_exists in Hx as (k & Hin & <-).
      apply list_elem_of_In, in_map. by apply list_elem_of_In.
Qed.

Section report_checks.
Context `{RangeOrder} `{Unicode} `{Crypto}.
Context (VerifyTokenDetailed : bytes -> bytes -> TokenVerification * option string).
Context (anchor_text : anchor_error -> string) (temporary : option string) (encode_text : string).
Context (policy_text : Policy.policy_error -> string) (verify_text : verify_failure -> string).
Context (type_name : any -> string) (json_text : string -> string).
Context (file_under : string -> string -> option string).

#[local] Abbreviation categories_of :=
  (report_categories VerifyTokenDetailed anchor_text temporary encode_text policy_text verify_text type_name json_text file_under).
#[local] Abbreviation build :=
  (BuildReport VerifyTokenDetailed anchor_text temporary encode_text policy_text verify_text type_name json_text file_under).
#[local] Abbreviation profile_category :=
  (profileVerificationCategory VerifyTokenDetailed anchor_text temporary encode_text policy_text verify_text type_name json_text).
#[local] Abbreviation cas_section := (buildCASSection VerifyTokenDetailed anchor_text temporary encode_text).
#[local] Abbreviation verified := (verify_bundle VerifyTokenDetailed anchor_text temporary encode_text policy_text verify_text type_name json_text).

Lemma category_checks key title l : Forall consistent l -> consistent_category (category key title l).
Proof. by intros. Qed.

Lemma advisory_consistent root id title file pass warn :
  file ∈ embedded_evidence -> consistent (advisory file_under root id title file pass warn).
Proof.
  intros Hf. destruct (advisory_passes file_under root id title file pass warn Hf) as [Hs Hb].
  unfold consistent, blocks. rewrite Hs, Hb. split; [by left|done].
Qed.

Lemma profile_category_shape path id loaded c :
  profile_category path id loaded = Some c ->
  exists b p rest, loaded = Ok b /\ TrimSpace id <> "" /\ Report.Results (verified (Some b) path (TrimSpace id)) = p :: rest /\
    c = category "obligation_profile" "Obligation Profile" (profile_checks p).
Proof.
  unfold profileVerificationCategory. cbv zeta. destruct (String.eqb_spec (TrimSpace id) "") as [|Hid]; [done|].
  destruct loaded as [b|]; [|done]. destruct (Report.Results _) as [|p rest] eqn:E; [done|]. intros [= <-]. by exists b, p, rest.
Qed.

(** Every check is of a file that is embedded, of the chain, of the profile, or says that the profile is not known. *)
Lemma checks_all (P : Check -> Prop) root path id l :
  (forall id title file pass warn, file ∈ embedded_evidence -> P (advisory file_under root id title file pass warn)) ->
  Forall P (all_checks (categories_of root path id l)) <->
  P (chain_check verify_text path (for_chain l)) /\
  (forall c, profile_category path id (for_profile l) = Some c -> Forall P (Checks c)) /\
  ((cas_section path id (for_score l)).2 <> "" -> Forall P (Checks (casProfileWarningCategory (cas_section path id (for_score l)).2))).
Proof.
  intros Ha. unfold all_checks, report_categories. rewrite !map_app, !concat_app, !Forall_app. cbv zeta.
  assert (Forall P (concat (map Checks [cryptoCategory verify_text file_under path root (for_chain l);
    operationalSafetyCategory file_under root; testCoverageCategory file_under root; documentationCategory file_under root])) <->
    P (chain_check verify_text path (for_chain l))) as ->.
  { cbn [map concat Checks cryptoCategory operationalSafetyCategory testCoverageCategory documentationCategory category app].
    split; [intros Hall; by apply Forall_cons in Hall as [_ [? _]%Forall_cons]|].
    intros Hch. constructor; [apply Ha; embedded|]. constructor; [exact Hch|].
    repeat (apply Forall_cons_2; [apply Ha; embedded|]). constructor. }
  destruct (profile_category path id (for_profile l)) as [c|]; destruct (String.eqb_spec (cas_section path id (for_score l)).2 "") as [E|E];
    cbn [map concat app]; rewrite ?app_nil_r; naive_solver.
Qed.

Lemma categories_consistent root path id l : Forall consistent_category (categories_of root path id l).
Proof.
  assert (Forall (fun c => cat_Status c = aggregateChecksStatus (Checks c)) (categories_of root path id l)) as Hstatus.
  { unfold report_categories. cbv zeta. apply Forall_app. split; [by repeat constructor|]. apply Forall_app. split.
    - destruct (profile_category _ _ _) as [c|] eqn:E; [|constructor].
      apply profile_category_shape in E as (b & p & rest & _ & _ & _ & ->). by repeat constructor.
    - destruct (String.eqb _ _); by repeat constructor. }
  assert (Forall consistent (all_checks (categories_of root path id l))) as Hall.
  { apply checks_all; [intros; by apply advisory_consistent|]. split; [apply chain_check_spec|]. split.
    - intros c (b & p & rest & _ & _ & _ & ->)%profile_category_shape. apply profile_checks_consistent.
    - intros _. constructor; [split; [right; by left|done]|constructor]. }
  revert Hstatus Hall. unfold all_checks. induction (categories_of root path id l) as [|c cs IH]; [constructor|].
  cbn [map concat]. intros [? ?]%Forall_cons [? ?]%Forall_app. constructor; [done|by apply IH].
Qed.

Lemma all_consistent root path id l : Forall consistent (all_checks (categories_of root path id l)).
Proof.
  pose proof (categories_consistent root path id l) as Hc. unfold all_checks. induction Hc as [|c cs [_ Hch] _ IH]; [constructor|].
  cbn [map concat]. by apply Forall_app.
Qed.

(** The status of the report, the gate and the summary tell the same story. The status is fail exactly when the gate
    fails, the number of blocking failures is the number of failed checks that the summary counts and of the names that
    are listed, the counts add up, and the status is pass exactly when every check of the report passed. *)
Theorem report_consistent now root path id l :
  let r := build now root path id l in
  (r_Status r = StatusFail <-> g_Status (r_Gate r) = StatusFail) /\
  BlockingFailures (r_Gate r) = n_Fail (r_Summary r) /\
  BlockingFailures (r_Gate r) = Z.of_nat (length (FailedChecks (r_Gate r))) /\
  Total (r_Summary r) = n_Pass (r_Summary r) + n_Warn (r_Summary r) + n_Fail (r_Summary r) /\
  (r_Status r = StatusPass <-> Forall (fun c => Status c = StatusPass) (all_checks (Categories r))).
Proof.
  cbv zeta. unfold BuildReport. cbv zeta. cbn [r_Status r_Gate r_Summary Categories].
  set (cs := categories_of root path id l). destruct (report_status cs (categories_consistent root path id l)) as [Hfail Hpass].
  pose proof (all_consistent root path id l) as Hall. fold cs in Hall. destruct (summary_counts cs Hall) as [Ht Hn].
  split_and!; [|rewrite Hn, <- failed_checks; reflexivity|reflexivity|exact Ht|exact Hpass].
  rewrite Hfail. destruct (gate_two cs) as [Hg|Hg]; rewrite Hg.
  - split; [|done]. intros Hx. exfalso. apply gate_status in Hg. apply Exists_exists in Hx as (c & Hin & Hs).
    rewrite Forall_forall in Hg, Hall. apply Hall in Hin as Hc. destruct Hc as [_ Hc]. apply Hc in Hs. apply Hg in Hin. congruence.
  - split; [done|]. intros _. assert (~ Forall (fun c => blocks c = false) (all_checks cs)) as Hn' by (rewrite <- gate_status, Hg; done).
    apply not_Forall_Exists in Hn'; [|intros c; apply _]. eapply (Exists_impl (fun c => consistent c /\ blocks c <> false)).
    + clear -Hn' Hall. induction Hn'; apply Forall_cons in Hall as [? ?]; [by apply Exists_cons_hd|by apply Exists_cons_tl, IHHn'].
    + intros c [[_ Hc] Hb]. apply Hc. by destruct (blocks c).
Qed.
End report_checks.

(** ** The gate *)

Section gate_theorem.
Context `{RangeOrder} `{Unicode} `{Crypto}.
Context (VerifyTokenDetailed : bytes -> bytes -> TokenVerification * option string).
Context (anchor_text : anchor_error -> string) (temporary : option string) (encode_text : string).
Context (policy_text : Policy.policy_error -> string) (verify_text : verify_failure -> string).
Context (type_name : any -> string) (json_text : string -> string).
Context (file_under : string -> string -> option string).

#[local] Abbreviation build :=
  (BuildReport VerifyTokenDetailed anchor_text temporary encode_text policy_text verify_text type_name json_text file_under).
#[local] Abbreviation verified := (verify_bundle VerifyTokenDetailed anchor_text temporary encode_text policy_text verify_text type_name json_text).

(** What verification of a bundle against a profile finds. *)
Lemma verified_results b path id :
  TrimSpace id <> "" ->
  Report.Results (verified (Some b) path id) =
  match Report.profile_named id with Some p => [Report.profile_result policy_text b false p] | None => [] end.
Proof.
  intros Hid. unfold verify_bundle, Report.Verify. rewrite (proj2 (String.eqb_neq _ _) Hid).
  assert (forall r, Report.Results (Report.applyRetrospectiveProvenance r b) = Report.Results r) as Hr
    by (intros r; unfold Report.applyRetrospectiveProvenance; by destruct (Report.isRetrospectiveImportBundle b)).
  destruct (Report.profile_named id) as [p|]; unfold Report.loaded_report, Report.evaluateLoadedBundle; cbv zeta;
    cbn [Report.with_gaps Report.Results]; by rewrite Hr.
Qed.

(** C25: When the gate passes. For a trimmed profile identifier, the gate of the report passes exactly when the load for the
    check of the chain gives a bundle with records whose chain verifies, and, if a profile is named, that load gives a
    bundle and there is such a profile, the bundle has no critical failure of the profile and every policy decision in it
    is an object with no signature that fails. Where no bundle is loaded for the profile, or none has the
    name, the profile does not count. The directory and its files have no influence. *)
Theorem gate_decides now root path id l :
  TrimSpace id = id ->
  g_Status (r_Gate (build now root path id l)) = StatusPass <->
  chain_intact (for_chain l) /\
  (id <> "" -> forall b p, for_profile l = Ok b -> Report.profile_named id = Some p ->
     Verify.CriticalFailures (evaluate p b) = [] /\ Forall (Verify.signed_decision false) b).
Proof.
  intros Hid. unfold BuildReport. cbv zeta. cbn [r_Gate]. rewrite gate_status, checks_all.
  2: { intros id' title file pass warn Hf. unfold blocks. by destruct (advisory_passes file_under root id' title file pass warn Hf) as [_ ->]. }
  destruct (chain_check_spec verify_text path (for_chain l)) as (_ & _ & _ & ->).
  assert (forall d, Forall (fun c => blocks c = false) (Checks (casProfileWarningCategory d))) as Hcas by (by repeat constructor).
  transitivity (chain_intact (for_chain l) /\
    forall c, profileVerificationCategory VerifyTokenDetailed anchor_text temporary encode_text policy_text verify_text type_name json_text
      path id (for_profile l) = Some c -> Forall (fun c => blocks c = false) (Checks c)); [naive_solver|].
  apply and_iff_compat_l. unfold profileVerificationCategory. cbv zeta. rewrite !Hid.
  destruct (String.eqb_spec id "") as [->|Hne]; [naive_solver|].
  destruct (for_profile l) as [b|text]; [|naive_solver].
  rewrite verified_results by (by rewrite Hid). destruct (Report.profile_named id) as [p|]; [|naive_solver].
  pose proof (Report.profile_result_pass policy_text b false p) as Hp. unfold Report.profile_result in *.
  rewrite Verify.checks_Pass in Hp. split.
  - intros Hc _ b' p' [= <-] [= <-]. apply Hp. destruct (profile_checks_consistent (Verify.applyPolicyDecisionSignatureChecks
      (Verify.stampProfileResult (p_ID p) (p_Version p) (p_WorkflowClass p) (evaluate p b))
      (Verify.inspectPolicyDecisionSignatures policy_text b) false)) as (_ & Hb & _). apply Hb.
    specialize (Hc _ eq_refl). exact Hc.
  - intros Hall c [= <-]. cbn [Checks category]. apply profile_checks_consistent, Hp. by apply Hall.
Qed.
End gate_theorem.

(** ** The anchors *)

Section anchor_results.
Context (VerifyTokenDetailed : bytes -> bytes -> TokenVerification * option string) (problem_text : anchor_problem -> string).

#[local] Abbreviation anchors := (VerifyAnchors VerifyTokenDetailed problem_text).

Definition is_anchor (r : Record_) : bool := String.eqb (Event.Type_ (Event_ r)) AnchorEventType.

(** A token that verifies for the digest in the event's own data. *)
Definition token_for_stored_digest (r : Record_) (v : TokenVerification) (err : option string) : Prop :=
  exists raw data tsr digest,
    Event.Data (Event_ r) = AString raw /\ decode_anchor_data raw = Some data /\
    decodeTSRBytes (ad_TSRDER data) (TSRHash data) = Ok tsr /\ hex_decode (B (TrimSpace (ad_BundleHash data))) = Some digest /\
    VerifyTokenDetailed tsr digest = (v, err).

Ltac no_token := split; [done|intros (? & ? & (? & ? & ? & ? & ? & ? & ? & ? & _) & _); congruence].

Lemma verify_anchor_verified i r :
  av_TSAVerified (verify_anchor VerifyTokenDetailed problem_text i r) = true <->
  exists v err, token_for_stored_digest r v err /\ v_MessageImprint v = true /\ v_Signature v = true.
Proof.
  unfold verify_anchor, token_for_stored_digest. cbv zeta.
  destruct (Event.Data (Event_ r)) as [| | | |raw| | | | |]; cbn [av_TSAVerified]; try (by no_token).
  destruct (decode_anchor_data raw) as [data|] eqn:Ed; cbn [av_TSAVerified]; [|by no_token].
  destruct (decodeTSRBytes _ _) as [tsr|] eqn:Et; cbn [av_TSAVerified]; [|by no_token].
  destruct (hex_decode _) as [digest|] eqn:Eh; cbn [av_TSAVerified]; [|by no_token].
  destruct (VerifyTokenDetailed tsr digest) as [v err] eqn:Ev. cbn [av_TSAVerified]. rewrite andb_true_iff. split.
  - intros [? ?]. exists v, err. split; [|done]. by exists raw, data, tsr, digest.
  - intros (v' & err' & (raw' & data' & tsr' & digest' & E & E1 & E2 & E3 & E4) & ? & ?).
    injection E as <-. rewrite Ed in E1. injection E1 as <-. rewrite Et in E2. injection E2 as <-. rewrite Eh in E3. injection E3 as <-.
    rewrite Ev in E4. by injection E4 as <- <-.
Qed.

(** A result for every anchor record, which the other records of the bundle have no part in: the digest that the token
    is checked against is the one the event carries, not one of the bundle. *)
Lemma anchor_results b res :
  res ∈ anchors (Some b) <->
  exists i r, (b : list Record_) !! i = Some r /\ Event.Type_ (Event_ r) = AnchorEventType /\
    res = verify_anchor VerifyTokenDetailed problem_text i r.
Proof.
  unfold VerifyAnchors. rewrite list_elem_of_omap. split.
  - intros (o & Ho & E). apply list_elem_of_lookup in Ho as [i Hi]. rewrite list_lookup_imap in Hi.
    destruct ((b : list Record_) !! i) as [r|] eqn:Er; [|done]. injection Hi as <-. cbn in E.
    destruct (String.eqb_spec (Event.Type_ (Event_ r)) AnchorEventType); [|done]. injection E as <-. by exists i, r.
  - intros (i & r & Hi & Ht & ->). eexists. split; [|reflexivity]. apply list_elem_of_lookup. exists i.
    rewrite list_lookup_imap, Hi. cbn. by rewrite Ht, String.eqb_refl.
Qed.
End anchor_results.

(** ** Examples *)

Section examples.
#[local] Existing Instance ascii_only.
#[local] Existing Instance BundleSign.toy.
#[local] Instance example_order : RangeOrder := Report.ordered [].

(** The reports of a directory without files. *)
Definition example_report (id : string) (l : loads) : TrustGateReport :=
  BuildReport Report.untrusted (fun _ => "") None "" (fun _ => "") (fun _ => "") (fun _ => "") (fun _ => "") (fun _ _ => None)
    "now" "" "b.atb" id l.

Definition always (r : result string bundle) : loads := mkLoads r r r r r.

Definition action : result string bundle := Ok Report.action_bundle.

Lemma privileged_named : Report.profile_named profileIDPrivilegedToolAction = Some privileged.
Proof. unfold Report.profile_named. by rewrite privileged_registered. Qed.

Lemma intact_check b : is_ok (Bundle.Verify b) && nonempty (b : list Record_) = true -> chain_intact (Ok b).
Proof.
  intros [Hv Hl]%andb_true_iff. exists b. split; [done|]. split; [by intros ->|]. by destruct (Bundle.Verify b) as [[]|].
Qed.

Lemma action_facts :
  chain_intact action /\ Verify.CriticalFailures (evaluate privileged Report.action_bundle) = [] /\
  existsb (fun r => String.eqb (Event.Type_ (Event_ r)) Policy.TypeAIPolicyDecision) Report.action_bundle = true /\
  TrimSpace profileIDPrivilegedToolAction = profileIDPrivilegedToolAction.
Proof.
  split; [|split; [vm_compute; reflexivity|split; vm_compute; reflexivity]].
  apply intact_check. vm_compute. reflexivity.
Qed.

Lemma gate_decides_witness :
  g_Status (r_Gate (BuildReport Report.untrusted (fun _ => "") None "" (fun _ => "") (fun _ => "") (fun _ => "") (fun _ => "")
    (fun _ _ => None) "now" "" "b.atb" profileIDPrivilegedToolAction (always action))) = StatusPass <->
  chain_intact action /\
  (profileIDPrivilegedToolAction <> "" -> forall b p, action = Ok b -> Report.profile_named profileIDPrivilegedToolAction = Some p ->
     Verify.CriticalFailures (evaluate p b) = [] /\ Forall (Verify.signed_decision false) b).
Proof.
  destruct action_facts as (_ & _ & _ & H4).
  exact (gate_decides Report.untrusted (fun _ => "") None "" (fun _ => "") (fun _ => "") (fun _ => "") (fun _ => "")
    (fun _ _ => None) "now" "" "b.atb" profileIDPrivilegedToolAction (always action) H4).
Defined.

Definition verdict (r : TrustGateReport) : string * string * list string * Z :=
  (r_Status r, g_Status (r_Gate r), FailedChecks (r_Gate r), ChainLength r).

(** A bundle that passes, a missing one, a profile that is not known, and a failing one. *)
Example trust_verdicts :
  verdict (example_report "" (always action)) = ("pass", "pass", [], 8) /\
  verdict (example_report "" (always (Err "no file"))) = ("fail", "fail", ["cryptographic_integrity.hash_chain"], 0) /\
  verdict (example_report "atb.profile.none" (always action)) = ("warn", "pass", [], 8) /\
  verdict (example_report profileIDPrivilegedToolAction (always action)) = ("warn", "pass", [], 8) /\
  verdict (example_report profileIDRAGAnswer (always (Ok (take 2 Report.action_bundle)))) =
    ("fail", "fail", ["obligation_profile.profile_failure_1"; "obligation_profile.profile_failure_2"], 2).
Proof. vm_compute. repeat split. Qed.

(** The identifier without its prefix is resolved for the verification and not for the score. *)
Example short_identifier :
  let r := example_report "privileged_tool_action" (always action) in
  map Key (Categories r) = ["cryptographic_integrity"; "operational_safety"; "test_coverage"; "documentation";
    "obligation_profile"; "completeness_assurance"] /\ r_CAS r = None.
Proof. vm_compute. split; reflexivity. Qed.

Example labels :
  map (fun p => anchorQualityLabel (hundredths p.1) (hundredths p.2)) [(100, 100); (50, 40); (10, 0); (0, 0); (30, 0)] =
  ["verified"; "digest-only"; "present-degraded"; "absent"; "partial"].
Proof. vm_compute. reflexivity. Qed.

(** An anchor whose token verifies for the digest that its event carries, in a bundle it
    says nothing of. *)
Definition trusting (token digest : bytes) : TokenVerification * option string :=
  (mkVerification true true true, None).

Definition loose_anchor : Record_ :=
  with_type AnchorEventType (AString ("{" +:+ S_of (B (S_of [chr 34])) +:+ "bundle_hash" +:+ S_of [chr 34] +:+ ":" +:+
    S_of [chr 34] +:+ "00" +:+ S_of [chr 34] +:+ "," +:+ S_of [chr 34] +:+ "tsr_der" +:+ S_of [chr 34] +:+ ":" +:+ S_of [chr 34] +:+
    "AAAA" +:+ S_of [chr 34] +:+ "}")) (sample_event 1 "" []).

Example anchor_of_another_bundle :
  map (fun a => (AnchorIndex a, BundleDigest a, av_TSAVerified a)) (VerifyAnchors trusting (fun _ => "") (Some [loose_anchor]))
  = [(0, "00", true)].
Proof. vm_compute. reflexivity. Qed.
End examples.
End TrustGate.
