(* ===== verification/VerifyCLI.v ===== *)
(** * Command line: atb verify

    [cmd/atb/verify.go] and [exit_codes.go], with the anchor verification of [cmd/atb/anchor.go]:
    from the arguments to the exit code. What is printed is a value; its text is not modelled. Theorems: when the command succeeds, on a local
    bundle and on one in a remote store, what the anchor check stands for, and what the
    arguments can mean. *)

From S2P Require Import Prelude GoText GoPath Sha256 GoFloat GoJson GoValue GoUnicode GoTime GoStruct Canonicalize Event HashChain Bundle BundleIO BundleSign Profiles Templates Policy Verify Score ProfileLoader AnchorClassify Report VerifyReport Push.
Import Bundle.

Module VerifyCLI.
Import Score AnchorClassify.

Definition exitSuccess : Z := 0.
Definition exitUserError : Z := 1.
Definition exitIntegrityFailure : Z := 2.
Definition exitVerifyFailure : Z := 3.
Definition exitSystemError : Z := 3.
Definition exitLockContention : Z := 9.

(** ** Paths *)

Definition DefaultPath : string := "run.atb/bundle.atb".

Section paths.
(** Whether the path is one of a directory. *)
Context (is_dir : string -> bool).

Definition normalizeBundlePath (raw : string) : string :=
  if String.eqb raw "" then DefaultPath
  else let clean := Clean raw in if is_dir clean then Join clean "bundle.atb" else clean.
End paths.

(** ** The arguments *)

Definition formatText : string := "text".
Definition formatJSON : string := "json".

Record verifyCLIConfig := mkCLI {
  BundlePath : string;
  RemoteURI : string;
  ProfileID : string;
  JSON : bool;
  LegacyFormat : string;
  Quiet : bool;
  Trace : bool;
  WithAnchor : bool;
  WithSnapshotCheck : bool;
  RootsPath : string;
  StrictSourceSignatures : bool;
  CorroborationPolicyPath : string;
  Schema : bool;
  SchemaOut : string
}.

Definition set_BundlePath (v : string) (c : verifyCLIConfig) : verifyCLIConfig :=
  mkCLI v (RemoteURI c) (ProfileID c) (JSON c) (LegacyFormat c) (Quiet c) (Trace c) (WithAnchor c)
    (WithSnapshotCheck c) (RootsPath c) (StrictSourceSignatures c) (CorroborationPolicyPath c) (Schema c)
    (SchemaOut c).
Definition set_RemoteURI (v : string) (c : verifyCLIConfig) : verifyCLIConfig :=
  mkCLI (BundlePath c) v (ProfileID c) (JSON c) (LegacyFormat c) (Quiet c) (Trace c) (WithAnchor c)
    (WithSnapshotCheck c) (RootsPath c) (StrictSourceSignatures c) (CorroborationPolicyPath c) (Schema c)
    (SchemaOut c).
Definition set_ProfileID (v : string) (c : verifyCLIConfig) : verifyCLIConfig :=
  mkCLI (BundlePath c) (RemoteURI c) v (JSON c) (LegacyFormat c) (Quiet c) (Trace c) (WithAnchor c)
    (WithSnapshotCheck c) (RootsPath c) (StrictSourceSignatures c) (CorroborationPolicyPath c) (Schema c)
    (SchemaOut c).
Definition set_JSON (v : bool) (c : verifyCLIConfig) : verifyCLIConfig :=
  mkCLI (BundlePath c) (RemoteURI c) (ProfileID c) v (LegacyFormat c) (Quiet c) (Trace c) (WithAnchor c)
    (WithSnapshotCheck c) (RootsPath c) (StrictSourceSignatures c) (CorroborationPolicyPath c) (Schema c)
    (SchemaOut c).
Definition set_LegacyFormat (v : string) (c : verifyCLIConfig) : verifyCLIConfig :=
  mkCLI (BundlePath c) (RemoteURI c) (ProfileID c) (JSON c) v (Quiet c) (Trace c) (WithAnchor c) (WithSnapshotCheck c)
    (RootsPath c) (StrictSourceSignatures c) (CorroborationPolicyPath c) (Schema c) (SchemaOut c).
Definition set_Quiet (v : bool) (c : verifyCLIConfig) : verifyCLIConfig :=
  mkCLI (BundlePath c) (RemoteURI c) (ProfileID c) (JSON c) (LegacyFormat c) v (Trace c) (WithAnchor c)
    (WithSnapshotCheck c) (RootsPath c) (StrictSourceSignatures c) (CorroborationPolicyPath c) (Schema c)
    (SchemaOut c).
Definition set_Trace (v : bool) (c : verifyCLIConfig) : verifyCLIConfig :=
  mkCLI (BundlePath c) (RemoteURI c) (ProfileID c) (JSON c) (LegacyFormat c) (Quiet c) v (WithAnchor c)
    (WithSnapshotCheck c) (RootsPath c) (StrictSourceSignatures c) (CorroborationPolicyPath c) (Schema c)
    (SchemaOut c).
Definition set_WithAnchor (v : bool) (c : verifyCLIConfig) : verifyCLIConfig :=
  mkCLI (BundlePath c) (RemoteURI c) (ProfileID c) (JSON c) (LegacyFormat c) (Quiet c) (Trace c) v
    (WithSnapshotCheck c) (RootsPath c) (StrictSourceSignatures c) (CorroborationPolicyPath c) (Schema c)
    (SchemaOut c).
Definition set_WithSnapshotCheck (v : bool) (c : verifyCLIConfig) : verifyCLIConfig :=
  mkCLI (BundlePath c) (RemoteURI c) (ProfileID c) (JSON c) (LegacyFormat c) (Quiet c) (Trace c) (WithAnchor c) v
    (RootsPath c) (StrictSourceSignatures c) (CorroborationPolicyPath c) (Schema c) (SchemaOut c).
Definition set_RootsPath (v : string) (c : verifyCLIConfig) : verifyCLIConfig :=
  mkCLI (BundlePath c) (RemoteURI c) (ProfileID c) (JSON c) (LegacyFormat c) (Quiet c) (Trace c) (WithAnchor c)
    (WithSnapshotCheck c) v (StrictSourceSignatures c) (CorroborationPolicyPath c) (Schema c) (SchemaOut c).
Definition set_StrictSourceSignatures (v : bool) (c : verifyCLIConfig) : verifyCLIConfig :=
  mkCLI (BundlePath c) (RemoteURI c) (ProfileID c) (JSON c) (LegacyFormat c) (Quiet c) (Trace c) (WithAnchor c)
    (WithSnapshotCheck c) (RootsPath c) v (CorroborationPolicyPath c) (Schema c) (SchemaOut c).
Definition set_CorroborationPolicyPath (v : string) (c : verifyCLIConfig) : verifyCLIConfig :=
  mkCLI (BundlePath c) (RemoteURI c) (ProfileID c) (JSON c) (LegacyFormat c) (Quiet c) (Trace c) (WithAnchor c)
    (WithSnapshotCheck c) (RootsPath c) (StrictSourceSignatures c) v (Schema c) (SchemaOut c).
Definition set_Schema (v : bool) (c : verifyCLIConfig) : verifyCLIConfig :=
  mkCLI (BundlePath c) (RemoteURI c) (ProfileID c) (JSON c) (LegacyFormat c) (Quiet c) (Trace c) (WithAnchor c)
    (WithSnapshotCheck c) (RootsPath c) (StrictSourceSignatures c) (CorroborationPolicyPath c) v (SchemaOut c).
Definition set_SchemaOut (v : string) (c : verifyCLIConfig) : verifyCLIConfig :=
  mkCLI (BundlePath c) (RemoteURI c) (ProfileID c) (JSON c) (LegacyFormat c) (Quiet c) (Trace c) (WithAnchor c)
    (WithSnapshotCheck c) (RootsPath c) (StrictSourceSignatures c) (CorroborationPolicyPath c) (Schema c) v.

Definition default_cli : verifyCLIConfig := mkCLI DefaultPath "" "" false formatText false false false false "" false "" false "".

Inductive valued := OBundle | OProfile | OFormat | ORoots | OPolicy | ORemote | OSchemaOut.
Inductive switch := FJSON | FQuiet | FTrace | FAnchor | FSnapshot | FStrict | FSchema.

(** What one argument is. *)
Inductive argument := AHelp | ASwitch (s : switch) | AValue (o : valued) | AInline (o : valued) (value : string) | AUnknown | APath.

Inductive parse_error :=
| ErrVerifyHelp | MissingValue (arg : string) | PathAlreadySet | UnknownFlag (arg : string) | TooManyPaths
| InvalidFormat (format : string) | EmptyProfile | RemoteAndBundle.

Definition exactly (names : list string) (a : argument) (arg : string) : option argument :=
  if bool_decide (arg ∈ names) then Some a else None.

Definition inline (prefix : string) (o : valued) (arg : string) : option argument :=
  if HasPrefix arg prefix then Some (AInline o (TrimPrefix arg prefix)) else None.

(** The cases of the switch, in their order. *)
Definition cases : list (string -> option argument) :=
  [exactly ["-h"; "--help"] AHelp;
   exactly ["--bundle"; "-b"] (AValue OBundle); inline "--bundle=" OBundle;
   exactly ["--profile"; "-p"] (AValue OProfile); inline "--profile=" OProfile;
   exactly ["--json"] (ASwitch FJSON); exactly ["--quiet"] (ASwitch FQuiet);
   exactly ["--format"] (AValue OFormat); exactly ["-f"] (AValue OFormat);
   inline "--format=" OFormat; inline "-f=" OFormat;
   exactly ["--trace"] (ASwitch FTrace); exactly ["--with-anchor"] (ASwitch FAnchor);
   exactly ["--with-snapshot-check"] (ASwitch FSnapshot);
   exactly ["--strict-source-signatures"] (ASwitch FStrict);
   exactly ["--roots"] (AValue ORoots); inline "--roots=" ORoots;
   exactly ["--corroboration-policy"] (AValue OPolicy); inline "--corroboration-policy=" OPolicy;
   exactly ["--remote"] (AValue ORemote); inline "--remote=" ORemote;
   exactly ["--schema"] (ASwitch FSchema);
   exactly ["--schema-out"] (AValue OSchemaOut); inline "--schema-out=" OSchemaOut;
   fun arg => if HasPrefix arg "-" then Some AUnknown else None].

Definition classify_argument (arg : string) : argument :=
  match omap (fun c => c arg) cases with a :: _ => a | [] => APath end.

Definition turn_on (s : switch) (cfg : verifyCLIConfig) : verifyCLIConfig :=
  match s with
  | FJSON => set_JSON true cfg | FQuiet => set_Quiet true cfg | FTrace => set_Trace true cfg
  | FAnchor => set_WithAnchor true cfg | FSnapshot => set_WithSnapshotCheck true cfg
  | FStrict => set_StrictSourceSignatures true cfg | FSchema => set_Schema true cfg
  end.

Section parsing.
Context `{Unicode} (is_dir : string -> bool).

(** The configuration, and whether a path was set. *)
Definition assign (o : valued) (value : string) (st : verifyCLIConfig * bool) : result parse_error (verifyCLIConfig * bool) :=
  let '(cfg, bundlePathSet) := st in
  let cleaned := Clean (TrimSpace value) in
  match o with
  | OBundle =>
      if bundlePathSet then Err PathAlreadySet else Ok (set_BundlePath (normalizeBundlePath is_dir value) cfg, true)
  | OProfile => Ok (set_ProfileID (TrimSpace value) cfg, bundlePathSet)
  | OFormat => Ok (set_LegacyFormat (ToLower (TrimSpace value)) cfg, bundlePathSet)
  | ORoots => Ok (set_RootsPath cleaned cfg, bundlePathSet)
  | OPolicy => Ok (set_CorroborationPolicyPath cleaned cfg, bundlePathSet)
  | ORemote => Ok (set_RemoteURI (TrimSpace value) cfg, bundlePathSet)
  | OSchemaOut => Ok (set_SchemaOut cleaned cfg, bundlePathSet)
  end.

(** The configuration so far, and the error. *)
Fixpoint parse_loop (st : verifyCLIConfig * bool) (args : list string) : (verifyCLIConfig * bool) * option parse_error :=
  match args with
  | [] => (st, None)
  | arg :: rest =>
      match classify_argument arg with
      | AHelp => (st, Some ErrVerifyHelp)
      | ASwitch s => parse_loop (turn_on s st.1, st.2) rest
      | AValue o =>
          match rest with
          | [] => (st, Some (MissingValue arg))
          | value :: rest' =>
              match assign o value st with Ok st' => parse_loop st' rest' | Err e => (st, Some e) end
          end
      | AInline o value => match assign o value st with Ok st' => parse_loop st' rest | Err e => (st, Some e) end
      | AUnknown => (st, Some (UnknownFlag arg))
      | APath =>
          if st.2 then (st, Some TooManyPaths)
          else parse_loop (set_BundlePath (normalizeBundlePath is_dir arg) st.1, true) rest
      end
  end.

Definition parseVerifyCommandArgs (args : list string) : verifyCLIConfig * option parse_error :=
  let '((cfg, bundlePathSet), e) := parse_loop (default_cli, false) args in
  (cfg, match e with
        | Some e => Some e
        | None =>
            if negb (String.eqb (LegacyFormat cfg) formatText) && negb (String.eqb (LegacyFormat cfg) formatJSON) then
              Some (InvalidFormat (LegacyFormat cfg))
            else if negb (String.eqb (ProfileID cfg) "") && String.eqb (TrimSpace (ProfileID cfg)) "" then Some EmptyProfile
            else if negb (String.eqb (RemoteURI cfg) "") && bundlePathSet then Some RemoteAndBundle
            else None
        end).

Definition is_dry_run (arg : string) : bool := String.eqb arg "--dry-run".

Definition parseVerifyArgsWithDryRun (args : list string) : (verifyCLIConfig * option parse_error) * bool :=
  (parseVerifyCommandArgs (List.filter (fun a => negb (is_dry_run a)) args), existsb is_dry_run args).
End parsing.

(** ** Exit codes *)

Record os_error := mkOSError { not_exist : bool; permission : bool; os_text : string }.

(** What the classification asks an error for. *)
Record load_failure := mkLoadFailure {
  lf_locked : bool; lf_not_exist : bool; lf_permission : bool; lf_malformed : bool; lf_text : string }.

Section classification.
Context `{Unicode}.

Definition classifyBundleLoadError (e : load_failure) : Z :=
  if lf_locked e then exitLockContention
  else if lf_not_exist e then exitUserError
  else if lf_permission e then exitSystemError
  else
    let msg := ToLower (lf_text e) in
    if Contains msg "unmarshal" || Contains msg "scan" then exitIntegrityFailure else exitSystemError.

Definition classifyVerifyBundleLoadError (e : load_failure) : Z :=
  if lf_locked e then exitLockContention
  else if lf_not_exist e then exitUserError
  else if lf_permission e then exitSystemError
  else if lf_malformed e then exitUserError
  else
    let msg := ToLower (lf_text e) in
    if Contains msg "unmarshal" || Contains msg "parse manifest" || Contains msg "unsupported manifest version" then exitUserError
    else if Contains msg "scan" then exitSystemError
    else exitSystemError.

Definition classifyVerifyRootsError (e : os_error) : Z :=
  if not_exist e || permission e then exitSystemError else exitUserError.
End classification.

Definition is_malformed (s : option sentinel) : bool := match s with Some ErrMalformed => true | _ => false end.

(** How the text of an error of [Load] begins; the rest comes from the error that it wraps. *)
Definition load_prefix (e : BundleIO.load_error) : string :=
  match e with
  | BundleIO.LNilReader => "bundle: load: nil reader: "
  | BundleIO.LLimitsNotPositive => "bundle: load: limits must be positive: "
  | BundleIO.LTooManyBytes => "bundle: load: input exceeds "
  | BundleIO.LLineTooLong => "bundle: load: line exceeds "
  | BundleIO.LTooManyRecords => "bundle: load: input exceeds "
  | BundleIO.LUnmarshal => "bundle: load: unmarshal: "
  | BundleIO.LScan | BundleIO.LTokenTooLong => "bundle: load: scan: "
  | BundleIO.LManifest _ => "bundle: load: parse manifest: "
  end.

(** The error of the operating system is the one of an open that fails. *)
Definition failure_of (open_error : os_error) (rest : string) (e : BundleIO.file_error) : load_failure :=
  match e with
  | BundleIO.FCancelled => mkLoadFailure false false false false ("bundle: load: " +:+ rest)
  | BundleIO.FOpen =>
      mkLoadFailure false (not_exist open_error) (permission open_error) false ("bundle: load: open: " +:+ os_text open_error)
  | BundleIO.FLoad e => mkLoadFailure false false false (is_malformed (BundleIO.load_sentinel e)) (load_prefix e +:+ rest)
  end.

Definition verificationExitCode (report : Report.Report) : Z :=
  if negb (Report.ChainValid (Report.Integrity report)) then exitIntegrityFailure
  else if match Report.BundleSignature report with Some s => negb (BundleSign.Verified s) | None => false end then
    exitIntegrityFailure
  else if existsb (fun p => negb (Verify.Pass p)) (Report.Results report) then exitVerifyFailure
  else exitSuccess.

(** [None]: the manifest record is missing. *)
Definition validateVerifyBundle (b : option bundle) : result (option manifest_error) unit :=
  match b with
  | None | Some [] => Err None
  | Some (r :: rest) =>
      if negb (String.eqb (Event.Type_ (Event_ r)) ManifestEventType) then Err None
      else let? _ := ManifestE (r :: rest) in Ok tt
  end.

(** ** The choice of profiles *)

Record verifySelection := mkSelection { profiles : list Profile; allApplicable : bool; resolvedProfileID : string }.

Definition selected_one (p : Profile) : verifySelection := mkSelection [p] false (p_ID p).

Inductive selection_error := SResolve (e : ProfileLoader.loader_error) | SUnrecognised (spec : string) | SNotFound (spec : string).

Section selection.
Context `{Unicode} (yaml : ProfileLoader.yaml_decoder) (ReadFile : string -> result string bytes).

Definition isVerifyProfilePath : string -> bool := ProfileLoader.isProfilePath.

(** With an error, the code is [exitUserError]. *)
Definition resolveVerifySelection (profileSpec : string) : result selection_error verifySelection :=
  let profileSpec := TrimSpace profileSpec in
  if String.eqb profileSpec "" then Ok (mkSelection [] true "")
  else if isVerifyProfilePath profileSpec then
    match ProfileLoader.ResolveProfile yaml ReadFile profileSpec with
    | Err e => Err (SResolve e)
    | Ok None => Err (SUnrecognised profileSpec)
    | Ok (Some profile) => Ok (selected_one profile)
    end
  else
    let profile :=
      match ProfileByID profileSpec with
      | Some p => Some p
      | None =>
          if negb (HasPrefix profileSpec "atb.profile.") then ProfileByID ("atb.profile." +:+ profileSpec) else None
      end in
    match profile with
    | Some p => Ok (selected_one p)
    | None => Err (SNotFound profileSpec)
    end.
End selection.

(** ** The corroboration policy *)

Definition policy_names : list string := ["anchor_bonus"; "signature_bonus"; "snapshot_bonus"; "max_bonus"].

(** [json.Unmarshal] into the policy. *)
Definition decode_policy `{Unicode} (content : bytes) : option CorroborationPolicy :=
  j ← json_parse content;
  match j with
  | JNull => Some (mkPolicy zero zero zero zero)
  | JObj l =>
      a ← decode_field policy_names "anchor_bonus" dec_float l zero;
      s ← decode_field policy_names "signature_bonus" dec_float l zero;
      n ← decode_field policy_names "snapshot_bonus" dec_float l zero;
      m ← decode_field policy_names "max_bonus" dec_float l zero;
      Some (mkPolicy a s n m)
  | _ => None
  end.

Inductive policy_problem := PolicyRead (text : string) | PolicyParse | PolicyInvalid.

Definition buildCorroborationOption `{Unicode} (ReadFile : string -> result os_error bytes) (cfg : verifyCLIConfig) :
    result policy_problem (option CorroborationPolicy) :=
  if negb (WithAnchor cfg) then Ok None
  else if String.eqb (TrimSpace (CorroborationPolicyPath cfg)) "" then Ok (Some DefaultCorroborationPolicy)
  else
    match ReadFile (CorroborationPolicyPath cfg) with
    | Err e => Err (PolicyRead (os_text e))
    | Ok data =>
        match decode_policy data with
        | None => Err PolicyParse
        | Some policy => if Validate (Some policy) then Ok (Some policy) else Err PolicyInvalid
        end
    end.

(** ** The anchor next to the bundle: [anchor.go] *)

Record anchorEventData := mkAnchorEvent {
  TSAURL : string; ae_BundleHash : string; TSRHash : string; ae_TSRDER : string; CertifiedTime : string }.

Definition anchor_event_names : list string := ["tsa_url"; "bundle_hash"; "tsr_hash"; "tsr_der"; "certified_time"].

Definition decode_anchor_event `{Unicode} (raw : string) : option anchorEventData :=
  j ← json_parse (B raw);
  match j with
  | JNull => Some (mkAnchorEvent "" "" "" "" "")
  | JObj l =>
      u ← decode_field anchor_event_names "tsa_url" dec_string l "";
      h ← decode_field anchor_event_names "bundle_hash" dec_string l "";
      r ← decode_field anchor_event_names "tsr_hash" dec_string l "";
      d ← decode_field anchor_event_names "tsr_der" dec_string l "";
      t ← decode_field anchor_event_names "certified_time" dec_string l "";
      Some (mkAnchorEvent u h r d t)
  | _ => None
  end.

Inductive anchor_failure :=
| AnchorNotString | AnchorParse | TokenRead (text : string) | TokenHashMismatch (event file : string) | TokenTimeUnreadable (text : string)
| CertifiedTimeMismatch (event token : string) | SnapshotFails (text : string) | BundleHashMismatch (event snapshot : string)
| TokenInvalid (text : string).

Inductive anchor_note := NoAnchorEvent | NoTokenFile (path : string) | AnchorCertified (time : string).

Definition latestAnchorEventData `{Unicode} (b : bundle) : result anchor_failure (option (nat * anchorEventData)) :=
  match latest_anchor 0 b ≫= fun i => pair i <$> b !! i with
  | None => Ok None
  | Some (i, record) =>
      match Event.Data (Event_ record) with
      | AString raw =>
          match decode_anchor_event raw with
          | None => Err AnchorParse
          | Some data => Ok (Some (i, data))
          end
      | _ => Err AnchorNotString
      end
  end.

Section anchor.
Context `{Unicode} {pool : Type}.
Context (ReadFile : string -> result os_error bytes).
Context (ParseGenTime : bytes -> result string string).
Context (VerifyTokenDetailed : option pool -> bytes -> bytes -> TokenVerification * option string).
Context (temporary : option string) (encode_text : string).

(** [anchorpkg.VerifyToken]: only the error; [roots] is the variable [verifyBundleAnchorRoots]. *)
Definition verifyBundleAnchor (roots : option pool) (bundlePath : string) (b : bundle) : result anchor_failure anchor_note :=
  let? found := latestAnchorEventData b in
  match found with
  | None => Ok NoAnchorEvent
  | Some (anchorIndex, data) =>
      let tokenPath := bundlePath +:+ ".tsr" in
      match ReadFile tokenPath with
      | Err e => if not_exist e then Ok (NoTokenFile tokenPath) else Err (TokenRead (os_text e))
      | Ok tokenBytes =>
          let got := S_of (hex_encode (Sha256.sum256 tokenBytes)) in
          if negb (String.eqb got (TSRHash data)) then Err (TokenHashMismatch (TSRHash data) got)
          else
            match ParseGenTime tokenBytes with
            | Err text => Err (TokenTimeUnreadable text)
            | Ok tokenTime =>
                if negb (String.eqb tokenTime (CertifiedTime data)) then Err (CertifiedTimeMismatch (CertifiedTime data) tokenTime)
                else
                  match hashBundleSnapshotBeforeAnchor temporary encode_text b anchorIndex with
                  | Err text => Err (SnapshotFails text)
                  | Ok snapshotHash =>
                      let got := S_of (hex_encode snapshotHash) in
                      if negb (String.eqb got (ae_BundleHash data)) then Err (BundleHashMismatch (ae_BundleHash data) got)
                      else
                        match (VerifyTokenDetailed roots tokenBytes snapshotHash).2 with
                        | Some text => Err (TokenInvalid text)
                        | None => Ok (AnchorCertified (CertifiedTime data))
                        end
                  end
            end
      end
  end.
End anchor.

(** ** The command on a local bundle *)

Inductive printed :=
| PUsage
| PSchema
| PDryRun (bundlePath profileID : string)
| PLegacy (status : string)
| PAnchor (note : anchor_note)
| PVerifier (r : VerifyReport.VerifierReport)
| PReport (r : Report.Report)
| PText (r : Report.Report)
| PRemote (r : VerifyReport.VerifierReport) (keyHashOK : bool)
| PRemoteText (r : Report.Report) (keyHashOK hasHash : bool).

Inductive complaint :=
| CArguments (e : parse_error) | CSchema | CSelection (e : selection_error) | CLoad (e : BundleIO.file_error)
| CManifest (e : option manifest_error) | CPolicy (e : policy_problem) | CEvaluate (e : Report.evaluate_error)
| CRoots (e : option os_error) | CAnchor (e : anchor_failure) | CEncode | CRemoteURI | CCredentials
| CDownload (e : os_error) | CRemoteLoad (e : BundleIO.load_error).

Record outcome := mkOutcome { exit : Z; stdout : list printed; stderr : list complaint }.

Definition fails (code : Z) (c : complaint) : outcome := mkOutcome code [] [c].

Definition print (p : list printed) (o : outcome) : outcome := mkOutcome (exit o) (p ++ stdout o) (stderr o).

Definition discard (o : outcome) : outcome := mkOutcome (exit o) [] [].

Definition isLegacyJSONMode (cfg : verifyCLIConfig) : bool := negb (JSON cfg) && String.eqb (LegacyFormat cfg) formatJSON.
Definition verifyWantsStructuredJSON (cfg : verifyCLIConfig) : bool :=
  negb (JSON cfg) && String.eqb (LegacyFormat cfg) formatJSON.

Definition with_snapshot_failures (failures : list string) (r : Report.Report) : Report.Report :=
  Report.with_risk (Report.mkRisk "Critical" (Report.Drivers (Report.Risk r)) (Report.RecommendedNextEvidence (Report.Risk r)))
    (Report.mkReport (Report.BundlePath r) (Report.Retrospective r) (Report.Integrity r) (Report.Anchoring r) (Report.BundleSignature r)
       (Report.Signatures r) (Report.Results r) (Report.CAS r) (Report.InformationalNotes r ++ failures) (Report.Exclusions r)
       (Report.ProvabilityGaps r) (Report.Risk r)).

(** What the command finds outside: the profile files, the files read as a whole, the
    bundle files with the text of the error that a load wraps, whether the deadline
    passes before or after the read, and whether standard output fails. *)
Record world := mkWorld {
  is_dir : string -> bool;
  yaml : ProfileLoader.yaml_decoder;
  ReadFile : string -> result os_error bytes;
  open_bundle : string -> result os_error BundleIO.reader;
  wrapped_text : string;
  deadline : bool * bool;
  stdout_fails : bool;
  schema_fails : bool
}.

Section run.
Context `{RangeOrder} `{Unicode} `{Crypto} {pool : Type}.
Context (VerifyTokenDetailed : option pool -> bytes -> bytes -> TokenVerification * option string).
Context (ParseGenTime : bytes -> result string string) (AppendCertsFromPEM : bytes -> option pool).
Context (anchor_text : anchor_error -> string) (temporary : option string) (encode_text : string).
Context (policy_text : Policy.policy_error -> string) (verify_text : verify_failure -> string).
Context (type_name : any -> string) (json_text : string -> string).
Context (w : world).

Definition profile_file (path : string) : result string bytes := map_err os_text (ReadFile w path).

(** With an error of the operating system, or none if the file has no certificate. *)
Definition loadVerifyRoots (path : string) : result (option os_error) (option pool) :=
  if String.eqb (TrimSpace path) "" then Ok None
  else
    match ReadFile w path with
    | Err e => Err (Some e)
    | Ok pemBytes => match AppendCertsFromPEM pemBytes with Some p => Ok (Some p) | None => Err None end
    end.

(** [bundle.Load]: the error of an open, and the one that the classification sees. *)
Definition Load_bundle (path : string) : result (BundleIO.file_error * load_failure) bundle :=
  let opened := open_bundle w path in
  let open_error := match opened with Err e => e | Ok _ => mkOSError false false "" end in
  match BundleIO.Load (deadline w).1 (match opened with Ok r => Some r | Err _ => None end) (deadline w).2 with
  | Ok b => Ok b
  | Err e => Err (e, failure_of open_error (wrapped_text w) e)
  end.

(** [EvaluateBundle] on the records of a loaded bundle: no roots, no required anchor. *)
Definition evaluate_selection (path : string) (b : bundle) (selection : verifySelection)
    (policy : option CorroborationPolicy) (strict : bool) : result Report.evaluate_error Report.Report :=
  Report.EvaluateBundle (VerifyTokenDetailed None) anchor_text temporary encode_text policy_text verify_text type_name json_text
    (Report.mkConfig path b (Some <$> profiles selection) (allApplicable selection) false false false)
    (Report.mkOpts policy strict) None false.

Definition anchor_check (roots : option pool) (path : string) (b : bundle) : result anchor_failure anchor_note :=
  verifyBundleAnchor (ReadFile w) ParseGenTime VerifyTokenDetailed temporary encode_text roots path b.

(** The last part: one of four forms of output. *)
Definition emit (cfg : verifyCLIConfig) (b : bundle) (verifyReport : Report.Report) (snapshotCheckFailed : bool) : outcome :=
  let code := if snapshotCheckFailed then exitIntegrityFailure else verificationExitCode verifyReport in
  if verifyWantsStructuredJSON cfg then
    if stdout_fails w then fails exitSystemError CEncode
    else mkOutcome code [PVerifier (VerifyReport.ReportFromVerifyWithBundle verifyReport (Some b))] []
  else if JSON cfg then
    if stdout_fails w then fails exitSystemError CEncode else mkOutcome code [PReport verifyReport] []
  else if isLegacyJSONMode cfg then
    let status :=
      if negb (Report.ChainValid (Report.Integrity verifyReport)) then "invalid"
      else if (length b =? 0)%nat then "empty" else "valid" in
    mkOutcome (if negb (Report.ChainValid (Report.Integrity verifyReport)) then exitIntegrityFailure else exitSuccess)
      [PLegacy status] []
  else mkOutcome code [PText verifyReport] [].

Definition legacy (cfg : verifyCLIConfig) (status : string) (o : outcome) : outcome :=
  if isLegacyJSONMode cfg then print [PLegacy status] o else o.

Definition after_report (cfg : verifyCLIConfig) (b : bundle) (report : Report.Report) : outcome :=
  let snapshotFailures := if WithSnapshotCheck cfg then VerifySnapshotHashes encode_text b else [] in
  let snapshotCheckFailed := nonempty snapshotFailures in
  let verifyReport := if snapshotCheckFailed then with_snapshot_failures snapshotFailures report else report in
  if WithAnchor cfg && Report.ChainValid (Report.Integrity verifyReport) then
    match loadVerifyRoots (RootsPath cfg) with
    | Err e =>
        legacy cfg "invalid" (fails (match e with Some e => classifyVerifyRootsError e | None => exitUserError end) (CRoots e))
    | Ok roots =>
        match anchor_check roots (BundlePath cfg) b with
        | Err e => legacy cfg "invalid" (fails exitIntegrityFailure (CAnchor e))
        | Ok note =>
            print (if JSON cfg || isLegacyJSONMode cfg then [] else [PAnchor note]) (emit cfg b verifyReport snapshotCheckFailed)
        end
    end
  else emit cfg b verifyReport snapshotCheckFailed.

Definition verify_bundle (cfg : verifyCLIConfig) (selection : verifySelection) : outcome :=
  match Load_bundle (BundlePath cfg) with
  | Err (e, f) => legacy cfg "error" (fails (classifyVerifyBundleLoadError f) (CLoad e))
  | Ok b =>
      match validateVerifyBundle (Some b) with
      | Err e => legacy cfg "error" (fails exitUserError (CManifest e))
      | Ok _ =>
          match buildCorroborationOption (ReadFile w) cfg with
          | Err e => fails exitUserError (CPolicy e)
          | Ok policy =>
              match evaluate_selection (BundlePath cfg) b selection policy (StrictSourceSignatures cfg) with
              | Err e => fails exitSystemError (CEvaluate e)
              | Ok report => after_report cfg b report
              end
          end
      end
  end.

Definition runVerifyWithConfigContext (cfg : verifyCLIConfig) (dryRun : bool) : outcome :=
  let quiet := Quiet cfg && negb dryRun && negb (verifyWantsStructuredJSON cfg) && negb (JSON cfg) in
  (if quiet then discard else id)
    match resolveVerifySelection (yaml w) profile_file (ProfileID cfg) with
    | Err e => fails exitUserError (CSelection e)
    | Ok selection =>
        if dryRun then
          if stdout_fails w then fails exitSystemError CEncode
          else mkOutcome exitSuccess [PDryRun (BundlePath cfg) (resolvedProfileID selection)] []
        else verify_bundle cfg selection
    end.

Definition writeVerifySchema (cfg : verifyCLIConfig) : outcome :=
  if negb (String.eqb (SchemaOut cfg) "") then
    if schema_fails w then fails exitSystemError CSchema
    else mkOutcome exitSuccess (if Quiet cfg then [] else [PSchema]) []
  else if stdout_fails w then fails exitSystemError CSchema else mkOutcome exitSuccess [PSchema] [].

(** ** The command on a bundle in a remote store *)

Definition parseRemoteVerifyURI (uri : string) : option (string * string) :=
  if negb (HasPrefix uri "s3://") then None
  else
    match cut slash (B (TrimPrefix uri "s3://")) with
    | (bucket, Some (c :: key)) => Some (S_of bucket, S_of (c :: key))
    | _ => None
    end.

(** The S3 client, if its credentials are there: the object of a bucket and a key, or
    the error of its download, where [not_exist] stands for an object that is not found. *)
Definition s3_client : Type := option (string -> string -> result os_error BundleIO.reader).

Definition runVerifyRemote (client : s3_client) (cfg : verifyCLIConfig) : outcome :=
  match parseRemoteVerifyURI (RemoteURI cfg) with
  | None => fails exitUserError CRemoteURI
  | Some (bucket, key) =>
      let expectedHash := Push.KeyHash (RemoteURI cfg) in
      match client with
      | None => fails exitSystemError CCredentials
      | Some GetObject =>
          match GetObject bucket key with
          | Err e => fails (if not_exist e then exitUserError else exitSystemError) (CDownload e)
          | Ok body =>
              match BundleIO.LoadReader (Some body) with
              | Err e =>
                  fails (classifyVerifyBundleLoadError (failure_of (mkOSError false false "") (wrapped_text w) (BundleIO.FLoad e)))
                    (CRemoteLoad e)
              | Ok b =>
                  match validateVerifyBundle (Some b) with
                  | Err e => fails exitUserError (CManifest e)
                  | Ok _ =>
                      match resolveVerifySelection (yaml w) profile_file (ProfileID cfg) with
                      | Err e => fails exitUserError (CSelection e)
                      | Ok selection =>
                          match buildCorroborationOption (ReadFile w) cfg with
                          | Err e => fails exitUserError (CPolicy e)
                          | Ok policy =>
                              match evaluate_selection (RemoteURI cfg) b selection policy false with
                              | Err e => fails exitSystemError (CEvaluate e)
                              | Ok verifyReport =>
                                  let keyHashOK :=
                                    match expectedHash with
                                    | None => true
                                    | Some h => match List.last (Some <$> b) None with Some r => String.eqb (Hash r) h | None => true end
                                    end in
                                  let code := if negb keyHashOK then exitIntegrityFailure else verificationExitCode verifyReport in
                                  let verifierReport := VerifyReport.ReportFromVerifyWithBundle verifyReport (Some b) in
                                  if verifyWantsStructuredJSON cfg || JSON cfg then
                                    if stdout_fails w then fails exitSystemError CEncode
                                    else mkOutcome code [PRemote verifierReport keyHashOK] []
                                  else
                                    mkOutcome code [PRemoteText verifyReport keyHashOK (match expectedHash with Some _ => true | None => false end)] []
                              end
                          end
                      end
                  end
              end
          end
      end
  end.

(** [atb verify] with its arguments. *)
Definition runVerify (client : s3_client) (args : list string) : outcome :=
  let '((cfg, e), dryRun) := parseVerifyArgsWithDryRun (is_dir w) args in
  match e with
  | Some ErrVerifyHelp => mkOutcome exitSuccess (if Quiet cfg then [] else [PUsage]) []
  | Some e => mkOutcome exitUserError [] (if Quiet cfg then [] else [CArguments e])
  | None =>
      if Schema cfg then writeVerifySchema cfg
      else if negb (String.eqb (RemoteURI cfg) "") then runVerifyRemote client cfg
      else runVerifyWithConfigContext cfg dryRun
  end.
End run.

(** ** When the command succeeds *)

(** The profiles that decide. *)
Definition chosen `{Unicode} (selection : verifySelection) (b : bundle) : list Profile :=
  if allApplicable selection then Report.matchingProfiles b "" else profiles selection.

(** The chain verifies, so does the bundle signature, if there is one, and every profile is met, with decisions signed
    as the mode asks. *)
Definition acceptable `{Unicode} `{Crypto} (strict : bool) (selection : verifySelection) (b : bundle) : Prop :=
  Bundle.Verify b = Ok tt /\
  (forall s, BundleSign.inspectBundleSignature b = Some s -> BundleSign.Verified s = true) /\
  Forall (fun p => Verify.CriticalFailures (evaluate p b) = [] /\ Forall (Verify.signed_decision strict) b) (chosen selection b).

Lemma discard_exit (quiet : bool) o : exit ((if quiet then discard else id) o) = exit o.
Proof. by destruct quiet. Qed.

Lemma legacy_exit cfg s o : exit (legacy cfg s o) = exit o.
Proof. unfold legacy. by destruct (isLegacyJSONMode cfg). Qed.

Lemma exit_code_success r :
  verificationExitCode r = 0 <->
  Report.ChainValid (Report.Integrity r) = true /\
  (forall s, Report.BundleSignature r = Some s -> BundleSign.Verified s = true) /\
  Forall (fun p => Verify.Pass p = true) (Report.Results r).
Proof.
  unfold verificationExitCode. destruct (Report.ChainValid _); cbn [negb]; [|naive_solver].
  assert (existsb (fun p => negb (Verify.Pass p)) (Report.Results r) = false <->
    Forall (fun p => Verify.Pass p = true) (Report.Results r)) as Hp.
  { induction (Report.Results r) as [|p l IH]; [by split|]. cbn. rewrite Forall_cons, orb_false_iff, negb_false_iff. naive_solver. }
  destruct (Report.BundleSignature r) as [s|].
  - destruct (BundleSign.Verified s) eqn:Es; cbn [negb].
    + destruct (existsb _ _); cbv [exitVerifyFailure exitSuccess]; naive_solver.
    + split; [done|]. intros (_ & Hs & _). specialize (Hs s eq_refl). congruence.
  - destruct (existsb _ _); cbv [exitVerifyFailure exitSuccess]; naive_solver.
Qed.

Lemma validated b : validateVerifyBundle (Some b) = Ok tt -> nonempty b = true.
Proof. by destruct b. Qed.

Lemma classified_failure `{Unicode} e : classifyVerifyBundleLoadError e <> 0.
Proof. unfold classifyVerifyBundleLoadError. cbv zeta. by repeat case_match. Qed.

Lemma classified_roots e : classifyVerifyRootsError e <> 0.
Proof. unfold classifyVerifyRootsError. by case_match. Qed.

Lemma selection_chooses `{Unicode} yaml file spec selection :
  resolveVerifySelection yaml file spec = Ok selection -> profiles selection <> [] \/ allApplicable selection = true.
Proof.
  unfold resolveVerifySelection. cbv zeta. destruct (String.eqb _ ""); [intros [= <-]; by right|].
  destruct (isVerifyProfilePath _).
  - destruct (ProfileLoader.ResolveProfile _ _ _) as [[p|]|]; [|done|done]. intros [= <-]. by left.
  - destruct (match ProfileByID _ with Some p => Some p | None => _ end) as [p|]; [|done]. intros [= <-]. by left.
Qed.

Section success.
Context `{RangeOrder} `{Unicode} `{Crypto} {pool : Type}.
Context (VerifyTokenDetailed : option pool -> bytes -> bytes -> TokenVerification * option string).
Context (ParseGenTime : bytes -> result string string) (AppendCertsFromPEM : bytes -> option pool).
Context (anchor_text : anchor_error -> string) (temporary : option string) (encode_text : string).
Context (policy_text : Policy.policy_error -> string) (verify_text : verify_failure -> string).
Context (type_name : any -> string) (json_text : string -> string).
Context (w : world).

#[local] Abbreviation evaluates :=
  (evaluate_selection VerifyTokenDetailed anchor_text temporary encode_text policy_text verify_text type_name json_text).
#[local] Abbreviation prepare :=
  (Report.prepareVerificationReport (VerifyTokenDetailed None) anchor_text temporary encode_text verify_text type_name json_text).
#[local] Abbreviation loaded :=
  (Report.loaded_report (VerifyTokenDetailed None) anchor_text temporary encode_text policy_text verify_text type_name json_text).

Lemma loaded_signature b path ps all required strict :
  Report.BundleSignature (loaded (Some b) path ps all required strict) = BundleSign.inspectBundleSignature b.
Proof.
  unfold Report.loaded_report, Report.evaluateLoadedBundle. cbv zeta. cbn [Report.with_gaps Report.BundleSignature].
  unfold Report.applyRetrospectiveProvenance. by destruct (Report.isRetrospectiveImportBundle b).
Qed.

Lemma required_risk_signature r : Report.BundleSignature (Report.applyRequiredAnchorRisk r) = Report.BundleSignature r.
Proof. unfold Report.applyRequiredAnchorRisk. destruct (_ || _); [done|]. cbv zeta. by destruct (String.eqb _ _). Qed.

Lemma corroborated_signature c b r :
  Report.BundleSignature (Report.corroborated_report encode_text c b r) = Report.BundleSignature r.
Proof. by destruct c. Qed.

Lemma evaluate_ok path b selection policy strict :
  nonempty b = true -> profiles selection <> [] \/ allApplicable selection = true ->
  exists r, evaluates path b selection policy strict = Ok r /\ Report.BundleSignature r = BundleSign.inspectBundleSignature b.
Proof.
  intros Hb Hs. unfold evaluate_selection, Report.EvaluateBundle.
  cbn [Report.Profiles_ Report.AllApplicable Report.Records Report.c_BundlePath Report.RequireValidChain].
  rewrite Report.omap_some, !length_fmap.
  assert ((length (profiles selection) =? 0)%nat && negb (allApplicable selection) = false) as Hn.
  { destruct Hs as [Hs|Hs]; [by destruct (profiles selection)|by rewrite Hs, andb_false_r]. }
  rewrite Hn, <- andb_assoc, Hn, andb_false_r.
  rewrite Report.load_records by exact Hb.
  destruct b as [|r0 rest]; [done|]. cbn [length Nat.eqb andb].
  eexists. split; [reflexivity|]. rewrite corroborated_signature. cbn [Report.with_gaps Report.BundleSignature].
  by rewrite required_risk_signature, loaded_signature.
Qed.

Lemma evaluation path b selection policy strict :
  nonempty b = true -> profiles selection <> [] \/ allApplicable selection = true ->
  exists r, evaluates path b selection policy strict = Ok r /\
    (Report.ChainValid (Report.Integrity r) = true <-> Bundle.Verify b = Ok tt) /\
    (verificationExitCode r = 0 <-> acceptable strict selection b).
Proof.
  intros Hb Hs. destruct (evaluate_ok path b selection policy strict Hb Hs) as (r & Hr & Hsig). exists r. split; [done|].
  pose proof (Report.load_records (Report.mkConfig path b (Some <$> profiles selection) (allApplicable selection) false false false)
    None false Hb) as Hl. cbn [Report.Records] in Hl.
  destruct (VerifyReport.EvaluateBundle_fields _ _ _ _ _ _ _ _ _ _ _ _ _ _ Hr Hl) as (Hres & _ & Hint).
  cbv zeta in *. cbn [Report.c_BundlePath Report.c_AnchorRequired Report.strictSourceSignatures Report.StrictSourceSignatures] in *.
  rewrite orb_false_r in Hres.
  pose proof (Report.prepare_valid (VerifyTokenDetailed None) anchor_text temporary encode_text verify_text type_name json_text
    b path false) as Hv. rewrite <- Hint in Hv. split; [exact Hv|].
  rewrite exit_code_success, Hv, Hsig, Hres. unfold acceptable, chosen, Report.selected_profiles.
  cbn [Report.AllApplicable Report.Profiles_]. rewrite Report.omap_some, Forall_map.
  apply and_iff_compat_l, and_iff_compat_l. apply Forall_proper; [|done]. intros p. apply Report.profile_result_pass.
Qed.

(** Standard output has to take the JSON that was asked for. *)
Definition writes (cfg : verifyCLIConfig) : Prop :=
  verifyWantsStructuredJSON cfg = true \/ JSON cfg = true -> stdout_fails w = false.

Lemma emit_exit cfg b r failed :
  exit (emit w cfg b r failed) = 0 <-> writes cfg /\ failed = false /\ verificationExitCode r = 0.
Proof.
  unfold emit, writes. cbv zeta.
  assert (isLegacyJSONMode cfg = verifyWantsStructuredJSON cfg) as -> by done.
  destruct (verifyWantsStructuredJSON cfg), (JSON cfg), (stdout_fails w); cbn [exit fails];
    unfold exitIntegrityFailure, exitSystemError; destruct failed; naive_solver.
Qed.

(** What [--with-anchor] adds: roots, and no failure of the anchor check. *)
Definition anchor_accepted (cfg : verifyCLIConfig) (b : bundle) : Prop :=
  exists roots note, loadVerifyRoots AppendCertsFromPEM w (RootsPath cfg) = Ok roots /\
    anchor_check VerifyTokenDetailed ParseGenTime temporary encode_text w roots (BundlePath cfg) b = Ok note.

Definition extra_checks (cfg : verifyCLIConfig) (b : bundle) : Prop :=
  (WithSnapshotCheck cfg = true -> VerifySnapshotHashes encode_text b = []) /\
  (WithAnchor cfg = true -> anchor_accepted cfg b).

Lemma snapshots_clean cfg b :
  nonempty (if WithSnapshotCheck cfg then VerifySnapshotHashes encode_text b else []) = false <->
  (WithSnapshotCheck cfg = true -> VerifySnapshotHashes encode_text b = []).
Proof.
  destruct (WithSnapshotCheck cfg); [|done]. destruct (VerifySnapshotHashes encode_text b); [done|].
  split; [done|]. intros Hs. by specialize (Hs eq_refl).
Qed.

Lemma after_report_exit cfg b r :
  (verificationExitCode r = 0 -> Report.ChainValid (Report.Integrity r) = true) ->
  exit (after_report VerifyTokenDetailed ParseGenTime AppendCertsFromPEM temporary encode_text w cfg b r) = 0 <->
  writes cfg /\ verificationExitCode r = 0 /\ extra_checks cfg b.
Proof.
  intros Hchain. unfold after_report, extra_checks. cbv zeta. rewrite <- snapshots_clean.
  set (snaps := if WithSnapshotCheck cfg then _ else _).
  set (r' := if nonempty snaps then with_snapshot_failures snaps r else r).
  assert (Report.ChainValid (Report.Integrity r') = Report.ChainValid (Report.Integrity r)) as Hc by (unfold r'; by destruct (nonempty snaps)).
  assert (verificationExitCode r' = verificationExitCode r) as He by (unfold r'; by destruct (nonempty snaps)).
  rewrite Hc. destruct (WithAnchor cfg); cbn [andb].
  - destruct (Report.ChainValid (Report.Integrity r)).
    + unfold anchor_accepted.
      destruct (loadVerifyRoots AppendCertsFromPEM w (RootsPath cfg)) as [roots|e].
      * destruct (anchor_check _ _ _ _ _ roots _ b) as [note|e] eqn:Ea.
        -- cbn [print exit]. rewrite emit_exit, He. split; [|naive_solver]. intros (? & ? & ?). split_and!; [done..|]. intros _.
           by exists roots, note.
        -- rewrite legacy_exit. split; [done|]. intros (_ & _ & _ & Ha).
           destruct (Ha eq_refl) as (? & ? & [= <-] & Ha'). congruence.
      * rewrite legacy_exit. split; [|intros (_ & _ & _ & Ha); by destruct (Ha eq_refl) as (? & ? & ? & _)].
        destruct e as [e|]; cbn [fails exit]; [|done]. intros He'. by destruct (classified_roots e).
    + rewrite emit_exit, He. split; [naive_solver|]. intros (_ & H0' & _). by specialize (Hchain H0').
  - rewrite emit_exit, He. naive_solver.
Qed.

Ltac open_all H :=
  lazymatch type of H with
  | @ex _ _ => let x := fresh "x" in destruct H as [x H]; open_all H
  | _ /\ _ => let Hleft := fresh "Hleft" in destruct H as [Hleft H]; open_all H
  | _ => idtac
  end.

Ltac no_success := cbn [fails exit];
  split; [first [done | by intros ?%classified_failure | by case_match] | let Hall := fresh in intros Hall; open_all Hall; congruence].

(** C9: [atb verify] without a dry run exits with 0 exactly if: the name of the profile resolves and the bundle loads with a
    manifest that can be read; the corroboration policy, if one is read, is valid; the hash chain verifies, and the latest
    bundle signature if there is one; no profile that decides has a critical failure, and every policy decision is signed
    as the mode asks; with [--with-snapshot-check] every snapshot holds the hash of the records before it; with
    [--with-anchor] the roots can be read and the anchor check has nothing to object to; and standard output takes the JSON
    if there is some. Nothing else is asked for: no profile has to apply. *)
Theorem verify_exits_zero cfg :
  exit (runVerifyWithConfigContext VerifyTokenDetailed ParseGenTime AppendCertsFromPEM anchor_text temporary encode_text policy_text
    verify_text type_name json_text w cfg false) = 0 <->
  writes cfg /\ exists selection b policy,
    resolveVerifySelection (yaml w) (profile_file w) (ProfileID cfg) = Ok selection /\
    Load_bundle w (BundlePath cfg) = Ok b /\ validateVerifyBundle (Some b) = Ok tt /\
    buildCorroborationOption (ReadFile w) cfg = Ok policy /\
    acceptable (StrictSourceSignatures cfg) selection b /\ extra_checks cfg b.
Proof.
  unfold runVerifyWithConfigContext. cbv zeta. rewrite discard_exit.
  destruct (resolveVerifySelection _ _ _) as [sel|e] eqn:Esel; [|no_success]. unfold verify_bundle.
  destruct (Load_bundle w (BundlePath cfg)) as [b|[e f]] eqn:El.
  2: { rewrite legacy_exit. cbn [fails exit]. no_success. }
  destruct (validateVerifyBundle (Some b)) as [[]|e] eqn:Ev; [|rewrite legacy_exit; no_success].
  destruct (buildCorroborationOption _ _) as [policy|e] eqn:Ep; [|no_success].
  destruct (evaluation (BundlePath cfg) b sel policy (StrictSourceSignatures cfg) (validated _ Ev) (selection_chooses _ _ _ _ Esel))
    as (r & -> & Hchain & Hcode).
  rewrite after_report_exit, Hcode by (intros (Hv & _)%Hcode; by apply Hchain). naive_solver.
Qed.

(** Whether the name of the object, if it bears a digest, bears the hash of the last record. *)
Definition key_matches (uri : string) (b : bundle) : Prop :=
  forall h r, Push.KeyHash uri = Some h -> last b = Some r -> Hash r = h.

Lemma last_some (b : bundle) : List.last (Some <$> b) None = last b.
Proof. induction b as [|r [|r' b] IH]; [done|done|]. exact IH. Qed.

Lemma key_check uri b :
  match Push.KeyHash uri with
  | None => true
  | Some h => match List.last (Some <$> b) None with Some r => String.eqb (Hash r) h | None => true end
  end = true <-> key_matches uri b.
Proof.
  unfold key_matches. rewrite last_some. destruct (Push.KeyHash uri) as [h|]; [|naive_solver].
  destruct (last b) as [r|]; [|naive_solver]. rewrite String.eqb_eq. naive_solver.
Qed.

Lemma written_exit cfg code p p' :
  exit (if verifyWantsStructuredJSON cfg || JSON cfg then
          if stdout_fails w then fails exitSystemError CEncode else mkOutcome code p []
        else mkOutcome code p' []) = 0 <-> writes cfg /\ code = 0.
Proof.
  unfold writes. destruct (verifyWantsStructuredJSON cfg), (JSON cfg), (stdout_fails w); cbn [orb exit fails];
    unfold exitSystemError; naive_solver.
Qed.

(** [atb verify --remote] exits with 0 exactly if: the object can be fetched and is a bundle with a manifest that can be
    read; the name of the profile resolves; the corroboration policy, if one is read, is valid; the hash chain, the latest
    bundle signature and the profiles are as for a local bundle; and the digest in the name of the object, if there is
    one, is the hash of the last record. The decisions need no signature, and neither snapshots nor anchor are
    checked, whatever the arguments ask for. *)
Theorem remote_exits_zero client cfg :
  exit (runVerifyRemote VerifyTokenDetailed anchor_text temporary encode_text policy_text
    verify_text type_name json_text w client cfg) = 0 <->
  writes cfg /\ exists bucket key GetObject body b selection policy,
    parseRemoteVerifyURI (RemoteURI cfg) = Some (bucket, key) /\ client = Some GetObject /\ GetObject bucket key = Ok body /\
    BundleIO.LoadReader (Some body) = Ok b /\ validateVerifyBundle (Some b) = Ok tt /\
    resolveVerifySelection (yaml w) (profile_file w) (ProfileID cfg) = Ok selection /\
    buildCorroborationOption (ReadFile w) cfg = Ok policy /\
    acceptable false selection b /\ key_matches (RemoteURI cfg) b.
Proof.
  unfold runVerifyRemote.
  destruct (parseRemoteVerifyURI _) as [[bucket key]|]; [|no_success]. cbv zeta.
  destruct client as [GetObject|]; [|no_success].
  destruct (GetObject bucket key) as [body|e] eqn:Eg; [|no_success].
  destruct (BundleIO.LoadReader (Some body)) as [b|e] eqn:El; [|no_success].
  destruct (validateVerifyBundle (Some b)) as [[]|e] eqn:Ev; [|no_success].
  destruct (resolveVerifySelection _ _ _) as [sel|e] eqn:Esel; [|no_success].
  destruct (buildCorroborationOption _ _) as [policy|e] eqn:Ep; [|no_success].
  destruct (evaluation (RemoteURI cfg) b sel policy false (validated _ Ev) (selection_chooses _ _ _ _ Esel))
    as (r & -> & _ & Hcode).
  rewrite written_exit.
  transitivity (writes cfg /\ acceptable false sel b /\ key_matches (RemoteURI cfg) b).
  - rewrite <- Hcode, <- key_check. apply and_iff_compat_l.
    destruct (match Push.KeyHash _ with Some _ => _ | None => true end); cbn [negb]; unfold exitIntegrityFailure; [tauto|].
    split; [done|]. by intros [_ ?].
  - split.
    + intros (Hw & Ha & Hk). split; [done|]. by exists bucket, key, GetObject, body, b, sel, policy.
    + intros (Hw & Hall). open_all Hall. simplify_eq.
      assert (x2 = body) as -> by congruence. assert (x3 = b) as -> by congruence. done.
Qed.
End success.

(** ** What the anchor check stands for *)

Section anchors.
Context `{Unicode} {pool : Type}.
Context (ReadFile : string -> result os_error bytes).
Context (ParseGenTime : bytes -> result string string).
Context (VerifyTokenDetailed : option pool -> bytes -> bytes -> TokenVerification * option string).
Context (temporary : option string) (encode_text : string).

#[local] Abbreviation checks := (verifyBundleAnchor ReadFile ParseGenTime VerifyTokenDetailed temporary encode_text).

(** The last anchor record, with the data that it holds. *)
Definition last_anchor (b : bundle) (i : nat) (data : anchorEventData) : Prop :=
  exists r raw, b !! i = Some r /\ Event.Type_ (Event_ r) = AnchorEventType /\
    Event.Data (Event_ r) = AString raw /\ decode_anchor_event raw = Some data /\
    forall j r', b !! j = Some r' -> (i < j)%nat -> Event.Type_ (Event_ r') <> AnchorEventType.

Lemma latest_anchor_last i records j :
  latest_anchor i records = Some j ->
  forall k r, records !! k = Some r -> (j < i + k)%nat -> Event.Type_ (Event_ r) <> AnchorEventType.
Proof.
  revert i j. induction records as [|r0 rest IH]; intros i j; cbn [latest_anchor]; [done|].
  destruct (latest_anchor (S i) rest) as [j'|] eqn:E.
  - intros [= ->] [|k] r; cbn.
    + intros [= <-] Hlt. exfalso. destruct (latest_anchor_spec _ _ _ E) as (k' & r' & -> & _). lia.
    + intros Hk Hlt. apply (IH _ _ E k r Hk). lia.
  - assert (forall k r, rest !! k = Some r -> Event.Type_ (Event_ r) <> AnchorEventType) as Hnone.
    { clear IH. revert E. generalize (S i). induction rest as [|r1 rest IH]; intros n; cbn [latest_anchor]; [done|].
      destruct (latest_anchor (S n) rest) eqn:E'; [done|]. destruct (String.eqb_spec (Event.Type_ (Event_ r1)) AnchorEventType); [done|].
      intros _ [|k] r; cbn; [by intros [= <-]|]. by apply (IH (S n)). }
    destruct (String.eqb _ _); [|done]. intros [= ->] [|k] r; cbn; [lia|]. intros Hk _. by apply (Hnone k).
Qed.

Lemma found_anchor b i data : latestAnchorEventData b = Ok (Some (i, data)) -> last_anchor b i data.
Proof.
  unfold latestAnchorEventData. destruct (latest_anchor 0 b) as [j|] eqn:E; [|done]. cbn [mbind option_bind].
  destruct (latest_anchor_spec _ _ _ E) as (k & r & Hk & Hr & Ht & _). cbn in Hk. subst k.
  rewrite (f_equal (fmap (pair j)) Hr : pair j <$> b !! j = Some (j, r)).
  destruct (Event.Data (Event_ r)) as [| | | |raw| | | | |] eqn:Ed; try done.
  destruct (decode_anchor_event raw) as [d|] eqn:Er; [|done]. intros [= -> ->].
  exists r, raw. split_and!; [done..|]. intros j' r' Hj' Hlt. by apply (latest_anchor_last _ _ _ E j').
Qed.

(** C28: The anchor check reports a certified time only when the file next to the bundle holds the very token whose SHA-256
    digest the last anchor record names, that token bears the time of the record, the digest in the record is the one
    of the records before it as they are saved, and the token verifies for that digest. *)
Theorem certified_anchor roots path b time :
  checks roots path b = Ok (AnchorCertified time) ->
  exists i data token raw,
    last_anchor b i data /\ CertifiedTime data = time /\
    ReadFile (path +:+ ".tsr") = Ok token /\ S_of (hex_encode (Sha256.sum256 token)) = TSRHash data /\
    ParseGenTime token = Ok time /\
    BundleIO.encode_records (take i b) = Some raw /\ S_of (hex_encode (Sha256.sum256 raw)) = ae_BundleHash data /\
    (VerifyTokenDetailed roots token (Sha256.sum256 raw)).2 = None.
Proof.
  unfold verifyBundleAnchor. destruct (latestAnchorEventData b) as [[[i data]|]|] eqn:El; [|done|done]. cbv zeta.
  destruct (ReadFile _) as [token|e] eqn:Et; [|by destruct (not_exist e)].
  destruct (String.eqb_spec (S_of (hex_encode (Sha256.sum256 token))) (TSRHash data)) as [Hh|]; [|done]. cbn [negb].
  destruct (ParseGenTime token) as [t|] eqn:Eg; [|done].
  destruct (String.eqb_spec t (CertifiedTime data)) as [Ht|]; [|done]. cbn [negb].
  unfold hashBundleSnapshotBeforeAnchor. destruct temporary; [done|].
  destruct (BundleIO.encode_records (take i b)) as [raw|] eqn:Er; [|done].
  destruct (String.eqb_spec (S_of (hex_encode (Sha256.sum256 raw))) (ae_BundleHash data)) as [Hb|]; [|done]. cbn [negb].
  destruct (VerifyTokenDetailed roots token (Sha256.sum256 raw)).2 as [text|] eqn:Ev; [done|].
  intros [= Htime]. exists i, data, token, raw. subst t time. split_and!; try done. by apply found_anchor.
Qed.
End anchors.

(** ** Examples *)

Section examples.
#[local] Existing Instance ascii_only.
#[local] Existing Instance BundleSign.toy.

(** A bundle with an anchor whose token is next to it. *)
Definition certified : bundle :=
  [sample_event 0 "atb.bundle.manifest" [];
   with_type AnchorEventType
     (AString (S_of (default [] (GoValue.Marshal (AStruct
       [("bundle_hash", AString (S_of (hex_encode prefix_digest)));
        ("tsr_hash", AString (S_of (hex_encode (Sha256.sum256 prefix_digest))));
        ("certified_time", AString "2025-01-01T00:00:00Z")])))))
     (sample_event 1 "" [])].

Definition token_file (path : string) : result os_error bytes :=
  if String.eqb path "b.atb.tsr" then Ok prefix_digest else Err (mkOSError true false "no such file").

#[local] Abbreviation check path :=
  (verifyBundleAnchor token_file (fun _ => Ok "2025-01-01T00:00:00Z") (fun _ : option unit => toy_token) None "" None path certified).

Lemma certified_checks : check "b.atb" = Ok (AnchorCertified "2025-01-01T00:00:00Z").
Proof. vm_compute. reflexivity. Qed.

(** Without the file the check has nothing to object to. *)
Example token_removed : check "c.atb" = Ok (NoTokenFile "c.atb.tsr").
Proof. vm_compute. reflexivity. Qed.

Lemma certified_anchor_witness :
  exists i data token raw,
    last_anchor certified i data /\ CertifiedTime data = "2025-01-01T00:00:00Z" /\
    token_file ("b.atb" +:+ ".tsr") = Ok token /\ S_of (hex_encode (Sha256.sum256 token)) = TSRHash data /\
    @Ok string _ "2025-01-01T00:00:00Z" = Ok "2025-01-01T00:00:00Z" /\
    BundleIO.encode_records (take i certified) = Some raw /\ S_of (hex_encode (Sha256.sum256 raw)) = ae_BundleHash data /\
    (toy_token token (Sha256.sum256 raw)).2 = None.
Proof.
  exact (certified_anchor token_file (fun _ => Ok "2025-01-01T00:00:00Z") (fun _ : option unit => toy_token) None "" None
    "b.atb" certified "2025-01-01T00:00:00Z" certified_checks).
Defined.

(** A bundle whose snapshot record holds the hash of other records. *)
Definition bad_snapshot : bundle :=
  match Append sample_new "atb.snapshot" (AMap [("bundle_hash", AString "00")]) with Ok b => b | Err _ => [] end.

Definition stored (b : bundle) : BundleIO.reader :=
  BundleSign.bytes_reader (default [] (BundleIO.encode_records b)).

Definition no_yaml : ProfileLoader.yaml_decoder :=
  ProfileLoader.mkYaml (fun _ => Err "") (fun _ => Err "") (fun _ => Err "") (fun _ => Err "").

Definition one_bundle (b : bundle) : world :=
  mkWorld (fun _ => false) no_yaml token_file (fun _ => Ok (stored b)) "" (false, false) false false.

#[local] Abbreviation atb_verify b args :=
  (@runVerify (Report.ordered []) ascii_only BundleSign.toy unit (fun _ => toy_token) (fun _ => Ok "") (fun _ => None)
    (fun _ => "") None "" (fun _ => "") (fun _ => "") (fun _ => "") (fun _ => "") (one_bundle b)
    (Some (fun _ _ => Ok (stored b))) args).

(** No profile applies to a bundle of a manifest alone: the command succeeds, and the report that it writes says [pass: false]. *)
Example success_without_pass :
  (fun o => (exit o, map (fun p => match p with PVerifier r => VerifyReport.v_Pass r | _ => true end) (stdout o)))
    (atb_verify sample_new ["--format"; "json"; "b.atb"]) = (0, [false]).
Proof. vm_compute. reflexivity. Qed.

(** The arguments of the snapshot check have no effect on a remote bundle. *)
Example remote_skips_snapshots :
  (exit (atb_verify bad_snapshot ["b.atb"; "--with-snapshot-check"; "--json"]),
   exit (atb_verify bad_snapshot ["--remote=s3://evidence/b.atb"; "--with-snapshot-check"; "--json"])) = (2, 0).
Proof. vm_compute. reflexivity. Qed.

Example argument_errors :
  map (fun args => (parseVerifyCommandArgs (fun _ => false) args).2)
    [["-p"]; ["a"; "b"]; ["--bundle=a"; "-b"; "c"]; ["--format"; "xml"]; ["--remote=s3://a/b"; "c"]; ["-x"]; ["--help"; "-x"];
     ["-f= JSON "; "--profile"; "rag_answer"; "runs/../b.atb"]] =
  [Some (MissingValue "-p"); Some TooManyPaths; Some PathAlreadySet; Some (InvalidFormat "xml"); Some RemoteAndBundle;
   Some (UnknownFlag "-x"); Some ErrVerifyHelp; None].
Proof. vm_compute. reflexivity. Qed.

End examples.
End VerifyCLI.
