(* ===== verification/PushCLI.v ===== *)
(** * Command line: atb push

    [cmd/atb/push.go], with [PathForBundle] and [Append] of package internal/retentionaudit: a bundle
    is sent to a store and its envelope to a queue. Theorems: what is sent is the file under the hash of
    its last record, the queue hears of it only after the store has it, and the object that was stored is found by
    [atb verify --remote] under a name that matches. *)

From S2P Require Import Prelude GoText GoPath Sha256 GoFloat GoJson GoValue GoUnicode GoTime GoStruct Push Canonicalize Event HashChain Bundle BundleIO BundleSign Profiles Templates Policy Verify Score ProfileLoader AnchorClassify Report VerifyReport VerifyCLI.
Import HashChain Bundle.

Module PushCLI.
Import Score AnchorClassify Push VerifyCLI.

Record pushConfig := mkPushConfig {
  Target : string;
  p_BundlePath : string;
  p_LockUntil : string;
  DryRun : bool;
  Format : string;
  c_EndpointURL : string;
  Region : string;
  p_LockMode : string;
  CredentialsSource : string;
  QueueEndpoint : string;
  HMACKeyHex : string
}.

Definition set_Target (v : string) (c : pushConfig) : pushConfig :=
  mkPushConfig v (p_BundlePath c) (p_LockUntil c) (DryRun c) (Format c) (c_EndpointURL c) (Region c) (p_LockMode c)
    (CredentialsSource c) (QueueEndpoint c) (HMACKeyHex c).
Definition set_p_BundlePath (v : string) (c : pushConfig) : pushConfig :=
  mkPushConfig (Target c) v (p_LockUntil c) (DryRun c) (Format c) (c_EndpointURL c) (Region c) (p_LockMode c)
    (CredentialsSource c) (QueueEndpoint c) (HMACKeyHex c).
Definition set_p_LockUntil (v : string) (c : pushConfig) : pushConfig :=
  mkPushConfig (Target c) (p_BundlePath c) v (DryRun c) (Format c) (c_EndpointURL c) (Region c) (p_LockMode c)
    (CredentialsSource c) (QueueEndpoint c) (HMACKeyHex c).
Definition set_DryRun (v : bool) (c : pushConfig) : pushConfig :=
  mkPushConfig (Target c) (p_BundlePath c) (p_LockUntil c) v (Format c) (c_EndpointURL c) (Region c) (p_LockMode c)
    (CredentialsSource c) (QueueEndpoint c) (HMACKeyHex c).
Definition set_Format (v : string) (c : pushConfig) : pushConfig :=
  mkPushConfig (Target c) (p_BundlePath c) (p_LockUntil c) (DryRun c) v (c_EndpointURL c) (Region c) (p_LockMode c)
    (CredentialsSource c) (QueueEndpoint c) (HMACKeyHex c).
Definition set_QueueEndpoint (v : string) (c : pushConfig) : pushConfig :=
  mkPushConfig (Target c) (p_BundlePath c) (p_LockUntil c) (DryRun c) (Format c) (c_EndpointURL c) (Region c)
    (p_LockMode c) (CredentialsSource c) v (HMACKeyHex c).
Definition set_HMACKeyHex (v : string) (c : pushConfig) : pushConfig :=
  mkPushConfig (Target c) (p_BundlePath c) (p_LockUntil c) (DryRun c) (Format c) (c_EndpointURL c) (Region c)
    (p_LockMode c) (CredentialsSource c) (QueueEndpoint c) v.

Definition default_push : pushConfig := mkPushConfig "" DefaultPath "" false formatText "" "" "" "" "" "".

(** ** The arguments *)

Inductive push_valued := PBundle | PLockUntil | PQueue | PHMAC | PFormat.
Inductive push_argument := AHelp | ADryRun | AValue (o : push_valued) | AInline (o : push_valued) (value : string) | AUnknown | ATarget.

Inductive push_parse_error :=
| ErrPushHelp | MissingValue (arg : string) | PathAlreadySet | UnknownFlag (arg : string) | TargetAlreadySet (arg : string)
| InvalidFormat (format : string).

Definition exactly (names : list string) (a : push_argument) (arg : string) : option push_argument :=
  if bool_decide (arg ∈ names) then Some a else None.

Definition inline (prefix : string) (o : push_valued) (arg : string) : option push_argument :=
  if HasPrefix arg prefix then Some (AInline o (Push.TrimPrefix arg prefix)) else None.

(** The cases of the switch, in their order. *)
Definition push_cases : list (string -> option push_argument) :=
  [exactly ["-h"; "--help"] AHelp;
   exactly ["--bundle"; "-b"] (AValue PBundle); inline "--bundle=" PBundle;
   exactly ["--lock-until"] (AValue PLockUntil); inline "--lock-until=" PLockUntil;
   exactly ["--queue"] (AValue PQueue); inline "--queue=" PQueue;
   exactly ["--hmac-key"] (AValue PHMAC); inline "--hmac-key=" PHMAC;
   exactly ["--dry-run"] ADryRun;
   exactly ["--format"] (AValue PFormat); inline "--format=" PFormat;
   fun arg => if HasPrefix arg "-" then Some AUnknown else None].

Definition classify_push_argument (arg : string) : push_argument :=
  match omap (fun c => c arg) push_cases with a :: _ => a | [] => ATarget end.

(** The configuration, and whether the target and the path were set. *)
Record parse_state := mkState { st_cfg : pushConfig; targetSet : bool; bundlePathSet : bool }.

Section parsing.
Context `{Unicode} (is_dir : string -> bool).

Definition assign_push (o : push_valued) (value : string) (st : parse_state) : result push_parse_error parse_state :=
  let set f := Ok (mkState (f (st_cfg st)) (targetSet st) (bundlePathSet st)) in
  match o with
  | PBundle =>
      if bundlePathSet st then Err PathAlreadySet
      else Ok (mkState (set_p_BundlePath (normalizeBundlePath is_dir value) (st_cfg st)) (targetSet st) true)
  | PLockUntil => set (set_p_LockUntil (TrimSpace value))
  | PQueue => set (set_QueueEndpoint (TrimSpace value))
  | PHMAC => set (set_HMACKeyHex (TrimSpace value))
  | PFormat => set (set_Format (ToLower (TrimSpace value)))
  end.

Fixpoint parse_push (st : parse_state) (args : list string) : parse_state * option push_parse_error :=
  match args with
  | [] => (st, None)
  | arg :: rest =>
      match classify_push_argument arg with
      | AHelp => (st, Some ErrPushHelp)
      | ADryRun => parse_push (mkState (set_DryRun true (st_cfg st)) (targetSet st) (bundlePathSet st)) rest
      | AValue o =>
          match rest with
          | [] => (st, Some (MissingValue arg))
          | value :: rest' => match assign_push o value st with Ok st' => parse_push st' rest' | Err e => (st, Some e) end
          end
      | AInline o value => match assign_push o value st with Ok st' => parse_push st' rest | Err e => (st, Some e) end
      | AUnknown => (st, Some (UnknownFlag arg))
      | ATarget =>
          if targetSet st then (st, Some (TargetAlreadySet arg))
          else parse_push (mkState (set_Target (TrimSpace arg) (st_cfg st)) true (bundlePathSet st)) rest
      end
  end.

Definition parsePushArgs (args : list string) : pushConfig * option push_parse_error :=
  let '(st, e) := parse_push (mkState default_push false false) args in
  let cfg := st_cfg st in
  (cfg, match e with
        | Some e => Some e
        | None =>
            if negb (String.eqb (Format cfg) formatText) && negb (String.eqb (Format cfg) formatJSON) then
              Some (InvalidFormat (Format cfg))
            else None
        end).
End parsing.

(** ** Defaults from the configuration file *)

Record pushSettings := mkSettings {
  f_Target : string; f_EndpointURL : string; f_Region : string; f_LockMode : string; f_LockUntil : string;
  f_CredentialsSource : string }.

Inductive defaults_error := ConfigUnreadable (text : string) | InvalidLockMode (mode : string).

Definition fill (current other : string) : string := if String.eqb (TrimSpace current) "" then TrimSpace other else current.

Section defaults.
(** [unicode.ToUpper] outside ASCII. *)
Context (upper_high : Z -> Z).

Definition to_upper (r : Z) : Z := if (97 <=? r) && (r <=? 122) then r - 32 else if r <? 128 then r else upper_high r.

(** [strings.ToUpper] *)
Definition ToUpper (s : string) : string := S_of (encode_runes (to_upper <$> runes (B s))).

(** The settings of the file: none, if there is no file or no push section in it. *)
Definition mergePushConfigWithDefaults (cfg : pushConfig) (settings : result string (option pushSettings)) :
    pushConfig * option defaults_error :=
  match settings with
  | Err text => (cfg, Some (ConfigUnreadable text))
  | Ok None => (cfg, None)
  | Ok (Some s) =>
      let mode := if String.eqb (TrimSpace (p_LockMode cfg)) "" then ToUpper (TrimSpace (f_LockMode s)) else p_LockMode cfg in
      let cfg := mkPushConfig (fill (Target cfg) (f_Target s)) (p_BundlePath cfg) (fill (p_LockUntil cfg) (f_LockUntil s)) (DryRun cfg)
        (Format cfg) (fill (c_EndpointURL cfg) (f_EndpointURL s)) (fill (Region cfg) (f_Region s)) mode
        (fill (CredentialsSource cfg) (f_CredentialsSource s)) (QueueEndpoint cfg) (HMACKeyHex cfg) in
      (cfg, if negb (String.eqb mode "") && negb (String.eqb mode "COMPLIANCE") && negb (String.eqb mode "GOVERNANCE") then
              Some (InvalidLockMode mode)
            else None)
  end.
End defaults.

(** ** Pieces *)

(** [time.Parse] of a date alone: four digits, two, and two. *)
Definition parse_date (s : string) : bool :=
  match B s with
  | y1 :: y2 :: y3 :: y4 :: b =>
      forallb is_digit [y1; y2; y3; y4] &&
      match (b ← GoTime.skip "-"%char b; '(month, b) ← getnum true b; b ← GoTime.skip "-"%char b; '(day, b) ← getnum true b; Some (month, day, b)) with
      | Some (month, day, []) =>
          (1 <=? month) && (month <=? 12) && (1 <=? day) && (day <=? days_in month (digits_value [y1; y2; y3; y4]))
      | _ => false
      end
  | _ => false
  end.

Definition parseLockUntil (s : string) : option string := if parse_date s then Some (s +:+ "T00:00:00Z") else None.

Definition parseHMACKey (value : string) : option bytes :=
  match hex_decode (B (TrimSpace value)) with
  | None | Some [] => None
  | Some key => Some key
  end.

(** The last time stamp that can be read, the one of the manifest, the time of the file, or the time now. *)
Fixpoint last_timestamp (reversed : list Record_) : option Z :=
  match reversed with
  | [] => None
  | r :: rest =>
      let ts := TrimSpace (Event.Timestamp (Event_ r)) in
      if String.eqb ts "" then last_timestamp rest
      else match parse_rfc3339 (B ts) with Some t => Some t | None => last_timestamp rest end
  end.

Definition inferSealTimestamp (modified : option Z) (now : Z) (b : bundle) : Z :=
  match last_timestamp (reverse b) with
  | Some t => t
  | None =>
      match Manifest b ≫= fun m => parse_rfc3339 (B (CreatedAt m)) with
      | Some t => t
      | None => default now modified
      end
  end.

(** [filepath.Dir] *)
Definition parent (path : string) : string :=
  match reverse (split_at slash (B path)) with
  | _ :: rest => Clean (S_of (join slash (reverse ([] :: rest))))
  | [] => "."
  end.

Definition last_part (path : string) : bytes := List.last (split_at slash (B path)) [].

(** [retentionaudit.PathForBundle] *)
Definition PathForBundle (bundlePath : string) : string :=
  let dir := parent (Clean bundlePath) in
  let dir := if bool_decide (last_part dir = B "run.atb") then parent dir else dir in
  Join dir ".atb/operations.atb".

Inductive audit_error := AuditLoad | AuditCreate | AuditAppend (e : append_error) | AuditSave.

(** [retentionaudit.Append]: the bundle that is saved, from the one that is there. A corrupt one is left alone. *)
Definition audit_append (existing : result BundleIO.verified_error bundle) (missing : bool) (fresh : result new_error bundle)
    (eventType : string) (data : any) (at_ : Z) : result audit_error bundle :=
  let base :=
    match existing with
    | Ok b => Ok b
    | Err _ => if missing then map_err (fun _ => AuditCreate) fresh else Err AuditLoad
    end in
  let? b := base in
  map_err AuditAppend (AppendWithOptions b eventType data (Some (mkOptions None None None (RFC3339Nano at_) "" "" "" None))).

(** How [Bundle.Save] ends: with an error and the old file, with an error after the rename that puts the new file in
    place (the directory is not synced, the lock not released), or well. [Save_ends]: there is nothing else. *)
Inductive save_end := Unsaved | SavedWithError | Saved.

Definition in_place {A} (o : save_end) (x : A) : option A := match o with Unsaved => None | _ => Some x end.

(** [retentionaudit.Append] with its save: the bundle that is put in place, if one is, and the error. *)
Definition audit_commit (o : save_end) (existing : result BundleIO.verified_error bundle) (missing : bool)
    (fresh : result new_error bundle) (eventType : string) (data : any) (at_ : Z) : option bundle * result audit_error unit :=
  match audit_append existing missing fresh eventType data at_ with
  | Err e => (None, Err e)
  | Ok b => (in_place o b, match o with Saved => Ok tt | _ => Err AuditSave end)
  end.

(** ** The command *)

(** What the command prints: the error, the preview, or the success with the mode that it shows for the lock. *)
Inductive shown :=
| SError | SPreview (target key headHash lockUntil : string) (envelope : option bytes) | SPushed (target key headHash : string) (locked : option string).

Inductive failure :=
| FArguments (e : push_parse_error) | FDefaults (e : defaults_error) | FKeyRequired | FKey | FTargetRequired | FLockUntil | FLoad (e : BundleIO.file_error)
| FEmpty | FTarget (e : uri_error) | FRead (e : os_error) | FEnvelope | FCredentials (text : string) | FUpload (e : push_error)
| FAudit (e : audit_error) | FQueue (e : queue_error).

(** The exit code with what was sent and recorded, in this order. [audit]: the audit bundle with the new record, if it
    was put in place, which it can be although its save failed. *)
Record pushed := mkPushed {
  code : Z;
  put : option PutObjectInput;
  audit : option (string * bundle);
  posted : option post;
  output : option shown;
  failed : option failure
}.

Definition fail (c : Z) (f : failure) : pushed := mkPushed c None None None (Some SError) (Some f).

(** What the command finds outside. *)
Record push_world := mkPushWorld {
  pw_is_dir : string -> bool;
  settings : result string (option pushSettings);
  pw_open : string -> result os_error BundleIO.reader;
  pw_wrapped : string;
  pw_read : string -> result os_error bytes;
  pw_client : result string (PutObjectInput -> option upload_error);
  pw_queue : post -> queue_response;
  pw_modified : option Z;
  pw_now : Z;
  pw_version : string;
  audit_existing : string -> result BundleIO.verified_error bundle;
  audit_missing : string -> bool;
  audit_fresh : result new_error bundle;
  audit_save : save_end
}.

Section run.
Context `{RangeOrder} `{Unicode} `{Crypto}.
Context (VerifyTokenDetailed : bytes -> bytes -> TokenVerification * option string).
Context (anchor_text : anchor_error -> string) (temporary : option string) (encode_text : string).
Context (policy_text : Policy.policy_error -> string) (verify_text : verify_failure -> string).
Context (type_name : any -> string) (json_text : string -> string) (upper_high : Z -> Z).
Context (w : push_world).

Definition inferPushProfileID (b : bundle) (bundlePath : string) : string :=
  match Report.Results (Report.Verify VerifyTokenDetailed anchor_text temporary encode_text policy_text verify_text type_name json_text
                          (Some b) bundlePath "") with
  | [] => ""
  | p :: _ => Verify.ProfileID p
  end.

Definition buildPushMeta (b : bundle) (bundleBytes : bytes) (bundlePath : string) : PushMeta :=
  mkPushMeta (match Manifest b with Some m => Bundle.BundleID m | None => "" end) (inferSealTimestamp (pw_modified w) (pw_now w) b)
    (inferPushProfileID b bundlePath) (S_of (hex_encode (Sha256.sum256 bundleBytes))).

Definition retention_event (headHash remoteURI lockMode lockUntil : string) : any :=
  AMap [("operation", AString "s3_object_lock_request"); ("enforcement_system", AString "s3"); ("outcome", AString "request_accepted");
        ("evidence_level", AString "remote_api_acceptance"); ("independently_verified", ABool false); ("bundle_hash", AString headHash);
        ("target", AString remoteURI); ("lock_mode", AString lockMode); ("lock_until", AString lockUntil)].

Definition Append_audit (path headHash remoteURI lockMode lockUntil : string) : option bundle * result audit_error unit :=
  audit_commit (audit_save w) (audit_existing w path) (audit_missing w path) (audit_fresh w) "data.retention.enforced"
    (retention_event headHash remoteURI lockMode lockUntil) (pw_now w).

(** The upload with its record in the audit bundle: what was sent, what was recorded, and the failure. *)
Definition upload (cfg : pushConfig) (bucket key headHash lockUntil : string) (bundleBytes : bytes) :
    (option PutObjectInput * option (string * bundle)) * option failure :=
  match pw_client w with
  | Err text => ((None, None), Some (FCredentials text))
  | Ok client =>
      let locks := negb (String.eqb (p_LockUntil cfg) "") in
      let lockMode := if locks then if String.eqb (p_LockMode cfg) "" then "COMPLIANCE" else p_LockMode cfg else "" in
      match S3Push (mkS3Pusher (Some client) bucket key lockMode lockUntil) bundleBytes with
      | (sent, Some e) => ((sent, None), Some (FUpload e))
      | (sent, None) =>
          if locks then
            let path := PathForBundle (p_BundlePath cfg) in
            let '(b, r) := Append_audit path headHash ("s3://" +:+ bucket +:+ "/" +:+ key) lockMode lockUntil in
            ((sent, pair path <$> b), match r with Err e => Some (FAudit e) | Ok _ => None end)
          else ((sent, None), None)
      end
  end.

(** After the checks of the arguments: [hmacKey] is there exactly if a queue was asked for. *)
Definition push_bundle (cfg : pushConfig) (hmacKey : option bytes) (lockUntil : string) : pushed :=
  let opened := pw_open w (p_BundlePath cfg) in
  let open_error := match opened with Err e => e | Ok _ => mkOSError false false "" end in
  match BundleIO.Load false (match opened with Ok r => Some r | Err _ => None end) false with
  | Err e => fail (classifyBundleLoadError (failure_of open_error (pw_wrapped w) e)) (FLoad e)
  | Ok b =>
      match last b with
      | None => fail exitUserError FEmpty
      | Some r =>
          let headHash := Hash r in
          let target_given := negb (String.eqb (TrimSpace (Target cfg)) "") in
          match (if target_given then ParseS3URI (Target cfg) else Ok ("", "")) with
          | Err e => fail exitUserError (FTarget e)
          | Ok (bucket, prefix) =>
              let key := if target_given then ObjectKey prefix headHash else "" in
              match pw_read w (Clean (p_BundlePath cfg)) with
              | Err e => fail exitSystemError (FRead e)
              | Ok bundleBytes =>
                  let meta := buildPushMeta b bundleBytes (p_BundlePath cfg) in
                  let queue key := mkQueue (QueueEndpoint cfg) key (pw_version w) in
                  let envelope := match hmacKey with None => Ok None | Some k =>
                    match MarshalEnvelope (queue k) meta with None => Err FEnvelope | Some body => Ok (Some body) end end in
                  match envelope with
                  | Err f => fail exitUserError f
                  | Ok envelope =>
                      if DryRun cfg then
                        mkPushed exitSuccess None None None (Some (SPreview (Target cfg) key headHash lockUntil envelope)) None
                      else
                        let '((sent, recorded), f) :=
                          if target_given then upload cfg bucket key headHash lockUntil bundleBytes else ((None, None), None) in
                        match f with
                        | Some f => mkPushed exitSystemError sent recorded None (Some SError) (Some f)
                        | None =>
                            let '(p, e) := match hmacKey with None => (None, None) | Some k => QueuePush (queue k) meta (pw_queue w) end in
                            match e with
                            | Some e => mkPushed exitSystemError sent recorded p (Some SError) (Some (FQueue e))
                            | None =>
                                mkPushed exitSuccess sent recorded p
                                  (Some (SPushed (Target cfg) key headHash
                                     (if target_given && negb (String.eqb (p_LockUntil cfg) "") then Some "COMPLIANCE" else None))) None
                            end
                        end
                  end
              end
          end
      end
  end.

Definition runPush (args : list string) : pushed :=
  let '(cfg, e) := parsePushArgs (pw_is_dir w) args in
  match e with
  | Some ErrPushHelp => mkPushed exitSuccess None None None None None
  | Some e => fail exitUserError (FArguments e)
  | None =>
      let '(cfg, e) := mergePushConfigWithDefaults upper_high cfg (settings w) in
      match e with
      | Some e => fail exitUserError (FDefaults e)
      | None =>
          let queueRequested := negb (String.eqb (TrimSpace (QueueEndpoint cfg)) "") in
          let hmacKey :=
            if negb queueRequested then Ok None
            else if String.eqb (TrimSpace (HMACKeyHex cfg)) "" then Err FKeyRequired
            else match parseHMACKey (HMACKeyHex cfg) with None => Err FKey | Some k => Ok (Some k) end in
          match hmacKey with
          | Err f => fail exitUserError f
          | Ok hmacKey =>
              if String.eqb (TrimSpace (Target cfg)) "" && negb queueRequested then fail exitUserError FTargetRequired
              else
                let lockUntil := if String.eqb (p_LockUntil cfg) "" then Some "" else parseLockUntil (p_LockUntil cfg) in
                match lockUntil with
                | None => fail exitUserError FLockUntil
                | Some lockUntil => push_bundle cfg hmacKey lockUntil
                end
          end
      end
  end.
End run.

(** ** How a save ends *)

Lemma Save_ends cancelled lock release_fails env fs path b states b' r :
  BundleIO.env_tmp env <> path -> fs !! BundleIO.env_tmp env = None ->
  BundleIO.Save cancelled lock release_fails env fs path b = (states, b', r) ->
  exists o, (r = Ok tt <-> o = Saved) /\
    match o with
    | Unsaved => BundleIO.final_state fs states !! path = fs !! path
    | _ => exists raw, BundleIO.encode_records b = Some raw /\
             BundleIO.final_state fs states !! path = Some (raw, BundleIO.bundleFileMode)
    end.
Proof.
  intros Hne Hfree. unfold BundleIO.Save, BundleIO.withBundleLock, BundleIO.saveUnlocked.
  destruct cancelled; [intros [= <- <- <-]; by exists Unsaved|].
  destruct lock; [|intros [= <- <- <-]; by exists Unsaved..].
  destruct (BundleIO.env_cancelled env 0); [intros [= <- <- <-]; by exists Unsaved|].
  destruct (BundleIO.env_mkdir_fails env); [intros [= <- <- <-]; by exists Unsaved|].
  destruct (BundleIO.encode_loop _ _ _ _) as [buf|e] eqn:Ee; [|intros [= <- <- <-]; by exists Unsaved].
  apply BundleIO.encode_loop_ok in Ee as (raw & Hraw & ->). cbn [app].
  destruct (BundleIO.writeAtomic _ _ _ _ _ _ _) as [st a] eqn:Ew.
  destruct (BundleIO.writeAtomic_states _ _ _ _ _ _ _ _ _ Hne Hfree Ew) as [Hst Hfin].
  change (if BundleIO.bundleFileMode =? 0 then _ else _) with BundleIO.bundleFileMode in *.
  destruct a as [[]|stage].
  - assert (BundleIO.final_state fs st !! path = Some (raw, BundleIO.bundleFileMode)) as Hnew
      by (rewrite Hfin; apply lookup_insert_eq).
    destruct release_fails; intros [= <- <- <-]; [exists SavedWithError|exists Saved]; (split; [done|by exists raw]).
  - intros [= <- <- <-]. assert (BundleIO.final_state fs st !! path = fs !! path \/
      BundleIO.final_state fs st !! path = Some (raw, BundleIO.bundleFileMode)) as [H|H].
    { unfold BundleIO.final_state. destruct (last st) as [s|] eqn:El; [|by left].
      apply last_Some_elem_of in El. rewrite Forall_forall in Hst. by destruct (Hst s El). }
    + by exists Unsaved.
    + exists SavedWithError. split; [done|]. by exists raw.
Qed.

(** ** What is sent *)

Lemma computed_plain e h : Compute e = Ok h -> h <> "" /\ slash ∉ B h.
Proof.
  intros Hc. pose proof (length_Compute _ _ Hc) as Hl. apply Compute_Ok in Hc as [_ ->]. split; [by intros E; rewrite E in Hl|].
  unfold sha256_hex. rewrite B_S_of. apply hex_no_slash.
Qed.

Lemma verified_head_plain b r : Bundle.Verify b = Ok tt -> last b = Some r -> Hash r <> "" /\ slash ∉ B (Hash r).
Proof.
  intros Hv Hr. apply last_Some in Hr as (l & ->). rewrite bundle_Verify_linked in Hv. unfold events, hashes in Hv.
  rewrite !map_app in Hv. cbn [map] in Hv. apply linked_snoc in Hv as (_ & _ & _ & Hc). by apply (computed_plain (Event_ r)).
Qed.

Section sent.
Context `{RangeOrder} `{Unicode} `{Crypto}.
Context (VerifyTokenDetailed : bytes -> bytes -> TokenVerification * option string).
Context (anchor_text : anchor_error -> string) (temporary : option string) (encode_text : string).
Context (policy_text : Policy.policy_error -> string) (verify_text : verify_failure -> string).
Context (type_name : any -> string) (json_text : string -> string) (upper_high : Z -> Z).
Context (w : push_world).

#[local] Abbreviation bundle_pushed :=
  (push_bundle VerifyTokenDetailed anchor_text temporary encode_text policy_text verify_text type_name json_text w).
#[local] Abbreviation atb_push :=
  (runPush VerifyTokenDetailed anchor_text temporary encode_text policy_text verify_text type_name json_text upper_high w).

Definition Load_pushed (path : string) : result BundleIO.file_error bundle :=
  BundleIO.Load false (match pw_open w path with Ok r => Some r | Err _ => None end) false.

Lemma uploaded cfg bucket key headHash lockUntil body sent recorded f :
  upload w cfg bucket key headHash lockUntil body = ((sent, recorded), f) -> key <> "" ->
  (forall p, sent = Some p -> Bucket p = bucket /\ Key p = key /\ Body p = body /\ bucket <> "") /\
  (f = None -> exists client p, pw_client w = Ok client /\ sent = Some p /\ client p = None).
Proof.
  unfold upload. destruct (pw_client w) as [client|text] eqn:Ec; [|intros [= <- <- <-]; done]. cbv zeta. unfold S3Push. cbn [Uploader s_Bucket s_Key].
  intros E Hk. destruct (String.eqb_spec bucket "") as [->|Hb]; [injection E as <- <- <-; done|].
  destruct (String.eqb_spec key "") as [->|_]; [done|]. cbn [s_LockMode s_LockUntil] in E.
  set (p := mkPut _ _ _ _ _) in E. destruct (client p) as [e|] eqn:Ep; cbn [fmap option_fmap option_map] in E.
  - injection E as <- <- <-. split; [|done]. by intros ? [= <-].
  - assert (sent = Some p) as ->.
    { destruct (negb _); [destruct (Append_audit _ _ _ _ _ _) as [b a]|]; by injection E as <- _ _. }
    split; [by intros ? [= <-]|]. intros _. by exists client, p.
Qed.

Lemma ObjectKey_nonempty prefix h : ObjectKey prefix h <> "".
Proof.
  unfold ObjectKey. cbv zeta. destruct (String.eqb prefix ""); [done|]. intros E. apply (f_equal B) in E. rewrite !B_app in E.
  by destruct (B (Push.TrimSuffix prefix "/")).
Qed.

Lemma parsed_bucket uri bucket prefix : ParseS3URI uri = Ok (bucket, prefix) -> bucket <> "" /\ slash ∉ B bucket.
Proof.
  unfold ParseS3URI. destruct (HasPrefix uri "s3://"); [|done]. cbn [negb]. destruct (cut_spec slash (B (Push.TrimPrefix uri "s3://"))) as [Hs _].
  destruct (cut slash _) as [[|c x] [rest|]]; [done|done| |];
    intros E%Ok_inj; apply pair_equal_spec in E as [<- _]; (split; [done|]); rewrite B_S_of; exact Hs.
Qed.

Lemma bundle_sent cfg hmacKey lockUntil p :
  put (bundle_pushed cfg hmacKey lockUntil) = Some p ->
  (exists b r prefix, Load_pushed (p_BundlePath cfg) = Ok b /\ last b = Some r /\
     pw_read w (Clean (p_BundlePath cfg)) = Ok (Body p) /\ Key p = ObjectKey prefix (Hash r) /\ Bucket p <> "" /\ slash ∉ B (Bucket p)) /\
  (posted (bundle_pushed cfg hmacKey lockUntil) <> None -> exists client, pw_client w = Ok client /\ client p = None).
Proof.
  unfold push_bundle. cbv zeta. fold (Load_pushed (p_BundlePath cfg)).
  destruct (Load_pushed (p_BundlePath cfg)) as [b|e]; [|done]. destruct (last b) as [r|] eqn:Er; [|done].
  destruct (String.eqb (TrimSpace (Target cfg)) ""); cbn [negb].
  - destruct (pw_read w _) as [body|e]; [|done]. destruct (match hmacKey with None => _ | Some k => _ end) as [env|e]; [|done].
    destruct (DryRun cfg); [done|]. destruct (match hmacKey with None => _ | Some k => _ end) as [q [e|]]; done.
  - destruct (ParseS3URI (Target cfg)) as [[bucket prefix]|e] eqn:Eu; [|done]. apply parsed_bucket in Eu as [Hb Hs].
    destruct (pw_read w _) as [body|e] eqn:Erd; [|done]. destruct (match hmacKey with None => _ | Some k => _ end) as [env|e]; [|done].
    destruct (DryRun cfg); [done|]. destruct (upload _ _ _ _ _ _ _) as [[sent recorded] f] eqn:Eup.
    destruct (uploaded _ _ _ _ _ _ _ _ _ Eup (ObjectKey_nonempty _ _)) as [Hsent Hok].
    assert (Hall : forall P, sent = Some p -> (P -> f = None) ->
      (exists b0 r0 prefix0, @Ok BundleIO.file_error _ b = Ok b0 /\ last b0 = Some r0 /\ @Ok os_error _ body = Ok (Body p) /\
        Key p = ObjectKey prefix0 (Hash r0) /\ Bucket p <> "" /\ slash ∉ B (Bucket p)) /\
      (P -> exists client, pw_client w = Ok client /\ client p = None)).
    { intros P Hp HP. destruct (Hsent p Hp) as (-> & Hkey & -> & _). split.
      - exists b, r, prefix. by split_and!.
      - intros Hpost. destruct (Hok (HP Hpost)) as (client & p' & Hc & Hp' & Ha). rewrite Hp in Hp'. injection Hp' as <-. by exists client. }
    destruct f as [f|]; [intros Hp; by apply Hall|].
    destruct (match hmacKey with None => _ | Some k => _ end) as [q [e|]]; intros Hp; (apply Hall; [exact Hp|done]).
Qed.

Definition uri_of (p : PutObjectInput) : string := "s3://" +:+ Bucket p +:+ "/" +:+ Key p.

Lemma merged_path cfg s : p_BundlePath (mergePushConfigWithDefaults upper_high cfg s).1 = p_BundlePath cfg.
Proof. by destruct s as [[s|]|]. Qed.

(** C27: What [atb push] sends to a store is the file that it reads; the object is named after the hash of the last record of the
    bundle that it loads. The queue hears of a bundle only if the store has taken it. And if the bundle verifies,
    [atb verify --remote] takes the URI of the object apart into the same bucket and key, and finds that the name
    matches. *)
Theorem pushed_object_is_found args p :
  put (atb_push args) = Some p ->
  let path := p_BundlePath (parsePushArgs (pw_is_dir w) args).1 in
  exists b r prefix, Load_pushed path = Ok b /\ last b = Some r /\ pw_read w (Clean path) = Ok (Body p) /\
    Key p = ObjectKey prefix (Hash r) /\
    (posted (atb_push args) <> None -> exists client, pw_client w = Ok client /\ client p = None) /\
    (Bundle.Verify b = Ok tt ->
     parseRemoteVerifyURI (uri_of p) = Some (Bucket p, Key p) /\ VerifyCLI.key_matches (uri_of p) b).
Proof.
  intros Hput path. assert (exists cfg hmacKey lockUntil, p_BundlePath cfg = path /\ atb_push args = bundle_pushed cfg hmacKey lockUntil)
    as (cfg & hmacKey & lockUntil & Hpath & Hrun).
  { unfold runPush, path in *. destruct (parsePushArgs _ args) as [cfg e]. destruct e as [[]|]; [done..|].
    pose proof (merged_path cfg (settings w)) as Hm. destruct (mergePushConfigWithDefaults _ _ _) as [cfg' [e|]]; [done|]. cbn [fst] in *.
    cbv zeta in *. destruct (if negb _ then _ else _) as [k|]; [|done]. destruct (_ && _); [done|].
    destruct (if String.eqb (p_LockUntil cfg') "" then _ else _) as [l|]; [|done]. by exists cfg', k, l. }
  rewrite Hrun in *. destruct (bundle_sent _ _ _ _ Hput) as ((b & r & prefix & Hl & Hr & Hbody & Hk & Hb & Hs) & Hq).
  rewrite Hpath in *. exists b, r, prefix. split_and!; [done..|]. intros Hv.
  destruct (verified_head_plain _ _ Hv Hr) as [Hne Hplain].
  assert (drop 5 (B (uri_of p)) = B (Bucket p) ++ slash :: B (Key p)) as Hd by (unfold uri_of; rewrite !B_app; reflexivity).
  split.
  - unfold parseRemoteVerifyURI. unfold uri_of at 1. rewrite has_prefix_cat. cbn [negb].
    unfold uri_of.
    match goal with |- context [AnchorClassify.TrimPrefix ?s ?x] => change (AnchorClassify.TrimPrefix s x) with (Push.TrimPrefix s x) end.
    rewrite trim_prefix_cat, B_app, B_app. change (B "/") with [slash]. cbn [app]. rewrite cut_app by done.
    destruct (B (Key p)) as [|c key] eqn:Ek.
    + exfalso. apply (ObjectKey_nonempty prefix (Hash r)). rewrite <- Hk. apply B_inj. by rewrite Ek.
    + by rewrite <- Ek, !S_of_B.
  - intros h r' Hh Hr'. rewrite Hr in Hr'. injection Hr' as <-. unfold KeyHash in Hh. unfold uri_of at 1 in Hh. rewrite has_prefix_cat, Hd, cut_app in Hh by done.
    rewrite Hk, key_hash_of in Hh by done. by injection Hh.
Qed.
End sent.

(** ** Examples *)

Section examples.
#[local] Existing Instance ascii_only.
#[local] Existing Instance BundleSign.toy.

Definition untrusted (_ _ : bytes) : TokenVerification * option string := (mkVerification false false false, Some "").

Definition file_bytes (b : bundle) : bytes := default [] (BundleIO.encode_records b).

(** One bundle, a store and a queue that take what they get. *)
Definition accepting (b : bundle) (s : option pushSettings) (store : option upload_error) (queue : Z) : push_world :=
  mkPushWorld (fun _ => false) (Ok s) (fun _ => Ok (stored b)) "" (fun _ => Ok (file_bytes b)) (Ok (fun _ => store)) (fun _ => Responds queue)
    None 0 "2.0" (fun _ => Err BundleIO.VNoManifest) (fun _ => true) (Ok sample_new) Saved.

#[local] Abbreviation pushing w args :=
  (@runPush (Report.ordered []) ascii_only BundleSign.toy untrusted (fun _ => "") None "" (fun _ => "") (fun _ => "") (fun _ => "") (fun _ => "")
    (fun r => r) w args).

#[local] Abbreviation to_store := (pushing (accepting sample_new None None 200) ["s3://evidence/a"; "-b"; "b.atb"]).

Lemma pushed_object_is_found_witness :
  exists p b r prefix, put to_store = Some p /\ last b = Some r /\ Key p = ObjectKey prefix (Hash r).
Proof.
  destruct (put to_store) as [p|] eqn:E.
  - destruct (@pushed_object_is_found (Report.ordered []) ascii_only BundleSign.toy untrusted (fun _ => "") None "" (fun _ => "")
      (fun _ => "") (fun _ => "") (fun _ => "") (fun r => r) (accepting sample_new None None 200) ["s3://evidence/a"; "-b"; "b.atb"] p E)
      as (b & r & prefix & _ & Hr & _ & Hk & _). exists p, b, r, prefix. auto.
  - exfalso. vm_compute in E. discriminate E.
Defined.

(** The exit code, whether something was stored and posted, and the mode that the command says the lock has. *)
Definition summary (o : pushed) : Z * bool * bool * option (option string) :=
  (code o, match put o with Some _ => true | None => false end, match posted o with Some _ => true | None => false end,
   match output o with Some (SPushed _ _ _ locked) => Some locked | _ => None end).

(** The last hash of a bundle that does not verify. *)
Definition forged : bundle := match sample_new with r :: _ => [mkRecord (Event_ r) "00" [] [] false] | [] => [] end.

Example pushes :
  map summary
    [pushing (accepting sample_new None None 200) ["s3://evidence/a"; "--queue=http://q"; "--hmac-key=00"];
     pushing (accepting sample_new None (Some (S3Error 403 "")) 200) ["s3://evidence/a"; "--queue=http://q"; "--hmac-key=00"];
     pushing (accepting sample_new None None 500) ["--queue=http://q"; "--hmac-key=00"];
     pushing (accepting sample_new None None 200) ["s3://evidence/a"; "--dry-run"];
     pushing (accepting sample_new None None 200) ["--queue=http://q"];
     pushing (accepting sample_new None None 200) ["s3://evidence/a"; "--lock-until=2025-02-29"];
     pushing (accepting forged None None 200) ["s3://evidence/a"]] =
  [(0, true, true, Some None); (3, true, false, None); (3, false, true, None); (0, false, false, None); (1, false, false, None);
   (1, false, false, None); (0, true, false, Some None)].
Proof. vm_compute. reflexivity. Qed.

(** The mode that the configuration file asks for is sent to the store; the command says COMPLIANCE. *)
Example governance_shown_as_compliance :
  (fun o => (LockMode <$> put o, output o))
    (pushing (accepting sample_new (Some (mkSettings "s3://evidence" "" "" "governance" "2030-01-01" "")) None 200) []) =
  (Some "GOVERNANCE", Some (SPushed "s3://evidence" (ObjectKey "" (match last sample_new with Some r => Hash r | None => "" end))
     (match last sample_new with Some r => Hash r | None => "" end) (Some "COMPLIANCE"))).
Proof. vm_compute. reflexivity. Qed.

Example audit_paths : map PathForBundle ["run.atb/bundle.atb"; "x/run.atb/b.atb"; "x/y/b.atb"; "b.atb"] =
  [".atb/operations.atb"; "x/.atb/operations.atb"; "x/y/.atb/operations.atb"; ".atb/operations.atb"].
Proof. vm_compute. reflexivity. Qed.
End examples.
End PushCLI.
