(* ===== verification/Ledger.v ===== *)
(** * Package internal/archive: the archive ledger

    [internal/archive/ledger.go]: one NDJSON line per archived bundle, each linked to the
    one before by the hash of the event that carries it. The theorems: a ledger grown by
    [NextEntry] and [Append] loads back entry for entry and verifies, and two ledgers
    that verify to the same head have the same entries. *)

From S2P Require Import Prelude GoText Sha256 GoFloat GoJson GoValue GoStruct Canonicalize Event HashChain Bundle BundleIO.
Import Canonicalize HashChain Bundle BundleIO.

Module Ledger.

Definition ledgerEventType : string := "archive.entry".

Record Entry := mkEntry {
  Sequence : Z;
  PrevHash : string;
  ArchivedAt : string;
  Source : string;
  Dest : string;
  SHA256 : string;
  HeadHash : string
}.

(** ** The entry as JSON *)

Definition fields (e : Entry) : list (string * any) :=
  [("seq", AInt (Sequence e)); ("prev_hash", AString (PrevHash e));
   ("archived_at", AString (ArchivedAt e)); ("source", AString (Source e));
   ("dest", AString (Dest e)); ("sha256", AString (SHA256 e));
   ("head_hash", AString (HeadHash e))].

Definition names : list string :=
  ["seq"; "prev_hash"; "archived_at"; "source"; "dest"; "sha256"; "head_hash"].

Definition zero : Entry := mkEntry 0 "" "" "" "" "" "".

Definition decode (j : json) : option Entry :=
  match j with
  | JNull => Some zero
  | JObj l =>
      sq ← decode_field names "seq" dec_int l 0;
      ph ← decode_field names "prev_hash" dec_string l "";
      aa ← decode_field names "archived_at" dec_string l "";
      so ← decode_field names "source" dec_string l "";
      de ← decode_field names "dest" dec_string l "";
      sh ← decode_field names "sha256" dec_string l "";
      hh ← decode_field names "head_hash" dec_string l "";
      Some (mkEntry sq ph aa so de sh hh)
  | _ => None
  end.

(** [json.Encoder.Encode]: the value and a newline. *)
Definition encode_line (e : Entry) : option bytes :=
  terminate <$> GoValue.Marshal (AStruct (fields e)).

(** ** Hashing *)

Definition ledgerEventData (e : Entry) : list (string * any) :=
  [("archived_at", AString (ArchivedAt e)); ("source", AString (Source e));
   ("dest", AString (Dest e)); ("sha256", AString (SHA256 e));
   ("head_hash", AString (HeadHash e))].

Definition ledger_event (e : Entry) : Event.t :=
  Event.mk (Sequence e) (PrevHash e) ledgerEventType "" (AStruct (ledgerEventData e))
    None None None "" "" "" "" None.

Definition ComputeHash (e : Entry) : result compute_error string := Compute (ledger_event e).

Inductive ledger_error :=
| LedgerSeq (i got expected : Z)
| LedgerPrev (i : Z) (got expected : string)
| LedgerHash (seq : Z).

Fixpoint verify_from (i : Z) (prev : string) (entries : list Entry) : result ledger_error string :=
  match entries with
  | [] => Ok prev
  | e :: rest =>
      let expectedSeq := i + 1 in
      if negb (Sequence e =? expectedSeq) then Err (LedgerSeq i (Sequence e) expectedSeq)
      else if negb (String.eqb (PrevHash e) prev) then Err (LedgerPrev i (PrevHash e) prev)
      else
        match ComputeHash e with
        | Err _ => Err (LedgerHash (Sequence e))
        | Ok current => verify_from (i + 1) current rest
        end
  end.

Definition Verify (entries : list Entry) : result ledger_error string :=
  verify_from 0 GenesisHash entries.

Definition NextEntry (existing : list Entry) (archivedAt source dest fileSHA256 headHash : string) :
    result ledger_error Entry :=
  let? prev := Verify existing in
  Ok (mkEntry (Z.of_nat (length existing) + 1) prev archivedAt source dest fileSHA256 headHash).

(** ** The file *)

Inductive load_failure := LedgerNotExist | LedgerOpen | LedgerParse | LedgerScan.

(** What opening and reading the file gives: missing, refused, or bytes and whether
    reading them ends in an error. *)
Inductive ledger_file := Missing | Refused | Contents (data : bytes) (fails : bool).

(** [bufio.MaxScanTokenSize] *)
Definition MaxScanTokenSize : Z := 65536.

Fixpoint load_lines (entries : list Entry) (lines : list bytes) : result load_failure (list Entry) :=
  match lines with
  | [] => Ok entries
  | rawLine :: rest =>
      if scan_too_long MaxScanTokenSize rawLine then Err LedgerScan
      else
        let line := strip_line rawLine in
        if bool_decide (line = []) then load_lines entries rest
        else
          match json_parse line ≫= decode with
          | None => Err LedgerParse
          | Some e => load_lines (entries ++ [e]) rest
          end
  end.

Definition Load (f : ledger_file) : result load_failure (list Entry) :=
  match f with
  | Missing => Err LedgerNotExist
  | Refused => Err LedgerOpen
  | Contents data fails =>
      let? entries := load_lines [] (raw_lines data) in
      if fails then Err LedgerScan else Ok entries
  end.

Definition LoadOrEmpty (f : ledger_file) : result load_failure (list Entry) :=
  match Load f with
  | Ok entries => Ok entries
  | Err LedgerNotExist => Ok []
  | Err e => Err e
  end.

Inductive append_failure := AppendMkdir | AppendOpen | AppendEncode | AppendWrite.

(** [Append] creates the file when it is missing; a failing write may leave a part of
    the line behind. *)
Definition Append (mkdir_fails open_fails : bool) (written : option nat) (f : ledger_file) (e : Entry) :
    ledger_file * result append_failure unit :=
  if mkdir_fails then (f, Err AppendMkdir)
  else if open_fails then (f, Err AppendOpen)
  else
    let data := match f with Contents data _ => data | _ => [] end in
    match encode_line e with
    | None => (Contents data false, Err AppendEncode)
    | Some line =>
        match written with
        | Some n => (Contents (data ++ take n line) false, Err AppendWrite)
        | None => (Contents (data ++ line) false, Ok tt)
        end
    end.

(** ** Entries read back *)

Definition valid (e : Entry) : bool :=
  int64 (Sequence e) && valid_string (PrevHash e) && valid_string (ArchivedAt e) &&
  valid_string (Source e) && valid_string (Dest e) && valid_string (SHA256 e) &&
  valid_string (HeadHash e).

(** A line that holds an entry, within the scanner's buffer. *)
Definition holds (l : bytes) (e : Entry) : Prop :=
  Forall printable l /\ l <> [] /\ Z.of_nat (length l) < MaxScanTokenSize /\
  json_parse l ≫= decode = Some e.

Lemma ledger_line e x :
  valid e = true -> encode_line e = Some (terminate x) -> Z.of_nat (length x) < MaxScanTokenSize ->
  holds x e.
Proof.
  intros Hv He Hl. unfold encode_line, GoValue.Marshal in He.
  destruct (to_json (AStruct (fields e))) as [j|] eqn:Ej; [|done].
  cbn [fmap option_fmap option_map] in He. injection He as He.
  apply app_inj_2 in He as [<- _]; [|done].
  pose proof (to_json_wf _ _ Ej) as Hwf. split_and!; [by apply json_print_printable| |done|].
  - destruct (json_print_start escape_string j Hwf) as (c & t & E & _). unfold json_print. by rewrite E.
  - rewrite json_parse_print; [|done|cbn in Ej; injection Ej as <-; cbn; unfold max_nesting_depth; lia].
    cbn [mbind option_bind].
    destruct (struct_decode names (fields e) j eq_refl) as (jl & -> & _ & Hd);
      [unfold fields, names; repeat constructor|done|].
    unfold valid in Hv. boolify. unfold decode. rewrite !Hd.
    cbn [assoc fields String.eqb Ascii.eqb Bool.eqb].
    rewrite read_int, !read_string by done. cbn [mbind option_bind]. by destruct e.
Qed.

Lemma load_held acc ls es :
  Forall2 holds ls es -> load_lines acc (terminate <$> ls) = Ok (acc ++ es).
Proof.
  intros HF. revert acc. induction HF as [|l e ls es (Hp & Hne & Hl & He) _ IH]; intros acc.
  { by rewrite app_nil_r. }
  rewrite fmap_cons. cbn [load_lines].
  replace (scan_too_long MaxScanTokenSize (terminate l)) with false.
  - rewrite strip_terminated, bool_decide_false, He, IH by done. by rewrite <- app_assoc.
  - symmetry. unfold scan_too_long, terminate. rewrite last_snoc, bool_decide_true by done.
    rewrite length_app. cbn [length]. apply Z.ltb_ge. lia.
Qed.

(** ** A ledger over time *)

(** The files an archive directory goes through: each step links an entry to the chain
    so far and appends its line. *)
Inductive grown : ledger_file -> list Entry -> Prop :=
| grown_none : grown Missing []
| grown_append f es archivedAt source dest sha head e f' :
    grown f es -> NextEntry es archivedAt source dest sha head = Ok e ->
    valid e = true -> seq_ok (Sequence e) = true ->
    (forall line, encode_line e = Some line -> Z.of_nat (length line) <= MaxScanTokenSize) ->
    Append false false None f e = (f', Ok tt) -> grown f' (es ++ [e]).

Lemma grown_lines f es :
  grown f es ->
  exists ls, Forall2 holds ls es /\
    match f with
    | Missing => ls = []
    | Refused => False
    | Contents data fails => data = mjoin (terminate <$> ls) /\ fails = false
    end.
Proof.
  induction 1 as [|f es aa so de sh hh e f' _ (ls & HF & Hf) Hn Hv _ Hlen Ha]; [by exists []|].
  unfold Append in Ha. destruct (encode_line e) as [line|] eqn:El; [|done]. injection Ha as <-.
  pose proof El as (x & _ & ->)%fmap_Some.
  assert (holds x e) as Hx.
  { apply ledger_line; [done|done|]. specialize (Hlen _ eq_refl). unfold terminate in Hlen.
    rewrite length_app in Hlen. cbn [length] in Hlen. lia. }
  exists (ls ++ [x]). split; [by apply Forall2_app; [|constructor]|].
  rewrite fmap_app, mjoin_app_bytes. cbn [fmap list_fmap mjoin list_join]. rewrite app_nil_r.
  destruct f as [| |data fails]; [by subst ls|done|]. by destruct Hf as [-> ->].
Qed.

Lemma ledger_verify_linked i prev es head :
  verify_from i prev es = Ok head <->
  exists hs, linked (i + 1) prev (map ledger_event es) hs /\ default prev (last hs) = head.
Proof.
  revert i prev. induction es as [|e es IH]; intros i prev; cbn [verify_from map].
  - split; [intros [= <-]; by exists []|]. by intros ([|h hs] & H & <-).
  - split.
    + destruct (Sequence e =? i + 1) eqn:E1; [|done].
      destruct (String.eqb (PrevHash e) prev) eqn:E2; [|done]. cbn [negb]. boolify.
      unfold ComputeHash. destruct (Compute (ledger_event e)) as [c|] eqn:Ec; [|done]. intros H.
      apply IH in H as (hs & Hl & Hh). exists (c :: hs). rewrite default_last_cons.
      split; [|done]. cbn [linked]. split_and!; [exact E1|exact E2|exact Ec|exact Hl].
    + intros ([|h hs] & H & Hh); [done|]. cbn [linked] in H. destruct H as (H1 & H2 & H3 & H4).
      cbn in H1, H2. rewrite H1, H2, Z.eqb_refl, String.eqb_refl. cbn [negb].
      unfold ComputeHash. rewrite H3. apply IH. exists hs. by rewrite default_last_cons in Hh.
Qed.

Lemma ledger_event_ok e : valid e = true -> seq_ok (Sequence e) = true -> event_ok (ledger_event e) = true.
Proof.
  intros Hv Hs. unfold valid in Hv. boolify. unfold event_ok, Event.valid. cbn [ledger_event
    Event.Sequence Event.PrevHash Event.Type_ Event.HashAlgo Event.ActorID Event.OrgID Event.WorkspaceID
    Event.Timestamp Event.TraceID Event.SpanID Event.ParentSpanID Event.Acquisition Event.Data].
  rewrite Hs. repeat match goal with H : _ = true |- _ => rewrite H; clear H end. done.
Qed.

Lemma grown_verifies f es : grown f es -> exists head, Verify es = Ok head.
Proof.
  induction 1 as [|f es aa so de sh hh e f' _ [head IH] Hn Hv Hs _ _]; [by eexists|].
  unfold NextEntry in Hn. rewrite IH in Hn. injection Hn as He.
  unfold Verify in IH |- *. apply ledger_verify_linked in IH as (hs & Hl & Hh).
  destruct (canonical_ok_Compute (ledger_event e)) as [h Hc];
    [by apply event_ok_canonical, ledger_event_ok|].
  exists h. apply ledger_verify_linked. exists (hs ++ [h]). rewrite map_app, last_snoc. split; [|done].
  apply linked_snoc. rewrite length_map, Hh, <- He in *. split_and!; [exact Hl|cbn; lia|reflexivity|exact Hc].
Qed.

(** ** Entries behind equal events *)

Lemma ledger_event_inj e e' :
  valid e = true -> valid e' = true -> Sequence e = Sequence e' ->
  Event.same_event (ledger_event e) (ledger_event e') -> e = e'.
Proof.
  intros Hv Hv' Hs (Hd & _ & Hp). cbn in Hp. unfold valid in Hv, Hv'. boolify.
  destruct Hd as (w & w' & Hw & Hw' & Hsame). cbn [ledger_event Event.Data] in Hw, Hw'.
  pose proof (fun k => struct_agree ["archived_at"; "source"; "dest"; "sha256"; "head_hash"]
    (ledgerEventData e) (ledgerEventData e') w w' k eq_refl ltac:(reflexivity) ltac:(reflexivity) Hw Hw' Hsame) as Hk.
  pose proof (Hk "archived_at") as G1. pose proof (Hk "source") as G2. pose proof (Hk "dest") as G3.
  pose proof (Hk "sha256") as G4. pose proof (Hk "head_hash") as G5. clear Hk Hw Hw'.
  cbn [assoc ledgerEventData String.eqb Ascii.eqb Bool.eqb] in G1, G2, G3, G4, G5. destruct e, e'. cbn in *.
  f_equal; [exact Hs|exact Hp|..]; (eapply agree_string; [| |eassumption]; assumption).
Qed.

(** ** Properties *)

(** An archive ledger that grew from nothing by linking and appending entries loads
    back to exactly those entries, in order, and verifies. *)
Theorem grown_ledger_verifies f es :
  grown f es ->
  LoadOrEmpty f = Ok es /\ exists head, Verify es = Ok head.
Proof.
  intros H. split; [|by eapply grown_verifies].
  destruct (grown_lines f es H) as (ls & HF & Hf). unfold LoadOrEmpty, Load.
  destruct f as [| |data fails]; [subst ls; by inversion HF|done|]. destruct Hf as [-> ->].
  rewrite raw_lines_terminated.
  - by rewrite (load_held [] ls es HF).
  - eapply Forall2_Forall_l; [exact HF|]. apply Forall_true. intros e l (Hp & _).
    by apply printable_no_newline.
Qed.

(** The ledger head commits to the whole ledger. Two ledgers that verify to the
    same head have the same entries, field by field, unless they contain a SHA-256
    collision or an entry that hashes to the genesis value. *)
Theorem ledger_head_commits es es' head :
  Verify es = Ok head -> Verify es' = Ok head ->
  Forall (fun e => valid e = true /\ seq_ok (Sequence e) = true) es ->
  Forall (fun e => valid e = true /\ seq_ok (Sequence e) = true) es' ->
  es = es' \/ chain_break (map ledger_event es) (map ledger_event es').
Proof.
  intros H H' Hv Hv'. apply ledger_verify_linked in H as (hs & Hl & Hh), H' as (hs' & Hl' & Hh').
  destruct (linked_same_head _ _ _ _ _ Hl Hl') as [[_ HF]|Hb]; [unfold head_hash; congruence| |by right].
  left. clear -HF Hv Hv'. revert es' Hv' HF.
  induction Hv as [|e es [He Hs] _ IH]; intros es' Hv' HF; inversion Hv'; subst; inversion HF; subst; [done|].
  destruct_and!. f_equal; [|by apply IH].
  apply ledger_event_inj; [done|done|done|].
  apply canonical_bytes_equal_fields; [by apply event_ok_canonical, ledger_event_ok..|done].
Qed.

(** ** Witnesses *)

Definition sample_next (es : list Entry) : Entry :=
  match NextEntry es "2026-01-02T03:04:05Z" "run.atb" "archive.atb/2026/run.atb" "00ff" GenesisHash
  with Ok e => e | Err _ => zero end.

Definition sample_first : Entry := Eval vm_compute in sample_next [].
Definition sample_second : Entry := Eval vm_compute in sample_next [sample_first].
Definition sample_ledger : list Entry := [sample_first; sample_second].

Definition sample_file (f : ledger_file) (e : Entry) : ledger_file := (Append false false None f e).1.

Lemma grown_ledger_verifies_witness :
  LoadOrEmpty (sample_file (sample_file Missing sample_first) sample_second) = Ok sample_ledger /\
  exists head, Verify sample_ledger = Ok head.
Proof.
  apply grown_ledger_verifies.
  apply (grown_append (sample_file Missing sample_first) [sample_first] "2026-01-02T03:04:05Z" "run.atb"
    "archive.atb/2026/run.atb" "00ff" GenesisHash);
    [|vm_compute; reflexivity|vm_compute; reflexivity|vm_compute; reflexivity
     |intros line [= <-]; vm_compute; discriminate|vm_compute; reflexivity].
  apply (grown_append Missing [] "2026-01-02T03:04:05Z" "run.atb"
    "archive.atb/2026/run.atb" "00ff" GenesisHash);
    [constructor|vm_compute; reflexivity|vm_compute; reflexivity|vm_compute; reflexivity
     |intros line [= <-]; vm_compute; discriminate|vm_compute; reflexivity].
Defined.

Lemma ledger_head_commits_witness :
  sample_ledger = sample_ledger \/
  chain_break (map ledger_event sample_ledger) (map ledger_event sample_ledger).
Proof.
  apply (ledger_head_commits _ _ (match Verify sample_ledger with Ok h => h | Err _ => "" end));
    [vm_compute; reflexivity|vm_compute; reflexivity
    |repeat (constructor; [split; vm_compute; reflexivity|]); constructor
    |repeat (constructor; [split; vm_compute; reflexivity|]); constructor].
Defined.
End Ledger.
