(* ===== verification/Journal.v ===== *)
(** * Package internal/capturejournal: the durable observation journal

    [internal/capturejournal/journal.go]: an append-only NDJSON file of hash-chained
    observations, with its torn-tail repair and its two sidecar markers. The world is
    the journal file and the markers; [Open], [Append], [Read] and the rest pass it
    explicitly, and every system call they make can fail. The theorems: reading accepts
    exactly the chained journals; appending keeps the journal readable on every branch;
    after a crash at any byte of an append, reopening recovers every acknowledged
    observation. *)

From S2P Require Import Prelude GoText Sha256 GoFloat GoJson GoValue GoStruct Canonicalize Event HashChain Bundle BundleIO BundleSign.
Import Canonicalize HashChain BundleIO BundleSign.

Module Journal.

Definition JournalFormatVersion : Z := 1.
Definition maxLineBytes : Z := 16 * 1024 * 1024.
Definition entryType : string := "atb.capture.journal.entry".

(** ** Entries *)

(** The payload is a [json.RawMessage]; nil encodes as null. *)
Record Entry := mkEntry {
  FormatVersion : Z;
  Position : Z;
  PrevHash : string;
  ObservationID : string;
  SourceSystem : string;
  SourceIncarnation : string;
  RepresentationVersion : string;
  RepresentationDigest : string;
  ObservationType : string;
  Payload : json;
  SourceTimestamp : string;
  ObservedAt : string;
  Adapter : string;
  AdapterVersion : string;
  Hash : string
}.

Definition zero : Entry := mkEntry 0 0 "" "" "" "" "" "" "" JNull "" "" "" "" "".

(** The fields from [observation_id] to [adapter_version], which [Entry] and
    [entryHashable] share. *)
Definition body_fields (e : Entry) : list (string * any) :=
  [("observation_id", AString (ObservationID e)); ("source_system", AString (SourceSystem e))]
  ++ omit_string "source_incarnation" (SourceIncarnation e)
  ++ [("representation_version", AString (RepresentationVersion e));
      ("representation_digest", AString (RepresentationDigest e));
      ("observation_type", AString (ObservationType e));
      ("payload", ARaw (Payload e))]
  ++ omit_string "source_timestamp" (SourceTimestamp e)
  ++ [("observed_at", AString (ObservedAt e)); ("adapter", AString (Adapter e));
      ("adapter_version", AString (AdapterVersion e))].

Definition fields (e : Entry) : list (string * any) :=
  [("format_version", AInt (FormatVersion e)); ("position", AInt (Position e));
   ("prev_hash", AString (PrevHash e))] ++ body_fields e ++ [("hash", AString (Hash e))].

Definition names : list string :=
  ["format_version"; "position"; "prev_hash"; "observation_id"; "source_system";
   "source_incarnation"; "representation_version"; "representation_digest";
   "observation_type"; "payload"; "source_timestamp"; "observed_at"; "adapter";
   "adapter_version"; "hash"].

Definition dec_raw (j : json) (_ : json) : option json := Some j.

Definition decode (j : json) : option Entry :=
  match j with
  | JNull => Some zero
  | JObj l =>
      let str name := decode_field names name dec_string l "" in
      fv ← decode_field names "format_version" dec_int l 0;
      po ← decode_field names "position" dec_int l 0;
      ph ← str "prev_hash"; oi ← str "observation_id"; ss ← str "source_system";
      si ← str "source_incarnation"; rv ← str "representation_version";
      rd ← str "representation_digest"; ot ← str "observation_type";
      pl ← decode_field names "payload" dec_raw l JNull;
      st ← str "source_timestamp"; oa ← str "observed_at"; ad ← str "adapter";
      av ← str "adapter_version"; ha ← str "hash";
      Some (mkEntry fv po ph oi ss si rv rd ot pl st oa ad av ha)
  | _ => None
  end.

Definition hashable (e : Entry) : list (string * any) :=
  ("position", AInt (Position e)) :: body_fields e.

Definition entry_event (e : Entry) : Event.t :=
  Event.mk (Position e) (PrevHash e) entryType "" (AStruct (hashable e))
    None None None "" "" "" "" None.

Definition computeHash (e : Entry) : result compute_error string := Compute (entry_event e).

(** [e.Position = pos; e.PrevHash = prev; e.Hash = h] and the format version. *)
Definition assign (version pos : Z) (prev h : string) (e : Entry) : Entry :=
  mkEntry version pos prev (ObservationID e) (SourceSystem e) (SourceIncarnation e)
    (RepresentationVersion e) (RepresentationDigest e) (ObservationType e) (Payload e)
    (SourceTimestamp e) (ObservedAt e) (Adapter e) (AdapterVersion e) h.

(** ** The world *)

Inductive degraded_reason := Oversized (size : Z) | WriteFailed | FsyncFailed | Reported (s : string).

(** The journal file and the [.repair] and [.degraded] sidecars. *)
Record world := mkWorld {
  file : option bytes;
  repair_marker : bool;
  degraded_marker : option degraded_reason
}.

Definition set_file (d : option bytes) (w : world) : world :=
  mkWorld d (repair_marker w) (degraded_marker w).
Definition set_repair (b : bool) (w : world) : world :=
  mkWorld (file w) b (degraded_marker w).
Definition set_degraded (r : degraded_reason) (w : world) : world :=
  mkWorld (file w) (repair_marker w) (Some r).

(** How a marker write ends: done, failed before the file existed, or failed after. *)
Inductive marker_write := MarkerOk | MarkerAbsent | MarkerLeft.

Definition markerPresent (w : world) : bool := repair_marker w.

Definition writeRepairMarker (m : marker_write) (w : world) : world * bool :=
  match m with
  | MarkerOk => (set_repair true w, true)
  | MarkerAbsent => (w, false)
  | MarkerLeft => (set_repair true w, false)
  end.

Definition writeDegradedMarker (m : marker_write) (r : degraded_reason) (w : world) : world * bool :=
  match m with
  | MarkerOk => (set_degraded r w, true)
  | MarkerAbsent => (w, false)
  | MarkerLeft => (set_degraded r w, false)
  end.

(** Present, even when unreadable. *)
Definition Degraded (w : world) : bool := bool_decide (degraded_marker w <> None).

(** ** Reading *)

Inductive journal_error :=
| ErrJournalCorrupted | ErrJournalVersionUnsupported | ErrJournalEntryTooLarge
| ErrJournalClosed | ErrJournalFailed
| EMkdir | ERead | EHash | ERepairMarker | ETruncate | EOpen | ESyncDir
| EObservationID | EMarshal | EWrite | EFsync | EClose.

(** The last newline's index. *)
Fixpoint last_newline_from (i found : Z) (data : bytes) : Z :=
  match data with
  | [] => found
  | c :: t => last_newline_from (i + 1) (if bool_decide (c = newline) then i else found) t
  end.

Definition lastNewline (data : bytes) : Z := last_newline_from 0 (-1) data.

Definition ends_in_newline (data : bytes) : bool := bool_decide (last data = Some newline).

(** The complete lines of a torn file. *)
Definition cut (data : bytes) : bytes :=
  let idx := lastNewline data in
  if 0 <=? idx then take (Z.to_nat (idx + 1)) data else [].

(** [lastCompleteOffset] reads the file again; an unreadable one counts as empty. *)
Definition lastCompleteOffset (data : option bytes) : Z :=
  match data with
  | None => 0
  | Some data =>
      if bool_decide (data = []) then 0
      else if ends_in_newline data then Z.of_nat (length data)
      else let idx := lastNewline data in if 0 <=? idx then idx + 1 else 0
  end.

Definition discardedTailBytes (data : option bytes) : Z :=
  match data with
  | None => 0
  | Some d =>
      if bool_decide (d = []) then 0
      else if ends_in_newline d then 0
      else Z.of_nat (length d) - lastCompleteOffset (Some d)
  end.

Definition prev_of (entries : list Entry) : string :=
  match last entries with None => GenesisHash | Some e => Hash e end.

(** One line against the entries before it. *)
Definition check_entry (entries : list Entry) (e : Entry) : result journal_error Entry :=
  if negb (FormatVersion e =? JournalFormatVersion) then Err ErrJournalVersionUnsupported
  else if negb (Position e =? Z.of_nat (length entries) + 1) then Err ErrJournalCorrupted
  else if negb (String.eqb (PrevHash e) (prev_of entries)) then Err ErrJournalCorrupted
  else
    match computeHash e with
    | Err _ => Err EHash
    | Ok h => if negb (String.eqb h (Hash e)) then Err ErrJournalCorrupted else Ok e
    end.

Fixpoint read_lines (entries : list Entry) (lines : list bytes) : result journal_error (list Entry) :=
  match lines with
  | [] => Ok entries
  | rawLine :: rest =>
      if scan_too_long maxLineBytes rawLine then Err ErrJournalCorrupted
      else
        let line := B (TrimSpace (S_of (strip_line rawLine))) in
        if bool_decide (line = []) then read_lines entries rest
        else
          match json_parse line ≫= decode with
          | None => Err ErrJournalCorrupted
          | Some e =>
              let? e := check_entry entries e in
              read_lines (entries ++ [e]) rest
          end
  end.

(** [None]: the file does not exist. *)
Definition readEntries (read_fails : bool) (data : option bytes) :
    result journal_error (list Entry * bool) :=
  match data with
  | None => Ok ([], false)
  | Some data =>
      if read_fails then Err ERead
      else if bool_decide (data = []) then Ok ([], false)
      else
        let repaired := negb (ends_in_newline data) in
        let? entries := read_lines [] (raw_lines (if repaired then cut data else data)) in
        Ok (entries, repaired)
  end.

Definition Read (read_fails : bool) (w : world) : result journal_error (list Entry * bool) :=
  let? r := readEntries read_fails (file w) in
  Ok (r.1, r.2 || (bool_decide (file w <> None) && markerPresent w)).

(** ** The open journal *)

Record journal := mkJournal {
  streamID : string;
  is_open : bool;
  entries : list Entry;
  repaired : bool;
  failed : bool
}.

Record open_env := mkOpenEnv {
  oe_mkdir_fails : bool;
  oe_remove_fails : bool;
  oe_read_fails : bool;
  oe_marker : marker_write;
  oe_reread_fails : bool;
  oe_truncate_fails : bool;
  oe_open_fails : bool;
  oe_sync_fails : bool
}.

(** Every call succeeds. *)
Definition calm : open_env := mkOpenEnv false false false MarkerOk false false false false.

Definition Open (env : open_env) (stream : string) (w : world) : world * result journal_error journal :=
  if oe_mkdir_fails env then (w, Err EMkdir)
  else
    let created := bool_decide (file w = None) in
    let w := if created && negb (oe_remove_fails env) then set_repair false w else w in
    match readEntries (oe_read_fails env) (file w) with
    | Err e => (w, Err e)
    | Ok (es, torn) =>
        let '(w, stop) :=
          if torn then
            let '(w, ok) := writeRepairMarker (oe_marker env) w in
            if negb ok then (w, Some ERepairMarker)
            else if oe_truncate_fails env then (w, Some ETruncate)
            else
              let offset := lastCompleteOffset (if oe_reread_fails env then None else file w) in
              (set_file (take (Z.to_nat offset) <$> file w) w, None)
          else (w, None) in
        match stop with
        | Some e => (w, Err e)
        | None =>
            let rep := torn || markerPresent w in
            if oe_open_fails env then (w, Err EOpen)
            else
              let w := set_file (Some (default [] (file w))) w in
              if created && oe_sync_fails env then (w, Err ESyncDir)
              else (w, Ok (mkJournal stream true es rep false))
        end
    end.

Definition LastPosition (j : journal) : Z :=
  match last (entries j) with None => 0 | Some e => Position e end.

Definition Len (j : journal) : Z := Z.of_nat (length (entries j)).

Definition EntriesFrom (j : journal) (position : Z) : list Entry :=
  List.filter (fun e => position <? Position e) (entries j).

Definition MarkDegraded (m : marker_write) (reason : string) (w : world) : world * bool :=
  writeDegradedMarker m (Reported reason) w.

Definition Close (close_fails : bool) (j : journal) : journal * result journal_error unit :=
  if negb (is_open j) then (j, Ok tt)
  else (mkJournal (streamID j) false (entries j) (repaired j) (failed j),
        if close_fails then Err EClose else Ok tt).

Record append_env := mkAppendEnv {
  ae_written : option nat;  (** bytes a failing write leaves behind *)
  ae_sync_fails : bool;
  ae_marker : marker_write
}.

(** The entry [Append] builds, before any write. *)
Definition prepare (j : journal) (e : Entry) : result journal_error (Entry * bytes) :=
  if negb (is_open j) then Err ErrJournalClosed
  else if failed j then Err ErrJournalFailed
  else
    let version := if FormatVersion e =? 0 then JournalFormatVersion else FormatVersion e in
    if JournalFormatVersion <? version then Err ErrJournalVersionUnsupported
    else if String.eqb (TrimSpace (ObservationID e)) "" then Err EObservationID
    else
      let e := assign version (wrap64 (LastPosition j + 1)) (prev_of (entries j)) (Hash e) e in
      match computeHash e with
      | Err _ => Err EHash
      | Ok h =>
          let e := assign version (Position e) (PrevHash e) h e in
          match GoValue.Marshal (AStruct (fields e)) with
          | None => Err EMarshal
          | Some line => Ok (e, terminate line)
          end
      end.

Definition set_failed (j : journal) : journal :=
  mkJournal (streamID j) (is_open j) (entries j) (repaired j) true.

Definition push (e : Entry) (j : journal) : journal :=
  mkJournal (streamID j) (is_open j) (entries j ++ [e]) (repaired j) (failed j).

Definition append_bytes (d : bytes) (w : world) : world := set_file (Some (default [] (file w) ++ d)) w.

Definition Append (env : append_env) (e : Entry) (wj : world * journal) :
    world * journal * result journal_error Entry :=
  let '(w, j) := wj in
  match prepare j e with
  | Err err => (w, j, Err err)
  | Ok (e, line) =>
      if maxLineBytes <? Z.of_nat (length line) then
        ((writeDegradedMarker (ae_marker env) (Oversized (Z.of_nat (length line))) w).1, j,
         Err ErrJournalEntryTooLarge)
      else
        match ae_written env with
        | Some n =>
            ((writeDegradedMarker (ae_marker env) WriteFailed (append_bytes (take n line) w)).1,
             set_failed j, Err EWrite)
        | None =>
            let w := append_bytes line w in
            if ae_sync_fails env then
              ((writeDegradedMarker (ae_marker env) FsyncFailed w).1, set_failed j, Err EFsync)
            else (w, push e j, Ok e)
        end
  end.

(** ** Trimming a JSON object's text *)

Lemma chunks_snoc s c : code c < 128 -> chunks (s ++ [c]) = chunks s ++ [(code c, [c])].
Proof.
  intros Hc. induction s as [|r bs s Hr _ _ IH|b s Hb Hh IH] using chunks_ind.
  - cbn [app]. by rewrite chunks_ascii.
  - rewrite <- app_assoc, !Hr, IH. done.
  - cbn [app]. assert (chunks (b :: s ++ [c]) = (RuneError, [b]) :: chunks (s ++ [c])) as ->;
      [|by rewrite Hb, IH]. clear IH.
    assert (is_cont c = false) as Hcc by (unfold is_cont; apply andb_false_iff; left; lia).
    cbn [chunks] in Hb |- *. rewrite (proj2 (Z.ltb_ge _ _) Hh) in Hb |- *.
    destruct s as [|b1 s]; cbn [app].
    { unfold utf8_2. by rewrite Hcc, andb_false_r. }
    destruct (utf8_2 b b1); [done|]. destruct s as [|b2 s]; cbn [app].
    { unfold utf8_3. by rewrite Hcc, !andb_false_r. }
    destruct (utf8_3 b b1 b2); [done|]. destruct s as [|b3 s]; cbn [app].
    { unfold utf8_4. by rewrite Hcc, !andb_false_r. }
    by destruct (utf8_4 b b1 b2 b3).
Qed.

(** Text between braces. *)
Definition braced (l : bytes) : Prop := exists mid, l = "{"%char :: mid ++ ["}"%char].

Lemma TrimSpace_braced l : braced l -> B (TrimSpace (S_of l)) = l.
Proof.
  intros (mid & ->). unfold TrimSpace. rewrite !B_S_of, chunks_ascii by done.
  rewrite chunks_snoc by done. cbn [drop_spaces].
  replace (is_space (code "{"%char)) with false by (by vm_compute).
  change ((code "{"%char, ["{"%char]) :: chunks mid ++ [(code "}"%char, ["}"%char])])
    with (((code "{"%char, ["{"%char]) :: chunks mid) ++ [(code "}"%char, ["}"%char])]).
  rewrite reverse_snoc. cbn [drop_spaces].
  replace (is_space (code "}"%char)) with false by (by vm_compute).
  rewrite reverse_cons, reverse_involutive.
  rewrite <- (chunks_ascii "{"%char mid), <- (chunks_snoc ("{"%char :: mid) "}"%char) by done.
  apply concat_chunks.
Qed.

(** ** Chained entries *)

(** The abstract journal: version 1 entries, numbered from 1, linked by their hashes. *)
Definition chained (es : list Entry) : Prop :=
  Forall (fun e => FormatVersion e = JournalFormatVersion) es /\
  linked 1 GenesisHash (map entry_event es) (map Hash es).

Lemma prev_of_last es : prev_of es = default GenesisHash (last (map Hash es)).
Proof.
  unfold prev_of. destruct es as [|e es _] using rev_ind; [done|]. rewrite map_app; cbn [map]; by rewrite !last_snoc.
Qed.

Lemma chained_snoc es e :
  chained (es ++ [e]) <->
  chained es /\ FormatVersion e = JournalFormatVersion /\
  Position e = Z.of_nat (length es) + 1 /\ PrevHash e = prev_of es /\ computeHash e = Ok (Hash e).
Proof.
  unfold chained, computeHash. rewrite Forall_app, Forall_singleton, !map_app, prev_of_last.
  cbn [map]. rewrite linked_snoc, length_map.
  change (Event.Sequence (entry_event e)) with (Position e).
  change (Event.PrevHash (entry_event e)) with (PrevHash e).
  replace (1 + Z.of_nat (length es)) with (Z.of_nat (length es) + 1) by lia. tauto.
Qed.

Lemma check_entry_spec es e e' :
  chained es -> check_entry es e = Ok e' <-> e' = e /\ chained (es ++ [e]).
Proof.
  intros Hc. rewrite chained_snoc. unfold check_entry. split.
  - intros H. destruct (FormatVersion e =? _) eqn:E1; [|discriminate].
    destruct (Position e =? _) eqn:E2; [|discriminate].
    destruct (String.eqb (PrevHash e) _) eqn:E3; [|discriminate]. cbn [negb] in H.
    destruct (computeHash e) as [h|] eqn:E4; [|discriminate].
    destruct (String.eqb h (Hash e)) eqn:E5; [|discriminate]. cbn [negb] in H. boolify.
    injection H as <-. subst h. by split_and!.
  - intros (-> & _ & H1 & H2 & H3 & H4).
    rewrite H1, H2, H3, H4, !Z.eqb_refl, !String.eqb_refl. done.
Qed.

Lemma read_lines_chained acc lines es :
  chained acc -> read_lines acc lines = Ok es -> chained es /\ acc `prefix_of` es.
Proof.
  revert acc. induction lines as [|l lines IH]; intros acc Hc H; cbn [read_lines] in H.
  { injection H as <-. by split. }
  destruct (scan_too_long _ _); [discriminate|]. destruct (bool_decide _); [by apply IH|].
  destruct (_ ≫= decode) as [e|]; [|discriminate].
  destruct (check_entry acc e) as [e'|] eqn:Ee; [|discriminate].
  apply check_entry_spec in Ee as [-> Hc']; [|done].
  destruct (IH _ Hc' H) as [? ?]. split; [done|]. etrans; [|done]. by eexists.
Qed.

(** ** Lines that hold entries *)

Definition holds (l : bytes) (e : Entry) : Prop :=
  Forall printable l /\ braced l /\ Z.of_nat (length l) < maxLineBytes /\
  json_parse l ≫= decode = Some e.

Lemma read_held ls es acc :
  Forall2 holds ls es -> chained (acc ++ es) ->
  read_lines acc (terminate <$> ls) = Ok (acc ++ es).
Proof.
  intros HF. revert acc. induction HF as [|l e ls es (Hp & Hb & Hl & He) _ IH]; intros acc Hc.
  { by rewrite app_nil_r. }
  rewrite fmap_cons. cbn [read_lines].
  replace (scan_too_long maxLineBytes (terminate l)) with false.
  2:{ symmetry. unfold scan_too_long, terminate. rewrite last_snoc, bool_decide_true by done.
      rewrite length_app. cbn [length]. apply Z.ltb_ge. lia. }
  rewrite strip_terminated, TrimSpace_braced, bool_decide_false, He by (done || by destruct Hb as [? ->]).
  replace (acc ++ e :: es) with ((acc ++ [e]) ++ es) in Hc |- * by (by rewrite <- app_assoc).
  assert (chained (acc ++ [e])) as Hc1.
  { clear -Hc. induction es as [|x es IH] using rev_ind; [by rewrite app_nil_r in Hc|].
    apply IH. rewrite app_assoc in Hc. by apply chained_snoc in Hc as [? _]. }
  rewrite (proj2 (check_entry_spec acc e e ltac:(by apply chained_snoc in Hc1 as [? _]))) by done.
  by apply IH.
Qed.

Lemma held_no_newline ls es : Forall2 holds ls es -> Forall (fun l => newline ∉ l) ls.
Proof.
  intros HF. eapply Forall2_Forall_l; [exact HF|]. apply Forall_true. intros e l (Hp & _).
  by apply printable_no_newline.
Qed.

(** ** Torn tails *)

Lemma last_newline_app i f a b :
  last_newline_from i f (a ++ b) = last_newline_from (i + Z.of_nat (length a)) (last_newline_from i f a) b.
Proof.
  revert i f. induction a as [|c a IH]; intros i f; cbn [app length last_newline_from].
  - by replace (i + Z.of_nat 0) with i by lia.
  - rewrite IH. f_equal. lia.
Qed.

Lemma last_newline_none i f b : newline ∉ b -> last_newline_from i f b = f.
Proof.
  revert i f. induction b as [|c b IH]; intros i f H; [done|]. apply not_elem_of_cons in H as [H1 H2].
  cbn [last_newline_from]. rewrite bool_decide_false by done. by apply IH.
Qed.

(** A file of complete lines and a fragment. *)
Lemma complete_cases (ls : list bytes) :
  mjoin (terminate <$> ls) = [] /\ ls = [] \/ exists p, mjoin (terminate <$> ls) = p ++ [newline].
Proof.
  destruct ls as [|l ls _] using rev_ind; [by left|]. right. rewrite fmap_app, mjoin_app_bytes.
  cbn [fmap list_fmap]. change (mjoin [terminate l]) with (terminate l ++ []). rewrite app_nil_r.
  unfold terminate at 2. rewrite app_assoc. by eexists.
Qed.

Lemma lastNewline_torn ls frag :
  newline ∉ frag ->
  lastNewline (mjoin (terminate <$> ls) ++ frag) = Z.of_nat (length (mjoin (terminate <$> ls))) - 1.
Proof.
  intros Hf. unfold lastNewline. rewrite last_newline_app, last_newline_none by done.
  destruct (complete_cases ls) as [[-> _]|[p ->]]; [done|].
  rewrite last_newline_app, length_app. cbn [last_newline_from length].
  rewrite bool_decide_true by done. lia.
Qed.

Lemma torn_end ls frag :
  frag <> [] -> newline ∉ frag -> ends_in_newline (mjoin (terminate <$> ls) ++ frag) = false.
Proof.
  intros Hne Hf. unfold ends_in_newline. rewrite last_app_nonempty by done.
  apply bool_decide_eq_false. by apply last_unterminated.
Qed.

Lemma cut_torn ls frag :
  newline ∉ frag -> cut (mjoin (terminate <$> ls) ++ frag) = mjoin (terminate <$> ls).
Proof.
  intros Hf. unfold cut. rewrite lastNewline_torn by done.
  destruct (complete_cases ls) as [[-> _]|[p E]]; [done|].
  replace (0 <=? _) with true by (symmetry; apply Z.leb_le; rewrite E, length_app; cbn; lia).
  replace (Z.to_nat _) with (length (mjoin (terminate <$> ls))) by lia. apply take_app_length.
Qed.

Lemma offset_torn ls frag :
  newline ∉ frag ->
  lastCompleteOffset (Some (mjoin (terminate <$> ls) ++ frag)) = Z.of_nat (length (mjoin (terminate <$> ls))).
Proof.
  intros Hf. unfold lastCompleteOffset. destruct frag as [|c frag].
  - rewrite app_nil_r. destruct (complete_cases ls) as [[-> _]|[p E]]; [done|]. rewrite E.
    rewrite bool_decide_false by (by destruct p). unfold ends_in_newline.
    by rewrite last_snoc, bool_decide_true.
  - rewrite bool_decide_false by (by destruct (mjoin (terminate <$> ls))).
    rewrite torn_end, lastNewline_torn by done.
    destruct (complete_cases ls) as [[-> _]|[p E]]; [done|].
    replace (0 <=? _) with true by (symmetry; apply Z.leb_le; rewrite E, length_app; cbn; lia). lia.
Qed.

Lemma readEntries_torn ls frag es :
  newline ∉ frag -> Forall2 holds ls es -> chained es ->
  readEntries false (Some (mjoin (terminate <$> ls) ++ frag)) = Ok (es, negb (bool_decide (frag = []))).
Proof.
  intros Hf HF Hc. unfold readEntries.
  assert (read_lines [] (raw_lines (mjoin (terminate <$> ls))) = Ok es) as Hr.
  { rewrite raw_lines_terminated by (by eapply held_no_newline). by apply (read_held ls es []). }
  destruct frag as [|c frag].
  - rewrite app_nil_r. destruct (complete_cases ls) as [[E ->]|[p E]].
    + rewrite E in Hr |- *. injection Hr as <-. done.
    + rewrite E, bool_decide_false by (by destruct p). unfold ends_in_newline.
      rewrite last_snoc, bool_decide_true by done. cbn [negb]. rewrite <- E, Hr. done.
  - rewrite !bool_decide_false by (done || by destruct (mjoin (terminate <$> ls))).
    rewrite torn_end, cut_torn by done. cbn [negb]. by rewrite Hr.
Qed.

(** ** Entries read back *)

(** An observation in valid text whose payload is a JSON value within the nesting
    limit. *)
Definition entry_ok (e : Entry) : bool :=
  valid_string (ObservationID e) && valid_string (SourceSystem e) &&
  valid_string (SourceIncarnation e) && valid_string (RepresentationVersion e) &&
  valid_string (RepresentationDigest e) && valid_string (ObservationType e) &&
  valid_string (SourceTimestamp e) && valid_string (ObservedAt e) &&
  valid_string (Adapter e) && valid_string (AdapterVersion e) &&
  wf_json (Payload e) && valid_json (Payload e) && (json_depth (Payload e) <? max_nesting_depth)%nat.

Lemma fields_sub e : (fields e).*1 `sublist_of` names.
Proof. unfold fields, body_fields, names. rewrite <- !app_assoc. solve_fields. Qed.

Lemma fields_assoc e :
  assoc "format_version" (fields e) = Some (AInt (FormatVersion e)) /\
  assoc "position" (fields e) = Some (AInt (Position e)) /\
  assoc "prev_hash" (fields e) = Some (AString (PrevHash e)) /\
  assoc "observation_id" (fields e) = Some (AString (ObservationID e)) /\
  assoc "source_system" (fields e) = Some (AString (SourceSystem e)) /\
  assoc "source_incarnation" (fields e) = opt_string (SourceIncarnation e) /\
  assoc "representation_version" (fields e) = Some (AString (RepresentationVersion e)) /\
  assoc "representation_digest" (fields e) = Some (AString (RepresentationDigest e)) /\
  assoc "observation_type" (fields e) = Some (AString (ObservationType e)) /\
  assoc "payload" (fields e) = Some (ARaw (Payload e)) /\
  assoc "source_timestamp" (fields e) = opt_string (SourceTimestamp e) /\
  assoc "observed_at" (fields e) = Some (AString (ObservedAt e)) /\
  assoc "adapter" (fields e) = Some (AString (Adapter e)) /\
  assoc "adapter_version" (fields e) = Some (AString (AdapterVersion e)) /\
  assoc "hash" (fields e) = Some (AString (Hash e)).
Proof. unfold fields, body_fields. assoc_fields. Qed.

Lemma entry_json e :
  entry_ok e = true ->
  exists kvs, to_json (AStruct (fields e)) = Some (JObj kvs) /\
    (json_depth (JObj kvs) <= max_nesting_depth)%nat.
Proof.
  intros Hok. unfold entry_ok in Hok. rewrite !andb_true_iff in Hok. destruct_and!.
  match goal with H : (_ <? _)%nat = true |- _ => apply Nat.ltb_lt in H; rename H into Hd end.
  match goal with H : wf_json _ = true |- _ => rename H into Hw end.
  unfold fields, body_fields, omit_string.
  destruct (String.eqb (SourceIncarnation e) ""), (String.eqb (SourceTimestamp e) "");
    cbn [to_json app mapM fst snd fmap option_fmap option_map mbind option_bind]; rewrite Hw;
    cbn [fmap option_fmap option_map mbind option_bind]; eexists; (split; [reflexivity|]);
    cbn [json_depth map snd]; unfold max_list; cbn [fold_right]; lia.
Qed.

Lemma entry_decode e j :
  entry_ok e = true -> int64 (FormatVersion e) = true -> int64 (Position e) = true ->
  valid_string (PrevHash e) = true -> valid_string (Hash e) = true ->
  to_json (AStruct (fields e)) = Some j -> decode (coerce_json j) = Some e.
Proof.
  intros Hok H1 H2 H3 H4 Hj. unfold entry_ok in Hok. rewrite !andb_true_iff in Hok. destruct_and!.
  destruct (struct_decode names (fields e) j eq_refl (fields_sub e) Hj) as (jl & -> & _ & Hd).
  destruct (fields_assoc e) as (E1 & E2 & E3 & E4 & E5 & E6 & E7 & E8 & E9 & E10 & E11 & E12 & E13 & E14 & E15).
  unfold decode. rewrite !Hd, E1, E2, E3, E4, E5, E6, E7, E8, E9, E10, E11, E12, E13, E14, E15.
  rewrite !read_int, !read_string by done. cbn [mbind option_bind].
  rewrite !read_omit_string by done. cbn [mbind option_bind].
  match goal with H : wf_json _ = true |- _ => cbn [to_json]; rewrite H end.
  cbn [mbind option_bind]. unfold dec_raw. rewrite coerce_valid_json by done.
  cbn [mbind option_bind]. by destruct e.
Qed.

Lemma entry_line e x :
  entry_ok e = true -> int64 (FormatVersion e) = true -> int64 (Position e) = true ->
  valid_string (PrevHash e) = true -> valid_string (Hash e) = true ->
  GoValue.Marshal (AStruct (fields e)) = Some x -> Z.of_nat (length x) < maxLineBytes -> holds x e.
Proof.
  intros Hok H1 H2 H3 H4 Hx Hl. destruct (entry_json e Hok) as (kvs & Hj & Hdepth).
  unfold GoValue.Marshal in Hx. rewrite Hj in Hx. injection Hx as <-.
  pose proof (to_json_wf _ _ Hj) as Hwf. split_and!.
  - by apply json_print_printable.
  - unfold json_print. cbn [json_print_with]. by eexists.
  - done.
  - rewrite json_parse_print by done. cbn [mbind option_bind]. by apply entry_decode.
Qed.

(** ** Appending *)

Lemma entry_ok_assign v p ph h e : entry_ok (assign v p ph h e) = entry_ok e.
Proof. done. Qed.

Lemma computeHash_assign v p ph h v' h' e :
  computeHash (assign v p ph h e) = computeHash (assign v' p ph h' e).
Proof. done. Qed.

Lemma prev_of_valid es : chained es -> valid_string (prev_of es) = true.
Proof.
  destruct es as [|e es _] using rev_ind; [done|].
  intros (_ & _ & _ & _ & H)%chained_snoc. unfold prev_of. rewrite last_snoc.
  by eapply Compute_valid.
Qed.

Lemma LastPosition_chained j : chained (entries j) -> LastPosition j = Z.of_nat (length (entries j)).
Proof.
  unfold LastPosition. destruct (entries j) as [|e es _] using rev_ind; [done|].
  intros (_ & _ & H & _)%chained_snoc. rewrite last_snoc, length_app, H. cbn. lia.
Qed.

(** What [Append] prepares extends the chain, and its line reads back. *)
Lemma prepare_spec j e e' line :
  chained (entries j) -> Z.of_nat (length (entries j)) < 2 ^ 63 - 1 ->
  entry_ok e = true -> 0 <= FormatVersion e -> prepare j e = Ok (e', line) ->
  is_open j = true /\ failed j = false /\ chained (entries j ++ [e']) /\
  exists x, line = terminate x /\ (Z.of_nat (length line) <= maxLineBytes -> holds x e') /\
    GoValue.Marshal (AStruct (fields e')) = Some x.
Proof.
  intros Hc Hn Hok Hv. unfold prepare. destruct (is_open j); [|discriminate].
  destruct (failed j); [discriminate|]. cbn [negb].
  set (version := if FormatVersion e =? 0 then _ else _).
  destruct (JournalFormatVersion <? version) eqn:Ev; [discriminate|].
  assert (version = 1) as Hver.
  { unfold version, JournalFormatVersion in *. destruct (FormatVersion e =? 0) eqn:E0; boolify; lia. }
  clearbody version. subst version. destruct (String.eqb (TrimSpace _) ""); [discriminate|].
  rewrite LastPosition_chained, wrap64_id by (done || lia).
  set (e1 := assign 1 _ _ _ e). destruct (computeHash e1) as [h|] eqn:Eh; [|discriminate].
  set (e2 := assign 1 (Position e1) (PrevHash e1) h e1).
  destruct (GoValue.Marshal _) as [x|] eqn:Ex; [|discriminate]. intros [= <- <-].
  split_and!; [done|done| |].
  - apply chained_snoc. split_and!; [exact Hc|reflexivity|reflexivity|reflexivity|].
    unfold e2. rewrite (computeHash_assign _ _ _ _ 1 (Hash e1)). exact Eh.
  - exists x. split_and!; [done| |exact Ex]. intros Hl. apply entry_line; [exact Hok|reflexivity| | | |exact Ex|].
    + unfold e2, e1, int64. cbn [Position assign]. apply andb_true_iff. split; apply Z.leb_le; lia.
    + by apply prev_of_valid.
    + by eapply Compute_valid.
    + unfold terminate in Hl. rewrite length_app in Hl. cbn [length] in Hl. lia.
Qed.

(** ** Histories *)

(** If opening has a torn tail to repair, the file can be read the second time, when the
    repair looks for the last complete line. [lastCompleteOffset] takes a failure of that
    read for an empty file: see [repair_reread_failure_truncates]. *)
Definition repair_reads (env : open_env) (w : world) : Prop :=
  forall es, readEntries false (file w) = Ok (es, true) -> oe_reread_fails env = false.

(** What happens to a journal: opens, appends with any outcome, marks, closes, a crash
    between calls or in the middle of an append's write. Any call can fail, but for one:
    the second read of a repair ([repair_reads]). The observations are those [entry_ok]
    admits, which are the ones JSON carries unchanged, with the format version left to
    [Append] or not negative: an entry of a negative version is written, and refused by
    every later read ([negative_version_poisons_journal]). The list is the observations
    whose [Append] returned without error. *)
Inductive run : world -> option journal -> list Entry -> Prop :=
| run_start : run (mkWorld None false None) None []
| run_open w acked env stream w' r :
    run w None acked -> repair_reads env w -> Open env stream w = (w', r) ->
    run w' (match r with Ok j => Some j | Err _ => None end) acked
| run_append w j acked env e w' j' r :
    run w (Some j) acked -> entry_ok e = true -> 0 <= FormatVersion e ->
    Z.of_nat (length (entries j)) < 2 ^ 63 - 1 ->
    Append env e (w, j) = (w', j', r) ->
    run w' (Some j') (match r with Ok e' => acked ++ [e'] | Err _ => acked end)
| run_mark w j acked m reason :
    run w (Some j) acked -> run (MarkDegraded m reason w).1 (Some j) acked
| run_close w j acked fails :
    run w (Some j) acked -> run w (Some (Close fails j).1) acked
| run_crash w j acked : run w (Some j) acked -> run w None acked
| run_crash_append w j acked e e' line n :
    run w (Some j) acked -> entry_ok e = true -> 0 <= FormatVersion e ->
    Z.of_nat (length (entries j)) < 2 ^ 63 - 1 ->
    prepare j e = Ok (e', line) -> Z.of_nat (length line) <= maxLineBytes ->
    run (append_bytes (take n line) w) None acked.

(** The file is complete lines that hold the chained entries [es], and a fragment;
    [clean] without one. *)
Definition has_tail (frag : bytes) (w : world) (es : list Entry) : Prop :=
  exists ls, default [] (file w) = mjoin (terminate <$> ls) ++ frag /\ Forall2 holds ls es /\ chained es.

Definition has (w : world) (es : list Entry) : Prop := exists frag, (newline ∉ frag) /\ has_tail frag w es.

Definition clean (w : world) (es : list Entry) : Prop := has_tail [] w es.

Lemma clean_has w es : clean w es -> has w es.
Proof. exists []. split; [apply not_elem_of_nil|done]. Qed.

Lemma has_tail_file frag w w' es :
  default [] (file w') = default [] (file w) -> has_tail frag w es -> has_tail frag w' es.
Proof. unfold has_tail. by intros ->. Qed.

Lemma has_file w w' es : default [] (file w') = default [] (file w) -> has w es -> has w' es.
Proof. intros H (frag & Hf & Ht). exists frag. split; [done|]. by eapply has_tail_file. Qed.

Lemma file_degraded m r w : file (writeDegradedMarker m r w).1 = file w.
Proof. by destruct m. Qed.

Lemma file_repair m w : file (writeRepairMarker m w).1 = file w.
Proof. by destruct m. Qed.

Lemma mjoin_snoc_line ls x : mjoin (terminate <$> (ls ++ [x])) = mjoin (terminate <$> ls) ++ terminate x.
Proof.
  rewrite fmap_app, mjoin_app_bytes. f_equal. cbn [fmap list_fmap].
  change (mjoin [terminate x]) with (terminate x ++ []). apply app_nil_r.
Qed.

(** Part or all of a further line. *)
Lemma grow_part ls es x e n :
  Forall2 holds ls es -> holds x e ->
  exists ls' frag es', mjoin (terminate <$> ls) ++ take n (terminate x) = mjoin (terminate <$> ls') ++ frag /\
    (newline ∉ frag) /\ Forall2 holds ls' es' /\ (es' = es \/ es' = es ++ [e]).
Proof.
  intros HF Hx. destruct (decide (n <= length x)%nat) as [Hn|Hn].
  - exists ls, (take n x), es. unfold terminate at 2. rewrite take_app_le by done.
    split_and!; [done| |done|by left]. destruct Hx as (Hp & _).
    intros Hin. eapply printable_no_newline; [exact Hp|]. by eapply elem_of_sublist; [exact Hin|apply sublist_take].
  - exists (ls ++ [x]), [], (es ++ [e]). rewrite mjoin_snoc_line, app_nil_r, take_ge
      by (unfold terminate; rewrite length_app; cbn; lia).
    split_and!; [done|apply not_elem_of_nil|by apply Forall2_app; [|constructor]|by right].
Qed.

Lemma complete_nil ls es frag :
  [] = mjoin (terminate <$> ls) ++ frag -> Forall2 holds ls es -> ls = [] /\ frag = [] /\ es = [].
Proof.
  intros H HF. symmetry in H. apply app_eq_nil in H as [H ->].
  destruct (complete_cases ls) as [[_ ->]|[p E]]; [by inversion HF|].
  rewrite E in H. by destruct p.
Qed.

Lemma has_tail_read frag w es :
  newline ∉ frag -> has_tail frag w es ->
  readEntries false (file w) = Ok (es, negb (bool_decide (frag = []))).
Proof.
  intros Hf (ls & Hd & HF & Hc). destruct (file w) as [data|]; cbn in Hd.
  - subst data. by apply readEntries_torn.
  - by destruct (complete_nil _ _ _ Hd HF) as (-> & -> & ->).
Qed.

(** Opening keeps the entries; an opened journal has exactly those of the file. *)
Lemma open_has env stream w es w' r :
  has w es -> repair_reads env w -> Open env stream w = (w', r) ->
  has w' es /\
  forall j, r = Ok j -> clean w' es /\ entries j = es /\ is_open j = true /\ failed j = false.
Proof.
  intros Hh Hre. unfold Open. destruct (oe_mkdir_fails env); [by intros [= <- <-]|].
  set (w1 := if _ && _ then _ else w).
  assert (file w1 = file w) as Hw1 by (unfold w1; by destruct (_ && _)).
  apply (has_file w w1) in Hh; [|by rewrite Hw1]. unfold repair_reads in Hre. rewrite <- Hw1 in Hre. clearbody w1. rewrite <- Hw1. clear Hw1 w.
  destruct (readEntries (oe_read_fails env) (file w1)) as [[es0 torn]|] eqn:Er; [|by intros [= <- <-]].
  pose proof Hh as (frag & Hf & Ht). pose proof (has_tail_read frag w1 es Hf Ht) as Hr.
  assert (es0 = es /\ torn = negb (bool_decide (frag = []))) as [-> ->].
  { destruct (file w1) as [data|], (oe_read_fails env); cbn in Er, Hr; try discriminate; try by simplify_eq.
    rewrite Er in Hr. by simplify_eq. }
  assert (forall w2, clean w2 es -> forall w' r,
    (if oe_open_fails env then (w2, Err EOpen)
     else let w := set_file (Some (default [] (file w2))) w2 in
          if bool_decide (file w1 = None) && oe_sync_fails env then (w, Err ESyncDir)
          else (w, Ok (mkJournal stream true es (negb (bool_decide (frag = [])) || markerPresent w2) false)))
     = (w', r) ->
    has w' es /\ forall j, r = Ok j -> clean w' es /\ entries j = es /\ is_open j = true /\ failed j = false) as Hend.
  { intros w2 Hc2 w3 r3. assert (clean (set_file (Some (default [] (file w2))) w2) es) as Hc3
      by (by eapply has_tail_file; [|exact Hc2]).
    destruct (oe_open_fails env); [intros [= <- <-]; split; [by apply clean_has|done]|].
    destruct (_ && _); intros [= <- <-]; (split; [by apply clean_has|]); [done|]. by intros j [= <-]. }
  destruct (bool_decide (frag = [])) eqn:Ef; boolify; cbn [negb].
  - subst frag. by apply Hend.
  - rewrite (Hre es) by done. destruct (oe_marker env); cbn [writeRepairMarker negb];
      [|by intros [= <- <-]|by intros [= <- <-]; split; [by apply (has_file w1)|]].
    destruct (oe_truncate_fails env); [by intros [= <- <-]; split; [by apply (has_file w1)|]|].
    destruct Ht as (ls & Hdata & HF & Hc).
    destruct (file w1) as [data|] eqn:Efile; cbn in Hdata;
      [|by destruct (complete_nil _ _ _ Hdata HF) as (_ & -> & _)].
    apply Hend. exists ls. cbn [set_file set_repair file fmap option_fmap option_map]. rewrite Efile. subst data.
    cbn [fmap option_fmap option_map default]. rewrite offset_torn, Nat2Z.id, take_app_length, app_nil_r by done. done.
Qed.

(** What an append leaves in the file, whatever its outcome. *)
Lemma append_has env e w j w' j' r :
  clean w (entries j) -> entry_ok e = true -> 0 <= FormatVersion e ->
  Z.of_nat (length (entries j)) < 2 ^ 63 - 1 -> Append env e (w, j) = (w', j', r) ->
  match r with
  | Ok e' => prepare j e = Ok (e', terminate (default [] (GoValue.Marshal (AStruct (fields e'))))) /\
      j' = push e' j /\ clean w' (entries j ++ [e'])
  | Err _ => entries j' = entries j /\ (failed j = true -> failed j' = true) /\
      (has w' (entries j) \/ exists e' line, prepare j e = Ok (e', line) /\ has w' (entries j ++ [e'])) /\
      (failed j' = false -> clean w' (entries j))
  end.
Proof.
  intros Hc Hok Hv Hn. unfold Append.
  destruct (prepare j e) as [[e' line]|] eqn:Ep;
    [|intros [= <- <- <-]; split_and!; [done|done|left; by apply clean_has|done]].
  pose proof Hc as (ls & Hdata & HF & Hch). rewrite app_nil_r in Hdata.
  destruct (prepare_spec j e e' line Hch Hn Hok Hv Ep) as (Ho & Hnf & Hc' & x & -> & Hx & Hm).
  destruct (maxLineBytes <? _) eqn:El.
  { intros [= <- <- <-]. assert (clean (writeDegradedMarker (ae_marker env)
      (Oversized (Z.of_nat (length (terminate x)))) w).1 (entries j)) as Hc2
      by (eapply has_tail_file; [by rewrite file_degraded|done]).
    split_and!; [done|done|left; by apply clean_has|done]. }
  apply Z.ltb_ge in El. specialize (Hx El).
  assert (clean (append_bytes (terminate x) w) (entries j ++ [e'])) as Hfull.
  { exists (ls ++ [x]). cbn. rewrite Hdata, mjoin_snoc_line, app_nil_r.
    split_and!; [done|by apply Forall2_app; [|constructor]|done]. }
  destruct (ae_written env) as [n|].
  { intros [= <- <- <-]. split_and!; [done|done| |done].
    destruct (grow_part ls (entries j) x e' n HF Hx) as (ls1 & frag1 & es1 & H1 & H2 & H3 & H4).
    assert (has (writeDegradedMarker (ae_marker env) WriteFailed (append_bytes (take n (terminate x)) w)).1 es1) as Hes1.
    { exists frag1. split; [done|]. exists ls1. rewrite file_degraded. cbn. rewrite Hdata, H1.
      split_and!; [done|done|]. by destruct H4 as [-> | ->]. }
    destruct H4 as [-> | ->]; [by left|right; by eexists _, _]. }
  destruct (ae_sync_fails env); intros [= <- <- <-]; [|by rewrite Hm; cbn [default]; split_and!].
  split_and!; [done|done| |done]. right. eexists _, _. split; [done|].
  eapply has_file; [by rewrite file_degraded|by apply clean_has].
Qed.

(** What holds at every point: every acknowledged observation is among the entries, and
    a journal that has not failed has the entries of the file. *)
Definition durable (w : world) (jo : option journal) (acked : list Entry) : Prop :=
  exists es, has w es /\ acked `sublist_of` es /\
    match jo with
    | None => True
    | Some j => chained (entries j) /\ (failed j = false -> clean w es /\ entries j = es)
    end.

Lemma durable_weaken w jo acked : durable w jo acked -> durable w None acked.
Proof. intros (es & ? & ? & _). by exists es. Qed.

Lemma has_chained w es : has w es -> chained es.
Proof. by intros (frag & _ & ls & _ & _ & ?). Qed.

Lemma durable_open env stream w acked w' r :
  durable w None acked -> repair_reads env w -> Open env stream w = (w', r) ->
  durable w' (match r with Ok j => Some j | Err _ => None end) acked.
Proof.
  intros (es & Hh & Ha & _) Hre Ho. destruct (open_has env stream w es w' r Hh Hre Ho) as [Hh' Hj].
  exists es. split_and!; [done|done|]. destruct r as [j|]; [|done].
  destruct (Hj j eq_refl) as (Hc & -> & _ & _). split; [by eapply has_chained|done].
Qed.

Lemma sublist_grow {A} (l l' : list A) x : l `sublist_of` l' -> l `sublist_of` l' ++ [x].
Proof. intros H. etrans; [exact H|]. by apply sublist_inserts_r. Qed.

Lemma durable_append env e w j acked w' j' r :
  durable w (Some j) acked -> entry_ok e = true -> 0 <= FormatVersion e ->
  Z.of_nat (length (entries j)) < 2 ^ 63 - 1 -> Append env e (w, j) = (w', j', r) ->
  durable w' (Some j') (match r with Ok e' => acked ++ [e'] | Err _ => acked end).
Proof.
  intros (es & Hh & Ha & Hch & Hj) Hok Hv Hn H.
  destruct (failed j) eqn:Efail.
  { unfold Append, prepare in H. rewrite Efail in H.
    destruct (negb (is_open j)); injection H as <- <- <-; exists es; rewrite Efail; by split_and!. }
  destruct (Hj eq_refl) as [Hc <-]. pose proof (append_has env e w j w' j' r Hc Hok Hv Hn H) as Hr.
  destruct r as [e'|].
  - destruct Hr as (_ & -> & Hc'). exists (entries j ++ [e']). pose proof (has_chained _ _ (clean_has _ _ Hc')).
    split_and!; [by apply clean_has|by apply sublist_app|done|done].
  - destruct Hr as (E & _ & [Hw|(e' & line & _ & Hw)] & Hcl).
    + exists (entries j). rewrite E. split_and!; [done..|]. intros Hf. by split; [apply Hcl|].
    + destruct (failed j') eqn:Ef'.
      * exists (entries j ++ [e']). split_and!; [done|by apply sublist_grow|by rewrite E|by rewrite Ef'].
      * exists (entries j). split_and!; [by apply clean_has, Hcl|done|by rewrite E|]. rewrite E. intros _. by split; [apply Hcl|].
Qed.

Lemma run_durable w jo acked : run w jo acked -> durable w jo acked.
Proof.
  induction 1 as [|w acked env stream w' r _ IH Hre Ho|w j acked env e w' j' r _ IH Hok Hv Hn Ha
    |w j acked m reason _ IH|w j acked fails _ IH|w j acked _ IH|w j acked e e' line n _ IH Hok Hv Hn Hp Hl].
  - exists []. split_and!; [|done|done]. apply clean_has. by exists [].
  - by eapply durable_open.
  - by eapply durable_append.
  - destruct IH as (es & Hh & Ha & Hc & Hj). exists es. unfold MarkDegraded.
    split_and!; [by eapply has_file; [by rewrite file_degraded|]|done|done|].
    intros Hf. destruct (Hj Hf). split; [|done]. by eapply has_tail_file; [by rewrite file_degraded|].
  - destruct IH as (es & H1 & H2 & H3). exists es.
    assert (entries (Close fails j).1 = entries j /\ failed (Close fails j).1 = failed j) as [-> ->]
      by (unfold Close; by destruct (is_open j)). exact (conj H1 (conj H2 H3)).
  - by eapply durable_weaken.
  - eapply durable_weaken, (durable_append (mkAppendEnv (Some n) false MarkerAbsent) e w j acked _ _
      (Err EWrite)); try done.
    unfold Append. rewrite Hp. by rewrite (proj2 (Z.ltb_ge _ _) Hl).
Qed.

Lemma Open_calm w acked stream :
  durable w None acked ->
  exists w' j, Open calm stream w = (w', Ok j) /\ is_open j = true /\ failed j = false.
Proof.
  intros (es & (frag & Hf & Hr%has_tail_read) & _); [|done]. unfold Open. cbn [oe_mkdir_fails calm].
  set (w1 := if _ && _ then _ else w).
  assert (file w1 = file w) as -> by (unfold w1; by destruct (_ && _)).
  cbn [oe_read_fails calm]. rewrite Hr. destruct (negb _); cbn; rewrite andb_false_r; by eexists _, _.
Qed.

Lemma Open_creates env stream w w' j :
  Open env stream w = (w', Ok j) -> exists data, file w' = Some data.
Proof.
  unfold Open. destruct (oe_mkdir_fails env); [discriminate|].
  destruct (readEntries _ _) as [[es torn]|]; [|discriminate].
  destruct (if torn then _ else _) as [w2 [e|]]; [discriminate|].
  destruct (oe_open_fails env); [discriminate|].
  destruct (_ && oe_sync_fails env); [discriminate|]. intros [= <- _]. by eexists.
Qed.

Lemma prepare_ok j e e' line :
  prepare j e = Ok (e', line) ->
  is_open j = true /\ failed j = false /\ Position e' = wrap64 (LastPosition j + 1) /\
  PrevHash e' = prev_of (entries j) /\ computeHash e' = Ok (Hash e') /\
  exists x, GoValue.Marshal (AStruct (fields e')) = Some x /\ line = terminate x.
Proof.
  unfold prepare. destruct (is_open j); [|discriminate]. destruct (failed j); [discriminate|].
  cbn [negb]. set (version := if _ =? 0 then _ else _).
  destruct (_ <? version); [discriminate|]. destruct (String.eqb _ ""); [discriminate|].
  set (e1 := assign _ _ _ _ e). destruct (computeHash e1) as [h|] eqn:Eh; [|discriminate].
  set (e2 := assign version (Position e1) _ _ e1).
  destruct (GoValue.Marshal _) as [x|] eqn:Ex; [|discriminate]. intros [= <- <-].
  split_and!; [done|done|reflexivity|reflexivity| |by exists x].
  unfold e2. rewrite (computeHash_assign _ _ _ _ version (Hash e1)). exact Eh.
Qed.

Lemma prepare_assign j e e' line :
  prepare j e = Ok (e', line) -> exists v h, e' = assign v (wrap64 (LastPosition j + 1)) (prev_of (entries j)) h e.
Proof.
  unfold prepare. destruct (is_open j); [|discriminate]. destruct (failed j); [discriminate|].
  cbn [negb]. destruct (_ <? _); [discriminate|]. destruct (String.eqb _ ""); [discriminate|].
  destruct (computeHash _) as [h|]; [|discriminate]. destruct (GoValue.Marshal _); [|discriminate].
  intros [= <- _]. by eexists _, h.
Qed.

Lemma prepare_error j e err :
  prepare j e = Err err -> err <> EWrite /\ err <> EFsync /\ err <> ErrJournalEntryTooLarge.
Proof.
  unfold prepare. destruct (is_open j); [|by intros [= <-]]. destruct (failed j); [by intros [= <-]|].
  cbn [negb]. destruct (_ <? _); [by intros [= <-]|]. destruct (String.eqb _ ""); [by intros [= <-]|].
  destruct (computeHash _); [|by intros [= <-]]. destruct (GoValue.Marshal _); [discriminate|].
  by intros [= <-].
Qed.

(** ** Properties *)

(** C7: an acknowledged observation is kept, whatever fails other than the re-read of a
    repair. After a history ([run]) of opens, appends with any outcome, torn-tail repairs,
    marks, closes, and crashes between calls or at any byte of an append's write, an open
    in which nothing fails succeeds: it is ready for appends, its entries are chained and
    contain every observation whose [Append] returned successfully, in order, and they
    are what the file then reads back to. [run] leaves out two things, and the claim is
    false with either: an open that repairs a torn tail and cannot read the file the
    second time ([repair_reads]; [repair_reread_failure_truncates] shows the file emptied),
    and an entry whose format version is negative ([negative_version_poisons_journal]
    shows the journal unreadable). It is also limited to entries JSON carries unchanged
    ([entry_ok]) and to fewer than 2^63 - 1 of them. *)
Theorem acknowledged_observations_survive w jo acked stream :
  run w jo acked ->
  exists w' j, Open calm stream w = (w', Ok j) /\ failed j = false /\
    chained (entries j) /\ acked `sublist_of` entries j /\
    readEntries false (file w') = Ok (entries j, false).
Proof.
  intros Hd%run_durable%durable_weaken.
  destruct (Open_calm w acked stream Hd) as (w' & j & Ho & _ & Hf). exists w', j.
  destruct Hd as (es & Hh & Ha & _). destruct (open_has calm stream w es w' (Ok j) Hh (fun _ _ => eq_refl) Ho) as [_ Hj].
  destruct (Hj j eq_refl) as (Hc & -> & _ & _).
  split_and!; [done|done|by eapply has_chained, clean_has|done|].
  rewrite (has_tail_read [] w' es); [done|apply not_elem_of_nil|exact Hc].
Qed.

(** Reading fails closed. Whatever bytes the file holds, entries are only returned
    when they are version 1 entries numbered from 1 in which each carries the hash of
    its predecessor and its own recomputed hash; a torn tail is reported exactly when
    the last byte of the file is not a newline. *)
Theorem readEntries_sound fails data es torn :
  readEntries fails data = Ok (es, torn) ->
  chained es /\
  (torn = true <-> exists bs c, data = Some (bs ++ [c]) /\ c <> newline).
Proof.
  unfold readEntries. destruct data as [data|]; [|intros [= <- <-]; split; [done|naive_solver]].
  destruct fails; [discriminate|].
  destruct (bool_decide (data = [])) eqn:E; boolify.
  { intros [= <- <-]. split; [done|]. split; [done|]. intros (bs & c & [= ->] & _). by destruct bs. }
  destruct (read_lines _ _) as [es'|] eqn:Er; [|discriminate]. intros [= <- <-].
  apply read_lines_chained in Er as [Hc _]; [|done]. split; [done|].
  destruct data as [|c data _] using rev_ind; [done|]. unfold ends_in_newline. rewrite last_snoc.
  rewrite negb_true_iff, bool_decide_eq_false. split.
  - intros Hn. exists data, c. split; [done|congruence].
  - intros (bs & d & [= Heq] & Hd). apply app_inj_2 in Heq as [_ Heq]; [|done]. congruence.
Qed.

(** What [Append] does on every branch. On success the stored entry is the next
    of the chain and exactly its line was added to the file; an entry refused before the
    write leaves the file and the journal as they were; after a failed write or fsync the
    journal refuses every further append; and a dropped observation whose marker could
    be written is disclosed. *)
Theorem Append_outcomes env e w j w' j' r :
  Append env e (w, j) = (w', j', r) ->
  match r with
  | Ok e' => j' = push e' j /\ Position e' = wrap64 (LastPosition j + 1) /\
      PrevHash e' = prev_of (entries j) /\ computeHash e' = Ok (Hash e') /\
      exists line, GoValue.Marshal (AStruct (fields e')) = Some line /\
        file w' = Some (default [] (file w) ++ terminate line) /\
        Z.of_nat (length line) < maxLineBytes
  | Err EWrite | Err EFsync =>
      (forall env' e2 w2, Append env' e2 (w2, j') = (w2, j', Err ErrJournalFailed)) /\
      (ae_marker env = MarkerOk -> Degraded w' = true)
  | Err err => file w' = file w /\ j' = j /\
      (err = ErrJournalEntryTooLarge -> ae_marker env = MarkerOk -> Degraded w' = true)
  end.
Proof.
  unfold Append at 1. destruct (prepare j e) as [[e1 line]|err] eqn:Ep.
  2:{ intros [= <- <- <-]. apply prepare_error in Ep as (H1 & H2 & H3).
      destruct err; try congruence; (split_and!; [done|done|discriminate]). }
  apply prepare_ok in Ep as (Ho & Hf & Hpos & Hprev & Hh & x & Hx & ->).
  assert (forall env' e2 w2, Append env' e2 (w2, set_failed j) = (w2, set_failed j, Err ErrJournalFailed))
    as Hfail by (intros; unfold Append, prepare; cbn; by rewrite Ho).
  destruct (maxLineBytes <? _) eqn:El; [|destruct (ae_written env); [|destruct (ae_sync_fails env)]];
    intros [= <- <- <-].
  - rewrite file_degraded. split_and!; [done|done|]. by intros _ ->.
  - split; [exact Hfail|]. by intros ->.
  - split; [exact Hfail|]. by intros ->.
  - split_and!; [done|done|done|done|]. exists x. split_and!; [done|done|].
    apply Z.ltb_ge in El. unfold terminate in El. rewrite length_app in El. cbn [length] in El. lia.
Qed.

(** The repair trusts a second read. When the repair's own re-read of a torn
    journal fails, the offset counts as 0: [Open] succeeds with all entries in memory,
    but has truncated the file to nothing. *)
Theorem repair_reread_failure_truncates w acked stream es :
  durable w None acked -> readEntries false (file w) = Ok (es, true) ->
  exists w' j,
    Open (mkOpenEnv false false false MarkerOk true false false false) stream w = (w', Ok j) /\
    entries j = es /\ file w' = Some [].
Proof.
  intros Hd Hr. unfold Open. cbn [oe_mkdir_fails oe_remove_fails oe_read_fails].
  destruct (file w) as [data|] eqn:Ef; [|discriminate]. rewrite bool_decide_false by done.
  cbn [andb]. rewrite Ef, Hr. cbn. rewrite Ef. by eexists _, _.
Qed.

(** ** Witnesses *)

Definition sample_entry : Entry :=
  mkEntry 0 0 "" "inc-1/s:1" "proxy" "inc-1" "1" "00" "ai.tool.exec"
    (JObj [("type", JStr "ai.tool.exec")]) "" "2026-01-02T03:04:05Z" "intercept" "1" "".

Definition empty_world : world := mkWorld None false None.
Definition fine : append_env := mkAppendEnv None false MarkerOk.

Definition opened (w : world) : world * journal :=
  let '(w, r) := Open calm "s" w in (w, match r with Ok j => j | Err _ => mkJournal "" false [] false false end).

Definition appended (wj : world * journal) : world * journal :=
  let '(w, j, _) := Append fine sample_entry wj in (w, j).

(** One acknowledged observation, then a crash 40 bytes into the next one. *)
Definition one : world * journal := Eval vm_compute in appended (opened empty_world).

Definition next_line : Entry * bytes :=
  Eval vm_compute in match prepare one.2 sample_entry with Ok p => p | Err _ => (zero, []) end.

Definition torn : world := append_bytes (take 40 next_line.2) one.1.

Lemma one_run : run one.1 (Some one.2) (entries one.2).
Proof.
  apply (run_append (opened empty_world).1 (opened empty_world).2 [] fine sample_entry _ _
    (Ok (List.hd zero (entries one.2)))); try (vm_compute; first [reflexivity|discriminate]).
  apply (run_open empty_world [] calm "s" _ (Ok (opened empty_world).2)); [constructor|by intros ?|].
  vm_compute. reflexivity.
Qed.

Lemma torn_run : run torn None (entries one.2).
Proof.
  apply (run_crash_append one.1 one.2 _ sample_entry next_line.1 next_line.2 40);
    [apply one_run|vm_compute; first [reflexivity|discriminate]..].
Qed.

Lemma acknowledged_observations_survive_witness :
  exists w' j, Open calm "s" torn = (w', Ok j) /\ failed j = false /\
    chained (entries j) /\ entries one.2 `sublist_of` entries j /\
    readEntries false (file w') = Ok (entries j, false).
Proof. apply (acknowledged_observations_survive torn None). apply torn_run. Defined.

Lemma readEntries_sound_witness : chained (entries one.2).
Proof.
  apply (readEntries_sound false (file one.1) (entries one.2) false). vm_compute. reflexivity.
Defined.

Lemma Append_outcomes_witness :
  Append fine sample_entry (one.1, set_failed one.2) =
  (one.1, set_failed one.2, Err ErrJournalFailed).
Proof.
  apply (Append_outcomes (mkAppendEnv (Some 7%nat) false MarkerOk) sample_entry one.1 one.2
    (append_bytes (take 7 next_line.2) (set_degraded WriteFailed one.1)) (set_failed one.2) (Err EWrite)).
  vm_compute. reflexivity.
Defined.

Lemma repair_reread_failure_truncates_witness :
  exists w' j,
    Open (mkOpenEnv false false false MarkerOk true false false false) "s" torn = (w', Ok j) /\
    entries j = entries one.2 /\ file w' = Some [].
Proof.
  apply (repair_reread_failure_truncates torn (entries one.2)); [apply run_durable, torn_run|].
  vm_compute. reflexivity.
Defined.

Definition negative_entry : Entry := assign (-1) 0 "" "" sample_entry.

(** A negative format version is accepted by [Append] and refused by every later
    read: the observation is acknowledged, and the journal can no longer be opened. *)
Theorem negative_version_poisons_journal :
  let '(w, j, r) := Append fine negative_entry (opened empty_world) in
  (exists e, r = Ok e) /\ (Open calm "s" w).2 = Err ErrJournalVersionUnsupported.
Proof. vm_compute. split; [by eexists|reflexivity]. Qed.
End Journal.
