(* ===== verification/Checkpoint.v ===== *)
(** * Package internal/acquisition: checkpoints

    [internal/acquisition/checkpoint.go] and [checkpoint_integration.go]: the checkpoint
    an acquisition resumes from, its durable file, its validation against a source and
    against a bundle, and the name of its file. The theorems: a saved checkpoint loads
    back, and a crash while saving leaves the old or the new one; a checkpoint bound to a
    bundle head accepts no other evidence; checkpoint file names stay inside their
    directory. *)

From S2P Require Import Prelude GoText Sha256 GoFloat GoJson GoIndent GoValue GoStruct Canonicalize Event HashChain Bundle BundleIO.
Import Canonicalize HashChain Bundle BundleIO.

Module SourceIdentity.
Record t := mk { System : string; RecordID : string; Derived : bool }.

Definition zero : t := mk "" "" false.

Definition fields (i : t) : list (string * any) :=
  [("system", AString (System i)); ("record_id", AString (RecordID i))]
  ++ omit_bool "derived" (Derived i).

Definition names : list string := ["system"; "record_id"; "derived"].

Definition encode (i : t) : any := AStruct (fields i).

Definition decode (j : json) (i : t) : option t :=
  match j with
  | JNull => Some i
  | JObj l =>
      s ← decode_field names "system" dec_string l (System i);
      r ← decode_field names "record_id" dec_string l (RecordID i);
      d ← decode_field names "derived" dec_bool l (Derived i);
      Some (mk s r d)
  | _ => None
  end.

Definition valid (i : t) : bool := valid_string (System i) && valid_string (RecordID i).

Lemma identity_fields_sub i : (fields i).*1 `sublist_of` names.
Proof. unfold fields, names. solve_fields. Qed.

Lemma identity_decode_encode i j :
  valid i = true -> to_json (encode i) = Some j -> decode (coerce_json j) zero = Some i.
Proof.
  intros Hv Hj. unfold valid in Hv. boolify.
  destruct (struct_decode names (fields i) j eq_refl (identity_fields_sub i) Hj) as (jl & -> & _ & Hd).
  unfold decode. rewrite !Hd. unfold fields. rewrite !assoc_app, !assoc_omit_bool.
  cbn [assoc app String.eqb Ascii.eqb Bool.eqb]. rewrite !read_string by done. cbn [mbind option_bind].
  by destruct i as [s r []].
Qed.
End SourceIdentity.

Module Checkpoint.

Definition CheckpointFormatVersion : Z := 1.

Record t := mk {
  FormatVersion : Z;
  SourceSystem : string;
  AcquisitionStream : string;
  Position : string;
  ObservedAt : string;
  Adapter : string;
  AdapterVersion : string;
  Identity : SourceIdentity.t;
  SourceIncarnation : string;
  ProcessedCount : Z;
  LastRecordDigest : string;
  BundleHeadHash : string;
  BundleRecordCount : Z;
  Metadata : list (string * string)
}.

Definition zero : t := mk 0 "" "" "" "" "" "" SourceIdentity.zero "" 0 "" "" 0 [].

(** ** JSON *)

Definition omit_int (k : string) (z : Z) : list (string * any) :=
  if z =? 0 then [] else [(k, AInt z)].

Definition omit_map (k : string) (m : list (string * string)) : list (string * any) :=
  match m with [] => [] | _ => [(k, AStringMap m)] end.

Definition fields (c : t) : list (string * any) :=
  [("format_version", AInt (FormatVersion c)); ("source_system", AString (SourceSystem c));
   ("acquisition_stream", AString (AcquisitionStream c)); ("position", AString (Position c));
   ("observed_at", AString (ObservedAt c)); ("adapter", AString (Adapter c))]
  ++ omit_string "adapter_version" (AdapterVersion c)
  ++ [("source_identity", SourceIdentity.encode (Identity c))]
  ++ omit_string "source_incarnation" (SourceIncarnation c)
  ++ [("processed_count", AInt (ProcessedCount c))]
  ++ omit_string "last_record_digest" (LastRecordDigest c)
  ++ omit_string "bundle_head_hash" (BundleHeadHash c)
  ++ omit_int "bundle_record_count" (BundleRecordCount c)
  ++ omit_map "metadata" (Metadata c).

Definition names : list string :=
  ["format_version"; "source_system"; "acquisition_stream"; "position"; "observed_at"; "adapter";
   "adapter_version"; "source_identity"; "source_incarnation"; "processed_count";
   "last_record_digest"; "bundle_head_hash"; "bundle_record_count"; "metadata"].

(** A [map[string]string]: null values leave the empty string. *)
Definition dec_string_map (j : json) (m : list (string * string)) : option (list (string * string)) :=
  match j with
  | JNull => Some []
  | JObj l =>
      kvs ← mapM (fun kv => match kv.2 with
                            | JStr s => Some (kv.1, s) | JNull => Some (kv.1, "") | _ => None end) l;
      Some (fold_left (fun m kv => assoc_set kv.1 kv.2 m) kvs m)
  | _ => None
  end.

Definition decode (j : json) : option t :=
  match j with
  | JNull => Some zero
  | JObj l =>
      let str name := decode_field names name dec_string l "" in
      let int name := decode_field names name dec_int l 0 in
      fv ← int "format_version"; ss ← str "source_system"; st ← str "acquisition_stream";
      po ← str "position"; oa ← str "observed_at"; ad ← str "adapter"; av ← str "adapter_version";
      id ← decode_field names "source_identity" SourceIdentity.decode l SourceIdentity.zero;
      si ← str "source_incarnation"; pc ← int "processed_count"; ld ← str "last_record_digest";
      bh ← str "bundle_head_hash"; bc ← int "bundle_record_count";
      md ← decode_field names "metadata" dec_string_map l [];
      Some (mk fv ss st po oa ad av id si pc ld bh bc md)
  | _ => None
  end.

(** [json.MarshalIndent(c, "", "  ")] *)
Definition marshal (c : t) : option bytes :=
  json_indent [" "%char; " "%char] 0 <$> to_json (AStruct (fields c)).

(** ** Save and Load *)

Definition with_version (v : Z) (c : t) : t :=
  mk v (SourceSystem c) (AcquisitionStream c) (Position c) (ObservedAt c) (Adapter c)
    (AdapterVersion c) (Identity c) (SourceIncarnation c) (ProcessedCount c) (LastRecordDigest c)
    (BundleHeadHash c) (BundleRecordCount c) (Metadata c).

Definition normalise_version (c : t) : t :=
  if FormatVersion c =? 0 then with_version CheckpointFormatVersion c else c.

Inductive checkpoint_error :=
| ErrCheckpointNotFound | ErrCheckpointVersionUnsupported | ErrCheckpointCorrupted
| ErrCheckpointSourceMismatch | ErrCheckpointAdapterMismatch | ErrCheckpointBundleMismatch
| ErrCheckpointIncarnationMismatch
| CMkdir | CMarshal | CWrite (s : write_stage) | CSyncParent | CRead | CNotLoaded.

Record save_env := mkSaveEnv {
  sv_mkdir_fails : bool;
  sv_fails : write_stage -> bool;
  sv_partial : nat;
  sv_tmp : string;
  sv_dir_existed : bool;
  sv_parent_sync_fails : bool
}.

(** [Save] writes a temporary file, syncs it, renames it over the destination and syncs
    the directory: the sequence of [writeAtomic], with mode 0600; then the parent of a
    directory it has just created. It sets the version of the checkpoint in place. *)
Definition Save (env : save_env) (fs : files) (path : string) (c : t) :
    t * list files * result checkpoint_error unit :=
  let c := normalise_version c in
  if sv_mkdir_fails env then (c, [], Err CMkdir)
  else
    match marshal c with
    | None => (c, [], Err CMarshal)
    | Some data =>
        let '(states, r) := writeAtomic (sv_fails env) (sv_partial env) (sv_tmp env) fs path data 384 in
        (c, states,
         match r with
         | Err st => Err (CWrite st)
         | Ok _ => if negb (sv_dir_existed env) && sv_parent_sync_fails env then Err CSyncParent else Ok tt
         end)
    end.

(** What reading the file gives. *)
Inductive file_read := FNotExist | FError | FData (data : bytes).

Definition Load (f : file_read) : result checkpoint_error t :=
  match f with
  | FNotExist => Err ErrCheckpointNotFound
  | FError => Err CRead
  | FData data =>
      match json_parse data ≫= decode with
      | None => Err ErrCheckpointCorrupted
      | Some cp =>
          let cp := if FormatVersion cp =? 0 then with_version 1 cp else cp in
          if 1 <? FormatVersion cp then Err ErrCheckpointVersionUnsupported else Ok cp
      end
  end.

Definition LoadOrCreate (now : string) (f : file_read)
    (sourceSystem acquisitionStream adapter adapterVersion sourceIncarnation : string)
    (sourceIdentity : SourceIdentity.t) : result checkpoint_error t :=
  match Load f with
  | Ok cp => Ok cp
  | Err ErrCheckpointNotFound =>
      Ok (mk 1 sourceSystem acquisitionStream "start" now adapter adapterVersion sourceIdentity
            sourceIncarnation 0 "" "" 0 [])
  | Err e => Err e
  end.

(** ** Validation and updates *)

Definition differs (expected recorded : string) : bool :=
  negb (String.eqb expected "") && negb (String.eqb recorded "") && negb (String.eqb recorded expected).

Definition Validate (c : t) (sourceSystem acquisitionStream adapter adapterVersion sourceIncarnation : string) :
    result checkpoint_error unit :=
  if negb (String.eqb (SourceSystem c) sourceSystem) then Err ErrCheckpointSourceMismatch
  else if negb (String.eqb (AcquisitionStream c) acquisitionStream) then Err ErrCheckpointSourceMismatch
  else if negb (String.eqb (Adapter c) adapter) then Err ErrCheckpointAdapterMismatch
  else if differs adapterVersion (AdapterVersion c) then Err ErrCheckpointAdapterMismatch
  else if differs sourceIncarnation (SourceIncarnation c) then Err ErrCheckpointIncarnationMismatch
  else Ok tt.

Definition UpdatePosition (now position lastRecordDigest : string) (processedCount : Z) (c : t) : t :=
  mk (FormatVersion c) (SourceSystem c) (AcquisitionStream c) position now (Adapter c)
    (AdapterVersion c) (Identity c) (SourceIncarnation c) processedCount lastRecordDigest
    (BundleHeadHash c) (BundleRecordCount c) (Metadata c).

Definition BindBundle (headHash : string) (recordCount : Z) (c : t) : t :=
  mk (FormatVersion c) (SourceSystem c) (AcquisitionStream c) (Position c) (ObservedAt c) (Adapter c)
    (AdapterVersion c) (Identity c) (SourceIncarnation c) (ProcessedCount c) (LastRecordDigest c)
    headHash recordCount (Metadata c).

Definition ValidateBundle (headHash : string) (recordCount : Z) (c : t) : result checkpoint_error unit :=
  if String.eqb (BundleHeadHash c) "" then Ok tt
  else if negb (String.eqb (BundleHeadHash c) headHash) || negb (BundleRecordCount c =? recordCount)
  then Err ErrCheckpointBundleMismatch
  else Ok tt.

(** ** The manager *)

Record CheckpointManager := mkManager {
  cm_Checkpoint : option t;
  cm_SourceSystem : string;
  cm_AcquisitionStream : string;
  cm_Adapter : string;
  cm_AdapterVersion : string;
  cm_SourceIncarnation : string;
  cm_SourceIdentity : SourceIdentity.t
}.

Definition with_checkpoint (c : option t) (cm : CheckpointManager) : CheckpointManager :=
  mkManager c (cm_SourceSystem cm) (cm_AcquisitionStream cm) (cm_Adapter cm) (cm_AdapterVersion cm)
    (cm_SourceIncarnation cm) (cm_SourceIdentity cm).

Definition LoadOrInitialize (now : string) (f : file_read) (cm : CheckpointManager) :
    CheckpointManager * result checkpoint_error unit :=
  match LoadOrCreate now f (cm_SourceSystem cm) (cm_AcquisitionStream cm) (cm_Adapter cm)
          (cm_AdapterVersion cm) (cm_SourceIncarnation cm) (cm_SourceIdentity cm) with
  | Err e => (cm, Err e)
  | Ok cp => (with_checkpoint (Some cp) cm, Ok tt)
  end.

Definition ValidateSource (cm : CheckpointManager) : result checkpoint_error unit :=
  match cm_Checkpoint cm with
  | None => Err CNotLoaded
  | Some c => Validate c (cm_SourceSystem cm) (cm_AcquisitionStream cm) (cm_Adapter cm)
                (cm_AdapterVersion cm) (cm_SourceIncarnation cm)
  end.

Definition UpdateCheckpoint (now position lastRecordDigest : string) (processedCount : Z)
    (cm : CheckpointManager) : CheckpointManager :=
  with_checkpoint (UpdatePosition now position lastRecordDigest processedCount <$> cm_Checkpoint cm) cm.

Definition ManagerBindBundle (headHash : string) (recordCount : Z) (cm : CheckpointManager) :
    CheckpointManager :=
  with_checkpoint (BindBundle headHash recordCount <$> cm_Checkpoint cm) cm.

Definition ManagerSave (env : save_env) (fs : files) (path : string) (cm : CheckpointManager) :
    CheckpointManager * list files * result checkpoint_error unit :=
  match cm_Checkpoint cm with
  | None => (cm, [], Err CNotLoaded)
  | Some c =>
      let '(c, states, r) := Save env fs path c in
      (with_checkpoint (Some c) cm, states, r)
  end.

Definition RebindBundleCheckpoint (env : save_env) (fs : files) (path : string) (f : file_read)
    (headHash : string) (recordCount : Z) : list files * result checkpoint_error unit :=
  match Load f with
  | Err ErrCheckpointNotFound => ([], Ok tt)
  | Err e => ([], Err e)
  | Ok cp => let '(_, states, r) := Save env fs path (BindBundle headHash recordCount cp) in (states, r)
  end.

(** ** Checkpoint file names *)

Definition slash : ascii := "/"%char.

Fixpoint drop_while (p : ascii -> bool) (l : bytes) : bytes :=
  match l with
  | c :: t => if p c then drop_while p t else l
  | [] => []
  end.

Fixpoint take_until (p : ascii -> bool) (l : bytes) : bytes :=
  match l with
  | c :: t => if p c then [] else c :: take_until p t
  | [] => []
  end.

Definition is_slash (c : ascii) : bool := bool_decide (c = slash).

(** [filepath.Base] with the separator "/". *)
Definition Base (path : bytes) : bytes :=
  match path with
  | [] => B "."
  | _ =>
      match reverse (take_until is_slash (drop_while is_slash (reverse path))) with
      | [] => [slash]
      | base => base
      end
  end.

Definition alnum (r : Z) : bool :=
  ((97 <=? r) && (r <=? 122)) || ((65 <=? r) && (r <=? 90)) || ((48 <=? r) && (r <=? 57)).

Definition punct (r : Z) : bool := (r =? 46) || (r =? 45) || (r =? 95).

Definition name_char (c : ascii) : bool := alnum (code c) || punct (code c).

Definition safe_rune (r : Z) : ascii := if alnum r || punct r then chr r else "_"%char.

(** [strings.Trim(s, "._-")] *)
Definition trim_punct (l : bytes) : bytes :=
  let p c := punct (code c) in reverse (drop_while p (reverse (drop_while p l))).

Definition sanitizeStreamName (stream : string) : string :=
  let name := trim_punct (map safe_rune (runes (Base (B stream)))) in
  let name := match name with [] => B "stream" | _ => name end in
  let name := if (40 <? length name)%nat then take 40 name else name in
  S_of (name ++ "-"%char :: hex_encode (take 4 (Sha256.sum256 (B stream)))).

(** [filepath.Ext]: from the last dot of the last element. *)
Definition without_ext (base : bytes) : bytes :=
  let rev := reverse base in
  let ext := take_until (fun c => bool_decide (c = "."%char)) rev in
  if (length ext =? length rev)%nat then base else take (length base - length ext - 1) base.

(** The last element of [ResolveCheckpointPath]. *)
Definition checkpointName (bundlePath acquisitionStream : string) : string :=
  S_of (without_ext (Base (B bundlePath)) ++ B "." ++ B (sanitizeStreamName acquisitionStream) ++
        B ".checkpoint.json").

(** ** A saved checkpoint loads back *)

Definition valid (c : t) : Prop :=
  int64 (FormatVersion c) = true /\ int64 (ProcessedCount c) = true /\
  int64 (BundleRecordCount c) = true /\
  valid_string (SourceSystem c) = true /\ valid_string (AcquisitionStream c) = true /\
  valid_string (Position c) = true /\ valid_string (ObservedAt c) = true /\
  valid_string (Adapter c) = true /\ valid_string (AdapterVersion c) = true /\
  SourceIdentity.valid (Identity c) = true /\ valid_string (SourceIncarnation c) = true /\
  valid_string (LastRecordDigest c) = true /\ valid_string (BundleHeadHash c) = true /\
  keyed (Metadata c) /\ Forall (fun kv => valid_string kv.2 = true) (Metadata c).

(** A map has no order; the file has the keys sorted. *)
Definition sort_metadata (c : t) : t :=
  mk (FormatVersion c) (SourceSystem c) (AcquisitionStream c) (Position c) (ObservedAt c) (Adapter c)
    (AdapterVersion c) (Identity c) (SourceIncarnation c) (ProcessedCount c) (LastRecordDigest c)
    (BundleHeadHash c) (BundleRecordCount c) (insertion_sort key_less (Metadata c)).

Lemma sub_omit_int k z (l : list (string * any)) ns :
  l.*1 `sublist_of` ns -> (omit_int k z ++ l).*1 `sublist_of` k :: ns.
Proof. intros H. unfold omit_int. destruct (z =? 0); [by apply sublist_cons|by apply sub_field]. Qed.

Lemma sub_omit_map k m (l : list (string * any)) ns :
  l.*1 `sublist_of` ns -> (omit_map k m ++ l).*1 `sublist_of` k :: ns.
Proof. intros H. destruct m; [by apply sublist_cons|by apply sub_field]. Qed.

Lemma checkpoint_file_sub c : (fields c).*1 `sublist_of` names.
Proof.
  unfold fields, names. rewrite <- (app_nil_r (omit_map _ _)).
  repeat (cbn [app]; first [apply sub_omit_int|apply sub_omit_map|apply sub_omit_string|apply sub_field|apply sublist_nil]).
Qed.

Definition opt_int (z : Z) : option any := if z =? 0 then None else Some (AInt z).
Definition opt_map (m : list (string * string)) : option any :=
  match m with [] => None | _ => Some (AStringMap m) end.

Lemma assoc_omit_int k k' z : assoc k (omit_int k' z) = if String.eqb k k' then opt_int z else None.
Proof. unfold omit_int, opt_int. destruct (z =? 0); cbn; by destruct (String.eqb k k'). Qed.

Lemma assoc_omit_map k k' m : assoc k (omit_map k' m) = if String.eqb k k' then opt_map m else None.
Proof. destruct m; cbn; by destruct (String.eqb k k'). Qed.

Lemma checkpoint_file_assoc c :
  assoc "format_version" (fields c) = Some (AInt (FormatVersion c)) /\
  assoc "source_system" (fields c) = Some (AString (SourceSystem c)) /\
  assoc "acquisition_stream" (fields c) = Some (AString (AcquisitionStream c)) /\
  assoc "position" (fields c) = Some (AString (Position c)) /\
  assoc "observed_at" (fields c) = Some (AString (ObservedAt c)) /\
  assoc "adapter" (fields c) = Some (AString (Adapter c)) /\
  assoc "adapter_version" (fields c) = opt_string (AdapterVersion c) /\
  assoc "source_identity" (fields c) = Some (SourceIdentity.encode (Identity c)) /\
  assoc "source_incarnation" (fields c) = opt_string (SourceIncarnation c) /\
  assoc "processed_count" (fields c) = Some (AInt (ProcessedCount c)) /\
  assoc "last_record_digest" (fields c) = opt_string (LastRecordDigest c) /\
  assoc "bundle_head_hash" (fields c) = opt_string (BundleHeadHash c) /\
  assoc "bundle_record_count" (fields c) = opt_int (BundleRecordCount c) /\
  assoc "metadata" (fields c) = opt_map (Metadata c).
Proof.
  unfold fields. split_and!;
    rewrite ?assoc_app, ?assoc_omit_string, ?assoc_omit_int, ?assoc_omit_map;
    cbn [assoc String.eqb Ascii.eqb Bool.eqb app]; rewrite ?option_match_id; reflexivity.
Qed.

Lemma read_opt_int z :
  int64 z = true ->
  match opt_int z with None => Some 0 | Some v => j ← to_json v; dec_int (coerce_json j) 0 end = Some z.
Proof. intros H. unfold opt_int. destruct (z =? 0) eqn:E; boolify; [by subst|by apply read_int]. Qed.

Lemma read_opt_map m :
  keyed m -> Forall (fun kv => valid_string kv.2 = true) m ->
  match opt_map m with None => Some [] | Some v => j ← to_json v; dec_string_map (coerce_json j) [] end =
  Some (insertion_sort key_less m).
Proof.
  intros Hk Hv. destruct m as [|kv m]; [done|]. cbn [opt_map to_json mbind option_bind].
  set (l := kv :: m) in *. clearbody l. clear kv m.
  rewrite (insertion_sort_map key_less key_less (fun kv : string * string => (kv.1, JStr kv.2))) by done.
  assert (keyed (insertion_sort key_less l)) as [Hn Hks] by (by rewrite insertion_sort_perm).
  assert (Forall (fun kv => valid_string kv.2 = true) (insertion_sort key_less l)) as Hvs
    by (by rewrite insertion_sort_perm).
  clear Hk Hv. generalize dependent (insertion_sort key_less l). clear l. intros l Hn Hk Hv.
  cbn [coerce_json dec_string_map]. rewrite map_map. cbn [fst snd coerce_json].
  replace (mapM _ _) with (Some l).
  - cbn [mbind option_bind]. change (fold_left _ l []) with (assoc_of_list l). by rewrite assoc_of_list_nodup.
  - clear Hn. induction l as [|[k v] l IH]; [done|]. cbn in Hk. apply Forall_cons in Hk as [Hk Hks].
    apply Forall_cons in Hv as [Hv Hvs]. cbn [map mapM fst snd].
    rewrite <- IH by done. rewrite !coerce_string_valid by done. done.
Qed.

(** Values of bounded depth. *)
Definition shallow (d : nat) (v : any) : Prop :=
  exists j, to_json v = Some j /\ (json_depth j <= d)%nat.

Lemma shallow_struct d l :
  Forall (fun kv => shallow d kv.2) l -> shallow (S d) (AStruct l).
Proof.
  intros H. assert (exists kvs, mapM (fun kv => pair kv.1 <$> to_json kv.2) l = Some kvs /\
    Forall (fun n => (n <= d)%nat) (map (fun kv => json_depth kv.2) kvs)) as (kvs & Hk & Hd).
  { induction H as [|[k v] l (j & Hj & Hd) _ (kvs & Hk & Hds)]; [by exists []|].
    cbn in Hj. exists ((k, j) :: kvs). cbn [mapM fst snd]. rewrite Hj, Hk. split; [done|by constructor]. }
  exists (JObj kvs). cbn [to_json]. rewrite Hk. split; [done|]. cbn [json_depth].
  by apply le_n_S, max_list_Forall.
Qed.

Lemma shallow_string d s : shallow d (AString s).
Proof. exists (JStr s). split; [done|cbn; lia]. Qed.

Lemma shallow_int d z : shallow d (AInt z).
Proof. eexists. split; [reflexivity|cbn; lia]. Qed.

Lemma shallow_map d m : shallow (S d) (AStringMap m).
Proof.
  eexists. split; [reflexivity|]. cbn [json_depth]. apply le_n_S, max_list_Forall, Forall_fmap.
  rewrite insertion_sort_perm. apply Forall_fmap, Forall_true. intros [k v]. cbn. lia.
Qed.

Lemma shallow_identity d i : shallow (S d) (SourceIdentity.encode i).
Proof.
  apply shallow_struct. unfold SourceIdentity.fields. repeat constructor; try apply shallow_string.
  destruct (SourceIdentity.Derived i); repeat constructor. exists (JBool true). split; [done|cbn; lia].
Qed.

Lemma checkpoint_shallow c : shallow 2 (AStruct (fields c)).
Proof.
  apply shallow_struct. unfold fields, omit_string, omit_int, omit_map.
  repeat first [apply Forall_app; split|apply Forall_cons; split|apply Forall_nil_2|apply shallow_string
    |apply shallow_int|apply shallow_identity|apply shallow_map|case_match].
Qed.

Lemma marshal_load c :
  valid c -> exists data, marshal c = Some data /\ json_parse data ≫= decode = Some (sort_metadata c).
Proof.
  intros (H1 & H2 & H3 & H4 & H5 & H6 & H7 & H8 & H9 & H10 & H11 & H12 & H13 & H14 & H15).
  destruct (checkpoint_shallow c) as (j & Hj & Hd). unfold marshal. rewrite Hj. eexists. split; [reflexivity|].
  rewrite json_parse_indent; [|by repeat constructor|by eapply to_json_wf|unfold max_nesting_depth; lia].
  cbn [mbind option_bind].
  destruct (struct_decode names (fields c) j eq_refl (checkpoint_file_sub c) Hj) as (jl & -> & Htot & Hdec).
  destruct (checkpoint_file_assoc c) as (E1 & E2 & E3 & E4 & E5 & E6 & E7 & E8 & E9 & E10 & E11 & E12 & E13 & E14).
  destruct (Htot _ _ E8) as [ji Hji].
  unfold decode. rewrite !Hdec, E1, E2, E3, E4, E5, E6, E7, E8, E9, E10, E11, E12, E13, E14.
  rewrite !read_int, !read_string by done. cbn [mbind option_bind].
  rewrite read_omit_string by done. cbn [mbind option_bind].
  rewrite Hji. cbn [mbind option_bind]. rewrite (SourceIdentity.identity_decode_encode _ _ H10 Hji).
  cbn [mbind option_bind]. rewrite !read_omit_string, read_opt_int, read_opt_map by done.
  reflexivity.
Qed.

Lemma normalise_valid c : valid c -> valid (normalise_version c).
Proof.
  intros H. unfold normalise_version. destruct (FormatVersion c =? 0); [|done].
  destruct H as [_ H]. split; [done|exact H].
Qed.

Lemma saved_loads c data :
  valid c -> FormatVersion c <= 1 -> marshal (normalise_version c) = Some data ->
  Load (FData data) = Ok (sort_metadata (normalise_version c)).
Proof.
  intros Hv Hver Hm. destruct (marshal_load _ (normalise_valid c Hv)) as (data' & Hm' & Hl).
  rewrite Hm in Hm'. injection Hm' as <-. unfold Load. rewrite Hl.
  assert (FormatVersion (normalise_version c) <> 0 /\ FormatVersion (normalise_version c) <= 1) as [H0 H1].
  { unfold normalise_version. destruct (FormatVersion c =? 0) eqn:E; boolify; [by vm_compute|done]. }
  change (FormatVersion (sort_metadata (normalise_version c))) with (FormatVersion (normalise_version c)).
  rewrite (proj2 (Z.eqb_neq _ _) H0).
  change (FormatVersion (sort_metadata (normalise_version c))) with (FormatVersion (normalise_version c)).
  by rewrite (proj2 (Z.ltb_ge _ _) H1).
Qed.

(** Every state of a [Save]. *)
Lemma Save_states env fs path c c' states r :
  sv_tmp env <> path -> fs !! sv_tmp env = None -> Save env fs path c = (c', states, r) ->
  c' = normalise_version c /\
  Forall (fun s => (s !! path = fs !! path \/
      exists data, s !! path = Some (data, 384) /\ marshal c' = Some data) /\
    forall q, q <> path -> q <> sv_tmp env -> s !! q = fs !! q) states /\
  (r = Ok tt -> exists data, final_state fs states !! path = Some (data, 384) /\ marshal c' = Some data).
Proof.
  intros Hne Hfresh. unfold Save.
  destruct (sv_mkdir_fails env); [intros [= <- <- <-]; by split|].
  destruct (marshal (normalise_version c)) as [data|] eqn:Em; [|intros [= <- <- <-]; by split].
  destruct (writeAtomic _ _ _ _ _ _ _) as [st w] eqn:Ew.
  destruct (writeAtomic_states _ _ _ _ _ _ _ _ _ Hne Hfresh Ew) as [Hst Hfin]. intros [= <- <- <-].
  change (if 384 =? 0 then bundleFileMode else 384) with 384 in *. split_and!; [done| |].
  - eapply Forall_impl; [exact Hst|]. intros s [[H|H] Hq]; (split; [|exact Hq]); [by left|right]. by exists data.
  - intros Hr. exists data. split; [|done]. destruct w as [[]|]; [|done].
    rewrite Hfin. apply lookup_insert_eq.
Qed.

(** ** File names *)

Lemma drop_while_sub p l : drop_while p l `sublist_of` l.
Proof. induction l as [|c l IH]; [done|]. cbn. destruct (p c); [by apply sublist_cons|done]. Qed.

Lemma drop_while_head p c l t : drop_while p l = c :: t -> p c = false.
Proof. induction l as [|d l IH]; [done|]. cbn. destruct (p d) eqn:E; [done|]. by intros [= <- <-]. Qed.

Lemma drop_while_last p l t c : drop_while p (t ++ [c]) = l -> p c = false -> exists u, l = u ++ [c].
Proof.
  intros <- Hc. induction t as [|d t IH]; cbn; [rewrite Hc; by exists []|].
  destruct (p d); [done|]. by exists (d :: t).
Qed.

Lemma trim_punct_spec l :
  Forall (fun c => name_char c = true) l ->
  Forall (fun c => name_char c = true) (trim_punct l) /\
  forall c t, trim_punct l = c :: t -> alnum (code c) = true.
Proof.
  intros Hl. unfold trim_punct. remember (drop_while (fun c => punct (code c)) l) as m eqn:Em0.
  assert (Forall (fun c => name_char c = true) m) as Hm.
  { rewrite Forall_forall in *. intros c Hc. apply Hl. subst m. by eapply elem_of_sublist; [exact Hc|apply drop_while_sub]. }
  split.
  - apply Forall_reverse. rewrite Forall_forall in *. intros c Hc. apply Hm.
    apply elem_of_reverse. by eapply elem_of_sublist; [exact Hc|apply drop_while_sub].
  - intros c t H. apply (f_equal reverse) in H. rewrite reverse_involutive, reverse_cons in H.
    destruct m as [|d m]; [by destruct (reverse t)|].
    symmetry in Em0. apply drop_while_head in Em0 as Hd. apply Forall_cons in Hm as [Hnd _].
    rewrite reverse_cons in H. destruct (drop_while_last _ _ _ _ H Hd) as [u Hu].
    apply app_inj_2 in Hu as [_ Hu]; [|done]. injection Hu as <-.
    unfold name_char in Hnd. by rewrite Hd, orb_false_r in Hnd.
Qed.

Lemma safe_rune_char r : name_char (safe_rune r) = true.
Proof.
  unfold safe_rune. destruct (alnum r || punct r) eqn:E; [|by vm_compute].
  unfold name_char. rewrite code_chr; [done|]. unfold alnum, punct in E.
  apply orb_true_iff in E as [E|E]; [apply orb_true_iff in E as [E|E]; [apply orb_true_iff in E as [E|E]|]
    |apply orb_true_iff in E as [E|E]; [apply orb_true_iff in E as [E|E]|]]; boolify; lia.
Qed.

Lemma hex_name_char b : Forall (fun c => name_char c = true) (hex_encode b).
Proof.
  unfold hex_encode. induction b as [|c b IH]; [constructor|]. cbn.
  pose proof (code_range c). pose proof (Z.div_mod (code c) 16 ltac:(lia)).
  pose proof (Z.mod_pos_bound (code c) 16 ltac:(lia)).
  assert (forall n, 0 <= n < 16 -> name_char (hex_digit n) = true) as Hd.
  { intros n Hn. unfold name_char, hex_digit, alnum. destruct (n <? 10) eqn:?; boolify; rewrite code_chr by lia.
    - replace ((48 <=? 48 + n) && (48 + n <=? 57)) with true by lia. by rewrite !orb_true_r.
    - by replace ((97 <=? 87 + n) && (87 + n <=? 122)) with true by lia. }
  constructor; [apply Hd; lia|]. constructor; [apply Hd; lia|exact IH].
Qed.

Lemma length_hex b : length (hex_encode b) = (2 * length b)%nat.
Proof. unfold hex_encode. induction b as [|c b IH]; [done|]. cbn in *. lia. Qed.

(** ** Properties *)

(** A saved checkpoint loads back, and saving is crash-safe. For every checkpoint
    of a supported version, whatever calls fail and wherever a crash interrupts [Save],
    the file at the path is the old one or a complete new one that [Load] reads back as
    the checkpoint with its version filled in; after success it is the new one. *)
Theorem saved_checkpoint_loads env fs path c c' states r :
  valid c -> FormatVersion c <= 1 -> sv_tmp env <> path -> fs !! sv_tmp env = None ->
  Save env fs path c = (c', states, r) ->
  Forall (fun s => s !! path = fs !! path \/
    exists data, s !! path = Some (data, 384) /\ Load (FData data) = Ok (sort_metadata c')) states /\
  (r = Ok tt -> exists data, final_state fs states !! path = Some (data, 384) /\
    Load (FData data) = Ok (sort_metadata c')).
Proof.
  intros Hv Hver Hne Hfresh H.
  destruct (Save_states _ _ _ _ _ _ _ Hne Hfresh H) as (-> & Hst & Hfin). split.
  - eapply Forall_impl; [exact Hst|]. intros s [[Hs|(data & Hs & Hm)] _]; [by left|right].
    exists data. split; [done|by apply saved_loads].
  - intros (data & Hs & Hm)%Hfin. exists data. split; [done|by apply saved_loads].
Qed.

(** C19: a bound checkpoint pins the evidence. If a checkpoint bound to a bundle head
    validates against two verified bundles, they hold the same events record by record,
    unless they exhibit a SHA-256 collision or a preimage of the genesis value. *)
Theorem bound_checkpoint_determines_bundle c b b' :
  BundleHeadHash c <> "" ->
  ValidateBundle (head b) (Z.of_nat (length b)) c = Ok tt ->
  ValidateBundle (head b') (Z.of_nat (length b')) c = Ok tt ->
  Bundle.Verify b = Ok tt -> Bundle.Verify b' = Ok tt -> hasManifestRecord b = hasManifestRecord b' ->
  Forall (fun e => canonical_ok e = true) (events b) ->
  Forall (fun e => canonical_ok e = true) (events b') ->
  (length b = length b' /\ hashes b = hashes b' /\
   Forall2 (fun e e' => Event.Sequence e = Event.Sequence e' /\ Event.same_event e e') (events b) (events b'))
  \/ chain_break (events b) (events b').
Proof.
  intros Hc H H' Hb Hb' Hm He He'. unfold ValidateBundle in H, H'.
  rewrite (proj2 (String.eqb_neq _ _) Hc) in H, H'.
  destruct (_ || _) eqn:E in H; [discriminate|]. destruct (_ || _) eqn:E' in H'; [discriminate|]. boolify.
  rewrite !bundle_Verify_linked in *. unfold first_seq in *. rewrite Hm in Hb.
  destruct (linked_same_head _ _ _ _ _ Hb Hb') as [[Heq HF]|Hbr]; [unfold head in *; congruence| |by right].
  left. split_and!; [lia|done|by apply Forall2_same_event].
Qed.

(** A checkpoint file name cannot leave its directory. Whatever the stream is
    called, the sanitized name consists of letters, digits, dots, hyphens and
    underscores, starts with a letter or a digit, and has at most 49 bytes. *)
Theorem sanitizeStreamName_safe stream :
  Forall (fun c => name_char c = true) (B (sanitizeStreamName stream)) /\
  (exists c t, B (sanitizeStreamName stream) = c :: t /\ alnum (code c) = true) /\
  (length (B (sanitizeStreamName stream)) <= 49)%nat.
Proof.
  unfold sanitizeStreamName. rewrite B_S_of. set (raw := map safe_rune _).
  assert (Forall (fun c => name_char c = true) raw) as Hraw
    by (apply Forall_fmap, Forall_true; intros r; apply safe_rune_char).
  destruct (trim_punct_spec raw Hraw) as [Hc Hh]. clearbody raw.
  set (name := match trim_punct raw with [] => B "stream" | _ => _ end).
  assert (Forall (fun c => name_char c = true) name /\
    exists c t, name = c :: t /\ alnum (code c) = true) as [Hn (c & t & Ec & Ha)].
  { unfold name. destruct (trim_punct raw) as [|c t]; [|split; [done|by exists c, t; eauto]].
    split; [repeat constructor|by eexists _, _]. }
  clearbody name. rewrite length_app. cbn [length]. rewrite length_hex, length_take, Sha256.length_sum256.
  assert (Forall (fun c => name_char c = true) (if (40 <? length name)%nat then take 40 name else name) /\
    (length (if (40 <? length name)%nat then take 40 name else name) <= 40)%nat /\
    exists t', (if (40 <? length name)%nat then take 40 name else name) = c :: t') as (H1 & H2 & t' & Ht).
  { destruct (40 <? length name)%nat eqn:E.
    - split_and!; [by apply Forall_take|rewrite length_take; lia|]. subst name. by eexists.
    - apply Nat.ltb_ge in E. split_and!; [done|done|by exists t]. }
  rewrite Ht in *. split_and!.
  - apply Forall_app. split; [done|]. constructor; [by vm_compute|]. apply hex_name_char.
  - by exists c, (t' ++ "-"%char :: hex_encode (take 4 (Sha256.sum256 (B stream)))).
  - cbn [length] in *. lia.
Qed.

(** ** Witnesses *)

Definition sample_checkpoint : t :=
  mk 0 "chatlog" "chat.json" "12" "2026-01-02T03:04:05Z" "chatlog" "1.0" (SourceIdentity.mk "chatlog" "x" true)
    "" 12 "00ff" (head sample_bundle) (Z.of_nat (length sample_bundle)) [("b", "2"); ("a", "1")].

Definition quiet : save_env := mkSaveEnv false (fun _ => false) 3 "cp.tmp" true false.

Lemma sample_checkpoint_valid : valid sample_checkpoint.
Proof.
  unfold valid. split_and!; match goal with |- _ = true => vm_compute; reflexivity | _ => idtac end.
  - split; [apply (bool_decide_eq_true_1 (NoDup _)); vm_compute; reflexivity|].
    apply forallb_Forall_iff. vm_compute. reflexivity.
  - apply forallb_Forall_iff. vm_compute. reflexivity.
Qed.

Lemma saved_checkpoint_loads_witness :
  exists data, final_state ∅ (Save quiet ∅ "cp" sample_checkpoint).1.2 !! "cp" = Some (data, 384) /\
    Load (FData data) = Ok (sort_metadata (with_version 1 sample_checkpoint)).
Proof.
  apply (saved_checkpoint_loads quiet ∅ "cp" sample_checkpoint (with_version 1 sample_checkpoint)
    (Save quiet ∅ "cp" sample_checkpoint).1.2 (Ok tt));
    [apply sample_checkpoint_valid|discriminate|discriminate|reflexivity|vm_compute; reflexivity|reflexivity].
Defined.

Lemma bound_checkpoint_determines_bundle_witness :
  (length sample_bundle = length sample_bundle /\ hashes sample_bundle = hashes sample_bundle /\
   Forall2 (fun e e' => Event.Sequence e = Event.Sequence e' /\ Event.same_event e e')
     (events sample_bundle) (events sample_bundle))
  \/ chain_break (events sample_bundle) (events sample_bundle).
Proof.
  apply (bound_checkpoint_determines_bundle sample_checkpoint);
    [vm_compute; discriminate|vm_compute; reflexivity|vm_compute; reflexivity|vm_compute; reflexivity
    |vm_compute; reflexivity|reflexivity|apply forallb_Forall_iff; vm_compute; reflexivity
    |apply forallb_Forall_iff; vm_compute; reflexivity].
Defined.
End Checkpoint.
