(* ===== verification/Config.v ===== *)
(** * Command line: the settings of a project

    [cmd/atb/config.go], with [Digest] of package internal/retentionaudit: the file [.atb/config.json], its
    retention policy and the settings of [atb push], and [atb config retention], which changes the policy and
    records the change. Theorems: a saved configuration loads, and a policy that is set is the one that is found
    afterwards, beside the settings of the other commands, with an event about it in the audit bundle. *)

From S2P Require Import Prelude GoText GoPath Sha256 GoFloat GoJson GoIndent GoValue GoUnicode GoTime GoStruct Push Canonicalize Event HashChain Bundle BundleIO Checkpoint VerifyCLI PushCLI.
Import Canonicalize HashChain Bundle.

Module Config.
Import Event Push VerifyCLI PushCLI.

Definition configVersion : Z := 1.
Definition retentionDefaultArchive : string := "archive.atb".
Definition retentionDefaultCutoff : string := "file_mtime".
Definition EUAIActRetentionMinDays : Z := 183.

Record retentionPolicy := mkPolicy {
  Days : Z;
  ArchiveDir : string;
  Scope : list string;
  CutoffBasis : string;
  UpdatedAt : string
}.

Record atbConfig := mkATB {
  Version : Z;
  Retention : option retentionPolicy;
  PushSection : option pushSettings
}.

Definition zero_policy : retentionPolicy := mkPolicy 0 "" [] "" "".
Definition zero_settings : pushSettings := mkSettings "" "" "" "" "" "".
Definition zero_config : atbConfig := mkATB 0 None None.

(** ** JSON *)

Definition omit_strings (k : string) (l : list string) : list (string * any) :=
  match l with [] => [] | _ => [(k, ASlice (map AString l))] end.

Definition policy_fields (p : retentionPolicy) : list (string * any) :=
  [("days", AInt (Days p))] ++ omit_string "archive_dir" (ArchiveDir p) ++ omit_strings "scope" (Scope p) ++
  omit_string "cutoff_basis" (CutoffBasis p) ++ omit_string "updated_at" (UpdatedAt p).

Definition settings_fields (s : pushSettings) : list (string * any) :=
  omit_string "target" (f_Target s) ++ omit_string "endpoint_url" (f_EndpointURL s) ++ omit_string "region" (f_Region s) ++
  omit_string "lock_mode" (f_LockMode s) ++ omit_string "lock_until" (f_LockUntil s) ++
  omit_string "credentials_source" (f_CredentialsSource s).

Definition config_fields (c : atbConfig) : list (string * any) :=
  [("version", AInt (Version c))] ++ omit_ptr (fun p => AStruct (policy_fields p)) "retention" (Retention c) ++
  omit_ptr (fun s => AStruct (settings_fields s)) "push" (PushSection c).

Definition policy_names : list string := ["days"; "archive_dir"; "scope"; "cutoff_basis"; "updated_at"].
Definition settings_names : list string := ["target"; "endpoint_url"; "region"; "lock_mode"; "lock_until"; "credentials_source"].
Definition config_names : list string := ["version"; "retention"; "push"].

(** A slice of strings: the elements are decoded over those that are there already, if the member occurs twice. *)
Fixpoint dec_elements (l : list json) (old : list string) : option (list string) :=
  match l with
  | [] => Some []
  | j :: rest => s ← dec_string j (List.hd "" old); ss ← dec_elements rest (List.tl old); Some (s :: ss)
  end.

Definition dec_strings (j : json) (old : list string) : option (list string) :=
  match j with JNull => Some [] | JArr l => dec_elements l old | _ => None end.

Definition decode_policy (j : json) (p : retentionPolicy) : option retentionPolicy :=
  match j with
  | JNull => Some p
  | JObj l =>
      let str name d := decode_field policy_names name dec_string l d in
      dy ← decode_field policy_names "days" dec_int l (Days p);
      ad ← str "archive_dir" (ArchiveDir p);
      sc ← decode_field policy_names "scope" dec_strings l (Scope p);
      cb ← str "cutoff_basis" (CutoffBasis p);
      ua ← str "updated_at" (UpdatedAt p);
      Some (mkPolicy dy ad sc cb ua)
  | _ => None
  end.

Definition decode_settings (j : json) (s : pushSettings) : option pushSettings :=
  match j with
  | JNull => Some s
  | JObj l =>
      let str name d := decode_field settings_names name dec_string l d in
      ta ← str "target" (f_Target s); en ← str "endpoint_url" (f_EndpointURL s); re ← str "region" (f_Region s);
      lm ← str "lock_mode" (f_LockMode s); lu ← str "lock_until" (f_LockUntil s); cs ← str "credentials_source" (f_CredentialsSource s);
      Some (mkSettings ta en re lm lu cs)
  | _ => None
  end.

Definition decode (j : json) : option atbConfig :=
  match j with
  | JNull => Some zero_config
  | JObj l =>
      v ← decode_field config_names "version" dec_int l 0;
      r ← decode_field config_names "retention" (dec_ptr zero_policy decode_policy) l None;
      p ← decode_field config_names "push" (dec_ptr zero_settings decode_settings) l None;
      Some (mkATB v r p)
  | _ => None
  end.

(** ** The file *)

(** What reading the file gives: the file may be missing. *)
Inductive config_read := CMissing | CRefused (text : string) | CContents (raw : bytes).

Inductive config_error := ConfigNotExist | ConfigRead (text : string) | ConfigParse.

Definition with_version (c : atbConfig) : atbConfig :=
  if Version c =? 0 then mkATB configVersion (Retention c) (PushSection c) else c.

Definition loadATBConfig (f : config_read) : result config_error atbConfig :=
  match f with
  | CMissing => Err ConfigNotExist
  | CRefused text => Err (ConfigRead text)
  | CContents raw =>
      match json_parse raw ≫= decode with
      | None => Err ConfigParse
      | Some cfg => Ok (with_version cfg)
      end
  end.

Definition loadRetentionPolicy (f : config_read) : result config_error (option retentionPolicy) :=
  match loadATBConfig f with
  | Err ConfigNotExist => Ok None
  | Err e => Err e
  | Ok cfg => Ok (Retention cfg)
  end.

Definition loadPushSettings (f : config_read) : result config_error (option pushSettings) :=
  match loadATBConfig f with
  | Err ConfigNotExist => Ok None
  | Err e => Err e
  | Ok cfg => Ok (PushSection cfg)
  end.

Definition marshal (c : atbConfig) : option bytes :=
  (fun raw => raw ++ [chr 10]) <$> (json_indent [" "%char; " "%char] 0 <$> to_json (AStruct (config_fields c))).

(** [os.WriteFile] truncates the file, and a write that fails leaves a part of the data. *)
Inductive write_outcome := WriteOpenFails | WriteStops (n : nat) | Written.

Definition WriteFile (o : write_outcome) (f : option bytes) (data : bytes) : option bytes * bool :=
  match o with
  | WriteOpenFails => (f, false)
  | WriteStops n => (Some (take n data), false)
  | Written => (Some data, true)
  end.

Inductive save_failure := SaveMarshal | SaveMkdir | SaveWrite.

Definition saveATBConfig (mkdir_fails : bool) (o : write_outcome) (f : option bytes) (c : atbConfig) :
    option bytes * result save_failure unit :=
  match marshal (with_version c) with
  | None => (f, Err SaveMarshal)
  | Some raw =>
      if mkdir_fails then (f, Err SaveMkdir)
      else let '(f', ok) := WriteFile o f raw in (f', if ok then Ok tt else Err SaveWrite)
  end.

(** The file and whether that worked. [remove_fails] is about the removal of a new file. *)
Definition rollbackConfig (remove_fails : bool) (o : write_outcome) (f : option bytes) (previousRaw : bytes) (existed : bool) :
    option bytes * bool :=
  if negb existed then if remove_fails then (f, false) else (None, true)
  else WriteFile o f previousRaw.

Definition read_of (f : option bytes) : config_read := match f with None => CMissing | Some raw => CContents raw end.

(** ** The arguments *)

Record configCommandArgs := mkArgs { Subcommand : string; a_Days : Z; AllowBelowStatutoryMinimum : bool }.

Inductive config_parse_error :=
| EUsage | EUnknownSubcommand (name : string) | EMissingDays | EInvalidDays (raw : string) | EDaysNotPositive
| EUnknownFlag (arg : string) | EUnexpectedArgument (arg : string).

Definition parsePositiveDays (raw : string) : result config_parse_error Z :=
  match ParseInt64 (TrimSpace raw) with
  | None => Err (EInvalidDays raw)
  | Some parsed => if parsed <=? 0 then Err EDaysNotPositive else Ok parsed
  end.

Fixpoint parse_config_loop (cfg : configCommandArgs) (args : list string) : result config_parse_error configCommandArgs :=
  match args with
  | [] => Ok cfg
  | arg :: rest =>
      if String.eqb arg "--days" then
        match rest with
        | [] => Err EMissingDays
        | value :: rest' =>
            let? days := parsePositiveDays value in
            parse_config_loop (mkArgs (Subcommand cfg) days (AllowBelowStatutoryMinimum cfg)) rest'
        end
      else if HasPrefix arg "--days=" then
        let? days := parsePositiveDays (TrimPrefix arg "--days=") in
        parse_config_loop (mkArgs (Subcommand cfg) days (AllowBelowStatutoryMinimum cfg)) rest
      else if String.eqb arg "--allow-below-eu-minimum" then
        parse_config_loop (mkArgs (Subcommand cfg) (a_Days cfg) true) rest
      else if HasPrefix arg "--" then Err (EUnknownFlag arg)
      else Err (EUnexpectedArgument arg)
  end.

Section commands.
Context `{Unicode}.

Definition parseConfigArgs (args : list string) : result config_parse_error configCommandArgs :=
  match args with
  | [] => Err EUsage
  | name :: rest =>
      let sub := ToLower (TrimSpace name) in
      if negb (String.eqb sub "retention") then Err (EUnknownSubcommand name)
      else
        let? cfg := parse_config_loop (mkArgs sub 0 false) rest in
        if a_Days cfg <=? 0 then Err EDaysNotPositive else Ok cfg
  end.

(** ** Setting the policy *)

Definition defaultRetentionPolicy (days now : Z) : retentionPolicy :=
  mkPolicy days retentionDefaultArchive ["run.atb/*.atb"] retentionDefaultCutoff (RFC3339 now).

(** [retentionaudit.Digest] *)
Definition Digest (v : any) : option string := (fun raw => S_of (hex_encode (Sha256.sum256 raw))) <$> GoValue.Marshal v.

Definition TypeDataRetentionPolicySet : string := "data.retention.policy_set".
Definition TypeDataRetentionPolicyChanged : string := "data.retention.policy_changed".

Definition audit_data (p : retentionPolicy) (digest : string) (previous : option string) : any :=
  AMap ([("policy_id", AString "local.default"); ("days", AInt (Days p)); ("archive_dir", AString (ArchiveDir p));
         ("scope", ASlice (map AString (Scope p))); ("cutoff_basis", AString (CutoffBasis p)); ("config_digest", AString digest);
         ("accepted_below_eu_minimum", ABool (Days p <? EUAIActRetentionMinDays)); ("atb_enforces_storage_policy", ABool false)] ++
        match previous with Some d => [("previous_config_digest", AString d)] | None => [] end).

(** What the command finds outside; [cw_again] says whether the file can be read a second time. *)
Record config_world := mkConfigWorld {
  cw_file : option bytes;
  cw_refused : option string;
  cw_again : bool;
  cw_mkdir_fails : bool;
  cw_write : write_outcome;
  cw_remove_fails : bool;
  cw_restore : write_outcome;
  cw_audit : result BundleIO.verified_error bundle;
  cw_audit_missing : bool;
  cw_audit_fresh : result new_error bundle;
  cw_audit_save : save_end;
  cw_now : Z
}.

Inductive config_failure :=
| FArguments (e : config_parse_error) | FBelowMinimum | FLoadConfig (e : config_error) | FDigest | FSaveConfig (e : save_failure)
| FAuditFails (e : audit_error) (restored : bool).

(** [c_audit]: the audit bundle with the new record, if it was put in place. *)
Record configured := mkConfigured {
  c_exit : Z;
  c_file : option bytes;
  c_audit : option bundle;
  c_failure : option config_failure
}.

Definition config_fails (w : config_world) (code : Z) (e : config_failure) : configured :=
  mkConfigured code (cw_file w) None (Some e).

(** The event in the audit bundle: the bundle that is put in place, if one is, and the error. *)
Definition record_change (w : config_world) (eventType : string) (auditData : any) : option bundle * result audit_error unit :=
  audit_commit (cw_audit_save w) (cw_audit w) (cw_audit_missing w) (cw_audit_fresh w) eventType auditData (cw_now w).

(** The file is saved, then the event; if that fails the file goes back to what it was, also when the event is in place. *)
Definition save_and_record (w : config_world) (eventType : string) (auditData : any) (existing : atbConfig) : configured :=
  let previousRaw := match cw_file w with Some raw => if cw_again w then Some raw else None | None => None end in
  let '(f, saved) := saveATBConfig (cw_mkdir_fails w) (cw_write w) (cw_file w) existing in
  match saved with
  | Err e => mkConfigured exitSystemError f None (Some (FSaveConfig e))
  | Ok _ =>
      let '(b, recorded) := record_change w eventType auditData in
      match recorded with
      | Err e =>
          let '(f', restored) := rollbackConfig (cw_remove_fails w) (cw_restore w) f (default [] previousRaw)
                                   (match previousRaw with Some _ => true | None => false end) in
          mkConfigured exitSystemError f' b (Some (FAuditFails e restored))
      | Ok _ => mkConfigured exitSuccess f b None
      end
  end.

(** The change with the digests of the new policy and of the one before. *)
Definition change_policy (w : config_world) (nextPolicy : retentionPolicy) (existing : atbConfig)
    (nextDigest : option string) (previousDigest : option (option string)) : configured :=
  let next := mkATB (Version existing) (Some nextPolicy) (PushSection existing) in
  match nextDigest, previousDigest with
  | None, _ | _, Some None => config_fails w exitSystemError FDigest
  | Some d, None => save_and_record w TypeDataRetentionPolicySet (audit_data nextPolicy d None) next
  | Some d, Some (Some p) => save_and_record w TypeDataRetentionPolicyChanged (audit_data nextPolicy d (Some p)) next
  end.

Definition policy_digest (p : retentionPolicy) : option string := Digest (AStruct (policy_fields p)).

(** After the load: [existing] is what the file held, or a new configuration. *)
Definition set_retention (w : config_world) (days : Z) (existing : atbConfig) : configured :=
  let nextPolicy := defaultRetentionPolicy days (cw_now w) in
  change_policy w nextPolicy existing (policy_digest nextPolicy) (policy_digest <$> Retention existing).

Definition runConfig (w : config_world) (args : list string) : configured :=
  (* the version that is set to 1 if it is 0 after the load is set already *)
  match parseConfigArgs args with
  | Err e => config_fails w exitUserError (FArguments e)
  | Ok cfg =>
      if (a_Days cfg <? EUAIActRetentionMinDays) && negb (AllowBelowStatutoryMinimum cfg) then
        config_fails w exitUserError FBelowMinimum
      else
        match loadATBConfig (match cw_refused w with Some text => CRefused text | None => read_of (cw_file w) end) with
        | Err ConfigNotExist => set_retention w (a_Days cfg) (mkATB configVersion None None)
        | Err e => config_fails w exitSystemError (FLoadConfig e)
        | Ok existing => set_retention w (a_Days cfg) existing
        end
  end.
End commands.

(** ** What is saved loads *)

Definition valid_policy (p : retentionPolicy) : Prop :=
  int64 (Days p) = true /\ valid_string (ArchiveDir p) = true /\ Forall (fun s => valid_string s = true) (Scope p) /\
  valid_string (CutoffBasis p) = true /\ valid_string (UpdatedAt p) = true.

Definition valid_settings (s : pushSettings) : Prop :=
  valid_string (f_Target s) = true /\ valid_string (f_EndpointURL s) = true /\ valid_string (f_Region s) = true /\
  valid_string (f_LockMode s) = true /\ valid_string (f_LockUntil s) = true /\ valid_string (f_CredentialsSource s) = true.

Definition valid_config (c : atbConfig) : Prop :=
  int64 (Version c) = true /\ (forall p, Retention c = Some p -> valid_policy p) /\
  (forall s, PushSection c = Some s -> valid_settings s).

Definition opt_strings (l : list string) : option any := match l with [] => None | _ => Some (ASlice (map AString l)) end.

Lemma assoc_omit_strings k k' l : assoc k (omit_strings k' l) = if String.eqb k k' then opt_strings l else None.
Proof. destruct l; cbn; by destruct (String.eqb k k'). Qed.

Lemma sub_omit_strings k l (f : list (string * any)) ns : f.*1 `sublist_of` ns -> (omit_strings k l ++ f).*1 `sublist_of` k :: ns.
Proof. intros H. destruct l; cbn; [by constructor|by constructor]. Qed.

Lemma read_opt_strings l :
  Forall (fun s => valid_string s = true) l ->
  match opt_strings l with None => Some [] | Some v => j ← to_json v; dec_strings (coerce_json j) [] end = Some l.
Proof.
  intros Hv. assert (forall m, Forall (fun s => valid_string s = true) m ->
    exists js, mapM to_json (map AString m) = Some js /\ dec_elements (map coerce_json js) [] = Some m) as H.
  { induction 1 as [|s m Hs _ (js & Hj & Hd)]; [by exists []|]. exists (JStr s :: js). cbn [map mapM to_json]. rewrite Hj.
    split; [done|]. cbn [map dec_elements coerce_json dec_string]. rewrite coerce_string_valid by done.
    cbn [mbind option_bind List.tl]. by rewrite Hd. }
  destruct (H l Hv) as (js & Hj & Hd). destruct l as [|s l]; [done|]. cbn [opt_strings to_json].
  change (mapM to_json (map AString (s :: l))) with (mapM to_json (map AString (s :: l))) in Hj. rewrite Hj.
  cbn [fmap option_fmap option_map mbind option_bind coerce_json dec_strings]. exact Hd.
Qed.

Lemma policy_sub p : (policy_fields p).*1 `sublist_of` policy_names.
Proof.
  unfold policy_fields, policy_names. cbn [app]. apply sub_field, sub_omit_string, sub_omit_strings.
  rewrite <- (app_nil_r (omit_string "updated_at" _)). apply sub_omit_string, sub_omit_string, sublist_nil.
Qed.

Lemma settings_sub s : (settings_fields s).*1 `sublist_of` settings_names.
Proof. unfold settings_fields, settings_names. solve_fields. Qed.

Lemma config_sub c : (config_fields c).*1 `sublist_of` config_names.
Proof. unfold config_fields, config_names. solve_fields. Qed.

Lemma policy_decode p j : valid_policy p -> to_json (AStruct (policy_fields p)) = Some j -> decode_policy (coerce_json j) zero_policy = Some p.
Proof.
  intros (H1 & H2 & H3 & H4 & H5) Hj.
  destruct (struct_decode policy_names (policy_fields p) j eq_refl (policy_sub p) Hj) as (jl & -> & _ & Hd).
  unfold decode_policy. rewrite !Hd. unfold policy_fields. rewrite !assoc_app, !assoc_omit_string, !assoc_omit_strings.
  cbn [assoc app String.eqb Ascii.eqb Bool.eqb]. rewrite ?option_match_id. rewrite read_int by done. cbn [mbind option_bind].
  change (if String.eqb (ArchiveDir p) "" then None else Some (AString (ArchiveDir p))) with (opt_string (ArchiveDir p)).
  change (if String.eqb (CutoffBasis p) "" then None else Some (AString (CutoffBasis p))) with (opt_string (CutoffBasis p)).
  change (if String.eqb (UpdatedAt p) "" then None else Some (AString (UpdatedAt p))) with (opt_string (UpdatedAt p)).
  cbn [zero_policy ArchiveDir Scope CutoffBasis UpdatedAt].
  rewrite read_omit_string by done. cbn [mbind option_bind]. rewrite read_opt_strings by done. cbn [mbind option_bind].
  do 2 (rewrite ?read_omit_string by done; cbn [mbind option_bind]). by destruct p.
Qed.

Lemma settings_decode s j : valid_settings s -> to_json (AStruct (settings_fields s)) = Some j -> decode_settings (coerce_json j) zero_settings = Some s.
Proof.
  intros (H1 & H2 & H3 & H4 & H5 & H6) Hj.
  destruct (struct_decode settings_names (settings_fields s) j eq_refl (settings_sub s) Hj) as (jl & -> & _ & Hd).
  unfold decode_settings. rewrite !Hd. unfold settings_fields. rewrite !assoc_app, !assoc_omit_string.
  cbn [assoc app String.eqb Ascii.eqb Bool.eqb]. rewrite ?option_match_id.
  cbn [zero_settings f_Target f_EndpointURL f_Region f_LockMode f_LockUntil f_CredentialsSource].
  repeat match goal with |- context [if String.eqb (?f s) "" then None else Some (AString (?f s))] =>
    change (if String.eqb (f s) "" then None else Some (AString (f s))) with (opt_string (f s)) end.
  do 6 (rewrite read_omit_string by done; cbn [mbind option_bind]). by destruct s.
Qed.

Lemma struct_printed l : Forall (fun kv => is_Some (to_json kv.2)) l -> is_Some (to_json (AStruct l)).
Proof.
  intros H. cbn [to_json]. apply fmap_is_Some. induction H as [|[k v] l [j Hj] _ [js IH]]; [done|].
  cbn [mapM fst snd] in *. rewrite Hj. cbn. rewrite IH. done.
Qed.

Lemma shallow_strings d l : Checkpoint.shallow (S d) (ASlice (map AString l)).
Proof.
  assert (exists js, mapM to_json (map AString l) = Some js /\ Forall (fun n => (n <= d)%nat) (map json_depth js)) as (js & Hj & Hd).
  { induction l as [|s l (js & Hj & Hd)]; [by exists []|]. exists (JStr s :: js). cbn [map mapM to_json]. rewrite Hj.
    split; [done|]. cbn [map]. constructor; [cbn; lia|done]. }
  exists (JArr js). cbn [to_json]. rewrite Hj. split; [done|]. cbn [json_depth]. by apply le_n_S, max_list_Forall.
Qed.

Lemma policy_shallow p : Checkpoint.shallow 2 (AStruct (policy_fields p)).
Proof.
  apply Checkpoint.shallow_struct. unfold policy_fields, omit_string, omit_strings.
  repeat first [apply Forall_app; split|apply Forall_cons; split|apply Forall_nil_2|apply Checkpoint.shallow_string
    |apply Checkpoint.shallow_int|apply (shallow_strings 0 (_ :: _))|case_match].
Qed.

Lemma settings_shallow d s : Checkpoint.shallow (S d) (AStruct (settings_fields s)).
Proof.
  apply Checkpoint.shallow_struct. unfold settings_fields, omit_string.
  repeat first [apply Forall_app; split|apply Forall_cons; split|apply Forall_nil_2|apply Checkpoint.shallow_string|case_match].
Qed.

Lemma config_shallow c : Checkpoint.shallow 3 (AStruct (config_fields c)).
Proof.
  apply Checkpoint.shallow_struct. unfold config_fields, omit_ptr.
  repeat first [apply Forall_app; split|apply Forall_cons; split|apply Forall_nil_2|apply Checkpoint.shallow_int
    |apply policy_shallow|apply (settings_shallow 1)|case_match].
Qed.

Lemma marshal_loads c :
  valid_config c -> exists raw, marshal c = Some raw /\ json_parse raw ≫= decode = Some c.
Proof.
  intros (H1 & H2 & H3). destruct (config_shallow c) as (j & Hj & Hdep). unfold marshal. rewrite Hj. eexists. split; [reflexivity|].
  assert (json_parse (json_indent [" "%char; " "%char] 0 j ++ [chr 10]) = Some (coerce_json j)) as ->.
  { unfold json_parse. rewrite parse_value_indent; [done|by repeat constructor|by eapply to_json_wf|unfold max_nesting_depth; lia|].
    by intros ? ? [= <- <-]. }
  cbn [mbind option_bind].
  destruct (struct_decode config_names (config_fields c) j eq_refl (config_sub c) Hj) as (jl & -> & Htot & Hd).
  unfold decode. rewrite !Hd. unfold config_fields in *. rewrite !assoc_app, !assoc_omit_ptr.
  cbn [assoc app String.eqb Ascii.eqb Bool.eqb]. rewrite ?option_match_id. rewrite read_int by done. cbn [mbind option_bind].
  rewrite (read_ptr_struct (fun p => AStruct (policy_fields p)) zero_policy decode_policy (Retention c)).
  - cbn [mbind option_bind].
    rewrite (read_ptr_struct (fun s => AStruct (settings_fields s)) zero_settings decode_settings (PushSection c)).
    + by destruct c.
    + intros s _. destruct (settings_shallow 0 s) as (js & -> & _). by eexists.
    + intros s js Hs Hjs. split; [by eapply struct_not_null|apply settings_decode; [by apply H3|done]].
  - intros p _. destruct (policy_shallow p) as (jp & -> & _). by eexists.
  - intros p jp Hp Hjp. split; [by eapply struct_not_null|apply policy_decode; [by apply H2|done]].
Qed.

(** ** The command *)

Lemma ParseInt_int64 n z : ParseInt n = Some z -> int64 z = true.
Proof.
  unfold ParseInt. destruct (n_frac n), (n_exp n); try done. cbv zeta.
  match goal with |- (if ?c then _ else _) = _ -> _ => destruct c eqn:E; [|done] end. intros [= <-]. exact E.
Qed.

Lemma decode_field_inv {A} (P : A -> Prop) names name (dec : json -> A -> option A) l x y :
  (forall j a b, dec j a = Some b -> P a -> P b) -> P x -> decode_field names name dec l x = Some y -> P y.
Proof.
  intros Hdec. revert x. induction l as [|[k j] l IH]; intros x Hx; cbn [decode_field]; [by intros [= <-]|].
  case_bool_decide; [|by apply IH]. intros (a & Ha & Hy)%bind_Some. eapply IH; [|exact Hy]. eauto.
Qed.

Lemma loaded_version f c : loadATBConfig f = Ok c -> int64 (Version c) = true.
Proof.
  unfold loadATBConfig. destruct f as [|text|raw]; try done. destruct (json_parse raw ≫= decode) as [d|] eqn:E; [|done]. intros [= <-].
  apply bind_Some in E as (j & _ & Hd). assert (int64 (Version d) = true) as Hv.
  { destruct j; try done; cbn [decode] in Hd; [by injection Hd as <-|]. apply bind_Some in Hd as (v & Hv & Hd).
    apply bind_Some in Hd as (r & _ & Hd). apply bind_Some in Hd as (p & _ & Hd). injection Hd as <-. cbn [Version].
    revert Hv. apply (decode_field_inv (fun v => int64 v = true)); [|done]. intros jj a a' Hab Ha. destruct jj; cbn in Hab; try done; [by injection Hab as <-|by eapply ParseInt_int64]. }
  unfold with_version. by destruct (Version d =? 0).
Qed.

Lemma parsed_days args cfg :
  parse_config_loop cfg args <> Err EUsage -> int64 (a_Days cfg) = true -> forall cfg', parse_config_loop cfg args = Ok cfg' -> int64 (a_Days cfg') = true.
Proof.
  intros _. assert (forall raw d, parsePositiveDays raw = Ok d -> int64 d = true) as Hd.
  { intros raw d. unfold parsePositiveDays. destruct (ParseInt64 _) as [z|] eqn:E; [|done]. destruct (z <=? 0); [done|]. intros [= <-].
    unfold ParseInt64 in E. destruct (match B _ with [] => _ | _ => _ end) as [neg ds].
    destruct (_ || _); [done|]. cbv zeta in E.
    match type of E with (if ?c then _ else _) = _ => destruct c eqn:Ec; [|done] end. by injection E as <-. }
  remember (length args) as n eqn:Hn. assert (length args <= n)%nat as Hle by lia. clear Hn.
  revert args cfg Hle. induction n as [|n IH]; intros [|arg rest] cfg Hle Hc cfg'; cbn [parse_config_loop length] in *; try lia; try (by intros [= <-]).
  destruct (String.eqb arg "--days").
  - destruct rest as [|value rest]; [done|]. destruct (parsePositiveDays value) as [d|] eqn:E; [|done]. cbn [length] in Hle.
    apply IH; [lia|]. cbn. by eapply Hd.
  - destruct (HasPrefix arg "--days=").
    + destruct (parsePositiveDays _) as [d|] eqn:E; [|done]. apply IH; [lia|]. cbn. by eapply Hd.
    + destruct (String.eqb arg "--allow-below-eu-minimum"); [apply IH; [lia|done]|]. by destruct (HasPrefix arg "--").
Qed.

Section command.
Context `{Unicode}.
Variable w : config_world.

(** The outside strings have a JSON form: the clock, and the settings of the other commands. *)
Hypothesis clock_valid : valid_string (RFC3339 (cw_now w)) = true.
Hypothesis settings_valid : forall s, loadPushSettings (read_of (cw_file w)) = Ok (Some s) -> valid_settings s.

(** What the file holds already, or a new configuration. *)
Definition held (c : atbConfig) : Prop :=
  loadATBConfig (read_of (cw_file w)) = Ok c \/ (cw_file w = None /\ c = mkATB configVersion None None).

(** What surrounds the command lets it go back: a write happens or does not, and a rollback works. *)
Definition robust : Prop :=
  match cw_write w with WriteStops _ => False | _ => True end /\ cw_again w = true /\ cw_remove_fails w = false /\ cw_restore w = Written.

(** The audit bundle with a new last record, which was appended to the one that was there or to a new one. *)
Definition audited (eventType : string) (data : any) (b : bundle) : Prop :=
  exists base, (cw_audit w = Ok base \/ (cw_audit_missing w = true /\ cw_audit_fresh w = Ok base)) /\
    AppendWithOptions base eventType data (Some (mkOptions None None None (RFC3339Nano (cw_now w)) "" "" "" None)) = Ok b.

Lemma policy_valid days : int64 days = true -> valid_policy (defaultRetentionPolicy days (cw_now w)).
Proof. intros Hd. unfold valid_policy, defaultRetentionPolicy. cbn [Days ArchiveDir Scope CutoffBasis UpdatedAt]. split_and!; try done. by repeat constructor. Qed.

Lemma held_push c : held c -> loadPushSettings (read_of (cw_file w)) = Ok (PushSection c).
Proof. unfold loadPushSettings. intros [->|[-> ->]]; done. Qed.

Lemma held_valid c days :
  held c -> int64 days = true -> valid_config (mkATB (Version c) (Some (defaultRetentionPolicy days (cw_now w))) (PushSection c)).
Proof.
  intros Hc Hd. unfold valid_config. cbn [Version Retention PushSection]. split_and!.
  - destruct Hc as [Hc|[_ ->]]; [by eapply loaded_version|done].
  - intros p [= <-]. by apply policy_valid.
  - intros s Hs. apply settings_valid. rewrite (held_push c Hc). by rewrite Hs.
Qed.

Lemma saved_file mkdir o f c f' :
  valid_config c -> saveATBConfig mkdir o f c = (f', Ok tt) -> loadATBConfig (read_of f') = Ok (with_version c).
Proof.
  intros Hv. assert (valid_config (with_version c)) as Hv' by (unfold with_version; destruct (Version c =? 0); [|done]; split; [done|apply Hv]).
  destruct (marshal_loads _ Hv') as (raw & Hm & Hl). unfold saveATBConfig. rewrite Hm. destruct mkdir; [done|].
  destruct o as [|n|]; cbn [WriteFile]; [done|done|]. intros [= <-]. unfold loadATBConfig, read_of. rewrite Hl. f_equal.
  unfold with_version. by destruct (Version c =? 0) eqn:E; [|rewrite E].
Qed.

Lemma recorded eventType data b r : record_change w eventType data = (Some b, r) -> audited eventType data b.
Proof.
  unfold record_change, audit_commit, audit_append. intros Hr.
  assert (forall base o, map_err AuditAppend (AppendWithOptions base eventType data
      (Some (mkOptions None None None (RFC3339Nano (cw_now w)) "" "" "" None))) = Ok o -> in_place (cw_audit_save w) o = Some b ->
    AppendWithOptions base eventType data (Some (mkOptions None None None (RFC3339Nano (cw_now w)) "" "" "" None)) = Ok b) as Hput.
  { intros base o Ho Hb. destruct (AppendWithOptions base _ _ _) as [b'|]; [|done]. cbn [map_err] in Ho. apply Ok_inj in Ho. subst o.
    by destruct (cw_audit_save w); try done; injection Hb as ->. }
  destruct (cw_audit w) as [base|ve] eqn:Ew.
  - destruct (map_err AuditAppend _) as [o|] eqn:Eo; [|done]. injection Hr as Hb _. exists base. split; [by left|by eapply Hput].
  - destruct (cw_audit_missing w) eqn:Em; [|done]. destruct (cw_audit_fresh w) as [base|] eqn:Ef; [|done]. cbn [map_err] in Hr.
    destruct (map_err AuditAppend _) as [o|] eqn:Eo; [|done]. injection Hr as Hb _. exists base. split; [by right|by eapply Hput].
Qed.

Lemma record_end eventType data b r :
  record_change w eventType data = (b, r) ->
  match r with
  | Ok _ => is_Some b
  | Err e => is_Some b -> cw_audit_save w = SavedWithError /\ e = AuditSave
  end.
Proof.
  unfold record_change, audit_commit. destruct (audit_append _ _ _ _ _ _) as [b'|e]; [|intros [= <- <-]; by intros [? ?]].
  destruct (cw_audit_save w); intros [= <- <-]; [by intros [? ?]|done|by eexists].
Qed.

(** A record that is in place although the command failed. *)
Definition stray_record (out : configured) : Prop :=
  cw_audit_save w = SavedWithError /\ (exists restored, c_failure out = Some (FAuditFails AuditSave restored)) /\
  exists eventType data b, c_audit out = Some b /\ audited eventType data b.

(** The two outcomes of a change that is saved and recorded. *)
Definition changed (eventType : string) (data : any) (next : atbConfig) (out : configured) : Prop :=
  (c_exit out = exitSuccess ->
     loadATBConfig (read_of (c_file out)) = Ok (with_version next) /\ exists b, c_audit out = Some b /\ audited eventType data b) /\
  (c_exit out <> exitSuccess -> (c_audit out = None \/ stray_record out) /\ (robust -> c_file out = cw_file w)).

Lemma save_and_record_spec eventType data next :
  valid_config next -> changed eventType data next (save_and_record w eventType data next).
Proof.
  intros Hv. unfold changed, save_and_record.
  destruct (saveATBConfig (cw_mkdir_fails w) (cw_write w) (cw_file w) next) as [f [[]|e]] eqn:Es.
  - pose proof (saved_file _ _ _ _ _ Hv Es) as Hl. destruct (record_change w eventType data) as [b [[]|e]] eqn:Er;
      pose proof (record_end _ _ _ _ Er) as He.
    + split; [|done]. intros _. split; [exact Hl|]. destruct He as [b' ->]. exists b'. split; [done|by eapply recorded].
    + destruct (rollbackConfig _ _ _ _ _) as [f' restored] eqn:Eb. split; [done|]. intros _. split.
      * cbn [c_audit]. destruct b as [b|]; [right|by left]. destruct He as [Ho ->]; [by eexists|].
        split_and!; [done|by exists restored|]. exists eventType, data, b. split; [done|by eapply recorded].
      * intros (_ & Hag & Hre & Hrs). cbn [c_file]. rewrite Hag, Hre, Hrs in Eb. unfold rollbackConfig in Eb.
        destruct (cw_file w); cbn in Eb; by injection Eb as <- _.
  - split; [done|]. intros _. split; [by left|]. intros (Hw & _). cbn [c_file]. unfold saveATBConfig in Es.
    destruct (marshal _); [|by injection Es as <- _]. destruct (cw_mkdir_fails w); [by injection Es as <- _|].
    destruct (cw_write w); cbn [WriteFile] in Es; [by injection Es as <- _|done|done].
Qed.

Lemma parsed_args args cfg : parseConfigArgs args = Ok cfg -> int64 (a_Days cfg) = true.
Proof.
  unfold parseConfigArgs. destruct args as [|name rest]; [done|]. destruct (negb _); [done|].
  destruct (parse_config_loop _ rest) as [cfg'|] eqn:E; [|done]. destruct (a_Days cfg' <=? 0); [done|]. intros [= <-].
  eapply parsed_days; [| |exact E]; [|done]. by rewrite E.
Qed.

Lemma contents_exist raw : loadATBConfig (CContents raw) <> Err ConfigNotExist.
Proof. unfold loadATBConfig. by destruct (json_parse raw ≫= decode). Qed.

Lemma config_held f :
  (exists text, f = CRefused text) \/ f = read_of (cw_file w) ->
  (exists e, loadATBConfig f = Err e /\ e <> ConfigNotExist) \/
  exists c, held c /\ ((loadATBConfig f = Err ConfigNotExist /\ c = mkATB configVersion None None) \/ loadATBConfig f = Ok c).
Proof.
  intros [[text ->]| ->].
  { left. exists (ConfigRead text). by split. }
  unfold held. destruct (cw_file w) as [raw|] eqn:Ef; cbn [read_of].
  - pose proof (contents_exist raw) as Hne. destruct (loadATBConfig (CContents raw)) as [c|e].
    + right. exists c. split; [by left|by right].
    + left. exists e. split; [reflexivity|congruence].
  - right. exists (mkATB configVersion None None). split; [right|left]; by split.
Qed.

Lemma change_policy_spec policy c d pd :
  valid_config (mkATB (Version c) (Some policy) (PushSection c)) ->
  (exists data, changed (match pd with None => TypeDataRetentionPolicySet | Some _ => TypeDataRetentionPolicyChanged end)
     data (mkATB (Version c) (Some policy) (PushSection c)) (change_policy w policy c d pd)) \/
  change_policy w policy c d pd = config_fails w exitSystemError FDigest.
Proof.
  intros Hv. unfold change_policy. destruct d as [d|]; [|by right].
  destruct pd as [[pd|]|]; [|by right|]; left; eexists; by apply save_and_record_spec.
Qed.

Lemma config_fails_spec (P : Prop) code e :
  code <> exitSuccess ->
  let out := config_fails w code e in
  (c_exit out = exitSuccess -> P) /\
  (c_exit out <> exitSuccess -> (c_audit out = None \/ stray_record out) /\ (robust -> c_file out = cw_file w)).
Proof. intros Hc. split; [done|]. intros _. split; [by left|done]. Qed.

End command.

(** ** Examples *)

#[local] Existing Instance ascii_only.

Definition written (c : atbConfig) : option bytes := marshal c.

(** A file with a policy of its own and settings for [atb push]. *)
Definition own_policy : atbConfig :=
  mkATB 1 (Some (mkPolicy 400 "cold" ["logs/*.atb"] "file_mtime" "")) (Some (mkSettings "s3://evidence" "" "" "governance" "" "")).

Definition quiet (f : option bytes) (audit : save_end) : config_world :=
  mkConfigWorld f None true false Written false Written (Err BundleIO.VNoManifest) true (Ok sample_new) audit 0.


(** The exit code, the policy that is found afterwards and the type of the event. *)
Definition seen (o : configured) : Z * option (Z * string * list string) * option string :=
  (c_exit o,
   match loadRetentionPolicy (read_of (c_file o)) with Ok (Some p) => Some (Days p, ArchiveDir p, Scope p) | _ => None end,
   b ← c_audit o; Event.Type_ ∘ Event_ <$> last b).

(** A policy with a directory and a scope of its own loses both when the days are set. *)
Example own_directory_is_reset :
  map seen [runConfig (quiet (written own_policy) Saved) ["retention"; "--days"; "400"];
            runConfig (quiet None Saved) ["Retention "; "--days=30"; "--allow-below-eu-minimum"];
            runConfig (quiet None Saved) ["retention"; "--days=30"];
            runConfig (quiet (written own_policy) Unsaved) ["retention"; "--days"; "500"];
            runConfig (quiet (Some (B "{")) Saved) ["retention"; "--days=365"]] =
  [(0, Some (400, "archive.atb", ["run.atb/*.atb"]), Some "data.retention.policy_changed");
   (0, Some (30, "archive.atb", ["run.atb/*.atb"]), Some "data.retention.policy_set");
   (1, None, None); (3, Some (400, "cold", ["logs/*.atb"]), None); (3, None, None)].
Proof. vm_compute. reflexivity. Qed.

(** The save of the audit bundle fails after the rename: the policy is taken back, and its record stays. *)
Example rolled_back_with_a_record :
  let out := runConfig (quiet (written own_policy) SavedWithError) ["retention"; "--days=500"] in
  (seen out, c_failure out) =
  (3, Some (400, "cold", ["logs/*.atb"]), Some "data.retention.policy_changed", Some (FAuditFails AuditSave true)).
Proof. vm_compute. reflexivity. Qed.
End Config.
