(* ===== verification/Archive.v ===== *)
(** * Command line: atb archive

    [cmd/atb/archive.go] over package internal/archive: bundles that are older than the cutoff are moved to a
    directory of the day, and each move is an entry of the ledger. Theorems: nothing that is to be archived is lost while
    destinations differ, and every new entry of the ledger describes the bundle that lies at its destination. Two
    bundles with one destination overwrite each other, which the ledger does not show. *)

From S2P Require Import Prelude GoText GoPath Sha256 GoFloat GoJson GoIndent GoValue GoUnicode GoTime GoStruct Push Canonicalize Event HashChain Bundle BundleIO Checkpoint VerifyCLI PushCLI Config Ledger.
Import Canonicalize HashChain Bundle.

Module Archive.
Import VerifyCLI.

(** ** Arguments and settings *)

Record archiveConfig := mkArchiveConfig { BeforeSet : bool; Before : Z; DryRun : bool }.

Inductive archive_parse_error := MissingBefore | InvalidBefore (raw : string) | UnknownArchiveFlag (arg : string) | UnexpectedArgument (arg : string).

(** [time.Parse] of a date alone, as an instant: [parse_date] is the test, the digits are at fixed places. *)
Definition parseArchiveBeforeDate (raw : string) : result archive_parse_error Z :=
  let s := TrimSpace raw in
  if PushCLI.parse_date s then
    let number i n := digits_value (take n (drop i (B s))) in
    Ok (days_from_epoch (number 0%nat 4%nat) (number 5%nat 2%nat) (number 8%nat 2%nat) * 86400 * 1000000000)
  else Err (InvalidBefore raw).

Fixpoint parse_archive (cfg : archiveConfig) (args : list string) : result archive_parse_error archiveConfig :=
  match args with
  | [] => Ok cfg
  | arg :: rest =>
      if String.eqb arg "--before" then
        match rest with
        | [] => Err MissingBefore
        | value :: rest' => let? before := parseArchiveBeforeDate value in parse_archive (mkArchiveConfig true before (DryRun cfg)) rest'
        end
      else if HasPrefix arg "--before=" then
        let? before := parseArchiveBeforeDate (Push.TrimPrefix arg "--before=") in
        parse_archive (mkArchiveConfig true before (DryRun cfg)) rest
      else if String.eqb arg "--dry-run" then parse_archive (mkArchiveConfig (BeforeSet cfg) (Before cfg) true) rest
      else if HasPrefix arg "--" then Err (UnknownArchiveFlag arg)
      else Err (UnexpectedArgument arg)
  end.

Definition parseArchiveArgs (args : list string) : result archive_parse_error archiveConfig :=
  parse_archive (mkArchiveConfig false 0 false) args.

Record archiveSettings := mkArchiveSettings { Cutoff : Z; ArchiveDir : string; Scope : list string; CutoffSource : string }.

Inductive archive_error :=
| APolicy (e : Config.config_error) | ACutoffBasis (basis : string) | AMissingCutoff | AGlob (text : string)
| ALedgerLoad (e : Ledger.load_failure) | ALedgerVerify (e : Ledger.ledger_error)
| ACwd | ARecreate | ARetentionAudit.

(** [AddDate(0, 0, -days)]: the seconds wrap around. *)
Definition days_before (now days : Z) : Z :=
  wrap64 (now / 1000000000 - 86400 * days) * 1000000000 + now mod 1000000000.

Definition resolveArchiveSettings (policy : result Config.config_error (option Config.retentionPolicy)) (now : Z) (cfg : archiveConfig) :
    result archive_error archiveSettings :=
  match policy with
  | Err e => Err (APolicy e)
  | Ok policy =>
      let set get := match policy with Some p => get p | None => "" end in
      let dir := if String.eqb (set Config.ArchiveDir) "" then Config.retentionDefaultArchive else Clean (set Config.ArchiveDir) in
      let scope := match policy with Some p => match Config.Scope p with [] => ["run.atb/*.atb"] | l => l end | None => ["run.atb/*.atb"] end in
      let basis := if String.eqb (set Config.CutoffBasis) "" then Config.retentionDefaultCutoff else set Config.CutoffBasis in
      if negb (String.eqb basis Config.retentionDefaultCutoff) then Err (ACutoffBasis basis)
      else if BeforeSet cfg then Ok (mkArchiveSettings (Before cfg) dir scope "--before")
      else
        let days := match policy with Some p => Config.Days p | None => 0 end in
        if days <=? 0 then Err AMissingCutoff
        else Ok (mkArchiveSettings (days_before now days) dir scope ("retention.days=" +:+ show_int days))
  end.

(** ** Files *)

Record file := mkFile { f_data : bytes; f_mtime : Z }.
Abbreviation tree := (gmap string file).

(** Whether a path is the directory or lies below it. *)
Definition isPathWithin (candidate base : string) : bool :=
  match Rel (Clean base) (Clean candidate) with
  | None => false
  | Some rel => String.eqb rel "." || (negb (String.eqb rel "") && negb (HasPrefix rel ".."))
  end.

Definition add_match (fs : tree) (archiveDir : string) (set : gset string) (m : string) : gset string :=
  let clean := Clean m in
  match fs !! clean with
  | None => set
  | Some _ => if isPathWithin clean archiveDir then set else {[clean]} ∪ set
  end.

(** [glob] is [filepath.Glob]: the matches of a pattern, or that it is malformed. *)
Fixpoint matched (glob : string -> result string (list string)) (fs : tree) (archiveDir : string) (scope : list string) (set : gset string) :
    result archive_error (gset string) :=
  match scope with
  | [] => Ok set
  | pattern :: rest =>
      match glob pattern with
      | Err text => Err (AGlob text)
      | Ok matches => matched glob fs archiveDir rest (fold_left (add_match fs archiveDir) matches set)
      end
  end.

Definition discoverArchiveCandidates (glob : string -> result string (list string)) (fs : tree) (scope : list string) (archiveDir : string) :
    result archive_error (list string) :=
  let? set := matched glob fs archiveDir scope ∅ in
  Ok (insertion_sort string_ltb (elements set)).

(** What the ledger calls the source, and where it goes. *)
Definition buildArchiveDestination (cwd sourcePath archiveDir : string) (now : Z) : string * string :=
  let sourceClean := Clean sourcePath in
  let sourceAbs := if IsAbs sourceClean then sourceClean else Join cwd sourceClean in
  let rel := match Rel cwd sourceAbs with
             | Some rel => if HasPrefix rel ".." then S_of (Checkpoint.Base (B sourceClean)) else rel
             | None => S_of (Checkpoint.Base (B sourceClean))
             end in
  let '(y, m, d) := date_of (now / 1000000000 / 86400) in
  (Clean rel,
   Clean (Clean (archiveDir +:+ "/" +:+ S_of (padded 4 y) +:+ "/" +:+ S_of (padded 2 m) +:+ "/" +:+ S_of (padded 2 d) +:+ "/" +:+ rel))).

(** The digest of a file that can be read. *)
Definition computeFileSHA256 (fails : bool) (data : bytes) : option string :=
  if fails then None else Some (S_of (hex_encode (Sha256.sum256 data))).

(** ** Moving *)

(** Which calls of one move fail; [copied] is how much of a copy is written. *)
Record move_env := mkMove {
  mkdir_fails : bool;
  rename_fails : bool;
  source_fails : bool;
  dest_fails : bool;
  copied : option nat;
  remove_fails : bool
}.

Inductive move_error := MMkdir | MCopy | MRemove.

(** The destination is truncated before the data is written. [now] is the time of a copy. *)
Definition copyFile (env : move_env) (now : Z) (fs : tree) (source dest : string) : tree * bool :=
  match fs !! source with
  | None => (fs, false)
  | Some f =>
      if source_fails env || dest_fails env then (fs, false)
      else
        match copied env with
        | Some n => (<[dest := mkFile (take n (f_data f)) now]> fs, false)
        | None => (<[dest := mkFile (f_data f) now]> fs, true)
        end
  end.

Definition moveFile (env : move_env) (now : Z) (fs : tree) (sourcePath destPath : string) : tree * result move_error unit :=
  let source := Clean sourcePath in
  let dest := Clean destPath in
  if mkdir_fails env then (fs, Err MMkdir)
  else
    match (if rename_fails env then None else fs !! source) with
    | Some f => (<[dest := f]> (delete source fs), Ok tt)
    | None =>
        let '(fs', ok) := copyFile env now fs source dest in
        if negb ok then (fs', Err MCopy)
        else if remove_fails env then (fs', Err MRemove)
        else (delete source fs', Ok tt)
    end.

(** ** One run *)

Record archiveSummary := mkSummary {
  Candidates : Z; WouldArchive : Z; Archived : Z; SkippedRecent : Z; SkippedInvalid : Z; SkippedErrors : Z;
  ArchivedDefault : bool; LedgerHeadHash : string
}.

Inductive counter := CWould | CArchived | CRecent | CInvalid | CErrors.

Definition count (c : counter) (s : archiveSummary) : archiveSummary :=
  let add k n := match c, k with
                 | CWould, CWould | CArchived, CArchived | CRecent, CRecent | CInvalid, CInvalid | CErrors, CErrors => n + 1
                 | _, _ => n end in
  mkSummary (Candidates s) (add CWould (WouldArchive s)) (add CArchived (Archived s)) (add CRecent (SkippedRecent s))
    (add CInvalid (SkippedInvalid s)) (add CErrors (SkippedErrors s)) (ArchivedDefault s) (LedgerHeadHash s).

Definition with_head (h : string) (s : archiveSummary) : archiveSummary :=
  mkSummary (Candidates s) (WouldArchive s) (Archived s) (SkippedRecent s) (SkippedInvalid s) (SkippedErrors s) (ArchivedDefault s) h.

(** What fails while one candidate is archived. *)
Record candidate_env := mkCandidateEnv {
  stat_fails : bool;
  open_fails : bool;
  hash_fails : bool;
  forth : move_env;
  ledger_mkdir_fails : bool;
  ledger_open_fails : bool;
  ledger_written : option nat;
  back : move_env
}.

Record archive_world := mkArchiveWorld {
  w_now : Z;
  w_cwd_fails : bool;
  w_cwd : string;
  w_glob : string -> result string (list string);
  w_policy : result Config.config_error (option Config.retentionPolicy);
  w_env : string -> candidate_env;
  w_fresh : result new_error bundle;
  w_fresh_save : PushCLI.save_end;
  w_audit_fresh : result new_error bundle;
  w_audit_save : PushCLI.save_end
}.

(** The state of the loop: files, the entries in memory, the summary, and whether the default bundle was archived. *)
Record loop_state := mkLoop { files : tree; entries : list Ledger.Entry; summary : archiveSummary; default_archived : bool }.

Definition counted (c : counter) (st : loop_state) : loop_state := mkLoop (files st) (entries st) (count c (summary st)) (default_archived st).

Definition reader_of (f : file) : BundleIO.reader := BundleIO.mkReader (f_data f) false (fun _ => Z.of_nat (length (f_data f))).

(** [bundle.Load] *)
Definition load_file (fails : bool) (f : option file) : result BundleIO.file_error bundle :=
  BundleIO.Load false (if fails then None else reader_of <$> f) false.

Definition ledger_of (f : option file) : Ledger.ledger_file :=
  match f with None => Ledger.Missing | Some f => Ledger.Contents (f_data f) false end.

Definition put_ledger (now : Z) (path : string) (l : Ledger.ledger_file) (fs : tree) : tree :=
  match l with Ledger.Contents data _ => <[path := mkFile data now]> fs | _ => fs end.

Section run.
Variable w : archive_world.

Definition ledger_path (settings : archiveSettings) : string := Join (ArchiveDir settings) "index.ndjson".

Definition destination (settings : archiveSettings) (sourcePath : string) : string :=
  (buildArchiveDestination (w_cwd w) sourcePath (ArchiveDir settings) (w_now w)).2.

Definition display (settings : archiveSettings) (sourcePath : string) : string :=
  (buildArchiveDestination (w_cwd w) sourcePath (ArchiveDir settings) (w_now w)).1.

(** The move, the entry, and the move back if there is none. *)
Definition archive_bundle (settings : archiveSettings) (st : loop_state) (sourcePath headHash fileHash : string) : loop_state :=
  let env := w_env w sourcePath in
  let dest := destination settings sourcePath in
  let '(fs, moved) := moveFile (forth env) (w_now w) (files st) sourcePath dest in
  match moved with
  | Err _ => counted CErrors (mkLoop fs (entries st) (summary st) (default_archived st))
  | Ok _ =>
      let undo fs := counted CErrors (mkLoop (moveFile (back env) (w_now w) fs dest sourcePath).1 (entries st) (summary st) (default_archived st)) in
      match Ledger.NextEntry (entries st) (Push.RFC3339 (w_now w)) (display settings sourcePath) dest fileHash headHash with
      | Err _ => undo fs
      | Ok entry =>
          let path := ledger_path settings in
          let '(l, appended) := Ledger.Append (ledger_mkdir_fails env) (ledger_open_fails env) (ledger_written env) (ledger_of (fs !! path)) entry in
          let fs := put_ledger (w_now w) path l fs in
          match appended with
          | Err _ => undo fs
          | Ok _ =>
              let entries' := entries st ++ [entry] in
              let s := match Ledger.Verify entries' with Ok h => with_head h (summary st) | Err _ => summary st end in
              mkLoop fs entries' (count CArchived s) (default_archived st || String.eqb (Clean sourcePath) DefaultPath)
          end
      end
  end.

Definition archive_candidate (cfg : archiveConfig) (settings : archiveSettings) (st : loop_state) (sourcePath : string) : loop_state :=
  let env := w_env w sourcePath in
  match files st !! sourcePath with
  | None => counted CErrors st
  | Some f =>
      if stat_fails env then counted CErrors st
      else if negb (f_mtime f <? Cutoff settings) then counted CRecent st
      else
        match load_file (open_fails env) (Some f) with
        | Err _ => counted CInvalid st
        | Ok b =>
            match Bundle.Verify b with
            | Err _ => counted CInvalid st
            | Ok _ =>
                let headHash := match last b with Some r => Hash r | None => GenesisHash end in
                match computeFileSHA256 (hash_fails env) (f_data f) with
                | None => counted CErrors st
                | Some fileHash => if DryRun cfg then counted CWould st else archive_bundle settings st sourcePath headHash fileHash
                end
            end
        end
  end.

(** The bundle that a save put in place, if it did. *)
Definition put_bundle (path : string) (b : option bundle) (fs : tree) : tree :=
  match b with None => fs | Some b => <[path := mkFile (default [] (BundleIO.encode_records b)) (w_now w)]> fs end.

(** The default bundle is made anew if it was archived. *)
Definition recreate (st : loop_state) : tree * result archive_error bool :=
  if default_archived st then
    match w_fresh w with
    | Err _ => (files st, Err ARecreate)
    | Ok fresh =>
        (put_bundle DefaultPath (PushCLI.in_place (w_fresh_save w) fresh) (files st),
         match w_fresh_save w with PushCLI.Saved => Ok true | _ => Err ARecreate end)
    end
  else (files st, Ok false).

Definition audit_path : string := ".atb/operations.atb".

Definition retention_event (settings : archiveSettings) (archived : Z) (head : string) : any :=
  AMap [("operation", AString "local_archive"); ("enforcement_system", AString "atb_archive"); ("outcome", AString "completed");
        ("evidence_level", AString "local_operation_and_ledger"); ("independently_verified", ABool false);
        ("cutoff", AString (Push.RFC3339 (Cutoff settings))); ("affected_count", AInt archived); ("ledger_head_hash", AString head);
        ("archive_dir", AString (ArchiveDir settings)); ("scope", ASlice (map AString (Scope settings)))].

(** [retentionaudit.Append] on the files. *)
Definition audit_run (settings : archiveSettings) (s : archiveSummary) (fs : tree) : tree * result archive_error unit :=
  let existing := BundleIO.LoadVerified (reader_of <$> fs !! audit_path) in
  let missing := match fs !! audit_path with None => true | Some _ => false end in
  let '(b, r) := PushCLI.audit_commit (w_audit_save w) existing missing (w_audit_fresh w) "data.retention.enforced"
                   (retention_event settings (Archived s) (LedgerHeadHash s)) (w_now w) in
  (put_bundle audit_path b fs, map_err (fun _ => ARetentionAudit) r).

Definition finish (cfg : archiveConfig) (settings : archiveSettings) (st : loop_state) : tree * (archiveSummary * option archive_error) :=
  if DryRun cfg then (files st, (summary st, None))
  else
    match recreate st with
    | (fs, Err e) => (fs, (summary st, Some e))
    | (fs, Ok made) =>
        let s := summary st in
        let s := mkSummary (Candidates s) (WouldArchive s) (Archived s) (SkippedRecent s) (SkippedInvalid s) (SkippedErrors s) made (LedgerHeadHash s) in
        match audit_run settings s fs with
        | (fs', Err e) => (fs', (s, Some e))
        | (fs', Ok _) => (fs', (s, None))
        end
    end.

Definition empty_summary : archiveSummary := mkSummary 0 0 0 0 0 0 false "".

(** The candidates in order, on the ledger that was loaded. *)
Definition archive_all (cfg : archiveConfig) (settings : archiveSettings) (candidates : list string) (fs : tree) (es : list Ledger.Entry) (head : string) : loop_state :=
  let s := mkSummary (Z.of_nat (length candidates)) 0 0 0 0 0 false "" in
  fold_left (archive_candidate cfg settings) candidates (mkLoop fs es (with_head head s) false).

Definition runArchive (cfg : archiveConfig) (fs : tree) : tree * (archiveSummary * option archive_error) :=
  match resolveArchiveSettings (w_policy w) (w_now w) cfg with
  | Err e => (fs, (empty_summary, Some e))
  | Ok settings =>
      if w_cwd_fails w then (fs, (empty_summary, Some ACwd)) else
      match discoverArchiveCandidates (w_glob w) fs (Scope settings) (ArchiveDir settings) with
      | Err e => (fs, (empty_summary, Some e))
      | Ok candidates =>
          let s := mkSummary (Z.of_nat (length candidates)) 0 0 0 0 0 false "" in
          match Ledger.LoadOrEmpty (ledger_of (fs !! ledger_path settings)) with
          | Err e => (fs, (s, Some (ALedgerLoad e)))
          | Ok es =>
              match Ledger.Verify es with
              | Err e => (fs, (s, Some (ALedgerVerify e)))
              | Ok head =>
                  finish cfg settings (archive_all cfg settings candidates fs es head)
              end
          end
      end
  end.
End run.

(** ** One move *)

Definition holds_data (fs : tree) (path : string) (data : bytes) : Prop := f_data <$> fs !! path = Some data.

Lemma holds_insert fs path f : holds_data (<[path := f]> fs) path (f_data f).
Proof. unfold holds_data. by rewrite lookup_insert_eq. Qed.

Lemma holds_frame fs fs' path data : fs' !! path = fs !! path -> holds_data fs path data -> holds_data fs' path data.
Proof. unfold holds_data. by intros ->. Qed.

Lemma move_spec env now fs s d data fs' r :
  Clean s = s -> Clean d = d -> s <> d -> holds_data fs s data -> moveFile env now fs s d = (fs', r) ->
  (forall k, k <> s -> k <> d -> fs' !! k = fs !! k) /\ holds_data fs' (if is_ok r then d else s) data.
Proof.
  intros Hs Hd Hne Hf. unfold moveFile. rewrite Hs, Hd. destruct (mkdir_fails env); [by intros [= <- <-]|].
  unfold holds_data in Hf. destruct (fs !! s) as [f|] eqn:Ef; [|done]. injection Hf as <-.
  destruct (rename_fails env).
  - unfold copyFile. rewrite Ef. destruct (source_fails env || dest_fails env); cbn [negb].
    { intros [= <- <-]. split; [done|]. cbn [is_ok]. unfold holds_data. by rewrite Ef. }
    destruct (copied env) as [n|]; cbn [negb].
    { intros [= <- <-]. split; [intros; by rewrite lookup_insert_ne|]. cbn [is_ok]. unfold holds_data. by rewrite lookup_insert_ne, Ef. }
    destruct (remove_fails env); intros [= <- <-]; cbn [is_ok].
    + split; [intros; by rewrite lookup_insert_ne|]. unfold holds_data. by rewrite lookup_insert_ne, Ef.
    + split; [intros; by rewrite lookup_delete_ne, lookup_insert_ne|]. unfold holds_data. by rewrite lookup_delete_ne, lookup_insert_eq.
  - intros [= <- <-]. split; [intros; by rewrite lookup_insert_ne, lookup_delete_ne|]. apply holds_insert.
Qed.

Lemma put_ledger_frame now path l fs k : k <> path -> put_ledger now path l fs !! k = fs !! k.
Proof. intros Hk. destruct l; [done|done|]. cbn [put_ledger]. by rewrite lookup_insert_ne. Qed.

(** ** One candidate *)

Section steps.
Variable w : archive_world.
Variable cfg : archiveConfig.
Variable settings : archiveSettings.

#[local] Abbreviation dest := (destination w settings).
#[local] Abbreviation ledger := (ledger_path settings).

(** The entry describes a bundle that verifies: its file and its last hash. *)
Definition describes (e : Ledger.Entry) (c : string) (data : bytes) : Prop :=
  Ledger.Dest e = dest c /\ Ledger.Source e = display w settings c /\ Ledger.SHA256 e = S_of (hex_encode (Sha256.sum256 data)) /\
  exists b, load_file false (Some (mkFile data 0)) = Ok b /\ Bundle.Verify b = Ok tt /\
    Ledger.HeadHash e = match last b with Some r => Hash r | None => GenesisHash end.

Lemma destination_clean c : Clean (dest c) = dest c.
Proof. unfold destination, buildArchiveDestination. destruct (date_of _) as [[y m] d]. cbn [snd]. apply Clean_idem. Qed.

(** What one candidate does: a bundle is archived with an entry that describes it, on disk too unless the write is cut
    short, or it is where it was or where it was to go. *)
Definition on_disk (fs : tree) : Ledger.ledger_file := ledger_of (fs !! ledger).

Definition step_done (st st' : loop_state) (c : string) (data : bytes) : Prop :=
  (forall k, k <> c -> k <> dest c -> k <> ledger -> files st' !! k = files st !! k) /\
  ((exists e source dest' sha head, entries st' = entries st ++ [e] /\ describes e c data /\ holds_data (files st') (dest c) data /\
      Archived (summary st') = Archived (summary st) + 1 /\
      Ledger.NextEntry (entries st) (Push.RFC3339 (w_now w)) source dest' sha head = Ok e /\
      Ledger.Append false false None (on_disk (files st)) e = (on_disk (files st'), Ok tt) /\
      default_archived st' = default_archived st || String.eqb (Clean c) DefaultPath) \/
   (entries st' = entries st /\ Archived (summary st') = Archived (summary st) /\ default_archived st' = default_archived st /\
    (ledger_written (w_env w c) = None -> on_disk (files st') = on_disk (files st)) /\
    (holds_data (files st') c data \/ holds_data (files st') (dest c) data))).

Lemma encodes e : exists line, Ledger.encode_line e = Some line.
Proof. unfold Ledger.encode_line, GoValue.Marshal. eexists. reflexivity. Qed.

Lemma append_spec mk op wr f e f' r :
  Ledger.Append mk op wr f e = (f', r) ->
  match r with
  | Ok _ => Ledger.Append false false None f e = (f', Ok tt)
  | Err _ => wr = None -> f' = f
  end /\ (f' = f \/ exists data, f' = Ledger.Contents data false).
Proof.
  destruct (encodes e) as [line El]. unfold Ledger.Append. rewrite El.
  destruct mk; [by intros [= <- <-]; split; [|left]|]. destruct op; [by intros [= <- <-]; split; [|left]|].
  destruct wr; intros [= <- <-]; (split; [done|right; by eexists]).
Qed.

Lemma put_ledger_disk now l fs : (l = on_disk fs \/ exists data, l = Ledger.Contents data false) -> on_disk (put_ledger now ledger l fs) = l.
Proof.
  unfold on_disk. intros [->|[data ->]].
  - destruct (fs !! ledger) as [f|] eqn:E; cbn [ledger_of put_ledger]; [by rewrite lookup_insert_eq|by rewrite E].
  - cbn [put_ledger]. by rewrite lookup_insert_eq.
Qed.

Lemma archived_counts c s : Archived (count c s) = Archived s + match c with CArchived => 1 | _ => 0 end.
Proof. destruct c; cbn; lia. Qed.

Lemma archived_head h s : Archived (with_head h s) = Archived s.
Proof. done. Qed.

Lemma disk_frame fs fs' : fs' !! ledger = fs !! ledger -> on_disk fs' = on_disk fs.
Proof. unfold on_disk. by intros ->. Qed.

Lemma next_entry es at_ source d sha head e :
  Ledger.NextEntry es at_ source d sha head = Ok e ->
  Ledger.Source e = source /\ Ledger.Dest e = d /\ Ledger.SHA256 e = sha /\ Ledger.HeadHash e = head.
Proof. unfold Ledger.NextEntry. destruct (Ledger.Verify es); [|done]. by intros [= <-]. Qed.

Lemma archive_bundle_step st c b data :
  Clean c = c -> c <> dest c -> c <> ledger -> dest c <> ledger -> holds_data (files st) c data ->
  load_file false (Some (mkFile data 0)) = Ok b -> Bundle.Verify b = Ok tt ->
  step_done st (archive_bundle w settings st c (match last b with Some r => Hash r | None => GenesisHash end) (S_of (hex_encode (Sha256.sum256 data)))) c data.
Proof.
  intros Hc Hcd Hcl Hdl Hf Hl Hv. unfold archive_bundle.
  destruct (moveFile (forth (w_env w c)) (w_now w) (files st) c (dest c)) as [fs1 moved] eqn:Em.
  destruct (move_spec _ _ _ _ _ _ _ _ Hc (destination_clean c) Hcd Hf Em) as [Hfr Hd].
  assert (forall fs, (forall k, k <> c -> k <> dest c -> k <> ledger -> fs !! k = files st !! k) -> holds_data fs (dest c) data ->
    (ledger_written (w_env w c) = None -> on_disk fs = on_disk (files st)) ->
    step_done st (counted CErrors (mkLoop (moveFile (back (w_env w c)) (w_now w) fs (dest c) c).1 (entries st) (summary st) (default_archived st))) c data)
    as Hundo.
  { intros fs Hfr' Hd' Hdisk. destruct (moveFile (back (w_env w c)) (w_now w) fs (dest c) c) as [fs' r] eqn:Eb.
    destruct (move_spec _ _ _ _ _ _ _ _ (destination_clean c) Hc (not_eq_sym Hcd) Hd' Eb) as [Hfb Hb].
    split; [intros k H1 H2 H3; cbn [files counted fst]; rewrite Hfb by done; by apply Hfr'|].
    right. split; [done|]. split; [cbn [summary counted]; rewrite archived_counts; lia|]. split; [done|].
    split; [|destruct r; [by left|by right]]. intros Hw. rewrite <- (Hdisk Hw). cbn [files counted fst]. apply disk_frame. by apply Hfb. }
  assert (on_disk fs1 = on_disk (files st)) as Hdisk by (apply disk_frame; by apply Hfr).
  destruct moved as [[]|e].
  2: { split; [intros k H1 H2 _; by apply Hfr|]. right. split; [done|]. split; [cbn [summary counted]; rewrite archived_counts; lia|].
       split; [done|]. split; [done|by left]. }
  destruct (Ledger.NextEntry _ _ _ _ _ _) as [entry|] eqn:En; [|apply Hundo; [intros; by apply Hfr|done|done]]. cbv zeta.
  change (ledger_of (fs1 !! ledger)) with (on_disk fs1). destruct (Ledger.Append _ _ _ _ entry) as [l appended] eqn:Ea.
  destruct (append_spec _ _ _ _ _ _ _ Ea) as [Happ Hform]. pose proof (put_ledger_disk (w_now w) l fs1 Hform) as Hput.
  assert (forall k, k <> c -> k <> dest c -> k <> ledger -> put_ledger (w_now w) ledger l fs1 !! k = files st !! k) as Hfr2.
  { intros k H1 H2 H3. rewrite put_ledger_frame by done. by apply Hfr. }
  assert (holds_data (put_ledger (w_now w) ledger l fs1) (dest c) data) as Hd2 by (eapply holds_frame; [by apply put_ledger_frame|exact Hd]).
  destruct appended as [[]|e]; [|apply Hundo; [exact Hfr2|exact Hd2|intros Hw; by rewrite Hput, (Happ Hw)]].
  split; [exact Hfr2|]. left. do 5 eexists. split; [done|]. split; [|split; [exact Hd2|]].
  - destruct (next_entry _ _ _ _ _ _ _ En) as (E1 & E2 & E3 & E4). split; [exact E2|]. split; [exact E1|]. split; [exact E3|].
    exists b. split; [exact Hl|]. split; [exact Hv|exact E4].
  - split; [cbn [summary]; rewrite archived_counts; f_equal; by destruct (Ledger.Verify _)|].
    split; [exact En|]. split; [|done]. cbn [files]. by rewrite Hput, <- Hdisk.
Qed.

Lemma candidate_step st c data :
  Clean c = c -> c <> dest c -> c <> ledger -> dest c <> ledger -> holds_data (files st) c data ->
  step_done st (archive_candidate w cfg settings st c) c data.
Proof.
  intros Hc Hcd Hcl Hdl Hf. assert (forall k, k <> CArchived -> step_done st (counted k st) c data) as Hskip.
  { intros k Hk. split; [done|]. right. split; [done|]. split; [cbn [summary counted]; rewrite archived_counts; destruct k; try done; lia|].
    split; [done|]. split; [done|by left]. }
  unfold archive_candidate. unfold holds_data in Hf. destruct (files st !! c) as [f|] eqn:Ef; [|done]. injection Hf as <-.
  destruct (stat_fails _); [by apply Hskip|]. destruct (negb _); [by apply Hskip|].
  destruct (load_file _ _) as [b|] eqn:El; [|by apply Hskip]. destruct (Bundle.Verify b) as [[]|] eqn:Ev; [|by apply Hskip].
  unfold computeFileSHA256. destruct (hash_fails _); [by apply Hskip|]. destruct (DryRun cfg); [by apply Hskip|].
  apply (archive_bundle_step st c b); try done.
  - unfold holds_data. by rewrite Ef.
  - destruct (open_fails (w_env w c)); [|exact El]. exfalso. revert El. vm_compute. discriminate.
Qed.

Lemma missing_step st c : files st !! c = None -> archive_candidate w cfg settings st c = counted CErrors st.
Proof. intros E. unfold archive_candidate. by rewrite E. Qed.

(** ** The loop *)

Definition collision_free (cs : list string) : Prop :=
  NoDup (map dest cs ++ cs ++ [ledger; audit_path]) /\ ~ In DefaultPath (map dest cs ++ [ledger; audit_path]) /\ Forall (fun c => Clean c = c) cs.

Definition kept (fs0 fs : tree) (c : string) : Prop :=
  forall data, holds_data fs0 c data -> holds_data fs c data \/ holds_data fs (dest c) data.

(** Each new entry describes the bundle that lay at a candidate and lies at its destination. *)
Definition accounted (fs0 fs : tree) (cs : list string) (e : Ledger.Entry) : Prop :=
  exists c data, In c cs /\ holds_data fs0 c data /\ describes e c data /\ holds_data fs (dest c) data.

(** An entry whose line can be read back. *)
Definition readable (e : Ledger.Entry) : Prop :=
  Ledger.valid e = true /\ seq_ok (Ledger.Sequence e) = true /\
  (forall line, Ledger.encode_line e = Some line -> Z.of_nat (length line) <= Ledger.MaxScanTokenSize).

Record progress (fs0 : tree) (es0 : list Ledger.Entry) (before : list string) (st : loop_state) (new : list Ledger.Entry) : Prop := {
  pr_frame : forall k, ~ In k before -> ~ In k (map dest before) -> k <> ledger -> files st !! k = fs0 !! k;
  pr_kept : Forall (kept fs0 (files st)) before;
  pr_entries : entries st = es0 ++ new;
  pr_count : Archived (summary st) = Z.of_nat (length new);
  pr_accounted : Forall (accounted fs0 (files st) before) new;
  pr_default : default_archived st = true -> In DefaultPath before /\ forall data, holds_data fs0 DefaultPath data -> holds_data (files st) (dest DefaultPath) data;
  pr_disk : Forall (fun c => ledger_written (w_env w c) = None) before -> Forall readable new ->
            Ledger.grown (on_disk fs0) es0 -> Ledger.grown (on_disk (files st)) (es0 ++ new)
}.

Lemma collision_free_apart before c rest :
  collision_free (before ++ c :: rest) ->
  (Clean c = c /\ c <> dest c /\ c <> ledger /\ dest c <> ledger) /\ ~ In c before /\ ~ In c (map dest before) /\
  (forall x, In x before -> (x <> c /\ x <> dest c /\ x <> ledger) /\ (dest x <> c /\ dest x <> dest c /\ dest x <> ledger)).
Proof.
  intros (Hn & _ & Hc). rewrite Forall_app, Forall_cons in Hc. destruct Hc as (_ & Hc & _).
  rewrite map_app in Hn. cbn [map] in Hn. rewrite !NoDup_app, !NoDup_cons in Hn. setoid_rewrite list_elem_of_In in Hn.
  destruct Hn as ((Hd1 & Hd2 & Hd3 & _) & Hdis & (Hc1 & Hc2 & Hc3 & _) & Hl & _).
  assert (forall x, In x before -> In (dest x) (map dest before)) as Hmap by (intros x Hx; by apply in_map).
  assert (forall y, In y (map dest before) \/ y = dest c -> ~ (In y before \/ y = c \/ y = ledger)) as Hdis'.
  { intros y Hy Hin. apply (Hdis y).
    - apply in_or_app. destruct Hy as [?| ->]; [by left|right; by left].
    - apply in_or_app. destruct Hin as [?|[->| ->]]; [left; apply in_or_app; by left|left; apply in_or_app; right; by left|right; by left]. }
  assert (forall y, In y before \/ y = c -> y <> ledger) as Hled.
  { intros y Hy ->. apply (Hl ledger); [|by left]. apply in_or_app. destruct Hy as [?| ->]; [by left|right; by left]. }
  assert (~ In c before) as Hcb by (intros Hi; apply (Hc2 c Hi); by left).
  split; [split; [exact Hc|]; split; [intros E; apply (Hdis' (dest c)); [by right|rewrite <- E; right; by left]|];
    split; [apply Hled; by right|intros E; apply (Hdis' (dest c)); [by right|right; by right]]|].
  split; [exact Hcb|]. split; [intros Hi; apply (Hdis' c); [by left|right; by left]|].
  intros x Hx. split; split_and!.
  - intros ->. by apply Hcb.
  - intros ->. apply (Hdis' (dest c)); [by right|by left].
  - apply Hled. by left.
  - intros E. apply (Hdis' (dest x)); [left; by apply Hmap|right; by left].
  - intros E. apply (Hd2 (dest x)); [by apply Hmap|rewrite E; by left].
  - intros E. apply (Hdis' (dest x)); [left; by apply Hmap|right; by right].
Qed.

Lemma accounted_mono fs0 fs fs' cs cs' e :
  (forall x, In x cs -> In x cs' /\ fs' !! dest x = fs !! dest x) -> accounted fs0 fs cs e -> accounted fs0 fs' cs' e.
Proof.
  intros H (c & data & Hc & H0 & Hd & Hh). destruct (H c Hc) as [Hin Hf]. exists c, data. split_and!; [done|done|done|].
  by eapply holds_frame.
Qed.

Lemma progress_missing fs0 es0 before c rest st new :
  collision_free (before ++ c :: rest) -> progress fs0 es0 before st new -> fs0 !! c = None ->
  progress fs0 es0 (before ++ [c]) (counted CErrors st) new.
Proof.
  intros Hcf [Hfr Hk He Hn Ha Hd Hdisk] Hf. constructor; cbn [files entries summary default_archived counted].
  - intros k H1 H2 H3. rewrite map_app, in_app_iff in H2. rewrite in_app_iff in H1. apply Hfr; tauto.
  - apply Forall_app. split; [exact Hk|]. constructor; [|constructor]. intros data Hh. unfold holds_data in Hh. by rewrite Hf in Hh.
  - exact He.
  - rewrite archived_counts, Hn. lia.
  - eapply Forall_impl; [exact Ha|]. intros e. apply accounted_mono. intros x Hx. split; [apply in_or_app; by left|done].
  - intros Hdef. destruct (Hd Hdef) as [Hin Hh]. split; [apply in_or_app; by left|exact Hh].
  - intros Hw. apply Forall_app in Hw as [Hw _]. by apply Hdisk.
Qed.

Lemma progress_present fs0 es0 before c rest st st' new f :
  collision_free (before ++ c :: rest) -> progress fs0 es0 before st new -> fs0 !! c = Some f -> step_done st st' c (f_data f) ->
  exists new', progress fs0 es0 (before ++ [c]) st' new'.
Proof.
  intros Hcf [Hfr Hk He Hn Ha Hd Hdisk] Hf [Hfr' Hstep]. destruct (collision_free_apart _ _ _ Hcf) as ((_ & Hcd & Hcl & Hdl) & Hnc & Hncd & Hap).
  assert (forall k, ~ In k (before ++ [c]) -> ~ In k (map dest (before ++ [c])) -> k <> ledger -> files st' !! k = fs0 !! k) as Hframe.
  { intros k H1 H2 H3. rewrite map_app, in_app_iff in H2. rewrite in_app_iff in H1. rewrite Hfr'.
    - apply Hfr; tauto.
    - intros ->. apply H1. right. by left.
    - intros ->. apply H2. right. by left.
    - done. }
  assert (forall x, In x before -> files st' !! x = files st !! x /\ files st' !! dest x = files st !! dest x) as Hsame.
  { intros x Hx. destruct (Hap x Hx) as [(H1 & H2 & H3) (H4 & H5 & H6)]. split; by apply Hfr'. }
  assert (Forall (kept fs0 (files st')) before) as Hk'.
  { apply Forall_forall. intros x Hx data H0. destruct (Hsame x) as [E1 E2]; [by apply list_elem_of_In|].
    apply (proj1 (Forall_forall _ _) Hk x Hx) in H0 as [H0|H0]; [left|right]; by eapply holds_frame. }
  assert (forall cs, Forall (accounted fs0 (files st') (before ++ cs)) new) as Ha'.
  { intros cs. eapply Forall_impl; [exact Ha|]. intros e. apply accounted_mono. intros x Hx. split; [apply in_or_app; by left|by apply Hsame]. }
  assert (forall data, holds_data fs0 c data -> data = f_data f) as Hdata.
  { intros data. unfold holds_data. rewrite Hf. by intros [= <-]. }
  assert (holds_data fs0 c (f_data f)) as H0 by (unfold holds_data; by rewrite Hf).
  assert (forall fs', (forall x, In x before -> fs' !! dest x = files st !! dest x) -> default_archived st = true ->
    In DefaultPath (before ++ [c]) /\ forall data, holds_data fs0 DefaultPath data -> holds_data fs' (dest DefaultPath) data) as Hd'.
  { intros fs' Hs Hdef. destruct (Hd Hdef) as [Hin Hh]. split; [apply in_or_app; by left|]. intros data Hx.
    eapply holds_frame; [by apply Hs|by apply Hh]. }
  destruct Hstep as [(e & source & d' & sha & head & He' & Hdesc & Hh & Hcount & Hnext & Happ & Hdef)|(He' & Hcount & Hdef & Hdisk' & Hh)].
  - exists (new ++ [e]). constructor.
    + exact Hframe.
    + apply Forall_app. split; [exact Hk'|]. constructor; [|constructor]. intros data Hx. right. by rewrite (Hdata _ Hx).
    + by rewrite He', He, app_assoc.
    + rewrite Hcount, Hn, length_app. cbn [length]. lia.
    + apply Forall_app. split; [by apply Ha'|]. constructor; [|constructor]. exists c, (f_data f).
      split_and!; [apply in_or_app; right; by left|exact H0|exact Hdesc|exact Hh].
    + rewrite Hdef. intros [H|H]%orb_true_iff; [apply Hd'; [intros; by apply Hsame|done]|]. apply String.eqb_eq in H.
      destruct Hcf as (_ & _ & Hclean). rewrite Forall_app, Forall_cons in Hclean. destruct Hclean as (_ & Hc & _). rewrite Hc in H. rewrite <- H.
      split; [apply in_or_app; right; by left|]. intros data Hx. by rewrite (Hdata _ Hx).
    + intros Hw Hr Hg. apply Forall_app in Hw as [Hw _]. apply Forall_app in Hr as [Hr [Hre _]%Forall_cons]. destruct Hre as (Hv & Hq & Hl).
      rewrite app_assoc. eapply Ledger.grown_append; [by apply Hdisk|rewrite <- He; exact Hnext|done|done|done|exact Happ].
  - exists new. constructor.
    + exact Hframe.
    + apply Forall_app. split; [exact Hk'|]. constructor; [|constructor]. intros data Hx. by rewrite (Hdata _ Hx).
    + by rewrite He'.
    + by rewrite Hcount.
    + apply Ha'.
    + rewrite Hdef. apply Hd'. intros. by apply Hsame.
    + intros Hw Hr Hg. apply Forall_app in Hw as [Hw [Hwc _]%Forall_cons]. rewrite (Hdisk' Hwc). by apply Hdisk.
Qed.

Lemma progress_loop fs0 es0 rest : forall before st new,
  collision_free (before ++ rest) -> progress fs0 es0 before st new ->
  exists new', progress fs0 es0 (before ++ rest) (fold_left (archive_candidate w cfg settings) rest st) new'.
Proof.
  induction rest as [|c rest IH]; intros before st new Hcf Hp; [rewrite app_nil_r; by exists new|]. cbn [fold_left].
  destruct (collision_free_apart _ _ _ Hcf) as ((Hc & Hcd & Hcl & Hdl) & Hnc & Hncd & _).
  assert (files st !! c = fs0 !! c) as Ef by (by apply (pr_frame _ _ _ _ _ Hp)).
  assert (exists new', progress fs0 es0 (before ++ [c]) (archive_candidate w cfg settings st c) new') as [new' Hp'].
  { destruct (fs0 !! c) as [f|] eqn:E.
    - apply (progress_present fs0 es0 before c rest st _ new f Hcf Hp E). apply candidate_step; try done. unfold holds_data. by rewrite Ef.
    - exists new. rewrite (missing_step _ _ Ef). by apply (progress_missing _ _ _ _ rest). }
  replace (before ++ c :: rest) with ((before ++ [c]) ++ rest) in Hcf |- * by (by rewrite <- app_assoc). by apply (IH _ _ new').
Qed.

(** ** The end of a run *)

Lemma finish_frame st k :
  k <> audit_path -> (k = DefaultPath -> default_archived st = false) -> (finish w cfg settings st).1 !! k = files st !! k.
Proof.
  intros Ha Hd. unfold finish, audit_run. destruct (DryRun cfg); [done|].
  assert (forall path b fs, path <> k -> put_bundle w path b fs !! k = fs !! k) as Hput
    by (unfold put_bundle; intros path [b|] fs Hne; [by apply lookup_insert_ne|done]).
  assert ((recreate w st).1 !! k = files st !! k) as Hr.
  { unfold recreate. destruct (default_archived st) eqn:E; [|done]. destruct (w_fresh w); [|done].
    apply Hput. intros Ek. specialize (Hd (eq_sym Ek)). congruence. }
  destruct (recreate w st) as [fs [made|e]]; [|exact Hr]. cbn [fst] in Hr.
  destruct (PushCLI.audit_commit _ _ _ _ _ _ _) as [b [[]|e]]; cbn [fst map_err]; by rewrite Hput.
Qed.

Lemma finish_archived st : Archived (finish w cfg settings st).2.1 = Archived (summary st).
Proof.
  unfold finish. destruct (DryRun cfg); [done|]. destruct (recreate w st) as [fs [made|e]]; [|done].
  by destruct (audit_run _ _ _ _) as [fs' [?|?]].
Qed.

Lemma finish_progress fs0 es0 cs st new :
  collision_free cs -> progress fs0 es0 cs st new ->
  let fs' := (finish w cfg settings st).1 in
  Forall (kept fs0 fs') cs /\ Forall (accounted fs0 fs' cs) new /\
  (Forall (fun c => ledger_written (w_env w c) = None) cs -> Forall readable new -> Ledger.grown (on_disk fs0) es0 ->
   Ledger.grown (on_disk fs') (es0 ++ new)).
Proof.
  intros (Hn & Hd & _) [_ Hk _ _ Ha Hdef Hdisk] fs'.
  rewrite !NoDup_app in Hn. setoid_rewrite list_elem_of_In in Hn. destruct Hn as (_ & Hdis & _ & Hl & Hla).
  assert (forall c, In c cs -> fs' !! dest c = files st !! dest c) as Hdest.
  { intros c Hc. assert (In (dest c) (map dest cs)) as Hin by (by apply in_map). apply finish_frame.
    - intros E. apply (Hdis _ Hin), in_or_app. right. right. by left.
    - intros E. exfalso. apply Hd, in_or_app. left. by rewrite <- E. }
  assert (fs' !! ledger = files st !! ledger) as Hled.
  { apply finish_frame; [|intros E; exfalso; apply Hd, in_or_app; right; by left].
    apply NoDup_cons in Hla as [Hla _]. intros E. apply Hla. rewrite E. apply list_elem_of_here. }
  split; [|split].
  - apply Forall_forall. intros c Hc data H0. pose proof (proj1 (Forall_forall _ _) Hk c Hc data H0) as Hcd.
    apply list_elem_of_In in Hc. assert (c <> audit_path) as Hca by (intros ->; apply (Hl audit_path Hc); right; by left).
    destruct (decide (c = DefaultPath)) as [->|Hne].
    + destruct (default_archived st) eqn:E.
      * right. eapply holds_frame; [by apply Hdest|]. by apply Hdef.
      * destruct Hcd as [H|H]; [left|right]; (eapply holds_frame; [|exact H]); [by apply finish_frame|by apply Hdest].
    + destruct Hcd as [H|H]; [left|right]; (eapply holds_frame; [|exact H]); [by apply finish_frame|by apply Hdest].
  - eapply Forall_impl; [exact Ha|]. intros e. apply accounted_mono. intros x Hx. split; [done|by apply Hdest].
  - intros Hw Hr Hg. rewrite (disk_frame (files st)) by done. by apply Hdisk.
Qed.

Lemma fold_dry cs : DryRun cfg = true -> forall st, files (fold_left (archive_candidate w cfg settings) cs st) = files st.
Proof.
  intros Hdry. induction cs as [|c cs IH]; intros st; [done|]. cbn [fold_left]. rewrite IH. unfold archive_candidate.
  destruct (files st !! c); [|done]. destruct (stat_fails _); [done|]. destruct (negb _); [done|].
  destruct (load_file _ _); [|done]. destruct (Bundle.Verify _); [|done]. destruct (computeFileSHA256 _ _); [|done]. by rewrite Hdry.
Qed.
End steps.

Lemma progress_start w settings fs es s : Archived s = 0 -> progress w settings fs es [] (mkLoop fs es s false) [].
Proof.
  intros Hs. constructor; cbn [files entries summary default_archived].
  - done.
  - constructor.
  - by rewrite app_nil_r.
  - exact Hs.
  - constructor.
  - done.
  - intros _ _ Hg. by rewrite app_nil_r.
Qed.

(** ** What a run finds *)

Lemma add_match_clean fs dir ms set :
  (forall c, c ∈ set -> Clean c = c) -> forall c, c ∈ fold_left (add_match fs dir) ms set -> Clean c = c.
Proof.
  revert set. induction ms as [|m ms IH]; intros set Hs; [exact Hs|]. cbn [fold_left]. apply IH. unfold add_match.
  destruct (fs !! Clean m); [|exact Hs]. destruct (isPathWithin _ _); [exact Hs|].
  intros c [->%elem_of_singleton|Hc]%elem_of_union; [apply Clean_idem|by apply Hs].
Qed.

Lemma discovered_clean glob fs scope dir cs :
  discoverArchiveCandidates glob fs scope dir = Ok cs -> Forall (fun c => Clean c = c) cs.
Proof.
  unfold discoverArchiveCandidates. assert (forall set set', (forall c, c ∈ set -> Clean c = c) ->
    matched glob fs dir scope set = Ok set' -> forall c, c ∈ set' -> Clean c = c) as Hm.
  { induction scope as [|p scope IH]; intros set set' Hs; cbn [matched]; [by intros [= <-]|].
    destruct (glob p) as [ms|]; [|done]. apply IH. by apply add_match_clean. }
  destruct (matched _ _ _ _ _) as [set|] eqn:E; [|done]. intros H%Ok_inj. subst cs.
  apply Forall_forall. intros c Hc. rewrite (insertion_sort_perm string_ltb) in Hc. apply elem_of_elements in Hc.
  apply (Hm ∅ set); [|exact E|exact Hc]. intros ? ?. set_solver.
Qed.

(** The candidates, where they go, the ledger, the audit log and the default bundle do not get in each other's way. *)
Definition distinct_paths (w : archive_world) (settings : archiveSettings) (cs : list string) : Prop :=
  NoDup (map (destination w settings) cs ++ cs ++ [ledger_path settings; audit_path]) /\
  ~ In DefaultPath (map (destination w settings) cs ++ [ledger_path settings; audit_path]).

(** C36: A run of `atb archive` loses nothing, wherever a move, a copy, a write or a move back fails: while the
    destinations differ, the bytes of every candidate are at its path or at its destination when the run is over; a dry
    run changes no file. The number of archived bundles is the number of new ledger entries, and each of them carries the
    digest of a candidate that verified, its last hash, and the destination at which exactly those bytes lie. If the
    ledger had grown entry by entry and no line of it is cut short, it still loads, with the new entries after the old
    ones, and verifies. *)
Theorem archive_loses_nothing w cfg fs settings cs es head :
  resolveArchiveSettings (w_policy w) (w_now w) cfg = Ok settings ->
  w_cwd_fails w = false -> discoverArchiveCandidates (w_glob w) fs (Scope settings) (ArchiveDir settings) = Ok cs ->
  Ledger.LoadOrEmpty (on_disk settings fs) = Ok es -> Ledger.Verify es = Ok head ->
  distinct_paths w settings cs ->
  let '(fs', (s, _)) := runArchive w cfg fs in
  exists new,
    entries (archive_all w cfg settings cs fs es head) = es ++ new /\
    Forall (kept w settings fs fs') cs /\ (DryRun cfg = true -> fs' = fs) /\
    Archived s = Z.of_nat (length new) /\ Forall (accounted w settings fs fs' cs) new /\
    (Forall (fun c => ledger_written (w_env w c) = None) cs -> Forall readable new -> Ledger.grown (on_disk settings fs) es ->
     Ledger.LoadOrEmpty (on_disk settings fs') = Ok (es ++ new) /\ exists head', Ledger.Verify (es ++ new) = Ok head').
Proof.
  intros Hs Hw Hd Hl Hv [Hn Hdef]. pose proof (discovered_clean _ _ _ _ _ Hd) as Hclean. unfold runArchive. rewrite Hs, Hw, Hd. cbv zeta.
  change (ledger_of (fs !! ledger_path settings)) with (on_disk settings fs). rewrite Hl, Hv.
  destruct (progress_loop w cfg settings fs es cs [] (mkLoop fs es (with_head head (mkSummary (Z.of_nat (length cs)) 0 0 0 0 0 false "")) false) [])
    as [new Hp]; [by split_and!|by apply progress_start|]. cbn [app] in Hp.
  change (fold_left _ cs _) with (archive_all w cfg settings cs fs es head) in Hp. set (st := archive_all w cfg settings cs fs es head) in *.
  destruct (finish_progress w cfg settings fs es cs st new) as (Hk & Ha & Hg); [by split_and!|exact Hp|].
  destruct (finish w cfg settings st) as [fs' [s err]] eqn:Ef. cbn [fst] in *. exists new. split; [exact (pr_entries _ _ _ _ _ _ _ Hp)|].
  split; [exact Hk|]. split; [|split; [|split; [exact Ha|]]].
  - intros Hdry. unfold finish in Ef. rewrite Hdry in Ef. injection Ef as <- _ _. unfold st, archive_all. by rewrite fold_dry.
  - rewrite <- (pr_count _ _ _ _ _ _ _ Hp). pose proof (finish_archived w cfg settings st) as H. by rewrite Ef in H.
  - intros Hwr Hr Hgr. apply Ledger.grown_ledger_verifies. by apply Hg.
Qed.

(** ** Examples *)

#[local] Existing Instance ascii_only.

Definition calm_move : move_env := mkMove false false false false None false.
Definition calm : candidate_env := mkCandidateEnv false false false calm_move false false None calm_move.

Definition bundle_bytes (b : bundle) : bytes := default [] (BundleIO.encode_records b).

Definition first_bundle : bundle := Eval vm_compute in sample_new.

(** The same bundle with one more record. *)
Definition second_bundle : bundle := Eval vm_compute in
  match PushCLI.audit_append (Ok first_bundle) false (Err NBundleID) "data.retention.enforced" ANil 0 with Ok b => b | Err _ => [] end.

Definition world (matches : list string) (env : candidate_env) : archive_world :=
  mkArchiveWorld 1767225600000000000 false "/w" (fun _ => Ok matches) (Ok None) (fun _ => env) (Ok first_bundle) PushCLI.Saved (Ok first_bundle) PushCLI.Saved.

Definition all_old : archiveConfig := mkArchiveConfig true 1767225600000000000 false.

Abbreviation one_path := "run.atb/bundle.atb".
Definition one_old : tree := {[one_path := mkFile (bundle_bytes first_bundle) 0]}.
Definition one_world : archive_world := world [one_path] calm.
Definition default_settings : archiveSettings := mkArchiveSettings 1767225600000000000 "archive.atb" ["run.atb/*.atb"] "--before".
Definition one_entries : list Ledger.Entry := Eval vm_compute in entries (archive_all one_world all_old default_settings [one_path] one_old [] GenesisHash).

Lemma one_readable : Forall readable one_entries.
Proof.
  constructor; [|constructor]. split; [vm_compute; reflexivity|]. split; [vm_compute; reflexivity|].
  intros line H. vm_compute in H. injection H as <-. vm_compute. discriminate.
Qed.

Lemma archive_loses_nothing_witness :
  let '(fs', (s, _)) := runArchive one_world all_old one_old in
  kept one_world default_settings one_old fs' one_path /\ Archived s = 1 /\
  Ledger.LoadOrEmpty (on_disk default_settings fs') = Ok one_entries /\ exists head, Ledger.Verify one_entries = Ok head.
Proof.
  assert (resolveArchiveSettings (w_policy one_world) (w_now one_world) all_old = Ok default_settings) as H1 by (vm_compute; reflexivity).
  assert (discoverArchiveCandidates (w_glob one_world) one_old (Scope default_settings) (ArchiveDir default_settings) = Ok [one_path]) as H2
    by (vm_compute; reflexivity).
  assert (Ledger.LoadOrEmpty (on_disk default_settings one_old) = Ok []) as H3 by (vm_compute; reflexivity).
  assert (distinct_paths one_world default_settings [one_path]) as H4.
  { split; [apply (bool_decide_eq_true_1 _); vm_compute; reflexivity|]. rewrite <- list_elem_of_In.
    apply (bool_decide_eq_true_1 _). vm_compute. reflexivity. }
  assert (on_disk default_settings one_old = Ledger.Missing) as H5 by (vm_compute; reflexivity).
  pose proof (archive_loses_nothing one_world all_old one_old default_settings _ _ GenesisHash H1 eq_refl H2 H3 eq_refl H4) as H.
  destruct (runArchive one_world all_old one_old) as [fs' [s err]]. destruct H as (new & He & Hk & _ & Hn & _ & Hg).
  assert (new = one_entries) as -> by (change ([] ++ new) with new in He; rewrite <- He; vm_compute; reflexivity).
  split; [by inversion Hk|]. split; [exact Hn|]. apply Hg; [by repeat constructor|exact one_readable|]. rewrite H5. constructor.
Defined.

(** Two bundles outside the working directory with one base name have one destination: both are archived, the second
    overwrites the first, and the ledger lists both and verifies. *)
Definition two_old : tree := <["/a/run.atb" := mkFile (bundle_bytes first_bundle) 0]> {["/b/run.atb" := mkFile (bundle_bytes second_bundle) 0]}.

Definition dests (l : Ledger.ledger_file) : option (list string) :=
  match Ledger.LoadOrEmpty l with Ok es => if is_ok (Ledger.Verify es) then Some (map Ledger.Dest es) else None | Err _ => None end.

Example shared_destination_loses_a_bundle :
  let out := runArchive (world ["/a/run.atb"; "/b/run.atb"] calm) all_old two_old in
  (Archived out.2.1, out.2.2, dests (on_disk default_settings out.1),
   map (fun p => length <$> (out.1 !! p ≫= fun f => match load_file false (Some f) with Ok b => Some b | Err _ => None end))
     ["/a/run.atb"; "/b/run.atb"; "archive.atb/2026/01/01/run.atb"]) =
  (2, None, Some ["archive.atb/2026/01/01/run.atb"; "archive.atb/2026/01/01/run.atb"], [None; None; Some 2%nat]).
Proof. vm_compute. reflexivity. Qed.

(** A ledger line that is cut short: the bundle is moved back, and the ledger cannot be loaded any more. *)
Example torn_entry_breaks_the_ledger :
  let env := mkCandidateEnv false false false calm_move false false (Some 7%nat) calm_move in
  let out := runArchive (world [one_path] env) all_old one_old in
  (SkippedErrors out.2.1, out.1 !! one_path, dests (on_disk default_settings out.1),
   (runArchive one_world all_old out.1).2.2) =
  (1, one_old !! one_path, None, Some (ALedgerLoad Ledger.LedgerParse)).
Proof. vm_compute. reflexivity. Qed.

(** Where files go, and what is not archived twice. *)
Example destinations :
  map (fun s => buildArchiveDestination "/w" s "archive.atb" 1767225600000000000) ["run.atb/a.atb"; "/w/x/../y.atb"; "../z/b.atb"] =
  [("run.atb/a.atb", "archive.atb/2026/01/01/run.atb/a.atb"); ("y.atb", "archive.atb/2026/01/01/y.atb"); ("b.atb", "archive.atb/2026/01/01/b.atb")] /\
  map (fun s => isPathWithin s "archive.atb") ["archive.atb"; "archive.atb/2026/a.atb"; "archive.atb2/a"; "run.atb/a.atb"] = [true; true; false; false].
Proof. split; vm_compute; reflexivity. Qed.
End Archive.
