(* ===== verification/Reconcile.v ===== *)
(** * Package internal/acquisition: reconciliation and import

    [internal/acquisition/reconcile.go] and the part of [import_integration.go] that
    turns translated source events into appended evidence: the known-record table, the
    per-record decision, the side-effect-free plan and its application to the bundle,
    and the pipeline around them up to the bound checkpoint. The parsers that produce
    the events are outside: an import takes the list of translated events. The theorems:
    reconciliation keeps the last digest of every source identity; importing the same
    source again writes nothing; every import result verifies. *)

From S2P Require Import Prelude GoText Sha256 GoFloat GoJson GoValue GoStruct Canonicalize Event HashChain Bundle BundleIO Checkpoint.
Import Canonicalize HashChain Bundle.

Module Reconcile.

Definition TypeAcquisitionFinding : string := "atb.acquisition.finding".

(** The zero value is the empty string: no decision was taken. *)
Inductive ReconciliationResult :=
| ReconciliationNone | ReconciliationNew | ReconciliationUnchanged | ReconciliationChanged
| ReconciliationUnknown.

#[global] Instance result_eq_dec : EqDecision ReconciliationResult.
Proof. solve_decision. Defined.

Record FindingInfo := mkFinding {
  Flag : string;
  Severity : string;
  Title : string;
  Detail : string;
  SourceRecordID : string;
  PreviousDigest : string;
  CurrentDigest : string;
  AcquiredAt : string;
  AcquiredAtPrevious : string
}.

Record ReconciliationOutcome := mkOutcome {
  Result : ReconciliationResult;
  OPreviousDigest : string;
  OCurrentDigest : string;
  OSourceIdentity : SourceIdentity.t;
  Finding : option FindingInfo
}.

Record KnownRecord := mkKnown {
  kr_SourceIdentity : SourceIdentity.t;
  kr_Digest : string;
  kr_AcquiredAt : string;
  kr_EventSequence : Z;
  kr_Acquisition : option AcquisitionInfo.t
}.

Abbreviation Reconciler := (gmap string KnownRecord).

Definition identityKey (id : SourceIdentity.t) : string :=
  SourceIdentity.System id +:+ ":" +:+ SourceIdentity.RecordID id.

Definition changed_finding (id : SourceIdentity.t) (known : KnownRecord) (currentDigest currentAcquiredAt : string) :
    FindingInfo :=
  mkFinding "source_record_changed" "high" "Source record representation changed"
    ("Source record " +:+ SourceIdentity.System id +:+ ":" +:+ SourceIdentity.RecordID id +:+
     " was previously acquired with digest " +:+ kr_Digest known +:+ ", now has digest " +:+ currentDigest)
    (SourceIdentity.RecordID id) (kr_Digest known) currentDigest currentAcquiredAt (kr_AcquiredAt known).

Definition Reconcile (r : Reconciler) (id : SourceIdentity.t) (currentDigest currentAcquiredAt : string)
    (currentAcquisition : option AcquisitionInfo.t) : Reconciler * ReconciliationOutcome :=
  if String.eqb (SourceIdentity.System id) "" || String.eqb (SourceIdentity.RecordID id) "" then
    (r, mkOutcome ReconciliationUnknown "" currentDigest id None)
  else
    let key := identityKey id in
    let fresh := mkKnown id currentDigest currentAcquiredAt 0 currentAcquisition in
    match r !! key with
    | None => (<[key := fresh]> r, mkOutcome ReconciliationNew "" currentDigest id None)
    | Some known =>
        if String.eqb (kr_Digest known) currentDigest then
          (r, mkOutcome ReconciliationUnchanged (kr_Digest known) currentDigest id None)
        else
          (<[key := fresh]> r,
           mkOutcome ReconciliationChanged (kr_Digest known) currentDigest id
             (Some (changed_finding id known currentDigest currentAcquiredAt)))
    end.

(** One record of a bundle. *)
Definition load_record (r : Reconciler) (record : Record_) : Reconciler :=
  if String.eqb (Event.Type_ (Event_ record)) ManifestEventType then r
  else
    match Event.Acquisition (Event_ record) with
    | None => r
    | Some acq =>
        let id := SourceIdentity.mk (AcquisitionInfo.SourceSystem acq) (AcquisitionInfo.SourceRecordID acq) true in
        if String.eqb (SourceIdentity.System id) "" || String.eqb (SourceIdentity.RecordID id) "" then r
        else
          let key := identityKey id in
          let known := mkKnown id (AcquisitionInfo.SourceDigest acq) (AcquisitionInfo.AcquiredAt acq)
                         (Event.Sequence (Event_ record)) (Some acq) in
          match r !! key with
          | None => <[key := known]> r
          | Some existing =>
              if kr_EventSequence existing <? Event.Sequence (Event_ record) then <[key := known]> r else r
          end
    end.

Definition LoadFromBundle (r : Reconciler) (records : bundle) : Reconciler :=
  fold_left load_record records r.

Definition GetKnownRecord (r : Reconciler) (id : SourceIdentity.t) : option KnownRecord := r !! identityKey id.

(** ** The import plan *)

Record importEvent := mkImport {
  ie_typ : string;
  ie_data : any;
  ie_timestamp : string;
  ie_traceID : string;
  ie_spanID : string;
  ie_parentSpanID : string;
  ie_acquisition : option AcquisitionInfo.t
}.

Record reconcileCounts := mkCounts {
  written : Z;
  newCount : Z;
  changed : Z;
  unchanged : Z;
  unknown : Z
}.

Definition no_counts : reconcileCounts := mkCounts 0 0 0 0 0.

Definition count (r : ReconciliationResult) (c : reconcileCounts) : reconcileCounts :=
  match r with
  | ReconciliationNew => mkCounts (written c) (newCount c + 1) (changed c) (unchanged c) (unknown c)
  | ReconciliationChanged => mkCounts (written c) (newCount c) (changed c + 1) (unchanged c) (unknown c)
  | ReconciliationUnchanged => mkCounts (written c) (newCount c) (changed c) (unchanged c + 1) (unknown c)
  | ReconciliationUnknown => mkCounts (written c) (newCount c) (changed c) (unchanged c) (unknown c + 1)
  | ReconciliationNone => c
  end.

Record reconcileAction := mkAction {
  a_event : importEvent;
  a_finding : option FindingInfo;
  a_skip : bool
}.

Record reconciliationPlan := mkPlan { actions : list reconcileAction; counts : reconcileCounts }.

Definition writesAcquisition (p : reconciliationPlan) : bool :=
  existsb (fun a => negb (a_skip a) && bool_decide (ie_acquisition (a_event a) <> None)) (actions p).

Record decision := mkDecision {
  d_result : ReconciliationResult;
  d_skip : bool;
  d_finding : option FindingInfo
}.

(** The source record an event belongs to, if it names one. *)
Definition source_of (ev : importEvent) : option AcquisitionInfo.t :=
  match ie_acquisition ev with
  | Some acq => if String.eqb (AcquisitionInfo.SourceRecordID acq) "" then None else Some acq
  | None => None
  end.

Definition event_key (i : Z) (ev : importEvent) : string :=
  match source_of ev with
  | Some acq => AcquisitionInfo.SourceSystem acq +:+ ":" +:+ AcquisitionInfo.SourceRecordID acq
  | None => "__unknown__:" +:+ show_int i
  end.

(** The decision for a key seen for the first time. *)
Definition decide_source (reconcile : bool) (r : Reconciler) (ev : importEvent) : Reconciler * decision :=
  match source_of ev with
  | Some acq =>
      if reconcile then
        let '(r, o) := Reconcile r
          (SourceIdentity.mk (AcquisitionInfo.SourceSystem acq) (AcquisitionInfo.SourceRecordID acq) true)
          (AcquisitionInfo.SourceDigest acq) (AcquisitionInfo.AcquiredAt acq) (Some acq) in
        (r, mkDecision (Result o) (bool_decide (Result o = ReconciliationUnchanged)) (Finding o))
      else (r, mkDecision ReconciliationNone false None)
  | None => (r, mkDecision (if reconcile then ReconciliationUnknown else ReconciliationNone) false None)
  end.

(** The loop of [planReconciliation]: the decisions are shared by key, and a finding is
    handed out once. *)
Fixpoint plan_from (reconcile : bool) (i : Z) (ds : gmap string decision) (r : Reconciler)
    (c : reconcileCounts) (events : list importEvent) : list reconcileAction * reconcileCounts :=
  match events with
  | [] => ([], c)
  | ev :: rest =>
      let key := event_key i ev in
      let '(r, d, c) :=
        match ds !! key with
        | Some d => (r, d, c)
        | None => let '(r, d) := decide_source reconcile r ev in (r, d, count (d_result d) c)
        end in
      let ds := <[key := mkDecision (d_result d) (d_skip d) None]> ds in
      let '(acts, c) := plan_from reconcile (i + 1) ds r c rest in
      (mkAction ev (d_finding d) (d_skip d) :: acts, c)
  end.

Definition planReconciliation (events : list importEvent) (r : Reconciler) (reconcile : bool) :
    reconciliationPlan :=
  let '(acts, c) := plan_from reconcile 0 ∅ r no_counts events in mkPlan acts c.

(** ** Applying a plan *)

Definition finding_data (f : FindingInfo) (acq : AcquisitionInfo.t) : list (string * any) :=
  [("finding_type", AString (Flag f)); ("source_system", AString (AcquisitionInfo.SourceSystem acq));
   ("source_record_id", AString (SourceRecordID f)); ("previous_digest", AString (PreviousDigest f));
   ("current_digest", AString (CurrentDigest f)); ("previous_acquired_at", AString (AcquiredAtPrevious f));
   ("current_acquired_at", AString (AcquiredAt f)); ("adapter", AString (AcquisitionInfo.Adapter acq));
   ("adapter_version", AString (AcquisitionInfo.AdapterVersion acq))].

Definition appendAcquisitionFinding (now : string) (b : bundle) (f : FindingInfo) (acq : AcquisitionInfo.t) :
    result append_error bundle :=
  AppendWithOptions b TypeAcquisitionFinding (AMap (finding_data f acq)) (Some (no_options now)).

Definition event_options (ev : importEvent) : AppendOptions :=
  mkOptions None None None (ie_timestamp ev) (ie_traceID ev) (ie_spanID ev) (ie_parentSpanID ev)
    (ie_acquisition ev).

(** A finding comes with an acquisition: only a named source record has one. *)
Definition apply_action (now : string) (b : bundle) (a : reconcileAction) : result append_error bundle :=
  let? b := match a_finding a, ie_acquisition (a_event a) with
            | Some f, Some acq => appendAcquisitionFinding now b f acq
            | _, _ => Ok b
            end in
  AppendWithOptions b (ie_typ (a_event a)) (ie_data (a_event a)) (Some (event_options (a_event a))).

Fixpoint apply_actions (now : string) (b : bundle) (c : reconcileCounts) (acts : list reconcileAction) :
    result append_error (bundle * reconcileCounts) :=
  match acts with
  | [] => Ok (b, c)
  | a :: rest =>
      if a_skip a then apply_actions now b c rest
      else
        let? b := apply_action now b a in
        apply_actions now b
          (mkCounts (written c + 1) (newCount c) (changed c) (unchanged c) (unknown c)) rest
  end.

Definition applyReconciliation (now : string) (b : bundle) (p : reconciliationPlan) :
    result append_error (bundle * reconcileCounts) :=
  apply_actions now b (counts p) (actions p).

(** ** The pipeline *)

Definition committedBundleHead (b : bundle) : string :=
  match last b with None => "" | Some r => Hash r end.

Definition with_stream (stream : string) (c : CheckpointInfo.t) : CheckpointInfo.t :=
  CheckpointInfo.mk (CheckpointInfo.SourceSystem c) stream (CheckpointInfo.Position c)
    (CheckpointInfo.ObservedAt c) (CheckpointInfo.Adapter c) (CheckpointInfo.AdapterVersion c).

Definition stamp_acquisition (stream : string) (a : AcquisitionInfo.t) : AcquisitionInfo.t :=
  AcquisitionInfo.mk (AcquisitionInfo.Mode a) (AcquisitionInfo.SourceSystem a)
    (AcquisitionInfo.SourceRecordID a) (AcquisitionInfo.SourceTimestamp a) (AcquisitionInfo.AcquiredAt a)
    (AcquisitionInfo.SourceDigest a) (AcquisitionInfo.Adapter a) (AcquisitionInfo.AdapterVersion a)
    (with_stream stream <$> AcquisitionInfo.Checkpoint a).

Definition stampAcquisitionStream (events : list importEvent) (stream : string) : list importEvent :=
  if String.eqb stream "" then events
  else map (fun ev => mkImport (ie_typ ev) (ie_data ev) (ie_timestamp ev) (ie_traceID ev) (ie_spanID ev)
                        (ie_parentSpanID ev) (stamp_acquisition stream <$> ie_acquisition ev)) events.

Definition requireAcquisitionProfile (b : bundle) (created : bool) : bool :=
  created || match Manifest b with Some m => String.eqb (Version m) "3" | None => false end.

Definition uniqueSourceRecords (events : list importEvent) : Z :=
  Z.of_nat (length (remove_dups (omap (fun ev => 
    acq ← source_of ev;
    Some (AcquisitionInfo.SourceSystem acq +:+ ":" +:+ AcquisitionInfo.SourceRecordID acq)) events))).

Inductive stamp_error := SEmpty | SNoManifest | SEmptyKey | SParse | SNilMap | SEncode | SType | SHash.

Definition stamp_metadata (key value : string) (data : list (string * any)) : list (string * any) :=
  let meta := match assoc "metadata" data with Some (AMap m) => m | _ => [] end in
  assoc_set "metadata" (AMap (assoc_set key (AString value) meta)) data.

(** A payload string that holds [null] leaves a nil map, and the assignment panics. *)
Definition stamp_data (key value : string) (data : any) : result stamp_error any :=
  match data with
  | AMap data => Ok (AMap (stamp_metadata key value data))
  | AString text =>
      match Unmarshal (B text) with
      | Some (AMap payload) =>
          match GoValue.Marshal (AMap (stamp_metadata key value payload)) with
          | None => Err SEncode
          | Some raw => Ok (AString (S_of raw))
          end
      | Some ANil => Err SNilMap
      | _ => Err SParse
      end
  | _ => Err SType
  end.

Definition stampManifestProvenance (b : bundle) (key value : string) : result stamp_error bundle :=
  match b with
  | [] => Err SEmpty
  | r :: rest =>
      if negb (String.eqb (Event.Type_ (Event_ r)) ManifestEventType) then Err SNoManifest
      else if String.eqb (TrimSpace key) "" then Err SEmptyKey
      else
        let? data := stamp_data key value (Event.Data (Event_ r)) in
        let e := Event.with_data data (Event_ r) in
        match Compute e with
        | Err _ => Err SHash
        | Ok h => Ok (mkRecord e h (sourcePrefixHash r) (sourcePrefixWithoutLFHash r)
                        (sourcePrefixWithoutLFPresent r) :: rest)
        end
  end.

Inductive import_error :=
| IVerify (f : verify_failure) | ICheckpoint (e : Checkpoint.checkpoint_error) | IProfile
| IAppend (e : append_error).

(** From the loaded (or created) bundle to the bundle to save and the checkpoint bound
    to it, for the position text the importer records. *)
Definition import_events (now stream : string) (continue_ reconcile created : bool) (b : bundle)
    (cm : Checkpoint.CheckpointManager) (position : string) (events : list importEvent) :
    result import_error (bundle * reconcileCounts * Checkpoint.CheckpointManager) :=
  let resume := continue_ || reconcile in
  let? _ := if resume && negb created then map_err IVerify (Verify b) else Ok tt in
  let? _ := if resume then
              match Checkpoint.cm_Checkpoint cm with
              | None => Err (ICheckpoint Checkpoint.CNotLoaded)
              | Some cp => map_err ICheckpoint
                  (Checkpoint.ValidateBundle (committedBundleHead b) (Z.of_nat (length b)) cp)
              end
            else Ok tt in
  let known := if resume then LoadFromBundle ∅ b else ∅ in
  let events := stampAcquisitionStream events stream in
  let plan := planReconciliation events known (reconcile || continue_) in
  if writesAcquisition plan && negb (requireAcquisitionProfile b created) then Err IProfile
  else
    let? r := map_err IAppend (applyReconciliation now b plan) in
    let '(b, c) := r in
    let cm := Checkpoint.UpdateCheckpoint now position "" (written c) cm in
    let cm := Checkpoint.ManagerBindBundle (committedBundleHead b) (Z.of_nat (length b)) cm in
    Ok (b, c, cm).

(** ** The last digest of a source record *)

(** The key and digest a record contributes. *)
Definition record_source (r : Record_) : option (string * string) :=
  if String.eqb (Event.Type_ (Event_ r)) ManifestEventType then None
  else
    acq ← Event.Acquisition (Event_ r);
    if String.eqb (AcquisitionInfo.SourceSystem acq) "" || String.eqb (AcquisitionInfo.SourceRecordID acq) ""
    then None
    else Some (AcquisitionInfo.SourceSystem acq +:+ ":" +:+ AcquisitionInfo.SourceRecordID acq,
               AcquisitionInfo.SourceDigest acq).

Definition latest_step (k : string) (acc : option string) (r : Record_) : option string :=
  match record_source r with
  | Some (k', d) => if String.eqb k' k then Some d else acc
  | None => acc
  end.

(** The digest of the last record with a key. *)
Definition latest (k : string) (b : bundle) : option string := fold_left (latest_step k) b None.

Lemma latest_snoc k b r : latest k (b ++ [r]) = latest_step k (latest k b) r.
Proof. unfold latest. by rewrite fold_left_app. Qed.

Lemma load_snoc r b x : LoadFromBundle r (b ++ [x]) = load_record (LoadFromBundle r b) x.
Proof. unfold LoadFromBundle. by rewrite fold_left_app. Qed.

Lemma load_record_lookup r x k :
  (forall kr, r !! k = Some kr -> kr_EventSequence kr < Event.Sequence (Event_ x)) ->
  kr_Digest <$> load_record r x !! k = latest_step k (kr_Digest <$> r !! k) x /\
  (forall kr, load_record r x !! k = Some kr -> kr_EventSequence kr <= Event.Sequence (Event_ x)).
Proof.
  intros Hr. unfold load_record, latest_step, record_source.
  assert (forall kr, r !! k = Some kr -> kr_EventSequence kr <= Event.Sequence (Event_ x)) as Hr'
    by (intros kr H; specialize (Hr kr H); lia).
  destruct (String.eqb (Event.Type_ (Event_ x)) ManifestEventType); [done|].
  destruct (Event.Acquisition (Event_ x)) as [acq|]; [|done]. cbn [mbind option_bind SourceIdentity.System SourceIdentity.RecordID].
  destruct (_ || _); [done|]. unfold identityKey. cbn [SourceIdentity.System SourceIdentity.RecordID].
  set (key := AcquisitionInfo.SourceSystem acq +:+ _).
  destruct (String.eqb_spec key k) as [->|Hne].
  - destruct (r !! k) as [e|] eqn:E.
    + specialize (Hr e eq_refl). rewrite (proj2 (Z.ltb_lt _ _) Hr). rewrite lookup_insert_eq.
      split; [done|]. by intros kr [= <-].
    + rewrite lookup_insert_eq. split; [done|]. by intros kr [= <-].
  - destruct (r !! key) as [e|]; [destruct (_ <? _)|]; rewrite ?lookup_insert_ne by done; done.
Qed.

(** In a verified bundle the numbering makes the last record win. *)
Lemma load_latest s p b k :
  linked s p (events b) (hashes b) ->
  kr_Digest <$> LoadFromBundle ∅ b !! k = latest k b /\
  forall kr, LoadFromBundle ∅ b !! k = Some kr -> kr_EventSequence kr < s + Z.of_nat (length b).
Proof.
  unfold bundle in *. induction b as [|r b IH] using rev_ind; intros Hl.
  { cbn. by rewrite lookup_empty. }
  unfold events, hashes in *. rewrite !map_app in Hl. cbn [map] in Hl.
  apply linked_snoc in Hl as (Hl & Hs & _ & _). rewrite length_map in Hs.
  destruct (IH Hl) as [Hd Hq]. rewrite load_snoc, latest_snoc, <- Hd.
  destruct (load_record_lookup (LoadFromBundle ∅ b) r k) as [H1 H2].
  { intros kr H. specialize (Hq kr H). lia. }
  split; [done|]. intros kr H. specialize (H2 kr H). rewrite length_app. cbn [length]. lia.
Qed.

(** ** Planning over named source records *)

Definition acq_key (a : AcquisitionInfo.t) : string :=
  AcquisitionInfo.SourceSystem a +:+ ":" +:+ AcquisitionInfo.SourceRecordID a.

(** An event of a named source record, whose digest is the one [dg] gives its key. *)
Definition named (dg : string -> string) (ev : importEvent) : Prop :=
  exists a, ie_acquisition ev = Some a /\ AcquisitionInfo.SourceSystem a <> "" /\
    AcquisitionInfo.SourceRecordID a <> "" /\ AcquisitionInfo.SourceDigest a = dg (acq_key a).

Definition skip_of (dg : string -> string) (lat : string -> option string) (k : string) : bool :=
  bool_decide (lat k = Some (dg k)).

(** Every event is skipped exactly when its source record's last known digest is its own. *)
Definition planned dg lat (ev : importEvent) (act : reconcileAction) : Prop :=
  a_event act = ev /\
  exists a, ie_acquisition ev = Some a /\ a_skip act = skip_of dg lat (acq_key a).

Lemma named_source dg ev a :
  named dg ev -> ie_acquisition ev = Some a -> source_of ev = Some a /\ forall i, event_key i ev = acq_key a.
Proof.
  intros (a' & Ha & _ & Hr & _) H. rewrite Ha in H. injection H as ->.
  assert (source_of ev = Some a) as Hs.
  { unfold source_of. rewrite Ha. by destruct (String.eqb_spec (AcquisitionInfo.SourceRecordID a) ""). }
  split; [done|]. intros i. unfold event_key. by rewrite Hs.
Qed.

Lemma decide_named dg lat r ev a :
  named dg ev -> ie_acquisition ev = Some a -> kr_Digest <$> r !! acq_key a = lat (acq_key a) ->
  exists r' d, decide_source true r ev = (r', d) /\ d_skip d = skip_of dg lat (acq_key a) /\
    forall k, k <> acq_key a -> r' !! k = r !! k.
Proof.
  intros Hn Ha Hr. destruct (named_source dg ev a Hn Ha) as [Hs _].
  destruct Hn as (a' & Ha' & Hsys & Hrec & Hd). rewrite Ha in Ha'. injection Ha' as <-.
  unfold decide_source. rewrite Hs. unfold Reconcile, identityKey. cbn [SourceIdentity.System SourceIdentity.RecordID].
  rewrite (proj2 (String.eqb_neq _ _) Hsys), (proj2 (String.eqb_neq _ _) Hrec). cbn [orb].
  fold (acq_key a). unfold skip_of. rewrite Hd.
  destruct (r !! acq_key a) as [kr|] eqn:E; cbn [fmap option_fmap option_map] in Hr; rewrite <- Hr.
  - destruct (String.eqb_spec (kr_Digest kr) (dg (acq_key a))) as [->|Hne].
    + eexists _, _. split_and!; [reflexivity|by rewrite !bool_decide_true|done].
    + eexists _, _. split_and!; [reflexivity|by rewrite !bool_decide_false by (done || congruence)|].
      intros k Hk. by rewrite lookup_insert_ne.
  - eexists _, _. split_and!; [reflexivity|by rewrite !bool_decide_false|].
    intros k Hk. by rewrite lookup_insert_ne.
Qed.

Lemma count_written r c : written (count r c) = written c.
Proof. by destruct r. Qed.

Lemma plan_named dg lat evs i ds r c acts c' :
  Forall (named dg) evs ->
  (forall k d, ds !! k = Some d -> d_skip d = skip_of dg lat k) ->
  (forall k, ds !! k = None -> kr_Digest <$> r !! k = lat k) ->
  plan_from true i ds r c evs = (acts, c') ->
  Forall2 (planned dg lat) evs acts /\ written c' = written c.
Proof.
  intros Hn. revert i ds r c acts c'. induction Hn as [|ev evs Hev _ IH]; intros i ds r c acts c' Hds Hr H.
  { injection H as <- <-. by split. }
  cbn [plan_from] in H. pose proof Hev as (a & Ha & _).
  destruct (named_source dg ev a Hev Ha) as [_ Hk]. rewrite Hk in H.
  destruct (ds !! acq_key a) as [d|] eqn:Ed.
  - destruct (plan_from _ _ _ _ _ evs) as [acts' c2] eqn:Ep. injection H as <- <-.
    apply IH in Ep as [HF Hw].
    + split; [|done]. constructor; [|done]. split; [done|]. exists a. split; [done|]. by apply Hds.
    + intros k d'. destruct (decide (k = acq_key a)) as [->|Hne].
      * rewrite lookup_insert_eq. intros [= <-]. cbn. by apply Hds.
      * rewrite lookup_insert_ne by done. apply Hds.
    + intros k. destruct (decide (k = acq_key a)) as [->|Hne]; [by rewrite lookup_insert_eq|].
      rewrite lookup_insert_ne by done. apply Hr.
  - destruct (decide_named dg lat r ev a Hev Ha (Hr _ Ed)) as (r' & d & Hdec & Hskip & Hoth).
    rewrite Hdec in H. destruct (plan_from _ _ _ _ _ evs) as [acts' c2] eqn:Ep. injection H as <- <-.
    apply IH in Ep as [HF Hw].
    + split; [|by rewrite Hw, count_written]. constructor; [|done]. split; [done|]. by exists a.
    + intros k d'. destruct (decide (k = acq_key a)) as [->|Hne].
      * rewrite lookup_insert_eq. by intros [= <-].
      * rewrite lookup_insert_ne by done. apply Hds.
    + intros k. destruct (decide (k = acq_key a)) as [->|Hne]; [by rewrite lookup_insert_eq|].
      rewrite lookup_insert_ne by done. intros Hk'. rewrite Hoth by done. by apply Hr.
Qed.

(** ** Applying to a verified bundle *)

(** What an append does to the last digests. *)
Lemma append_latest b ty data opts b' k :
  b <> [] -> AppendWithOptions b ty data (Some opts) = Ok b' -> Verify b = Ok tt ->
  Verify b' = Ok tt /\ b' <> [] /\ b `prefix_of` b' /\
  latest k b' = match Acquisition opts with
                | Some a => if String.eqb (AcquisitionInfo.SourceSystem a) "" ||
                               String.eqb (AcquisitionInfo.SourceRecordID a) "" then latest k b
                            else if String.eqb (acq_key a) k then Some (AcquisitionInfo.SourceDigest a)
                            else latest k b
                | None => latest k b
                end.
Proof.
  intros Hne Ha Hv. split; [by eapply append_linked|].
  apply append_inv in Ha as (h & -> & _ & Hm & _). split; [by destruct b|]. split; [by eexists|].
  unfold bundle in *. rewrite latest_snoc. unfold latest_step, record_source. cbn [append_event Event_ Event.Type_ Event.Acquisition].
  destruct (String.eqb_spec ty ManifestEventType) as [E|_]; [by destruct Hne; apply Hm|].
  destruct (Acquisition opts) as [a|]; [|done]. cbn [mbind option_bind].
  by destruct (String.eqb (AcquisitionInfo.SourceSystem a) "" || _).
Qed.

Lemma apply_action_latest now dg b act b' a k :
  b <> [] -> Verify b = Ok tt -> named dg (a_event act) -> ie_acquisition (a_event act) = Some a ->
  apply_action now b act = Ok b' ->
  Verify b' = Ok tt /\ b' <> [] /\ b `prefix_of` b' /\
  latest k b' = if String.eqb (acq_key a) k then Some (dg (acq_key a)) else latest k b.
Proof.
  intros Hne Hv (a' & Ha' & Hs & Hr & Hd) Ha H. rewrite Ha in Ha'. injection Ha' as <-.
  unfold apply_action in H. rewrite Ha in H.
  assert (forall b0, b0 <> [] -> Verify b0 = Ok tt -> b `prefix_of` b0 -> latest k b0 = latest k b ->
    AppendWithOptions b0 (ie_typ (a_event act)) (ie_data (a_event act)) (Some (event_options (a_event act))) = Ok b' ->
    Verify b' = Ok tt /\ b' <> [] /\ b `prefix_of` b' /\
    latest k b' = if String.eqb (acq_key a) k then Some (dg (acq_key a)) else latest k b) as Hlast.
  { intros b0 Hne0 Hv0 Hp0 Hl0 Happ.
    destruct (append_latest b0 _ _ _ b' k Hne0 Happ Hv0) as (H1 & H2 & H3 & H4).
    split_and!; [done|done|by etrans|]. rewrite H4. cbn [event_options Acquisition]. rewrite Ha.
    rewrite (proj2 (String.eqb_neq _ _) Hs), (proj2 (String.eqb_neq _ _) Hr). cbn [orb]. by rewrite Hd, Hl0. }
  destruct (a_finding act) as [f|]; [|by apply (Hlast b)].
  destruct (appendAcquisitionFinding now b f a) as [b0|] eqn:Ef; [|discriminate].
  destruct (append_latest b _ _ _ b0 k Hne Ef Hv) as (H1 & H2 & H3 & H4). by apply (Hlast b0).
Qed.

Lemma apply_latest now dg lat evs acts b c b' c' :
  b <> [] -> Verify b = Ok tt -> Forall (named dg) evs -> Forall2 (planned dg lat) evs acts ->
  apply_actions now b c acts = Ok (b', c') ->
  Verify b' = Ok tt /\ b' <> [] /\ b `prefix_of` b' /\
  (forall k, latest k b' = latest k b \/ latest k b' = Some (dg k)) /\
  Forall (fun act => forall a, a_skip act = false -> ie_acquisition (a_event act) = Some a ->
    latest (acq_key a) b' = Some (dg (acq_key a))) acts.
Proof.
  intros Hne Hv Hn HF. revert b c Hne Hv. induction HF as [|ev act evs acts (He & a & Ha & _) HF IH]; intros b c Hne Hv H.
  { injection H as <- <-. split_and!; try done. by left. }
  apply Forall_cons in Hn as [Hn Hns]. cbn [apply_actions] in H. subst ev.
  destruct (a_skip act) eqn:Es.
  - destruct (IH Hns b c Hne Hv H) as (H1 & H2 & H3 & H4 & H5). split_and!; try done.
    constructor; [|done]. by rewrite Es.
  - destruct (apply_action now b act) as [b1|] eqn:E1; [|discriminate].
    assert (forall k, Verify b1 = Ok tt /\ b1 <> [] /\ b `prefix_of` b1 /\
      latest k b1 = if String.eqb (acq_key a) k then Some (dg (acq_key a)) else latest k b) as Hstep
      by (intros k; by apply (apply_action_latest now dg b act b1 a k)).
    destruct (Hstep "") as (Hv1 & Hne1 & Hp1 & _).
    destruct (IH Hns b1 _ Hne1 Hv1 H) as (H1 & H2 & H3 & H4 & H5).
    assert (forall k, latest k b' = latest k b \/ latest k b' = Some (dg k)) as H6.
    { intros k. destruct (Hstep k) as (_ & _ & _ & Hk). destruct (H4 k) as [E|E]; [|by right].
      rewrite E, Hk. destruct (String.eqb_spec (acq_key a) k) as [->|]; [by right|by left]. }
    split_and!; try done; [by etrans|]. constructor; [|done].
    intros a' _ Ha'. rewrite Ha in Ha'. injection Ha' as <-.
    destruct (H4 (acq_key a)) as [E|E]; [|done]. destruct (Hstep (acq_key a)) as (_ & _ & _ & Hk).
    by rewrite E, Hk, String.eqb_refl.
Qed.

Lemma apply_all_skipped now b c acts :
  Forall (fun act => a_skip act = true) acts -> apply_actions now b c acts = Ok (b, c).
Proof. induction 1 as [|act acts Hs _ IH]; [done|]. cbn [apply_actions]. by rewrite Hs. Qed.

Lemma plan_all_named dg evs b p :
  Verify b = Ok tt -> Forall (named dg) evs ->
  planReconciliation evs (LoadFromBundle ∅ b) true = p ->
  Forall2 (planned dg (fun k => latest k b)) evs (actions p) /\ written (counts p) = 0.
Proof.
  intros Hv Hn <-. unfold planReconciliation.
  destruct (plan_from _ _ _ _ _ _) as [acts c] eqn:E.
  apply (plan_named dg (fun k => latest k b)) in E; [done|done|done|].
  intros k _. rewrite bundle_Verify_linked in Hv. by apply (load_latest _ _ _ k Hv).
Qed.

(** After an import every imported source record is up to date. *)
Lemma applied_up_to_date now dg evs b p b' c :
  b <> [] -> Verify b = Ok tt -> Forall (named dg) evs ->
  planReconciliation evs (LoadFromBundle ∅ b) true = p ->
  applyReconciliation now b p = Ok (b', c) ->
  Verify b' = Ok tt /\ b' <> [] /\
  Forall (fun ev => forall a, ie_acquisition ev = Some a -> latest (acq_key a) b' = Some (dg (acq_key a))) evs.
Proof.
  intros Hne Hv Hn Hp Ha. destruct (plan_all_named dg evs b p Hv Hn Hp) as [HF _].
  destruct (apply_latest now dg _ evs (actions p) b (counts p) b' c Hne Hv Hn HF Ha) as (H1 & H2 & _ & H4 & H5).
  split_and!; [done|done|]. clear -HF H4 H5.
  induction HF as [|ev act evs acts (He & a & Ha & Hs) HF IH]; [constructor|].
  apply Forall_cons in H5 as [H5 H6]. constructor; [|by apply IH].
  intros a' Ha'. rewrite Ha in Ha'. injection Ha' as <-. subst ev.
  destruct (a_skip act) eqn:Es; [|by apply H5].
  symmetry in Hs. unfold skip_of in Hs. boolify. destruct (H4 (acq_key a)) as [E|E]; [|done]. by rewrite E.
Qed.

Lemma stamped_named dg evs stream :
  Forall (named dg) evs -> Forall (named dg) (stampAcquisitionStream evs stream).
Proof.
  intros H. unfold stampAcquisitionStream. destruct (String.eqb stream ""); [done|].
  apply Forall_fmap. eapply Forall_impl; [exact H|]. intros ev (a & Ha & H1 & H2 & H3).
  exists (stamp_acquisition stream a). cbn. by rewrite Ha.
Qed.

Lemma bound_validates head n cp :
  Checkpoint.ValidateBundle head n (Checkpoint.BindBundle head n cp) = Ok tt.
Proof.
  unfold Checkpoint.ValidateBundle. cbn [Checkpoint.BindBundle Checkpoint.BundleHeadHash Checkpoint.BundleRecordCount].
  rewrite String.eqb_refl, Z.eqb_refl. by destruct (String.eqb head "").
Qed.

(** An import that does not reconcile skips nothing. *)
Lemma plan_fresh dg evs i ds r c acts c' :
  Forall (named dg) evs -> (forall k d, ds !! k = Some d -> d_skip d = false) ->
  plan_from false i ds r c evs = (acts, c') -> Forall2 (planned dg (fun _ => None)) evs acts.
Proof.
  intros Hn. revert i ds r c acts c'. induction Hn as [|ev evs Hev _ IH]; intros i ds r c acts c' Hds H.
  { injection H as <- <-. constructor. }
  cbn [plan_from] in H. pose proof Hev as (a & Ha & _).
  assert (forall d k d', d_skip d = false -> <[event_key i ev := mkDecision (d_result d) (d_skip d) None]> ds !! k = Some d' -> d_skip d' = false) as Hds'.
  { intros d k d' Hd. destruct (decide (k = event_key i ev)) as [->|Hne]; [rewrite lookup_insert_eq; by intros [= <-]|].
    rewrite lookup_insert_ne by done. apply Hds. }
  destruct (ds !! event_key i ev) as [d|] eqn:Ed.
  - destruct (plan_from _ _ _ _ _ evs) as [acts' c2] eqn:Ep. injection H as <- <-.
    constructor; [split; [done|]; exists a; split; [done|]; cbn [a_skip]; by eapply Hds|].
    eapply IH; [|exact Ep]. intros k d'. apply Hds'. by eapply Hds.
  - assert (d_skip (decide_source false r ev).2 = false) as Hf by (unfold decide_source; by destruct (source_of ev)).
    destruct (decide_source false r ev) as [r' d]. cbn [snd] in Hf. destruct (plan_from _ _ _ _ _ evs) as [acts' c2] eqn:Ep. injection H as <- <-.
    constructor; [split; [done|]; by exists a|]. eapply IH; [|exact Ep]. intros k d'. by apply Hds'.
Qed.

Definition up_to_date (dg : string -> string) (b : bundle) (ev : importEvent) : Prop :=
  forall a, ie_acquisition ev = Some a -> latest (acq_key a) b = Some (dg (acq_key a)).

Lemma stamped_up_to_date dg b evs stream :
  Forall (up_to_date dg b) (stampAcquisitionStream evs stream) <-> Forall (up_to_date dg b) evs.
Proof.
  unfold stampAcquisitionStream. destruct (String.eqb stream ""); [done|]. rewrite Forall_fmap. apply Forall_iff.
  intros ev. unfold up_to_date. cbn [compose ie_acquisition]. destruct (ie_acquisition ev) as [a|]; [|done]. cbn.
  split; intros H a' [= <-]; [by apply (H (stamp_acquisition stream a))|by apply (H a)].
Qed.

(** Whatever the flags, after an import every imported source record is up to date. *)
Lemma imported_up_to_date now stream continue_ reconcile created b cm position evs dg b' c cm' :
  b <> [] -> Verify b = Ok tt -> Forall (named dg) evs ->
  import_events now stream continue_ reconcile created b cm position evs = Ok (b', c, cm') ->
  Verify b' = Ok tt /\ b' <> [] /\ Forall (up_to_date dg b') evs /\
  Checkpoint.cm_Checkpoint cm' = (fun cp => Checkpoint.BindBundle (committedBundleHead b') (Z.of_nat (length b'))
    (Checkpoint.UpdatePosition now position "" (written c) cp)) <$> Checkpoint.cm_Checkpoint cm.
Proof.
  intros Hne Hv Hn H. unfold import_events in H.
  destruct (if (continue_ || reconcile) && negb created then _ else _) as [[]|]; [|discriminate].
  destruct (if continue_ || reconcile then _ else _) as [[]|]; [|discriminate]. rewrite (orb_comm reconcile) in H.
  destruct (writesAcquisition _ && _); [discriminate|].
  destruct (applyReconciliation now b _) as [[b1 c1]|] eqn:Ea; [|discriminate]. cbn [map_err] in H. injection H as <- <- <-.
  pose proof (stamped_named dg evs stream Hn) as Hn'.
  assert (Verify b1 = Ok tt /\ b1 <> [] /\ Forall (up_to_date dg b1) (stampAcquisitionStream evs stream)) as (H1 & H2 & H3).
  { destruct (continue_ || reconcile).
    - by apply (applied_up_to_date now dg _ b _ b1 c1 Hne Hv Hn' eq_refl Ea).
    - unfold planReconciliation in Ea. destruct (plan_from false _ _ _ _ _) as [acts c0] eqn:Ep.
      apply (plan_fresh dg) in Ep; [|done|done]. unfold applyReconciliation in Ea. cbn [actions counts] in Ea.
      destruct (apply_latest now dg _ _ acts b c0 b1 c1 Hne Hv Hn' Ep Ea) as (H1 & H2 & _ & _ & H5). split_and!; [done|done|].
      clear -Ep H5. induction Ep as [|ev act evs0 acts (He & a & Ha & Hs) HF IH]; [constructor|].
      apply Forall_cons in H5 as [H5 H6]. constructor; [|by apply IH]. intros a' Ha'. subst ev. by apply H5. }
  split_and!; [done|done|by apply (stamped_up_to_date dg b1 evs stream)|].
  unfold Checkpoint.UpdateCheckpoint, Checkpoint.ManagerBindBundle. cbn [Checkpoint.cm_Checkpoint Checkpoint.with_checkpoint].
  by destruct (Checkpoint.cm_Checkpoint cm).
Qed.

(** A resumed import of source records that are up to date writes nothing. *)
Lemma up_to_date_unchanged now stream continue_ reconcile b cm cp position evs dg :
  Verify b = Ok tt -> continue_ || reconcile = true -> Forall (named dg) evs -> Forall (up_to_date dg b) evs ->
  Checkpoint.cm_Checkpoint cm = Some cp ->
  Checkpoint.ValidateBundle (committedBundleHead b) (Z.of_nat (length b)) cp = Ok tt ->
  exists c' cm'', import_events now stream continue_ reconcile false b cm position evs = Ok (b, c', cm'') /\ written c' = 0.
Proof.
  intros Hv Hf Hn Hup Hcp Hval. pose proof (stamped_named dg evs stream Hn) as Hn'. apply (stamped_up_to_date dg b evs stream) in Hup.
  set (p := planReconciliation (stampAcquisitionStream evs stream) (LoadFromBundle ∅ b) true).
  destruct (plan_all_named dg _ b p Hv Hn' eq_refl) as [HF Hw].
  assert (Forall (fun act => a_skip act = true) (actions p)) as Hskip.
  { clear -HF Hup. revert Hup. induction HF as [|ev act evs0 acts0 (He & a & Ha & Hs) HF IH]; intros Hup; [constructor|].
    apply Forall_cons in Hup as [H1 H2]. constructor; [|by apply IH]. rewrite Hs. apply bool_decide_eq_true. by apply H1. }
  unfold import_events. rewrite (orb_comm reconcile), Hf. cbn [andb negb]. rewrite Hv. cbn [map_err]. rewrite Hcp, Hval. cbn [map_err]. fold p.
  replace (writesAcquisition p) with false.
  - cbn [andb]. unfold applyReconciliation. rewrite apply_all_skipped by done. cbn [map_err]. by eexists _, _.
  - symmetry. unfold writesAcquisition. clear -Hskip. induction Hskip as [|act acts Hs _ IH]; [done|]. cbn [existsb]. by rewrite Hs, IH.
Qed.

(** ** Any plan, applied *)

Lemma appended_verifies b ty data opts b' :
  Verify b = Ok tt -> AppendWithOptions b ty data opts = Ok b' ->
  Verify b' = Ok tt /\ b `prefix_of` b' /\ length b' = S (length b).
Proof.
  intros Hv Ha. split; [by eapply append_linked|]. apply append_inv in Ha as (h & -> & _).
  unfold bundle in *. split; [by eexists|]. rewrite length_app. cbn [length]. lia.
Qed.

(** The records an action adds beside its event. *)
Definition findings (acts : list reconcileAction) : nat :=
  length (filter (fun act => a_finding act <> None) acts).

(** Only an event that is written and has an acquisition carries a finding. *)
Definition finding_ok (act : reconcileAction) : Prop :=
  a_finding act <> None -> a_skip act = false /\ ie_acquisition (a_event act) <> None.

Lemma findings_cons act acts :
  findings (act :: acts) = ((if a_finding act is Some _ then 1 else 0) + findings acts)%nat.
Proof. unfold findings. rewrite filter_cons. case_decide; by destruct (a_finding act). Qed.

Lemma applied_verifies now acts b c b' c' :
  Verify b = Ok tt -> Forall finding_ok acts -> apply_actions now b c acts = Ok (b', c') ->
  Verify b' = Ok tt /\ b `prefix_of` b' /\ changed c' = changed c /\
  Z.of_nat (length b') = Z.of_nat (length b) + (written c' - written c) + Z.of_nat (findings acts).
Proof.
  intros Hv Hok. revert b c Hv. induction Hok as [|act acts Hact _ IH]; intros b c Hv H.
  { injection H as <- <-. split_and!; [done|done|done|cbn; lia]. }
  rewrite findings_cons. unfold finding_ok in Hact. cbn [apply_actions] in H. destruct (a_skip act) eqn:Es.
  - destruct (a_finding act); [by destruct Hact|]. by apply IH.
  - unfold apply_action in H. destruct (a_finding act) as [f|].
    + destruct Hact as [_ Hacq]; [done|]. destruct (ie_acquisition (a_event act)) as [acq|] eqn:Ea; [|done].
      unfold appendAcquisitionFinding in H. destruct (AppendWithOptions b _ _ _) as [b1|] eqn:E1; [|discriminate].
      destruct (AppendWithOptions b1 _ _ _) as [b2|] eqn:E2; [|discriminate].
      apply appended_verifies in E1 as (Hv1 & Hp1 & Hl1), E2 as (Hv2 & Hp2 & Hl2); [|done..].
      apply IH in H as (Hv' & Hp' & Hc' & Hl'); [|done]. cbn [written changed] in *.
      split_and!; [done|by do 2 (etrans; [done|])|done|lia].
    + destruct (AppendWithOptions b _ _ _) as [b1|] eqn:E1; [|discriminate].
      apply appended_verifies in E1 as (Hv1 & Hp1 & Hl1); [|done].
      apply IH in H as (Hv' & Hp' & Hc' & Hl'); [|done]. cbn [written changed] in *.
      split_and!; [done|by etrans|done|lia].
Qed.

(** A decision with a finding is a changed one, and is never skipped. *)
Definition decided (d : decision) (ev : importEvent) : Prop :=
  (d_finding d <> None <-> d_result d = ReconciliationChanged) /\
  (d_finding d <> None -> d_skip d = false /\ ie_acquisition ev <> None).

Lemma decide_source_decided reconcile r ev : decided (decide_source reconcile r ev).2 ev.
Proof.
  unfold decide_source, decided. destruct (source_of ev) as [acq|] eqn:Es; [|by destruct reconcile].
  assert (ie_acquisition ev <> None) by (unfold source_of in Es; by destruct (ie_acquisition ev)).
  destruct reconcile; [|done]. unfold Reconcile.
  destruct (_ || _); [done|]. destruct (r !! _) as [kr|]; [|done].
  by destruct (String.eqb (kr_Digest kr) _).
Qed.

Lemma count_changed res c :
  changed (count res c) = changed c + (if bool_decide (res = ReconciliationChanged) then 1 else 0).
Proof. case_bool_decide; [subst|destruct res]; cbn; (lia || done). Qed.

Lemma plan_findings reconcile evs i ds r c acts c' :
  (forall k d, ds !! k = Some d -> d_finding d = None) ->
  plan_from reconcile i ds r c evs = (acts, c') ->
  Forall finding_ok acts /\ written c' = written c /\ changed c' = changed c + Z.of_nat (findings acts).
Proof.
  revert i ds r c acts c'. induction evs as [|ev evs IH]; intros i ds r c acts c' Hds H.
  { injection H as <- <-. split_and!; [constructor|done|cbn; lia]. }
  cbn [plan_from] in H.
  assert (forall d k d', <[event_key i ev := mkDecision (d_result d) (d_skip d) None]> ds !! k = Some d' ->
    d_finding d' = None) as Hds'.
  { intros d k d'. destruct (decide (k = event_key i ev)) as [->|Hne].
    - rewrite lookup_insert_eq. by intros [= <-].
    - rewrite lookup_insert_ne by done. apply Hds. }
  destruct (ds !! event_key i ev) as [d|] eqn:Ed.
  - destruct (plan_from _ _ _ _ _ evs) as [acts' c2] eqn:Ep. injection H as <- <-.
    apply IH in Ep as (HF & Hw & Hc); [|apply Hds']. rewrite (Hds _ _ Ed).
    split_and!; [by constructor|done|]. rewrite findings_cons. cbn. lia.
  - pose proof (decide_source_decided reconcile r ev) as [Hd1 Hd2].
    destruct (decide_source reconcile r ev) as [r' d]. cbn [snd] in *.
    destruct (plan_from _ _ _ _ _ evs) as [acts' c2] eqn:Ep. injection H as <- <-.
    apply IH in Ep as (HF & Hw & Hc); [|apply Hds']. rewrite count_written in Hw. rewrite count_changed in Hc.
    split_and!; [by constructor|done|]. rewrite findings_cons. cbn [a_finding]. rewrite Hc.
    case_bool_decide as Hch; destruct (d_finding d); [lia|by apply Hd1 in Hch|by destruct Hch; apply Hd1|lia].
Qed.

Lemma planned_import now events r reconcile b b' c :
  Verify b = Ok tt -> applyReconciliation now b (planReconciliation events r reconcile) = Ok (b', c) ->
  Verify b' = Ok tt /\ b `prefix_of` b' /\
  Z.of_nat (length b') = Z.of_nat (length b) + written c + changed c.
Proof.
  intros Hv. unfold planReconciliation, applyReconciliation.
  destruct (plan_from _ _ _ _ _ _) as [acts c0] eqn:Ep. cbn [actions counts]. intros Ha.
  apply plan_findings in Ep as (HF & Hw & Hc); [|done].
  apply applied_verifies in Ha as (H1 & H2 & H3 & H4); [|done..]. cbn [no_counts written changed] in *.
  split_and!; [done|done|lia].
Qed.

(** The manifest of a one-record bundle can be stamped: its hash is computed again. *)
Lemma stamped_verifies b key value b' :
  length b = 1%nat -> Verify b = Ok tt -> stampManifestProvenance b key value = Ok b' ->
  Verify b' = Ok tt /\ length b' = 1%nat.
Proof.
  destruct b as [|r [|]]; [done| |done]. intros _ Hv H. unfold stampManifestProvenance in H.
  destruct (negb _); [discriminate|]. destruct (String.eqb (TrimSpace key) ""); [discriminate|].
  destruct (stamp_data _ _ _) as [data|]; [|discriminate]. destruct (Compute _) as [h|] eqn:Eh; [|discriminate].
  injection H as <-. split; [|done]. rewrite bundle_Verify_linked in *.
  unfold first_seq, hasManifestRecord in *. cbn in Hv |- *. tauto.
Qed.

(** ** Identity keys *)

Lemma app_split_at (c : ascii) (x y u v : bytes) :
  c ∉ x -> c ∉ y -> x ++ c :: u = y ++ c :: v -> x = y /\ u = v.
Proof.
  revert y. induction x as [|d x IH]; intros [|e y] Hx Hy H; cbn [app] in H; simplify_eq; [done| | |].
  - by destruct Hy; left.
  - by destruct Hx; left.
  - apply not_elem_of_cons in Hx as [_ Hx], Hy as [_ Hy]. destruct (IH y Hx Hy) as [-> ->]; done.
Qed.

Definition colon_free (s : string) : Prop := ":"%char ∉ B s.

Lemma identityKey_inj i i' :
  colon_free (SourceIdentity.System i) -> colon_free (SourceIdentity.System i') ->
  identityKey i = identityKey i' ->
  SourceIdentity.System i = SourceIdentity.System i' /\ SourceIdentity.RecordID i = SourceIdentity.RecordID i'.
Proof.
  intros H H' E. unfold identityKey in E. apply (f_equal B) in E. rewrite !B_app in E.
  change (B ":") with [":"%char] in E. cbn [app] in E.
  destruct (app_split_at ":"%char (B (SourceIdentity.System i)) (B (SourceIdentity.System i')) _ _ H H' E) as [E1 E2].
  split; by apply B_inj.
Qed.

(** The abstract reconciler: the last digest of each identity. *)
Abbreviation history := (string -> string -> option string).

Definition represents (r : Reconciler) (h : history) : Prop :=
  forall sys rec, sys <> "" -> rec <> "" -> colon_free sys ->
    kr_Digest <$> r !! identityKey (SourceIdentity.mk sys rec true) = h sys rec.

Definition update (h : history) (sys rec d : string) : history :=
  fun s r => if String.eqb s sys && String.eqb r rec then Some d else h s r.

(** ** Properties *)

(** Reconciliation refines the table of last digests. For identities whose system
    name has no colon, [Reconcile] reports new, unchanged or changed exactly as the last
    digest recorded for that system and record says, and the table afterwards is the old
    one with this digest; an incomplete identity is unknown and changes nothing. *)
Theorem Reconcile_refines r h id digest at_ acq :
  represents r h -> colon_free (SourceIdentity.System id) ->
  let '(r', o) := Reconcile r id digest at_ acq in
  if String.eqb (SourceIdentity.System id) "" || String.eqb (SourceIdentity.RecordID id) ""
  then Result o = ReconciliationUnknown /\ r' = r
  else represents r' (update h (SourceIdentity.System id) (SourceIdentity.RecordID id) digest) /\
    Result o = match h (SourceIdentity.System id) (SourceIdentity.RecordID id) with
               | None => ReconciliationNew
               | Some d => if String.eqb d digest then ReconciliationUnchanged else ReconciliationChanged
               end /\
    (Finding o <> None <-> Result o = ReconciliationChanged).
Proof.
  intros Hr Hc. unfold Reconcile.
  destruct (_ || _) eqn:E; [done|]. boolify. destruct id as [sys rec der]. cbn [SourceIdentity.System SourceIdentity.RecordID] in *.
  change (identityKey (SourceIdentity.mk sys rec der)) with (identityKey (SourceIdentity.mk sys rec true)).
  assert (forall kr r', r' = <[identityKey (SourceIdentity.mk sys rec true) := kr]> r -> kr_Digest kr = digest ->
    represents r' (update h sys rec digest)) as Hins.
  { intros kr r' -> Hd s rc Hs Hrc Hcf. unfold update.
    destruct (String.eqb_spec s sys) as [->|Hne]; [destruct (String.eqb_spec rc rec) as [->|Hne]|]; cbn [andb].
    - by rewrite lookup_insert_eq, <- Hd.
    - rewrite lookup_insert_ne; [by apply Hr|]. by intros [_ ?]%identityKey_inj.
    - rewrite lookup_insert_ne; [by apply Hr|]. intros [? _]%identityKey_inj; [by subst|done|done]. }
  pose proof (Hr sys rec ltac:(done) ltac:(done) Hc) as Hk.
  destruct (r !! identityKey _) as [kr|]; cbn [fmap option_fmap option_map] in Hk; rewrite <- Hk.
  - destruct (String.eqb_spec (kr_Digest kr) digest) as [Hd|Hd].
    + split_and!; [|done|done]. intros s rc Hs Hrc Hcf. rewrite (Hr s rc Hs Hrc Hcf). unfold update.
      destruct (String.eqb_spec s sys) as [->|]; [|done]. destruct (String.eqb_spec rc rec) as [->|]; [|done].
      cbn [andb]. by rewrite <- Hk, Hd.
    + split_and!; [by eapply Hins|done|done].
  - split_and!; [by eapply Hins|done|done].
Qed.

(** Importing the same source again writes nothing. If every event belongs to a
    named source record and the events of one record agree on its digest, then after a
    reconciling import onto a verified bundle, the same import with the checkpoint it
    bound is accepted, leaves the bundle as it is, and reports nothing written. *)
Theorem reimport_writes_nothing now now' stream b cm position position' evs dg b' c cm' :
  b <> [] -> Verify b = Ok tt -> Forall (named dg) evs ->
  import_events now stream false true false b cm position evs = Ok (b', c, cm') ->
  exists c' cm'',
    import_events now' stream false true false b' cm' position' evs = Ok (b', c', cm'') /\ written c' = 0.
Proof.
  intros Hne Hv Hn H. pose proof H as Hi. apply (imported_up_to_date _ _ _ _ _ _ _ _ _ dg) in H as (Hv' & _ & Hup & Hcm); [|done..].
  unfold import_events in Hi. cbn [orb andb negb] in Hi. rewrite Hv in Hi. cbn [map_err] in Hi.
  destruct (Checkpoint.cm_Checkpoint cm) as [cp|]; [|discriminate].
  eapply up_to_date_unchanged; [done|done|done|done|exact Hcm|apply bound_validates].
Qed.

(** C16: an import only ever extends a verified chain. Starting from a bundle the import
    created and stamped, from one it verified because it resumes, or from one that
    verifies, a successful import yields a bundle that verifies, has the old one as a
    prefix and holds one more record for every event written and every changed source
    record; the checkpoint it leaves is bound to exactly that bundle. *)
Theorem import_result_verifies now stream continue_ reconcile (created : bool) b cm position evs b' c cm' :
  (if created
   then exists b0 key value, length b0 = 1%nat /\ Verify b0 = Ok tt /\ stampManifestProvenance b0 key value = Ok b
   else continue_ || reconcile = true \/ Verify b = Ok tt) ->
  import_events now stream continue_ reconcile created b cm position evs = Ok (b', c, cm') ->
  Verify b' = Ok tt /\ b `prefix_of` b' /\
  Z.of_nat (length b') = Z.of_nat (length b) + written c + changed c /\
  (forall cp, Checkpoint.cm_Checkpoint cm' = Some cp ->
     Checkpoint.ValidateBundle (committedBundleHead b') (Z.of_nat (length b')) cp = Ok tt).
Proof.
  intros Hb H. unfold import_events in H.
  assert (Verify b = Ok tt \/ exists e, (if (continue_ || reconcile) && negb created then map_err IVerify (Verify b) else Ok tt) = Err e :> result import_error unit) as [Hv|[e He]].
  { destruct created; [left|].
    - destruct Hb as (b0 & key & value & Hl & Hv0 & Hs). by apply (stamped_verifies b0 key value).
    - destruct Hb as [->|Hv]; [|by left]. cbn [andb negb].
      destruct (Verify b) as [[]|e]; [by left|right; by exists (IVerify e)]. }
  2: { rewrite He in H. discriminate. }
  destruct (if (continue_ || reconcile) && negb created then _ else _) as [[]|]; [|discriminate].
  destruct (if continue_ || reconcile then _ else _) as [[]|]; [|discriminate].
  destruct (writesAcquisition _ && _); [discriminate|].
  destruct (applyReconciliation now b _) as [[b1 c1]|] eqn:Ea; [|discriminate]. cbn [map_err] in H. injection H as <- <- <-.
  apply planned_import in Ea as (H1 & H2 & H3); [|done]. split_and!; [done..|].
  intros cp. unfold Checkpoint.ManagerBindBundle. cbn [Checkpoint.cm_Checkpoint Checkpoint.with_checkpoint].
  destruct (Checkpoint.cm_Checkpoint (Checkpoint.UpdateCheckpoint _ _ _ _ _)) as [cp0|]; [|discriminate].
  cbn [fmap option_fmap option_map]. intros [= <-]. apply bound_validates.
Qed.

(** The reconciliation key joins system and record with a colon and is not
    injective: a first acquisition of one source record is reported as a change of
    another one, with a high-severity finding, when the joined names agree. *)
Theorem identityKey_collision at_ d d' :
  d <> d' ->
  let i := SourceIdentity.mk "a:b" "c" true in
  let i' := SourceIdentity.mk "a" "b:c" true in
  i <> i' /\ Result (Reconcile (Reconcile ∅ i d at_ None).1 i' d' at_ None).2 = ReconciliationChanged.
Proof.
  intros Hd i i'. split; [done|]. unfold Reconcile, i, i'. cbn [SourceIdentity.System SourceIdentity.RecordID].
  rewrite lookup_empty. cbn [String.eqb orb fst]. 
  change (identityKey (SourceIdentity.mk "a" "b:c" true)) with (identityKey (SourceIdentity.mk "a:b" "c" true)).
  rewrite lookup_insert_eq. cbn [kr_Digest]. by rewrite (proj2 (String.eqb_neq d d') Hd).
Qed.

(** ** Witnesses *)

Definition w_acquisition (id digest : string) : AcquisitionInfo.t :=
  AcquisitionInfo.mk "retrospective" "chatlog" id "" "2026-01-02T03:04:06Z" digest "atb.chatlog" "" None.

Definition w_event (id digest : string) : importEvent :=
  mkImport "ai.tool.exec" Canonicalize.sample "2026-01-02T03:04:06Z" "" "" "" (Some (w_acquisition id digest)).

Definition w_manager : Checkpoint.CheckpointManager :=
  Checkpoint.mkManager (Some Checkpoint.sample_checkpoint) "chatlog" "chat.json" "chatlog" "1.0" ""
    (SourceIdentity.mk "chatlog" "x" true).

Definition w_events : list importEvent := [w_event "7" "d7"; w_event "8" "d8"; w_event "7" "d7"].

Definition w_import := import_events "2026-01-02T03:04:07Z" "chat.json" false true false sample_bundle w_manager
  "exchange:2" w_events.

Definition w_imported : bundle := Eval vm_compute in match w_import with Ok (b, _, _) => b | Err _ => [] end.
Definition w_counts : reconcileCounts := Eval vm_compute in match w_import with Ok (_, c, _) => c | Err _ => no_counts end.
Definition w_bound : Checkpoint.CheckpointManager :=
  Eval vm_compute in match w_import with Ok (_, _, cm) => cm | Err _ => w_manager end.

Lemma w_import_ok : w_import = Ok (w_imported, w_counts, w_bound).
Proof. vm_compute. reflexivity. Qed.

Definition w_digest (k : string) : string := if String.eqb k "chatlog:7" then "d7" else "d8".

Lemma Reconcile_refines_witness :
  let '(r', o) := Reconcile ∅ (SourceIdentity.mk "chatlog" "7" true) "d" "" None in
  Result o = ReconciliationNew.
Proof.
  pose proof (Reconcile_refines ∅ (fun _ _ => None) (SourceIdentity.mk "chatlog" "7" true) "d" "" None
    ltac:(intros s r _ _ _; by rewrite lookup_empty) ltac:(unfold colon_free; vm_compute; set_solver)) as H.
  exact (proj1 (proj2 H)).
Defined.

Lemma reimport_writes_nothing_witness :
  exists c' cm'', import_events "2026-01-03T03:04:07Z" "chat.json" false true false w_imported w_bound "exchange:2" w_events
    = Ok (w_imported, c', cm'') /\ written c' = 0.
Proof.
  apply (reimport_writes_nothing "2026-01-02T03:04:07Z" _ _ sample_bundle w_manager "exchange:2" _ w_events w_digest w_imported w_counts);
    [discriminate|vm_compute; reflexivity| |exact w_import_ok].
  repeat constructor; eexists; split_and!; first [reflexivity|discriminate].
Defined.

Lemma import_result_verifies_witness :
  Verify w_imported = Ok tt /\ written w_counts = 3 /\
  Z.of_nat (length w_imported) = Z.of_nat (length sample_bundle) + written w_counts + changed w_counts.
Proof.
  destruct (import_result_verifies "2026-01-02T03:04:07Z" "chat.json" false true false sample_bundle w_manager
    "exchange:2" w_events w_imported w_counts w_bound (or_introl eq_refl) w_import_ok) as (H1 & _ & H3 & _).
  split; [exact H1|]. split; [reflexivity|exact H3].
Defined.

Lemma identityKey_collision_witness :
  Result (Reconcile (Reconcile ∅ (SourceIdentity.mk "a:b" "c" true) "1" "" None).1
    (SourceIdentity.mk "a" "b:c" true) "2" "" None).2 = ReconciliationChanged.
Proof. apply (identityKey_collision "" "1" "2"). discriminate. Defined.

End Reconcile.
