(* ===== verification/Chatlog.v ===== *)
(** * Chat logs

    [internal/capture/chatlog.go] and [ImportChatlog] of [internal/acquisition/import_integration.go]: JSON lines are
    parsed to turns, the turns are grouped to exchanges, each with an identity and a digest of its lines, the turns of
    an exchange become events that carry both, and the import reconciles the events with a bundle. Theorems: an import
    that is repeated writes nothing, and identity and digest of an event determine the lines of its exchange. *)

From S2P Require Import Prelude GoText GoPath Sha256 GoFloat GoJson GoValue GoUnicode GoTime GoStruct Push Canonicalize Event HashChain Bundle BundleIO Rooted Checkpoint Reconcile.
Import Canonicalize HashChain Bundle.

Module Chatlog.

(** ** Data *)

Definition FormatGenericJSONL : string := "generic-jsonl".
Definition FormatOpenAIJSONL : string := "openai-jsonl".
Definition defaultPurposeTag : string := "chatlog_import".
Definition defaultOutputFormat : string := "text/plain".
Definition suggestedProfileRAG : string := "atb.profile.rag_answer".

Definition TypeAIRequestReceived : string := "ai.request.received".
Definition TypeAIToolExec : string := "ai.tool.exec".
Definition TypeAIModelInvoked : string := "ai.model.invoked".
Definition TypeAIModelOutput : string := "ai.model.output".
Definition TypeAIResponseSent : string := "ai.response.sent".

(** One turn. [ToolArgs] is the JSON value that a [json.RawMessage] holds, if there is one. *)
Record ChatMessage := mkMessage {
  Line : Z;
  Role : string;
  Content : string;
  m_Timestamp : string;
  Model : string;
  ModelProvider : string;
  ModelParametersDigest : string;
  PromptDigest : string;
  OutputDigest : string;
  OutputFormat : string;
  ToolName : string;
  ToolCallID : string;
  ToolArgs : option json;
  ConversationID : string;
  SessionID : string;
  RequestID : string;
  ActorIDHash : string;
  PurposeTag : string;
  RawLine : string
}.

Record EventSpec := mkSpec { Type_ : string; Data : list (string * any); s_Timestamp : string; s_Acquisition : AcquisitionInfo.t }.

Record MappingResult := mkMapping { Events : list EventSpec; SkippedRecords : Z; SuggestedProfileID : string }.

Record rawChatMessage := mkRaw {
  r_Role : string; r_Content : string; r_Timestamp : string; r_Model : string; r_ModelProvider : string;
  r_ModelParametersDigest : string; r_PromptDigest : string; r_OutputDigest : string; r_OutputFormat : string;
  r_ToolName : string; r_ToolCallID : string; r_ToolArgs : option json; r_ConversationID : string; r_SessionID : string;
  r_RequestID : string; r_ActorIDHash : string; r_PurposeTag : string
}.

Definition raw_names : list string :=
  ["role"; "content"; "timestamp"; "model"; "model_provider"; "model_parameters_digest"; "prompt_digest"; "output_digest";
   "output_format"; "tool_name"; "tool_call_id"; "tool_args"; "conversation_id"; "session_id"; "request_id";
   "actor_id_hash"; "purpose_tag"].

Definition zero_raw : rawChatMessage := mkRaw "" "" "" "" "" "" "" "" "" "" "" None "" "" "" "" "".

Definition dec_raw_message (j : json) (_ : option json) : option (option json) := Some (Some j).

Definition decode_message (j : json) : option rawChatMessage :=
  match j with
  | JNull => Some zero_raw
  | JObj l =>
      let str name := decode_field raw_names name dec_string l "" in
      ro ← str "role"; co ← str "content"; ti ← str "timestamp"; mo ← str "model"; mp ← str "model_provider";
      md ← str "model_parameters_digest"; pd ← str "prompt_digest"; od ← str "output_digest"; fo ← str "output_format";
      tn ← str "tool_name"; tc ← str "tool_call_id"; ta ← decode_field raw_names "tool_args" dec_raw_message l None;
      ci ← str "conversation_id"; si ← str "session_id"; ri ← str "request_id"; ai ← str "actor_id_hash"; pt ← str "purpose_tag";
      Some (mkRaw ro co ti mo mp md pd od fo tn tc ta ci si ri ai pt)
  | _ => None
  end.

(** ** The parser *)

(** What is wrong with a line. *)
Inductive line_error := LJSON | LNoContent | LNoTimestamp | LTimestamp (raw : string) | LNoToolName.

(** The first wraps [ErrUnsupportedProvider], the others [ErrMalformedChatlog]. *)
Inductive chatlog_error := EProvider (format : string) | ELine (line : Z) (e : line_error) | EScan.

Section parser.
Context `{Unicode}.

Definition known_role (role : string) : bool := existsb (String.eqb role) ["user"; "assistant"; "system"; "tool"].

Definition normaliseRawChatMessage (line : Z) (input : rawChatMessage) (rawLine : string) : result chatlog_error ChatMessage :=
  let message := mkMessage line (TrimSpace (ToLower (r_Role input))) (TrimSpace (r_Content input)) (TrimSpace (r_Timestamp input))
    (TrimSpace (r_Model input)) (TrimSpace (r_ModelProvider input)) (TrimSpace (r_ModelParametersDigest input))
    (TrimSpace (r_PromptDigest input)) (TrimSpace (r_OutputDigest input)) (TrimSpace (r_OutputFormat input))
    (TrimSpace (r_ToolName input)) (TrimSpace (r_ToolCallID input)) (r_ToolArgs input) (TrimSpace (r_ConversationID input))
    (TrimSpace (r_SessionID input)) (TrimSpace (r_RequestID input)) (TrimSpace (r_ActorIDHash input)) (TrimSpace (r_PurposeTag input))
    rawLine in
  if negb (known_role (Role message)) then Ok message
  else if String.eqb (Content message) "" then Err (ELine line LNoContent)
  else if String.eqb (m_Timestamp message) "" then Err (ELine line LNoTimestamp)
  else
    match parse_rfc3339 (B (m_Timestamp message)) with
    | None => Err (ELine line (LTimestamp (m_Timestamp message)))
    | Some _ =>
        if String.eqb (Role message) "tool" && String.eqb (ToolName message) "" then Err (ELine line LNoToolName)
        else Ok message
    end.

(** The raw line is set here in the source. *)
Definition parseRawChatMessage (line : Z) (raw : bytes) : result chatlog_error ChatMessage :=
  match json_parse raw ≫= decode_message with
  | None => Err (ELine line LJSON)
  | Some input => normaliseRawChatMessage line input (S_of raw)
  end.

(** [json.Unmarshal] to [[]json.RawMessage]: the text of each element. *)
Fixpoint raw_elems (fuel : nat) (s : bytes) : option (list bytes * bytes) :=
  match fuel with
  | O => None
  | S fuel =>
      '(_, s1) ← parse_value (Nat.pred max_nesting_depth) s;
      let raw := take (length (skip_ws s) - length s1) (skip_ws s) in
      match skip_ws s1 with
      | c :: s2 =>
          if code c =? 44 then '(raws, s3) ← raw_elems fuel s2; Some (raw :: raws, s3)
          else if code c =? 93 then Some ([raw], s2) else None
      | [] => None
      end
  end.

Definition raw_array (s : bytes) : option (list bytes) :=
  match s with
  | c :: t =>
      match skip_ws t with
      | c' :: t' =>
          if code c' =? 93 then (match skip_ws t' with [] => Some [] | _ => None end)
          else '(raws, r) ← raw_elems (length t) t; match skip_ws r with [] => Some raws | _ => None end
      | [] => None
      end
  | [] => None
  end.

Fixpoint parse_entries (line : Z) (entries : list bytes) : result chatlog_error (list ChatMessage) :=
  match entries with
  | [] => Ok []
  | entry :: rest =>
      let? m := parseRawChatMessage line entry in
      let? ms := parse_entries line rest in
      Ok (m :: ms)
  end.

Definition parse_line (line : Z) (rawLine : string) : result chatlog_error (list ChatMessage) :=
  match B rawLine with
  | [] => Ok []
  | c :: _ =>
      if bool_decide (c = "["%char) then
        match raw_array (B rawLine) with None => Err (ELine line LJSON) | Some entries => parse_entries line entries end
      else let? m := parseRawChatMessage line (B rawLine) in Ok [m]
  end.

(** The lines before the one that is too long are parsed. *)
Fixpoint parse_lines (line : Z) (lines : list bytes) : result chatlog_error (list ChatMessage) :=
  match lines with
  | [] => Ok []
  | rawLine :: rest =>
      if BundleIO.scan_too_long MaxLineSizeBytes rawLine then Err EScan
      else
        let? ms := parse_line line (TrimSpace (S_of (BundleIO.strip_line rawLine))) in
        let? ms' := parse_lines (line + 1) rest in
        Ok (ms ++ ms')
  end.

(** What was read, and whether reading ended in an error. *)
Definition ParseGenericJSONL (data : bytes) (fails : bool) : result chatlog_error (list ChatMessage) :=
  let? messages := parse_lines 1 (BundleIO.raw_lines data) in
  if fails then Err EScan else Ok messages.

Definition ParseChatlog (format : string) (data : bytes) (fails : bool) : result chatlog_error (list ChatMessage) :=
  let f := TrimSpace (ToLower format) in
  if String.eqb f FormatGenericJSONL || String.eqb f FormatOpenAIJSONL then ParseGenericJSONL data fails
  else Err (EProvider format).
End parser.

(** ** Helpers *)

Fixpoint strings_Join (l : list string) (sep : string) : string :=
  match l with
  | [] => ""
  | [x] => x
  | x :: rest => x +:+ sep +:+ strings_Join rest sep
  end.

Definition newline_sep : string := S_of [BundleIO.newline].

Definition digestText (value : string) : string := "sha256:" +:+ S_of (hex_encode (Sha256.sum256 (B value))).

Definition shortDigest (value : string) : string := S_of (hex_encode (take 4 (Sha256.sum256 (B value)))).

Definition generatedRequestID (namespace : string) (requestCounter : Z) : string :=
  "req-" +:+ shortDigest namespace +:+ "-" +:+ S_of (padded 3 requestCounter).

Fixpoint chatNamespace (messages : list ChatMessage) : string :=
  match messages with
  | [] => "chatlog"
  | m :: rest =>
      if negb (String.eqb (ConversationID m) "") then ConversationID m
      else if negb (String.eqb (SessionID m) "") then SessionID m
      else chatNamespace rest
  end.

Fixpoint firstNonEmpty (values : list string) : string :=
  match values with
  | [] => ""
  | value :: rest => if negb (String.eqb (TrimSpace value) "") then TrimSpace value else firstNonEmpty rest
  end.

Definition promptWindowEntry (m : ChatMessage) : string :=
  if String.eqb (Role m) "tool" then "tool[" +:+ ToolName m +:+ "]: " +:+ Content m
  else Role m +:+ ": " +:+ Content m.

Definition fallbackActorIDHash (m : ChatMessage) (namespace : string) (requestCounter : Z) : string :=
  if negb (String.eqb (ActorIDHash m) "") then ActorIDHash m
  else digestText (namespace +:+ ":" +:+ show_int requestCounter +:+ ":" +:+ Role m).

(** The entries that the call adds to the map. *)
Definition addChatContext (m : ChatMessage) : list (string * any) :=
  (if String.eqb (ConversationID m) "" then [] else [("conversation_id", AString (ConversationID m))]) ++
  (if String.eqb (SessionID m) "" then [] else [("session_id", AString (SessionID m))]).

(** [shown] is what [fmt] prints for the value. *)
Definition digestCanonicalValue (value : any) (shown : string) : string :=
  match Canonicalize.Marshal value with None => digestText shown | Some canonical => digestText (S_of canonical) end.

(** The value and its text; nothing for null. *)
Definition decodeToolArgs (raw : option json) : option (option any * string) :=
  match raw with
  | None => Some (None, "")
  | Some j =>
      value ← of_json j;
      match value with
      | ANil => Some (None, "")
      | AString text => Some (Some (AString text), text)
      | _ => canonical ← Canonicalize.Marshal value; Some (Some value, S_of canonical)
      end
  end.

Section provider.
Context `{Unicode}.

Definition guessModelProvider (model : string) : string :=
  let trimmed := ToLower (TrimSpace model) in
  if existsb (HasPrefix trimmed) ["gpt-"; "o1"; "o3"; "o4"] then "openai"
  else if HasPrefix trimmed "claude-" then "anthropic"
  else if existsb (HasPrefix trimmed) ["gemini"; "models/gemini"] then "google"
  else "unknown".
End provider.

(** ** Exchanges *)

(** The loop of [exchangeIdentities]. *)
Record exchange_state := mkExchange { counter : Z; current : string; ids : list string; lines : gmap string (list string) }.

Definition add_line (id line : string) (lines : gmap string (list string)) : gmap string (list string) :=
  <[id := default [] (lines !! id) ++ [line]]> lines.

Definition exchange_step (namespace : string) (st : exchange_state) (m : ChatMessage) : exchange_state :=
  if String.eqb (Role m) "user" then
    let n := counter st + 1 in
    let requestID := if String.eqb (RequestID m) "" then generatedRequestID namespace n else RequestID m in
    mkExchange n requestID (ids st ++ [requestID]) (add_line requestID (RawLine m) (lines st))
  else if String.eqb (Role m) "assistant" || String.eqb (Role m) "tool" then
    mkExchange (counter st) (current st) (ids st ++ [current st])
      (if String.eqb (current st) "" then lines st else add_line (current st) (RawLine m) (lines st))
  else mkExchange (counter st) (current st) (ids st ++ [""]) (lines st).

Definition lines_digest (rawLines : list string) : string := digestText (strings_Join rawLines newline_sep).

Definition exchangeIdentities (messages : list ChatMessage) : list string * gmap string string :=
  let st := fold_left (exchange_step (chatNamespace messages)) messages (mkExchange 0 "" [] ∅) in
  (ids st, lines_digest <$> lines st).

Definition adapter_name : string := "atb.chatlog.generic-jsonl".

(** [adapter] is not used; [acquiredAt] is the time of the call. *)
Definition buildAcquisitionInfo (acquiredAt : string) (m : ChatMessage) (adapter sourceRecordID sourceDigest : string) : AcquisitionInfo.t :=
  AcquisitionInfo.mk "retrospective" "chatlog" sourceRecordID (m_Timestamp m) acquiredAt sourceDigest adapter_name "1.0.0"
    (Some (CheckpointInfo.mk "chatlog" "stdin" sourceRecordID acquiredAt adapter_name "1.0.0")).

(** ** From turns to events *)

Inductive mapping_error := MToolFirst (line : Z) | MToolArgs (line : Z) | MAssistantFirst (line : Z) | MUnknownTurn (index : nat).

Record map_state := mkMap {
  promptWindow : list string;
  requestCounter : Z;
  currentRequestID : string;
  events : list EventSpec;
  skipped : Z;
  modelTurnSeen : bool
}.

Section mapper.
Context `{Unicode}.
(** The time of the n-th event. *)
Variable clock : nat -> string.
Variable namespace : string.

Definition source_keys (m : ChatMessage) : list (string * any) :=
  [("source_role", AString (Role m)); ("source_line_num", AInt (Line m))].

(** The event is appended, with the identity and the digest of the exchange. *)
Definition emit (id digest : string) (m : ChatMessage) (ty : string) (data : list (string * any)) (es : list EventSpec) : list EventSpec :=
  es ++ [mkSpec ty (data ++ source_keys m ++ addChatContext m) (m_Timestamp m)
           (buildAcquisitionInfo (clock (length es)) m adapter_name id digest)].

Definition with_prompt (m : ChatMessage) (st : map_state) (es : list EventSpec) (seen : bool) : map_state :=
  mkMap (promptWindow st ++ [promptWindowEntry m]) (requestCounter st) (currentRequestID st) es (skipped st) seen.

Definition map_user (id digest : string) (m : ChatMessage) (st : map_state) : map_state :=
  let n := requestCounter st + 1 in
  let requestID := if String.eqb (RequestID m) "" then generatedRequestID namespace n else RequestID m in
  let data := [("request_id", AString requestID); ("actor_id_hash", AString (fallbackActorIDHash m namespace n));
               ("purpose_tag", AString (firstNonEmpty [PurposeTag m; defaultPurposeTag]));
               ("input_digest", AString (digestText (Content m))); ("input_format", AString defaultOutputFormat)] in
  mkMap (promptWindow st ++ [promptWindowEntry m]) n requestID (emit id digest m TypeAIRequestReceived data (events st))
    (skipped st) (modelTurnSeen st).

Definition map_tool (id digest : string) (m : ChatMessage) (st : map_state) : result mapping_error map_state :=
  if String.eqb (currentRequestID st) "" then Err (MToolFirst (Line m))
  else
    match decodeToolArgs (ToolArgs m) with
    | None => Err (MToolArgs (Line m))
    | Some (value, text) =>
        let data := [("request_id", AString (currentRequestID st)); ("tool_name", AString (ToolName m));
                     ("tool_output", AString (Content m)); ("tool_output_digest", AString (digestText (Content m)))] ++
                    (if String.eqb (ToolCallID m) "" then [] else [("tool_call_id", AString (ToolCallID m))]) ++
                    (if String.eqb text "" then [] else [("tool_args_digest", AString (digestText text))]) ++
                    (match value with Some v => [("tool_args", v)] | None => [] end) in
        Ok (with_prompt m st (emit id digest m TypeAIToolExec data (events st)) (modelTurnSeen st))
    end.

(** A turn that names a model has three events, any other one. *)
Definition map_assistant (id digest : string) (m : ChatMessage) (st : map_state) : result mapping_error map_state :=
  if String.eqb (currentRequestID st) "" then Err (MAssistantFirst (Line m))
  else
    let output := [("output_digest", AString (firstNonEmpty [OutputDigest m; digestText (Content m)]));
                   ("output_format", AString (firstNonEmpty [OutputFormat m; defaultOutputFormat]))] in
    let request := ("request_id", AString (currentRequestID st)) in
    let es :=
      if String.eqb (Model m) "" then events st
      else
        let data := [request; ("model_provider", AString (firstNonEmpty [ModelProvider m; guessModelProvider (Model m)]));
                     ("model_id", AString (Model m));
                     ("model_parameters_digest", AString (firstNonEmpty [ModelParametersDigest m; digestCanonicalValue (AMap []) "map[]"]));
                     ("prompt_digest", AString (firstNonEmpty [PromptDigest m; digestText (strings_Join (promptWindow st) newline_sep)]))] in
        emit id digest m TypeAIModelOutput (request :: output) (emit id digest m TypeAIModelInvoked data (events st)) in
    Ok (with_prompt m st (emit id digest m TypeAIResponseSent (request :: output) es)
          (modelTurnSeen st || negb (String.eqb (Model m) ""))).

Definition map_turn (index : nat) (id digest : string) (m : ChatMessage) (st : map_state) : result mapping_error map_state :=
  if String.eqb (Role m) "system" then
    Ok (mkMap (promptWindow st ++ [promptWindowEntry m]) (requestCounter st) (currentRequestID st) (events st) (skipped st + 1) (modelTurnSeen st))
  else if String.eqb (Role m) "user" then Ok (map_user id digest m st)
  else if String.eqb (Role m) "tool" then map_tool id digest m st
  else if String.eqb (Role m) "assistant" then map_assistant id digest m st
  else Err (MUnknownTurn index).

(** [exchangeIDs] and [digests] are those of [exchangeIdentities]; a key that is missing has the empty digest. *)
Fixpoint map_turns (exchangeIDs : list string) (digests : gmap string string) (index : nat) (messages : list ChatMessage) (st : map_state) :
    result mapping_error map_state :=
  match messages with
  | [] => Ok st
  | m :: rest =>
      let id := default "" (exchangeIDs !! index) in
      let? st := map_turn index id (default "" (digests !! id)) m st in
      map_turns exchangeIDs digests (S index) rest st
  end.
End mapper.

Definition start_map : map_state := mkMap [] 0 "" [] 0 false.

Section mapping.
Context `{Unicode}.

Definition mapMessagesToEventsInner (clock : nat -> string) (messages : list ChatMessage) : result mapping_error MappingResult :=
  let '(exchangeIDs, digests) := exchangeIdentities messages in
  let? st := map_turns clock (chatNamespace messages) exchangeIDs digests 0 messages start_map in
  Ok (mkMapping (events st) (skipped st) (if modelTurnSeen st then suggestedProfileRAG else "")).

(** Every error wraps [ErrMalformedChatlog]; the last one [ErrUnknownTurn] too. *)
Definition MapMessagesToEvents : (nat -> string) -> list ChatMessage -> result mapping_error MappingResult := mapMessagesToEventsInner.
End mapping.

Definition isKnownTurnRole (role : string) : bool := existsb (String.eqb role) ["system"; "user"; "tool"; "assistant"].

Fixpoint filter_from (index : nat) (messages : list ChatMessage) : list ChatMessage * list nat :=
  match messages with
  | [] => ([], [])
  | m :: rest =>
      let '(filtered, unknown) := filter_from (S index) rest in
      if isKnownTurnRole (Role m) then (m :: filtered, unknown) else (filtered, index :: unknown)
  end.

Definition FilterKnownTurns (messages : list ChatMessage) : list ChatMessage * list nat := filter_from 0 messages.

(** ** Appending *)

Definition spec_options (s : EventSpec) : AppendOptions := mkOptions None None None (s_Timestamp s) "" "" "" (Some (s_Acquisition s)).

(** The bundle, how many events were appended, and the first error. *)
Fixpoint AppendEventsToBundleInMemory (b : bundle) (evs : list EventSpec) : bundle * nat * option append_error :=
  match evs with
  | [] => (b, O, None)
  | s :: rest =>
      match AppendWithOptions b (Type_ s) (AMap (Data s)) (Some (spec_options s)) with
      | Err e => (b, O, Some e)
      | Ok b' => let '(b'', n, e) := AppendEventsToBundleInMemory b' rest in (b'', S n, e)
      end
  end.

(** What loading the bundle gives. *)
Inductive load_result := BMissing | BFails | BLoaded (b : bundle).

Inductive capture_error := CNoEvents | CLoad | CNew (e : new_error) | CAppend (e : append_error) | CSave.

Record AppendSummary := mkSummary { EventsWritten : Z; LastRecord : option Record_ }.

Definition loadOrCreateBundle (createdAt : string) (random : option bytes) (loaded : load_result) : result capture_error bundle :=
  match loaded with
  | BLoaded b => Ok b
  | BFails => Err CLoad
  | BMissing => map_err CNew (NewWithOptions createdAt random (mkNewOptions ManifestVersionV3 ""))
  end.

(** The bundle that is saved. *)
Definition AppendEventsToBundle (createdAt : string) (random : option bytes) (loaded : load_result) (save_fails : bool) (evs : list EventSpec) :
    option bundle * result capture_error AppendSummary :=
  match evs with
  | [] => (None, Err CNoEvents)
  | _ =>
      match loadOrCreateBundle createdAt random loaded with
      | Err e => (None, Err e)
      | Ok b =>
          match AppendEventsToBundleInMemory b evs with
          | (_, _, Some e) => (None, Err (CAppend e))
          | (b', _, None) =>
              if save_fails then (None, Err CSave) else (Some b', Ok (mkSummary (Z.of_nat (length evs)) (last b')))
          end
      end
  end.

(** ** The import *)

Record ImportOptions := mkOpts {
  Format : string;
  InputPath : string;
  o_BundlePath : string;
  MaxInputBytes : Z;
  Continue : bool;
  o_Reconcile : bool;
  o_CheckpointPath : string;
  o_SourceIdentity : SourceIdentity.t;
  o_SourceIncarnation : string
}.

Record ImportResult := mkResult {
  i_EventsWritten : Z; i_SkippedRecords : Z; ReconciledCount : Z; NewCount : Z; ChangedCount : Z; UnchangedCount : Z;
  UnknownCount : Z; i_BundlePath : string; i_CheckpointPath : string; UnknownTurnIndices : list nat
}.

(** [max] bounds the sum of what the calls to Read give; the call that crosses it is delivered. *)
Fixpoint capped_read (max n : Z) (chunks : list bytes) (fails : bool) : bytes * bool :=
  match chunks with
  | [] => ([], fails)
  | c :: rest =>
      let n := n + Z.of_nat (length c) in
      if max <? n then (c, true) else let '(data, e) := capped_read max n rest fails in (c ++ data, e)
  end.

(** Opening the input: missing, refused, or what the calls to Read give and whether the last of them fails. *)
Inductive input := InMissing | InRefused | InReads (chunks : list bytes) (fails : bool).

Record import_world := mkWorld {
  w_mkdir_fails : bool;
  w_checkpoint : Checkpoint.file_read;
  w_start : string;
  w_input : input;
  w_clock : nat -> string;
  w_bundle : load_result;
  w_created_at : string;
  w_random : option bytes;
  w_now : string;
  w_save_fails : bool;
  w_checkpoint_save_fails : bool
}.

Inductive import_failure :=
| IFNoBundlePath | IFNoInputPath | IFMkdir | IFCheckpoint (e : Checkpoint.checkpoint_error) | IFSource (e : Checkpoint.checkpoint_error)
| IFInputMissing | IFInputRefused | IFParse (e : chatlog_error) | IFMap (e : mapping_error)
| IFLoad | IFNew (e : new_error) | IFStamp (e : Reconcile.stamp_error) | IFImport (e : Reconcile.import_error)
| IFSave | IFCheckpointSave.

(** What was saved, and the result. *)
Record import_done := mkDone {
  d_bundle : option bundle;
  d_checkpoint : option Checkpoint.CheckpointManager;
  d_result : result import_failure ImportResult
}.

Definition import_fails (e : import_failure) : import_done := mkDone None None (Err e).

Definition CheckpointDir : string := ".atb/checkpoints".
Definition BundleProvenanceRetrospective : string := "retrospective-import".

Definition ResolveCheckpointPath (bundlePath acquisitionStream : string) : string :=
  Join (Join (Rooted.Dir bundlePath) CheckpointDir) (Checkpoint.checkpointName bundlePath acquisitionStream).

Definition checkpoint_path (opts : ImportOptions) : string :=
  if String.eqb (o_CheckpointPath opts) "" then ResolveCheckpointPath (o_BundlePath opts) (InputPath opts) else o_CheckpointPath opts.

Section import.
Context `{Unicode}.

(** The events and how many records were skipped; turns of an unknown role are left out. *)
Definition map_known (clock : nat -> string) (messages : list ChatMessage) : result mapping_error (MappingResult * list nat) :=
  match MapMessagesToEvents clock messages with
  | Ok mapped => Ok (mapped, [])
  | Err (MUnknownTurn _) =>
      let '(messages, unknown) := FilterKnownTurns messages in
      let? mapped := MapMessagesToEvents clock messages in
      Ok (mkMapping (Events mapped) (SkippedRecords mapped + Z.of_nat (length unknown)) (SuggestedProfileID mapped), unknown)
  | Err e => Err e
  end.

Definition import_event (s : EventSpec) : Reconcile.importEvent :=
  Reconcile.mkImport (Type_ s) (AMap (Data s)) (s_Timestamp s) "" "" "" (Some (s_Acquisition s)).

(** [loadSnapshotBundle] and the stamp on a new bundle. *)
Definition load_for_import (w : import_world) : result import_failure (bundle * bool) :=
  match w_bundle w with
  | BLoaded b => Ok (b, false)
  | BFails => Err IFLoad
  | BMissing =>
      let? b := map_err IFNew (NewWithOptions (w_created_at w) (w_random w) (mkNewOptions ManifestVersionV3 "")) in
      let? b := map_err IFStamp (Reconcile.stampManifestProvenance b "bundle_provenance" BundleProvenanceRetrospective) in
      Ok (b, true)
  end.

(** The checkpoint manager, with the checkpoint loaded, and checked if the import goes on from it. *)
Definition checkpoint_for_import (w : import_world) (opts : ImportOptions) : result import_failure Checkpoint.CheckpointManager :=
  let id := o_SourceIdentity opts in
  let sourceIdentity :=
    if negb (String.eqb (SourceIdentity.System id) "") || negb (String.eqb (SourceIdentity.RecordID id) "") then id
    else SourceIdentity.mk "chatlog" (InputPath opts) true in
  let cm := Checkpoint.mkManager None "chatlog" (InputPath opts) adapter_name "1.0.0" (o_SourceIncarnation opts) sourceIdentity in
  match Checkpoint.LoadOrInitialize (w_start w) (w_checkpoint w) cm with
  | (_, Err e) => Err (IFCheckpoint e)
  | (cm, Ok _) =>
      if Continue opts || o_Reconcile opts then let? _ := map_err IFSource (Checkpoint.ValidateSource cm) in Ok cm else Ok cm
  end.

Definition read_input (w : import_world) (opts : ImportOptions) : result import_failure (list ChatMessage) :=
  match w_input w with
  | InMissing => Err IFInputMissing
  | InRefused => Err IFInputRefused
  | InReads chunks fails =>
      let '(data, e) := capped_read (MaxInputBytes opts) 0 chunks fails in
      map_err IFParse (ParseChatlog (Format opts) data e)
  end.

(** From the events to the files; the bundle is saved before the checkpoint. *)
Definition import_mapped (w : import_world) (opts : ImportOptions) (cm : Checkpoint.CheckpointManager) (mapped : MappingResult) (unknown : list nat) : import_done :=
  match load_for_import w with
  | Err e => import_fails e
  | Ok (b, created) =>
      let evs := map import_event (Events mapped) in
      let position := "exchange:" +:+ show_int (Reconcile.uniqueSourceRecords (Reconcile.stampAcquisitionStream evs (InputPath opts))) in
      match Reconcile.import_events (w_now w) (InputPath opts) (Continue opts) (o_Reconcile opts) created b cm position evs with
      | Err e => import_fails (IFImport e)
      | Ok (b', c, cm') =>
          if w_save_fails w then import_fails IFSave
          else if w_checkpoint_save_fails w then mkDone (Some b') None (Err IFCheckpointSave)
          else
            mkDone (Some b') (Some cm')
              (Ok (mkResult (Reconcile.written c) (SkippedRecords mapped + Reconcile.unchanged c) (Reconcile.written c)
                     (Reconcile.newCount c) (Reconcile.changed c) (Reconcile.unchanged c) (Reconcile.unknown c)
                     (o_BundlePath opts) (checkpoint_path opts) unknown))
      end
  end.

Definition ImportChatlog (w : import_world) (opts : ImportOptions) : import_done :=
  if String.eqb (o_BundlePath opts) "" then import_fails IFNoBundlePath
  else if String.eqb (InputPath opts) "" then import_fails IFNoInputPath
  else if w_mkdir_fails w then import_fails IFMkdir
  else
    match checkpoint_for_import w opts with
    | Err e => import_fails e
    | Ok cm =>
        match read_input w opts with
        | Err e => import_fails e
        | Ok messages =>
            match map_known (w_clock w) messages with
            | Err e => import_fails (IFMap e)
            | Ok (mapped, unknown) => import_mapped w opts cm mapped unknown
            end
        end
    end.
End import.

(** ** No raw line holds a newline *)

(** What a parser leaves is part of what it was given. *)
Lemma sub_cons (c : ascii) (t s : bytes) : t ⊆ s -> t ⊆ c :: s.
Proof. intros H x Hx. by apply list_elem_of_further, H. Qed.

#[local] Ltac within := first [reflexivity|eassumption|apply sub_cons; within|etransitivity; [eassumption|within]].

Lemma skip_ws_within s : skip_ws s ⊆ s.
Proof. induction s as [|c s IH]; [done|]. cbn [skip_ws]. destruct (is_ws c); [|done]. within. Qed.

Lemma skip_ws_cons c t s : skip_ws s = c :: t -> t ⊆ s.
Proof. intros E. pose proof (skip_ws_within s) as H. rewrite E in H. etransitivity; [|exact H]. within. Qed.

Lemma push_within x r y t : push x r = Some (y, t) -> exists y', r = Some (y', t).
Proof. unfold push. destruct r as [[y' t']|]; [|done]. intros [= _ <-]. by exists y'. Qed.

Lemma unescape_within n : forall s x t, (length s <= n)%nat -> unescape s = Some (x, t) -> t ⊆ s.
Proof.
  induction n as [|n IH]; intros [|c s] x t Hn H; cbn in Hn; try done; try lia. cbn [unescape] in H.
  assert (forall y u, (length u <= n)%nat -> u ⊆ s -> push y (unescape u) = Some (x, t) -> t ⊆ c :: s) as Hrec.
  { intros y u Hl Hu [y' Hp]%push_within. specialize (IH _ _ _ Hl Hp). within. }
  destruct (code c =? 34); [injection H as _ <-; within|].
  destruct (code c =? 92).
  - destruct s as [|e s]; [done|]. cbn in Hn. destruct (code e =? 117).
    + destruct s as [|x1 [|x2 [|x3 [|x4 s]]]]; try done. cbn in Hn. destruct (hex4 x1 x2 x3 x4) as [r|]; [|done].
      destruct (is_surrogate r); [|refine (Hrec _ _ _ _ H); [cbn in *; lia|within]].
      destruct s as [|s1 [|s2 [|y1 [|y2 [|y3 [|y4 s]]]]]]; try (refine (Hrec _ _ _ _ H); [cbn in *; lia|within]).
      revert H; case_match; intros Hp; refine (Hrec _ _ _ _ Hp); first [cbn in *; lia|within].
    + destruct (simple_escape e); [|done]. refine (Hrec _ _ _ _ H); [cbn; lia|within].
  - destruct (code c <? 32); [done|]. refine (Hrec _ _ _ _ H); [lia|done].
Qed.

Lemma parse_string_within s x t : parse_string s = Some (x, t) -> t ⊆ s.
Proof.
  unfold parse_string. destruct (unescape s) as [[y u]|] eqn:E; [|done]. intros [= _ <-]. by apply (unescape_within _ _ _ _ (le_n _) E).
Qed.

Lemma span_digits_within s : (GoJson.span_digits s).2 ⊆ s.
Proof.
  induction s as [|c s IH]; [done|]. cbn [GoJson.span_digits]. destruct (is_digit c); [|done]. destruct (GoJson.span_digits s). cbn [snd] in *. within.
Qed.

Lemma parse_num_within s n t : parse_num s = Some (n, t) -> t ⊆ s.
Proof.
  unfold parse_num. assert (forall s, exists ds u, GoJson.span_digits s = (ds, u) /\ u ⊆ s) as Hsp.
  { intros u. pose proof (span_digits_within u) as H. destruct (GoJson.span_digits u) as [ds v]. by exists ds, v. }
  assert (forall u f v, parse_frac u = Some (f, v) -> v ⊆ u) as Hfrac.
  { intros [|c u] f v; [by intros [= _ <-]|]. cbv beta iota delta [parse_frac]. destruct (bool_decide (c = dot_byte)); [|by intros [= _ <-]].
    destruct (Hsp u) as (ds & r & -> & Hr). case_bool_decide; [|done]. intros [= _ <-]. within. }
  assert (forall u f v, parse_exp u = Some (f, v) -> v ⊆ u) as Hexp.
  { intros [|c u] f v; [by intros [= _ <-]|]. unfold parse_exp. destruct (bool_decide (c = "e"%char \/ c = "E"%char)); [|by intros [= _ <-]].
    assert (exists sg w, match u with [] => (None, u) | d :: t1 => if bool_decide (d = minus_byte \/ d = plus_byte) then (Some d, t1) else (None, u) end = (sg, w) /\ w ⊆ u)
      as (sg & w & -> & Hw). { destruct u as [|d u]; [by exists None, []|]. case_bool_decide; [exists (Some d), u|exists None, (d :: u)]; (split; [done|within]). }
    destruct (Hsp w) as (ds & r & -> & Hr). case_bool_decide; [|done]. intros [= _ <-]. within. }
  assert (exists neg s1, match s with [] => (false, s) | c :: t => if bool_decide (c = minus_byte) then (true, t) else (false, s) end = (neg, s1) /\ s1 ⊆ s)
    as (neg & s1 & -> & H1). { destruct s as [|d s]; [by exists false, []|]. destruct (bool_decide (d = minus_byte)); [exists true, s|exists false, (d :: s)]; (split; [reflexivity|within]). }
  destruct (Hsp s1) as (ds & s2 & -> & H2). destruct (wf_int ds); [|done].
  destruct (parse_frac s2) as [[fr s3]|] eqn:E3; [|done]. cbn. destruct (parse_exp s3) as [[ex s4]|] eqn:E4; [|done].
  cbn. intros [= _ <-]. apply Hfrac in E3. apply Hexp in E4. within.
Qed.

Lemma eat_within lit v s x t : eat lit v s = Some (x, t) -> t ⊆ s.
Proof. unfold eat. case_bool_decide; [|done]. intros [= _ <-]. intros y Hy. rewrite <- (take_drop (length lit) s). apply elem_of_app. by right. Qed.

Section nested.
Variable pv : bytes -> option (json * bytes).
Hypothesis Hpv : forall s v t, pv s = Some (v, t) -> t ⊆ s.

Lemma parse_elems_within fuel : forall s vs t, parse_elems pv fuel s = Some (vs, t) -> t ⊆ s.
Proof.
  induction fuel as [|fuel IH]; intros s vs t; [done|]. cbn [parse_elems]. destruct (pv s) as [[v s1]|] eqn:E; [|done].
  apply Hpv in E. cbn. destruct (skip_ws s1) as [|c s2] eqn:Ews; [done|]. apply skip_ws_cons in Ews. destruct (code c =? 44).
  - destruct (parse_elems pv fuel s2) as [[vs' s3]|] eqn:E2; [|done]. intros [= _ <-]. apply IH in E2. within.
  - destruct (code c =? 93); [|done]. intros [= _ <-]. within.
Qed.

Lemma parse_member_within s kv t : parse_member pv s = Some (kv, t) -> t ⊆ s.
Proof.
  unfold parse_member. destruct (skip_ws s) as [|q s1] eqn:E; [done|]. apply skip_ws_cons in E. destruct (code q =? 34); [|done].
  destruct (parse_string s1) as [[k s2]|] eqn:E1; [|done]. apply parse_string_within in E1. cbn.
  destruct (skip_ws s2) as [|c s3] eqn:E2; [done|]. apply skip_ws_cons in E2. destruct (code c =? 58); [|done].
  destruct (pv s3) as [[v s4]|] eqn:E3; [|done]. intros [= _ <-]. apply Hpv in E3. within.
Qed.

Lemma parse_members_within fuel : forall s kvs t, parse_members pv fuel s = Some (kvs, t) -> t ⊆ s.
Proof.
  induction fuel as [|fuel IH]; intros s vs t; [done|]. cbn [parse_members]. destruct (parse_member pv s) as [[v s1]|] eqn:E; [|done].
  apply parse_member_within in E. cbn. destruct (skip_ws s1) as [|c s2] eqn:Ews; [done|]. apply skip_ws_cons in Ews. destruct (code c =? 44).
  - destruct (parse_members pv fuel s2) as [[vs' s3]|] eqn:E2; [|done]. intros [= _ <-]. apply IH in E2. within.
  - destruct (code c =? 125); [|done]. intros [= _ <-]. within.
Qed.
End nested.

Lemma parse_value_within d : forall s v t, parse_value d s = Some (v, t) -> t ⊆ s.
Proof.
  induction d as [|d IH]; intros s v t H; cbn [parse_value] in H; destruct (skip_ws s) as [|c u] eqn:E; try done; pose proof (skip_ws_cons _ _ _ E) as Hu.
  all: assert (c :: u ⊆ s) as Hcu by (rewrite <- E; apply skip_ws_within).
  all: destruct (code c =? 123); [|destruct (code c =? 91)]; try done.
  all: try (destruct (skip_ws u) as [|c' u'] eqn:E'; [done|]; apply skip_ws_cons in E').
  all: repeat match type of H with (if ?b then _ else _) = _ => destruct b end.
  all: try (apply eat_within in H; within).
  all: try (injection H as _ <-; within).
  all: try (destruct (parse_members _ _ _) as [[kvs r]|] eqn:E2; [|done]; cbn in H; injection H as _ <-; apply (parse_members_within _ IH) in E2; within).
  all: try (destruct (parse_elems _ _ _) as [[kvs r]|] eqn:E2; [|done]; cbn in H; injection H as _ <-; apply (parse_elems_within _ IH) in E2; within).
  all: try (destruct (parse_string u) as [[x r]|] eqn:E2; [|done]; cbn in H; injection H as _ <-; apply parse_string_within in E2; within).
  all: destruct (parse_num _) as [[x r]|] eqn:E2; [|done]; cbn in H; injection H as _ <-; apply parse_num_within in E2; within.
Qed.

Definition single_line (s : string) : Prop := BundleIO.newline ∉ B s.

Lemma index_byte_spec c d :
  match BundleIO.index_byte c d with
  | Some i => exists p t, c ∉ p /\ length p = i /\ d = p ++ c :: t
  | None => c ∉ d
  end.
Proof.
  induction d as [|x d IH]; cbn [BundleIO.index_byte]; [apply not_elem_of_nil|]. case_bool_decide as E.
  - exists [], d. subst. split_and!; [apply not_elem_of_nil|done|done].
  - destruct (BundleIO.index_byte c d) as [i|]; cbn.
    + destruct IH as (p & t & Hp & <- & ->). exists (x :: p), t. split_and!; [|done|done]. apply not_elem_of_cons. split; [congruence|done].
    + apply not_elem_of_cons. split; [congruence|done].
Qed.

Lemma raw_lines_single data : Forall (fun l => BundleIO.newline ∉ BundleIO.strip_line l) (BundleIO.raw_lines data).
Proof.
  unfold BundleIO.raw_lines. generalize (length data) as fuel. intros fuel. revert data.
  assert (forall l, BundleIO.newline ∉ BundleIO.strip_last BundleIO.newline l -> BundleIO.newline ∉ BundleIO.strip_line l) as Hcr.
  { intros l Hl. unfold BundleIO.strip_line. set (l' := BundleIO.strip_last _ l) in *. unfold BundleIO.strip_last. case_bool_decide as E; [|done].
    destruct (exists_last (l := l')) as (p & x & Ep); [by intros ->|]. rewrite Ep, removelast_last. rewrite Ep in Hl. set_solver. }
  induction fuel as [|fuel IH]; intros data; cbn [BundleIO.raw_lines_fuel]; [constructor|]. unfold BundleIO.scanRawLines.
  pose proof (index_byte_spec BundleIO.newline data) as H. destruct (BundleIO.index_byte BundleIO.newline data) as [i|].
  - destruct H as (p & t & Hp & <- & ->). constructor; [|apply IH]. apply Hcr.
    replace (take (S (length p)) (p ++ BundleIO.newline :: t)) with (p ++ [BundleIO.newline])
      by (rewrite (cons_middle BundleIO.newline p t), app_assoc, take_app_length' by (rewrite length_app; cbn; lia); done).
    unfold BundleIO.strip_last. rewrite last_snoc, bool_decide_true by done. by rewrite removelast_last.
  - cbn [andb]. destruct (negb _); [|constructor]. constructor; [|apply IH]. apply Hcr. unfold BundleIO.strip_last. case_bool_decide as E; [|done].
    apply last_Some in E as [q ->]. set_solver.
Qed.

Lemma TrimSpace_within s : B (TrimSpace s) ⊆ B s.
Proof.
  unfold TrimSpace. rewrite B_S_of. assert (forall l : list (Z * bytes), drop_spaces l ⊆ l) as Hd.
  { induction l as [|[r bs] l IH]; [done|]. cbn [drop_spaces]. destruct (is_space r); [|done]. set_solver. }
  intros x Hx. rewrite <- (concat_chunks (B s)). apply list_elem_of_join in Hx as (l & Hx & Hl). apply list_elem_of_join.
  exists l. split; [done|]. apply list_elem_of_fmap in Hl as (p & -> & Hp). apply list_elem_of_fmap. exists p. split; [done|].
  apply elem_of_reverse, Hd, elem_of_reverse, Hd in Hp. exact Hp.
Qed.

Section raw.
Context `{Unicode}.

Lemma raw_elems_within fuel : forall s raws t, raw_elems fuel s = Some (raws, t) -> Forall (fun raw => raw ⊆ s) raws /\ t ⊆ s.
Proof.
  induction fuel as [|fuel IH]; intros s raws t; [done|]. cbn [raw_elems].
  destruct (parse_value _ s) as [[v s1]|] eqn:E; [|done]. apply parse_value_within in E. cbn [mbind option_bind].
  assert (take (length (skip_ws s) - length s1) (skip_ws s) ⊆ s) as Ht.
  { intros x Hx. apply (skip_ws_within s). rewrite <- (take_drop (length (skip_ws s) - length s1) (skip_ws s)). apply elem_of_app. by left. }
  destruct (skip_ws s1) as [|c s2] eqn:E2; [done|]. apply skip_ws_cons in E2. assert (s2 ⊆ s) as H2 by (etransitivity; [exact E2|exact E]).
  destruct (code c =? 44).
  - destruct (raw_elems fuel s2) as [[raws' s3]|] eqn:E3; [|done]. cbn. intros [= <- <-]. destruct (IH _ _ _ E3) as [HF Hs].
    split; [|etransitivity; [exact Hs|exact H2]]. constructor; [done|]. eapply Forall_impl; [exact HF|]. intros r Hr. etransitivity; [exact Hr|exact H2].
  - destruct (code c =? 93); [|done]. intros [= <- <-]. split; [constructor; [exact Ht|constructor]|done].
Qed.

Lemma raw_array_within s raws : raw_array s = Some raws -> Forall (fun raw => raw ⊆ s) raws.
Proof.
  unfold raw_array. destruct s as [|c s]; [done|]. destruct (skip_ws s) as [|c' s'] eqn:E; [done|]. destruct (code c' =? 93).
  - destruct (skip_ws s'); [|done]. intros [= <-]. constructor.
  - destruct (raw_elems (length s) s) as [[raws' r]|] eqn:E2; [|done]. cbn. destruct (skip_ws r); [|done]. intros [= <-].
    apply raw_elems_within in E2 as [HF _]. eapply Forall_impl; [exact HF|]. intros raw Hr. by apply sub_cons.
Qed.

Lemma parseRaw_line line raw m : parseRawChatMessage line raw = Ok m -> RawLine m = S_of raw.
Proof.
  unfold parseRawChatMessage. destruct (json_parse raw ≫= decode_message) as [input|]; [|done]. unfold normaliseRawChatMessage.
  destruct (negb _); [by intros [= <-]|]. destruct (String.eqb _ ""); [done|]. destruct (String.eqb _ ""); [done|].
  destruct (parse_rfc3339 _); [|done]. destruct (_ && _); [done|]. by intros [= <-].
Qed.

Definition single (m : ChatMessage) : Prop := single_line (RawLine m).

Lemma parse_entries_single line (s : bytes) entries ms :
  BundleIO.newline ∉ s -> Forall (fun raw => raw ⊆ s) entries -> parse_entries line entries = Ok ms -> Forall single ms.
Proof.
  intros Hs HF. revert ms. induction HF as [|e entries He _ IH]; intros ms; cbn [parse_entries]; [by intros [= <-]|].
  destruct (parseRawChatMessage line e) as [m|] eqn:Em; [|done]. destruct (parse_entries line entries) as [ms'|]; [|done].
  intros [= <-]. constructor; [|by apply IH]. unfold single, single_line. rewrite (parseRaw_line _ _ _ Em), B_S_of. set_solver.
Qed.

Lemma parse_line_single line rawLine ms : single_line rawLine -> parse_line line rawLine = Ok ms -> Forall single ms.
Proof.
  unfold single_line, parse_line. intros Hs. destruct (B rawLine) as [|c t] eqn:E; [by intros [= <-]|]. destruct (bool_decide (c = "["%char)).
  - destruct (raw_array (c :: t)) as [entries|] eqn:Er; [|done]. apply raw_array_within in Er. by apply (parse_entries_single _ (c :: t)).
  - destruct (parseRawChatMessage line (c :: t)) as [m|] eqn:Em; [|done]. intros [= <-]. constructor; [|constructor].
    unfold single, single_line. by rewrite (parseRaw_line _ _ _ Em), B_S_of.
Qed.

Lemma parse_lines_single : forall ls line ms, Forall (fun l => BundleIO.newline ∉ BundleIO.strip_line l) ls -> parse_lines line ls = Ok ms -> Forall single ms.
Proof.
  induction ls as [|l ls IH]; intros line ms HF; cbn [parse_lines]; [by intros [= <-]|]. apply Forall_cons in HF as [Hl HF].
  destruct (BundleIO.scan_too_long _ _); [done|]. destruct (parse_line line _) as [ms1|] eqn:E1; [|done].
  destruct (parse_lines (line + 1) ls) as [ms2|] eqn:E2; [|done]. intros [= <-]. apply Forall_app. split; [|by eapply IH].
  eapply parse_line_single; [|exact E1]. unfold single_line. intros Hin. apply TrimSpace_within in Hin. rewrite B_S_of in Hin. done.
Qed.

Lemma ParseChatlog_single format data fails ms : ParseChatlog format data fails = Ok ms -> Forall single ms.
Proof.
  unfold ParseChatlog, ParseGenericJSONL. destruct (_ || _); [|done]. destruct (parse_lines 1 _) as [ms'|] eqn:E; [|done].
  destruct fails; [done|]. intros [= <-]. eapply parse_lines_single; [apply raw_lines_single|exact E].
Qed.
End raw.

(** Lines without newlines are determined by what joins them. *)
Lemma split_newline (x y u v : bytes) : BundleIO.newline ∉ x -> BundleIO.newline ∉ y -> x ++ BundleIO.newline :: u = y ++ BundleIO.newline :: v -> x = y /\ u = v.
Proof. apply Reconcile.app_split_at. Qed.

Lemma join_cons x y l : B (strings_Join (x :: y :: l) newline_sep) = B x ++ BundleIO.newline :: B (strings_Join (y :: l) newline_sep).
Proof. cbn [strings_Join]. rewrite !B_app. unfold newline_sep. by rewrite B_S_of. Qed.

Lemma join_lines_inj : forall l l', l <> [] -> l' <> [] -> Forall single_line l -> Forall single_line l' ->
  strings_Join l newline_sep = strings_Join l' newline_sep -> l = l'.
Proof.
  induction l as [|x l IH]; intros l' Hl Hl' HF HF' E; [done|]. destruct l' as [|x' l']; [done|].
  apply Forall_cons in HF as [Hx HF], HF' as [Hx' HF']. unfold single_line in *.
  destruct l as [|y l], l' as [|y' l'].
  - cbn in E. by subst.
  - exfalso. apply Hx. apply (f_equal B) in E. rewrite join_cons in E. change (strings_Join [x] newline_sep) with x in E. rewrite E. set_solver.
  - exfalso. apply Hx'. apply (f_equal B) in E. rewrite join_cons in E. change (strings_Join [x'] newline_sep) with x' in E. rewrite <- E. set_solver.
  - apply (f_equal B) in E. rewrite !join_cons in E. apply split_newline in E as [Ex E]; [|done..]. apply B_inj in Ex, E. subst x'.
    f_equal. by apply IH.
Qed.

(** ** The identity of a turn *)

Definition turn_id (namespace : string) (st : exchange_state) (m : ChatMessage) : string :=
  if String.eqb (Role m) "user" then if String.eqb (RequestID m) "" then generatedRequestID namespace (counter st + 1) else RequestID m
  else if String.eqb (Role m) "assistant" || String.eqb (Role m) "tool" then current st else "".

Definition start_exchange : exchange_state := mkExchange 0 "" [] ∅.
Definition exchanges (namespace : string) (ms : list ChatMessage) : exchange_state := fold_left (exchange_step namespace) ms start_exchange.

(** The lines of the turns that have an identity. *)
Definition source_lines (ms : list ChatMessage) (id : string) : list string :=
  omap (fun p => if String.eqb p.2 id then Some (RawLine p.1) else None) (zip ms (exchangeIdentities ms).1).

Lemma generated_nonempty ns n : generatedRequestID ns n <> "".
Proof. unfold generatedRequestID. done. Qed.

Lemma step_ids ns st m : ids (exchange_step ns st m) = ids st ++ [turn_id ns st m].
Proof. unfold exchange_step, turn_id. destruct (String.eqb (Role m) "user"); [done|]. by destruct (_ || _). Qed.

Lemma step_lines ns st m id : id <> "" ->
  default [] (lines (exchange_step ns st m) !! id) =
  default [] (lines st !! id) ++ (if String.eqb (turn_id ns st m) id then [RawLine m] else []).
Proof.
  intros Hid. unfold exchange_step, turn_id. assert (forall key, default [] (add_line key (RawLine m) (lines st) !! id) =
    default [] (lines st !! id) ++ (if String.eqb key id then [RawLine m] else [])) as Hadd.
  { intros key. unfold add_line. destruct (String.eqb_spec key id) as [->|Hne]; [by rewrite lookup_insert_eq|].
    by rewrite lookup_insert_ne, app_nil_r. }
  destruct (String.eqb (Role m) "user"); [apply Hadd|]. destruct (_ || _); cbn [lines].
  - destruct (String.eqb_spec (current st) "") as [->|Hne]; [|apply Hadd].
    destruct (String.eqb_spec "" id); [congruence|by rewrite app_nil_r].
  - destruct (String.eqb_spec "" id); [congruence|by rewrite app_nil_r].
Qed.

Lemma fold_ids ns ms : forall st, exists X, ids (fold_left (exchange_step ns) ms st) = ids st ++ X /\ length X = length ms.
Proof.
  induction ms as [|m ms IH]; intros st; cbn [fold_left]; [exists []; by rewrite app_nil_r|].
  destruct (IH (exchange_step ns st m)) as (X & -> & Hl). rewrite step_ids. exists (turn_id ns st m :: X). rewrite <- app_assoc. cbn. by rewrite Hl.
Qed.

Lemma exchanges_ids ns ms : length (ids (exchanges ns ms)) = length ms.
Proof. destruct (fold_ids ns ms start_exchange) as (X & E & Hl). unfold exchanges. by rewrite E. Qed.

Lemma exchanges_snoc ns ms m : exchanges ns (ms ++ [m]) = exchange_step ns (exchanges ns ms) m.
Proof. unfold exchanges. by rewrite fold_left_app. Qed.

Lemma exchange_lines ns ms id : id <> "" ->
  default [] (lines (exchanges ns ms) !! id) =
  omap (fun p => if String.eqb p.2 id then Some (RawLine p.1) else None) (zip ms (ids (exchanges ns ms))).
Proof.
  intros Hid. induction ms as [|m ms IH] using rev_ind; [done|]. rewrite exchanges_snoc, step_lines, step_ids, IH by done.
  rewrite zip_with_app by (by rewrite exchanges_ids). rewrite omap_app. f_equal. cbn. by destruct (String.eqb _ id).
Qed.

Lemma source_lines_spec ms id : id <> "" -> default [] (lines (exchanges (chatNamespace ms) ms) !! id) = source_lines ms id.
Proof. intros Hid. rewrite exchange_lines by done. done. Qed.

(** Identities stay once they have lines, and the current one has some. *)
Lemma step_present ns st m id : is_Some (lines st !! id) -> is_Some (lines (exchange_step ns st m) !! id).
Proof.
  intros Hs. assert (forall key l, is_Some (add_line key l (lines st) !! id)) as Hadd.
  { intros key l. unfold add_line. destruct (decide (key = id)) as [->|Hne]; [by rewrite lookup_insert_eq|by rewrite lookup_insert_ne]. }
  unfold exchange_step. destruct (String.eqb (Role m) "user"); [apply Hadd|]. destruct (_ || _); cbn [lines]; [|done].
  by destruct (String.eqb (current st) "").
Qed.

Lemma fold_present ns ms id : forall st, is_Some (lines st !! id) -> is_Some (lines (fold_left (exchange_step ns) ms st) !! id).
Proof. induction ms as [|m ms IH]; intros st Hs; [done|]. cbn. by apply IH, step_present. Qed.

Definition open_exchange (st : exchange_state) : Prop := current st <> "" -> is_Some (lines st !! current st).

Lemma step_open ns st m : open_exchange st -> open_exchange (exchange_step ns st m).
Proof.
  unfold open_exchange. intros H Hne. unfold exchange_step in *. destruct (String.eqb (Role m) "user"); cbn [current lines] in *.
  - unfold add_line. by rewrite lookup_insert_eq.
  - destruct (_ || _); cbn [current lines] in *; [|by apply H]. destruct (String.eqb (current st) ""); [by apply H|].
    unfold add_line. by rewrite lookup_insert_eq.
Qed.

(** ** What an event carries *)

Definition carries (final : exchange_state) (e : EventSpec) : Prop :=
  let a := s_Acquisition e in
  AcquisitionInfo.SourceSystem a = "chatlog" /\ AcquisitionInfo.SourceRecordID a <> "" /\
  assoc "request_id" (Data e) = Some (AString (AcquisitionInfo.SourceRecordID a)) /\
  exists l, lines final !! AcquisitionInfo.SourceRecordID a = Some l /\ AcquisitionInfo.SourceDigest a = lines_digest l.

Section events.
Context `{Unicode}.
Variable clock : nat -> string.
Variable ns : string.
Variable final : exchange_state.

Lemma emit_carries id m ty data es l :
  Forall (carries final) es -> id <> "" -> assoc "request_id" data = Some (AString id) -> lines final !! id = Some l ->
  Forall (carries final) (emit clock id (lines_digest l) m ty data es).
Proof.
  intros Hes Hid Hd Hl. unfold emit. apply Forall_app. split; [done|]. constructor; [|constructor].
  unfold carries. cbn. split_and!; [done|done| |by exists l].
  assert (forall rest, assoc "request_id" (data ++ rest) = Some (AString id)) as Happ; [|apply Happ].
  intros rest. revert Hd. generalize "request_id". intros key. induction data as [|[k v] data IH]; [done|]. cbn [assoc app]. by destruct (String.eqb _ _).
Qed.

Definition in_step (ex : exchange_state) (st : map_state) : Prop :=
  counter ex = requestCounter st /\ current ex = currentRequestID st.

Lemma user_step ex m : Role m = "user" ->
  exchange_step ns ex m = mkExchange (counter ex + 1) (turn_id ns ex m) (ids ex ++ [turn_id ns ex m]) (add_line (turn_id ns ex m) (RawLine m) (lines ex)) /\
  turn_id ns ex m = (if String.eqb (RequestID m) "" then generatedRequestID ns (counter ex + 1) else RequestID m).
Proof. unfold exchange_step, turn_id. intros ->. by split. Qed.

Lemma reply_step ex m : Role m = "assistant" \/ Role m = "tool" ->
  counter (exchange_step ns ex m) = counter ex /\ current (exchange_step ns ex m) = current ex /\ turn_id ns ex m = current ex.
Proof. unfold exchange_step, turn_id. intros [-> | ->]; by split_and!. Qed.

Lemma system_step ex m : Role m = "system" ->
  counter (exchange_step ns ex m) = counter ex /\ current (exchange_step ns ex m) = current ex.
Proof. unfold exchange_step. intros ->. by split. Qed.

Lemma turn_carries m ex st index digest st' :
  open_exchange (exchange_step ns ex m) -> in_step ex st -> Forall (carries final) (events st) ->
  (forall l, lines final !! turn_id ns ex m = Some l -> digest = lines_digest l) ->
  (is_Some (lines (exchange_step ns ex m) !! turn_id ns ex m) -> is_Some (lines final !! turn_id ns ex m)) ->
  map_turn clock ns index (turn_id ns ex m) digest m st = Ok st' ->
  in_step (exchange_step ns ex m) st' /\ Forall (carries final) (events st').
Proof.
  intros Hopen [Hc Hcur] Hes Hdig Hfin. unfold map_turn, open_exchange, in_step in *.
  destruct (String.eqb_spec (Role m) "system") as [E|_].
  { destruct (system_step ex m E) as [-> ->]. intros Hst%Ok_inj. subst st'. by split. }
  destruct (String.eqb_spec (Role m) "user") as [E|Hu].
  - destruct (user_step ex m E) as [Hst Hid]. rewrite Hst in *. cbn [counter current lines] in *. intros H1%Ok_inj. subst st'.
    assert (turn_id ns ex m <> "") as Hne.
    { rewrite Hid. destruct (String.eqb_spec (RequestID m) ""); [apply generated_nonempty|done]. }
    destruct Hfin as [l Hl]; [by apply Hopen|]. rewrite (Hdig l Hl). unfold map_user. rewrite <- Hc, <- Hid.
    split; [by split|]. cbn [events]. by apply emit_carries.
  - assert (Role m = "assistant" \/ Role m = "tool" -> current ex <> "" -> forall ty data es, Forall (carries final) es ->
      assoc "request_id" data = Some (AString (current ex)) -> Forall (carries final) (emit clock (turn_id ns ex m) digest m ty data es)) as Hemit.
    { intros Hr Hne ty data es Hes' Hd. destruct (reply_step ex m Hr) as (_ & E2 & E3). rewrite E3 in *. rewrite E2 in Hopen.
      destruct Hfin as [l Hl]; [by apply Hopen|]. rewrite (Hdig l Hl). by apply emit_carries. }
    destruct (String.eqb_spec (Role m) "tool") as [E|Ht].
    + destruct (reply_step ex m) as (-> & -> & _); [by right|]. specialize (Hemit (or_intror E)). unfold map_tool. rewrite Hcur in *.
      destruct (String.eqb_spec (currentRequestID st) "") as [|Hne]; [done|]. destruct (decodeToolArgs (ToolArgs m)) as [[value text]|]; [|done].
      intros H1%Ok_inj. subst st'. unfold with_prompt. cbn [events requestCounter currentRequestID]. split; [by split|]. by apply Hemit.
    + destruct (String.eqb_spec (Role m) "assistant") as [E|Ha]; [|done]. destruct (reply_step ex m) as (-> & -> & _); [by left|].
      specialize (Hemit (or_introl E)). unfold map_assistant. rewrite Hcur in *.
      destruct (String.eqb_spec (currentRequestID st) "") as [|Hne]; [done|]. intros H1%Ok_inj. subst st'.
      unfold with_prompt. cbn [events requestCounter currentRequestID]. split; [by split|]. apply Hemit; [done| |done].
      destruct (String.eqb (Model m) ""); [done|]. apply Hemit; [done| |done]. by apply Hemit.
Qed.

Lemma map_turns_carry rest : forall ex st st',
  final = fold_left (exchange_step ns) rest ex -> open_exchange ex -> in_step ex st -> Forall (carries final) (events st) ->
  map_turns clock ns (ids final) (lines_digest <$> lines final) (length (ids ex)) rest st = Ok st' -> Forall (carries final) (events st').
Proof.
  induction rest as [|m rest IH]; intros ex st st' Hfin Ho Hin Hes; cbn [map_turns]; [by intros [= <-]|]. cbn [fold_left] in Hfin.
  assert (ids final !! length (ids ex) = Some (turn_id ns ex m)) as Hid.
  { destruct (fold_ids ns rest (exchange_step ns ex m)) as (X & E & _). rewrite <- Hfin, step_ids, <- app_assoc in E. rewrite E.
    by rewrite lookup_app_r, Nat.sub_diag by lia. }
  rewrite Hid. cbn [default from_option id]. destruct (map_turn _ _ _ _ _ _ _) as [st1|] eqn:Em; [|done]. intros Hr.
  eapply turn_carries in Em as [Hin' Hes']; [|by apply step_open|exact Hin|exact Hes| |].
  - eapply IH; [exact Hfin|by apply step_open|exact Hin'|exact Hes'|]. rewrite step_ids, length_app. cbn [length].
    replace (length (ids ex) + 1)%nat with (S (length (ids ex))) by lia. exact Hr.
  - intros l Hl. rewrite lookup_fmap, Hl. done.
  - intros Hs. rewrite Hfin. by apply fold_present.
Qed.
End events.

Lemma mapped_carry `{Unicode} clock ms r :
  MapMessagesToEvents clock ms = Ok r -> Forall (carries (exchanges (chatNamespace ms) ms)) (Events r).
Proof.
  unfold MapMessagesToEvents, mapMessagesToEventsInner, exchangeIdentities. fold start_exchange.
  change (fold_left (exchange_step (chatNamespace ms)) ms start_exchange) with (exchanges (chatNamespace ms) ms). cbv zeta.
  destruct (map_turns _ _ _ _ _ _ _) as [st|] eqn:E; [|done]. intros Hr%Ok_inj. subst r. cbn [Events].
  refine (map_turns_carry clock (chatNamespace ms) (exchanges (chatNamespace ms) ms) ms start_exchange start_map st eq_refl _ _ _ E); [by intros []|by split|constructor].
Qed.

(** ** The clock only shows in the times *)

Definition same_event (e e' : EventSpec) : Prop :=
  Type_ e = Type_ e' /\ Data e = Data e' /\ s_Timestamp e = s_Timestamp e' /\
  AcquisitionInfo.SourceSystem (s_Acquisition e) = AcquisitionInfo.SourceSystem (s_Acquisition e') /\
  AcquisitionInfo.SourceRecordID (s_Acquisition e) = AcquisitionInfo.SourceRecordID (s_Acquisition e').

Definition same_state (st st' : map_state) : Prop :=
  promptWindow st = promptWindow st' /\ requestCounter st = requestCounter st' /\ currentRequestID st = currentRequestID st' /\
  skipped st = skipped st' /\ modelTurnSeen st = modelTurnSeen st' /\ Forall2 same_event (events st) (events st').

Definition both {E A} (R : A -> A -> Prop) (x y : result E A) : Prop :=
  match x, y with Ok a, Ok b => R a b | Err e, Err e' => e = e' | _, _ => False end.

Section clocks.
Context `{Unicode}.
Variables clock clock' : nat -> string.

Lemma emit_same id digest m ty data es es' : Forall2 same_event es es' -> Forall2 same_event (emit clock id digest m ty data es) (emit clock' id digest m ty data es').
Proof. intros HF. unfold emit. apply Forall2_app; [done|]. constructor; [|constructor]. unfold same_event. by split_and!. Qed.

Lemma map_turn_same ns index id digest m st st' :
  same_state st st' -> both same_state (map_turn clock ns index id digest m st) (map_turn clock' ns index id digest m st').
Proof.
  destruct st as [pw n cur es sk seen], st' as [pw' n' cur' es' sk' seen']. intros (H1 & H2 & H3 & H4 & H5 & HF).
  cbn [promptWindow requestCounter currentRequestID events skipped modelTurnSeen] in *. subst pw' n' cur' sk' seen'.
  unfold map_turn, map_user, map_tool, map_assistant, with_prompt. cbn [promptWindow requestCounter currentRequestID events skipped modelTurnSeen].
  destruct (String.eqb (Role m) "system"); [by split_and!|]. destruct (String.eqb (Role m) "user"); [split_and!; try done; by apply emit_same|].
  destruct (String.eqb (Role m) "tool").
  - destruct (String.eqb cur ""); [done|]. destruct (decodeToolArgs _) as [[v t]|]; [|done]. split_and!; try done. by apply emit_same.
  - destruct (String.eqb (Role m) "assistant"); [|done]. destruct (String.eqb cur ""); [done|]. split_and!; try done.
    apply emit_same. destruct (String.eqb (Model m) ""); [done|]. by do 2 apply emit_same.
Qed.

Lemma map_turns_same ns exchangeIDs digests ms : forall index st st',
  same_state st st' -> both same_state (map_turns clock ns exchangeIDs digests index ms st) (map_turns clock' ns exchangeIDs digests index ms st').
Proof.
  induction ms as [|m ms IH]; intros index st st' Hs; [done|]. cbn [map_turns]. cbv zeta.
  pose proof (map_turn_same ns index (default "" (exchangeIDs !! index)) (default "" (digests !! default "" (exchangeIDs !! index))) m st st' Hs) as H1.
  destruct (map_turn clock _ _ _ _ _ _), (map_turn clock' _ _ _ _ _ _); cbn [both] in H1; try done. by apply IH.
Qed.

Definition same_mapping (r r' : MappingResult) : Prop :=
  Forall2 same_event (Events r) (Events r') /\ SkippedRecords r = SkippedRecords r' /\ SuggestedProfileID r = SuggestedProfileID r'.

Lemma mapped_same ms : both same_mapping (MapMessagesToEvents clock ms) (MapMessagesToEvents clock' ms).
Proof.
  unfold MapMessagesToEvents, mapMessagesToEventsInner. destruct (exchangeIdentities ms) as [eids ds].
  assert (same_state start_map start_map) as Hs by (split_and!; try done; constructor).
  pose proof (map_turns_same (chatNamespace ms) eids ds ms 0 start_map start_map Hs) as Hm.
  destruct (map_turns clock _ _ _ _ _ _) as [st|], (map_turns clock' _ _ _ _ _ _) as [st'|]; cbn [both] in *; try done; try congruence.
  destruct Hm as (H1 & H2 & H3 & H4 & H5 & HF). unfold same_mapping. cbn [Events SkippedRecords SuggestedProfileID]. rewrite H4, H5. by split_and!.
Qed.

Lemma map_known_same ms : both (fun r r' => same_mapping r.1 r'.1 /\ r.2 = r'.2) (map_known clock ms) (map_known clock' ms).
Proof.
  unfold map_known. pose proof (mapped_same ms) as Hm.
  destruct (MapMessagesToEvents clock ms) as [r|e], (MapMessagesToEvents clock' ms) as [r'|e']; cbn [both] in Hm; try done. subst e'.
  destruct e; try done. destruct (FilterKnownTurns ms) as [ms' unknown]. pose proof (mapped_same ms') as Hm'.
  destruct (MapMessagesToEvents clock ms') as [r|e], (MapMessagesToEvents clock' ms') as [r'|e']; cbn [both] in *; [|done|done|done].
  destruct Hm' as (H1 & H2 & H3). cbn [fst snd]. unfold same_mapping. cbn [Events SkippedRecords SuggestedProfileID]. rewrite H2, H3. by split_and!.
Qed.
End clocks.

(** ** What an import knows of its source records *)

(** The digest that goes with a key of the reconciler. *)
Definition digest_of (final : exchange_state) (key : string) : string :=
  match lines final !! S_of (drop 8 (B key)) with Some l => lines_digest l | None => "" end.

Lemma carries_named final e : carries final e -> Reconcile.named (digest_of final) (import_event e).
Proof.
  intros (Hs & Hr & _ & l & Hl & Hd). exists (s_Acquisition e). split_and!; [done|by rewrite Hs|done|].
  unfold digest_of, Reconcile.acq_key. rewrite Hs. set (id := AcquisitionInfo.SourceRecordID _) in *.
  replace (S_of (drop 8 (B ("chatlog" +:+ ":" +:+ id)))) with id; [by rewrite Hl|].
  rewrite !B_app. change (drop 8 (B "chatlog" ++ B ":" ++ B id)) with (B id). by rewrite S_of_B.
Qed.

Lemma map_known_named `{Unicode} clock ms r unknown :
  map_known clock ms = Ok (r, unknown) -> exists final, forall clock' r' unknown', map_known clock' ms = Ok (r', unknown') ->
    Forall (Reconcile.named (digest_of final)) (map import_event (Events r')).
Proof.
  assert (forall ms clock' r', MapMessagesToEvents clock' ms = Ok r' ->
    Forall (Reconcile.named (digest_of (exchanges (chatNamespace ms) ms))) (map import_event (Events r'))) as Hm.
  { intros ms' clock' r' E. apply mapped_carry in E. apply Forall_fmap. eapply Forall_impl; [exact E|]. intros e. apply carries_named. }
  intros H1. exists (match MapMessagesToEvents clock ms with Ok _ => exchanges (chatNamespace ms) ms
    | Err _ => exchanges (chatNamespace (FilterKnownTurns ms).1) (FilterKnownTurns ms).1 end).
  intros clock' r' unknown' H2. unfold map_known in H2. pose proof (mapped_same clock clock' ms) as Hs.
  destruct (MapMessagesToEvents clock ms) as [r0|e], (MapMessagesToEvents clock' ms) as [r0'|e'] eqn:E'; cbn [both] in Hs; try done.
  - apply Ok_inj in H2. injection H2 as <- _. by apply (Hm ms clock').
  - destruct e'; try done. destruct (FilterKnownTurns ms) as [ms' un] eqn:Ef. cbn [fst].
    destruct (MapMessagesToEvents clock' ms') as [r1|] eqn:E1; [|done]. apply Ok_inj in H2. injection H2 as <- _. cbn [Events]. by apply (Hm ms' clock').
Qed.

Lemma same_up_to_date dg b es es' :
  Forall2 same_event es es' -> Forall (Reconcile.up_to_date dg b) (map import_event es) -> Forall (Reconcile.up_to_date dg b) (map import_event es').
Proof.
  induction 1 as [|e e' es es' (_ & _ & _ & Hs & Hr) _ IH]; [done|]. cbn [map]. intros [H1 H2]%Forall_cons. constructor; [|by apply IH].
  intros a Ha. injection Ha as <-. specialize (H1 _ eq_refl). unfold Reconcile.acq_key in *. by rewrite <- Hs, <- Hr.
Qed.

(** An exchange has a line. *)
Lemma exchanges_nonempty ns ms id l : lines (exchanges ns ms) !! id = Some l -> l <> [].
Proof.
  revert id l. induction ms as [|m ms IH] using rev_ind; intros id l; [done|]. rewrite exchanges_snoc. unfold exchange_step.
  assert (forall key x id l, add_line key x (lines (exchanges ns ms)) !! id = Some l -> l <> []) as Hadd.
  { intros key x i k. unfold add_line. destruct (decide (key = i)) as [->|Hne]; [rewrite lookup_insert_eq; intros [= <-]; by destruct (default [] _)|].
    rewrite lookup_insert_ne by done. apply IH. }
  destruct (String.eqb (Role m) "user"); [apply Hadd|]. destruct (_ || _); cbn [lines]; [|apply IH].
  destruct (String.eqb (current (exchanges ns ms)) ""); [apply IH|apply Hadd].
Qed.

(** ** Properties *)

(** The turns of a log, with or without those of an unknown role. *)
Definition parsed `{Unicode} (ms : list ChatMessage) : Prop :=
  exists format data fails all, ParseChatlog format data fails = Ok all /\ (ms = all \/ ms = (FilterKnownTurns all).1).

Lemma filter_single ms : forall index, Forall single ms -> Forall single (filter_from index ms).1.
Proof.
  induction ms as [|m ms IH]; intros index; cbn [filter_from]; [done|]. intros [Hm Hms]%Forall_cons. specialize (IH (S index) Hms).
  destruct (filter_from (S index) ms) as [f u]. destruct (isKnownTurnRole (Role m)); [by constructor|exact IH].
Qed.

Lemma parsed_single `{Unicode} ms : parsed ms -> Forall single ms.
Proof.
  intros (f & d & e & all & Hp & [->| ->]); apply ParseChatlog_single in Hp; [done|by apply filter_single].
Qed.

Lemma source_lines_single ms id : Forall single ms -> Forall single_line (source_lines ms id).
Proof.
  intros Hs. unfold source_lines. apply Forall_forall. intros l Hl. apply list_elem_of_omap in Hl as ([m i] & Hin & Hl). cbn in Hl.
  destruct (String.eqb i id); [|done]. injection Hl as <-. apply elem_of_zip_l in Hin. by apply (proj1 (Forall_forall _ _) Hs m).
Qed.

(** C18: The events of a chat log are bound to its lines. Every event carries the request id of its exchange as its source
    record, and the digest of the raw lines of that exchange, of which there is one at least. If events of two logs, or of
    two versions of one, have the same source record and the same digest, then the exchange has the same lines in
    both, in the same order, or SHA-256 has a collision between the two texts. *)
Theorem exchange_binds_lines `{Unicode} clock clock' ms ms' r r' e e' :
  parsed ms -> parsed ms' -> MapMessagesToEvents clock ms = Ok r -> MapMessagesToEvents clock' ms' = Ok r' ->
  e ∈ Events r -> e' ∈ Events r' ->
  let id := AcquisitionInfo.SourceRecordID (s_Acquisition e) in
  (id <> "" /\ assoc "request_id" (Data e) = Some (AString id) /\ source_lines ms id <> [] /\
   AcquisitionInfo.SourceDigest (s_Acquisition e) = lines_digest (source_lines ms id)) /\
  (AcquisitionInfo.SourceRecordID (s_Acquisition e') = id ->
   AcquisitionInfo.SourceDigest (s_Acquisition e') = AcquisitionInfo.SourceDigest (s_Acquisition e) ->
   source_lines ms id = source_lines ms' id \/
   Sha256.sha256_collision (B (strings_Join (source_lines ms id) newline_sep)) (B (strings_Join (source_lines ms' id) newline_sep))).
Proof.
  intros Hp Hp' Hr Hr' He He' id. assert (forall clock ms r e, parsed ms -> MapMessagesToEvents clock ms = Ok r -> e ∈ Events r ->
    let id := AcquisitionInfo.SourceRecordID (s_Acquisition e) in
    id <> "" /\ assoc "request_id" (Data e) = Some (AString id) /\ source_lines ms id <> [] /\ Forall single_line (source_lines ms id) /\
    AcquisitionInfo.SourceDigest (s_Acquisition e) = lines_digest (source_lines ms id)) as Hone.
  { clear. intros clock ms r e Hp Hr He. pose proof (mapped_carry clock ms r Hr) as Hc. apply (proj1 (Forall_forall _ _) Hc) in He as (_ & Hne & Hd & l & Hl & Hdig).
    cbv zeta. pose proof (source_lines_spec ms _ Hne) as Hs. rewrite Hl in Hs. cbn [default from_option] in Hs. change (id l) with l in Hs. subst l.
    split; [exact Hne|]. split; [exact Hd|]. split; [|split; [by apply source_lines_single, parsed_single|exact Hdig]].
    intros E. rewrite E in Hl. pose proof (exchanges_nonempty (chatNamespace ms) ms _ _ Hl) as Hx. done. }
  destruct (Hone clock ms r e Hp Hr He) as (H1 & H2 & H3 & H4 & H5). fold id in H1, H2, H3, H4, H5. split; [by split_and!|].
  intros Hid Hdig. destruct (Hone clock' ms' r' e' Hp' Hr' He') as (_ & _ & H3' & H4' & H5'). rewrite Hid in H3', H4', H5'.
  rewrite H5, H5' in Hdig. unfold lines_digest, digestText in Hdig. apply (f_equal B) in Hdig. rewrite !B_app in Hdig. apply app_inv_head, B_inj in Hdig.
  symmetry in Hdig. apply (Sha256.sha256_hex_eq (B (strings_Join (source_lines ms id) newline_sep)) (B (strings_Join (source_lines ms' id) newline_sep))) in Hdig as [Heq|Hcol];
    [left|by right]. apply B_inj in Heq. by apply join_lines_inj.
Qed.

(** The same import, going on from what is there. *)
Definition resumed (continue_ reconcile : bool) (opts : ImportOptions) : ImportOptions :=
  mkOpts (Format opts) (InputPath opts) (o_BundlePath opts) (MaxInputBytes opts) continue_ reconcile (o_CheckpointPath opts)
    (o_SourceIdentity opts) (o_SourceIncarnation opts).

Lemma checkpoint_loaded w opts cm :
  checkpoint_for_import w opts = Ok cm -> w_checkpoint w = Checkpoint.FNotExist \/ Continue opts || o_Reconcile opts = true ->
  exists cp, Checkpoint.cm_Checkpoint cm = Some cp /\
    Checkpoint.Validate cp "chatlog" (InputPath opts) adapter_name "1.0.0" (o_SourceIncarnation opts) = Ok tt.
Proof.
  unfold checkpoint_for_import, Checkpoint.LoadOrInitialize, Checkpoint.LoadOrCreate.
  cbn [Checkpoint.cm_SourceSystem Checkpoint.cm_AcquisitionStream Checkpoint.cm_Adapter Checkpoint.cm_AdapterVersion Checkpoint.cm_SourceIncarnation Checkpoint.cm_SourceIdentity].
  assert (forall identity start, Checkpoint.Validate (Checkpoint.mk 1 "chatlog" (InputPath opts) "start" start adapter_name "1.0.0" identity (o_SourceIncarnation opts) 0 "" "" 0 [])
    "chatlog" (InputPath opts) adapter_name "1.0.0" (o_SourceIncarnation opts) = Ok tt) as Hnew.
  { intros identity start. unfold Checkpoint.Validate, Checkpoint.differs.
    cbn [Checkpoint.SourceSystem Checkpoint.AcquisitionStream Checkpoint.Adapter Checkpoint.AdapterVersion Checkpoint.SourceIncarnation].
    rewrite !String.eqb_refl. cbn [negb andb]. by rewrite !andb_false_r. }
  destruct (w_checkpoint w) as [| |data] eqn:Ef.
  - cbn [Checkpoint.Load]. intros H _. eexists. split; [|apply Hnew]. destruct (Continue opts || o_Reconcile opts).
    + destruct (Checkpoint.ValidateSource _); [|done]. by apply Ok_inj in H as <-.
    + by apply Ok_inj in H as <-.
  - by cbn.
  - intros H [?|Hr]; [done|]. rewrite Hr in H. destruct (Checkpoint.Load (Checkpoint.FData data)) as [cp|e].
    + unfold Checkpoint.ValidateSource in H. cbn [Checkpoint.cm_Checkpoint Checkpoint.with_checkpoint Checkpoint.cm_SourceSystem
        Checkpoint.cm_AcquisitionStream Checkpoint.cm_Adapter Checkpoint.cm_AdapterVersion Checkpoint.cm_SourceIncarnation] in H.
      exists cp. destruct (Checkpoint.Validate cp _ _ _ _ _) as [[]|] eqn:Ev; [|done]. apply Ok_inj in H as <-. by split.
    + destruct e; try done. eexists. split; [|apply Hnew]. destruct (Checkpoint.ValidateSource _); [|done]. by apply Ok_inj in H as <-.
Qed.

(** The checkpoint that the first import leaves is accepted by the second. *)
Lemma checkpoint_resumed w opts continue_ reconcile cp :
  Checkpoint.Load (w_checkpoint w) = Ok cp ->
  Checkpoint.Validate cp "chatlog" (InputPath opts) adapter_name "1.0.0" (o_SourceIncarnation opts) = Ok tt ->
  exists cm, checkpoint_for_import w (resumed continue_ reconcile opts) = Ok cm /\ Checkpoint.cm_Checkpoint cm = Some cp.
Proof.
  intros Hl Hv. unfold checkpoint_for_import, Checkpoint.LoadOrInitialize, Checkpoint.LoadOrCreate. rewrite Hl.
  eexists. split; [unfold Checkpoint.ValidateSource|].
  cbn [Checkpoint.cm_Checkpoint Checkpoint.with_checkpoint Checkpoint.cm_SourceSystem Checkpoint.cm_AcquisitionStream Checkpoint.cm_Adapter
       Checkpoint.cm_AdapterVersion Checkpoint.cm_SourceIncarnation resumed InputPath o_SourceIncarnation Continue o_Reconcile o_SourceIdentity].
  - rewrite Hv. cbn [map_err]. destruct (continue_ || reconcile); reflexivity.
  - reflexivity.
Qed.

Lemma loaded_verified w b created :
  load_for_import w = Ok (b, created) -> (forall b, w_bundle w = BLoaded b -> b <> [] /\ Verify b = Ok tt) -> b <> [] /\ Verify b = Ok tt.
Proof.
  unfold load_for_import. intros H Hb. destruct (w_bundle w) as [| |b0]; [|done|apply Ok_inj in H; injection H as <- _; by apply Hb].
  destruct (NewWithOptions _ _ _) as [b1|] eqn:En; [|done]. cbn [map_err] in H.
  destruct (Reconcile.stampManifestProvenance b1 _ _) as [b2|] eqn:Es; [|done]. apply Ok_inj in H. injection H as <- _.
  assert (length b1 = 1%nat) as Hlen.
  { apply New_append in En as [data Ha]. apply append_inv in Ha as (h & -> & _). done. }
  apply Reconcile.stamped_verifies in Es as [Hv Hl]; [|exact Hlen|by eapply built_verified, built_new]. split; [by destruct b2|exact Hv].
Qed.

(** C17: Importing a chat log again writes nothing. Let a log be imported, to a new bundle or to one that verifies, and with a
    new checkpoint or going on from the one that is there. When the same input is imported again, at any time and going on
    from the bundle and the checkpoint of the first import, the second import succeeds, leaves the bundle exactly as it is,
    and reports that no event was written. *)
Theorem chatlog_reimport_writes_nothing `{Unicode} w w' opts continue' reconcile' b' cm' cp' res :
  ImportChatlog w opts = mkDone (Some b') (Some cm') (Ok res) ->
  (forall b, w_bundle w = BLoaded b -> b <> [] /\ Verify b = Ok tt) ->
  w_checkpoint w = Checkpoint.FNotExist \/ Continue opts || o_Reconcile opts = true ->
  continue' || reconcile' = true ->
  w_input w' = w_input w -> w_bundle w' = BLoaded b' -> Checkpoint.cm_Checkpoint cm' = Some cp' -> Checkpoint.Load (w_checkpoint w') = Ok cp' ->
  w_mkdir_fails w' = false -> w_save_fails w' = false -> w_checkpoint_save_fails w' = false ->
  exists cm'' res', ImportChatlog w' (resumed continue' reconcile' opts) = mkDone (Some b') (Some cm'') (Ok res') /\ i_EventsWritten res' = 0.
Proof.
  intros Hi Hb Hcp Hres Hin Hb' Hcm' Hload Hmk Hsv Hcs. unfold ImportChatlog in *. cbn [resumed o_BundlePath InputPath] in *.
  destruct (String.eqb (o_BundlePath opts) ""); [done|]. destruct (String.eqb (InputPath opts) ""); [done|]. destruct (w_mkdir_fails w); [done|]. rewrite Hmk.
  destruct (checkpoint_for_import w opts) as [cm|] eqn:Ecm; [|done]. destruct (checkpoint_loaded w opts cm Ecm Hcp) as (cp & Hcm & Hval).
  assert (read_input w' (resumed continue' reconcile' opts) = read_input w opts) as Hread by (unfold read_input; by rewrite Hin).
  destruct (read_input w opts) as [ms|] eqn:Er; [|done]. destruct (map_known (w_clock w) ms) as [[r unknown]|] eqn:Em; [|done].
  unfold import_mapped in Hi. destruct (load_for_import w) as [[b created]|] eqn:El; [|done]. destruct (loaded_verified w b created El Hb) as [Hne Hv].
  destruct (Reconcile.import_events _ _ _ _ _ _ _ _ _) as [[[b1 c] cm1]|] eqn:Ei; [|done]. destruct (w_save_fails w); [done|].
  destruct (w_checkpoint_save_fails w); [done|]. injection Hi as <- <- _.
  destruct (map_known_named (w_clock w) ms r unknown Em) as [final Hnamed].
  eapply (Reconcile.imported_up_to_date _ _ _ _ _ _ _ _ _ (digest_of final)) in Ei as (Hv1 & Hne1 & Hup & Hcm1); [|done|done|by apply (Hnamed (w_clock w) r unknown)].
  rewrite Hcm in Hcm1. rewrite Hcm1 in Hcm'. injection Hcm' as Hcp'.
  destruct (checkpoint_resumed w' opts continue' reconcile' cp' Hload) as (cm2 & -> & Hcm2); [rewrite <- Hcp'; exact Hval|].
  rewrite Hread. pose proof (map_known_same (w_clock w) (w_clock w') ms) as Hs. rewrite Em in Hs.
  destruct (map_known (w_clock w') ms) as [[r' unknown']|] eqn:Em'; cbn [both fst snd] in Hs; [|done]. destruct Hs as [(HF & _ & _) _].
  unfold import_mapped, load_for_import. rewrite Hb'. cbn [resumed InputPath Continue o_Reconcile o_BundlePath].
  destruct (Reconcile.up_to_date_unchanged (w_now w') (InputPath opts) continue' reconcile' b1 cm2 cp'
    ("exchange:" +:+ show_int (Reconcile.uniqueSourceRecords (Reconcile.stampAcquisitionStream (map import_event (Events r')) (InputPath opts))))
    (map import_event (Events r')) (digest_of final)) as (c' & cm3 & -> & Hw); try done.
  - by apply (Hnamed (w_clock w') r' unknown').
  - eapply same_up_to_date; [exact HF|exact Hup].
  - rewrite <- Hcp'. apply Reconcile.bound_validates.
  - rewrite Hsv, Hcs. eexists _, _. split; [reflexivity|exact Hw].
Qed.

(** ** Examples *)

#[local] Existing Instance ascii_only.

(** A log of lines in which a single quote stands for a double one. *)
Definition log (ls : list string) : bytes := mjoin (map (fun l => B l ++ [BundleIO.newline]) ls).
Definition q (s : string) : string := S_of (map (fun c => if bool_decide (c = "'"%char) then chr 34 else c) (B s)).

Definition w_log : bytes := log (map q [
 "{'role':'system','content':'be brief','timestamp':'2026-01-02T03:04:05Z','conversation_id':'c1'}";
 "{'role':'user','content':'hello','timestamp':'2026-01-02T03:04:06Z'}";
 "[{'role':'tool','content':'42','timestamp':'2026-01-02T03:04:07Z','tool_name':'calc','tool_args':{'b':1,'a':[2]}}, {'role':'Assistant','content':'hi','timestamp':'2026-01-02T03:04:08Z','model':'gpt-4o'} ]";
 "{'role':'narrator','content':'x'}"]).

Definition at_time (n : nat) : string := "2026-02-03T04:05:06Z".

Definition turns : list ChatMessage := match ParseChatlog "generic-jsonl" w_log false with Ok ms => (FilterKnownTurns ms).1 | Err _ => [] end.
Definition mapped : MappingResult := match MapMessagesToEvents at_time turns with Ok r => r | Err _ => mkMapping [] 0 "" end.
Definition first_event : EventSpec := match Events mapped with e :: _ => e | [] => mkSpec "" [] "" AcquisitionInfo.zero end.

Lemma turns_parsed : parsed turns.
Proof.
  exists "generic-jsonl", w_log, false, (match ParseChatlog "generic-jsonl" w_log false with Ok ms => ms | Err _ => [] end).
  split; [vm_compute; reflexivity|]. right. unfold turns. by destruct (ParseChatlog _ _ _).
Qed.

Lemma turns_mapped : MapMessagesToEvents at_time turns = Ok mapped.
Proof. vm_compute. reflexivity. Qed.

Lemma first_in : first_event ∈ Events mapped.
Proof.
  assert (Events mapped = first_event :: tl (Events mapped)) as E by (vm_compute; reflexivity). rewrite E. apply list_elem_of_here.
Qed.

Lemma exchange_binds_lines_witness :
  AcquisitionInfo.SourceDigest (s_Acquisition first_event) = lines_digest (source_lines turns "req-d0f631ca-001") /\
  length (source_lines turns "req-d0f631ca-001") = 3%nat.
Proof.
  pose proof (exchange_binds_lines at_time at_time turns turns mapped mapped first_event first_event turns_parsed turns_parsed turns_mapped
    turns_mapped first_in first_in) as [(_ & _ & _ & H) _].
  assert (AcquisitionInfo.SourceRecordID (s_Acquisition first_event) = "req-d0f631ca-001") as E by (vm_compute; reflexivity).
  rewrite E in H. split; [exact H|vm_compute; reflexivity].
Defined.

Definition w_opts : ImportOptions := mkOpts "generic-jsonl" "chat.jsonl" "run.atb" 1000000 false false "" SourceIdentity.zero "".

Definition w_first : import_world :=
  mkWorld false Checkpoint.FNotExist "2026-02-03T04:05:05Z" (InReads [take 100 w_log; drop 100 w_log] false) at_time BMissing "2026-02-03T04:05:05Z"
    (Some (B "0123456789abcdef")) "2026-02-03T04:05:07Z" false false.

Definition w_done : import_done := Eval vm_compute in ImportChatlog w_first w_opts.
Definition done_bundle : bundle := match d_bundle w_done with Some b => b | None => [] end.
Definition done_manager : Checkpoint.CheckpointManager := match d_checkpoint w_done with Some cm => cm | None => Reconcile.w_manager end.
Definition done_checkpoint : Checkpoint.t := match Checkpoint.cm_Checkpoint done_manager with Some cp => cp | None => Checkpoint.sample_checkpoint end.

(** The second import, a month later, from the files of the first. *)
Definition w_second : import_world :=
  mkWorld false (Checkpoint.FData (default [] (Checkpoint.marshal done_checkpoint))) "2026-03-03T04:05:05Z" (w_input w_first)
    (fun _ => "2026-03-03T04:05:06Z") (BLoaded done_bundle) "" None "2026-03-03T04:05:07Z" false false.

Lemma w_done_ok : ImportChatlog w_first w_opts = mkDone (Some done_bundle) (Some done_manager)
  (Ok (mkResult 5 2 5 0 0 0 0 "run.atb" ".atb/checkpoints/run.chat.jsonl-f4d16e61.checkpoint.json" [4%nat])).
Proof. vm_compute. reflexivity. Qed.

Lemma chatlog_reimport_writes_nothing_witness :
  exists cm'' res', ImportChatlog w_second (resumed true false w_opts) = mkDone (Some done_bundle) (Some cm'') (Ok res') /\ i_EventsWritten res' = 0.
Proof.
  assert (Checkpoint.Load (w_checkpoint w_second) = Ok done_checkpoint) as Hl by (vm_compute; reflexivity).
  assert (Checkpoint.cm_Checkpoint done_manager = Some done_checkpoint) as Hc by (vm_compute; reflexivity).
  refine (chatlog_reimport_writes_nothing w_first w_second w_opts true false done_bundle done_manager done_checkpoint _
    w_done_ok _ _ eq_refl eq_refl eq_refl Hc Hl eq_refl eq_refl eq_refl); [discriminate|by left].
Defined.

(** A turn that was edited is one changed source record: its exchange is appended anew, with a finding. *)
Definition w_edited : import_world :=
  mkWorld false (w_checkpoint w_second) "2026-03-03T04:05:05Z"
    (InReads [log (map q ["{'role':'user','content':'hello','timestamp':'2026-01-02T03:04:06Z','conversation_id':'c1'}";
      "{'role':'assistant','content':'bye','timestamp':'2026-01-02T03:04:08Z'}"])] false)
    (fun _ => "2026-03-03T04:05:06Z") (BLoaded done_bundle) "" None "2026-03-03T04:05:07Z" false false.

Example edited_log :
  let d := ImportChatlog w_edited (resumed false true w_opts) in
  match d_result d with Ok r => Some (i_EventsWritten r, ChangedCount r, UnchangedCount r) | Err _ => None end = Some (2, 1, 0) /\
  match d_bundle d with Some b => map (fun r => Event.Type_ (Event_ r)) (drop (length done_bundle) b) | None => [] end =
    ["atb.acquisition.finding"; "ai.request.received"; "ai.response.sent"].
Proof. split; vm_compute; reflexivity. Qed.

(** What is refused. *)
Example refused_logs :
  map (fun ls => match ParseChatlog "openai-jsonl " (log (map q ls)) false with Ok _ => None | Err e => Some e end)
    [["{'role':'user','content':' ','timestamp':'2026-01-02T03:04:06Z'}"]; ["";"{'role':'user','content':'x','timestamp':'2026-01-02'}"];
     ["{'role':'tool','content':'x','timestamp':'2026-01-02T03:04:06Z'}"]; ["[1]"]; ["[{}]"]] =
  [Some (ELine 1 LNoContent); Some (ELine 2 (LTimestamp "2026-01-02")); Some (ELine 1 LNoToolName); Some (ELine 1 LJSON); None] /\
  ParseChatlog "csv" [] false = Err (EProvider "csv") /\ capped_read 5 0 [B "abc"; B "def"; B "ghi"] false = (B "abcdef", true).
Proof. split_and!; vm_compute; reflexivity. Qed.

(** A source record is a request id: two exchanges with one id are one source record, whose digest is that of all their lines. *)
Example shared_request_id :
  match ParseChatlog "generic-jsonl" (log (map q ["{'role':'user','content':'a','timestamp':'2026-01-02T03:04:06Z','request_id':'r'}";
    "{'role':'user','content':'b','timestamp':'2026-01-02T03:04:07Z','request_id':'r'}"])) false with
  | Ok ms => match MapMessagesToEvents at_time ms with
             | Ok r => Some (length (source_lines ms "r"), map (fun e => String.eqb (AcquisitionInfo.SourceDigest (s_Acquisition e)) (lines_digest (source_lines ms "r"))) (Events r))
             | Err _ => None end
  | Err _ => None end = Some (2%nat, [true; true]).
Proof. vm_compute. reflexivity. Qed.
End Chatlog.
