(* ===== verification/CaptureStore.v ===== *)
(** * The stores of the capture path

    The capture coordinator keeps two things outside its journal: the bundle and the
    checkpoint. [EvidenceStore] is what it calls on them, [EvidenceLaws] what it relies
    on: a save that is interrupted leaves the old value or the complete new one, and a
    value that was saved is read back. [FileStore] is the store of the program: two
    paths of a file system, written by the atomic writes of [internal/bundle] and
    [internal/acquisition]; the laws are proved for it. *)

From S2P Require Import Prelude GoText Sha256 GoFloat GoJson GoValue GoStruct Canonicalize Event HashChain Bundle BundleIO Checkpoint.
Import Canonicalize HashChain Bundle BundleIO.

Module CaptureStore.

(** [os.Stat] and the file behind it; an existing file may still fail to open. *)
Inductive file_stat := NotExist | StatFails | Exists (file : option reader).

Class EvidenceStore (W : Type) := {
  fault : Type;
  bundle_file : W -> file_stat;
  checkpoint_file : W -> Checkpoint.file_read;
  save_bundle : fault -> W -> bundle -> list W * bundle * result save_error unit;
  save_checkpoint : fault -> W -> Checkpoint.CheckpointManager ->
    Checkpoint.CheckpointManager * list W * result Checkpoint.checkpoint_error unit
}.

(** The state a sequence of writes leaves. *)
Definition final {W} (w : W) (ws : list W) : W := default w (last ws).

(** ** What a reload preserves *)

Definition declares (b : bundle) : option string := Version <$> Manifest b.

Definition sources (b : bundle) : list (option AcquisitionInfo.t) := map (fun r => Event.Acquisition (Event_ r)) b.

(** Bundles with the same hashes and provenance that verify together: what the capture
    path can tell apart. *)
Definition same_evidence (b b' : bundle) : Prop :=
  hashes b = hashes b' /\ sources b = sources b' /\ declares b = declares b' /\
  (Verify b = Ok tt <-> Verify b' = Ok tt).

#[global] Instance same_evidence_equiv : Equivalence same_evidence.
Proof.
  split.
  - intros b. by split_and!.
  - intros b b' (H1 & H2 & H3 & H4). by split_and!; try symmetry.
  - intros b1 b2 b3 (H1 & H2 & H3 & H4) (H1' & H2' & H3' & H4'). split_and!; [by etrans..|by etrans].
Qed.

(** A verified bundle within the limits of the format. *)
Definition storable (b : bundle) : Prop :=
  Forall (fun r => record_ok r = true /\ payload_ok (Event.Data (Event_ r)) = true) b /\
  Verify b = Ok tt /\ is_Some (Manifest b) /\ Z.of_nat (length b) <= MaxBundleRecords /\
  exists raw, encode_records b = Some raw /\ Z.of_nat (length raw) <= MaxBundleSizeBytes.

(** A file that reads back as the evidence of a bundle. *)
Definition holds_bundle (f : file_stat) (b : bundle) : Prop :=
  exists rd b', f = Exists rd /\ LoadVerified rd = Ok b' /\ same_evidence b b'.

Definition holds_checkpoint (f : Checkpoint.file_read) (c : Checkpoint.t) : Prop :=
  Checkpoint.Load f = Ok (Checkpoint.sort_metadata (Checkpoint.normalise_version c)).

Definition storable_checkpoint (c : Checkpoint.t) : Prop :=
  Checkpoint.valid c /\ Checkpoint.FormatVersion c <= 1.

Class EvidenceLaws (W : Type) `{!EvidenceStore W} := {
  (** Temporary files get unused names; in a calm run no call fails. *)
  sound : fault -> W -> Prop;
  calm : fault -> W -> Prop;
  calm_sound f w : calm f w -> sound f w;
  save_bundle_states f w b ws b' r :
    sound f w -> save_bundle f w b = (ws, b', r) ->
    same_evidence b b' /\
    Forall (fun w' => checkpoint_file w' = checkpoint_file w /\
      (bundle_file w' = bundle_file w \/ (storable b -> holds_bundle (bundle_file w') b))) ws /\
    (r = Ok tt -> storable b -> holds_bundle (bundle_file (final w ws)) b);
  save_bundle_calm f w b : calm f w -> storable b -> (save_bundle f w b).2 = Ok tt;
  save_checkpoint_states f w cm c cm' ws r :
    sound f w -> Checkpoint.cm_Checkpoint cm = Some c -> save_checkpoint f w cm = (cm', ws, r) ->
    cm' = Checkpoint.with_checkpoint (Some (Checkpoint.normalise_version c)) cm /\
    Forall (fun w' => bundle_file w' = bundle_file w /\
      (checkpoint_file w' = checkpoint_file w \/
       (storable_checkpoint c -> holds_checkpoint (checkpoint_file w') c))) ws /\
    (r = Ok tt -> storable_checkpoint c -> holds_checkpoint (checkpoint_file (final w ws)) c);
  save_checkpoint_calm f w cm c :
    calm f w -> Checkpoint.cm_Checkpoint cm = Some c -> storable_checkpoint c -> (save_checkpoint f w cm).2 = Ok tt
}.

(** ** The file system *)

Module FileStore.
Section paths.
Context (bundlePath checkpointPath : string) (paths_differ : bundlePath <> checkpointPath).

Record file_fault := mkFault {
  lock : lock_outcome;
  release_fails : bool;
  bundle_env : BundleIO.save_env;
  checkpoint_env : Checkpoint.save_env
}.

Definition contents (data : bytes) : reader := mkReader data false (fun _ => Z.of_nat (length data)).

#[global] Instance file_store : EvidenceStore files := {|
  fault := file_fault;
  bundle_file fs := match fs !! bundlePath with
                    | None => NotExist
                    | Some (data, _) => Exists (Some (contents data))
                    end;
  checkpoint_file fs := match fs !! checkpointPath with
                        | None => Checkpoint.FNotExist
                        | Some (data, _) => Checkpoint.FData data
                        end;
  save_bundle f fs b := Save false (lock f) (release_fails f) (bundle_env f) fs bundlePath b;
  save_checkpoint f fs cm := Checkpoint.ManagerSave (checkpoint_env f) fs checkpointPath cm
|}.

(** Both temporary names are unused and neither is one of the two paths. *)
Definition fresh_name (fs : files) (tmp : string) : Prop :=
  tmp <> bundlePath /\ tmp <> checkpointPath /\ fs !! tmp = None.

Definition sound_names (f : file_fault) (fs : files) : Prop :=
  fresh_name fs (env_tmp (bundle_env f)) /\ fresh_name fs (Checkpoint.sv_tmp (checkpoint_env f)).

Definition no_failures (f : file_fault) : Prop :=
  lock f = Acquired /\ release_fails f = false /\
  (forall i, env_cancelled (bundle_env f) i = false) /\ env_mkdir_fails (bundle_env f) = false /\
  (forall st, env_fails (bundle_env f) st = false) /\
  Checkpoint.sv_mkdir_fails (checkpoint_env f) = false /\
  (forall st, Checkpoint.sv_fails (checkpoint_env f) st = false) /\
  Checkpoint.sv_parent_sync_fails (checkpoint_env f) = false.

Lemma written_evidence b b' raw :
  Forall (fun r => record_ok r = true) b -> Forall2 reloaded b b' -> Verify b = Ok tt ->
  hashes (setSourcePrefixHashes b' raw) = hashes b /\ sources (setSourcePrefixHashes b' raw) = sources b /\
  Verify (setSourcePrefixHashes b' raw) = Ok tt.
Proof.
  intros Hok HF Hv. unfold setSourcePrefixHashes. rewrite (reloaded_clear b b' HF).
  destruct (set_prefixes_fields new_tracker b' (raw_lines raw)) as [He Hh]. split_and!.
  - rewrite Hh. clear -HF. induction HF as [|r r' b b' (d & _ & ->) _ IH]; [done|]. unfold hashes in *. cbn. by rewrite IH.
  - transitivity (sources b').
    + unfold sources. rewrite <- !(map_map Event_ Event.Acquisition). f_equal. exact He.
    + clear -HF. induction HF as [|r r' b b' (d & _ & ->) _ IH]; [done|]. unfold sources in *. cbn. by rewrite IH.
  - apply (Verify_fields b'); [done|done|]. by eapply reloaded_verifies.
Qed.

Lemma manifest_first b : is_Some (Manifest b) -> exists r rest, b = r :: rest /\ hasManifestRecord b = true /\
  exists m, parseManifestData r = Ok m /\ Manifest b = Some m.
Proof.
  intros [m Hm]. unfold Manifest in Hm. destruct b as [|r rest]; [done|]. exists r, rest.
  destruct (hasManifestRecord (r :: rest)) eqn:E; [|done]. split_and!; [done|done|]. unfold Manifest. rewrite E.
  destruct (parseManifestData r) as [m'|]; [|done]. by exists m'.
Qed.

Lemma written_declares b b' raw :
  Forall (fun r => record_ok r = true /\ payload_ok (Event.Data (Event_ r)) = true) b ->
  Forall2 reloaded b b' -> is_Some (Manifest b) ->
  declares (setSourcePrefixHashes b' raw) = declares b /\
  hasManifestRecord (setSourcePrefixHashes b' raw) = true.
Proof.
  intros Hok HF (r & rest & -> & Hm & m & Hp & HM)%manifest_first.
  unfold setSourcePrefixHashes. rewrite (reloaded_clear _ _ HF).
  destruct (set_prefixes_fields new_tracker b' (raw_lines raw)) as [He _].
  set (b2 := set_prefixes _ _ _) in *. apply Forall_cons in Hok as [[_ Hpay] _].
  inversion HF as [|? r' ? rest' (d & Hd & ->) _]; subst b'.
  destruct (reload_manifest r d m (Hash r) Hp Hpay Hd) as (m' & Hm' & Hver).
  destruct b2 as [|r2 rest2]; [discriminate|]. injection He as He _.
  rewrite (parseManifestData_event (mkRecord (Event.with_data d (Event_ r)) (Hash r) [] [] false) r2 (eq_sym He)) in Hm'.
  assert (hasManifestRecord (r2 :: rest2) = true) as Hm2.
  { unfold hasManifestRecord in Hm |- *. by rewrite He. }
  split; [|done]. unfold declares at 2. rewrite HM. unfold declares, Manifest. rewrite Hm2, Hm'. cbn. by rewrite Hver.
Qed.

(** What is written reads back. *)
Lemma saved_holds b raw :
  storable b -> encode_records b = Some raw -> holds_bundle (Exists (Some (contents raw))) b.
Proof.
  intros (Hok & Hv & HM & Hn & raw' & He & Hl) Hraw. rewrite Hraw in He. injection He as <-.
  assert (Forall (fun r => record_ok r = true) b) as Hr
    by (eapply Forall_impl; [exact Hok|]; by intros ? [? _]).
  destruct (encode_records_lines b Hr) as (ls & b' & He & Hls & HF & Hp).
  rewrite Hraw in He. injection He as Eraw.
  destruct (written_evidence b b' raw Hr HF Hv) as (H1 & H2 & H3).
  destruct (written_declares b b' raw Hok HF HM) as [H4 H5].
  eexists _, (setSourcePrefixHashes b' raw). split; [reflexivity|]. split; [|by split_and!].
  assert (LoadReader (Some (contents raw)) = Ok (setSourcePrefixHashes b' raw)) as Hload.
  { apply (load_saved b b' ls (contents raw)); [exact Hls|exact HF|exact Hp|exact Eraw|done| |done|done|exact Hl|exact Hn| |].
    - intros pos Hpos. cbn [contents r_ahead r_bytes] in *. lia.
    - intros _. apply manifest_first in HM as (r & rest & -> & Hm & m & Hm' & _). exists m.
      unfold ManifestE. by rewrite Hm, Hm'.
    - intros r Hin. rewrite Forall_forall in Hok. by apply Hok. }
  unfold LoadVerified, Load. rewrite Hload.
  destruct (setSourcePrefixHashes b' raw) as [|r2 rest2]; [discriminate|].
  cbn [hasManifestRecord] in H5. rewrite H5. cbn [negb]. by rewrite H3.
Qed.

Lemma set_clear b raw : 
  events (setSourcePrefixHashes b raw) = events b /\ hashes (setSourcePrefixHashes b raw) = hashes b.
Proof.
  unfold setSourcePrefixHashes. destruct (set_prefixes_fields new_tracker (map clear_prefix b) (raw_lines raw)) as [-> ->].
  unfold events, hashes. rewrite !map_map. done.
Qed.

Lemma same_fields b b' : events b = events b' -> hashes b = hashes b' -> same_evidence b b'.
Proof.
  intros He Hh. split_and!; [done| | |].
  - unfold sources. rewrite <- !(map_map Event_ Event.Acquisition). f_equal. exact He.
  - unfold declares, Manifest. destruct b as [|r b], b' as [|r' b']; try done. pose proof He as Hev. injection He as He _.
    rewrite (hasManifest_events _ _ Hev). by rewrite (parseManifestData_event r r' He).
  - split; by apply Verify_fields.
Qed.

Lemma saveUnlocked_states env fs b ws b' r :
  fresh_name fs (env_tmp env) -> saveUnlocked env fs bundlePath b = (ws, b', r) ->
  same_evidence b b' /\
  Forall (fun s => s !! checkpointPath = fs !! checkpointPath /\
    (s !! bundlePath = fs !! bundlePath \/
     exists raw, encode_records b = Some raw /\ s !! bundlePath = Some (raw, bundleFileMode))) ws /\
  (r = Ok tt -> exists raw, encode_records b = Some raw /\
     final fs ws !! bundlePath = Some (raw, bundleFileMode)).
Proof.
  intros (Hb & Hc & Hf). unfold saveUnlocked.
  destruct (env_cancelled env 0); [by intros [= <- <- <-]|].
  destruct (env_mkdir_fails env); [by intros [= <- <- <-]|].
  destruct (encode_loop _ _ _ _) as [raw|] eqn:Ee; [|by intros [= <- <- <-]].
  apply encode_loop_ok in Ee as (more & Hraw & ->). cbn [app].
  destruct (writeAtomic _ _ _ _ _ _ _) as [st w] eqn:Ew.
  destruct (writeAtomic_states _ _ _ _ _ _ _ _ _ Hb Hf Ew) as [Hst Hfin].
  change (if bundleFileMode =? 0 then bundleFileMode else bundleFileMode) with bundleFileMode in *.
  assert (Forall (fun s => s !! checkpointPath = fs !! checkpointPath /\
    (s !! bundlePath = fs !! bundlePath \/
     exists raw, encode_records b = Some raw /\ s !! bundlePath = Some (raw, bundleFileMode))) st) as Hst'.
  { eapply Forall_impl; [exact Hst|]. intros s [Hs Hq]. split; [by apply Hq|].
    destruct Hs as [Hs|Hs]; [by left|right; by exists more]. }
  destruct w as [[]|st']; intros [= <- <- <-].
  - split_and!; [|done|].
    + destruct (set_clear b more) as [E1 E2]. by apply same_fields.
    + intros _. exists more. split; [done|]. unfold final_state in Hfin. unfold final. rewrite Hfin. apply lookup_insert_eq.
  - by split_and!.
Qed.

Lemma file_save_bundle f fs b ws b' r :
  sound_names f fs -> save_bundle f fs b = (ws, b', r) ->
  same_evidence b b' /\
  Forall (fun s => checkpoint_file s = checkpoint_file fs /\
    (bundle_file s = bundle_file fs \/ (storable b -> holds_bundle (bundle_file s) b))) ws /\
  (r = Ok tt -> storable b -> holds_bundle (bundle_file (final fs ws)) b).
Proof.
  intros [Hn _]. cbn [save_bundle file_store]. unfold Save, withBundleLock.
  destruct (lock f); [|by intros [= <- <- <-]..].
  destruct (saveUnlocked _ _ _ _) as [[ws1 b1] r1] eqn:Es.
  destruct (saveUnlocked_states _ _ _ _ _ _ Hn Es) as (H1 & H2 & H3). intros H.
  assert (ws = ws1 /\ b' = b1 /\ (r = Ok tt -> r1 = Ok tt)) as (-> & -> & Hr).
  { destruct r1 as [[]|]; [destruct (release_fails f)|]; by injection H as <- <- <-. }
  split_and!; [done| |].
  - eapply Forall_impl; [exact H2|]. intros s [Hc Hs]. cbn [checkpoint_file bundle_file file_store]. rewrite Hc.
    split; [done|]. destruct Hs as [->|(raw & Hraw & ->)]; [by left|right]. intros Hst. by apply saved_holds.
  - intros Hok Hst. destruct (H3 (Hr Hok)) as (raw & Hraw & Hs). cbn [bundle_file file_store]. rewrite Hs. by apply saved_holds.
Qed.

Lemma file_save_checkpoint f fs cm c cm' ws r :
  sound_names f fs -> Checkpoint.cm_Checkpoint cm = Some c -> save_checkpoint f fs cm = (cm', ws, r) ->
  cm' = Checkpoint.with_checkpoint (Some (Checkpoint.normalise_version c)) cm /\
  Forall (fun s => bundle_file s = bundle_file fs /\
    (checkpoint_file s = checkpoint_file fs \/
     (storable_checkpoint c -> holds_checkpoint (checkpoint_file s) c))) ws /\
  (r = Ok tt -> storable_checkpoint c -> holds_checkpoint (checkpoint_file (final fs ws)) c).
Proof.
  intros [_ (Hb & Hc & Hf)] Hcp. cbn [save_checkpoint file_store]. unfold Checkpoint.ManagerSave. rewrite Hcp.
  destruct (Checkpoint.Save _ _ _ _) as [[c1 ws1] r1] eqn:Es. intros [= <- <- <-].
  destruct (Checkpoint.Save_states _ _ _ _ _ _ _ Hc Hf Es) as (-> & H2 & H3).
  split_and!; [done| |].
  - eapply Forall_impl; [exact H2|]. intros s [Hs Hq]. cbn [checkpoint_file bundle_file file_store].
    rewrite (Hq bundlePath) by done. split; [done|].
    destruct Hs as [->|(data & -> & Hm)]; [by left|right]. intros [Hv Hver]. by apply Checkpoint.saved_loads.
  - intros Hok [Hv Hver]. destruct (H3 Hok) as (data & Hs & Hm). cbn [checkpoint_file file_store].
    unfold final. unfold final_state in Hs. rewrite Hs. by apply Checkpoint.saved_loads.
Qed.

Lemma calm_save_bundle f fs b : no_failures f -> storable b -> (save_bundle f fs b).2 = Ok tt.
Proof.
  intros (Hl & Hr & Hc & Hm & Hs & _) (_ & _ & _ & _ & raw & Hraw & _).
  cbn [save_bundle file_store]. unfold Save, withBundleLock. rewrite Hl. unfold saveUnlocked. rewrite Hc, Hm.
  assert (forall i b buf raw, encode_records b = Some raw ->
    encode_loop (fun i => env_cancelled (bundle_env f) (S i)) i b buf = Ok (buf ++ raw)) as He.
  { clear -Hc. intros i b. revert i. induction b as [|r b IH]; intros i buf raw; unfold encode_records; cbn [mapM encode_loop].
    - intros [= <-]. by rewrite app_nil_r.
    - destruct (encode_record r) as [line|]; [|discriminate]. rewrite Hc.
      destruct (mapM encode_record b) as [ls|] eqn:E; [|discriminate]. intros [= <-].
      rewrite (IH _ _ (mjoin ls)) by (unfold encode_records; by rewrite E). by rewrite <- app_assoc. }
  rewrite (He _ _ _ raw Hraw). unfold writeAtomic. rewrite !Hs. cbn. by rewrite Hr.
Qed.

Lemma calm_save_checkpoint f fs cm c :
  no_failures f -> Checkpoint.cm_Checkpoint cm = Some c -> storable_checkpoint c ->
  (save_checkpoint f fs cm).2 = Ok tt.
Proof.
  intros (_ & _ & _ & _ & _ & Hm & Hs & Hp) Hc [Hv _].
  cbn [save_checkpoint file_store]. unfold Checkpoint.ManagerSave. rewrite Hc. unfold Checkpoint.Save. rewrite Hm.
  destruct (Checkpoint.marshal_load _ (Checkpoint.normalise_valid c Hv)) as (data & -> & _).
  unfold writeAtomic. rewrite !Hs, Hp. by destruct (negb _).
Qed.

#[global] Instance file_laws : EvidenceLaws files.
Proof.
  refine {| sound := sound_names; calm f fs := sound_names f fs /\ no_failures f |}.
  - by intros f w [? _].
  - apply file_save_bundle.
  - intros f w b [_ H]. by apply calm_save_bundle.
  - apply file_save_checkpoint.
  - intros f w cm c [_ H]. by apply calm_save_checkpoint.
Defined.
End paths.
End FileStore.
End CaptureStore.
