(* ===== verification/Capture.v ===== *)
(** * Package internal/proxy: the capture coordinator

    [internal/proxy/capture.go] and the recorder in front of it ([recorder.go]): an
    observation is journaled durably, materialised as an event of the bundle, the
    bundle is saved, and the checkpoint is bound to it; on the next start [recover]
    brings bundle and checkpoint up to the journal. The coordinator runs over any
    [EvidenceStore]. This file has the definitions and their functional theorems;
    CaptureRecovery.v has the crash safety of the protocol. *)

From S2P Require Import Prelude GoText Sha256 GoFloat GoJson GoValue GoStruct Canonicalize Event HashChain Bundle BundleIO Journal Checkpoint CaptureStore.
Import Canonicalize HashChain Bundle BundleIO CaptureStore.

Module Capture.

Definition captureSourceSystem : string := "atb.proxy".
Definition captureAdapter : string := "atb.intercept".
Definition captureAdapterVersion : string := "1.0.0".
Definition captureRepresentationVersion : string := "atb.intercept.event.v1".

Inductive captureState := captureHealthy | captureRecoveryRequired | captureDegraded | captureUnknown.

#[global] Instance captureState_eq_dec : EqDecision captureState.
Proof. solve_decision. Defined.

(** Why an operation fails; a reason that wraps a sentinel carries it. *)
Inductive capture_error :=
| CStopped | CNilRecorder | CNilEvent | CMarshal | CCanonicalize
| CJournal (e : Journal.journal_error)
| CStat | CLoad (e : verified_error) | CNew (e : new_error) | CVerify (f : verify_failure) | CNotV3
| CMismatch | CCorrupted | CCheckpoint (e : Checkpoint.checkpoint_error)
| CEntrySource | CEntryAdapter | CEntryAdapterVersion | CEntryRepresentation | CEntryIncarnation
| CDifferentDigest (id : string) | CDecode | CAppend (e : append_error)
| CSave (e : save_error) | CNotFound | CNoRecords | CRandom.

(** ** The representation *)

Record observationPayload := mkPayload {
  p_Type : string;
  p_Data : option json;  (** absent: a nil [json.RawMessage] *)
  p_ActorID : option string;
  p_OrgID : option string;
  p_WorkspaceID : option string;
  p_Timestamp : string;
  p_TraceID : string;
  p_SpanID : string;
  p_ParentSpanID : string
}.

Definition payload_fields (p : observationPayload) : list (string * any) :=
  [("type", AString (p_Type p)); ("data", ARaw (default JNull (p_Data p)))]
  ++ omit_ptr AString "actor_id" (p_ActorID p) ++ omit_ptr AString "org_id" (p_OrgID p)
  ++ omit_ptr AString "workspace_id" (p_WorkspaceID p) ++ omit_string "timestamp" (p_Timestamp p)
  ++ omit_string "trace_id" (p_TraceID p) ++ omit_string "span_id" (p_SpanID p)
  ++ omit_string "parent_span_id" (p_ParentSpanID p).

Definition payload_names : list string :=
  ["type"; "data"; "actor_id"; "org_id"; "workspace_id"; "timestamp"; "trace_id"; "span_id"; "parent_span_id"].

Definition zero_payload : observationPayload := mkPayload "" None None None None "" "" "" "".

(** [json.Unmarshal(e.Payload, &p)] on the value the payload's text holds. *)
Definition decode_payload (j : json) : option observationPayload :=
  match j with
  | JNull => Some zero_payload
  | JObj l =>
      let str name := decode_field payload_names name dec_string l "" in
      let ptr name := decode_field payload_names name (dec_ptr "" dec_string) l None in
      ty ← str "type"; da ← decode_field payload_names "data" (fun j _ => Some (Some j)) l None;
      ac ← ptr "actor_id"; og ← ptr "org_id"; ws ← ptr "workspace_id"; ts ← str "timestamp";
      tr ← str "trace_id"; sp ← str "span_id"; ps ← str "parent_span_id";
      Some (mkPayload ty da ac og ws ts tr sp ps)
  | _ => None
  end.

(** The value the marshalled text holds. *)
Definition marshal_value (v : any) : option json := coerce_json <$> to_json v.

Definition marshalObservation (ev : option Event.t) : result capture_error json :=
  match ev with
  | None => Err CNilEvent
  | Some ev =>
      match marshal_value (Event.Data ev) with
      | None => Err CMarshal
      | Some data =>
          let p := mkPayload (Event.Type_ ev) (Some data) (Event.ActorID ev) (Event.OrgID ev)
                     (Event.WorkspaceID ev) (Event.Timestamp ev) (Event.TraceID ev) (Event.SpanID ev)
                     (Event.ParentSpanID ev) in
          match marshal_value (AStruct (payload_fields p)) with
          | None => Err CMarshal
          | Some j => Ok j
          end
      end
  end.

Definition digestRepresentation (payload : json) : result capture_error string :=
  match Canonicalize.Marshal (ARaw payload) with
  | None => Err CCanonicalize
  | Some canonical => Ok (S_of (hex_encode (Sha256.sum256 canonical)))
  end.

(** ** Evidence *)

Definition is_live (acq : AcquisitionInfo.t) : bool :=
  String.eqb (AcquisitionInfo.Mode acq) "live" &&
  String.eqb (AcquisitionInfo.SourceSystem acq) captureSourceSystem &&
  String.eqb (AcquisitionInfo.Adapter acq) captureAdapter.

Definition bundleHasAcquisition (b : bundle) : bool :=
  existsb (fun r => match Event.Acquisition (Event_ r) with None => false | Some acq => is_live acq end) b.

Definition committedHead (b : bundle) : string := match last b with None => "" | Some r => Hash r end.

Definition index_record (out : gmap string string) (r : Record_) : gmap string string :=
  match Event.Acquisition (Event_ r) with
  | None => out
  | Some acq =>
      if String.eqb (AcquisitionInfo.SourceRecordID acq) "" then out
      else <[AcquisitionInfo.SourceRecordID acq := AcquisitionInfo.SourceDigest acq]> out
  end.

Definition indexAcquisition (b : bundle) : gmap string string := fold_left index_record b ∅.

Definition accounted (es : list Journal.Entry) (r : Record_) : bool :=
  match Event.Acquisition (Event_ r) with
  | None => true
  | Some acq =>
      if String.eqb (AcquisitionInfo.SourceRecordID acq) "" || negb (is_live acq) then true
      else existsb (fun e => String.eqb (Journal.ObservationID e) (AcquisitionInfo.SourceRecordID acq)) es
  end.

Definition journalAccountsForEvidence (b : bundle) (j : Journal.journal) : result capture_error unit :=
  if negb (bundleHasAcquisition b) then Ok tt
  else if forallb (accounted (Journal.entries j)) b then Ok tt else Err CMismatch.

(** ** Checkpoints *)

Definition validateCheckpointPrefix (cp : option Checkpoint.t) (b : bundle) : result capture_error unit :=
  match cp with
  | None => Ok tt
  | Some cp =>
      let head := Checkpoint.BundleHeadHash cp in
      let n := Checkpoint.BundleRecordCount cp in
      if String.eqb head "" && (n =? 0) then Ok tt
      else if String.eqb head "" || (n <=? 0) then Err CMismatch
      else if Z.of_nat (length b) <? n then Err CMismatch
      else match b !! Z.to_nat (n - 1) with
           | Some r => if String.eqb (Hash r) head then Ok tt else Err CMismatch
           | None => Err CMismatch
           end
  end.

Definition checkpointPosition (cp : option Checkpoint.t) : result capture_error Z :=
  match cp with
  | None => Ok 0
  | Some cp =>
      let pos := TrimSpace (Checkpoint.Position cp) in
      if String.eqb pos "" || String.eqb pos "start" then Ok 0
      else match ParseInt64 pos with
           | Some n => if n <? 0 then Err CCorrupted else Ok n
           | None => Err CCorrupted
           end
  end.

(** ** Entries *)

Definition verifyEntryDigest (e : Journal.Entry) : result capture_error unit :=
  let? got := digestRepresentation (Journal.Payload e) in
  if negb (String.eqb got (Journal.RepresentationDigest e)) then Err CCorrupted else Ok tt.

Definition validateEntry (incarnation : string) (e : Journal.Entry) : result capture_error unit :=
  if negb (String.eqb (Journal.SourceSystem e) captureSourceSystem) then Err CEntrySource
  else if negb (String.eqb (Journal.Adapter e) captureAdapter) then Err CEntryAdapter
  else if negb (String.eqb (Journal.AdapterVersion e) captureAdapterVersion) then Err CEntryAdapterVersion
  else if negb (String.eqb (Journal.RepresentationVersion e) captureRepresentationVersion) then
    Err CEntryRepresentation
  else if negb (String.eqb (Journal.SourceIncarnation e) "") &&
          negb (String.eqb (Journal.SourceIncarnation e) incarnation) then Err CEntryIncarnation
  else verifyEntryDigest e.

Definition entry_acquisition (streamID digest : string) (e : Journal.Entry) : AcquisitionInfo.t :=
  AcquisitionInfo.mk "live" (Journal.SourceSystem e) (Journal.ObservationID e) (Journal.SourceTimestamp e)
    (Journal.ObservedAt e) digest (Journal.Adapter e) (Journal.AdapterVersion e)
    (Some (CheckpointInfo.mk (Journal.SourceSystem e) streamID (show_int (Journal.Position e))
             (Journal.ObservedAt e) (Journal.Adapter e) (Journal.AdapterVersion e))).

(** [json.Unmarshal(p.Data, &data)]; nil when there is none. *)
Definition payload_data (p : observationPayload) : option any :=
  match p_Data p with None => Some ANil | Some d => of_json d end.

Definition materialised_options (streamID digest : string) (e : Journal.Entry) (p : observationPayload) :
    AppendOptions :=
  mkOptions (p_ActorID p) (p_OrgID p) (p_WorkspaceID p) (p_Timestamp p) (p_TraceID p) (p_SpanID p)
    (p_ParentSpanID p) (Some (entry_acquisition streamID digest e)).

Definition appendMaterialised (streamID : string) (b : bundle) (e : Journal.Entry) : result capture_error bundle :=
  match decode_payload (Journal.Payload e) with
  | None => Err CDecode
  | Some p =>
      let? digest := digestRepresentation (Journal.Payload e) in
      if negb (String.eqb digest (Journal.RepresentationDigest e)) then Err CCorrupted
      else
        match payload_data p with
        | None => Err CDecode
        | Some data =>
            map_err CAppend (AppendWithOptions b (p_Type p) data
              (Some (materialised_options streamID digest e p)))
        end
  end.

(** The loop over pending entries; [commitPending] validates each one as it goes. The
    result has the number of records appended. *)
Fixpoint materialise (validate : Journal.Entry -> result capture_error unit) (streamID : string)
    (b : bundle) (index : gmap string string) (appended : nat) (pending : list Journal.Entry) :
    result capture_error (bundle * nat) :=
  match pending with
  | [] => Ok (b, appended)
  | e :: rest =>
      let? _ := validate e in
      match index !! Journal.ObservationID e with
      | Some d =>
          if String.eqb d (Journal.RepresentationDigest e) then
            materialise validate streamID b index appended rest
          else Err (CDifferentDigest (Journal.ObservationID e))
      | None =>
          let? b := appendMaterialised streamID b e in
          materialise validate streamID b
            (<[Journal.ObservationID e := Journal.RepresentationDigest e]> index) (S appended) rest
      end
  end.

Fixpoint first_error (validate : Journal.Entry -> result capture_error unit) (es : list Journal.Entry) :
    result capture_error unit :=
  match es with
  | [] => Ok tt
  | e :: rest => let? _ := validate e in first_error validate rest
  end.

(** The record hash [commitPending] returns: the last record with the identity. *)
Definition find_materialised (wantID : string) (b : bundle) : result capture_error string :=
  match List.find (fun r => match Event.Acquisition (Event_ r) with
                            | None => false
                            | Some acq => String.eqb (AcquisitionInfo.SourceRecordID acq) wantID
                            end) (reverse b) with
  | Some r => Ok (Hash r)
  | None => Err CNotFound
  end.

(** ** The coordinator *)

Record captureCoordinator := mkCoordinator {
  streamID : string;
  incarnation : string;
  journal : Journal.journal;
  cm : Checkpoint.CheckpointManager;
  fresh : bool;
  state : captureState;
  lastObservationAt : string;
  lastCommitAt : string;
  replayed : nat;
  lastErr : option capture_error;
  knownGap : bool
}.

Definition set_cm (m : Checkpoint.CheckpointManager) (c : captureCoordinator) : captureCoordinator :=
  mkCoordinator (streamID c) (incarnation c) (journal c) m (fresh c) (state c) (lastObservationAt c)
    (lastCommitAt c) (replayed c) (lastErr c) (knownGap c).

Definition set_journal (j : Journal.journal) (c : captureCoordinator) : captureCoordinator :=
  mkCoordinator (streamID c) (incarnation c) j (cm c) (fresh c) (state c) (lastObservationAt c)
    (lastCommitAt c) (replayed c) (lastErr c) (knownGap c).

Definition set_gap (c : captureCoordinator) : captureCoordinator :=
  mkCoordinator (streamID c) (incarnation c) (journal c) (cm c) (fresh c) (state c) (lastObservationAt c)
    (lastCommitAt c) (replayed c) (lastErr c) true.

Definition fail (err : capture_error) (c : captureCoordinator) : captureCoordinator :=
  mkCoordinator (streamID c) (incarnation c) (journal c) (cm c) (fresh c) captureDegraded (lastObservationAt c)
    (lastCommitAt c) (replayed c) (Some err) (knownGap c).

Definition committed (observedAt now : string) (c : captureCoordinator) : captureCoordinator :=
  mkCoordinator (streamID c) (incarnation c) (journal c) (cm c) (fresh c)
    (if knownGap c then captureDegraded else captureHealthy) observedAt now (replayed c) None (knownGap c).

Definition recovered (appended : nat) (c : captureCoordinator) : captureCoordinator :=
  mkCoordinator (streamID c) (incarnation c) (journal c) (cm c) (fresh c)
    (if knownGap c then captureDegraded else captureHealthy) (lastObservationAt c)
    (match Checkpoint.cm_Checkpoint (cm c) with None => "" | Some cp => Checkpoint.ObservedAt cp end)
    appended (lastErr c) (knownGap c).

Definition Health (c : captureCoordinator) : option capture_error := lastErr c.

Definition journalIncarnation (j : Journal.journal) : string :=
  match Journal.entries j with [] => "" | e :: _ => TrimSpace (Journal.SourceIncarnation e) end.

Definition newIncarnation (random : option bytes) : result capture_error string :=
  match random with None => Err CRandom | Some b => Ok (S_of (B "inc-" ++ hex_encode b)) end.

(** ** The protocol *)

(** [m.Version != "3"], or no manifest. *)
Definition is_v3 (b : bundle) : bool :=
  match Manifest b with Some m => String.eqb (Version m) "3" | None => false end.

Section protocol.
Context {W : Type} `{!EvidenceStore W}.

(** The clock readings, randomness and failures of one call. What a save meets depends
    on the state it finds: the names of temporary files are chosen there. *)
Record env := mkEnv {
  e_created : string;
  e_random : option bytes;
  e_now : string;
  e_observed : string;
  e_committed : string;
  e_append : Journal.append_env;
  e_marker : Journal.marker_write;
  e_reason : string;  (** the text of an error *)
  e_bundle : W -> fault;
  e_checkpoint : W -> fault
}.

Definition loadBundleForCapture (v : env) (w : W) : result capture_error (bundle * bool) :=
  match bundle_file w with
  | NotExist =>
      match NewWithOptions (e_created v) (e_random v) (mkNewOptions ManifestVersionV3 "") with
      | Err e => Err (CNew e)
      | Ok b => Ok (b, true)
      end
  | StatFails => Err CStat
  | Exists rd =>
      match LoadVerified rd with
      | Err e => Err (CLoad e)
      | Ok b => Ok (b, false)
      end
  end.

(** Save the bundle if anything was appended. *)
Definition save_appended (v : env) (w : W) (b : bundle) (appended : nat) :
    list W * bundle * result save_error unit :=
  if (0 <? appended)%nat then save_bundle (e_bundle v w) w b else ([], b, Ok tt).

Definition recover (v : env) (w : W) (c : captureCoordinator) : list W * result capture_error captureCoordinator :=
  match
    let? r := loadBundleForCapture v w in
    let '(b, created) := r in
    let? _ := if created then Ok tt
              else
                let? _ := map_err CVerify (Verify b) in
                if is_v3 b then Ok tt else Err CNotV3 in
    let? _ := validateCheckpointPrefix (Checkpoint.cm_Checkpoint (cm c)) b in
    let? committedPos := checkpointPosition (Checkpoint.cm_Checkpoint (cm c)) in
    let? _ := if bundleHasAcquisition b && (Journal.Len (journal c) =? 0) && (committedPos =? 0)
              then Err CMismatch else Ok tt in
    let? _ := if fresh c then journalAccountsForEvidence b (journal c) else Ok tt in
    let? _ := if Journal.LastPosition (journal c) <? committedPos then Err CMismatch else Ok tt in
    let? _ := first_error (validateEntry (incarnation c)) (Journal.entries (journal c)) in
    let? r := materialise (fun _ => Ok tt) (streamID c) b (indexAcquisition b) 0
                (Journal.EntriesFrom (journal c) committedPos) in
    Ok (r, created)
  with
  | Err e => ([], Err e)
  | Ok (b, appended, created) =>
      let '(ws, b, r) := save_appended v w b appended in
      match r with
      | Err e => (ws, Err (CSave e))
      | Ok _ =>
          let changed := negb created || (0 <? appended)%nat in
          let m := if changed then Checkpoint.ManagerBindBundle (committedHead b) (Z.of_nat (length b)) (cm c)
                   else cm c in
          let m := if changed then
                     Checkpoint.UpdateCheckpoint (e_now v) (show_int (Journal.LastPosition (journal c))) ""
                       (Journal.Len (journal c)) m
                   else m in
          let '(m, ws', r) := save_checkpoint (e_checkpoint v (final w ws)) (final w ws) m in
          match r with
          | Err e => (ws ++ ws', Err (CCheckpoint e))
          | Ok _ => (ws ++ ws', Ok (recovered appended (set_cm m c)))
          end
      end
  end.

Definition commitPending (v : env) (w : W) (c : captureCoordinator) (wantID : string) :
    captureCoordinator * list W * result capture_error string :=
  match
    let? committedPos := checkpointPosition (Checkpoint.cm_Checkpoint (cm c)) in
    let? r := loadBundleForCapture v w in
    let '(b, created) := r in
    let? _ := if created && negb (is_v3 b) then Err CNotV3 else Ok tt in
    materialise (validateEntry (incarnation c)) (streamID c) b (indexAcquisition b) 0
      (Journal.EntriesFrom (journal c) committedPos)
  with
  | Err e => (c, [], Err e)
  | Ok (b, appended) =>
      let '(ws, b, r) := save_appended v w b appended in
      match r with
      | Err e => (c, ws, Err (CSave e))
      | Ok _ =>
          let m := Checkpoint.UpdateCheckpoint (e_now v) (show_int (Journal.LastPosition (journal c))) ""
                     (Journal.Len (journal c)) (cm c) in
          let m := Checkpoint.ManagerBindBundle (committedHead b) (Z.of_nat (length b)) m in
          let '(m, ws', r) := save_checkpoint (e_checkpoint v (final w ws)) (final w ws) m in
          let c := set_cm m c in
          match r with
          | Err e => (c, ws ++ ws', Err (CCheckpoint e))
          | Ok _ => (c, ws ++ ws', find_materialised wantID b)
          end
      end
  end.

(** Scoped by the incarnation as well as the position. *)
Definition observation_id (incarnation streamID : string) (pos : Z) : string :=
  incarnation +:+ "/" +:+ streamID +:+ ":" +:+ show_int pos.

Definition observation_entry (v : env) (c : captureCoordinator) (ev : Event.t) (payload : json) (digest : string) :
    Journal.Entry :=
  let pos := wrap64 (Journal.LastPosition (journal c) + 1) in
  Journal.mkEntry 0 0 "" (observation_id (incarnation c) (streamID c) pos)
    captureSourceSystem (incarnation c) captureRepresentationVersion digest (Event.Type_ ev) payload
    (Event.Timestamp ev) (e_observed v) captureAdapter captureAdapterVersion "".

Definition journalObservation (v : env) (jw : Journal.world) (c : captureCoordinator) (ev : option Event.t) :
    Journal.world * captureCoordinator * result capture_error Journal.Entry :=
  match
    let? payload := marshalObservation ev in
    let? digest := digestRepresentation payload in
    Ok (payload, digest)
  with
  | Err e => ((Journal.MarkDegraded (e_marker v) (e_reason v) jw).1, c, Err e)
  | Ok (payload, digest) =>
      let entry := observation_entry v c (default Event.zero ev) payload digest in
      let '(jw, j, r) := Journal.Append (e_append v) entry (jw, journal c) in
      (jw, set_journal j c, map_err CJournal r)
  end.

Definition commit (v : env) (jw : Journal.world) (w : W) (c : captureCoordinator) (ev : option Event.t) :
    Journal.world * list W * captureCoordinator * result capture_error string :=
  let '(jw, c, r) := journalObservation v jw c ev in
  match r with
  | Err e => (jw, [], fail e (set_gap c), Err e)
  | Ok entry =>
      let '(c, ws, r) := commitPending v w c (Journal.ObservationID entry) in
      match r with
      | Err e => (jw, ws, fail e c, Err e)
      | Ok hash => (jw, ws, committed (Journal.ObservedAt entry) (e_committed v) c, Ok hash)
      end
  end.

(** ** Starting capture *)

Definition choose_incarnation (v : env) (sourceIncarnation : string) (existing : option Checkpoint.t)
    (j : Journal.journal) : result capture_error string :=
  let incarnation := TrimSpace sourceIncarnation in
  if negb (String.eqb incarnation "") then Ok incarnation
  else
    let bound := match existing with Some cp => Checkpoint.SourceIncarnation cp | None => "" end in
    if negb (String.eqb bound "") then Ok bound
    else if negb (String.eqb (journalIncarnation j) "") then Ok (journalIncarnation j)
    else newIncarnation (e_random v).

Definition bind_incarnation (incarnation : string) (c : Checkpoint.t) : Checkpoint.t :=
  if String.eqb (Checkpoint.SourceIncarnation c) "" then
    Checkpoint.mk (Checkpoint.FormatVersion c) (Checkpoint.SourceSystem c) (Checkpoint.AcquisitionStream c)
      (Checkpoint.Position c) (Checkpoint.ObservedAt c) (Checkpoint.Adapter c) (Checkpoint.AdapterVersion c)
      (Checkpoint.Identity c) incarnation (Checkpoint.ProcessedCount c) (Checkpoint.LastRecordDigest c)
      (Checkpoint.BundleHeadHash c) (Checkpoint.BundleRecordCount c) (Checkpoint.Metadata c)
  else c.

Definition enableCapture (v : env) (jenv : Journal.open_env) (sourceIncarnation stream : string)
    (jw : Journal.world) (w : W) : Journal.world * list W * result capture_error captureCoordinator :=
  match
    match Checkpoint.Load (checkpoint_file w) with
    | Ok cp => Ok (Some cp)
    | Err Checkpoint.ErrCheckpointNotFound => Ok None
    | Err e => Err (CCheckpoint e)
    end
  with
  | Err e => (jw, [], Err e)
  | Ok existing =>
      let '(jw, r) := Journal.Open jenv stream jw in
      match
        let? j := map_err CJournal r in
        let? inc := choose_incarnation v sourceIncarnation existing j in
        let m := Checkpoint.mkManager None captureSourceSystem stream captureAdapter captureAdapterVersion inc
                   (SourceIdentity.mk captureSourceSystem stream true) in
        let '(m, r) := Checkpoint.LoadOrInitialize (e_now v) (checkpoint_file w) m in
        let? _ := map_err CCheckpoint r in
        let? _ := match existing with
                  | Some _ => map_err CCheckpoint (Checkpoint.ValidateSource m)
                  | None => Ok tt
                  end in
        let m := Checkpoint.with_checkpoint (bind_incarnation inc <$> Checkpoint.cm_Checkpoint m) m in
        Ok (mkCoordinator stream inc j m (match existing with Some _ => false | None => true end)
              captureUnknown "" "" 0 None (Journal.repaired j || Journal.Degraded jw))
      with
      | Err e => (jw, [], Err e)
      | Ok c => let '(ws, r) := recover v w c in (jw, ws, r)
      end
  end.

(** ** The recorder *)

Record BundleRecorder := mkRecorder { capture : option captureCoordinator; captureStopped : bool }.

Definition EnableCapture (v : env) (jenv : Journal.open_env) (sourceIncarnation stream : string)
    (jw : Journal.world) (w : W) (r : BundleRecorder) :
    Journal.world * list W * BundleRecorder * result capture_error unit :=
  match capture r with
  | Some c =>
      if negb (captureStopped r) then (jw, [], r, Ok tt)
      else
        let '(jw, ws, res) := enableCapture v jenv sourceIncarnation stream jw w in
        match res with
        | Ok c => (jw, ws, mkRecorder (Some c) false, Ok tt)
        | Err e => (jw, ws, mkRecorder None false, Err e)
        end
  | None =>
      let '(jw, ws, res) := enableCapture v jenv sourceIncarnation stream jw w in
      match res with
      | Ok c => (jw, ws, mkRecorder (Some c) false, Ok tt)
      | Err e => (jw, ws, mkRecorder None false, Err e)
      end
  end.

Definition loadBundleForAppend (v : env) (w : W) : result capture_error bundle :=
  match bundle_file w with
  | NotExist => match New (e_created v) (e_random v) with Err e => Err (CNew e) | Ok b => Ok b end
  | StatFails => Err CStat
  | Exists rd => match LoadVerified rd with Err e => Err (CLoad e) | Ok b => Ok b end
  end.

Definition appendEventLocked (v : env) (jw : Journal.world) (w : W) (r : BundleRecorder) (ev : Event.t) :
    Journal.world * list W * BundleRecorder * result capture_error string :=
  if captureStopped r then (jw, [], r, Err CStopped)
  else
    match capture r with
    | Some c =>
        let '(jw, ws, c, res) := commit v jw w c (Some ev) in
        (jw, ws, mkRecorder (Some c) (captureStopped r), res)
    | None =>
        match
          let? b := loadBundleForAppend v w in
          let? b := map_err CAppend (AppendWithOptions b (Event.Type_ ev) (Event.Data ev)
            (Some (mkOptions (Event.ActorID ev) None None (Event.Timestamp ev) "" "" "" None))) in
          match last b with None => Err CNoRecords | Some rec => Ok (b, Hash rec) end
        with
        | Err e => (jw, [], r, Err e)
        | Ok (b, recordHash) =>
            let '(ws, _, res) := save_bundle (e_bundle v w) w b in
            (jw, ws, r, match res with Err e => Err (CSave e) | Ok _ => Ok recordHash end)
        end
    end.

(** A nil recorder or event is [None]. *)
Definition AppendEventHash (v : env) (jw : Journal.world) (w : W) (r : option BundleRecorder) (ev : option Event.t) :
    Journal.world * list W * option BundleRecorder * result capture_error string :=
  match r, ev with
  | Some r, Some ev =>
      let '(jw, ws, r, res) := appendEventLocked v jw w r ev in (jw, ws, Some r, res)
  | _, _ => (jw, [], r, Err CNilRecorder)
  end.

Definition close_journal (fails : bool) (c : captureCoordinator) : captureCoordinator :=
  set_journal (Journal.Close fails (journal c)).1 c.

Definition closeCapture (fails : bool) (r : BundleRecorder) : BundleRecorder :=
  mkRecorder (close_journal fails <$> capture r) true.

Definition CaptureHealth (r : BundleRecorder) : option capture_error := capture r ≫= Health.
End protocol.
Arguments env : clear implicits.
Arguments env W {_}.

(** ** The representation decodes to the observation *)

(** What [marshalObservation] puts into the representation. *)
Definition observed (data : json) (ev : Event.t) : observationPayload :=
  mkPayload (Event.Type_ ev) (Some data) (Event.ActorID ev) (Event.OrgID ev) (Event.WorkspaceID ev)
    (Event.Timestamp ev) (Event.TraceID ev) (Event.SpanID ev) (Event.ParentSpanID ev).

Lemma payload_fields_sub p : (payload_fields p).*1 `sublist_of` payload_names.
Proof. unfold payload_fields, payload_names. rewrite <- (app_nil_r (omit_string "parent_span_id" _)). solve_fields. Qed.

Lemma payload_fields_assoc p :
  assoc "type" (payload_fields p) = Some (AString (p_Type p)) /\
  assoc "data" (payload_fields p) = Some (ARaw (default JNull (p_Data p))) /\
  assoc "actor_id" (payload_fields p) = AString <$> p_ActorID p /\
  assoc "org_id" (payload_fields p) = AString <$> p_OrgID p /\
  assoc "workspace_id" (payload_fields p) = AString <$> p_WorkspaceID p /\
  assoc "timestamp" (payload_fields p) = opt_string (p_Timestamp p) /\
  assoc "trace_id" (payload_fields p) = opt_string (p_TraceID p) /\
  assoc "span_id" (payload_fields p) = opt_string (p_SpanID p) /\
  assoc "parent_span_id" (payload_fields p) = opt_string (p_ParentSpanID p).
Proof. unfold payload_fields. assoc_fields. Qed.

(** Valid text in every field. *)
Definition payload_valid (p : observationPayload) : bool :=
  valid_string (p_Type p) && valid_ptr (p_ActorID p) && valid_ptr (p_OrgID p) && valid_ptr (p_WorkspaceID p) &&
  valid_string (p_Timestamp p) && valid_string (p_TraceID p) && valid_string (p_SpanID p) &&
  valid_string (p_ParentSpanID p).

Lemma payload_decode p d j :
  payload_valid p = true -> p_Data p = Some d -> valid_json d = true ->
  marshal_value (AStruct (payload_fields p)) = Some j -> decode_payload j = Some p.
Proof.
  intros Hv Hd Hvd Hj. unfold marshal_value in Hj. apply fmap_Some in Hj as (j0 & Hj0 & ->).
  unfold payload_valid in Hv. rewrite !andb_true_iff in Hv. destruct_and!.
  destruct (struct_decode payload_names (payload_fields p) j0 eq_refl (payload_fields_sub p) Hj0) as (jl & -> & Htot & Hdec).
  destruct (payload_fields_assoc p) as (E1 & E2 & E3 & E4 & E5 & E6 & E7 & E8 & E9).
  destruct (Htot _ _ E2) as [jd Hjd]. unfold decode_payload.
  rewrite !Hdec, E1, E2, E3, E4, E5, E6, E7, E8, E9. rewrite read_string by done. cbn [mbind option_bind].
  rewrite Hjd. cbn [mbind option_bind]. rewrite Hd in Hjd. cbn in Hjd.
  destruct (wf_json d); [|discriminate]. injection Hjd as <-. rewrite coerce_valid_json by done.
  rewrite !read_ptr_string by done. cbn [mbind option_bind]. rewrite !read_omit_string by done.
  cbn [mbind option_bind]. rewrite <- Hd. by destruct p.
Qed.

Lemma marshalObservation_inv ev j :
  marshalObservation (Some ev) = Ok j ->
  exists data, marshal_value (Event.Data ev) = Some data /\
    marshal_value (AStruct (payload_fields (observed data ev))) = Some j.
Proof.
  unfold marshalObservation. destruct (marshal_value (Event.Data ev)) as [data|]; [|discriminate].
  fold (observed data ev). destruct (marshal_value (AStruct _)) as [j0|] eqn:E; [|discriminate].
  intros [= ->]. by exists data.
Qed.

Lemma marshal_value_valid v d : marshal_value v = Some d -> valid_json d = true.
Proof. unfold marshal_value. intros (j & _ & ->)%fmap_Some. apply valid_coerce_json. Qed.

(** ** Properties *)

(** What is journaled is what is recorded. For an event with valid text, the
    representation [marshalObservation] makes decodes to the event; a record that
    [appendMaterialised] makes from it has the event's type, attribution, trace context
    and timestamp, the payload as JSON decodes it, and the provenance of the journal
    entry with the digest of the representation. *)
Theorem materialised_record_is_the_observation stream ev b e b' :
  payload_valid (observed JNull ev) = true ->
  marshalObservation (Some ev) = Ok (Journal.Payload e) ->
  appendMaterialised stream b e = Ok b' ->
  exists r, b' = b ++ [r] /\
    Event.Type_ (Event_ r) = Event.Type_ ev /\ redecode (Event.Data ev) = Some (Event.Data (Event_ r)) /\
    Event.ActorID (Event_ r) = Event.ActorID ev /\ Event.OrgID (Event_ r) = Event.OrgID ev /\
    Event.WorkspaceID (Event_ r) = Event.WorkspaceID ev /\ Event.Timestamp (Event_ r) = Event.Timestamp ev /\
    Event.TraceID (Event_ r) = Event.TraceID ev /\ Event.SpanID (Event_ r) = Event.SpanID ev /\
    Event.ParentSpanID (Event_ r) = Event.ParentSpanID ev /\
    Event.Acquisition (Event_ r) = Some (entry_acquisition stream (Journal.RepresentationDigest e) e) /\
    digestRepresentation (Journal.Payload e) = Ok (Journal.RepresentationDigest e) /\
    Compute (Event_ r) = Ok (Hash r).
Proof.
  intros Hv Hm Ha. apply marshalObservation_inv in Hm as (data & Hd & Hp).
  pose proof (payload_decode (observed data ev) data _ Hv eq_refl (marshal_value_valid _ _ Hd) Hp) as Hdec.
  unfold appendMaterialised in Ha. rewrite Hdec in Ha.
  destruct (digestRepresentation (Journal.Payload e)) as [digest|]; [|discriminate].
  destruct (String.eqb_spec digest (Journal.RepresentationDigest e)) as [Ed|]; [|discriminate]. cbn [negb] in Ha.
  cbn [payload_data observed p_Data] in Ha. destruct (of_json data) as [v|] eqn:Ev; [|discriminate].
  destruct (AppendWithOptions _ _ _ _) as [b0|] eqn:Eapp; [|discriminate]. injection Ha as <-.
  apply append_inv in Eapp as (h & -> & Hh & _). rewrite Ed in *. eexists. split; [reflexivity|].
  split_and!; try reflexivity; [|exact Hh]. cbn [Event_ append_event Event.Data].
  unfold redecode. unfold marshal_value in Hd. apply fmap_Some in Hd as (j0 & -> & ->). exact Ev.
Qed.

(** ** A concrete observation *)

Definition sample_observation : Event.t :=
  Event.mk 0 "" "ai.tool.exec" "" (AMap [("tool", AString "read"); ("ok", ABool true)]) (Some "agent-1") None None
    "2026-01-02T03:04:05Z" "" "" "" None.

(** Its journal entry. *)
Definition sample_journaled : Journal.Entry :=
  Eval vm_compute in
    match marshalObservation (Some sample_observation) with
    | Ok p =>
        match digestRepresentation p with
        | Ok d => Journal.mkEntry 1 1 "" "run-1/s:1" captureSourceSystem "run-1" captureRepresentationVersion d
            "ai.tool.exec" p "2026-01-02T03:04:05Z" "2026-01-02T03:04:06Z" captureAdapter captureAdapterVersion ""
        | Err _ => Journal.mkEntry 0 0 "" "" "" "" "" "" "" JNull "" "" "" "" ""
        end
    | Err _ => Journal.mkEntry 0 0 "" "" "" "" "" "" "" JNull "" "" "" "" ""
    end.

Definition sample_recorded : bundle :=
  Eval vm_compute in
    match appendMaterialised "s" sample_new sample_journaled with Ok b => b | Err _ => [] end.

Lemma materialised_record_is_the_observation_witness :
  exists r, sample_recorded = sample_new ++ [r] /\
    Event.Type_ (Event_ r) = "ai.tool.exec" /\
    redecode (Event.Data sample_observation) = Some (Event.Data (Event_ r)) /\ Event.ActorID (Event_ r) = Some "agent-1" /\
    Compute (Event_ r) = Ok (Hash r).
Proof.
  destruct (materialised_record_is_the_observation "s" sample_observation sample_new sample_journaled sample_recorded)
    as (r & H1 & H2 & H3 & H4 & _ & _ & _ & _ & _ & _ & _ & _ & H5);
    [vm_compute; reflexivity|vm_compute; reflexivity|vm_compute; reflexivity|].
  exists r. exact (conj H1 (conj H2 (conj H3 (conj H4 H5)))).
Defined.
End Capture.
