(* ===== verification/CaptureRecovery.v ===== *)
(** * Crash safety of the capture path

    The invariant between the journal, the bundle and the checkpoint, kept by every
    write of [commitPending] and [recover] and at every crash between two of them: the
    bundle on disk is the manifest followed by the observations of a prefix of the
    journal, in order, each once; the checkpoint never points past it. From every such
    state recovery succeeds and brings the bundle up to the whole journal. *)

From S2P Require Import Prelude GoText Sha256 GoFloat GoJson GoValue GoStruct Canonicalize Event HashChain Bundle BundleIO BundleSign Journal Checkpoint CaptureStore Capture.
Import Canonicalize HashChain Bundle BundleIO CaptureStore Capture.

Module CaptureRecovery.

Abbreviation Entry := Journal.Entry.
Abbreviation entry_id := Journal.ObservationID.
Abbreviation entry_digest := Journal.RepresentationDigest.

(** ** Entries that can be materialised *)

Section entries.
Context (inc stream : string).

(** The provenance of the record an entry becomes. *)
Definition acq_of (e : Entry) : AcquisitionInfo.t := entry_acquisition stream (entry_digest e) e.

Definition materialisable (e : Entry) : bool :=
  match decode_payload (Journal.Payload e) with
  | None => false
  | Some p =>
      match payload_data p with
      | None => false
      | Some d =>
          eventTypeRegexp (p_Type p) && negb (String.eqb (p_Type p) ManifestEventType) &&
          event_ok (append_event (p_Type p) d
            (Some (materialised_options stream (entry_digest e) e p)) 0 GenesisHash)
      end
  end.

(** An entry of this capture: it passes the checks of [validateEntry], carries the
    incarnation and the identity of its position, and holds an observation a bundle
    accepts. *)
Definition good (e : Entry) : bool :=
  is_ok (validateEntry inc e) && String.eqb (Journal.SourceIncarnation e) inc &&
  String.eqb (entry_id e) (observation_id inc stream (Journal.Position e)) && materialisable e.

Lemma good_valid e : good e = true -> validateEntry inc e = Ok tt.
Proof.
  unfold good. intros H. destruct (validateEntry inc e) as [[]|]; [done|discriminate].
Qed.

Lemma good_position e : good e = true -> entry_id e = observation_id inc stream (Journal.Position e).
Proof. unfold good. intros [[_ H]%andb_true_iff _]%andb_true_iff. by apply String.eqb_eq in H. Qed.

Lemma good_id e : good e = true -> entry_id e <> "".
Proof. intros ->%good_position. unfold observation_id. by destruct inc. Qed.

Lemma good_digest e : good e = true -> digestRepresentation (Journal.Payload e) = Ok (entry_digest e).
Proof.
  intros H%good_valid. unfold validateEntry in H.
  repeat (match type of H with (if ?c then _ else _) = _ => destruct c; [discriminate|] end).
  unfold verifyEntryDigest in H. destruct (digestRepresentation _) as [d|]; [|discriminate].
  cbn -[String.eqb] in H. destruct (String.eqb_spec d (entry_digest e)) as [E|]; [by rewrite E|discriminate].
Qed.

(** ** Renumbering an event *)

Lemma event_ok_relink ty d o s p :
  event_ok (append_event ty d (Some o) 0 GenesisHash) = true -> seq_ok s = true -> Event.int64 s = true ->
  valid_string p = true ->
  event_ok (append_event ty d (Some o) s p) = true.
Proof.
  unfold event_ok, Event.valid. cbn [append_event Event.Sequence Event.PrevHash Event.Type_ Event.HashAlgo
    Event.Data Event.ActorID Event.OrgID Event.WorkspaceID Event.Timestamp Event.TraceID Event.SpanID
    Event.ParentSpanID Event.Acquisition].
  intros H Hs Hi Hp. rewrite Hs, Hp, Hi. boolify. rewrite !andb_true_iff. by split_and!.
Qed.

(** ** Heads of verified bundles *)

Lemma verified_last b r : Verify b = Ok tt -> last b = Some r -> Compute (Event_ r) = Ok (Hash r).
Proof.
  unfold bundle in *. rewrite bundle_Verify_linked. intros Hl Hr.
  destruct b as [|r' b _] using rev_ind; [done|]. rewrite last_snoc in Hr. injection Hr as ->.
  unfold events, hashes in Hl. rewrite !map_app in Hl. cbn [map] in Hl. by apply linked_snoc in Hl as (_ & _ & _ & ?).
Qed.

Lemma verified_prev_valid b : Verify b = Ok tt -> valid_string (prev_hash b) = true.
Proof.
  intros Hv. unfold prev_hash. destruct (last b) as [r|] eqn:E; [|done].
  eapply BundleSign.Compute_valid. by eapply verified_last.
Qed.

Lemma verified_head b :
  Verify b = Ok tt -> b <> [] -> committedHead b <> "" /\ valid_string (committedHead b) = true.
Proof.
  intros Hv Hb. unfold committedHead. destruct (last b) as [r|] eqn:E.
  - pose proof (verified_last b r Hv E) as Hc. split; [|by eapply BundleSign.Compute_valid].
    intros Hn. apply length_Compute in Hc. by rewrite Hn in Hc.
  - by apply last_None in E.
Qed.

Lemma v3_manifest b : is_v3 b = true ->
  exists r rest m, b = r :: rest /\ hasManifestRecord b = true /\ parseManifestData r = Ok m /\ Version m = "3".
Proof.
  unfold is_v3. destruct (Manifest b) as [m|] eqn:E; [|done]. intros Hm. boolify.
  destruct (FileStore.manifest_first b (ex_intro _ m E)) as (r & rest & -> & H1 & m' & H2 & H3).
  rewrite E in H3. injection H3 as <-. by exists r, rest, m.
Qed.

Lemma v3_app b l : is_v3 b = true -> is_v3 (b ++ l) = true.
Proof.
  intros (r & rest & m & -> & H1 & H2 & H3)%v3_manifest. unfold is_v3, Manifest.
  change (hasManifestRecord ((r :: rest) ++ l)) with (hasManifestRecord (r :: rest)). rewrite H1. cbn [app].
  by rewrite H2, H3.
Qed.

Lemma same_v3 b b' : same_evidence b b' -> is_v3 b = is_v3 b'.
Proof.
  intros (_ & _ & H & _). unfold declares in H. unfold is_v3.
  destruct (Manifest b), (Manifest b'); cbn in H; congruence.
Qed.

(** ** Materialising one entry *)

Context (limit : Z) (numbers : forall n, 0 <= n <= limit -> seq_ok n = true) (limit_small : limit < 2 ^ 63).

Lemma append_good b e :
  good e = true -> Verify b = Ok tt -> is_v3 b = true -> Z.of_nat (length b) <= limit ->
  exists b', appendMaterialised stream b e = Ok b' /\ sources b' = sources b ++ [Some (acq_of e)] /\
    b `prefix_of` b' /\ Verify b' = Ok tt /\ is_v3 b' = true /\ length b' = S (length b).
Proof.
  intros Hg Hv H3 Hl. pose proof (good_digest e Hg) as Hd. unfold appendMaterialised.
  unfold good in Hg. apply andb_true_iff in Hg as [_ Hm]. unfold materialisable in Hm.
  destruct (decode_payload _) as [p|]; [|discriminate]. rewrite Hd, String.eqb_refl. cbn [negb].
  destruct (payload_data p) as [d|]; [|discriminate].
  apply andb_true_iff in Hm as [[Hre Hty]%andb_true_iff Hok]. apply negb_true_iff in Hty.
  set (o := materialised_options stream (entry_digest e) e p) in *.
  destruct (v3_manifest b H3) as (r & rest & m & Hb & H1 & H2 & Hver).
  destruct (canonical_ok_Compute (append_event (p_Type p) d (Some o) (next_sequence b (p_Type p)) (prev_hash b))) as [h Hh].
  { apply event_ok_canonical, event_ok_relink; [exact Hok| | |by apply verified_prev_valid];
      unfold next_sequence; rewrite Hty, H1; [apply numbers; lia|]. unfold Event.int64. lia. }
  assert (AppendWithOptions b (p_Type p) d (Some o) = Ok (b ++ [mkRecord (append_event (p_Type p) d (Some o)
    (next_sequence b (p_Type p)) (prev_hash b)) h [] [] false])) as Ha.
  { unfold AppendWithOptions. rewrite Hty, Hre. cbn [andb negb].
    replace (acquisition_guard b (p_Type p) (Some o)) with (Ok (E := append_error) tt).
    - by rewrite Hh.
    - unfold acquisition_guard, o, materialised_options. cbn [Acquisition]. rewrite Hty, H1. cbn [negb].
      rewrite Hb, H2, Hver. done. }
  rewrite Ha. cbn [map_err]. eexists. split; [reflexivity|]. split_and!.
  - unfold sources, bundle in *. by rewrite map_app.
  - by eexists.
  - by eapply append_linked.
  - by apply v3_app.
  - unfold bundle in *. rewrite length_app. cbn. lia.
Qed.

(** ** Materialising a list *)

Lemma materialise_known validate b idx a l l' :
  Forall (fun e => validate e = Ok tt) l -> Forall (fun e => idx !! entry_id e = Some (entry_digest e)) l ->
  materialise validate stream b idx a (l ++ l') = materialise validate stream b idx a l'.
Proof.
  intros Hv Hi. induction Hv as [|e l He _ IH]; [done|]. apply Forall_cons in Hi as [Hie Hi].
  cbn [app materialise]. rewrite He, Hie, String.eqb_refl. by apply IH.
Qed.

Definition recorded_as (l : list Entry) : list (option AcquisitionInfo.t) := (fun e => Some (acq_of e)) <$> l.

Lemma materialise_new validate b idx a l :
  Forall (fun e => validate e = Ok tt) l -> Forall (fun e => good e = true) l -> NoDup (entry_id <$> l) ->
  Forall (fun e => idx !! entry_id e = None) l ->
  Verify b = Ok tt -> is_v3 b = true -> Z.of_nat (length b + length l) <= limit + 1 ->
  exists b', materialise validate stream b idx a l = Ok (b', (a + length l)%nat) /\
    sources b' = sources b ++ recorded_as l /\ b `prefix_of` b' /\ Verify b' = Ok tt /\ is_v3 b' = true /\
    length b' = (length b + length l)%nat.
Proof.
  intros Hval Hg. revert b idx a. induction Hval as [|e l He _ IH]; intros b idx a Hn Hi Hv H3 Hl.
  { exists b. cbn. rewrite app_nil_r, !Nat.add_0_r. by split_and!. }
  apply Forall_cons in Hg as [Hge Hg], Hi as [Hie Hi]. rewrite fmap_cons in Hn. apply NoDup_cons in Hn as [Hne Hn].
  cbn [length] in Hl. destruct (append_good b e Hge Hv H3 ltac:(lia)) as (b1 & Ha & Hs & Hp & Hv1 & H31 & Hl1).
  destruct (IH Hg b1 (<[entry_id e := entry_digest e]> idx) (S a)) as (b' & Hm & Hs' & Hp' & Hv' & H3' & Hl'); [done| |done|done|lia|].
  - rewrite Forall_forall in Hi |- *. intros x Hx. rewrite lookup_insert_ne; [by apply Hi|].
    intros E. apply Hne. rewrite E. by apply list_elem_of_fmap_2.
  - exists b'. cbn [materialise length]. rewrite He, Hie, Ha, Hm. split_and!; [do 2 f_equal; lia| |by etrans|done|done|lia].
    rewrite Hs', Hs. unfold recorded_as. rewrite fmap_cons. by rewrite <- app_assoc.
Qed.

(** ** The index of the evidence *)

Definition index_source (out : gmap string string) (o : option AcquisitionInfo.t) : gmap string string :=
  match o with
  | None => out
  | Some acq =>
      if String.eqb (AcquisitionInfo.SourceRecordID acq) "" then out
      else <[AcquisitionInfo.SourceRecordID acq := AcquisitionInfo.SourceDigest acq]> out
  end.

Lemma indexAcquisition_sources b : indexAcquisition b = fold_left index_source (sources b) ∅.
Proof.
  unfold indexAcquisition. generalize (∅ : gmap string string). induction b as [|r b IH]; intros m; [done|].
  cbn [fold_left sources map]. by rewrite IH.
Qed.

(** What a bundle of this capture carries: a manifest, then the records of [l]. *)
Definition evidence_of (l : list Entry) : list (option AcquisitionInfo.t) := None :: recorded_as l.

Lemma index_acq_of m x :
  good x = true -> index_source m (Some (acq_of x)) = <[entry_id x := entry_digest x]> m.
Proof. intros Hx. cbn. by rewrite (proj2 (String.eqb_neq _ _) (good_id x Hx)). Qed.

Lemma index_evidence l k :
  Forall (fun e => good e = true) l -> NoDup (entry_id <$> l) ->
  (forall e, e ∈ l -> fold_left index_source (evidence_of l) ∅ !! entry_id e = Some (entry_digest e)) /\
  (k ∉ (entry_id <$> l) -> fold_left index_source (evidence_of l) ∅ !! k = None).
Proof.
  unfold evidence_of. cbn [fold_left]. change (index_source ∅ None) with (∅ : gmap string string).
  induction l as [|x l IH] using rev_ind; intros Hg Hn.
  { split; [by intros e ?%elem_of_nil|]. intros _. apply lookup_empty. }
  apply Forall_app in Hg as [Hg [Hx _]%Forall_cons]. rewrite fmap_app in Hn |- *. apply NoDup_app in Hn as (Hn & Hd & _).
  destruct (IH Hg Hn) as [H1 H2]. unfold recorded_as in *. rewrite fmap_app, fold_left_app. cbn [fmap list_fmap fold_left].
  rewrite index_acq_of by done. split.
  - intros e [He|He%list_elem_of_singleton]%elem_of_app; [|subst; apply lookup_insert_eq].
    rewrite lookup_insert_ne; [by apply H1|]. intros E. apply (Hd (entry_id x)); [|left].
    rewrite E. by apply list_elem_of_fmap_2.
  - intros Hk. rewrite not_elem_of_app in Hk. destruct Hk as [Hk Hk'].
    rewrite lookup_insert_ne; [by apply H2|]. intros <-. apply Hk'. left.
Qed.

(** ** The journal's entries *)

(** The entries of the journal: numbered from 1, with distinct identities, each of this
    capture. *)
Definition journal_ok (es : list Entry) : Prop :=
  (forall i e, es !! i = Some e -> Journal.Position e = Z.of_nat i + 1) /\
  Forall (fun e => good e = true) es /\ NoDup (entry_id <$> es).

Lemma journal_LastPosition j : journal_ok (Journal.entries j) -> Journal.LastPosition j = Journal.Len j.
Proof.
  intros (Hp & _). unfold Journal.LastPosition, Journal.Len.
  destruct (Journal.entries j) as [|e es _] using rev_ind; [done|]. rewrite last_snoc, length_app.
  rewrite (Hp (length es) e) by (by apply list_lookup_middle). cbn. lia.
Qed.

Lemma EntriesFrom_drop j p :
  journal_ok (Journal.entries j) -> 0 <= p -> Journal.EntriesFrom j p = drop (Z.to_nat p) (Journal.entries j).
Proof.
  intros (Hp & _) H0. unfold Journal.EntriesFrom. revert Hp.
  induction (Journal.entries j) as [|e es IH] using rev_ind; intros Hp; [by rewrite drop_nil|].
  rewrite List.filter_app, IH.
  2:{ intros i x Hx. apply Hp. by apply lookup_app_l_Some. }
  cbn [List.filter]. rewrite (Hp (length es) e) by (by apply list_lookup_middle).
  destruct (p <? Z.of_nat (length es) + 1) eqn:E; boolify.
  - rewrite drop_app_le by lia. done.
  - rewrite (drop_ge es), (drop_ge (es ++ [e])) by (rewrite ?length_app; cbn; lia). done.
Qed.

(** ** Checkpoints that point into the evidence *)

Definition prefix_ok (cp : Checkpoint.t) (hs : list string) : Prop :=
  (Checkpoint.BundleHeadHash cp = "" /\ Checkpoint.BundleRecordCount cp = 0) \/
  (Checkpoint.BundleHeadHash cp <> "" /\ 0 < Checkpoint.BundleRecordCount cp <= Z.of_nat (length hs) /\
   hs !! Z.to_nat (Checkpoint.BundleRecordCount cp - 1) = Some (Checkpoint.BundleHeadHash cp)).

Lemma prefix_ok_mono cp hs hs' : hs `prefix_of` hs' -> prefix_ok cp hs -> prefix_ok cp hs'.
Proof.
  intros [l ->] [H|(H1 & H2 & H3)]; [by left|right]. split_and!; [done|lia|rewrite length_app; lia|].
  by apply lookup_app_l_Some.
Qed.

Lemma validate_prefix cp b : prefix_ok cp (hashes b) -> validateCheckpointPrefix (Some cp) b = Ok tt.
Proof.
  unfold validateCheckpointPrefix. intros [[-> ->]|(H1 & H2 & H3)]; [done|].
  rewrite (proj2 (String.eqb_neq _ _) H1). cbn [andb orb].
  unfold hashes in H2, H3. rewrite length_map in H2.
  rewrite (proj2 (Z.leb_gt _ _)), (proj2 (Z.ltb_ge _ _)) by lia.
  unfold bundle in *. change (map Hash b) with (Hash <$> b) in H3. rewrite list_lookup_fmap in H3.
  destruct (b !! Z.to_nat _) as [r|]; [|discriminate]. injection H3 as ->.
  by rewrite String.eqb_refl.
Qed.

(** A checkpoint over evidence with hashes [hs] that records [k] entries. *)
Definition checkpoint_ok (k : nat) (hs : list string) (cp : Checkpoint.t) : Prop :=
  storable_checkpoint cp /\ Checkpoint.SourceIncarnation cp = inc /\
  Checkpoint.Validate cp captureSourceSystem stream captureAdapter captureAdapterVersion inc = Ok tt /\
  prefix_ok cp hs /\
  exists p, checkpointPosition (Some cp) = Ok p /\ 0 <= p <= Z.of_nat k.

Lemma checkpoint_ok_mono k hs k' hs' cp :
  (k <= k')%nat -> hs `prefix_of` hs' -> checkpoint_ok k hs cp -> checkpoint_ok k' hs' cp.
Proof.
  intros Hk Hh (H1 & H2 & H3 & H4 & p & H5 & H6). split_and!; [done..|by eapply prefix_ok_mono|].
  exists p. split; [done|lia].
Qed.

(** ** The bundle on disk *)

Lemma LoadVerified_verified rd b : LoadVerified rd = Ok b -> Verify b = Ok tt.
Proof.
  unfold LoadVerified. destruct (Load _ _ _) as [[|r rest]|]; [discriminate| |discriminate].
  destruct (negb _); [discriminate|]. destruct (Verify (r :: rest)) as [[]|] eqn:E; [|discriminate].
  by intros [= <-].
Qed.

(** Clock readings and random bytes are what [time.Now] and [crypto/rand] give. *)
Definition timely {W} `{!EvidenceStore W} (v : env W) : Prop :=
  valid_string (e_created v) = true /\ e_created v <> "" /\ valid_string (e_now v) = true /\
  e_random v <> Some [].

Lemma new_capture_bundle {W} `{!EvidenceStore W} (v : env W) b :
  timely v -> NewWithOptions (e_created v) (e_random v) (mkNewOptions ManifestVersionV3 "") = Ok b ->
  Verify b = Ok tt /\ is_v3 b = true /\ sources b = evidence_of [].
Proof.
  intros (Hc & Hne & _ & Hr) Hb. split; [by eapply built_verified, built_new|].
  destruct (e_random v) as [rnd|] eqn:Er; [|discriminate].
  destruct (new_bundle (e_created v) rnd 3 "") as (b' & Hb' & Hm); [done|done|congruence|done|lia|].
  unfold ManifestVersionV3 in Hb. rewrite Hb in Hb'. injection Hb' as <-. split.
  - unfold is_v3, Manifest. unfold ManifestE in Hm. destruct b as [|r rest]; [done|].
    destruct (hasManifestRecord (r :: rest)); [|done]. destruct (parseManifestData r) as [m|]; [|done].
    cbn in Hm. injection Hm as ->. done.
  - apply New_append in Hb as [data Ha]. apply append_inv in Ha as (h & -> & _). done.
Qed.
End entries.

(** ** The invariant *)

Section protocol.
Context {W : Type} `{!EvidenceStore W, !EvidenceLaws W}.
Context (inc stream : string) (limit : Z).
Context (numbers : forall n, 0 <= n <= limit -> seq_ok n = true) (limit_small : limit < 2 ^ 63).

Definition sound_env (v : env W) : Prop :=
  timely v /\ forall w, sound (e_bundle v w) w /\ sound (e_checkpoint v w) w.

Definition calm_env (v : env W) : Prop :=
  timely v /\ is_Some (e_random v) /\ forall w, calm (e_bundle v w) w /\ calm (e_checkpoint v w) w.

Lemma calm_env_sound v : calm_env v -> sound_env v.
Proof. intros (H & _ & Hc). split; [done|]. intros w. destruct (Hc w). split; by apply calm_sound. Qed.

(** The bundle on disk holds the records of [l], under a manifest, with hashes [hs]; no
    file, no records. *)
Definition bundle_at (w : W) (l : list Entry) (hs : list string) : Prop :=
  (bundle_file w = NotExist /\ l = [] /\ hs = []) \/
  (exists rd b, bundle_file w = Exists rd /\ LoadVerified rd = Ok b /\ is_v3 b = true /\
     sources b = evidence_of stream l /\ hashes b = hs).

Definition checkpoint_at (w : W) (k : nat) (hs : list string) : Prop :=
  Checkpoint.Load (checkpoint_file w) = Err Checkpoint.ErrCheckpointNotFound \/
  exists cp, Checkpoint.Load (checkpoint_file w) = Ok cp /\ checkpoint_ok inc stream k hs cp.

(** The bundle records the first entries of the journal, at least [k0] of them, and
    extends the hashes [hs0]; the checkpoint points into it. *)
Definition reaches (es : list Entry) (k0 : nat) (hs0 : list string) (w : W) : Prop :=
  exists k hs, (k0 <= k <= length es)%nat /\ hs0 `prefix_of` hs /\
    bundle_at w (take k es) hs /\ checkpoint_at w k hs.

(** What holds between any two writes. *)
Definition consistent (es : list Entry) (w : W) : Prop := journal_ok inc stream es /\ reaches es 0 [] w.

(** Everything the journal has is recorded, and the checkpoint is bound to it. *)
Definition settled (es : list Entry) (w : W) : Prop :=
  journal_ok inc stream es /\
  exists hs cp, bundle_at w es hs /\ Checkpoint.Load (checkpoint_file w) = Ok cp /\
    checkpoint_ok inc stream (length es) hs cp /\
    checkpointPosition (Some cp) = Ok (Z.of_nat (length es)) /\
    Checkpoint.BundleHeadHash cp = default "" (last hs) /\
    Checkpoint.BundleRecordCount cp = Z.of_nat (length hs).

Lemma settled_consistent es w : settled es w -> consistent es w.
Proof.
  intros (Hj & hs & cp & Hb & Hl & Hc & _). split; [done|]. exists (length es), hs.
  split_and!; [lia|done|apply prefix_nil|by rewrite take_ge|right; by exists cp].
Qed.

(** ** Replaying the journal *)

Lemma load_at v w l hs b created :
  timely v -> bundle_at w l hs -> loadBundleForCapture v w = Ok (b, created) ->
  Verify b = Ok tt /\ is_v3 b = true /\ sources b = evidence_of stream l /\ hs `prefix_of` hashes b /\
  (if created then l = [] /\ bundle_file w = NotExist /\ hs = [] else hashes b = hs).
Proof.
  intros Ht [(Hf & -> & ->)|(rd & b0 & Hf & Hl & H3 & Hs & <-)]; unfold loadBundleForCapture; rewrite Hf.
  - destruct (NewWithOptions _ _ _) as [b0|] eqn:Eb; [|discriminate]. intros [= <- <-].
    destruct (new_capture_bundle stream v b0 Ht Eb) as (H1 & H2 & H3). split_and!; try done. apply prefix_nil.
  - rewrite Hl. intros [= <- <-]. split_and!; try done. by eapply LoadVerified_verified.
Qed.

(** Entries that are recorded are passed over, wherever the replay starts. *)
Lemma replay_skip validate b es p k :
  journal_ok inc stream es -> (k <= length es)%nat -> 0 <= p <= Z.of_nat k ->
  Forall (fun e => validate e = Ok tt) es -> sources b = evidence_of stream (take k es) ->
  materialise validate stream b (indexAcquisition b) 0 (drop (Z.to_nat p) es)
  = materialise validate stream b (indexAcquisition b) 0 (drop k es).
Proof.
  intros (_ & Hg & Hn) Hk Hp Hval Hs.
  replace (drop (Z.to_nat p) es) with (drop (Z.to_nat p) (take k es) ++ drop k es).
  2:{ rewrite <- (take_drop k es) at 3. rewrite drop_app_le by (rewrite length_take; lia). done. }
  rewrite <- (take_drop k es), fmap_app in Hn. apply NoDup_app in Hn as (Hn & _).
  rewrite <- (take_drop k es) in Hg. apply Forall_app in Hg as [Hg _].
  rewrite <- (take_drop k es) in Hval. apply Forall_app in Hval as [Hval _].
  rewrite indexAcquisition_sources, Hs. apply materialise_known; [by apply Forall_drop|].
  apply Forall_drop, Forall_forall. intros e He. by apply (index_evidence inc stream _ "").
Qed.

Lemma replay_rest validate b es k :
  journal_ok inc stream es -> (k <= length es)%nat -> Z.of_nat (length es) <= limit ->
  Forall (fun e => validate e = Ok tt) es ->
  Verify b = Ok tt -> is_v3 b = true -> sources b = evidence_of stream (take k es) ->
  exists b', materialise validate stream b (indexAcquisition b) 0 (drop k es) = Ok (b', (length es - k)%nat) /\
    sources b' = evidence_of stream es /\ b `prefix_of` b' /\ Verify b' = Ok tt /\ is_v3 b' = true.
Proof.
  intros (_ & Hg & Hn) Hk Hlim Hval Hv H3 Hs.
  rewrite <- (take_drop k es), fmap_app in Hn. apply NoDup_app in Hn as (Hn1 & Hd & Hn2).
  rewrite <- (take_drop k es) in Hg. apply Forall_app in Hg as [Hg1 Hg2].
  assert (length b = S (length (take k es))) as Hlb.
  { pose proof (f_equal length Hs) as Hl. unfold sources, evidence_of, recorded_as in Hl.
    rewrite length_map in Hl. cbn [length] in Hl. by rewrite length_fmap in Hl. }
  rewrite length_take in Hlb. rewrite indexAcquisition_sources, Hs.
  destruct (materialise_new inc stream limit numbers limit_small validate b
    (fold_left index_source (evidence_of stream (take k es)) ∅) 0 (drop k es)) as (b' & Hm & Hs' & Hp' & Hv' & H3' & _);
    [by apply Forall_drop|done|done| |done|done|rewrite length_drop; lia|].
  - apply Forall_forall. intros e He. apply (index_evidence inc stream); [done|done|].
    intros Hin. by apply (Hd _ Hin), list_elem_of_fmap_2.
  - exists b'. rewrite Hm, length_drop. split_and!; [done| |done|done|done].
    rewrite Hs', Hs. unfold evidence_of, recorded_as. cbn [app]. by rewrite <- fmap_app, take_drop.
Qed.

(** ** The two writes *)

Lemma final_Forall (P : W -> Prop) w ws : P w -> Forall P ws -> P (final w ws).
Proof.
  intros Hw Hws. unfold final. destruct (last ws) as [x|] eqn:E; [|done].
  apply last_Some_elem_of in E. rewrite Forall_forall in Hws. by apply Hws.
Qed.

Lemma bundle_at_file w w' l hs : bundle_file w' = bundle_file w -> bundle_at w l hs -> bundle_at w' l hs.
Proof. unfold bundle_at. by intros ->. Qed.

Lemma checkpoint_at_file w w' k hs k' hs' :
  checkpoint_file w' = checkpoint_file w -> (k <= k')%nat -> hs `prefix_of` hs' ->
  checkpoint_at w k hs -> checkpoint_at w' k' hs'.
Proof.
  unfold checkpoint_at. intros -> Hk Hh [H|(cp & H & Hc)]; [by left|right]. exists cp.
  split; [done|]. by eapply checkpoint_ok_mono.
Qed.

Lemma holds_at w b l :
  holds_bundle (bundle_file w) b -> is_v3 b = true -> sources b = evidence_of stream l -> bundle_at w l (hashes b).
Proof.
  intros (rd & b' & Hf & Hl & Hsame) H3 Hs. right. exists rd, b'. rewrite (same_v3 b b' Hsame) in H3.
  destruct Hsame as (Hh & Hsrc & _). split_and!; congruence.
Qed.

Lemma save_bundle_step v w b n k hs es ws b' r :
  sound_env v -> journal_ok inc stream es -> (k <= length es)%nat ->
  bundle_at w (take k es) hs -> checkpoint_at w k hs ->
  is_v3 b = true -> sources b = evidence_of stream es -> hs `prefix_of` hashes b -> ((0 < n)%nat -> storable b) ->
  save_appended v w b n = (ws, b', r) ->
  same_evidence b b' /\ Forall (reaches es k hs) ws /\
  (r = Ok tt -> checkpoint_file (final w ws) = checkpoint_file w /\
     if (0 <? n)%nat then bundle_at (final w ws) es (hashes b) else ws = []).
Proof.
  intros [_ Hsound] Hj Hk Hb Hc H3 Hs Hp Hst. unfold save_appended. destruct (0 <? n)%nat eqn:En; [|by intros [= <- <- <-]].
  apply Nat.ltb_lt in En. specialize (Hst En). intros H.
  destruct (save_bundle_states _ _ _ _ _ _ (proj1 (Hsound w)) H) as (H1 & H2 & Hok). split_and!; [done| |].
  - eapply Forall_impl; [exact H2|]. intros w' [Hcw [Hbw|Hbw]].
    + exists k, hs. split_and!; [done|done|done|by eapply bundle_at_file|by eapply checkpoint_at_file].
    + exists (length es), (hashes b). rewrite take_ge by done. split_and!; [done|done|done| |by eapply checkpoint_at_file].
      by apply holds_at; [apply Hbw| |].
  - intros Hr. split; [|by apply holds_at; [apply Hok| |]].
    apply (final_Forall (fun w' => checkpoint_file w' = checkpoint_file w)); [done|].
    eapply Forall_impl; [exact H2|]. by intros ? [? _].
Qed.

Lemma sorted_metadata_valid cp : Checkpoint.valid cp -> Checkpoint.valid (Checkpoint.sort_metadata cp).
Proof.
  unfold Checkpoint.valid. cbn. intros (H1 & H2 & H3 & H4 & H5 & H6 & H7 & H8 & H9 & H10 & H11 & H12 & H13 & H14 & H15).
  split_and!; try done; by rewrite insertion_sort_perm.
Qed.

Lemma normalised_checkpoint_ok k hs cp :
  checkpoint_ok inc stream k hs cp -> checkpoint_ok inc stream k hs (Checkpoint.normalise_version cp).
Proof.
  intros ((Hv & Hver) & H2 & H3 & H4 & p & H5 & H6).
  split_and!; [split; [by apply Checkpoint.normalise_valid|]| | | |exists p; split; [|done]];
    unfold Checkpoint.normalise_version; destruct (Checkpoint.FormatVersion cp =? 0); done.
Qed.

(** What a reload of a saved checkpoint gives is as good as the checkpoint. *)
Lemma reloaded_checkpoint_ok k hs cp :
  checkpoint_ok inc stream k hs cp ->
  checkpoint_ok inc stream k hs (Checkpoint.sort_metadata (Checkpoint.normalise_version cp)).
Proof.
  intros ((Hv & Hver) & H2 & H3 & H4 & p & H5 & H6)%normalised_checkpoint_ok.
  split_and!; [split; [by apply sorted_metadata_valid|done]|done|done|done|exists p; by split].
Qed.

Lemma save_checkpoint_step v w m cp k hs m' ws r :
  sound_env v -> checkpoint_at w k hs ->
  Checkpoint.cm_Checkpoint m = Some cp -> checkpoint_ok inc stream k hs cp ->
  save_checkpoint (e_checkpoint v w) w m = (m', ws, r) ->
  m' = Checkpoint.with_checkpoint (Some (Checkpoint.normalise_version cp)) m /\
  Forall (fun w' => bundle_file w' = bundle_file w /\ checkpoint_at w' k hs) ws /\
  (r = Ok tt -> Checkpoint.Load (checkpoint_file (final w ws))
                = Ok (Checkpoint.sort_metadata (Checkpoint.normalise_version cp))).
Proof.
  intros [_ Hsound] Hc Hm Hok H.
  destruct (save_checkpoint_states _ _ _ _ _ _ _ (proj2 (Hsound w)) Hm H) as (H1 & H2 & H3).
  pose proof Hok as (Hst & _). split_and!; [done| |intros Hr; by apply H3].
  eapply Forall_impl; [exact H2|]. intros w' [Hbw Hcw]. split; [done|].
  destruct Hcw as [Hcw|Hcw]; [by eapply checkpoint_at_file|right].
  eexists. split; [by apply Hcw|]. by apply reloaded_checkpoint_ok.
Qed.

(** ** Binding the checkpoint to the whole journal *)

Definition bound (now : string) (n : nat) (b : bundle) (cp : Checkpoint.t) : Checkpoint.t :=
  Checkpoint.UpdatePosition now (show_int (Z.of_nat n)) "" (Z.of_nat n)
    (Checkpoint.BindBundle (committedHead b) (Z.of_nat (length b)) cp).

Lemma committedHead_hashes b : committedHead b = default "" (last (hashes b)).
Proof.
  unfold committedHead, hashes, bundle in *. induction b as [|r b _] using rev_ind; [done|].
  rewrite map_app. cbn [map]. by rewrite !last_snoc.
Qed.

Lemma bound_ok now n b cp k hs :
  checkpoint_ok inc stream k hs cp -> valid_string now = true -> Z.of_nat n <= limit ->
  Verify b = Ok tt -> b <> [] -> Z.of_nat (length b) <= MaxBundleRecords ->
  checkpoint_ok inc stream n (hashes b) (bound now n b cp) /\
  checkpointPosition (Some (bound now n b cp)) = Ok (Z.of_nat n).
Proof.
  intros ((Hv & Hver) & H2 & H3 & _) Hnow Hn Hvb Hb Hl. destruct (verified_head b Hvb Hb) as [Hh Hhv].
  destruct (show_int_text (Z.of_nat n)) as (T1 & T2 & T3 & T4); [lia|].
  assert (checkpointPosition (Some (bound now n b cp)) = Ok (Z.of_nat n)) as Hpos.
  { unfold checkpointPosition, bound. cbn [Checkpoint.UpdatePosition Checkpoint.Position].
    rewrite T1, (proj2 (String.eqb_neq _ _) T2), (proj2 (String.eqb_neq _ _) T3). cbn [orb].
    rewrite ParseInt64_show_int by lia. by rewrite (proj2 (Z.ltb_ge _ _)) by lia. }
  split; [|exact Hpos]. split_and!; [split; [|done]|done|done| |exists (Z.of_nat n); split; [done|lia]].
  - destruct Hv as (V1 & V2 & V3 & V4 & V5 & V6 & V7 & V8 & V9 & V10 & V11 & V12 & V13 & V14 & V15).
    unfold MaxBundleRecords in Hl. split_and!; try done; cbn; unfold Event.int64; lia.
  - right. cbn [bound Checkpoint.UpdatePosition Checkpoint.BindBundle Checkpoint.BundleHeadHash Checkpoint.BundleRecordCount].
    unfold hashes. rewrite length_map. destruct b as [|r b _] using rev_ind; [done|].
    split_and!; [done|rewrite length_app; cbn; lia|rewrite length_app; cbn; lia|].
    unfold committedHead. rewrite last_snoc, map_app. cbn [map].
    replace (Z.to_nat _) with (length (map Hash b)) by (rewrite length_app, length_map; cbn; lia).
    by apply list_lookup_middle.
Qed.

(** ** The coordinator *)

(** The coordinator of this capture, whose checkpoint points into the evidence. *)
Definition coordinator_ok (es : list Entry) (k : nat) (hs : list string) (c : captureCoordinator) : Prop :=
  Journal.entries (journal c) = es /\ streamID c = stream /\ incarnation c = inc /\
  exists cp, Checkpoint.cm_Checkpoint (cm c) = Some cp /\ checkpoint_ok inc stream k hs cp.

(** If replaying the journal [es] appends anything, the result is within the limits of
    the bundle format. *)
Definition roomy (v : env W) (w : W) (es : list Entry) : Prop :=
  forall b created b' n, loadBundleForCapture v w = Ok (b, created) ->
    materialise (fun _ => Ok tt) stream b (indexAcquisition b) 0 es = Ok (b', n) -> (0 < n)%nat -> storable b'.

Lemma materialise_ext validate validate' b idx a l :
  Forall (fun e => validate e = Ok tt) l -> Forall (fun e => validate' e = Ok tt) l ->
  materialise validate stream b idx a l = materialise validate' stream b idx a l.
Proof.
  intros H. revert b idx a. induction H as [|e l He _ IH]; intros b idx a H'; [done|].
  apply Forall_cons in H' as [He' H']. cbn [materialise]. rewrite He, He'.
  destruct (idx !! _) as [d|]; [destruct (String.eqb d _); [by apply IH|done]|].
  destruct (appendMaterialised stream b e); [by apply IH|done].
Qed.

Lemma loaded_small rd b : LoadVerified rd = Ok b -> Z.of_nat (length b) <= MaxBundleRecords.
Proof.
  unfold LoadVerified, Load, LoadReader. destruct rd as [rd|]; [|discriminate].
  destruct (LoadReaderWithLimits (Some rd) _) as [b0|] eqn:E; [|discriminate]. apply load_inv in E as (_ & _ & Hn & _).
  destruct b0 as [|r rest]; [discriminate|]. destruct (negb _); [discriminate|].
  destruct (Verify (r :: rest)); [|discriminate]. by intros [= <-].
Qed.

(** What both [commitPending] and [recover] stage. *)
Lemma staging v w c es k hs b created validate :
  sound_env v -> journal_ok inc stream es -> (k <= length es)%nat -> Z.of_nat (length es) <= limit ->
  bundle_at w (take k es) hs -> coordinator_ok es k hs c -> roomy v w es ->
  loadBundleForCapture v w = Ok (b, created) -> Forall (fun e => validate e = Ok tt) es ->
  exists p b', checkpointPosition (Checkpoint.cm_Checkpoint (cm c)) = Ok p /\ 0 <= p <= Z.of_nat k /\
    materialise validate (streamID c) b (indexAcquisition b) 0 (Journal.EntriesFrom (journal c) p)
      = Ok (b', (length es - k)%nat) /\
    sources b' = evidence_of stream es /\ hs `prefix_of` hashes b' /\ Verify b' = Ok tt /\ is_v3 b' = true /\
    b' <> [] /\ ((0 < length es - k)%nat -> storable b') /\ (length es = k -> b' = b) /\
    (length es <> k \/ created = false -> Z.of_nat (length b') <= MaxBundleRecords).
Proof.
  intros [Ht _] Hj Hk Hlim Hb (He & Hstr & _ & cp & Hcp & _ & _ & _ & _ & p & Hp & Hpk) Hroom Hload Hval.
  destruct (load_at v w _ hs b created Ht Hb Hload) as (Hv & H3 & Hs & Hpre & Hcr). subst es.
  rewrite Hstr.
  destruct (replay_rest validate b (Journal.entries (journal c)) k Hj Hk Hlim Hval Hv H3 Hs)
    as (b' & Hm & Hs' & Hp' & Hv' & H3').
  assert (hs `prefix_of` hashes b') as Hpre'.
  { etrans; [exact Hpre|]. destruct Hp' as [l ->]. unfold hashes, bundle in *. rewrite map_app. by eexists. }
  assert ((0 < length (Journal.entries (journal c)) - k)%nat -> storable b') as Hst.
  { assert (Forall (fun _ : Entry => Ok (E := capture_error) tt = Ok tt) (Journal.entries (journal c))) as Htriv
      by (by apply Forall_true).
    apply (Hroom b created b'); [done|].
    change (Journal.entries (journal c)) with (drop (Z.to_nat 0) (Journal.entries (journal c))) at 1.
    rewrite (replay_skip (fun _ => Ok tt) b _ 0 k) by (done || lia).
    rewrite (materialise_ext _ validate); [exact Hm|by apply Forall_drop..]. }
  assert (length (Journal.entries (journal c)) = k -> b' = b) as Hsame.
  { intros Hlen. assert (sources b' = sources b) as E by (rewrite Hs', Hs, take_ge by lia; done).
    apply (f_equal length) in E. unfold sources in E. rewrite !length_map in E. symmetry.
    apply prefix_length_eq; [done|]. unfold bundle in *. lia. }
  exists p, b'. rewrite Hcp, (EntriesFrom_drop inc stream), (replay_skip validate b _ p k) by (done || lia).
  split_and!; try (done || lia).
  - intros ->. discriminate.
  - intros [Hn|Hn].
    + destruct Hst as (_ & _ & _ & ? & _); [lia|done].
    + subst created. destruct (decide (length (Journal.entries (journal c)) = k)) as [E|E].
      * rewrite (Hsame E). unfold loadBundleForCapture in Hload. destruct (bundle_file w) as [| |rd].
        -- destruct (NewWithOptions _ _ _); discriminate.
        -- discriminate.
        -- destruct (LoadVerified rd) as [b0|] eqn:El; [|discriminate]. injection Hload as ->. by eapply loaded_small.
      * destruct Hst as (_ & _ & _ & ? & _); [lia|done].
Qed.

Lemma final_app (w : W) ws ws' : final w (ws ++ ws') = final (final w ws) ws'.
Proof. unfold final. rewrite last_app. by destruct (last ws'). Qed.

Lemma load_calm v w l hs : calm_env v -> bundle_at w l hs -> exists r, loadBundleForCapture v w = Ok r.
Proof.
  intros ((Hc & Hne & _ & Hr) & [rnd Er] & _) [(Hf & _ & _)|(rd & b & Hf & Hl & _)]; unfold loadBundleForCapture; rewrite Hf.
  - rewrite Er in *. change ManifestVersionV3 with 3.
    destruct (new_bundle (e_created v) rnd 3 "") as (b & -> & _); [done|done|congruence|done|lia|by eexists].
  - rewrite Hl. by eexists.
Qed.

(** ** The staged bundle, saved and bound *)

Lemma reaches_trans es k hs k' hs' w :
  (k <= k')%nat -> hs `prefix_of` hs' -> reaches es k' hs' w -> reaches es k hs w.
Proof. intros Hk Hh (k2 & hs2 & H1 & H2 & H3 & H4). exists k2, hs2. split_and!; [lia|lia|by etrans|done..]. Qed.

Lemma reaches_self es k hs w :
  (k <= length es)%nat -> bundle_at w (take k es) hs -> checkpoint_at w k hs -> reaches es k hs w.
Proof. intros. by exists k, hs. Qed.

Lemma save_both v w b k hs es cp ws b1 r1 :
  sound_env v -> journal_ok inc stream es -> (k <= length es)%nat -> Z.of_nat (length es) <= limit ->
  bundle_at w (take k es) hs -> checkpoint_at w k hs -> checkpoint_ok inc stream k hs cp ->
  sources b = evidence_of stream es -> hs `prefix_of` hashes b -> Verify b = Ok tt -> is_v3 b = true -> b <> [] ->
  ((0 < length es - k)%nat -> storable b) -> (length es = k -> hashes b = hs) ->
  Z.of_nat (length b) <= MaxBundleRecords ->
  save_appended v w b (length es - k) = (ws, b1, r1) ->
  Forall (reaches es k hs) ws /\
  (r1 = Ok tt -> bundle_at (final w ws) es (hashes b) /\ storable_checkpoint (bound (e_now v) (length es) b1 cp) /\
   forall m m' ws' r, Checkpoint.cm_Checkpoint m = Some (bound (e_now v) (length es) b1 cp) ->
     save_checkpoint (e_checkpoint v (final w ws)) (final w ws) m = (m', ws', r) ->
     Forall (reaches es k hs) ws' /\ bundle_at (final w (ws ++ ws')) es (hashes b) /\
     checkpoint_at (final w (ws ++ ws')) (length es) (hashes b) /\
     (exists cp', m' = Checkpoint.with_checkpoint (Some cp') m /\
        checkpoint_ok inc stream (length es) (hashes b) cp') /\
     (r = Ok tt -> settled es (final w (ws ++ ws')))).
Proof.
  intros Henv Hj Hk Hlim Hb Hc Hcp Hs Hp Hv H3 Hne Hst Hsame Hlen H.
  destruct (save_bundle_step v w b _ k hs es ws b1 r1 Henv Hj Hk Hb Hc H3 Hs Hp Hst H) as (Hev & Hws & Hok).
  split; [done|]. intros Hr. destruct (Hok Hr) as [Hcf Hbf].
  assert (bundle_at (final w ws) es (hashes b)) as Hb'.
  { destruct (0 <? _)%nat eqn:En; [done|]. apply Nat.ltb_ge in En. subst ws.
    rewrite Hsame by lia. by rewrite take_ge in Hb by lia. }
  destruct Hev as (Hh1 & _ & _ & Hv1). assert (length b1 = length b) as Hl1.
  { apply (f_equal length) in Hh1. unfold hashes in Hh1. by rewrite !length_map in Hh1. }
  destruct (bound_ok (e_now v) (length es) b1 cp k hs) as [Hbo Hpos];
    [done|by destruct Henv as [(_ & _ & ? & _) _]|done|by apply Hv1|by destruct b1, b|lia|].
  rewrite <- Hh1 in Hbo.
  assert (checkpoint_at (final w ws) (length es) (hashes b)) as Hc' by (by eapply checkpoint_at_file).
  split_and!; [done|by destruct Hbo|]. intros m m' ws' r Hm Hsv.
  destruct (save_checkpoint_step v _ m _ _ _ m' ws' r Henv Hc' Hm Hbo Hsv) as (Hm' & Hws' & Hok').
  assert (Forall (reaches es k hs) ws') as Hreach.
  { eapply Forall_impl; [exact Hws'|]. intros x [Hbx Hcx]. exists (length es), (hashes b).
    rewrite take_ge by done. split_and!; [done|done|done|by eapply bundle_at_file|done]. }
  rewrite final_app. set (w2 := final (final w ws) ws') in *.
  assert (bundle_file w2 = bundle_file (final w ws) /\ checkpoint_at w2 (length es) (hashes b)) as [Hbf2 Hc2]
    by (by apply final_Forall).
  assert (bundle_at w2 es (hashes b)) as Hb2 by (by eapply bundle_at_file).
  split_and!; [done|done|done| |].
  - eexists. split; [exact Hm'|]. by apply normalised_checkpoint_ok.
  - intros Hr2. split; [done|]. eexists (hashes b), _. split_and!; [done|by apply Hok'|by apply reloaded_checkpoint_ok|..].
    + unfold checkpointPosition in *. unfold Checkpoint.normalise_version. destruct (Checkpoint.FormatVersion _ =? 0); exact Hpos.
    + rewrite <- committedHead_hashes. unfold Checkpoint.normalise_version.
      destruct (Checkpoint.FormatVersion _ =? 0); cbn; by rewrite !committedHead_hashes, Hh1.
    + unfold hashes at 1. rewrite length_map, <- Hl1. unfold Checkpoint.normalise_version.
      by destruct (Checkpoint.FormatVersion _ =? 0).
Qed.

Lemma save_appended_calm v w b n :
  calm_env v -> ((0 < n)%nat -> storable b) -> (save_appended v w b n).2 = Ok tt.
Proof.
  intros (_ & _ & Hc) Hst. unfold save_appended. destruct (0 <? n)%nat eqn:E; [|done]. apply Nat.ltb_lt in E.
  apply save_bundle_calm; [by apply Hc|by apply Hst].
Qed.

Lemma find_recorded b want es :
  sources b = evidence_of stream es -> want ∈ (entry_id <$> es) -> exists h, find_materialised want b = Ok h.
Proof.
  intros Hs Hw. apply list_elem_of_fmap in Hw as (e & -> & He). unfold find_materialised.
  assert (Some (acq_of stream e) ∈ sources b) as Hin.
  { rewrite Hs. right. by apply (list_elem_of_fmap_2 (fun e => Some (acq_of stream e))). }
  unfold sources in Hin. apply list_elem_of_fmap in Hin as (r & Hr & Hin).
  destruct (List.find _ (reverse b)) as [r'|] eqn:E; [by eexists|].
  apply (List.find_none _ _) with (x := r) in E.
  - rewrite <- Hr in E. cbn in E. by rewrite String.eqb_refl in E.
  - apply list_elem_of_In. unfold bundle in *. by rewrite elem_of_reverse.
Qed.

(** The record whose hash [commitPending] returns. *)
Lemma found_record want b h :
  find_materialised want b = Ok h ->
  exists acq, (Some acq, h) ∈ zip (sources b) (hashes b) /\ AcquisitionInfo.SourceRecordID acq = want.
Proof.
  unfold find_materialised. destruct (List.find _ (reverse b)) as [r|] eqn:E; [|discriminate]. intros [= <-].
  apply List.find_some in E as [Hin Hr]. apply list_elem_of_In in Hin. unfold bundle in *.
  rewrite elem_of_reverse in Hin. destruct (Event.Acquisition (Event_ r)) as [acq|] eqn:Ea; [|discriminate].
  boolify. exists acq. split; [|done]. rewrite <- Ea. unfold sources, hashes. clear -Hin.
  induction Hin as [b|r' b Hin IH]; cbn; [left|by right].
Qed.

Lemma good_entries es : journal_ok inc stream es -> Forall (fun e => validateEntry inc e = Ok tt) es.
Proof. intros (_ & Hg & _). eapply Forall_impl; [exact Hg|]. intros e. apply (good_valid inc stream). Qed.

(** [commitPending] on consistent evidence. *)
Lemma commitPending_spec v w c want es k hs c' ws r :
  sound_env v -> journal_ok inc stream es -> es <> [] -> (k <= length es)%nat -> Z.of_nat (length es) <= limit ->
  bundle_at w (take k es) hs -> checkpoint_at w k hs -> coordinator_ok es k hs c -> roomy v w es ->
  commitPending v w c want = (c', ws, r) ->
  Forall (reaches es k hs) ws /\
  (exists k' hs', (k <= k' <= length es)%nat /\ hs `prefix_of` hs' /\ bundle_at (final w ws) (take k' es) hs' /\
     checkpoint_at (final w ws) k' hs' /\ coordinator_ok es k' hs' c') /\
  (forall h, r = Ok h -> settled es (final w ws) /\
     exists hs' e, bundle_at (final w ws) es hs' /\ e ∈ es /\ entry_id e = want /\
       (Some (acq_of stream e), h) ∈ zip (evidence_of stream es) hs') /\
  (calm_env v -> want ∈ (entry_id <$> es) -> exists h, r = Ok h).
Proof.
  intros Henv Hj Hne Hk Hlim Hb Hc Hco Hroom H. pose proof Hco as (He & Hstr & Hinc & cp & Hcp & Hcpok).
  assert (exists k' hs', (k <= k' <= length es)%nat /\ hs `prefix_of` hs' /\ bundle_at w (take k' es) hs' /\
     checkpoint_at w k' hs' /\ coordinator_ok es k' hs' c) as Hstay by (by exists k, hs).
  unfold commitPending in H. rewrite Hcp in H. pose proof Hcpok as (_ & _ & _ & _ & p0 & Hp0 & _). rewrite Hp0 in H.
  destruct (loadBundleForCapture v w) as [[b created]|e] eqn:Eload.
  2:{ injection H as <- <- <-. split_and!; [done|done|done|]. intros Hcalm.
      destruct (load_calm v w _ hs Hcalm Hb) as [? ?]. congruence. }
  destruct (staging v w c es k hs b created (validateEntry inc) Henv Hj Hk Hlim Hb Hco Hroom Eload (good_entries es Hj))
    as (p & b' & Hp & Hpk & Hm & Hs' & Hp' & Hv' & H3' & Hne' & Hst & Hsame & Hlen).
  rewrite Hcp, Hp0 in Hp. injection Hp as ->.
  destruct (load_at v w _ hs b created (proj1 Henv) Hb Eload) as (_ & H3 & _ & _ & Hcr).
  cbn match in H. rewrite H3, andb_false_r, Hinc, Hm in H.
  rewrite (journal_LastPosition inc stream) in H by (by rewrite He).
  unfold Journal.Len in H. rewrite He in H.
  destruct (save_appended v w b' _) as [[ws1 b1] r1] eqn:Es.
  assert (length es = k -> hashes b' = hs) as Hsame'.
  { intros E. rewrite Hsame by done. destruct created; [|done]. destruct Hcr as [Ht _].
    rewrite <- E, take_ge in Ht by done. by subst. }
  assert (length es <> k \/ created = false) as Hgrow.
  { destruct created; [left|by right]. intros E. destruct Hcr as [Ht _]. rewrite <- E, take_ge in Ht; done. }
  destruct (save_both v w b' k hs es cp ws1 b1 r1 Henv Hj Hk Hlim Hb Hc Hcpok Hs' Hp' Hv' H3' Hne' Hst Hsame'
    (Hlen Hgrow) Es) as [Hws1 Hok1].
  destruct r1 as [[]|e].
  2:{ injection H as <- <- <-. split_and!; [done| |done|].
      - destruct (final_Forall (reaches es k hs) w ws1) as (k2 & hs2 & F1 & F2 & F3 & F4); [by apply reaches_self|done|].
        exists k2, hs2. split_and!; try done; [lia|lia|]. split_and!; try done. exists cp. split; [done|].
        eapply checkpoint_ok_mono; [|exact F2|exact Hcpok]. lia.
      - intros Hcalm. pose proof (save_appended_calm v w b' _ Hcalm Hst) as Hr. by rewrite Es in Hr. }
  destruct (Hok1 eq_refl) as (Hb1 & Hstc & Hcont).
  destruct (save_checkpoint _ (final w ws1) _) as [[m' ws2] r2] eqn:Ec.
  eapply Hcont in Ec as Hd; [|cbn; rewrite Hcp; reflexivity].
  destruct Hd as (Hws2 & Hb2 & Hc2 & (cp' & -> & Hcp') & Hset).
  assert (exists k' hs', (k <= k' <= length es)%nat /\ hs `prefix_of` hs' /\
    bundle_at (final w (ws1 ++ ws2)) (take k' es) hs' /\ checkpoint_at (final w (ws1 ++ ws2)) k' hs' /\
    coordinator_ok es k' hs' (set_cm (Checkpoint.with_checkpoint (Some cp')
      (Checkpoint.ManagerBindBundle (committedHead b1) (Z.of_nat (length b1))
         (Checkpoint.UpdateCheckpoint (e_now v) (show_int (Z.of_nat (length es))) "" (Z.of_nat (length es)) (cm c)))) c)) as Hend.
  { exists (length es), (hashes b'). rewrite take_ge by done. split_and!; try (done || lia).
    unfold coordinator_ok. split_and!; [done..|by exists cp']. }
  assert (Forall (reaches es k hs) (ws1 ++ ws2)) as Hall by (by apply Forall_app).
  destruct (save_bundle_step v w b' _ k hs es ws1 b1 (Ok tt) Henv Hj Hk Hb Hc H3' Hs' Hp' Hst Es)
    as ((Eh & Esrc & _) & _).
  destruct r2 as [[]|e]; injection H as <- <- <-; (split_and!; [done|exact Hend| |]);
    [intros h Hfind; split; [by apply Hset|]|intros _|done|].
  - apply found_record in Hfind as (acq & Hin & Hw). rewrite <- Esrc, <- Eh, Hs' in Hin.
    pose proof (elem_of_zip_l _ _ _ _ Hin) as Hacq. apply elem_of_cons in Hacq as [?|Hacq]; [done|].
    apply list_elem_of_fmap in Hacq as (e & [= ->] & Hin'). by exists (hashes b'), e.
  - intros Hw. apply (find_recorded b1 want es); [|done]. by rewrite <- Hs'.
  - intros Hcalm. exfalso. destruct Hcalm as (_ & _ & Hcalm).
    assert (Checkpoint.cm_Checkpoint (Checkpoint.ManagerBindBundle (committedHead b1) (Z.of_nat (length b1))
      (Checkpoint.UpdateCheckpoint (e_now v) (show_int (Z.of_nat (length es))) "" (Z.of_nat (length es)) (cm c)))
      = Some (bound (e_now v) (length es) b1 cp)) as Hm2 by (cbn; by rewrite Hcp).
    pose proof (save_checkpoint_calm _ _ _ _ (proj2 (Hcalm (final w ws1))) Hm2 Hstc) as Hr. by rewrite Ec in Hr.
Qed.

(** ** Recovery *)

Lemma no_acquisition b : sources b = evidence_of stream [] -> bundleHasAcquisition b = false.
Proof.
  unfold sources, bundleHasAcquisition, evidence_of, recorded_as. destruct b as [|r [|]]; [done| |done].
  cbn. intros [= ->]. done.
Qed.

Lemma all_accounted b j l :
  sources b = evidence_of stream l -> l ⊆ Journal.entries j -> journalAccountsForEvidence b j = Ok tt.
Proof.
  intros Hs Hl. unfold journalAccountsForEvidence. destruct (negb _); [done|].
  replace (forallb (accounted (Journal.entries j)) b) with true; [done|]. symmetry.
  apply forallb_forall. intros r Hr%list_elem_of_In. unfold accounted.
  assert (Event.Acquisition (Event_ r) ∈ evidence_of stream l) as Hin.
  { rewrite <- Hs. by apply (list_elem_of_fmap_2 (fun r => Event.Acquisition (Event_ r))). }
  destruct (Event.Acquisition (Event_ r)) as [acq|]; [|done]. apply elem_of_cons in Hin as [?|Hin]; [done|].
  apply list_elem_of_fmap in Hin as (e & [= ->] & He). destruct (_ || _); [done|].
  apply existsb_exists. exists e. split; [by apply list_elem_of_In, Hl|]. apply String.eqb_refl.
Qed.

Lemma no_first_error validate es : Forall (fun e => validate e = Ok tt) es -> first_error validate es = Ok tt.
Proof. induction 1 as [|e es He _ IH]; [done|]. cbn [first_error]. by rewrite He. Qed.

(** The checks of [recover] pass on consistent evidence. *)
Lemma recover_checks v w c es k hs cp b created p :
  sound_env v -> journal_ok inc stream es -> (k <= length es)%nat ->
  bundle_at w (take k es) hs -> coordinator_ok es k hs c -> Checkpoint.cm_Checkpoint (cm c) = Some cp ->
  checkpoint_ok inc stream k hs cp -> checkpointPosition (Some cp) = Ok p -> 0 <= p <= Z.of_nat k ->
  loadBundleForCapture v w = Ok (b, created) ->
  (if created then Ok tt
   else let? _ := map_err CVerify (Verify b) in if is_v3 b then Ok tt else Err CNotV3) = Ok tt /\
  validateCheckpointPrefix (Some cp) b = Ok tt /\
  bundleHasAcquisition b && (Journal.Len (journal c) =? 0) && (p =? 0) = false /\
  journalAccountsForEvidence b (journal c) = Ok tt /\
  (Journal.LastPosition (journal c) <? p) = false /\
  first_error (validateEntry (incarnation c)) (Journal.entries (journal c)) = Ok tt.
Proof.
  intros [Ht _] Hj Hk Hb (He & _ & Hinc & _) Hcp (_ & _ & _ & Hpre & _) Hp Hpk Hload.
  destruct (load_at v w _ hs b created Ht Hb Hload) as (Hv & H3 & Hs & Hh & Hcr). split_and!.
  - destruct created; [done|]. by rewrite Hv, H3.
  - apply validate_prefix. by eapply prefix_ok_mono.
  - unfold Journal.Len. rewrite He. destruct es as [|e es]; [|by rewrite andb_false_r].
    rewrite take_nil in Hs. by rewrite no_acquisition.
  - eapply all_accounted; [exact Hs|]. rewrite He. intros e Hin. by apply elem_of_take in Hin as (i & Hi & _); eapply list_elem_of_lookup_2.
  - rewrite (journal_LastPosition inc stream) by (by rewrite He). unfold Journal.Len. rewrite He. apply Z.ltb_ge. lia.
  - rewrite Hinc, He. by apply no_first_error, good_entries.
Qed.

(** Nothing journaled and no bundle: the checkpoint is saved as it is. *)
Lemma recover_idle v w m cp hs m' ws r :
  sound_env v -> journal_ok inc stream [] -> bundle_at w [] hs -> hs = [] -> checkpoint_at w 0 hs ->
  Checkpoint.cm_Checkpoint m = Some cp -> checkpoint_ok inc stream 0 hs cp ->
  save_checkpoint (e_checkpoint v w) w m = (m', ws, r) ->
  m' = Checkpoint.with_checkpoint (Some (Checkpoint.normalise_version cp)) m /\
  Forall (reaches [] 0 hs) ws /\ (r = Ok tt -> settled [] (final w ws)).
Proof.
  intros Henv Hj Hb -> Hc Hm Hok H.
  destruct (save_checkpoint_step v w m cp 0 [] m' ws r Henv Hc Hm Hok H) as (H1 & H2 & H3). split_and!; [done| |].
  - eapply Forall_impl; [exact H2|]. intros x [Hbx Hcx]. exists O, []. split_and!; [done|done|done|by eapply bundle_at_file|done].
  - intros Hr. apply H3 in Hr. split; [done|]. exists [].
    assert (bundle_at (final w ws) [] []) as Hb'.
    { eapply bundle_at_file; [|exact Hb]. apply (final_Forall (fun x => bundle_file x = bundle_file w)); [done|].
      eapply Forall_impl; [exact H2|]. by intros ? [? _]. }
    eexists. split_and!; [done|exact Hr|by apply reloaded_checkpoint_ok|..];
      apply reloaded_checkpoint_ok in Hok as (_ & _ & _ & [[E1 E2]|(_ & E & _)] & p & E3 & E4);
      try (cbn in E; lia); [|done|done]. rewrite E3. f_equal. cbn. lia.
Qed.

(** [recover] on consistent evidence. *)
Lemma recover_spec v w c es k hs ws r :
  sound_env v -> journal_ok inc stream es -> (k <= length es)%nat -> Z.of_nat (length es) <= limit ->
  bundle_at w (take k es) hs -> checkpoint_at w k hs -> coordinator_ok es k hs c -> roomy v w es ->
  recover v w c = (ws, r) ->
  Forall (reaches es k hs) ws /\
  (forall c', r = Ok c' -> settled es (final w ws) /\ journal c' = journal c /\
     exists hs', bundle_at (final w ws) es hs' /\ checkpoint_at (final w ws) (length es) hs' /\
       coordinator_ok es (length es) hs' c') /\
  (calm_env v -> exists c', r = Ok c').
Proof.
  intros Henv Hj Hk Hlim Hb Hc Hco Hroom H. pose proof Hco as (He & Hstr & Hinc & cp & Hcp & Hcpok).
  unfold recover in H. rewrite Hcp in H.
  destruct (loadBundleForCapture v w) as [[b created]|e] eqn:Eload.
  2:{ injection H as <- <-. split_and!; [done|done|]. intros Hcalm.
      destruct (load_calm v w _ hs Hcalm Hb) as [? ?]. congruence. }
  destruct (staging v w c es k hs b created (fun _ => Ok tt) Henv Hj Hk Hlim Hb Hco Hroom Eload) as
    (p & b' & Hp & Hpk & Hm & Hs' & Hp' & Hv' & H3' & Hne' & Hst & Hsame & Hlen); [by apply Forall_true|].
  rewrite Hcp in Hp.
  destruct (recover_checks v w c es k hs cp b created p Henv Hj Hk Hb Hco Hcp Hcpok Hp Hpk Eload)
    as (C1 & C2 & C3 & C4 & C5 & C6).
  rewrite C1, C2, Hp, C3 in H. replace (if fresh c then journalAccountsForEvidence b (journal c) else Ok tt)
    with (Ok (E := capture_error) tt) in H by (destruct (fresh c); done).
  rewrite C5, C6, Hm in H.
  rewrite (journal_LastPosition inc stream) in H by (by rewrite He). unfold Journal.Len in H. rewrite He in H.
  destruct (load_at v w _ hs b created (proj1 Henv) Hb Eload) as (_ & _ & _ & _ & Hcr).
  destruct (save_appended v w b' _) as [[ws1 b1] r1] eqn:Es.
  destruct (negb created || (0 <? length es - k)%nat) eqn:Echg.
  - assert (length es <> k \/ created = false) as Hgrow.
    { apply orb_true_iff in Echg as [E|E]; [right; by apply negb_true_iff|left]. apply Nat.ltb_lt in E. lia. }
    assert (length es = k -> hashes b' = hs) as Hsame'.
    { intros E. rewrite Hsame by done. destruct created; [|done]. destruct Hgrow; done. }
    destruct (save_both v w b' k hs es cp ws1 b1 r1 Henv Hj Hk Hlim Hb Hc Hcpok Hs' Hp' Hv' H3' Hne' Hst Hsame'
      (Hlen Hgrow) Es) as [Hws1 Hok1].
    destruct r1 as [[]|e].
    2:{ injection H as <- <-. split_and!; [done|done|]. intros Hcalm.
        pose proof (save_appended_calm v w b' _ Hcalm Hst) as Hr. by rewrite Es in Hr. }
    destruct (Hok1 eq_refl) as (Hb1 & Hstc & Hcont).
    destruct (save_checkpoint _ (final w ws1) _) as [[m' ws2] r2] eqn:Ec.
    match type of Ec with save_checkpoint _ _ ?m = _ => assert (Checkpoint.cm_Checkpoint m
      = Some (bound (e_now v) (length es) b1 cp)) as Hm2 by (cbn; by rewrite Hcp) end.
    destruct (Hcont _ _ _ _ Hm2 Ec) as (Hws2 & Hb2 & Hc2 & (cp' & -> & Hcp') & Hset).
    assert (Forall (reaches es k hs) (ws1 ++ ws2)) as Hall by (by apply Forall_app).
    destruct r2 as [[]|e]; injection H as <- <-; (split_and!; [done| |]).
    + intros c' [= <-]. split; [by apply Hset|]. split; [done|]. exists (hashes b'). split_and!; [done|done|].
      unfold coordinator_ok. split_and!; [done..|by exists cp'].
    + intros _. by eexists.
    + done.
    + intros (_ & _ & Hcalm). pose proof (save_checkpoint_calm _ _ _ _ (proj2 (Hcalm (final w ws1))) Hm2 Hstc) as Hr.
      by rewrite Ec in Hr.
  - apply orb_false_iff in Echg as [E1 E2]. apply negb_false_iff in E1. subst created.
    apply Nat.ltb_ge in E2. destruct Hcr as (Ht & Hf & ->).
    assert (es = []) as -> by (rewrite <- Ht; by rewrite take_ge by lia).
    assert (k = O) as -> by (cbn in Hk; lia). cbn in Es. injection Es as <- <- <-.
    change (final w []) with w in H.
    destruct (save_checkpoint _ w (cm c)) as [[m' ws2] r2] eqn:Ec.
    destruct (recover_idle v w (cm c) cp [] m' ws2 r2 Henv Hj Hb eq_refl Hc Hcp Hcpok Ec) as (-> & Hws2 & Hset).
    destruct r2 as [[]|e]; injection H as <- <-; (split_and!; [done| |]).
    + intros c' [= <-]. split; [by apply Hset|]. split; [done|].
      destruct (save_checkpoint_step v w (cm c) cp 0 [] _ ws2 _ Henv Hc Hcp Hcpok Ec) as (_ & H2 & _).
      assert (bundle_file (final w ws2) = bundle_file w /\ checkpoint_at (final w ws2) 0 []) as [Hb2 Hc2]
        by (by apply final_Forall).
      exists []. split_and!; [by eapply bundle_at_file|done|].
      * unfold coordinator_ok. split_and!; [done..|]. eexists. split; [reflexivity|]. by apply normalised_checkpoint_ok.
    + intros _. by eexists.
    + done.
    + intros (_ & _ & Hcalm). destruct Hcpok as (Hstc & _).
      pose proof (save_checkpoint_calm _ _ _ _ (proj2 (Hcalm w)) Hcp Hstc) as Hr. by rewrite Ec in Hr.
Qed.

(** ** Starting capture *)

Context (inc_named : inc <> "" /\ TrimSpace inc = inc) (inc_text : valid_string inc = true)
  (stream_text : valid_string stream = true).

Definition fresh_checkpoint (now : string) : Checkpoint.t :=
  Checkpoint.mk 1 captureSourceSystem stream "start" now captureAdapter captureAdapterVersion
    (SourceIdentity.mk captureSourceSystem stream true) inc 0 "" "" 0 [].

Lemma fresh_checkpoint_ok now k hs : valid_string now = true -> checkpoint_ok inc stream k hs (fresh_checkpoint now).
Proof.
  intros Hn. split_and!; [| |by unfold Checkpoint.Validate; cbn -[String.eqb]; rewrite !String.eqb_refl;
    unfold Checkpoint.differs; rewrite !String.eqb_refl, !andb_false_r|by left|exists 0; split; [done|lia]]; [|done].
  split; [|done]. unfold Checkpoint.valid, fresh_checkpoint, SourceIdentity.valid. cbn. rewrite stream_text.
  split_and!; try done. split; constructor.
Qed.

(** Nothing is bound to an incarnation yet: no checkpoint, and no journal entry. *)
Definition unbound (jw : Journal.world) (w : W) : Prop :=
  Checkpoint.Load (checkpoint_file w) = Err Checkpoint.ErrCheckpointNotFound /\
  exists torn, Journal.readEntries false (Journal.file jw) = Ok ([], torn).

(** The incarnation [enableCapture] names a new source with: the token it is given, or
    without one a drawn incarnation. *)
Definition new_name (v : env W) (src : string) : result capture_error string :=
  if String.eqb (TrimSpace src) "" then newIncarnation (e_random v) else Ok (TrimSpace src).

(** A start on which nothing is bound names this source. On anything else a start may be
    given any token, or none. *)
Definition names_source (v : env W) (src : string) (jw : Journal.world) (w : W) : Prop :=
  unbound jw w -> forall i, new_name v src = Ok i -> i = inc.

Lemma given_names_source v src jw w : TrimSpace src = inc -> names_source v src jw w.
Proof.
  intros Hs _ i. unfold new_name. rewrite Hs, (proj2 (String.eqb_neq _ _) (proj1 inc_named)). by intros [= <-].
Qed.

(** The incarnation of a start: this one; or it is a token that names another source,
    and there is evidence of this one; or drawing one failed. *)
Lemma chosen v src existing j jw (w : W) k hs :
  (existing = None /\ Checkpoint.Load (checkpoint_file w) = Err Checkpoint.ErrCheckpointNotFound \/
   exists cp, existing = Some cp /\ checkpoint_ok inc stream k hs cp) ->
  journal_ok inc stream (Journal.entries j) -> Journal.has jw (Journal.entries j) -> names_source v src jw w ->
  match choose_incarnation v src existing j with
  | Ok i => i = inc \/ (TrimSpace src = i /\ i <> "" /\ i <> inc /\ (is_Some existing \/ Journal.entries j <> []))
  | Err _ => TrimSpace src = "" /\ e_random v = None
  end.
Proof.
  intros Hex (_ & Hg & _) (frag & Hf & Hr%Journal.has_tail_read) Hname; [|done].
  unfold choose_incarnation. destruct (String.eqb_spec (TrimSpace src) "") as [Hs|Hs]; cbn [negb].
  - assert (existing = None /\ Journal.entries j = [] -> unbound jw w) as Hun.
    { intros [-> He]. destruct Hex as [[_ Hl]|(? & ? & _)]; [|done]. split; [exact Hl|].
      rewrite He in Hr. by eexists. }
    destruct Hex as [[-> Hl]|(cp & -> & _ & -> & _)].
    + cbn [negb]. rewrite String.eqb_refl. cbn [negb]. unfold journalIncarnation.
      destruct (Journal.entries j) as [|e es].
      * rewrite String.eqb_refl. cbn [negb]. unfold names_source, new_name in Hname. rewrite Hs, String.eqb_refl in Hname.
        destruct (newIncarnation _) as [i|] eqn:En; [left; by apply Hname; [apply Hun|]|].
        split; [done|]. by destruct (e_random v).
      * apply Forall_cons in Hg as [Hg _]. unfold good in Hg.
        apply andb_true_iff in Hg as [[[_ Hi]%andb_true_iff _]%andb_true_iff _]. apply String.eqb_eq in Hi.
        rewrite Hi, (proj2 inc_named), (proj2 (String.eqb_neq _ _) (proj1 inc_named)). by left.
    + rewrite (proj2 (String.eqb_neq _ _) (proj1 inc_named)). by left.
  - destruct (decide (TrimSpace src = inc)) as [E|E]; [by left|right]. split_and!; [done|done|done|].
    destruct Hex as [[-> Hl]|(cp & -> & _)]; [right|by left; eexists]. intros He. apply E.
    unfold names_source, new_name in Hname. rewrite (proj2 (String.eqb_neq _ _) Hs) in Hname.
    apply Hname; [|done]. split; [exact Hl|]. rewrite He in Hr. by eexists.
Qed.

(** A start with the token of another source is refused before anything is written. *)
Lemma recover_refused v (w : W) c e :
  first_error (validateEntry (incarnation c)) (Journal.entries (journal c)) = Err e ->
  exists e', recover v w c = ([], Err e').
Proof.
  intros H. unfold recover. rewrite H.
  repeat match goal with
  | |- exists e', match let? _ := ?x in _ with Ok _ => _ | Err _ => _ end = _ =>
      destruct x as [?|?]; [|by eexists]
  | |- context [let '(_, _) := ?x in _] => destruct x
  end; by eexists.
Qed.

(** What [enableCapture] finds on disk. *)
Definition loads_as (w : W) (existing : option Checkpoint.t) : Prop :=
  Checkpoint.Load (checkpoint_file w) =
    match existing with Some cp => Ok cp | None => Err Checkpoint.ErrCheckpointNotFound end.

Definition start_manager (i : string) (cp : Checkpoint.t) : Checkpoint.CheckpointManager :=
  Checkpoint.mkManager (Some cp) captureSourceSystem stream captureAdapter captureAdapterVersion i
    (SourceIdentity.mk captureSourceSystem stream true).

Definition start_coordinator (i : string) (j : Journal.journal) (fresh : bool) (cp : Checkpoint.t) (jw : Journal.world) :
    captureCoordinator :=
  mkCoordinator stream i j (start_manager i cp) fresh captureUnknown "" "" 0 None
    (Journal.repaired j || Journal.Degraded jw).

(** [enableCapture] once the journal is open and the incarnation [i] chosen. *)
Lemma enable_chosen v jenv src jw jw1 (w : W) existing j i :
  loads_as w existing -> Journal.Open jenv stream jw = (jw1, Ok j) -> choose_incarnation v src existing j = Ok i ->
  i <> "" ->
  enableCapture v jenv src stream jw w =
  match existing with
  | Some cp =>
      match Checkpoint.ValidateSource (start_manager i cp) with
      | Ok _ => let '(ws, r) := recover v w (start_coordinator i j false (bind_incarnation i cp) jw1) in (jw1, ws, r)
      | Err e => (jw1, [], Err (CCheckpoint e))
      end
  | None =>
      let cp := Checkpoint.mk 1 captureSourceSystem stream "start" (e_now v) captureAdapter captureAdapterVersion
                  (SourceIdentity.mk captureSourceSystem stream true) i 0 "" "" 0 [] in
      let '(ws, r) := recover v w (start_coordinator i j true cp jw1) in (jw1, ws, r)
  end.
Proof.
  unfold loads_as. intros Hl Ho Hc Hi. unfold enableCapture. rewrite Hl.
  unfold Checkpoint.LoadOrInitialize, Checkpoint.LoadOrCreate. rewrite Hl.
  destruct existing as [cp|]; rewrite Ho; cbn [map_err]; rewrite Hc.
  - cbn beta iota zeta delta [map_err Checkpoint.with_checkpoint].
    change (Checkpoint.mkManager (Some cp) _ _ _ _ _ _) with (start_manager i cp).
    destruct (Checkpoint.ValidateSource _) as [[]|]; reflexivity.
  - cbn [map_err Checkpoint.with_checkpoint Checkpoint.cm_Checkpoint Checkpoint.cm_SourceSystem
      Checkpoint.cm_AcquisitionStream Checkpoint.cm_Adapter Checkpoint.cm_AdapterVersion
      Checkpoint.cm_SourceIncarnation Checkpoint.cm_SourceIdentity fmap option_fmap option_map].
    unfold bind_incarnation. cbn [Checkpoint.SourceIncarnation]. rewrite (proj2 (String.eqb_neq _ _) Hi). reflexivity.
Qed.

(** A start with the token of another source is refused before anything is written. *)
Lemma enable_refused v jenv src jw jw1 (w : W) existing j i k hs :
  loads_as w existing -> Journal.Open jenv stream jw = (jw1, Ok j) -> choose_incarnation v src existing j = Ok i ->
  (forall cp, existing = Some cp -> checkpoint_ok inc stream k hs cp) -> journal_ok inc stream (Journal.entries j) ->
  i <> "" -> i <> inc -> is_Some existing \/ Journal.entries j <> [] ->
  exists e, enableCapture v jenv src stream jw w = (jw1, [], Err e).
Proof.
  intros Hl Ho Hc Hok (_ & Hg & _) Hi0 Hi Hev. rewrite (enable_chosen _ _ _ _ _ _ _ _ _ Hl Ho Hc Hi0).
  destruct existing as [cp|].
  - destruct (Hok cp eq_refl) as (_ & Hinc & Hval & _).
    assert (exists e, Checkpoint.ValidateSource (start_manager i cp) = Err e) as [e ->]; [|by eexists].
    unfold Checkpoint.ValidateSource, start_manager, Checkpoint.Validate in *.
    cbn [Checkpoint.cm_Checkpoint Checkpoint.cm_SourceSystem Checkpoint.cm_AcquisitionStream Checkpoint.cm_Adapter
      Checkpoint.cm_AdapterVersion Checkpoint.cm_SourceIncarnation] in *.
    do 4 (match goal with |- context [if ?c then _ else _] => destruct c; [discriminate|] end).
    unfold Checkpoint.differs. rewrite Hinc, (proj2 (String.eqb_neq _ _) Hi0),
      (proj2 (String.eqb_neq _ _) (proj1 inc_named)), (proj2 (String.eqb_neq inc i)) by congruence. by eexists.
  - destruct Hev as [[? ?]|Hev]; [done|]. destruct (Journal.entries j) as [|e es] eqn:Ej; [done|].
    apply Forall_cons in Hg as [Hg _]. unfold good in Hg.
    apply andb_true_iff in Hg as [[[_ Hin]%andb_true_iff _]%andb_true_iff _]. apply String.eqb_eq in Hin.
    assert (exists e', first_error (validateEntry i) (e :: es) = Err e') as [e' He'].
    { cbn [first_error]. unfold validateEntry.
      do 4 (match goal with |- context [if ?c then _ else _] => destruct c; [by eexists|] end).
      rewrite Hin, (proj2 (String.eqb_neq _ _) (proj1 inc_named)), (proj2 (String.eqb_neq inc i)) by congruence. by eexists. }
    cbn zeta. match goal with |- context [recover v w ?c] => destruct (recover_refused v w c e') as [e2 ->] end;
      [cbn; by rewrite Ej|by eexists].
Qed.

(** [enableCapture] on what a run of this source left. *)
Lemma enable_spec v jenv src jw w es k hs jw' ws r :
  sound_env v -> Journal.has jw es -> Journal.repair_reads jenv jw -> names_source v src jw w ->
  journal_ok inc stream es -> (k <= length es)%nat -> Z.of_nat (length es) <= limit ->
  bundle_at w (take k es) hs -> checkpoint_at w k hs -> roomy v w es ->
  enableCapture v jenv src stream jw w = (jw', ws, r) ->
  Journal.has jw' es /\ Forall (reaches es k hs) ws /\
  (forall c', r = Ok c' -> Journal.clean jw' es /\ Journal.failed (journal c') = false /\ settled es (final w ws) /\
     exists hs', bundle_at (final w ws) es hs' /\ checkpoint_at (final w ws) (length es) hs' /\
       coordinator_ok es (length es) hs' c') /\
  (calm_env v -> TrimSpace src = "" \/ TrimSpace src = inc ->
     (exists jw' j, Journal.Open jenv stream jw = (jw', Ok j)) -> exists c', r = Ok c').
Proof.
  intros Henv Hh Hre Hname Hj Hk Hlim Hb Hc Hroom H.
  destruct (Journal.Open jenv stream jw) as [jw1 rj] eqn:Eo.
  destruct (Journal.open_has _ _ _ _ _ _ Hh Hre Eo) as [Hh1 Hopen].
  assert (exists existing cp, Checkpoint.Load (checkpoint_file w) =
      match existing with Some cp => Ok cp | None => Err Checkpoint.ErrCheckpointNotFound end /\
    match existing with Some cp' => cp = cp' | None => cp = fresh_checkpoint (e_now v) end /\
    checkpoint_ok inc stream k hs cp) as (existing & cp & Hload & Hcp & Hok).
  { destruct Hc as [Hc|(cp & Hc & Hok)].
    - exists None, (fresh_checkpoint (e_now v)). split_and!; [done|done|].
      apply fresh_checkpoint_ok. by destruct Henv as [(_ & _ & ? & _) _].
    - by exists (Some cp), cp. }
  destruct rj as [j|e].
  2:{ unfold enableCapture in H. rewrite Hload, Eo in H. destruct existing; injection H as <- <- <-; (split_and!; [done|done|done|]);
        intros _ _ (? & ? & ?); congruence. }
  destruct (Hopen j eq_refl) as (Hcl & Hej & _ & Hnf).
  assert (existing = None /\ Checkpoint.Load (checkpoint_file w) = Err Checkpoint.ErrCheckpointNotFound \/
    exists cp, existing = Some cp /\ checkpoint_ok inc stream k hs cp) as Hex
    by (destruct existing as [cp'|]; [right; subst cp'; by eexists|by left]).
  pose proof (chosen v src existing j jw w k hs Hex ltac:(by rewrite Hej) ltac:(by rewrite Hej) Hname) as Hch.
  destruct (choose_incarnation v src existing j) as [i|e0] eqn:Ech.
  2:{ unfold enableCapture in H. rewrite Hload, Eo in H. cbn [map_err] in H.
      assert (jw' = jw1 /\ ws = [] /\ r = Err e0) as (-> & -> & ->)
        by (destruct existing; rewrite Ech in H; by injection H as <- <- <-).
      split_and!; [done|done|done|]. intros (_ & [rnd Er] & _) _. destruct Hch as [_ ?]. congruence. }
  destruct Hch as [->|(Hs & Hi0 & Hi & Hev)].
  2:{ destruct (enable_refused v jenv src jw jw1 w existing j i k hs) as [e He]; [done|done|done| |by rewrite Hej|done..|].
      { intros cp' ->. by subst cp'. }
      rewrite He in H. injection H as <- <- <-. split_and!; [done|done|done|]. by intros _ [Hs'|Hs']; congruence. }
  rewrite (enable_chosen _ _ _ _ _ _ _ _ _ Hload Eo Ech (proj1 inc_named)) in H.
  pose proof Hok as (_ & Hinc & Hval & _).
  set (c := start_coordinator inc j (match existing with Some _ => false | None => true end) cp jw1).
  assert (recover v w c = (ws, r) /\ jw' = jw1) as [Hrec ->].
  { destruct existing as [cp'|].
    - assert (bind_incarnation inc cp' = cp) as Hbind
        by (subst cp'; unfold bind_incarnation; by rewrite Hinc, (proj2 (String.eqb_neq _ _) (proj1 inc_named))).
      unfold Checkpoint.ValidateSource in H. cbn [start_manager Checkpoint.cm_Checkpoint Checkpoint.cm_SourceSystem
        Checkpoint.cm_AcquisitionStream Checkpoint.cm_Adapter Checkpoint.cm_AdapterVersion Checkpoint.cm_SourceIncarnation] in H.
      rewrite Hbind, <- Hcp, Hval in H. fold c in H. destruct (recover v w c) as [ws1 r1]. by injection H as <- <- <-.
    - cbn zeta in H. fold (fresh_checkpoint (e_now v)) in H. rewrite <- Hcp in H. fold c in H.
      destruct (recover v w c) as [ws1 r1]. by injection H as <- <- <-. }
  assert (coordinator_ok es k hs c) as Hco by (unfold coordinator_ok; split_and!; [done..|by exists cp]).
  destruct (recover_spec v w c es k hs ws r Henv Hj Hk Hlim Hb Hc Hco Hroom Hrec) as (R1 & R2 & R3).
  split_and!; [done|done| |intros Hcalm _ _; by apply R3].
  intros c' Hc'. destruct (R2 c' Hc') as (S1 & S2 & S3). by rewrite S2.
Qed.

(** ** Observing *)

Lemma observation_id_inj a b :
  0 <= a -> 0 <= b -> observation_id inc stream a = observation_id inc stream b -> a = b.
Proof.
  intros Ha Hb H. apply show_int_inj; [done|done|]. apply B_inj. apply (f_equal B) in H.
  unfold observation_id in H. rewrite !B_app in H. by do 4 apply app_inv_head in H.
Qed.

Lemma journal_ok_snoc es e :
  journal_ok inc stream es -> good inc stream e = true -> Journal.Position e = Z.of_nat (length es) + 1 ->
  journal_ok inc stream (es ++ [e]).
Proof.
  intros (Hp & Hg & Hn) He Hpos.
  pose proof (good_position inc stream) as Hid.
  split_and!.
  - intros i x Hx. apply lookup_snoc_Some in Hx as [[_ Hx]|[-> <-]]; [by apply Hp|done].
  - apply Forall_app. split; [done|]. by constructor.
  - rewrite fmap_app. apply NoDup_app. split_and!; [done| |apply NoDup_singleton].
    intros y Hy ->%list_elem_of_singleton. apply list_elem_of_fmap in Hy as (x & Hxy & Hx).
    apply list_elem_of_lookup in Hx as [i Hi]. rewrite Forall_forall in Hg.
    rewrite (Hid e He), (Hid x) in Hxy by (apply Hg; by eapply list_elem_of_lookup_2).
    rewrite (Hp i x Hi), Hpos in Hxy. apply lookup_lt_Some in Hi.
    apply observation_id_inj in Hxy; lia.
Qed.

(** The observation of [ev] is one this capture can journal and materialise. *)
Definition accepts (v : env W) (c : captureCoordinator) (ev : Event.t) : Prop :=
  forall payload digest, marshalObservation (Some ev) = Ok payload -> digestRepresentation payload = Ok digest ->
    let e := observation_entry v c ev payload digest in
    Journal.entry_ok e = true /\
    good inc stream (Journal.assign 1 (Journal.LastPosition (journal c) + 1) "" "" e) = true.

(** A running coordinator: its journal has failed, and it can do nothing more, or it has
    the entries of the file. *)
Definition running (jw : Journal.world) (es : list Entry) (k : nat) (hs : list string)
    (c : captureCoordinator) : Prop :=
  Journal.failed (journal c) = true \/ (Journal.clean jw es /\ coordinator_ok es k hs c).

Lemma failed_journal v jw c ev jw' c' r :
  Journal.failed (journal c) = true -> journalObservation v jw c ev = (jw', c', r) ->
  Journal.failed (journal c') = true /\ Journal.file jw' = Journal.file jw /\ exists e, r = Err e.
Proof.
  intros Hf. unfold journalObservation.
  destruct (let? _ := _ in _) as [[payload digest]|e].
  - unfold Journal.Append, Journal.prepare. rewrite Hf. destruct (negb _); intros [= <- <- <-]; (split; [exact Hf|]; split; [done|by eexists]).
  - intros [= <- <- <-]. unfold Journal.MarkDegraded. rewrite Journal.file_degraded.
    split; [done|]. split; [done|by eexists].
Qed.

(** One observation is journaled, or it is not and nothing is lost. *)
Lemma journalObservation_spec v jw c ev es k hs jw' c' r :
  journal_ok inc stream es -> Z.of_nat (length es) < limit -> Journal.clean jw es -> coordinator_ok es k hs c ->
  accepts v c ev -> journalObservation v jw c (Some ev) = (jw', c', r) ->
  cm c' = cm c /\
  match r with
  | Ok e => journal_ok inc stream (es ++ [e]) /\ Journal.clean jw' (es ++ [e]) /\
      Journal.entries (journal c') = es ++ [e] /\ streamID c' = streamID c /\ incarnation c' = incarnation c
  | Err _ => exists es', Journal.has jw' es' /\ journal_ok inc stream es' /\ es `prefix_of` es' /\
      running jw' es' k hs c'
  end.
Proof.
  intros Hj Hlim Hcl Hco Hacc H. pose proof Hco as (He & Hstr & Hinc & Hcp). unfold journalObservation in H.
  destruct (let? _ := _ in _) as [[payload digest]|err] eqn:Er.
  2:{ injection H as <- <- <-. split; [done|]. exists es.
      assert (Journal.clean (Journal.MarkDegraded (e_marker v) (e_reason v) jw).1 es) as Hcl'.
      { eapply Journal.has_tail_file; [|exact Hcl]. unfold Journal.MarkDegraded. by rewrite Journal.file_degraded. }
      split_and!; [by apply Journal.clean_has|done|done|by right]. }
  assert (marshalObservation (Some ev) = Ok payload /\ digestRepresentation payload = Ok digest) as [Hm Hd].
  { destruct (marshalObservation (Some ev)) as [pl|]; [|discriminate].
    destruct (digestRepresentation pl) as [dg|] eqn:Ed; [|discriminate]. by injection Er as <- <-. }
  destruct (Hacc payload digest Hm Hd) as [Hok Hg]. change (default Event.zero (Some ev)) with ev in H.
  set (e0 := observation_entry v c ev payload digest) in *.
  destruct (Journal.Append _ _ _) as [[jw1 j1] r1] eqn:Ea. injection H as <- <- <-.
  assert (Journal.LastPosition (journal c) = Z.of_nat (length es)) as Hlast.
  { rewrite (journal_LastPosition inc stream) by (by rewrite He). unfold Journal.Len. by rewrite He. }
  rewrite <- He in Hcl.
  pose proof (Journal.append_has (e_append v) e0 jw (journal c) jw1 j1 r1 Hcl Hok (Z.le_refl 0) ltac:(rewrite He; lia) Ea) as Hap.
  clear Hcl. rename Hap into Hcl.
  assert (forall e' line, Journal.prepare (journal c) e0 = Ok (e', line) -> journal_ok inc stream (es ++ [e'])) as Hsnoc.
  { intros e' line (vv & h & ->)%Journal.prepare_assign. rewrite Hlast in *. rewrite wrap64_id by lia.
    apply journal_ok_snoc; [done|exact Hg|done]. }
  split; [done|]. rewrite He in Hcl. destruct r1 as [e'|err]; cbn [map_err].
  - destruct Hcl as (Hp & -> & Hcl). split_and!; [by eapply Hsnoc|done|by cbn; rewrite He|done|done].
  - destruct Hcl as (Ej & _ & Hhas & Hclean). destruct (Journal.failed j1) eqn:Ef.
    + destruct Hhas as [Hhas|(e' & line & Hp & Hhas)].
      * exists es. split_and!; [done|done|done|by left].
      * exists (es ++ [e']). split_and!; [done|by eapply Hsnoc|by eexists|by left].
    + exists es. split_and!; [by apply Journal.clean_has, Hclean|done|done|right].
      split; [by apply Hclean|]. unfold coordinator_ok. split_and!; [cbn; by rewrite Ej|done..].
Qed.

(** [commit] on consistent evidence: whatever fails, the evidence stays consistent with
    what the journal then holds; success means the observation is recorded. *)
Lemma commit_spec v jw w c ev es k hs jw' ws c' r :
  sound_env v -> journal_ok inc stream es -> (k <= length es)%nat -> Z.of_nat (length es) < limit ->
  bundle_at w (take k es) hs -> checkpoint_at w k hs -> Journal.clean jw es -> coordinator_ok es k hs c ->
  accepts v c ev -> (forall es', Journal.has jw' es' -> roomy v w es') ->
  commit v jw w c (Some ev) = (jw', ws, c', r) ->
  exists es', es `prefix_of` es' /\ Journal.has jw' es' /\ journal_ok inc stream es' /\ Forall (reaches es' k hs) ws /\
    (exists k' hs', (k' <= length es')%nat /\ bundle_at (final w ws) (take k' es') hs' /\
       checkpoint_at (final w ws) k' hs' /\ running jw' es' k' hs' c') /\
    match (journalObservation v jw c (Some ev)).2 with
    | Err _ => True
    | Ok e => es' = es ++ [e] /\ (calm_env v -> exists h, r = Ok h)
    end /\
    (forall h, r = Ok h -> settled es' (final w ws) /\
       exists e hs', es' = es ++ [e] /\ (journalObservation v jw c (Some ev)).2 = Ok e /\
         bundle_at (final w ws) es' hs' /\ (Some (acq_of stream e), h) ∈ zip (evidence_of stream es') hs').
Proof.
  intros Henv Hj Hk Hlim Hb Hc Hcl Hco Hacc Hroom H. unfold commit in H.
  destruct (journalObservation v jw c (Some ev)) as [[jw1 c1] r1] eqn:Eo. cbn [snd].
  destruct (journalObservation_spec v jw c ev es k hs jw1 c1 r1 Hj Hlim Hcl Hco Hacc Eo) as [Hcm Ho].
  pose proof Hco as (He & Hstr & Hinc & cp & Hcp & Hcpok).
  destruct r1 as [e|err].
  2:{ injection H as <- <- <- <-. destruct Ho as (es' & Hh & Hj' & [l ->] & Hrun). exists (es ++ l).
      split_and!; [by eexists|done|done|done| |done|done]. exists k, hs.
      rewrite take_app_le by done. split_and!; [rewrite length_app; lia|done|done|].
      destruct Hrun as [Hf|[Hc1 Hc2]]; [by left|right]. by split. }
  destruct Ho as (Hj' & Hcl' & He' & Hstr' & Hinc').
  assert (coordinator_ok (es ++ [e]) k hs c1) as Hco'.
  { unfold coordinator_ok. rewrite Hstr', Hinc', Hcm. split_and!; [done..|by exists cp]. }
  destruct (commitPending v w c1 (entry_id e)) as [[c2 ws2] r2] eqn:Ep.
  assert (jw1 = jw' /\ ws2 = ws /\ journal c' = journal c2 /\ cm c' = cm c2 /\ streamID c' = streamID c2 /\
    incarnation c' = incarnation c2 /\ r2 = r) as (-> & -> & Ej & Ecm & Estr & Einc & ->)
    by (destruct r2; by injection H as <- <- <- <-).
  assert (roomy v w (es ++ [e])) as Hr by (by apply Hroom, Journal.clean_has).
  rewrite <- (take_app_le es [e] k) in Hb by done.
  assert (es ++ [e] <> [] /\ (k <= length (es ++ [e]))%nat /\ Z.of_nat (length (es ++ [e])) <= limit) as (L1 & L2 & L3)
    by (rewrite length_app; cbn; split_and!; [by destruct es|lia|lia]).
  destruct (commitPending_spec v w c1 (entry_id e) (es ++ [e]) k hs c2 ws r Henv Hj' L1 L2 L3 Hb Hc Hco' Hr Ep)
    as (H1 & H2 & H3 & H4).
  exists (es ++ [e]). split_and!; [by eexists|by apply Journal.clean_has|done|done| |done| |].
  - destruct H2 as (k' & hs' & K1 & K2 & K3 & K4 & (K5 & K6 & K7 & K8)). exists k', hs'. split_and!; [lia|done|done|].
    right. split; [done|]. unfold coordinator_ok. rewrite Ej, Estr, Einc, Ecm. by split_and!.
  - intros Hcalm. apply H4; [done|]. rewrite fmap_app. apply elem_of_app. right. by left.
  - intros h Hh. destruct (H3 h Hh) as (S1 & hs' & e' & S2 & S3 & S4 & S5). split; [done|].
    exists e, hs'. split_and!; [done|done|done|].
    assert (e' = e) as <-; [|done]. destruct Hj' as (_ & _ & Hn).
    apply list_elem_of_lookup in S3 as [i Hi].
    assert ((es ++ [e]) !! length es = Some e) as Hl by (by apply list_lookup_middle).
    assert (i = length es) as ->; [|congruence].
    apply (NoDup_lookup (entry_id <$> (es ++ [e])) i (length es) (entry_id e) Hn); rewrite list_lookup_fmap;
      [by rewrite Hi; cbn; rewrite S4|by rewrite Hl].
Qed.

(** ** Runs *)

(** The journal is shorter than [limit], and if replaying it appends anything the result
    is within the limits of the bundle format. *)
Definition capacity (v : env W) (jw : Journal.world) (w : W) : Prop :=
  forall es torn, Journal.readEntries false (Journal.file jw) = Ok (es, torn) ->
    Z.of_nat (length es) < limit /\ roomy v w es.

(** What happens to the capture of one source. A start on whatever the last run left, with
    any token or none ([names_source]: only the start that finds nothing bound decides the
    incarnation, and this is the capture of the one it named); a start that stops before
    its first write; observations; a stop; and a crash between calls, after any write of
    a start or of a commit, or (an append that fails part-way) inside the journal's write.
    Any call can fail, but for one: the second read of a journal repair
    ([Journal.repair_reads]). The observations are those a bundle can hold ([accepts]), and
    the journal and the bundle stay within their limits ([capacity]). The list is the
    observations that were journaled. *)
Inductive capture_run : Journal.world -> W -> option captureCoordinator -> list Entry -> Prop :=
| run_init w :
    bundle_file w = NotExist -> Checkpoint.Load (checkpoint_file w) = Err Checkpoint.ErrCheckpointNotFound ->
    capture_run (Journal.mkWorld None false None) w None []
| run_enable jw w acked v jenv src jw' ws r :
    capture_run jw w None acked -> sound_env v -> Journal.repair_reads jenv jw -> names_source v src jw w ->
    capacity v jw w -> enableCapture v jenv src stream jw w = (jw', ws, r) ->
    capture_run jw' (final w ws) (match r with Ok c => Some c | Err _ => None end) acked
| run_enable_crash jw w acked v jenv src jw' ws r w' :
    capture_run jw w None acked -> sound_env v -> Journal.repair_reads jenv jw -> names_source v src jw w ->
    capacity v jw w -> enableCapture v jenv src stream jw w = (jw', ws, r) -> w' ∈ w :: ws ->
    capture_run jw' w' None acked
| run_enable_stopped jw w acked jenv jw' r :
    capture_run jw w None acked -> Journal.repair_reads jenv jw -> Journal.Open jenv stream jw = (jw', r) ->
    capture_run jw' w None acked
| run_commit jw w c acked v ev jw' ws c' r :
    capture_run jw w (Some c) acked -> sound_env v -> accepts v c ev -> capacity v jw w -> capacity v jw' w ->
    commit v jw w c (Some ev) = (jw', ws, c', r) ->
    capture_run jw' (final w ws) (Some c')
      (match (journalObservation v jw c (Some ev)).2 with Ok e => acked ++ [e] | Err _ => acked end)
| run_commit_crash jw w c acked v ev jw' ws c' r w' :
    capture_run jw w (Some c) acked -> sound_env v -> accepts v c ev -> capacity v jw w -> capacity v jw' w ->
    commit v jw w c (Some ev) = (jw', ws, c', r) -> w' ∈ w :: ws ->
    capture_run jw' w' None
      (match (journalObservation v jw c (Some ev)).2 with Ok e => acked ++ [e] | Err _ => acked end)
| run_stop jw w c acked : capture_run jw w (Some c) acked -> capture_run jw w None acked.

Definition run_inv (jw : Journal.world) (w : W) (oc : option captureCoordinator) (acked : list Entry) : Prop :=
  exists es k hs, Journal.has jw es /\ journal_ok inc stream es /\ (k <= length es)%nat /\
    bundle_at w (take k es) hs /\ checkpoint_at w k hs /\ acked `sublist_of` es /\
    match oc with None => True | Some c => running jw es k hs c end.

Lemma has_reads jw es :
  Journal.has jw es -> exists torn, Journal.readEntries false (Journal.file jw) = Ok (es, torn).
Proof. intros (frag & Hf & Ht). eexists. by apply Journal.has_tail_read. Qed.

Lemma capacity_has v jw w es : capacity v jw w -> Journal.has jw es -> Z.of_nat (length es) < limit /\ roomy v w es.
Proof. intros Hc [torn Hr]%has_reads. by apply (Hc es torn). Qed.

Lemma reaches_inv jw w es k0 hs0 acked :
  Journal.has jw es -> journal_ok inc stream es -> reaches es k0 hs0 w -> acked `sublist_of` es ->
  run_inv jw w None acked.
Proof. intros Hh Hj (k & hs & K1 & _ & K2 & K3) Ha. exists es, k, hs. split_and!; [done|done|lia|done..]. Qed.

Lemma enable_inv jw w acked v jenv src jw' ws r :
  run_inv jw w None acked -> sound_env v -> Journal.repair_reads jenv jw -> names_source v src jw w ->
  capacity v jw w -> enableCapture v jenv src stream jw w = (jw', ws, r) ->
  run_inv jw' (final w ws) (match r with Ok c => Some c | Err _ => None end) acked /\
  Forall (fun w' => run_inv jw' w' None acked) (w :: ws).
Proof.
  intros (es & k & hs & Hh & Hj & Hk & Hb & Hc & Ha & _) Henv Hre Hsrc Hcap H.
  destruct (capacity_has v jw w es Hcap Hh) as [Hlim Hroom].
  destruct (enable_spec v jenv src jw w es k hs jw' ws r Henv Hh Hre Hsrc Hj Hk ltac:(lia) Hb Hc Hroom H)
    as (Hh' & Hws & Hok & _).
  pose proof (reaches_self es k hs w Hk Hb Hc) as Hw.
  split.
  - destruct r as [c|e].
    + destruct (Hok c eq_refl) as (Hcl & _ & _ & hs' & Hb' & Hc' & Hco). exists es, (length es), hs'.
      rewrite take_ge by done. split_and!; [done|done|done|done|done|done|by right].
    + apply (reaches_inv jw' _ es k hs); [done|done| |done]. by apply final_Forall.
  - constructor; [by apply (reaches_inv jw' _ es k hs)|].
    eapply Forall_impl; [exact Hws|]. intros w' Hw'. by apply (reaches_inv jw' _ es k hs).
Qed.

Lemma commit_inv jw w c acked v ev jw' ws c' r :
  run_inv jw w (Some c) acked -> sound_env v -> accepts v c ev -> capacity v jw w -> capacity v jw' w ->
  commit v jw w c (Some ev) = (jw', ws, c', r) ->
  let acked' := match (journalObservation v jw c (Some ev)).2 with Ok e => acked ++ [e] | Err _ => acked end in
  run_inv jw' (final w ws) (Some c') acked' /\ Forall (fun w' => run_inv jw' w' None acked') (w :: ws).
Proof.
  intros (es & k & hs & Hh & Hj & Hk & Hb & Hc & Ha & Hrun) Henv Hacc Hcap Hcap' H.
  destruct (capacity_has v jw w es Hcap Hh) as [Hlim _]. cbn zeta.
  pose proof (reaches_self es k hs w Hk Hb Hc) as Hw.
  destruct Hrun as [Hf|[Hcl Hco]].
  { unfold commit in H. destruct (journalObservation v jw c (Some ev)) as [[jw1 c1] r1] eqn:Eo.
    destruct (failed_journal v jw c (Some ev) jw1 c1 r1 Hf Eo) as (Hf1 & Hfile & e & ->). injection H as <- <- <- <-.
    assert (Journal.has jw1 es) as Hh1 by (by eapply Journal.has_file; [by rewrite Hfile|exact Hh]).
    split; [|constructor; [by apply (reaches_inv jw1 _ es k hs)|constructor]].
    exists es, k, hs. split_and!; [done..|by left]. }
  destruct (commit_spec v jw w c ev es k hs jw' ws c' r Henv Hj Hk Hlim Hb Hc Hcl Hco Hacc) as
    (es' & Hpre & Hh' & Hj' & Hws & (k' & hs' & K1 & K2 & K3 & K4) & Hack & _); [|done|].
  { intros es' Hes'. by apply (capacity_has v jw' w). }
  assert (match (journalObservation v jw c (Some ev)).2 with Ok e => acked ++ [e] | Err _ => acked end `sublist_of` es') as Ha'.
  { destruct (_).2 as [e|]; [destruct Hack as [-> _]; by apply sublist_app|].
    destruct Hpre as [l ->]. etrans; [exact Ha|]. by apply sublist_inserts_r. }
  split; [by exists es', k', hs'|]. constructor.
  - apply (reaches_inv jw' _ es' k hs); [done|done| |done].
    exists k, hs. destruct Hpre as [l ->]. rewrite take_app_le by done. rewrite length_app. split_and!; [lia|lia|done..].
  - eapply Forall_impl; [exact Hws|]. intros w' Hw'. by apply (reaches_inv jw' _ es' k hs).
Qed.

Lemma run_invariant jw w oc acked : capture_run jw w oc acked -> run_inv jw w oc acked.
Proof.
  induction 1 as [w Hb Hc|jw w acked v jenv src jw' ws r _ IH Henv Hre Hsrc Hcap H
    |jw w acked v jenv src jw' ws r w' _ IH Henv Hre Hsrc Hcap H Hin
    |jw w acked jenv jw' r _ IH Hre H
    |jw w c acked v ev jw' ws c' r _ IH Henv Hacc Hcap Hcap' H
    |jw w c acked v ev jw' ws c' r w' _ IH Henv Hacc Hcap Hcap' H Hin|jw w c acked _ IH].
  - exists [], O, []. split_and!; [|by split_and!; [|constructor..]|done|by left|by left|done|done].
    apply Journal.clean_has. by exists [].
  - by apply (enable_inv jw w acked v jenv src).
  - destruct (enable_inv jw w acked v jenv src jw' ws r IH Henv Hre Hsrc Hcap H) as [_ Hws].
    rewrite Forall_forall in Hws. by apply Hws.
  - destruct IH as (es & k & hs & Hh & Hrest). exists es, k, hs. split; [|exact Hrest].
    by destruct (Journal.open_has _ _ _ _ _ _ Hh Hre H).
  - by apply (commit_inv jw w c acked v ev jw' ws c' r).
  - destruct (commit_inv jw w c acked v ev jw' ws c' r IH Henv Hacc Hcap Hcap' H) as [_ Hws].
    rewrite Forall_forall in Hws. by apply Hws.
  - destruct IH as (es & k & hs & H1 & H2 & H3 & H4 & H5 & H6 & _). by exists es, k, hs.
Qed.

(** ** Each observation once *)

(** The records with a source record identity. *)
Definition records_of (id : string) (b : bundle) : bundle :=
  List.filter (fun r => match Event.Acquisition (Event_ r) with
                        | Some acq => String.eqb (AcquisitionInfo.SourceRecordID acq) id
                        | None => false
                        end) b.

Lemma records_of_none b l id :
  sources b = recorded_as stream l -> id ∉ (entry_id <$> l) -> records_of id b = [].
Proof.
  unfold bundle in *. revert l. induction b as [|r b IH]; intros [|e l]; try done.
  unfold sources, recorded_as. cbn [map fmap list_fmap]. intros [= Hr Hs] Hid. apply not_elem_of_cons in Hid as [Hne Hid].
  unfold records_of. cbn [List.filter]. rewrite Hr. cbn [acq_of entry_acquisition AcquisitionInfo.SourceRecordID].
  rewrite (proj2 (String.eqb_neq _ _)) by done. by apply (IH l).
Qed.

Lemma records_of_one b l e :
  sources b = recorded_as stream l -> NoDup (entry_id <$> l) -> e ∈ l ->
  exists r, records_of (entry_id e) b = [r] /\ Event.Acquisition (Event_ r) = Some (acq_of stream e).
Proof.
  unfold bundle in *. revert l. induction b as [|r b IH]; intros [|x l]; try done; [by intros _ _ ?%elem_of_nil|].
  unfold sources, recorded_as. cbn [map fmap list_fmap]. intros [= Hr Hs] [Hx Hn]%NoDup_cons He.
  unfold records_of. cbn [List.filter]. rewrite Hr. cbn [acq_of entry_acquisition AcquisitionInfo.SourceRecordID].
  destruct (String.eqb_spec (entry_id x) (entry_id e)) as [E|E].
  - assert (e = x) as -> by (apply elem_of_cons in He as [?|He]; [done|]; destruct Hx; rewrite E; by apply list_elem_of_fmap_2).
    exists r. split; [|exact Hr]. f_equal. by apply (records_of_none b l).
  - apply elem_of_cons in He as [->|He]; [done|]. by apply (IH l).
Qed.

(** The bundle on disk loads and verifies, and has exactly one record for the entry, with
    its digest and provenance. *)
Definition recorded_once (e : Entry) (w : W) : Prop :=
  exists rd b r, bundle_file w = Exists rd /\ LoadVerified rd = Ok b /\ Verify b = Ok tt /\
    records_of (entry_id e) b = [r] /\ Event.Acquisition (Event_ r) = Some (acq_of stream e).

Lemma settled_once es w e : settled es w -> e ∈ es -> recorded_once e w.
Proof.
  intros ((_ & _ & Hn) & hs & _ & [(_ & -> & _)|(rd & b & Hf & Hl & _ & Hs & _)] & _) He;
    [by apply elem_of_nil in He|].
  destruct b as [|r0 b]; [done|]. injection Hs as Hr0 Hs.
  destruct (records_of_one b es e Hs Hn He) as (r & Hr & Ha). exists rd, (r0 :: b), r.
  split_and!; [done|done|by eapply LoadVerified_verified| |done].
  unfold records_of in *. cbn [List.filter]. by rewrite Hr0.
Qed.

(** ** Properties *)

(** C4: the capture of a source is crash-consistent. After any run of starts (with any
    token or none), observations and stops, with a crash between calls or after any write,
    and any call failing other than the re-read of a journal repair, the journal reads
    back with every observation that was journaled, in order, and the evidence is
    consistent with it: the bundle on disk is absent, or it is a verified version 3 bundle
    that carries the manifest and then the first [k] journal entries, each once, in order,
    and nothing else; the checkpoint is absent, or it is of this source, is bound to a
    prefix of that bundle, and has a position of at most [k]. The runs are those of
    [capture_run]: they have no open that fails the second read of a torn journal (it
    empties the journal, [Journal.repair_reread_failure_truncates]), and observe events
    that a bundle can hold ([accepts]), within its limits ([capacity]). *)
Theorem capture_stays_consistent jw w oc acked :
  capture_run jw w oc acked ->
  exists es torn, Journal.readEntries false (Journal.file jw) = Ok (es, torn) /\
    acked `sublist_of` es /\ consistent es w.
Proof.
  intros (es & k & hs & Hh & Hj & Hk & Hb & Hc & Ha & _)%run_invariant.
  destruct (has_reads jw es Hh) as [torn Hr]. exists es, torn. split_and!; [done|done|].
  split; [done|]. exists k, hs. split_and!; [lia|done|apply prefix_nil|done|done].
Qed.

(** C5: recovery completes. From whatever a run ([capture_run], with the limits stated
    for it there) left, if no call fails, capture starts again, given the token of the
    source or none, and then the evidence is settled: the bundle has every entry of the
    journal, so every observation that was ever journaled is recorded exactly once, with
    its own digest, in a bundle that verifies, and the checkpoint is bound to its head.
    A run observes events a bundle can hold ([accepts]): after one it cannot, every
    recovery fails. With no token and nothing bound yet, the incarnation that is drawn is
    the source's ([names_source]). *)
Theorem capture_recovers jw w oc acked v src :
  capture_run jw w oc acked -> calm_env v ->
  TrimSpace src = inc \/ (TrimSpace src = "" /\ names_source v src jw w) -> capacity v jw w ->
  exists jw' ws c es, enableCapture v Journal.calm src stream jw w = (jw', ws, Ok c) /\
    acked `sublist_of` es /\ settled es (final w ws) /\
    (forall e, e ∈ es -> recorded_once e (final w ws)).
Proof.
  intros (es & k & hs & Hh & Hj & Hk & Hb & Hc & Ha & _)%run_invariant Hcalm Hsrc Hcap.
  destruct (capacity_has v jw w es Hcap Hh) as [Hlim Hroom].
  destruct (enableCapture v Journal.calm src stream jw w) as [[jw' ws] r] eqn:E.
  destruct (enable_spec v Journal.calm src jw w es k hs jw' ws r (calm_env_sound v Hcalm) Hh (fun _ _ => eq_refl)
    ltac:(destruct Hsrc as [Hsrc|[_ Hsrc]]; [by apply given_names_source|done]) Hj Hk
    ltac:(lia) Hb Hc Hroom E) as (_ & _ & Hok & Hlive).
  destruct Hlive as [c ->]; [done|by destruct Hsrc as [|[]]; [right|left]| |].
  { destruct (Journal.Open_calm jw [] stream) as (jw2 & j & Ho & _); [|by exists jw2, j].
    exists es. split_and!; [done|apply sublist_nil_l|done]. }
  destruct (Hok c eq_refl) as (_ & _ & Hset & _). exists jw', ws, c, es.
  split_and!; [done|done|done|]. intros e. by apply settled_once.
Qed.

(** C6: an acknowledged observation is durable. When [commit] returns a hash, the
    journal has the observation, the evidence on disk is settled, and the observation is
    recorded exactly once, by the record with that hash; and when no call fails, every
    observation that was journaled is acknowledged. *)
Theorem commit_is_durable jw w c acked v ev jw' ws c' r :
  capture_run jw w (Some c) acked -> Journal.failed (journal c) = false -> sound_env v -> accepts v c ev ->
  capacity v jw w -> capacity v jw' w -> commit v jw w c (Some ev) = (jw', ws, c', r) ->
  (forall h, r = Ok h -> exists es e rd b rec,
     (journalObservation v jw c (Some ev)).2 = Ok e /\ settled (es ++ [e]) (final w ws) /\
     recorded_once e (final w ws) /\ bundle_file (final w ws) = Exists rd /\ LoadVerified rd = Ok b /\
     rec ∈ b /\ Event.Acquisition (Event_ rec) = Some (acq_of stream e) /\ Hash rec = h) /\
  (calm_env v -> is_ok (journalObservation v jw c (Some ev)).2 = true -> exists h, r = Ok h).
Proof.
  intros (es & k & hs & Hh & Hj & Hk & Hb & Hc & Ha & [Hf|[Hcl Hco]])%run_invariant Hnf Henv Hacc Hcap Hcap' H; [congruence|].
  destruct (capacity_has v jw w es Hcap Hh) as [Hlim _].
  destruct (commit_spec v jw w c ev es k hs jw' ws c' r Henv Hj Hk Hlim Hb Hc Hcl Hco Hacc) as
    (es' & _ & _ & _ & _ & _ & Hack & Hok); [|done|].
  { intros es' Hes'. by apply (capacity_has v jw' w). }
  split.
  - intros h Hr. destruct (Hok h Hr) as (Hset & e & hs' & -> & Ho & Hb' & Hin).
    assert (recorded_once e (final w ws)) as Hrec
      by (apply (settled_once (es ++ [e])); [done|apply elem_of_app; right; left]).
    destruct Hb' as [(_ & Hnil & _)|(rd & b & Hf & Hl & _ & Hs & <-)]; [by destruct es|].
    exists es, e, rd, b. rewrite <- Hs in Hin.
    assert (exists rec, rec ∈ b /\ Event.Acquisition (Event_ rec) = Some (acq_of stream e) /\ Hash rec = h) as (rec & H1 & H2 & H3).
    { clear -Hin. unfold sources, hashes in Hin. induction b as [|r b IH]; cbn in Hin; [by apply elem_of_nil in Hin|].
      apply elem_of_cons in Hin as [[= Ha ->]|Hin]; [exists r; split; [left|done]|].
      destruct (IH Hin) as (rec & H1 & H2). exists rec. split; [by right|done]. }
    exists rec. by split_and!.
  - intros Hcalm Ho. destruct (_).2 as [e|]; [|discriminate]. by apply Hack.
Qed.
End protocol.

(** ** A concrete capture

    The file store with the paths of a bundle and its checkpoint; temporary names longer
    than every name in use. *)

Section example.
Definition longest_name (fs : files) : string := foldr String.append "b.atb.cp.json" (fst <$> map_to_list fs).
Definition example_fault (fs : files) : FileStore.file_fault :=
  FileStore.mkFault Acquired false
    (BundleIO.mkEnv (fun _ => false) false (fun _ => false) 0 (longest_name fs))
    (Checkpoint.mkSaveEnv false (fun _ => false) 0 (longest_name fs) true false).

#[local] Instance example_store : EvidenceStore files := FileStore.file_store "b.atb" "cp.json".

Lemma example_paths : "b.atb" <> "cp.json".
Proof. discriminate. Qed.

#[local] Instance example_laws : EvidenceLaws files := FileStore.file_laws "b.atb" "cp.json" example_paths.

Lemma length_string_app s t : String.length (s +:+ t) = (String.length s + String.length t)%nat.
Proof.
  induction s as [|c s IH]; [done|].
  change (S (String.length (String.append s t)) = S (String.length s + String.length t)). f_equal. exact IH.
Qed.

Lemma longest_name_fresh fs : FileStore.fresh_name "b.atb" "cp.json" fs (longest_name fs).
Proof.
  assert (forall l, (13 <= String.length (foldr String.append "b.atb.cp.json" l))%nat /\
    forall s, s ∈ l -> (String.length s < String.length (foldr String.append "b.atb.cp.json" l))%nat) as Hl.
  { induction l as [|x l [H1 H2]]; [split; [done|by intros s ?%elem_of_nil]|]. cbn [foldr]. rewrite length_string_app.
    split; [lia|]. intros s [->|Hs%H2]%elem_of_cons; lia. }
  destruct (Hl (fst <$> map_to_list fs)) as [H1 H2]. fold (longest_name fs) in H1, H2. split_and!.
  - intros E. rewrite E in H1. cbn in H1. lia.
  - intros E. rewrite E in H1. cbn in H1. lia.
  - destruct (fs !! longest_name fs) eqn:E; [|done]. apply elem_of_map_to_list in E.
    assert (longest_name fs ∈ fst <$> map_to_list fs) as Hin%H2 by (by apply (list_elem_of_fmap_2' fst _ (longest_name fs, p))).
    lia.
Qed.

Definition example_env : env files :=
  mkEnv "2026-01-02T03:04:05Z" (Some (B "0123456789abcdef")) "2026-01-02T03:04:06Z" "2026-01-02T03:04:06Z"
    "2026-01-02T03:04:07Z" (Journal.mkAppendEnv None false Journal.MarkerOk) Journal.MarkerOk ""
    example_fault example_fault.

Lemma example_calm : calm_env example_env.
Proof.
  split; [by split_and!|]. split; [by eexists|]. intros fs.
  assert (calm (example_fault fs) fs) as H; [|done].
  split; [split; apply longest_name_fresh|by split_and!].
Qed.
(** Capture is started on an empty directory and makes one observation. *)
Definition example_empty : Journal.world := Journal.mkWorld None false None.
Definition example_started : Journal.world * list files * result capture_error captureCoordinator :=
  enableCapture example_env Journal.calm "run-1" "s" example_empty ∅.
Definition example_coordinator : captureCoordinator :=
  Eval vm_compute in
    match example_started.2 with
    | Ok c => c
    | Err _ => mkCoordinator "" "" (Journal.mkJournal "" false [] false false)
                 (Checkpoint.mkManager None "" "" "" "" "" (SourceIdentity.mk "" "" false)) true captureUnknown "" "" 0 None false
    end.
Definition example_files : files := final ∅ example_started.1.2.
Definition example_committed : Journal.world * list files * captureCoordinator * result capture_error string :=
  commit example_env example_started.1.1 example_files example_coordinator (Some sample_observation).

Definition check_storable (b : bundle) : bool :=
  forallb (fun r => record_ok r && payload_ok (Event.Data (Event_ r))) b && is_ok (Verify b) &&
  match Manifest b with Some _ => true | None => false end && (Z.of_nat (length b) <=? MaxBundleRecords) &&
  match encode_records b with Some raw => Z.of_nat (length raw) <=? MaxBundleSizeBytes | None => false end.

Lemma check_storable_ok b : check_storable b = true -> storable b.
Proof.
  unfold check_storable, storable. intros [[[[H1 H2]%andb_true_iff H3]%andb_true_iff H4]%andb_true_iff H5]%andb_true_iff.
  apply forallb_Forall_iff in H1. apply Z.leb_le in H4. split; [|split; [|split; [|split]]].
  - eapply Forall_impl; [exact H1|]. cbn beta. intros r [? ?]%andb_true_iff. by split.
  - destruct (Verify b) as [[]|]; [done|discriminate].
  - destruct (Manifest b) as [m|]; [by exists m|discriminate].
  - exact H4.
  - destruct (encode_records b) as [raw|]; [|discriminate]. exists raw. split; [done|]. by apply Z.leb_le.
Qed.

(** [capacity], computed. *)
Definition check_capacity (jw : Journal.world) (fs : files) : bool :=
  match Journal.readEntries false (Journal.file jw) with
  | Err _ => true
  | Ok (es, _) =>
      (Z.of_nat (length es) <? 2) &&
      match loadBundleForCapture example_env fs with
      | Err _ => true
      | Ok (b, _) =>
          match materialise (fun _ => Ok tt) "s" b (indexAcquisition b) 0 es with
          | Ok (b', S _) => check_storable b'
          | _ => true
          end
      end
  end.

Lemma check_capacity_ok jw fs : check_capacity jw fs = true -> capacity "s" 2 example_env jw fs.
Proof.
  unfold check_capacity, capacity, roomy. intros H es torn E. rewrite E in H. apply andb_true_iff in H as [H1 H2].
  split; [by apply Z.ltb_lt|]. intros b created b' n Hl Hm Hn. rewrite Hl, Hm in H2.
  destruct n; [lia|by apply check_storable_ok].
Qed.

Lemma example_numbers n : 0 <= n <= 2 -> seq_ok n = true.
Proof. intros Hn. assert (n = 0 \/ n = 1 \/ n = 2) as [->|[->| ->]] by lia; vm_compute; reflexivity. Qed.

Abbreviation example_run := (capture_run "run-1" "s" 2).

Lemma example_first_run : example_run example_empty ∅ None [].
Proof. apply run_init; vm_compute; reflexivity. Qed.

Lemma example_inc : "run-1" <> "" /\ TrimSpace "run-1" = "run-1".
Proof. split; [discriminate|vm_compute; reflexivity]. Qed.

Lemma example_running : example_run example_started.1.1 example_files (Some example_coordinator) [].
Proof.
  apply (run_enable "run-1" "s" 2 example_empty ∅ [] example_env Journal.calm "run-1" example_started.1.1
    example_started.1.2 (Ok example_coordinator));
    [exact example_first_run|apply calm_env_sound, example_calm|by intros ?|
     apply given_names_source; [exact example_inc|apply example_inc]| |].
  - apply check_capacity_ok. vm_compute. reflexivity.
  - change (example_started = (example_started.1.1, example_started.1.2, Ok example_coordinator)).
    assert (example_started.2 = Ok example_coordinator) as <- by (vm_compute; reflexivity).
    by destruct example_started as [[]].
Qed.

Lemma example_accepts : accepts "run-1" "s" example_env example_coordinator sample_observation.
Proof.
  unfold accepts. intros payload digest Hp Hd. vm_compute in Hp. injection Hp as <-. vm_compute in Hd. injection Hd as <-.
  split; vm_compute; reflexivity.
Qed.

Lemma example_commit :
  commit example_env example_started.1.1 example_files example_coordinator (Some sample_observation) =
  (example_committed.1.1.1, example_committed.1.1.2, example_committed.1.2, example_committed.2).
Proof. unfold example_committed. by destruct (commit _ _ _ _ _) as [[[]]]. Qed.

Definition example_acked : list Journal.Entry :=
  match (journalObservation example_env example_started.1.1 example_coordinator (Some sample_observation)).2 with
  | Ok e => [] ++ [e]
  | Err _ => []
  end.

Lemma example_ran :
  example_run example_committed.1.1.1 (final example_files example_committed.1.1.2) (Some example_committed.1.2)
    example_acked.
Proof.
  pose proof (run_commit "run-1" "s" 2 example_started.1.1 example_files example_coordinator [] example_env
    sample_observation example_committed.1.1.1 example_committed.1.1.2 example_committed.1.2 example_committed.2
    example_running (calm_env_sound _ example_calm) example_accepts) as H.
  apply H; clear H.
  - apply check_capacity_ok. vm_compute. reflexivity.
  - apply check_capacity_ok. vm_compute. reflexivity.
  - exact example_commit.
Qed.

(** *** Witnesses *)

Lemma example_limit : 2 < 2 ^ 63.
Proof. lia. Qed.

Lemma example_text : valid_string "run-1" = true.
Proof. vm_compute. reflexivity. Qed.

Lemma example_stream : valid_string "s" = true.
Proof. vm_compute. reflexivity. Qed.

Lemma capture_stays_consistent_witness :
  exists es torn, Journal.readEntries false (Journal.file example_committed.1.1.1) = Ok (es, torn) /\
    length es = 1%nat /\ consistent "run-1" "s" es (final example_files example_committed.1.1.2).
Proof.
  destruct (capture_stays_consistent "run-1" "s" 2 example_numbers example_limit example_inc example_text example_stream
    example_committed.1.1.1 (final example_files example_committed.1.1.2) (Some example_committed.1.2) example_acked
    example_ran) as (es & torn & H1 & _ & H3). exists es, torn. split; [exact H1|]. split; [|exact H3].
  assert (match Journal.readEntries false (Journal.file example_committed.1.1.1) with
          | Ok (es, _) => length es | Err _ => O end = 1%nat) as Hn by (vm_compute; reflexivity).
  rewrite H1 in Hn. exact Hn.
Defined.

(** Started again without a token. *)
Lemma example_names_source :
  names_source "run-1" example_env "" example_committed.1.1.1 (final example_files example_committed.1.1.2).
Proof. intros [Hl _]. exfalso. revert Hl. vm_compute. discriminate. Qed.

Lemma capture_recovers_witness :
  exists jw' ws c es, enableCapture example_env Journal.calm "" "s" example_committed.1.1.1
      (final example_files example_committed.1.1.2) = (jw', ws, Ok c) /\
    settled "run-1" "s" es (final (final example_files example_committed.1.1.2) ws).
Proof.
  destruct (capture_recovers "run-1" "s" 2 example_numbers example_limit example_inc example_text example_stream
    example_committed.1.1.1 (final example_files example_committed.1.1.2) (Some example_committed.1.2)
    example_acked example_env "" example_ran example_calm
    (or_intror (conj (eq_refl : TrimSpace "" = "") example_names_source))) as (jw' & ws & c & es & H1 & _ & H3 & _).
  - apply check_capacity_ok. vm_compute. reflexivity.
  - exists jw', ws, c, es. exact (conj H1 H3).
Defined.

Lemma commit_is_durable_witness :
  exists e h, example_committed.2 = Ok h /\ recorded_once "s" e (final example_files example_committed.1.1.2).
Proof.
  destruct (commit_is_durable "run-1" "s" 2 example_numbers example_limit example_inc example_text example_stream
    example_started.1.1 example_files example_coordinator [] example_env sample_observation example_committed.1.1.1
    example_committed.1.1.2 example_committed.1.2 example_committed.2 example_running
    ltac:(vm_compute; reflexivity) (calm_env_sound _ example_calm) example_accepts
    ltac:(apply check_capacity_ok; vm_compute; reflexivity) ltac:(apply check_capacity_ok; vm_compute; reflexivity)
    example_commit) as [H1 H2].
  destruct H2 as [h Hh]; [exact example_calm|vm_compute; reflexivity|].
  destruct (H1 h Hh) as (es & e & rd & b & rec & _ & _ & H3 & _). exists e, h. exact (conj Hh H3).
Defined.

(** ** A bundle lost while capture runs *)

(** After the first observation the bundle file is removed, and the event is observed
    once more. *)
Definition lost_files : files := delete "b.atb" (final example_files example_committed.1.1.2).
Definition lost_commit : Journal.world * list files * captureCoordinator * result capture_error string :=
  commit example_env example_committed.1.1.1 lost_files example_committed.1.2 (Some sample_observation).
Definition lost_restart : Journal.world * list files * result capture_error captureCoordinator :=
  enableCapture example_env Journal.calm "run-1" "s" lost_commit.1.1.1 (final lost_files lost_commit.1.1.2).

(** The bundle on disk, if it loads. *)
Definition loaded (fs : files) : option bundle :=
  match bundle_file fs with
  | Exists rd => match LoadVerified rd with Ok b => Some b | Err _ => None end
  | _ => None
  end.

(** A bundle that disappears while capture runs is not noticed. [commitPending] makes
    a new bundle for the entries after the committed position without comparing it with
    the checkpoint, and binds the checkpoint to it: the next observation is acknowledged,
    the bundle on disk verifies and has no record of the observation acknowledged before,
    and the next start reports healthy capture. *)
Theorem lost_bundle_goes_unnoticed :
  exists h1 h2 b c, example_committed.2 = Ok h1 /\
    (records_of "run-1/s:1" <$> loaded (final example_files example_committed.1.1.2)) <> Some [] /\
    lost_commit.2 = Ok h2 /\ loaded (final lost_files lost_commit.1.1.2) = Some b /\
    records_of "run-1/s:1" b = [] /\ length b = 2%nat /\
    lost_restart.2 = Ok c /\ state c = captureHealthy /\ lastErr c = None.
Proof.
  assert (
    match example_committed.2, loaded (final example_files example_committed.1.1.2), lost_commit.2,
          loaded (final lost_files lost_commit.1.1.2), lost_restart.2 with
    | Ok _, Some b1, Ok _, Some b2, Ok c =>
        negb (bool_decide (records_of "run-1/s:1" b1 = [])) && bool_decide (records_of "run-1/s:1" b2 = []) &&
        (length b2 =? 2)%nat && bool_decide (state c = captureHealthy) &&
        match lastErr c with None => true | Some _ => false end
    | _, _, _, _, _ => false
    end = true) as H by (vm_compute; reflexivity).
  revert H.
  destruct example_committed.2 as [h1|]; [|discriminate].
  destruct (loaded (final example_files _)) as [b1|]; [|discriminate].
  destruct lost_commit.2 as [h2|]; [|discriminate].
  destruct (loaded (final lost_files _)) as [b2|]; [|discriminate].
  destruct lost_restart.2 as [c|]; [|discriminate].
  intros [[[[H1 H2]%andb_true_iff H3]%andb_true_iff H4]%andb_true_iff H5]%andb_true_iff.
  apply negb_true_iff, bool_decide_eq_false in H1. apply bool_decide_eq_true in H2. apply bool_decide_eq_true in H4.
  apply Nat.eqb_eq in H3. exists h1, h2, b2, c.
  split; [exact eq_refl|]. split; [by intros [= ?]|]. split; [exact eq_refl|]. split; [exact eq_refl|].
  split; [exact H2|]. split; [exact H3|]. split; [exact eq_refl|]. split; [exact H4|].
  by destruct (lastErr c).
Qed.
End example.
End CaptureRecovery.
