(* ===== verification/CaptureStatus.v ===== *)
(** * Package internal/proxy: the state of a capture, read offline

    [ReadCaptureStatus] of [status.go] and [BuildHandoff] of [handoff.go]: what an
    operator is told of a capture whose process may be gone, from the bundle, the journal
    with its markers and the checkpoint. Theorems: a capture is reported healthy exactly
    when bundle, journal and checkpoint agree in every way that is looked at; and what
    recovery leaves is reported healthy, unless the journal carries a marker. *)

From S2P Require Import Prelude GoText Sha256 GoFloat GoJson GoValue GoStruct Canonicalize Event HashChain Bundle BundleIO BundleSign Journal Checkpoint CaptureStore Capture CaptureRecovery.
Import Canonicalize HashChain Bundle BundleIO CaptureStore Capture.

Module CaptureStatus.

Record status := mkStatus {
  s_BundlePath : string;
  Integrity : string;
  ProcessHealth : string;
  CaptureState : string;
  SourceSystem : string;
  SourceIncarnation : string;
  Adapter : string;
  AdapterVersion : string;
  JournalPath : string;
  JournalEntries : Z;
  JournalLastPosition : Z;
  CommittedPosition : Z;
  JournalBacklog : Z;
  LastObservationAt : string;
  LastDurableCommitAt : string;
  ObservationCurrency : string;
  KnownGap : bool;
  PossibleUnknownGap : bool;
  Detail : string
}.

Definition state_text (s : captureState) : string :=
  match s with
  | captureHealthy => "healthy"
  | captureRecoveryRequired => "recovery_required"
  | captureDegraded => "degraded"
  | captureUnknown => "unknown"
  end.

(** ** The journal *)

(** [capturejournal.Degraded]: [text] is the reason a marker file gives, [unreadable] the
    error of a marker that exists and cannot be read. *)
Definition Degraded (text : Journal.degraded_reason -> string) (unreadable : option string) (jw : Journal.world) :
    bool * string :=
  match unreadable with
  | Some err => (true, "degradation marker unreadable: " +:+ err)
  | None => match Journal.degraded_marker jw with Some r => (true, text r) | None => (false, "") end
  end.

(** An entry of the contract of this capture, with the digest of its payload. *)
Definition entry_in_contract (e : Journal.Entry) : bool :=
  String.eqb (Journal.SourceSystem e) captureSourceSystem && String.eqb (Journal.Adapter e) captureAdapter &&
  String.eqb (Journal.AdapterVersion e) captureAdapterVersion &&
  String.eqb (Journal.RepresentationVersion e) captureRepresentationVersion &&
  match digestRepresentation (Journal.Payload e) with
  | Ok d => String.eqb d (Journal.RepresentationDigest e)
  | Err _ => false
  end.

(** [seenIncarnation] *)
Definition incarnations (es : list Journal.Entry) : gset string := list_to_set (Journal.SourceIncarnation <$> es).

Definition journalInconsistent (cp : option Checkpoint.t) (es : list Journal.Entry) : bool :=
  match es with
  | [] => false
  | _ =>
      negb (forallb entry_in_contract es) || (1 <? Z.of_nat (size (incarnations es))) ||
      match cp with
      | Some cp => negb (String.eqb (Checkpoint.SourceIncarnation cp) "") &&
                   negb (bool_decide (Checkpoint.SourceIncarnation cp ∈ incarnations es))
      | None => false
      end
  end.

Definition last_position (es : list Journal.Entry) : Z :=
  match last es with Some e => Journal.Position e | None => 0 end.

(** ** The verdict *)

(** What the verdict is made of. A checkpoint that cannot be read is [None] with
    [unreadable]. *)
Record findings := mkFindings {
  v3 : bool;
  has_acquisition : bool;
  journal_error : bool;
  degraded : bool * string;
  repaired : bool;
  inconsistent : bool;
  entries : list Journal.Entry;
  cp : option Checkpoint.t;
  unreadable : bool;
  committed_position : Z
}.

Record verdict := mkVerdict { v_state : string; v_gap : bool; v_possible : bool; v_detail : string }.

Section continuity.
Context (streamID : string).

Definition contract (c : Checkpoint.t) : bool :=
  is_ok (Checkpoint.Validate c captureSourceSystem streamID captureAdapter captureAdapterVersion "").

(** The switch, in order; [v_gap] is what it adds to the known gap. *)
Definition continuity (b : bundle) (f : findings) : verdict :=
  let lastpos := last_position (entries f) in
  let committed := committed_position f in
  let none := bool_decide (entries f = []) in
  let say st := mkVerdict (state_text st) false false in
  let degr := say captureDegraded in
  let gap d := mkVerdict (state_text captureDegraded) true false d in
  let maybe st d := mkVerdict (state_text st) false true d in
  if negb (v3 f) then degr "bundle is not manifest v3; continuous capture does not apply"
  else if journal_error f then gap "journal corrupted; continuity cannot be established"
  else if (degraded f).1 then
    gap ("journal recorded a durable degradation; observations may be missing" +:+
         if String.eqb (degraded f).2 "" then "" else ": " +:+ (degraded f).2)
  else if repaired f then gap "journal torn tail detected (repaired on open); observations may be incomplete"
  else if inconsistent f then
    gap "journal entries do not match the capture contract (source/adapter/version/incarnation) or their representation digest"
  else if unreadable f then degr "checkpoint unreadable or malformed; continuity cannot be established"
  else if lastpos <? committed then
    maybe captureDegraded "journal ends before the committed position; observations may be missing"
  else if match cp f with Some c => negb (contract c) | None => false end then
    degr "checkpoint does not match this capture's source/adapter/version"
  else if (committed =? 0) && none && has_acquisition f then
    maybe captureDegraded "bundle holds acquisition evidence but no journal or committed position; operational continuity cannot be established"
  else if (committed =? 0) && none && negb (has_acquisition f) then
    mkVerdict "not_established" false false
      "no capture journal, committed position, or live acquisition evidence present; no observations recorded"
  else if committed <? lastpos then
    say captureRecoveryRequired "durable observations exist that are not yet committed to evidence"
  else
    match cp f with
    | Some c =>
        if negb (contract c) then degr "checkpoint does not match this capture's source/adapter/version"
        else if (0 <? committed) && (String.eqb (Checkpoint.BundleHeadHash c) "" || (Checkpoint.BundleRecordCount c =? 0)) then
          maybe captureDegraded "checkpoint has a committed position but no bundle binding"
        else if negb (is_ok (validateCheckpointPrefix (Some c) b)) then
          degr "checkpoint binding does not match the evidence"
        else say captureHealthy ""
    | None =>
        if none && negb (has_acquisition f) then
          mkVerdict "not_established" false false "no capture journal, checkpoint, or acquisition evidence present"
        else if has_acquisition f then
          maybe captureUnknown "acquisition evidence present but no checkpoint to establish continuity"
        else say captureUnknown ""
    end.
End continuity.

(** ** Reading the status *)

Section read.
Context {W : Type} `{!EvidenceStore W} (text : Journal.degraded_reason -> string).

(** The failures of one reading. *)
Record read_env := mkReadEnv { r_journal_fails : bool; r_marker : option string }.

(** The checkpoint, whether it is unreadable, and the committed position. *)
Definition read_checkpoint (w : W) : option Checkpoint.t * bool * Z :=
  match Checkpoint.Load (checkpoint_file w) with
  | Ok c => match checkpointPosition (Some c) with Ok pos => (Some c, false, pos) | Err _ => (Some c, true, 0) end
  | Err Checkpoint.ErrCheckpointNotFound => (None, false, 0)
  | Err _ => (None, true, 0)
  end.

(** [Read] of the journal: no entries and an error if it fails. *)
Definition read_journal (v : read_env) (jw : Journal.world) : list Journal.Entry * bool * bool :=
  match Journal.Read (r_journal_fails v) jw with Ok (es, rep) => (es, rep, false) | Err _ => ([], false, true) end.

Definition gather (v : read_env) (jw : Journal.world) (w : W) (b : bundle) : findings :=
  let '(es, rep, jerr) := read_journal v jw in
  let '(c, bad, pos) := read_checkpoint w in
  mkFindings (is_v3 b) (bundleHasAcquisition b) jerr (Degraded text (r_marker v) jw) rep (journalInconsistent c es) es c bad pos.

(** The status of a bundle that was not loaded. *)
Definition unloaded (clean journalPath integrity : string) (st : captureState) (gap : bool) (detail : string) : status :=
  mkStatus clean integrity "unknown" (state_text st) "" "" "" "" journalPath 0 0 0 0 "" "" "none" gap false detail.

Definition of_checkpoint {A} (f : Checkpoint.t -> A) (d : A) (c : option Checkpoint.t) : A :=
  match c with Some c => f c | None => d end.

Definition observed_at (es : list Journal.Entry) : string :=
  match last es with Some e => Journal.ObservedAt e | None => "" end.

Definition assemble (clean journalPath : string) (f : findings) (v : verdict) : status :=
  let lastpos := last_position (entries f) in
  let committed := committed_position f in
  mkStatus clean "verified" "unknown" (v_state v)
    (of_checkpoint Checkpoint.SourceSystem "" (cp f)) (of_checkpoint Checkpoint.SourceIncarnation "" (cp f))
    (of_checkpoint Checkpoint.Adapter "" (cp f)) (of_checkpoint Checkpoint.AdapterVersion "" (cp f))
    journalPath (Z.of_nat (length (entries f))) lastpos committed
    (if committed <? lastpos then lastpos - committed else 0)
    (observed_at (entries f))
    (* left empty when the position of the checkpoint cannot be read: it is set all the same *)
    (of_checkpoint Checkpoint.ObservedAt "" (cp f))
    (if negb (String.eqb (observed_at (entries f)) "") || has_acquisition f || (0 <? committed) then "unknown" else "none")
    ((degraded f).1 || journal_error f || v_gap v) (v_possible v) (v_detail v).

(** [clean] is the path cleaned, [journalPath] the journal beside it. *)
Definition ReadCaptureStatus (v : read_env) (clean journalPath : string) (jw : Journal.world) (w : W) : status :=
  let streamID := S_of (Checkpoint.Base (B clean)) in
  let degr := Degraded text (r_marker v) jw in
  match bundle_file w with
  | NotExist =>
      if degr.1 then
        unloaded clean journalPath "unknown" captureDegraded true
          ("bundle not found; journal recorded a durable degradation" +:+
           if String.eqb degr.2 "" then "" else ": " +:+ degr.2)
      else unloaded clean journalPath "unknown" captureUnknown false "bundle not found"
  | StatFails => unloaded clean journalPath "failed" captureDegraded degr.1 "bundle failed integrity verification"
  | Exists rd =>
      match LoadVerified rd with
      | Err _ => unloaded clean journalPath "failed" captureDegraded degr.1 "bundle failed integrity verification"
      | Ok b => let f := gather v jw w b in assemble clean journalPath f (continuity streamID b f)
      end
  end.

(** ** The handoff of one record *)

Record Handoff := mkHandoff {
  EvidenceReference : string;
  h_BundlePath : string;
  BundleHead : string;
  Sequence : Z;
  RecordHash : string;
  RecordType : string;
  h_CaptureState : string;
  h_SourceSystem : string;
  h_SourceIncarnation : string;
  KnownGaps : list string;
  Limitations : list string;
  VerificationState : string;
  ExportInstructions : string
}.

Inductive handoff_error := HLoad | HEmpty | HSequence (n : Z).

Definition limitations : list string :=
  ["ATB proves recorded integrity, not truth, completeness, or causation.";
   "Absence of a recorded event does not prove the event did not occur.";
   "Recorded order is append order, not causal order.";
   "A digest identifies a captured representation, not the provider-original object.";
   "Source incarnation is an operational token, not an authenticated origin.";
   "A capture state of healthy is a static consistency verdict, not proof that observation is live or complete."].

(** The record with a sequence number, or the last one if the number is not positive. *)
Definition handoff_record (b : bundle) (sequence : Z) : option Record_ :=
  if 0 <? sequence then List.find (fun r => Event.Sequence (Event_ r) =? sequence) b else last b.

Definition gaps_of (st : status) : list string :=
  (if KnownGap st || PossibleUnknownGap st
   then [if String.eqb (Detail st) "" then "capture continuity is not fully established" else Detail st] else []) ++
  (if 0 <? JournalBacklog st
   then [show_int (JournalBacklog st) +:+ " durable observation(s) not yet committed to evidence"] else []).

Definition BuildHandoff (v : read_env) (clean journalPath : string) (sequence : Z) (jw : Journal.world) (w : W) :
    result handoff_error Handoff :=
  match bundle_file w with
  | Exists rd =>
      match LoadVerified rd with
      | Err _ => Err HLoad
      | Ok b =>
          let head := committedHead b in
          if String.eqb head "" then Err HEmpty
          else
            match handoff_record b sequence with
            | None => Err (HSequence sequence)
            | Some r =>
                let n := Event.Sequence (Event_ r) in
                let st := ReadCaptureStatus v clean journalPath jw w in
                Ok (mkHandoff ("atb://evidence/1/" +:+ head +:+ "?seq=" +:+ show_int n +:+ "&record=" +:+ Hash r)
                      clean head n (Hash r) (Event.Type_ (Event_ r)) (CaptureState st)
                      (match Event.Acquisition (Event_ r) with Some a => AcquisitionInfo.SourceSystem a | None => "" end)
                      (SourceIncarnation st) (gaps_of st) limitations "verified"
                      ("atb export --format soc2 --bundle " +:+ clean +:+
                       " --output <file>  (offline; no capture service or Mortise required)"))
            end
      end
  | _ => Err HLoad
  end.
End read.

(** ** Healthy means that everything agrees *)

Lemma Read_chained fails jw es rep : Journal.Read fails jw = Ok (es, rep) -> Journal.chained es.
Proof.
  unfold Journal.Read, Journal.readEntries. assert (Journal.chained []) as Hnil by (split; constructor).
  destruct (Journal.file jw) as [data|]; [|by intros [= <- _]].
  destruct fails; [done|]. destruct (bool_decide (data = [])); [by intros [= <- _]|].
  destruct (Journal.read_lines [] _) as [l|] eqn:E; [|done]. intros [= <- _].
  by apply Journal.read_lines_chained in E as [? _].
Qed.

Lemma last_position_chained es : Journal.chained es -> last_position es = Z.of_nat (length es).
Proof.
  unfold last_position. destruct es as [|e es _] using rev_ind; [done|].
  intros (_ & _ & Hp & _)%Journal.chained_snoc. rewrite last_snoc, length_app, Hp. cbn. lia.
Qed.

Lemma one_incarnation es :
  es <> [] -> (1 <? Z.of_nat (size (incarnations es))) = false <-> exists inc, Forall (fun e => Journal.SourceIncarnation e = inc) es.
Proof.
  intros Hne. rewrite Z.ltb_ge. unfold incarnations. split.
  - intros Hs. destruct es as [|e es]; [done|]. exists (Journal.SourceIncarnation e).
    set (X := list_to_set _ : gset string) in Hs. assert (Journal.SourceIncarnation e ∈ X) as He by (subst X; set_solver).
    assert (size X = 1%nat) as [x Hx]%size_1_elem_of.
    { assert (size X <> 0%nat); [|lia]. intros H0%size_empty_inv. set_solver. }
    apply Forall_forall. intros e' He'. assert (Journal.SourceIncarnation e' ∈ X) as He''.
    { subst X. apply elem_of_list_to_set. by apply list_elem_of_fmap_2. }
    rewrite Hx in He, He''. apply elem_of_singleton in He, He''. congruence.
  - intros [inc Hi]. assert ((list_to_set (Journal.SourceIncarnation <$> es) : gset string) ⊆ {[inc]}) as Hsub.
    { intros x. rewrite elem_of_list_to_set, list_elem_of_fmap. intros (e & -> & He). rewrite Forall_forall in Hi. set_solver. }
    apply subseteq_size in Hsub. rewrite size_singleton in Hsub. lia.
Qed.

(** The journal of one incarnation, the one of the checkpoint if that names one. *)
Definition same_incarnation (c : Checkpoint.t) (es : list Journal.Entry) : Prop :=
  exists inc, Forall (fun e => Journal.SourceIncarnation e = inc) es /\
    (Checkpoint.SourceIncarnation c = "" \/ Checkpoint.SourceIncarnation c = inc).

Lemma consistent_journal c es :
  es <> [] -> journalInconsistent (Some c) es = false <->
  Forall (fun e => entry_in_contract e = true) es /\ same_incarnation c es.
Proof.
  intros Hne. unfold journalInconsistent, same_incarnation. pose proof (one_incarnation es Hne) as Hone.
  destruct es as [|e0 es]; [done|]. set (l := e0 :: es) in *.
  rewrite !orb_false_iff, negb_false_iff, forallb_Forall_iff, Hone, andb_false_iff, !negb_false_iff, String.eqb_eq, bool_decide_eq_true.
  split.
  - intros [[H1 [inc H2]] H3]. split; [done|]. exists inc. split; [done|]. destruct H3 as [H3|H3]; [by left|right].
    unfold incarnations in H3. apply elem_of_list_to_set, list_elem_of_fmap in H3 as (e & -> & He).
    rewrite Forall_forall in H2. by apply H2.
  - intros (H1 & inc & H2 & H3). split_and!; [done|by exists inc|]. destruct H3 as [H3| ->]; [by left|right].
    unfold incarnations. apply elem_of_list_to_set, list_elem_of_fmap. exists e0.
    assert (e0 ∈ l) as He by left. split; [|done]. rewrite Forall_forall in H2. symmetry. by apply H2.
Qed.

(** The checkpoint is bound to a record of the bundle. *)
Definition bound_within (c : Checkpoint.t) (b : bundle) : Prop :=
  Checkpoint.BundleHeadHash c <> "" /\ 0 < Checkpoint.BundleRecordCount c <= Z.of_nat (length b) /\
  Hash <$> (b : list Record_) !! Z.to_nat (Checkpoint.BundleRecordCount c - 1) = Some (Checkpoint.BundleHeadHash c).

Lemma bound_within_decides c b :
  ((String.eqb (Checkpoint.BundleHeadHash c) "" || (Checkpoint.BundleRecordCount c =? 0)) = false /\
   validateCheckpointPrefix (Some c) b = Ok tt) <-> bound_within c b.
Proof.
  unfold validateCheckpointPrefix, bound_within, bundle in *. destruct (String.eqb_spec (Checkpoint.BundleHeadHash c) "") as [->|Hh];
    cbn [orb andb]; [split; [by intros [? _]|naive_solver]|].
  destruct (Z.leb_spec (Checkpoint.BundleRecordCount c) 0) as [Hn|Hn].
  { split; [by intros [_ ?]|]. intros (_ & ? & _). lia. }
  rewrite (proj2 (Z.eqb_neq _ _)) by lia.
  destruct (Z.ltb_spec (Z.of_nat (length b)) (Checkpoint.BundleRecordCount c)) as [Hl|Hl].
  { split; [by intros [_ ?]|]. intros (_ & ? & _). lia. }
  destruct (_ !! _) as [r|]; cbn; [|split; [by intros [_ ?]|naive_solver]].
  destruct (String.eqb_spec (Hash r) (Checkpoint.BundleHeadHash c)) as [->|Hr].
  - split; [intros _; split_and!; (done || lia)|by intros _].
  - split; [by intros [_ ?]|]. intros (_ & _ & [= ?]). congruence.
Qed.

Section healthy.
Context {W : Type} `{!EvidenceStore W} (text : Journal.degraded_reason -> string).

(** Bundle, journal and checkpoint agree. *)
Record agreed (streamID : string) (v : read_env) (jw : Journal.world) (w : W) (b : bundle) (es : list Journal.Entry)
    (c : Checkpoint.t) : Prop := {
  agreed_bundle : exists rd, bundle_file w = Exists rd /\ LoadVerified rd = Ok b;
  agreed_v3 : is_v3 b = true;
  agreed_journal : Journal.Read (r_journal_fails v) jw = Ok (es, false);
  agreed_unmarked : (Degraded text (r_marker v) jw).1 = false;
  agreed_entries : es <> [] /\ Forall (fun e => entry_in_contract e = true) es /\ same_incarnation c es;
  agreed_checkpoint : Checkpoint.Load (checkpoint_file w) = Ok c;
  agreed_contract : contract streamID c = true;
  agreed_position : checkpointPosition (Some c) = Ok (Z.of_nat (length es));
  agreed_bound : bound_within c b
}.

Lemma position_nonneg c p : checkpointPosition c = Ok p -> 0 <= p.
Proof.
  unfold checkpointPosition. destruct c as [c|]; [|intros [= <-]; lia]. destruct (_ || _); [intros [= <-]; lia|].
  destruct (ParseInt64 _) as [n|]; [|done]. destruct (Z.ltb_spec n 0); [done|]. by intros [= <-].
Qed.

Ltac next H := match type of H with v_state (if ?c then _ else _) = _ => destruct c eqn:?; [by cbn in H|] end.

Lemma continuity_healthy streamID b f :
  Journal.chained (entries f) -> 0 <= committed_position f ->
  v_state (continuity streamID b f) = "healthy" ->
  v3 f = true /\ journal_error f = false /\ (degraded f).1 = false /\ repaired f = false /\ inconsistent f = false /\
  unreadable f = false /\ entries f <> [] /\ committed_position f = Z.of_nat (length (entries f)) /\
  exists c, cp f = Some c /\ contract streamID c = true /\ bound_within c b.
Proof.
  intros Hc Hp H. pose proof (last_position_chained _ Hc) as Hl. unfold continuity in H. cbv zeta in H. rewrite !Hl in H.
  do 11 (next H). boolify.
  destruct (cp f) as [c|]; [|do 2 (next H); by cbn in H].
  do 3 (next H). clear H. rewrite ?negb_false_iff, ?andb_false_iff in *.
  assert (committed_position f = Z.of_nat (length (entries f))) as Hpos by lia.
  assert (entries f <> []) as Hne.
  { intros E. rewrite E in *. cbn in Hpos. rewrite Hpos in *. cbn in *. destruct (has_acquisition f); naive_solver. }
  split_and!; try done. exists c. split_and!; try done. apply bound_within_decides.
  destruct (0 <? committed_position f) eqn:E; [|destruct (entries f); [done|cbn in Hpos; boolify; lia]].
  destruct (validateCheckpointPrefix (Some c) b) as [[]|]; [|done]. split; [|done]. naive_solver.
Qed.
End healthy.

(** ** Properties *)

Section properties.
Context {W : Type} `{!EvidenceStore W} (text : Journal.degraded_reason -> string).

Lemma read_journal_ok v jw es rep :
  Journal.Read (r_journal_fails v) jw = Ok (es, rep) -> read_journal v jw = (es, rep, false).
Proof. unfold read_journal. by intros ->. Qed.

Lemma read_checkpoint_ok (w : W) c pos :
  Checkpoint.Load (checkpoint_file w) = Ok c -> checkpointPosition (Some c) = Ok pos -> read_checkpoint w = (Some c, false, pos).
Proof. unfold read_checkpoint. by intros -> ->. Qed.

Lemma read_checkpoint_inv (w : W) c pos :
  read_checkpoint w = (Some c, false, pos) -> Checkpoint.Load (checkpoint_file w) = Ok c /\ checkpointPosition (Some c) = Ok pos.
Proof.
  unfold read_checkpoint. destruct (Checkpoint.Load _) as [c'|[]]; try done.
  destruct (checkpointPosition (Some c')) as [p|] eqn:E; [|done]. by intros [= -> ->].
Qed.

Lemma gather_chained v jw (w : W) b : Journal.chained (entries (gather text v jw w b)).
Proof.
  unfold gather, read_journal. destruct (Journal.Read _ _) as [[es rep]|] eqn:E.
  - apply Read_chained in E. by destruct (read_checkpoint w) as [[]].
  - destruct (read_checkpoint w) as [[]]. split; constructor.
Qed.

Lemma gather_position v jw (w : W) b : 0 <= committed_position (gather text v jw w b).
Proof.
  unfold gather, read_checkpoint. destruct (read_journal v jw) as [[es rep] jerr].
  destruct (Checkpoint.Load _) as [c|[]]; try (cbn; lia).
  destruct (checkpointPosition (Some c)) as [p|] eqn:E; [by apply position_nonneg in E|cbn; lia].
Qed.

Lemma agreed_healthy streamID v jw (w : W) b es c :
  agreed text streamID v jw w b es c ->
  let f := gather text v jw w b in
  continuity streamID b f = mkVerdict "healthy" false false "" /\ committed_position f = Z.of_nat (length es) /\
  last_position (entries f) = Z.of_nat (length es) /\ (degraded f).1 = false /\ journal_error f = false /\ entries f = es.
Proof.
  intros [_ Hv3 Hj Hm (Hne & He & Hi) Hc Hk Hp Hb]. cbv zeta. pose proof (last_position_chained _ (Read_chained _ _ _ _ Hj)) as Hl.
  unfold gather. rewrite (read_journal_ok v jw es false Hj), (read_checkpoint_ok w c _ Hc Hp).
  cbn [entries committed_position degraded journal_error]. split_and!; [|done..].
  unfold continuity. cbn [v3 journal_error degraded repaired inconsistent unreadable entries cp committed_position].
  cbv zeta. rewrite Hv3, Hm, Hl, Hk, Z.ltb_irrefl. apply bound_within_decides in Hb as [Hb1 Hb2].
  rewrite (proj2 (consistent_journal c es Hne) (conj He Hi)), Hb1, Hb2, andb_false_r. cbn [negb is_ok].
  rewrite (bool_decide_eq_false_2 (es = [])) by done. by rewrite !andb_false_r.
Qed.

(** A capture is reported healthy exactly when everything agrees: the bundle loads,
    verifies and declares version 3; the journal reads without error, repair or mark of
    degradation, is not empty and holds only entries of this capture, of one incarnation,
    with the digests of their payloads; the checkpoint is of this capture and incarnation,
    its position is the end of the journal, and it is bound to a record of the bundle by
    its hash. *)
Theorem healthy_decides v clean journalPath jw (w : W) :
  CaptureState (ReadCaptureStatus text v clean journalPath jw w) = "healthy" <->
  exists b es c, agreed text (S_of (Checkpoint.Base (B clean))) v jw w b es c.
Proof.
  unfold ReadCaptureStatus. split.
  - destruct (bundle_file w) as [| |rd] eqn:Ef; [by destruct (Degraded _ _ _).1|done|].
    destruct (LoadVerified rd) as [b|] eqn:El; [|done]. intros H.
    apply continuity_healthy in H; [|apply gather_chained|apply gather_position].
    destruct H as (H1 & H2 & H3 & H4 & H5 & H6 & H7 & H8 & c & H9 & H10 & H11).
    unfold gather in *. destruct (read_journal v jw) as [[es rep] jerr] eqn:Ej.
    destruct (read_checkpoint w) as [[oc bad] pos] eqn:Ec. cbn in *. subst.
    apply read_checkpoint_inv in Ec as [Hc1 Hc2]. apply (consistent_journal c es H7) in H5 as [H51 H52].
    exists b, es, c. constructor; try done; [by exists rd|].
    unfold read_journal in Ej. destruct (Journal.Read _ _) as [[es' rep']|]; [|done]. by injection Ej as -> ->.
  - intros (b & es & c & Ha). pose proof (agreed_bundle _ _ _ _ _ _ _ _ Ha) as (rd & -> & ->).
    destruct (agreed_healthy _ _ _ _ _ _ _ Ha) as [Hv _]. cbn [assemble CaptureState]. by rewrite Hv.
Qed.
End properties.

(** ** What recovery leaves is healthy *)

Section recovered.
Context {W : Type} `{!EvidenceStore W, !EvidenceLaws W} (text : Journal.degraded_reason -> string).
Context (inc stream : string).

Lemma good_contract e : CaptureRecovery.good inc stream e = true ->
  entry_in_contract e = true /\ Journal.SourceIncarnation e = inc.
Proof.
  intros Hg. split.
  - pose proof (CaptureRecovery.good_valid _ _ _ Hg) as Hv. pose proof (CaptureRecovery.good_digest _ _ _ Hg) as Hd.
    unfold validateEntry in Hv. unfold entry_in_contract. rewrite Hd, String.eqb_refl.
    destruct (String.eqb (Journal.SourceSystem e) _), (String.eqb (Journal.Adapter e) _), (String.eqb (Journal.AdapterVersion e) _),
      (String.eqb (Journal.RepresentationVersion e) _); done.
  - unfold CaptureRecovery.good in Hg. rewrite !andb_true_iff, String.eqb_eq in Hg. tauto.
Qed.

Lemma validate_any_incarnation c :
  Checkpoint.Validate c captureSourceSystem stream captureAdapter captureAdapterVersion inc = Ok tt -> contract stream c = true.
Proof.
  unfold contract, Checkpoint.Validate. do 4 (match goal with |- (if ?c then _ else _) = _ -> _ => destruct c; [done|] end).
  done.
Qed.

(** A settled capture whose journal is complete and unmarked. *)
Lemma settled_agreed v jw (w : W) es :
  CaptureRecovery.settled inc stream es w -> es <> [] -> Journal.Read (r_journal_fails v) jw = Ok (es, false) ->
  (Degraded text (r_marker v) jw).1 = false ->
  exists b c, agreed text stream v jw w b es c.
Proof.
  intros ((Hpos & Hgood & _) & hs & c & Hb & Hload & (_ & Hinc & Hval & Hpre & _) & Hcp & Hhead & Hcount) Hne Hj Hm.
  destruct Hb as [(_ & -> & _)|(rd & b & Hf & Hl & Hv3 & Hs & Hh)]; [done|]. exists b, c.
  assert (length hs = length b) as Hlen by (rewrite <- Hh; unfold hashes; by rewrite length_map).
  assert (length b = S (length es)) as Hlb.
  { apply (f_equal length) in Hs. unfold sources, CaptureRecovery.evidence_of, CaptureRecovery.recorded_as in Hs.
    rewrite length_map in Hs. cbn in Hs. by rewrite length_fmap in Hs. }
  constructor; try done.
  - by exists rd.
  - split_and!; [done| |].
    + eapply Forall_impl; [exact Hgood|]. intros e He. by apply good_contract.
    + exists inc. split; [|by right]. eapply Forall_impl; [exact Hgood|]. intros e He. by apply good_contract.
  - by apply validate_any_incarnation.
  - apply bound_within_decides. split; [|apply CaptureRecovery.validate_prefix; by rewrite Hh].
    destruct Hpre as [(_ & H0)|(Hn & H0 & _)]; [lia|].
    rewrite (proj2 (String.eqb_neq _ _) Hn), (proj2 (Z.eqb_neq _ _)) by lia. done.
Qed.
End recovered.

Section runs.
Context {W : Type} `{!EvidenceStore W, !EvidenceLaws W} (text : Journal.degraded_reason -> string).
Context (inc stream : string) (limit : Z).
Context (numbers : forall n, 0 <= n <= limit -> seq_ok n = true) (limit_small : limit < 2 ^ 63).
Context (inc_named : inc <> "" /\ TrimSpace inc = inc) (inc_text : valid_string inc = true) (stream_text : valid_string stream = true).

(** C15: the status tells the truth about recovery. After a run ([capture_run]), with
    any call failing but the second read of a journal repair and a crash after any write, a
    start that succeeds leaves a capture that is reported
    healthy, with no backlog and the whole journal committed, if an observation was ever
    journaled and the journal carries no mark of a repair or a loss. *)
Theorem recovered_capture_is_healthy jw w oc acked v src clean journalPath jw' ws c :
  CaptureRecovery.capture_run inc stream limit jw w oc acked -> CaptureRecovery.sound_env v -> TrimSpace src = inc ->
  CaptureRecovery.capacity stream limit v jw w -> S_of (Checkpoint.Base (B clean)) = stream ->
  enableCapture v Journal.calm src stream jw w = (jw', ws, Ok c) ->
  acked <> [] -> Journal.repair_marker jw' = false -> Journal.degraded_marker jw' = None ->
  let st := ReadCaptureStatus text (mkReadEnv false None) clean journalPath jw' (final w ws) in
  CaptureState st = "healthy" /\ KnownGap st = false /\ JournalBacklog st = 0 /\
  Z.of_nat (length acked) <= JournalEntries st /\ CommittedPosition st = JournalEntries st.
Proof.
  intros Hrun Henv Hsrc Hcap Hbase H Hacked Hrep Hdeg st.
  apply CaptureRecovery.run_invariant in Hrun as (es & k & hs & Hh & Hj & Hk & Hb & Hc & Ha & _); [|done..].
  destruct (CaptureRecovery.capacity_has _ _ v jw w es Hcap Hh) as [Hlim Hroom].
  destruct (CaptureRecovery.enable_spec inc stream limit numbers limit_small inc_named inc_text stream_text
    v Journal.calm src jw w es k hs jw' ws (Ok c) Henv Hh (fun _ _ => eq_refl)
    (CaptureRecovery.given_names_source inc inc_named v src jw w Hsrc) Hj Hk ltac:(lia) Hb Hc Hroom H) as (_ & _ & Hok & _).
  destruct (Hok c eq_refl) as (Hcl & _ & Hset & _).
  assert (es <> []) as Hne by (intros ->; by apply Hacked, sublist_nil_r).
  assert (Journal.Read false jw' = Ok (es, false)) as Hread.
  { unfold Journal.Read. rewrite (Journal.has_tail_read [] jw' es (not_elem_of_nil _) Hcl).
    cbn. unfold Journal.markerPresent. by rewrite Hrep, andb_false_r. }
  destruct (settled_agreed text inc stream (mkReadEnv false None) jw' (final w ws) es Hset Hne Hread) as (b & cp' & Hag);
    [unfold Degraded; by rewrite Hdeg|].
  pose proof (agreed_bundle _ _ _ _ _ _ _ _ Hag) as (rd & Hf & Hl).
  destruct (agreed_healthy text _ _ _ _ _ _ _ Hag) as (Hv & Hpos & Hlast & Hd & Hje & He).
  subst st. unfold ReadCaptureStatus. rewrite Hf, Hl, Hbase, Hv.
  cbn [assemble CaptureState KnownGap JournalBacklog JournalEntries CommittedPosition v_state v_gap v_possible].
  rewrite Hd, Hje, Hpos, Hlast, He, Z.ltb_irrefl. apply sublist_length in Ha. split_and!; (done || lia).
Qed.
End runs.

(** ** Examples *)

Section example.
#[local] Existing Instances CaptureRecovery.example_store CaptureRecovery.example_laws.

Definition calm_read : read_env := mkReadEnv false None.
Definition no_text (r : Journal.degraded_reason) : string := "".

(** The capture of the example, started again after its first observation. *)
Definition restarted : Journal.world * list files * result capture_error captureCoordinator :=
  enableCapture CaptureRecovery.example_env Journal.calm "run-1" "s" CaptureRecovery.example_committed.1.1.1
    (final CaptureRecovery.example_files CaptureRecovery.example_committed.1.1.2).

Definition restarted_coordinator : captureCoordinator :=
  match restarted.2 with Ok c => c | Err _ => CaptureRecovery.example_coordinator end.

Lemma restart_succeeds :
  enableCapture CaptureRecovery.example_env Journal.calm "run-1" "s" CaptureRecovery.example_committed.1.1.1
    (final CaptureRecovery.example_files CaptureRecovery.example_committed.1.1.2) =
  (restarted.1.1, restarted.1.2, Ok restarted_coordinator).
Proof.
  assert (is_ok restarted.2 = true) as Hok by (vm_compute; reflexivity). revert Hok.
  unfold restarted_coordinator, restarted. destruct (enableCapture _ _ _ _ _ _) as [[jw' ws] [c|e]]; [reflexivity|discriminate].
Qed.

Lemma restart_facts :
  CaptureRecovery.check_capacity CaptureRecovery.example_committed.1.1.1
    (final CaptureRecovery.example_files CaptureRecovery.example_committed.1.1.2) = true /\
  CaptureRecovery.example_acked <> [] /\ Z.of_nat (length CaptureRecovery.example_acked) = 1 /\
  Journal.repair_marker restarted.1.1 = false /\ Journal.degraded_marker restarted.1.1 = None /\
  S_of (Checkpoint.Base (B "runs/s")) = "s".
Proof.
  assert (length CaptureRecovery.example_acked = 1%nat) as Hl by (vm_compute; reflexivity).
  split; [vm_compute; reflexivity|]. split; [intros E; rewrite E in Hl; discriminate Hl|]. split; [rewrite Hl; reflexivity|].
  split; [vm_compute; reflexivity|]. split; vm_compute; reflexivity.
Qed.

Lemma recovered_capture_is_healthy_witness :
  let st := ReadCaptureStatus no_text calm_read "runs/s" "runs/.atb/capture/s.journal.ndjson" restarted.1.1
              (final (final CaptureRecovery.example_files CaptureRecovery.example_committed.1.1.2) restarted.1.2) in
  CaptureState st = "healthy" /\ 1 <= CommittedPosition st.
Proof.
  destruct restart_facts as (F1 & F2 & F3 & F4 & F5 & F6).
  destruct (recovered_capture_is_healthy no_text "run-1" "s" 2 CaptureRecovery.example_numbers CaptureRecovery.example_limit
    CaptureRecovery.example_inc CaptureRecovery.example_text CaptureRecovery.example_stream
    CaptureRecovery.example_committed.1.1.1 (final CaptureRecovery.example_files CaptureRecovery.example_committed.1.1.2)
    (Some CaptureRecovery.example_committed.1.2) CaptureRecovery.example_acked CaptureRecovery.example_env "run-1"
    "runs/s" "runs/.atb/capture/s.journal.ndjson" restarted.1.1 restarted.1.2 restarted_coordinator CaptureRecovery.example_ran
    (CaptureRecovery.calm_env_sound _ CaptureRecovery.example_calm) (proj2 CaptureRecovery.example_inc)
    (CaptureRecovery.check_capacity_ok _ _ F1) F6 restart_succeeds F2 F4 F5) as (H1 & _ & _ & H2 & H3).
  rewrite F3, <- H3 in H2. exact (conj H1 H2).
Defined.

Definition verdict_of (st : status) : string * bool * Z * string := (CaptureState st, KnownGap st, JournalBacklog st, Detail st).

Definition read_example (jw : Journal.world) (fs : files) : status := ReadCaptureStatus no_text calm_read "s" "" jw fs.

(** A journal that is ahead of the evidence, a marker, and nothing at all. *)
Example states :
  let fs := final CaptureRecovery.example_files CaptureRecovery.example_committed.1.1.2 in
  verdict_of (read_example CaptureRecovery.lost_commit.1.1.1 fs) =
    ("recovery_required", false, 1, "durable observations exist that are not yet committed to evidence") /\
  verdict_of (read_example (Journal.set_degraded Journal.WriteFailed CaptureRecovery.example_committed.1.1.1) fs) =
    ("degraded", true, 0, "journal recorded a durable degradation; observations may be missing") /\
  verdict_of (read_example CaptureRecovery.example_empty ∅) = ("unknown", false, 0, "bundle not found").
Proof. vm_compute. repeat split. Qed.

(** Positions and hashes are compared, not the observations: after the bundle was lost
    under a running capture, the status is healthy while the evidence has one of the two
    observations of the journal. *)
Example healthy_over_lost_evidence :
  let st := read_example CaptureRecovery.lost_commit.1.1.1 (final CaptureRecovery.lost_files CaptureRecovery.lost_commit.1.1.2) in
  verdict_of st = ("healthy", false, 0, "") /\ JournalEntries st = 2 /\
  length <$> CaptureRecovery.loaded (final CaptureRecovery.lost_files CaptureRecovery.lost_commit.1.1.2) = Some 2%nat.
Proof. vm_compute. repeat split. Qed.

(** The handoff of the first observation. *)
Example handoff :
  (fun h => (h_CaptureState h, Sequence h, RecordType h, KnownGaps h)) <$>
    match BuildHandoff no_text calm_read "s" "" 1 CaptureRecovery.example_committed.1.1.1
            (final CaptureRecovery.example_files CaptureRecovery.example_committed.1.1.2) with Ok h => Some h | Err _ => None end =
  Some ("healthy", 1, "ai.tool.exec", []).
Proof. vm_compute. reflexivity. Qed.
End example.
End CaptureStatus.
