(* ===== verification/Locator.v ===== *)
(** * Package internal/locator: references to a record

    [locator.go]: the text [atb://evidence/1/<head>?seq=<n>&record=<hash>] that names a
    record of a bundle, its parser, and its resolution against a bundle in memory.
    [net/url] is modelled as far as the parser looks at its result. Theorems: the parser
    accepts exactly two spellings of a reference, the one [String] prints and the one
    with the parameters swapped; and what [BuildHandoff] hands over is parsed and resolved
    to the record it was built for. *)

From S2P Require Import Prelude GoText GoPath Sha256 GoFloat GoJson GoValue GoStruct GoUnicode Canonicalize Event HashChain Bundle BundleIO BundleSign Journal Checkpoint CaptureStore Capture CaptureRecovery CaptureStatus.
Import Canonicalize HashChain Bundle BundleIO CaptureStore Capture.

Module Locator.

Definition GrammarVersion : Z := 1.
Definition scheme : string := "atb".
Definition authority : string := "evidence".

Inductive locator_error := ErrMalformed | ErrUnsupportedVersion | ErrBundleUnavailable | ErrEventNotFound | ErrRecordHashMismatch.

Record Locator := mkLocator { BundleHeadHash : string; EventSequence : Z; RecordHash : string }.

Definition hex_lower (c : ascii) : bool := is_digit c || ((97 <=? code c) && (code c <=? 102)).

(** [^[0-9a-f]{64}$] *)
Definition hex64Pattern (s : string) : bool := (length (B s) =? 64)%nat && forallb hex_lower (B s).

(** Zero, or digits without a leading zero. *)
Definition seqPattern (s : string) : bool :=
  match B s with
  | [] => false
  | c :: t => is_digit c && forallb is_digit t && (negb (bool_decide (c = "0"%char)) || bool_decide (t = []))
  end.

Definition Validate (l : Locator) : result locator_error unit :=
  if negb (hex64Pattern (BundleHeadHash l)) then Err ErrMalformed
  else if EventSequence l <? 0 then Err ErrMalformed
  else if negb (String.eqb (RecordHash l) "") && negb (hex64Pattern (RecordHash l)) then Err ErrMalformed
  else Ok tt.

(** [String]: the canonical text. *)
Definition to_string (l : Locator) : string :=
  scheme +:+ "://" +:+ authority +:+ "/" +:+ show_int GrammarVersion +:+ "/" +:+ BundleHeadHash l +:+
  "?seq=" +:+ show_int (EventSequence l) +:+
  if String.eqb (RecordHash l) "" then "" else "&record=" +:+ RecordHash l.

(** ** [net/url], without percent signs and fragments *)

Definition is_letter (c : ascii) : bool :=
  ((97 <=? code c) && (code c <=? 122)) || ((65 <=? code c) && (code c <=? 90)).

(** [getScheme]: [None] if it fails, an empty scheme if there is none. *)
Fixpoint scan_scheme (first : bool) (b : bytes) : option bytes :=
  match b with
  | [] => None
  | c :: t =>
      if is_letter c then cons c <$> scan_scheme false t
      else if is_digit c || bool_decide (c ∈ B "+-.") then if first then None else cons c <$> scan_scheme false t
      else if bool_decide (c = ":"%char) then if first then None else Some []
      else None
  end.

Definition control (c : ascii) : bool := (code c <? 32) || (code c =? 127).

(** A parsed URL. [Authority] is what stands between "//" and the path: the host is
    "evidence", with no user and no port, for exactly that text; any other authority is
    another host or an error, and both are malformed. [None]: there is no authority. *)
Record url := mkUrl { Scheme : bytes; Authority : option bytes; Path : bytes; RawQuery : bytes }.

Definition lower_byte (c : ascii) : ascii := if (65 <=? code c) && (code c <=? 90) then chr (code c + 32) else c.

(** [None]: [url.Parse] fails, or finds no scheme or no authority. *)
Definition url_Parse (s : bytes) : option url :=
  if existsb control s then None
  else
    sch ← scan_scheme true s;
    let rest := drop (S (length sch)) s in
    let '(rest, query) := cut "?"%char rest in
    if prefix_of_bytes (B "//") rest then
      let '(auth, path) := cut "/"%char (drop 2 rest) in
      Some (mkUrl (lower_byte <$> sch) (Some auth) (match path with Some p => "/"%char :: p | None => [] end) (default [] query))
    else Some (mkUrl (lower_byte <$> sch) None rest (default [] query)).

(** [url.ParseQuery]: a parameter with a semicolon is an error, "+" is a space. *)
Definition unescape_query (b : bytes) : bytes := (fun c => if bool_decide (c = "+"%char) then " "%char else c) <$> b.

Definition parameter (part : bytes) : bytes * bytes :=
  let '(k, v) := cut "="%char part in (unescape_query k, unescape_query (default [] v)).

Definition ParseQuery (q : bytes) : option (list (bytes * bytes)) :=
  let parts := List.filter (fun p => negb (bool_decide (p = []))) (split_at "&"%char q) in
  if existsb (existsb (fun c => bool_decide (c = ";"%char))) parts then None else Some (parameter <$> parts).

Definition values (key : string) (q : list (bytes * bytes)) : list string :=
  (fun kv => S_of kv.2) <$> List.filter (fun kv => bool_decide (kv.1 = B key)) q.

(** ** The parser *)

Section parse.
Context `{Unicode}.

Definition parse_path (path : bytes) : result locator_error string :=
  match split_at "/"%char path with
  | [[]; version; head] =>
      match ParseInt64 (S_of version) with
      | None => Err ErrMalformed
      | Some v =>
          if negb (v =? GrammarVersion) then Err ErrUnsupportedVersion
          else if negb (String.eqb (S_of version) (show_int GrammarVersion)) then Err ErrMalformed
          else if negb (hex64Pattern (S_of head)) then Err ErrMalformed else Ok (S_of head)
      end
  | _ => Err ErrMalformed
  end.

Definition parse_seq (q : list (bytes * bytes)) : result locator_error Z :=
  match values "seq" q with
  | [s] => if negb (seqPattern s) then Err ErrMalformed
           else match ParseInt64 s with Some n => Ok n | None => Err ErrMalformed end
  | _ => Err ErrMalformed
  end.

Definition parse_record (q : list (bytes * bytes)) : result locator_error string :=
  match values "record" q with
  | [] => Ok ""
  | [s] => if negb (hex64Pattern s) then Err ErrMalformed else Ok s
  | _ => Err ErrMalformed
  end.

Definition parse_query (raw : bytes) : result locator_error (Z * string) :=
  if existsb (fun p => bool_decide (p = [])) (split_at "&"%char raw) then Err ErrMalformed
  else
    match ParseQuery raw with
    | None => Err ErrMalformed
    | Some q =>
        if negb (forallb (fun kv => bool_decide (kv.1 = B "seq") || bool_decide (kv.1 = B "record")) q) then Err ErrMalformed
        else
          let? n := parse_seq q in
          let? r := parse_record q in
          Ok (n, r)
    end.

Definition canonicalPrefix : string := scheme +:+ "://" +:+ authority +:+ "/".

Definition Parse (raw : string) : result locator_error Locator :=
  let s := TrimSpace raw in
  if String.eqb s "" then Err ErrMalformed
  else if negb (HasPrefix s canonicalPrefix) && HasPrefix (ToLower s) canonicalPrefix then Err ErrMalformed
  else if existsb (fun c => bool_decide (c = "%"%char)) (B s) then Err ErrMalformed
  else if existsb (fun c => bool_decide (c = "#"%char)) (B s) then Err ErrMalformed
  else
    match url_Parse (B s) with
    | None => Err ErrMalformed
    | Some u =>
        if negb (bool_decide (Scheme u = B scheme)) then Err ErrMalformed
        else if negb (bool_decide (Authority u = Some (B authority))) then Err ErrMalformed
        else
          let? head := parse_path (Path u) in
          let? nr := parse_query (RawQuery u) in
          let loc := mkLocator head nr.1 nr.2 in
          let? _ := Validate loc in
          Ok loc
    end.
End parse.

(** ** Resolution *)

Record Resolution := mkResolution { r_Locator : Locator; Index : nat; Seq : Z; RecordHashMatched : bool }.

Fixpoint resolve_from (l : Locator) (i : nat) (b : bundle) : result locator_error Resolution :=
  match b with
  | [] => Err ErrEventNotFound
  | r :: rest =>
      if negb (Event.Sequence (Event_ r) =? EventSequence l) then resolve_from l (S i) rest
      else if String.eqb (RecordHash l) "" then Ok (mkResolution l i (EventSequence l) false)
      else if negb (String.eqb (RecordHash l) (Hash r)) then Err ErrRecordHashMismatch
      else Ok (mkResolution l i (EventSequence l) true)
  end.

Definition Resolve (l : Locator) (b : option bundle) : result locator_error Resolution :=
  let? _ := Validate l in
  match b with
  | None | Some [] => Err ErrBundleUnavailable
  | Some b => if negb (String.eqb (BundleHeadHash l) (committedHead b)) then Err ErrBundleUnavailable else resolve_from l 0 b
  end.

(** ** Examples *)

Definition sixty_four (c : ascii) : string := S_of (replicate 64 c).

#[local] Existing Instance ascii_only.

Example spellings :
  let a := sixty_four "a" in let b := sixty_four "b" in
  Parse ("atb://evidence/1/" +:+ a +:+ "?seq=7&record=" +:+ b) = Ok (mkLocator a 7 b) /\
  Parse (" atb://evidence/1/" +:+ a +:+ "?record=" +:+ b +:+ "&seq=7") = Ok (mkLocator a 7 b) /\
  Parse ("atb://evidence/1/" +:+ a +:+ "?seq=07") = Err ErrMalformed /\
  Parse ("ATB://evidence/1/" +:+ a +:+ "?seq=7") = Err ErrMalformed /\
  Parse ("atb://evidence/2/" +:+ a +:+ "?seq=7") = Err ErrUnsupportedVersion /\
  Parse ("atb://evidence/+1/" +:+ a +:+ "?seq=7") = Err ErrMalformed /\
  Parse ("atb://u@evidence/1/" +:+ a +:+ "?seq=7") = Err ErrMalformed /\
  Parse ("atb://evidence/1/" +:+ a +:+ "?seq=7&") = Err ErrMalformed /\
  Parse ("atb://evidence/1/" +:+ a +:+ "?seq=9223372036854775808") = Err ErrMalformed.
Proof. vm_compute. repeat split. Qed.

(** ** Lemmas: text and digits *)

Lemma prefix_bytes_app p t : prefix_of_bytes p (p ++ t) = true.
Proof. induction p as [|c p IH]; cbn; [done|]. by rewrite bool_decide_eq_true_2. Qed.

Lemma prefix_bytes_inv p b : prefix_of_bytes p b = true -> exists t, b = p ++ t.
Proof.
  revert b. induction p as [|c p IH]; intros b H; [by exists b|]. destruct b as [|d b]; [done|]. cbn in H. boolify.
  subst d. destruct (IH b) as [t ->]; [done|]. by exists t.
Qed.

Lemma digits_value_bound b : Forall (fun c => is_digit c = true) b -> 0 <= digits_value b < 10 ^ Z.of_nat (length b).
Proof.
  induction 1 as [|c b Hc _ IH]; [cbn; lia|]. rewrite digits_value_cons. cbn [length].
  rewrite Nat2Z.inj_succ, Z.pow_succ_r by lia. unfold is_digit in Hc. unfold digit_value. nia.
Qed.

Lemma same_length_digits b b' :
  Forall (fun c => is_digit c = true) b -> Forall (fun c => is_digit c = true) b' -> length b = length b' ->
  digits_value b = digits_value b' -> b = b'.
Proof.
  intros Hb. revert b'. induction Hb as [|c b Hc Hb IH]; intros [|c' b'] Hb' Hl Hv; try done.
  apply Forall_cons in Hb' as [Hc' Hb']. injection Hl as Hl. rewrite !digits_value_cons, Hl in Hv.
  pose proof (digits_value_bound b Hb) as H1. pose proof (digits_value_bound b' Hb') as H2. rewrite Hl in H1.
  unfold is_digit in Hc, Hc'. unfold digit_value in Hv.
  assert (code c = code c') as Hcc by nia. f_equal; [by apply code_inj|]. apply IH; [done|done|nia].
Qed.

(** The digits of a number without leading zeros are determined by the number. *)
Lemma canonical_digits c t :
  Forall (fun d => is_digit d = true) (c :: t) -> (c <> "0"%char \/ t = []) ->
  B (show_int (digits_value (c :: t))) = c :: t.
Proof.
  intros Hd Hc. pose proof (digits_value_bound _ Hd) as Hb. unfold show_int, itoa. rewrite B_S_of, (proj2 (Z.ltb_ge _ _)) by lia.
  destruct (digits_spec (digits_value (c :: t))) as (Hv & Hd' & c' & t' & E & Hnz & Hz); [lia|].
  apply same_length_digits; [done|done| |done]. rewrite E in *.
  pose proof (digits_value_bound _ Hd') as Hb'. rewrite Hv in Hb'.
  destruct Hc as [Hc| ->].
  - assert (code c <> 48) as Hc48 by (intros H48; by apply Hc, code_inj).
    assert (10 ^ Z.of_nat (length t) <= digits_value (c :: t)) as Hlow.
    { rewrite digits_value_cons. apply Forall_cons in Hd as [Hcd Ht]. pose proof (digits_value_bound t Ht).
      unfold is_digit in Hcd. unfold digit_value. nia. }
    assert (code c' <> 48) as Hc'48 by (apply Hnz; lia).
    assert (10 ^ Z.of_nat (length t') <= digits_value (c :: t)) as Hlow'.
    { rewrite <- Hv, digits_value_cons. apply Forall_cons in Hd' as [Hcd Ht]. pose proof (digits_value_bound t' Ht).
      unfold is_digit in Hcd. unfold digit_value. nia. }
    destruct Hb as [_ Hb], Hb' as [_ Hb']. cbn [length] in *.
    assert (forall a b, 10 ^ Z.of_nat a < 10 ^ Z.of_nat (S b) -> (a <= b)%nat) as Hpow.
    { intros a b' Hab. apply Z.pow_lt_mono_r_iff in Hab; lia. }
    assert (length t <= length t')%nat by (apply Hpow; lia). assert (length t' <= length t)%nat by (apply Hpow; lia). lia.
  - destruct t' as [|d t']; [done|]. exfalso. destruct (decide (digits_value [c] = 0)) as [H0|H0]; [by apply Hz in H0|].
    assert (code c' <> 48) as Hc'48 by (apply Hnz; lia). destruct Hb as [_ Hb]. cbn [length] in Hb.
    rewrite <- Hv, digits_value_cons in Hb. apply Forall_cons in Hd' as [Hcd Ht]. pose proof (digits_value_bound _ Ht) as Hbt.
    unfold is_digit in Hcd. unfold digit_value in Hb. cbn [length] in Hb, Hbt. rewrite Nat2Z.inj_succ, Z.pow_succ_r in Hb by lia.
    pose proof (Z.pow_pos_nonneg 10 (Z.of_nat (length t'))). nia.
Qed.

Lemma seqPattern_show n : 0 <= n -> seqPattern (show_int n) = true.
Proof.
  intros Hn. unfold seqPattern, show_int, itoa. rewrite B_S_of, (proj2 (Z.ltb_ge _ _)) by lia.
  destruct (digits_spec n Hn) as (Hv & Hd & c & t & E & Hnz & Hz). rewrite E in *. apply Forall_cons in Hd as [Hc Ht].
  rewrite Hc. assert (forallb is_digit t = true) as -> by (apply forallb_forall; by apply List.Forall_forall). cbn [andb].
  destruct (decide (n = 0)) as [H0|H0]; [rewrite (Hz H0), orb_true_iff; right; done|].
  rewrite bool_decide_eq_false_2; [done|]. intros ->. apply Hnz; [lia|reflexivity].
Qed.

Lemma seqPattern_inv s n : seqPattern s = true -> ParseInt64 s = Some n -> 0 <= n < 2 ^ 63 /\ s = show_int n.
Proof.
  unfold seqPattern, ParseInt64. destruct (B s) as [|c t] eqn:E; [done|]. intros [[Hc Ht]%andb_true_iff H0]%andb_true_iff.
  assert (Forall (fun d => is_digit d = true) (c :: t)) as Hd.
  { constructor; [exact Hc|]. apply List.Forall_forall. intros x Hx. by apply (proj1 (forallb_forall _ _) Ht). }
  rewrite (bool_decide_eq_false_2 (c = "-"%char)), (bool_decide_eq_false_2 (c = "+"%char)) by (intros ->; done).
  cbv beta iota zeta. destruct (bool_decide (c :: t = []) || _); [done|].
  destruct (_ <=? digits_value (c :: t)) eqn:H1; [|done]. destruct (digits_value (c :: t) <=? _) eqn:H2; [|done]. intros [= <-].
  pose proof (digits_value_bound _ Hd). split; [boolify; lia|].
  apply B_inj. rewrite E, canonical_digits; [done|done|]. apply orb_true_iff in H0 as [H0|H0]; boolify; [by left|by right].
Qed.

(** ** The two spellings *)

(** Bytes that stand for themselves everywhere in a reference. *)
Definition plain (c : ascii) : bool :=
  (33 <=? code c) && (code c <? 127) && negb (bool_decide (c ∈ B "%#?&;+=/")).

Definition plain_text (b : bytes) : Prop := Forall (fun c => plain c = true) b.

Lemma hex_plain s : hex64Pattern s = true -> plain_text (B s) /\ B s <> [].
Proof.
  unfold hex64Pattern. intros [Hl Hh]%andb_true_iff. apply Nat.eqb_eq in Hl. split; [|intros E; by rewrite E in Hl].
  apply forallb_Forall_iff in Hh. eapply Forall_impl; [exact Hh|]. intros c. clear. revert c.
  enough (forall c, hex_lower c = true -> plain c = true) by done. intros [[] [] [] [] [] [] [] []]; vm_compute; done.
Qed.

Lemma digit_plain c : is_digit c = true -> plain c = true.
Proof. destruct c as [[] [] [] [] [] [] [] []]; vm_compute; done. Qed.

Lemma number_plain n : 0 <= n -> plain_text (B (show_int n)) /\ B (show_int n) <> [].
Proof.
  intros Hn. destruct (show_int_digits n Hn) as (c & t & -> & Hd & _). split; [|done].
  eapply Forall_impl; [exact Hd|]. apply digit_plain.
Qed.

Lemma plain_absent b c : plain_text b -> plain c = false -> c ∉ b.
Proof. intros Hb Hc Hin. unfold plain_text in Hb. rewrite Forall_forall in Hb. apply Hb in Hin. congruence. Qed.

Lemma plain_unescaped b : plain_text b -> unescape_query b = b.
Proof.
  intros Hb. unfold unescape_query. rewrite <- (list_fmap_id b) at 2. apply list_fmap_ext. intros i c Hc. cbn.
  apply list_elem_of_lookup_2 in Hc. rewrite bool_decide_eq_false_2; [done|]. intros ->. by apply (plain_absent b "+"%char Hb).
Qed.

Lemma unescape_inv x y : unescape_query x = y -> " "%char ∉ y -> x = y.
Proof.
  intros <-. unfold unescape_query. induction x as [|c x IH]; [done|]. cbn. rewrite not_elem_of_cons. intros [Hc Hx].
  destruct (bool_decide_reflect (c = "+"%char)); [by destruct Hc|]. f_equal. by apply IH.
Qed.

Lemma cons_inv {A} (x y : A) l k : x :: l = y :: k -> x = y /\ l = k.
Proof. by intros [= -> ->]. Qed.

Lemma values_hit key v q : values key ((B key, v) :: q) = S_of v :: values key q.
Proof. unfold values. cbn. by rewrite bool_decide_eq_true_2. Qed.

Lemma values_miss key k v q : k <> B key -> values key ((k, v) :: q) = values key q.
Proof. intros H. unfold values. cbn. by rewrite bool_decide_eq_false_2. Qed.

Definition param (key : string) (v : bytes) : bytes := B key ++ "="%char :: v.

Lemma parameter_param key v : plain_text (B key) -> plain_text v -> parameter (param key v) = (B key, v).
Proof.
  intros Hk Hv. unfold parameter, param. rewrite cut_app by (by apply plain_absent). by rewrite !plain_unescaped.
Qed.

Lemma parameter_inv part key v :
  parameter part = (B key, v) -> v <> [] -> plain_text (B key) -> plain_text v -> part = param key v.
Proof.
  intros H Hne Hk Hv. unfold parameter in H. pose proof (cut_spec "="%char part) as [_ Hp].
  destruct (cut "="%char part) as [k w]. cbn in Hp. injection H as H1 H2.
  apply unescape_inv in H1 as ->; [|by apply plain_absent]. apply unescape_inv in H2; [|by apply plain_absent].
  destruct w as [w|]; cbn in H2; [|congruence]. subst w. exact Hp.
Qed.

Lemma plain_seq : plain_text (B "seq").
Proof. repeat constructor. Qed.

Lemma plain_record : plain_text (B "record").
Proof. repeat constructor. Qed.

#[local] Hint Resolve plain_seq plain_record : core.

(** The query of a reference, and the query with its parameters swapped. *)
Definition query_of (n : Z) (r : string) : bytes :=
  param "seq" (B (show_int n)) ++ if String.eqb r "" then [] else "&"%char :: param "record" (B r).
Definition swapped_query (n : Z) (r : string) : bytes := param "record" (B r) ++ "&"%char :: param "seq" (B (show_int n)).

Definition valid_record (r : string) : Prop := r = "" \/ hex64Pattern r = true.

Lemma param_clean key v c : plain_text (B key) -> plain_text v -> plain c = false -> c <> "="%char -> c ∉ param key v.
Proof.
  intros Hk Hv Hc He. unfold param. rewrite elem_of_app, elem_of_cons. intros [Hi|[Hi|Hi]]; [|done|];
    [by apply (plain_absent _ c Hk)|by apply (plain_absent _ c Hv)].
Qed.

Lemma param_nonempty key v : param key v <> [].
Proof. unfold param. by destruct (B key). Qed.

Lemma parse_params parts n r :
  Forall (fun p => exists key v, (key = "seq" \/ key = "record") /\ plain_text v /\ p = param key v) parts ->
  parts <> [] -> parse_seq (parameter <$> parts) = Ok n -> parse_record (parameter <$> parts) = Ok r ->
  parse_query (join "&"%char parts) = Ok (n, r).
Proof.
  intros Hp Hne Hn Hr.
  assert (Forall (fun p => ("&"%char ∉ p) /\ p <> [] /\ (";"%char ∉ p)) parts) as Hclean.
  { eapply Forall_impl; [exact Hp|]. intros p (key & v & Hkey & Hv' & ->).
    assert (plain_text (B key)) by (by destruct Hkey as [->| ->]). split_and!; [by apply param_clean|apply param_nonempty|by apply param_clean]. }
  assert (split_at "&"%char (join "&"%char parts) = parts) as Hsplit.
  { clear -Hclean Hne. induction Hclean as [|p parts (H1 & _) _ IH]; [done|]. destruct parts as [|p' parts]; [by apply split_at_none|].
    change (join "&"%char (p :: p' :: parts)) with (p ++ "&"%char :: join "&"%char (p' :: parts)).
    rewrite split_at_app by done. by rewrite IH. }
  unfold parse_query, ParseQuery. rewrite Hsplit.
  assert (existsb (fun p => bool_decide (p = [])) parts = false) as ->.
  { apply not_true_is_false. rewrite existsb_exists. intros (p & Hin & H). boolify. subst.
    apply list_elem_of_In in Hin. rewrite Forall_forall in Hclean. by apply Hclean in Hin as (_ & ? & _). }
  assert (List.filter (fun p => negb (bool_decide (p = []))) parts = parts) as ->.
  { clear -Hclean. induction Hclean as [|p parts (_ & H & _) _ IH]; [done|]. cbn. rewrite bool_decide_eq_false_2 by done. cbn. by rewrite IH. }
  assert (existsb (existsb (fun c => bool_decide (c = ";"%char))) parts = false) as ->.
  { apply not_true_is_false. rewrite existsb_exists. intros (p & Hin & H). apply existsb_exists in H as (c & Hc & H). boolify. subst.
    apply list_elem_of_In in Hin, Hc. rewrite Forall_forall in Hclean. by apply Hclean in Hin as (_ & _ & ?). }
  assert (forallb (fun kv => bool_decide (kv.1 = B "seq") || bool_decide (kv.1 = B "record")) (parameter <$> parts) = true) as ->; [|by rewrite Hn, Hr].
  apply forallb_Forall_iff. rewrite Forall_fmap. eapply Forall_impl; [exact Hp|]. intros p (key & v & Hkey & Hv' & ->). cbn.
  rewrite parameter_param by (by destruct Hkey as [->| ->]). by destruct Hkey as [->| ->].
Qed.

Lemma parse_query_spellings n r q :
  0 <= n < 2 ^ 63 -> valid_record r -> (q = query_of n r \/ (r <> "" /\ q = swapped_query n r)) ->
  parse_query q = Ok (n, r).
Proof.
  intros Hn Hr Hq. destruct (number_plain n) as [Hp Hpne]; [lia|]. assert (seqPattern (show_int n) = true) as Hs by (apply seqPattern_show; lia).
  assert (parse_seq [(B "seq", B (show_int n))] = Ok n) as Hseq.
  { unfold parse_seq. by rewrite values_hit, S_of_B, Hs, ParseInt64_show_int. }
  destruct (String.eqb_spec r "") as [->|Hrne].
  { destruct Hq as [->|[? _]]; [|done]. unfold query_of. cbn [String.eqb]. rewrite app_nil_r.
    apply (parse_params [param "seq" (B (show_int n))] n ""); [repeat (apply Forall_cons_2 || apply Forall_nil_2); eauto 10|done| |];
    cbn [fmap list_fmap]; rewrite parameter_param by done; [done|].
    unfold parse_record. by rewrite values_miss. }
  destruct Hr as [?|Hr]; [done|]. destruct (hex_plain r Hr) as [Hrp _].
  assert (forall l, l = [param "seq" (B (show_int n)); param "record" (B r)] \/ l = [param "record" (B r); param "seq" (B (show_int n))] ->
          parse_query (join "&"%char l) = Ok (n, r)) as Hboth.
  { intros l Hl. apply parse_params; [destruct Hl as [->| ->]; repeat (apply Forall_cons_2 || apply Forall_nil_2); eauto 10|by destruct Hl as [->| ->]| |];
    destruct Hl as [->| ->]; cbn [fmap list_fmap]; rewrite !parameter_param by done;
      unfold parse_seq, parse_record; repeat (rewrite values_hit || rewrite values_miss by done);
      rewrite S_of_B, ?Hs, ?Hr, ?ParseInt64_show_int by done; done. }
  destruct Hq as [->|[_ ->]].
  - unfold query_of. rewrite (proj2 (String.eqb_neq _ _) Hrne). apply (Hboth [_; _]). by left.
  - apply (Hboth [_; _]). by right.
Qed.

Lemma values_count q :
  forallb (fun kv => bool_decide (kv.1 = B "seq") || bool_decide (kv.1 = B "record")) q = true ->
  length q = (length (values "seq" q) + length (values "record" q))%nat.
Proof.
  induction q as [|[k v] q IH]; [done|]. cbn [forallb length]. intros [Hk Hq]%andb_true_iff. rewrite IH by done.
  apply orb_true_iff in Hk as [Hk|Hk]; boolify; cbn [fst] in Hk; subst k; rewrite values_hit, values_miss by done; cbn; lia.
Qed.

Lemma parse_query_inv q n r :
  parse_query q = Ok (n, r) ->
  0 <= n < 2 ^ 63 /\ valid_record r /\ (q = query_of n r \/ (r <> "" /\ q = swapped_query n r)).
Proof.
  unfold parse_query, ParseQuery. destruct (split_at_spec "&"%char q) as (Hj & _ & _). revert Hj.
  generalize (split_at "&"%char q) as parts. intros parts Hj.
  destruct (existsb (fun p => bool_decide (p = [])) parts) eqn:Hemp; [done|].
  assert (List.filter (fun p => negb (bool_decide (p = []))) parts = parts) as ->.
  { clear -Hemp. induction parts as [|p parts IH]; [done|]. cbn in *. apply orb_false_iff in Hemp as [-> Hemp]. cbn. by rewrite IH. }
  destruct (existsb (existsb _) parts); [done|]. destruct (forallb _ _) eqn:Hkeys; [|done]. cbn [negb].
  pose proof (values_count _ Hkeys) as Hc. unfold parse_seq, parse_record.
  destruct (values "seq" _) as [|s [|]] eqn:Hs; [done| |done]. destruct (seqPattern s) eqn:Hpat; [|done].
  destruct (ParseInt64 s) as [n'|] eqn:Hi; [|done]. apply (seqPattern_inv s n' Hpat) in Hi as [Hn ->]. cbn [negb].
  destruct (number_plain n') as [Hnp Hnne]; [lia|].
  assert (forall p v, parameter p = (B "seq", v) -> S_of v = show_int n' -> p = param "seq" (B (show_int n'))) as Hpseq.
  { intros p v Hp E. rewrite <- E, B_S_of in *. by apply parameter_inv. }
  destruct (values "record" _) as [|r' [|]] eqn:Hr; [| |done].
  - intros [= -> <-]. split; [done|]. split; [by left|]. left. cbn in Hc. rewrite length_fmap in Hc.
    destruct parts as [|p [|]]; [done| |done]. cbn [fmap list_fmap] in Hs.
    destruct (parameter p) as [k v] eqn:Hp. destruct (decide (k = B "seq")) as [->|Hk]; [|by rewrite values_miss in Hs].
    rewrite values_hit in Hs. apply cons_inv in Hs as [Hs _].
    rewrite <- Hj. cbn. rewrite (Hpseq p v Hp Hs). unfold query_of. cbn [String.eqb]. by rewrite app_nil_r.
  - destruct (hex64Pattern r') eqn:Hhex; [|done]. intros [= -> <-]. split; [done|]. split; [by right|].
    destruct (hex_plain r' Hhex) as [Hrp Hrne].
    assert (r' <> "") as Hr0 by (intros ->; done).
    assert (forall p v, parameter p = (B "record", v) -> S_of v = r' -> p = param "record" (B r')) as Hprec.
    { intros p v Hp <-. rewrite B_S_of in *. by apply parameter_inv. }
    cbn in Hc. rewrite length_fmap in Hc. destruct parts as [|p1 [|p2 [|]]]; [done..| |done]. rewrite <- Hj. cbn [join].
    cbn [fmap list_fmap] in Hs, Hr. unfold query_of, swapped_query. rewrite (proj2 (String.eqb_neq _ _) Hr0).
    destruct (parameter p1) as [k1 v1] eqn:Hp1, (parameter p2) as [k2 v2] eqn:Hp2.
    destruct (decide (k1 = B "seq")) as [->|H1]; [left|right; split; [done|]].
    + rewrite values_hit in Hs. rewrite values_miss in Hr by done. apply cons_inv in Hs as [Hs _].
      destruct (decide (k2 = B "record")) as [->|]; [|by rewrite values_miss in Hr].
      rewrite values_hit in Hr. apply cons_inv in Hr as [Hr _]. by rewrite (Hpseq p1 v1 Hp1 Hs), (Hprec p2 v2 Hp2 Hr).
    + rewrite values_miss in Hs by done. destruct (decide (k2 = B "seq")) as [->|]; [|by rewrite values_miss in Hs].
      rewrite values_hit in Hs. apply cons_inv in Hs as [Hs _].
      destruct (decide (k1 = B "record")) as [->|]; [|by rewrite !values_miss in Hr].
      rewrite values_hit in Hr. apply cons_inv in Hr as [Hr _]. by rewrite (Hpseq p2 v2 Hp2 Hs), (Hprec p1 v1 Hp1 Hr).
Qed.

(** ** References *)

Lemma B_cat a b : B (a +:+ b) = B a ++ B b.
Proof. induction a as [|c a IH]; [done|]. change (B (String c a +:+ b)) with (c :: B (a +:+ b)). by rewrite IH. Qed.

(** The bytes of a reference with the query [q]. *)
Definition reference (head : string) (q : bytes) : bytes := B "atb://evidence/1/" ++ B head ++ "?"%char :: q.

(** The spelling with the record first. *)
Definition swapped (l : Locator) : string := S_of (reference (BundleHeadHash l) (swapped_query (EventSequence l) (RecordHash l))).

Lemma to_string_reference l : B (to_string l) = reference (BundleHeadHash l) (query_of (EventSequence l) (RecordHash l)).
Proof.
  unfold to_string, reference, query_of, param. change (show_int GrammarVersion) with "1". rewrite !B_cat.
  destruct (String.eqb (RecordHash l) ""); rewrite ?B_cat; by rewrite <- ?app_assoc.
Qed.

Lemma absent_existsb (c : ascii) b : c ∉ b -> existsb (fun d => bool_decide (d = c)) b = false.
Proof.
  intros Hc. apply not_true_is_false. rewrite existsb_exists. intros (d & Hin & H). boolify. subst. by apply Hc, list_elem_of_In.
Qed.

Lemma existsb_absent (c : ascii) b : existsb (fun d => bool_decide (d = c)) b = false -> c ∉ b.
Proof.
  intros H Hin. apply not_true_iff_false in H. apply H, existsb_exists. exists c. split; [by apply list_elem_of_In|by apply bool_decide_eq_true].
Qed.

(** A query is made of plain bytes, "=" and "&". *)
Definition in_query (c : ascii) : Prop := plain c = true \/ c = "="%char \/ c = "&"%char.

Lemma plain_in_query b : plain_text b -> Forall in_query b.
Proof. intros H. eapply Forall_impl; [exact H|]. by left. Qed.

Lemma param_in_query key v : plain_text (B key) -> plain_text v -> Forall in_query (param key v).
Proof.
  intros Hk Hv. unfold param. apply Forall_app. split; [by apply plain_in_query|]. constructor; [by right; left|by apply plain_in_query].
Qed.

Lemma spelled_in_query n r q :
  0 <= n -> valid_record r -> (q = query_of n r \/ (r <> "" /\ q = swapped_query n r)) -> Forall in_query q.
Proof.
  intros Hn Hr Hq. destruct (number_plain n Hn) as [Hnp _]. pose proof (param_in_query "seq" _ plain_seq Hnp) as Hs.
  assert (r <> "" -> Forall in_query (param "record" (B r))) as Hrec.
  { intros Hne. destruct Hr as [?|Hr]; [done|]. by apply param_in_query, hex_plain. }
  destruct Hq as [->|[Hne ->]].
  - unfold query_of. destruct (String.eqb_spec r "") as [_|Hne]; [by rewrite app_nil_r|].
    apply Forall_app. split; [done|]. constructor; [by right; right|by apply Hrec].
  - apply Forall_app. split; [by apply Hrec|]. constructor; [by right; right|done].
Qed.

Lemma in_query_ok c : in_query c -> control c = false /\ c <> "%"%char /\ c <> "#"%char.
Proof. intros [H|[->| ->]]; [|by vm_compute..]. revert H. destruct c as [[] [] [] [] [] [] [] []]; vm_compute; (done || naive_solver). Qed.

Lemma url_of_reference head q :
  plain_text (B head) -> Forall in_query q ->
  url_Parse (reference head q) = Some (mkUrl (B "atb") (Some (B "evidence")) (B "/1/" ++ B head) q).
Proof.
  intros Hh Hq. unfold url_Parse.
  assert (existsb control (reference head q) = false) as ->.
  { apply not_true_is_false. rewrite existsb_exists. intros (c & Hin & H). apply list_elem_of_In in Hin.
    unfold reference in Hin. rewrite !elem_of_app, elem_of_cons in Hin. destruct Hin as [Hin|[Hin|[->|Hin]]]; [| |done|].
    - revert H. assert (Forall (fun c => control c = false) (B "atb://evidence/1/")) as Hall by (by repeat constructor).
      rewrite Forall_forall in Hall. by rewrite (Hall c Hin).
    - unfold plain_text in Hh. rewrite Forall_forall in Hh. destruct (in_query_ok c) as [? _]; [left; by apply Hh|congruence].
    - rewrite Forall_forall in Hq. destruct (in_query_ok c) as [? _]; [by apply Hq|congruence]. }
  assert (scan_scheme true (reference head q) = Some (B "atb")) as -> by reflexivity. cbn [mbind option_bind].
  change (drop (S (length (B "atb"))) (reference head q)) with (B "//evidence/1/" ++ B head ++ "?"%char :: q).
  rewrite app_assoc, cut_app.
  2: { rewrite elem_of_app. intros [H|H]; [|by apply (plain_absent _ "?"%char Hh)]. assert (Forall (fun c => c <> "?"%char) (B "//evidence/1/")) as Hall by (by repeat constructor).
       rewrite Forall_forall in Hall. by apply Hall in H. }
  change (B "//evidence/1/" ++ B head) with (B "//" ++ (B "evidence" ++ "/"%char :: (B "1/" ++ B head))).
  rewrite prefix_bytes_app. change (drop 2 (B "//" ++ ?x)) with x. rewrite cut_app; [done|].
  assert (Forall (fun c => c <> "/"%char) (B "evidence")) as Hall by (by repeat constructor).
  rewrite Forall_forall in Hall. intros H. by apply Hall in H.
Qed.

Lemma scan_scheme_inv f b sch :
  scan_scheme f b = Some sch ->
  b = sch ++ ":"%char :: drop (S (length sch)) b /\ Forall (fun c => code c < 128) sch.
Proof.
  revert f sch. induction b as [|c b IH]; intros f sch; [done|]. cbn [scan_scheme].
  assert (forall s, cons c <$> scan_scheme false b = Some s -> code c < 128 ->
          c :: b = s ++ ":"%char :: drop (S (length s)) (c :: b) /\ Forall (fun c => code c < 128) s) as Hstep.
  { intros s Hs Hc. destruct (scan_scheme false b) as [s'|] eqn:E; [|done]. cbn in Hs. injection Hs as <-.
    apply IH in E as [Hb Hs]. split; [cbn; by f_equal|by constructor]. }
  destruct (is_letter c) eqn:Hl; [intros H; apply Hstep; [done|unfold is_letter in Hl; lia]|].
  destruct (is_digit c || bool_decide (c ∈ B "+-.")) eqn:Hd.
  - destruct f; [done|]. intros H. apply Hstep; [done|]. apply orb_true_iff in Hd as [Hd|Hd]; [unfold is_digit in Hd; lia|].
    boolify. change (B "+-.") with ["+"%char; "-"%char; "."%char] in Hd. rewrite !elem_of_cons, elem_of_nil in Hd. destruct Hd as [->|[->|[->|[]]]]; vm_compute; done.
  - destruct (bool_decide_reflect (c = ":"%char)) as [->|]; [|done]. destruct f; [done|]. intros [= <-]. by split; [|constructor].
Qed.

(** ** What the parser accepts *)

Section accepts.
Context `{Unicode}.

Lemma lower_code c : code c < 128 -> lower_ascii (code c) = code (lower_byte c) /\ code (lower_byte c) < 128.
Proof.
  intros Hc. pose proof (code_range c). unfold lower_ascii, lower_byte. destruct (_ && _) eqn:E; [|done]. boolify.
  rewrite code_chr by lia. lia.
Qed.

Lemma encode_lower c : code c < 128 -> encode_rune (to_lower (code c)) = [lower_byte c].
Proof.
  intros Hc. destruct (lower_code c Hc) as [Hl Hlt]. pose proof (code_range (lower_byte c)).
  unfold to_lower. rewrite (proj2 (Z.ltb_lt (code c) 128) Hc), Hl. unfold encode_rune, scalar.
  replace (_ && negb _) with true by (symmetry; lia). rewrite (proj2 (Z.ltb_lt _ _) Hlt), chr_code. done.
Qed.

(** [strings.ToLower] of an ASCII prefix goes byte by byte. *)
Lemma ToLower_ascii a t :
  Forall (fun c => code c < 128) a -> B (ToLower (S_of (a ++ t))) = (lower_byte <$> a) ++ B (ToLower (S_of t)).
Proof.
  unfold ToLower. rewrite !B_S_of. unfold runes, encode_runes. induction 1 as [|c a Hc _ IH]; [done|].
  cbn [app]. rewrite chunks_ascii by done. rewrite !fmap_cons. change (mjoin (?x :: ?y)) with (x ++ mjoin y). cbn [fst]. rewrite IH.
  by rewrite encode_lower.
Qed.

Lemma parse_path_inv path head :
  parse_path path = Ok head -> path = B "/1/" ++ B head /\ hex64Pattern head = true.
Proof.
  unfold parse_path. destruct (split_at_spec "/"%char path) as (Hj & _ & _). revert Hj.
  destruct (split_at "/"%char path) as [|[|] [|version [|h [|]]]]; try done. intros <-.
  destruct (ParseInt64 _) as [v|]; [|done]. destruct (v =? GrammarVersion); [|done].
  destruct (String.eqb_spec (S_of version) (show_int GrammarVersion)) as [Hv|]; [|done]. cbn [negb].
  destruct (hex64Pattern (S_of h)) eqn:Hh; [|done]. intros E%Ok_inj. subst head. split; [|done].
  rewrite B_S_of. assert (version = B "1") as -> by (by rewrite <- (B_S_of version), Hv). done.
Qed.

Lemma url_Parse_inv s u head q :
  url_Parse s = Some u -> Authority u = Some (B authority) -> Path u = B "/1/" ++ B head -> RawQuery u = q -> q <> [] ->
  exists sch, Forall (fun c => code c < 128) sch /\ Scheme u = lower_byte <$> sch /\
    s = sch ++ B "://evidence/1/" ++ B head ++ "?"%char :: q.
Proof.
  unfold url_Parse. destruct (existsb control s); [done|]. destruct (scan_scheme true s) as [sch|] eqn:Hs; [|done].
  apply scan_scheme_inv in Hs as [Hs Hsch]. cbn [mbind option_bind].
  set (rest := drop _ s) in *. destruct (cut_spec "?"%char rest) as [_ Hrest]. destruct (cut "?"%char rest) as [r1 qo]. cbn [fst snd] in Hrest.
  destruct (prefix_of_bytes (B "//") r1) eqn:Hp; [|by intros [= <-]].
  apply prefix_bytes_inv in Hp as [r2 ->]. change (drop 2 (B "//" ++ r2)) with r2.
  destruct (cut_spec "/"%char r2) as [_ Hr2]. destruct (cut "/"%char r2) as [auth path]. cbn [fst snd] in Hr2.
  intros [= <-]. cbn [Authority Path RawQuery Scheme]. intros [= ->] Hpath Hq Hne.
  destruct qo as [q'|]; [|by subst q]. cbn in Hq. subst q'. exists sch. split_and!; [done|done|].
  rewrite Hs, Hrest, Hr2. destruct path as [path|]; [|done]. rewrite Hpath. by rewrite <- !app_assoc.
Qed.

Lemma Validate_parts l :
  Validate l = Ok tt <-> hex64Pattern (BundleHeadHash l) = true /\ 0 <= EventSequence l /\ valid_record (RecordHash l).
Proof.
  unfold Validate, valid_record. destruct (hex64Pattern (BundleHeadHash l)); cbn [negb]; [|naive_solver].
  destruct (Z.ltb_spec (EventSequence l) 0); [split; [done|lia]|].
  destruct (String.eqb_spec (RecordHash l) "") as [->|Hr]; [naive_solver|]. cbn [negb andb].
  destruct (hex64Pattern (RecordHash l)); naive_solver.
Qed.

(** The query of one of the two spellings. *)
Definition spelled (l : Locator) (q : bytes) : Prop :=
  q = query_of (EventSequence l) (RecordHash l) \/ (RecordHash l <> "" /\ q = swapped_query (EventSequence l) (RecordHash l)).

Lemma Parse_reference raw l q :
  Validate l = Ok tt -> EventSequence l < 2 ^ 63 -> spelled l q ->
  B (TrimSpace raw) = reference (BundleHeadHash l) q -> Parse raw = Ok l.
Proof.
  intros Hv Hn Hq Hraw. pose proof Hv as (Hh & Hn0 & Hr)%Validate_parts. destruct (hex_plain _ Hh) as [Hhp _].
  pose proof (spelled_in_query _ _ q Hn0 Hr Hq) as Hin. pose proof (parse_query_spellings _ _ q (conj Hn0 Hn) Hr Hq) as Hquery.
  unfold Parse. cbv zeta. rewrite (proj2 (String.eqb_neq (TrimSpace raw) "")) by (intros E; by rewrite E in Hraw).
  assert (HasPrefix (TrimSpace raw) canonicalPrefix = true) as ->.
  { unfold HasPrefix. rewrite Hraw. reflexivity. }
  assert (forall c, c = "%"%char \/ c = "#"%char -> c ∉ B (TrimSpace raw)) as Hclean.
  { intros c Hc. rewrite Hraw. unfold reference. rewrite !elem_of_app, elem_of_cons. intros [Hi|[Hi|[Hi|Hi]]].
    - assert (Forall (fun c => c <> "%"%char /\ c <> "#"%char) (B "atb://evidence/1/")) as Hall by (by repeat constructor).
      rewrite Forall_forall in Hall. apply Hall in Hi. naive_solver.
    - apply (plain_absent _ c Hhp); [by destruct Hc as [->| ->]|done].
    - destruct Hc; congruence.
    - rewrite Forall_forall in Hin. apply Hin, in_query_ok in Hi. naive_solver. }
  cbn [negb andb]. rewrite !absent_existsb by auto. rewrite Hraw, url_of_reference by done. cbn [Scheme Authority Path RawQuery].
  rewrite !bool_decide_eq_true_2 by done. cbn [negb].
  assert (parse_path (B "/1/" ++ B (BundleHeadHash l)) = Ok (BundleHeadHash l)) as ->.
  { unfold parse_path. change (B "/1/" ++ ?x) with ([] ++ "/"%char :: (B "1" ++ "/"%char :: x)).
    assert (~ "/"%char ∈ B "1") as Hone by (intros [?|?%elem_of_nil]%elem_of_cons; done).
    rewrite split_at_app by apply not_elem_of_nil. rewrite split_at_app by done.
    rewrite split_at_none by (by apply plain_absent). change (ParseInt64 (S_of (B "1"))) with (Some 1).
    cbn [Z.eqb GrammarVersion]. change (String.eqb (S_of (B "1")) (show_int GrammarVersion)) with true.
    rewrite S_of_B, Hh. done. }
  rewrite Hquery. cbn [fst snd]. destruct l. cbn [BundleHeadHash EventSequence RecordHash] in *. rewrite Hv. done.
Qed.

Lemma Parse_inv raw l :
  Parse raw = Ok l ->
  Validate l = Ok tt /\ EventSequence l < 2 ^ 63 /\ exists q, spelled l q /\ B (TrimSpace raw) = reference (BundleHeadHash l) q.
Proof.
  unfold Parse. cbv zeta. generalize (TrimSpace raw) as s. intros s. destruct (String.eqb s ""); [done|].
  destruct (negb _ && _) eqn:Hcase; [done|]. destruct (existsb _ (B s)); [done|]. destruct (existsb _ (B s)); [done|].
  destruct (url_Parse (B s)) as [u|] eqn:Hu; [|done]. destruct (bool_decide_reflect (Scheme u = B scheme)) as [Hsch|]; [|done].
  destruct (bool_decide_reflect (Authority u = Some (B authority))) as [Hauth|]; [|done]. cbn [negb].
  destruct (parse_path (Path u)) as [head|] eqn:Hpath; [|done]. destruct (parse_query (RawQuery u)) as [[n r]|] eqn:Hq; [|done].
  cbn [fst snd]. destruct (Validate _) as [[]|] eqn:Hv; [|done]. intros E%Ok_inj. subst l.
  apply parse_path_inv in Hpath as [Hpath Hhead]. apply parse_query_inv in Hq as ([Hn0 Hn] & Hr & Hq). cbn [EventSequence BundleHeadHash].
  split; [done|]. split; [done|]. exists (RawQuery u). split; [done|].
  assert (RawQuery u <> []) as Hne by (destruct Hq as [->|[_ ->]]; unfold query_of, swapped_query, param; done).
  destruct (url_Parse_inv _ _ head _ Hu Hauth Hpath eq_refl Hne) as (sch & Hsa & Hsl & Hs). rewrite Hsch in Hsl. unfold reference.
  rewrite Hs. enough (sch = B "atb") as -> by done.
  destruct (HasPrefix s canonicalPrefix) eqn:Hp.
  - unfold HasPrefix in Hp. rewrite Hs in Hp. destruct sch as [|c1 [|c2 [|c3 [|]]]]; try done.
    apply prefix_bytes_inv in Hp as [t Ht]. by injection Ht as -> -> ->.
  - exfalso. cbn [negb andb] in Hcase. revert Hcase. rewrite <- (S_of_B s), Hs.
    change (B "://evidence/1/" ++ ?x) with (B "://evidence/" ++ (B "1/" ++ x)). rewrite app_assoc.
    unfold HasPrefix. rewrite ToLower_ascii by (apply Forall_app; split; [done|by repeat constructor]).
    rewrite fmap_app, <- Hsl. change ((B scheme ++ (lower_byte <$> B "://evidence/")) ++ ?t) with (B canonicalPrefix ++ t).
    by rewrite prefix_bytes_app.
Qed.

(** C30: The parser accepts exactly two spellings of a reference: the trimmed text must be what [String] prints for a
    valid locator whose sequence number fits in 63 bits, or the same with the record parameter before the sequence
    parameter. In particular it returns every locator that [String] prints, and the text determines the locator. *)
Theorem Parse_accepts raw l :
  Parse raw = Ok l <->
  Validate l = Ok tt /\ EventSequence l < 2 ^ 63 /\
  (TrimSpace raw = to_string l \/ (RecordHash l <> "" /\ TrimSpace raw = swapped l)).
Proof.
  split.
  - intros (Hv & Hn & q & Hq & Hs)%Parse_inv. split_and!; [done|done|]. destruct Hq as [->|[Hr ->]].
    + left. apply B_inj. by rewrite Hs, to_string_reference.
    + right. split; [done|]. apply B_inj. unfold swapped. by rewrite B_S_of.
  - intros (Hv & Hn & Hs). destruct Hs as [Hs|[Hr Hs]].
    + apply (Parse_reference raw l _ Hv Hn (or_introl eq_refl)). by rewrite Hs, to_string_reference.
    + apply (Parse_reference raw l _ Hv Hn (or_intror (conj Hr eq_refl))). rewrite Hs. unfold swapped. by rewrite B_S_of.
Qed.
End accepts.

(** ** A reference that was handed over *)

Lemma hex_lower_encode b : forallb hex_lower (hex_encode b) = true.
Proof.
  apply forallb_Forall_iff. unfold hex_encode. induction b as [|c b IH]; [constructor|]. cbn. pose proof (code_range c).
  pose proof (Z.div_mod (code c) 16 ltac:(lia)). pose proof (Z.mod_pos_bound (code c) 16 ltac:(lia)).
  assert (forall n, 0 <= n < 16 -> hex_lower (hex_digit n) = true) as Hd.
  { intros n Hn. unfold hex_lower, is_digit, hex_digit. destruct (n <? 10) eqn:?; boolify; rewrite code_chr by lia; lia. }
  constructor; [apply Hd; lia|]. constructor; [apply Hd; lia|exact IH].
Qed.

Lemma Compute_hex e h : Compute e = Ok h -> hex64Pattern h = true.
Proof.
  intros [_ ->]%Compute_Ok. unfold hex64Pattern, sha256_hex. rewrite B_S_of, hex_lower_encode, length_hex_encode, Sha256.length_sum256.
  reflexivity.
Qed.

Lemma linked_nth s p es hs i e :
  linked s p es hs -> es !! i = Some e -> Event.Sequence e = s + Z.of_nat i /\ exists h, hs !! i = Some h /\ Compute e = Ok h.
Proof.
  revert s p hs i. induction es as [|e0 es IH]; intros s p [|h hs] i; cbn [linked]; try done.
  intros (Hs & _ & Hc & Hl) Hi. destruct i as [|i].
  - injection Hi as <-. rewrite Hs. split; [lia|by exists h].
  - destruct (IH _ _ _ _ Hl Hi) as [Hq Hh]. split; [lia|exact Hh].
Qed.

Section resolve.
Context `{Unicode} {W : Type} `{!EvidenceStore W} (text : Journal.degraded_reason -> string).

(** The records of a verified bundle are numbered in order and carry their own hash. *)
Lemma verified_record (b : bundle) i r :
  Verify b = Ok tt -> (b : list Record_) !! i = Some r ->
  Event.Sequence (Event_ r) = first_seq b + Z.of_nat i /\ hex64Pattern (Hash r) = true.
Proof.
  intros Hv%bundle_Verify_linked Hi. destruct (linked_nth _ _ _ _ i (Event_ r) Hv) as [Hs (h & Hh & Hc)].
  { unfold events. by rewrite list_lookup_fmap, Hi. }
  unfold hashes in Hh. rewrite list_lookup_fmap, Hi in Hh. injection Hh as <-. split; [done|]. by eapply Compute_hex.
Qed.

Lemma resolve_from_nth l k b i r :
  (b : list Record_) !! i = Some r -> Event.Sequence (Event_ r) = EventSequence l -> RecordHash l <> "" -> RecordHash l = Hash r ->
  (forall j r', (j < i)%nat -> (b : list Record_) !! j = Some r' -> Event.Sequence (Event_ r') <> EventSequence l) ->
  resolve_from l k b = Ok (mkResolution l (k + i) (EventSequence l) true).
Proof.
  revert k i. unfold bundle in b. induction b as [|r0 b IH]; intros k i Hi Hs Hne Hr Hold; [done|]. cbn [resolve_from].
  destruct i as [|i].
  - injection Hi as ->. rewrite Hs, Z.eqb_refl, (proj2 (String.eqb_neq _ _) Hne), Hr, String.eqb_refl. cbn [negb].
    by rewrite Nat.add_0_r.
  - rewrite (proj2 (Z.eqb_neq _ _) (Hold 0%nat r0 ltac:(lia) eq_refl)). cbn [negb].
    rewrite (IH (S k) i); [by rewrite Nat.add_succ_comm|done|done|done|done|].
    intros j r' Hj Hj'. apply (Hold (S j) r'); [lia|done].
Qed.

Lemma Resolve_nonempty l b :
  b <> [] ->
  Resolve l (Some b) =
    let? _ := Validate l in
    if negb (String.eqb (BundleHeadHash l) (committedHead b)) then Err ErrBundleUnavailable else resolve_from l 0 b.
Proof. intros Hne. unfold Resolve. by destruct b. Qed.

Lemma hex_visible_all s : hex64Pattern s = true -> Forall visible (B s).
Proof. intros [Hp _]%hex_plain. eapply Forall_impl; [exact Hp|]. intros c Hc. unfold plain in Hc. unfold visible. lia. Qed.

Lemma to_string_trimmed l : Validate l = Ok tt -> TrimSpace (to_string l) = to_string l.
Proof.
  intros (Hh & Hn & Hr)%Validate_parts. apply TrimSpace_visible. rewrite to_string_reference. unfold reference.
  apply Forall_app. split; [apply List.Forall_forall; intros c Hc; apply list_elem_of_In in Hc; revert c Hc; apply Forall_forall; repeat constructor; vm_compute; done|].
  apply Forall_app. split; [by apply hex_visible_all|]. constructor; [by vm_compute|].
  eapply Forall_impl; [apply (spelled_in_query _ _ _ Hn Hr (or_introl eq_refl))|].
  intros c [Hc|[->| ->]]; [|by vm_compute..]. unfold plain in Hc. unfold visible. lia.
Qed.

Lemma handoff_record_nth b n r : CaptureStatus.handoff_record b n = Some r -> exists i, (b : list Record_) !! i = Some r.
Proof.
  unfold CaptureStatus.handoff_record. destruct (0 <? n).
  - intros [Hin _]%List.find_some. by apply list_elem_of_In, list_elem_of_lookup_1 in Hin.
  - intros Hl. rewrite last_lookup in Hl. by eexists.
Qed.

(** C29: What [BuildHandoff] hands over points to the record it describes: the parser accepts the reference, and resolving
    the result against the bundle of the handoff gives the record with the sequence number and the hash of the
    handoff, at its position, with the hash confirmed. *)
Theorem handoff_reference_resolves v clean journalPath sequence jw w h :
  CaptureStatus.BuildHandoff text v clean journalPath sequence jw w = Ok h ->
  exists rd b i r l,
    bundle_file w = Exists rd /\ LoadVerified rd = Ok b /\ (b : list Record_) !! i = Some r /\
    Event.Sequence (Event_ r) = CaptureStatus.Sequence h /\ Hash r = CaptureStatus.RecordHash h /\
    Parse (CaptureStatus.EvidenceReference h) = Ok l /\ Resolve l (Some b) = Ok (mkResolution l i (CaptureStatus.Sequence h) true).
Proof.
  unfold CaptureStatus.BuildHandoff. destruct (bundle_file w) as [| |rd]; [done|done|]. destruct (LoadVerified rd) as [b|] eqn:El; [|done].
  cbv zeta. destruct (String.eqb_spec (committedHead b) "") as [|Hne]; [done|].
  destruct (CaptureStatus.handoff_record b sequence) as [r|] eqn:Hr; [|done]. intros E%Ok_inj. subst h.
  cbn [CaptureStatus.EvidenceReference CaptureStatus.Sequence CaptureStatus.RecordHash]. destruct (handoff_record_nth _ _ _ Hr) as [i Hi].
  pose proof (CaptureRecovery.LoadVerified_verified rd b El) as Hv. destruct (verified_record b i r Hv Hi) as [Hs Hh].
  assert (hex64Pattern (committedHead b) = true) as Hhead.
  { unfold committedHead in *. destruct (last b) as [r'|] eqn:Hl; [|done]. rewrite last_lookup in Hl. by eapply verified_record. }
  pose proof (CaptureRecovery.loaded_small rd b El) as Hsmall. pose proof (lookup_lt_Some _ _ _ Hi) as Hlt.
  assert (0 <= first_seq b <= 1) as Hfirst by (unfold first_seq; destruct (hasManifestRecord b); lia).
  set (l := mkLocator (committedHead b) (Event.Sequence (Event_ r)) (Hash r)).
  assert (Validate l = Ok tt) as Hval by (apply Validate_parts; split_and!; [done|cbn; lia|by right]).
  destruct (hex_plain _ Hh) as [_ Hrne]. assert (Hash r <> "") as Hrne' by (intros E; by rewrite E in Hrne).
  exists rd, b, i, r, l. split_and!; [done..| |].
  - assert ("atb://evidence/1/" +:+ committedHead b +:+ "?seq=" +:+ show_int (Event.Sequence (Event_ r)) +:+ "&record=" +:+ Hash r = to_string l) as ->.
    { unfold to_string. cbn [BundleHeadHash EventSequence RecordHash l]. by rewrite (proj2 (String.eqb_neq _ _) Hrne'). }
    apply (Parse_reference _ l (query_of (EventSequence l) (RecordHash l)) Hval); [unfold MaxBundleRecords in Hsmall; cbn; lia|by left|].
    rewrite to_string_trimmed by done. apply to_string_reference.
  - rewrite Resolve_nonempty by (intros ->; done). rewrite Hval. cbn [BundleHeadHash l].
    rewrite String.eqb_refl. cbn [negb]. apply (resolve_from_nth l 0 b i r); [done..|].
    intros j r' Hj Hj'. destruct (verified_record b j r' Hv Hj') as [Hs' _]. cbn. lia.
Qed.
End resolve.

(** ** Examples *)

Section handoff.
#[local] Existing Instance ascii_only.
#[local] Existing Instances CaptureRecovery.example_store CaptureRecovery.example_laws.

(** The handoff of the first observation. *)
#[local] Abbreviation example_handoff :=
  (CaptureStatus.BuildHandoff CaptureStatus.no_text CaptureStatus.calm_read "s" "" 1 CaptureRecovery.example_committed.1.1.1
    (final CaptureRecovery.example_files CaptureRecovery.example_committed.1.1.2)).

Lemma example_handed : is_ok example_handoff = true.
Proof. vm_compute. reflexivity. Qed.

Lemma handoff_reference_resolves_witness :
  exists h l, example_handoff = Ok h /\ Parse (CaptureStatus.EvidenceReference h) = Ok l /\
    exists b i, Resolve l (Some b) = Ok (mkResolution l i (CaptureStatus.Sequence h) true).
Proof.
  pose proof example_handed as Hok.
  destruct (CaptureStatus.BuildHandoff _ _ _ _ _ _ _) as [h|] eqn:E; [|discriminate].
  destruct (handoff_reference_resolves _ _ _ _ _ _ _ _ E) as (rd & b & i & r & l & _ & Hl & Hi & _ & _ & Hp & Hr).
  exists h, l. split; [reflexivity|]. split; [exact Hp|]. exists b, i. exact Hr.
Defined.
End handoff.
End Locator.
