(* ===== verification/ToolCalls.v ===== *)
(** * Package internal/proxy: what a body says of its tool calls

    [internal/proxy/toolcalls.go] and the body parsers of [session.go]: the tool calls a
    model requested in a response, in one JSON document or in a stream of server-sent
    events, the failed tool results of a request, the number of calls, the token usage
    and the model. The theorem: the call a stream builds up is the one call announced,
    and its arguments are the fragments with the white space around each one cut off. *)

From S2P Require Import Prelude GoText Sha256 GoFloat GoJson GoValue GoUnicode Event HashChain Bundle.

Module ToolCalls.
Abbreviation index := Bundle.index.
Abbreviation float_to_int := Bundle.float_to_int.

(** ** Values decoded with [UseNumber] *)

(** A [json.Number] is the JSON value of its literal: it is written back as it was
    read, and no type assertion the program makes on other types matches it. *)
Abbreviation Number n := (ARaw (JNum n)).

Fixpoint of_json_number (j : json) : any :=
  match j with
  | JNull => ANil
  | JBool b => ABool b
  | JNum n => Number n
  | JStr s => AString s
  | JArr l => ASlice (map of_json_number l)
  | JObj l => AMap (assoc_of_list (map (fun kv => (kv.1, of_json_number kv.2)) l))
  end.

(** [dec.Decode(&payload)] into a map: the first JSON value of the text, an object or
    null; what follows it is not read. *)
Definition decode_first (body : bytes) : option (list (string * any)) :=
  match parse_value max_nesting_depth body with
  | Some (JNull, _) => Some []
  | Some (JObj l, _) => Some (assoc_of_list (map (fun kv => (kv.1, of_json_number kv.2)) l))
  | _ => None
  end.

Definition maxExact : Z := 2 ^ 53.

(** [float64(i)] *)
Definition float_of_int (i : Z) : float64 := round_decimal (i <? 0) (Z.abs i) 0.

Definition normalizeNumber (n : numlit) : any :=
  match ParseInt n with
  | Some i => if (maxExact <? i) || (i <? - maxExact) then Number n else AFloat (float_of_int i)
  | None => match ParseFloat n with Some f => AFloat f | None => Number n end
  end.

Fixpoint normalizeNumbers (v : any) : any :=
  match v with
  | AMap l => AMap (map (fun kv => (kv.1, normalizeNumbers kv.2)) l)
  | ASlice l => ASlice (map normalizeNumbers l)
  | Number n => normalizeNumber n
  | _ => v
  end.

(** One object and nothing after it. *)
Definition decodeJSONObject (body : bytes) : option (list (string * any)) :=
  match parse_value max_nesting_depth body, decode_first body with
  | Some (_, rest), Some l =>
      match skip_ws rest with
      | [] => Some (map (fun kv => (kv.1, normalizeNumbers kv.2)) l)
      | _ => None
      end
  | _, _ => None
  end.

(** ** Reading values *)

Definition str (v : any) : string := match v with AString s => TrimSpace s | _ => "" end.

Definition asSlice (v : any) : list any := match v with ASlice l => l | _ => [] end.

Definition intOf (v : any) : Z :=
  match v with
  | AFloat f => float_to_int f
  | AInt n => n
  | Number n => default 0 (ParseInt n)
  | _ => 0
  end.

Definition marshalArgs (v : any) : bytes :=
  match v with
  | ANil => []
  | AString t => B t
  | _ =>
      match Marshal v with
      | Some raw => if bool_decide (raw = B "null") then [] else raw
      | None => []
      end
  end.

Definition hex_sha256 (b : bytes) : string := S_of (hex_encode (Sha256.sum256 b)).

Definition digest_of (b : bytes) : string := match b with [] => "" | _ => hex_sha256 b end.

(** ** Tool calls of one document *)

Record ToolCall := mkCall { Name : string; Arguments : bytes }.

Definition InputDigest (t : ToolCall) : string := digest_of (Arguments t).

(** The maps among the elements of a slice. *)
Definition as_maps (l : list any) : list (list (string * any)) :=
  omap (fun v => match v with AMap m => Some m | _ => None end) l.

Definition tool_use (m : list (string * any)) : list ToolCall :=
  if String.eqb (str (index m "type")) "tool_use" then
    [mkCall (str (index m "name")) (marshalArgs (index m "input"))]
  else [].

Definition function_call (m : list (string * any)) : list ToolCall :=
  let t := str (index m "type") in
  if String.eqb t "function_call" || String.eqb t "tool_call" then
    [mkCall (str (index m "name")) (marshalArgs (index m "arguments"))]
  else [].

Definition chat_call (tcm : list (string * any)) : list ToolCall :=
  match index tcm "function" with
  | AMap fn => [mkCall (str (index fn "name")) (marshalArgs (index fn "arguments"))]
  | _ => []
  end.

Definition choice_calls (cm : list (string * any)) : list ToolCall :=
  match index cm "message" with
  | AMap message => mjoin (chat_call <$> as_maps (asSlice (index message "tool_calls")))
  | _ => []
  end.

Definition document_calls (payload : list (string * any)) : list ToolCall :=
  mjoin (tool_use <$> as_maps (asSlice (index payload "content"))) ++
  mjoin (function_call <$> as_maps (asSlice (index payload "output"))) ++
  mjoin (choice_calls <$> as_maps (asSlice (index payload "choices"))).

(** ** Tool calls of a stream *)

Record acc := mkAcc { name : string; args : bytes }.

(** [byIndex] and [order]. *)
Record stream := mkStream { byIndex : gmap Z acc; order : list Z }.

Definition no_calls : stream := mkStream ∅ [].

(** [f] applied to the accumulator [at(i)] returns. *)
Definition at_ (i : Z) (f : acc -> acc) (s : stream) : stream :=
  match byIndex s !! i with
  | Some a => mkStream (<[i := f a]> (byIndex s)) (order s)
  | None => mkStream (<[i := f (mkAcc "" [])]> (byIndex s)) (order s ++ [i])
  end.

Definition set_name (n : string) (a : acc) : acc := mkAcc n (args a).
Definition add_args (b : bytes) (a : acc) : acc := mkAcc (name a) (args a ++ b).

(** One element of [delta.tool_calls]. *)
Definition delta_call (s : stream) (tcm : list (string * any)) : stream :=
  at_ (intOf (index tcm "index"))
    (fun a =>
       match index tcm "function" with
       | AMap fn =>
           let n := str (index fn "name") in
           add_args (B (str (index fn "arguments"))) (if String.eqb n "" then a else set_name n a)
       | _ => a
       end) s.

Definition choice_delta (s : stream) (cm : list (string * any)) : stream :=
  match index cm "delta" with
  | AMap delta => fold_left delta_call (as_maps (asSlice (index delta "tool_calls"))) s
  | _ => s
  end.

Definition stream_event (s : stream) (ev : list (string * any)) : stream :=
  let t := str (index ev "type") in
  if String.eqb t "content_block_start" then
    match index ev "content_block" with
    | AMap cb => if String.eqb (str (index cb "type")) "tool_use"
                 then at_ (intOf (index ev "index")) (set_name (str (index cb "name"))) s else s
    | _ => s
    end
  else if String.eqb t "content_block_delta" then
    match index ev "delta" with
    | AMap d => if String.eqb (str (index d "type")) "input_json_delta"
                then at_ (intOf (index ev "index")) (add_args (B (str (index d "partial_json")))) s else s
    | _ => s
    end
  else fold_left choice_delta (as_maps (asSlice (index ev "choices"))) s.

Definition newline : ascii := chr 10.

(** [bytes.Split(body, "\n")] *)
Fixpoint split_lines (b : bytes) : list bytes :=
  match b with
  | [] => [[]]
  | c :: t =>
      if bool_decide (c = newline) then [] :: split_lines t
      else match split_lines t with [] => [[c]] | l :: ls => (c :: l) :: ls end
  end.

Definition trim_bytes (b : bytes) : bytes := B (TrimSpace (S_of b)).

(** The event a line carries: [json.Unmarshal] into a map. *)
Definition line_event (line : bytes) : option (list (string * any)) :=
  let line := trim_bytes line in
  if negb (prefix_of_bytes (B "data:") line) then None
  else
    let payload := trim_bytes (drop 5 line) in
    if bool_decide (payload = []) || bool_decide (payload = B "[DONE]") then None
    else match Unmarshal payload with
         | Some ANil => Some []
         | Some (AMap ev) => Some ev
         | _ => None
         end.

Definition stream_line (s : stream) (line : bytes) : stream :=
  match line_event line with Some ev => stream_event s ev | None => s end.

Definition stream_calls (s : stream) : list ToolCall :=
  omap (fun i => a ← byIndex s !! i; if String.eqb (name a) "" then None else Some (mkCall (name a) (args a))) (order s).

Definition extractStreamingToolCalls (body : bytes) : list ToolCall :=
  stream_calls (fold_left stream_line (split_lines body) no_calls).

Definition ExtractToolCalls (body : bytes) : list ToolCall :=
  match decodeJSONObject body with
  | Some payload => document_calls payload
  | None => if contains_bytes (B "data:") body then extractStreamingToolCalls body else []
  end.

(** ** Failed tool results *)

Record ToolResultError := mkResultError { ToolUseID : string; Detail : bytes }.

Definition DetailDigest (e : ToolResultError) : string := digest_of (Detail e).

Definition block_error (bm : list (string * any)) : list ToolResultError :=
  if negb (String.eqb (str (index bm "type")) "tool_result") then []
  else match index bm "is_error" with
       | ABool true =>
           let id := TrimSpace (str (index bm "tool_use_id")) in
           if String.eqb id "" then [] else [mkResultError id (marshalArgs (index bm "content"))]
       | _ => []
       end.

Definition ExtractToolResultErrors (body : bytes) : list ToolResultError :=
  match decodeJSONObject body with
  | None => []
  | Some payload =>
      mjoin ((fun mm => mjoin (block_error <$> as_maps (asSlice (index mm "content"))))
             <$> as_maps (asSlice (index payload "messages")))
  end.

(** ** Counts, usage and the model *)

Definition countTypedBlocks (value : any) (types : list string) : Z :=
  Z.of_nat (length (List.filter (fun m => existsb (String.eqb (Bundle.as_string (index m "type"))) types)
                      (as_maps (asSlice value)))).

Definition choice_count (cm : list (string * any)) : Z :=
  match index cm "message" with
  | AMap message => Z.of_nat (length (asSlice (index message "tool_calls")))
  | _ => 0
  end.

Definition CountToolCallsFromResponse (body : bytes) : Z :=
  match decode_first body with
  | None => 0
  | Some payload =>
      countTypedBlocks (index payload "content") ["tool_use"] +
      countTypedBlocks (index payload "output") ["function_call"; "tool_call"] +
      fold_left Z.add (choice_count <$> as_maps (asSlice (index payload "choices"))) 0
  end.

Fixpoint intFromAny (values : list any) : Z :=
  match values with
  | [] => 0
  | Number n :: rest => match ParseInt n with Some i => i | None => intFromAny rest end
  | AFloat f :: _ => float_to_int f
  | AInt i :: _ => i
  | _ :: rest => intFromAny rest
  end.

(** Prompt, output and total tokens. *)
Definition ParseUsageFromResponse (body : bytes) : Z * Z * Z :=
  match decode_first body with
  | None => (0, 0, 0)
  | Some payload =>
      match index payload "usage" with
      | AMap usage =>
          let promptTokens := intFromAny [index usage "prompt_tokens"; index usage "input_tokens"] in
          let outputTokens := intFromAny [index usage "completion_tokens"; index usage "output_tokens"] in
          let totalTokens := intFromAny [index usage "total_tokens"] in
          (promptTokens, outputTokens,
           if totalTokens =? 0 then wrap64 (promptTokens + outputTokens) else totalTokens)
      | _ => (0, 0, 0)
      end
  end.

Definition extractJSONField (body : bytes) (field : string) : string :=
  match decode_first body with
  | None => ""
  | Some payload => match index payload field with AString typed => TrimSpace typed | _ => "" end
  end.

Definition ParseModelFromBody (body : bytes) : string := extractJSONField body "model".

(** ** Examples *)

(** Single quotes for double quotes, to write JSON in a string literal. *)
Definition J (s : string) : bytes := map (fun c => if code c =? 39 then quote else c) (B s).

Definition chat_body : bytes :=
  J "{'choices':[{'message':{'tool_calls':[{'function':{'name':' rm ','arguments':'{}'}},{'id':'x'}]}}],'usage':{'prompt_tokens':7,'output_tokens':2}}".

Example chat_calls :
  ExtractToolCalls chat_body = [mkCall "rm" (B "{}")] /\
  CountToolCallsFromResponse chat_body = 2 /\
  ParseUsageFromResponse chat_body = (7, 2, 9).
Proof. vm_compute. repeat split. Qed.

(** Integers within [2^53] are spelled alike; beyond it the literal is kept, but only as
    far as [int64] goes: larger integers are rounded. *)
Definition input_body (input : string) : bytes :=
  J ("{'content':[{'type':'tool_use','name':'pay','input':{'n':" +:+ input +:+ "}}]}").

Example equivalent_numbers :
  ExtractToolCalls (input_body "1") = ExtractToolCalls (input_body "1.0") /\
  ExtractToolCalls (input_body "9007199254740993") <> ExtractToolCalls (input_body "9007199254740992").
Proof. split; [vm_compute; reflexivity|vm_compute; discriminate]. Qed.

Example huge_integers_collide :
  ExtractToolCalls (input_body "18446744073709551615") = ExtractToolCalls (input_body "18446744073709551616").
Proof. vm_compute. reflexivity. Qed.

Example failed_result :
  ExtractToolResultErrors (J "{'messages':[{'content':[{'type':'tool_result','is_error':true,'tool_use_id':'t1','content':'no'}]}]}")
  = [mkResultError "t1" (B "no")].
Proof. vm_compute. reflexivity. Qed.

(** ** A stream of one call *)

Definition start_event (i : numlit) (n : string) : json :=
  JObj [("type", JStr "content_block_start"); ("index", JNum i);
        ("content_block", JObj [("type", JStr "tool_use"); ("name", JStr n)])].

Definition delta_event (i : numlit) (f : string) : json :=
  JObj [("type", JStr "content_block_delta"); ("index", JNum i);
        ("delta", JObj [("type", JStr "input_json_delta"); ("partial_json", JStr f)])].

Definition sse (j : json) : bytes := B "data: " ++ json_print j.

Definition lines_of (ls : list bytes) : bytes := mjoin ((fun l => l ++ [newline]) <$> ls).

Definition call_stream (i : numlit) (n : string) (fs : list string) : bytes :=
  lines_of (sse <$> start_event i n :: (delta_event i <$> fs)).

(** ** Lemmas: lines and events *)

Lemma chunks_snoc_ascii s c : code c < 128 -> chunks (s ++ [c]) = chunks s ++ [(code c, [c])].
Proof.
  intros Hc. assert (is_cont c = false) as Hcont by (unfold is_cont; lia).
  induction s as [|r bs s Hch _ _ IH|b s Hch Hb IH] using chunks_ind.
  - by apply chunks_ascii.
  - rewrite <- app_assoc. rewrite !Hch. by rewrite IH.
  - rewrite Hch. cbn [app]. rewrite <- IH. clear IH. pose proof (code_range b).
    cbn [chunks app] in Hch |- *. destruct (Z.ltb_spec (code b) 128) as [|_]; [lia|].
    destruct s as [|b1 [|b2 [|b3 s]]]; cbn [app] in *.
    + destruct (utf8_2 b c) eqn:E; [unfold utf8_2 in E; boolify; congruence|done].
    + destruct (utf8_2 b b1) eqn:E; [discriminate|].
      destruct (utf8_3 b b1 c) eqn:E3; [unfold utf8_3 in E3; boolify; congruence|done].
    + destruct (utf8_2 b b1) eqn:E; [discriminate|]. destruct (utf8_3 b b1 b2) eqn:E3; [discriminate|].
      destruct (utf8_4 b b1 b2 c) eqn:E4; [unfold utf8_4 in E4; boolify; congruence|done].
    + destruct (utf8_2 b b1) eqn:E; [discriminate|]. destruct (utf8_3 b b1 b2) eqn:E3; [discriminate|].
      destruct (utf8_4 b b1 b2 b3) eqn:E4; [discriminate|done].
Qed.

(** Text between two visible bytes has nothing to trim. *)
Lemma trim_between c u d : visible c -> visible d -> trim_bytes (c :: u ++ [d]) = c :: u ++ [d].
Proof.
  intros Hc Hd. pose proof Hc as [_ ?]. pose proof Hd as [_ ?].
  unfold trim_bytes, TrimSpace. rewrite !B_S_of.
  assert (chunks (c :: u ++ [d]) = (code c, [c]) :: chunks u ++ [(code d, [d])]) as E.
  { rewrite chunks_ascii by lia. by rewrite chunks_snoc_ascii by lia. }
  rewrite E. cbn [drop_spaces]. rewrite visible_not_space by done.
  rewrite app_comm_cons, reverse_snoc. cbn [drop_spaces]. rewrite visible_not_space by done.
  rewrite <- reverse_snoc, reverse_involutive, <- app_comm_cons, <- E. apply concat_chunks.
Qed.

Lemma trim_leading c u d : is_space (code c) = true -> code c < 128 -> visible d ->
  trim_bytes (c :: d :: u) = trim_bytes (d :: u).
Proof.
  intros Hs Hc Hd. unfold trim_bytes, TrimSpace. rewrite !B_S_of. rewrite (chunks_ascii c) by done.
  cbn [drop_spaces]. by rewrite Hs.
Qed.

Lemma split_lines_app l t : newline ∉ l -> split_lines (l ++ newline :: t) = l :: split_lines t.
Proof.
  induction l as [|c l IH]; intros Hl; [done|]. apply not_elem_of_cons in Hl as [Hc Hl].
  cbn [app split_lines]. rewrite bool_decide_eq_false_2 by congruence. by rewrite IH.
Qed.

Lemma split_lines_of ls : Forall (fun l => newline ∉ l) ls -> split_lines (lines_of ls) = ls ++ [[]].
Proof.
  induction 1 as [|l ls Hl _ IH]; [done|]. unfold lines_of in *. rewrite mjoin_fmap_cons, <- app_assoc.
  cbn [app]. rewrite split_lines_app by done. by rewrite IH.
Qed.

Lemma sse_one_line j : wf_json j = true -> newline ∉ sse j.
Proof.
  intros Hj Hin. unfold sse in Hin. apply elem_of_app in Hin as [Hin|Hin].
  - revert Hin. apply (bool_decide_eq_false_1 (newline ∈ B "data: ")). reflexivity.
  - pose proof (json_print_printable j Hj) as Hp. rewrite Forall_forall in Hp. apply Hp in Hin. by vm_compute in Hin.
Qed.

Lemma sse_object l : exists u, json_print (JObj l) = "{"%char :: u ++ ["}"%char].
Proof. cbn [json_print json_print_with]. eexists. reflexivity. Qed.

Lemma line_event_sse l m :
  wf_json (JObj l) = true -> (json_depth (JObj l) <= max_nesting_depth)%nat ->
  of_json (coerce_json (JObj l)) = Some (AMap m) -> line_event (sse (JObj l)) = Some m.
Proof.
  intros Hwf Hd Hm. unfold line_event. destruct (sse_object l) as [u Eu].
  assert (trim_bytes (sse (JObj l)) = sse (JObj l)) as ->.
  { unfold sse. rewrite Eu.
    exact (trim_between "d"%char (B "ata: {" ++ u) "}"%char ltac:(split; vm_compute; done) ltac:(split; vm_compute; done)). }
  change (prefix_of_bytes (B "data:") (sse (JObj l))) with true. cbn [negb].
  assert (trim_bytes (drop 5 (sse (JObj l))) = json_print (JObj l)) as ->.
  { change (drop 5 (sse (JObj l))) with (" "%char :: json_print (JObj l)). rewrite Eu.
    rewrite trim_leading by (vm_compute; done). apply trim_between; split; vm_compute; done. }
  rewrite !bool_decide_eq_false_2 by (by rewrite Eu). cbn [orb]. unfold Unmarshal.
  rewrite json_parse_print by done. cbn [mbind option_bind]. by rewrite Hm.
Qed.

(** ** The call a stream builds up *)

#[local] Arguments ParseFloat : simpl never.
#[local] Arguments coerce_string : simpl never.

Section one_call.
Context (i : numlit) (f : float64).
Hypothesis wf_i : wf_num i = true.
Hypothesis i_float : ParseFloat i = Some f.

Lemma start_line n : line_event (sse (start_event i n)) =
  Some [("type", AString "content_block_start"); ("index", AFloat f);
        ("content_block", AMap [("type", AString "tool_use"); ("name", AString (coerce_string n))])].
Proof.
  apply line_event_sse; [cbn; by rewrite wf_i|vm_compute; lia|]. cbn. by rewrite i_float.
Qed.

Lemma delta_line g : line_event (sse (delta_event i g)) =
  Some [("type", AString "content_block_delta"); ("index", AFloat f);
        ("delta", AMap [("type", AString "input_json_delta"); ("partial_json", AString (coerce_string g))])].
Proof.
  apply line_event_sse; [cbn; by rewrite wf_i|vm_compute; lia|]. cbn. by rewrite i_float.
Qed.

Lemma start_step n s : stream_line s (sse (start_event i n)) = at_ (float_to_int f) (set_name (TrimSpace (coerce_string n))) s.
Proof. unfold stream_line. by rewrite start_line. Qed.

Lemma delta_step g s : stream_line s (sse (delta_event i g)) = at_ (float_to_int f) (add_args (B (TrimSpace (coerce_string g)))) s.
Proof. unfold stream_line. by rewrite delta_line. Qed.

(** The stream after the call was announced and [b] arrived. *)
Definition building (n : string) (b : bytes) : stream :=
  mkStream {[float_to_int f := mkAcc n b]} [float_to_int f].

Lemma delta_steps n gs b :
  fold_left stream_line (sse <$> (delta_event i <$> gs)) (building n b) =
  building n (b ++ mjoin ((fun g => B (TrimSpace (coerce_string g))) <$> gs)).
Proof.
  revert b. induction gs as [|g gs IH]; intros b; [by rewrite app_nil_r|].
  cbn [fmap list_fmap fold_left]. rewrite delta_step. unfold at_. cbn [building byIndex order].
  rewrite lookup_singleton_eq, insert_singleton_eq. fold (building n (b ++ B (TrimSpace (coerce_string g)))).
  unfold add_args. cbn [name args]. fold (building n (b ++ B (TrimSpace (coerce_string g)))).
  rewrite IH. by rewrite <- app_assoc.
Qed.
End one_call.

(** A stream that announces a call and sends its arguments in fragments is read as
    exactly one call, with the announced name, whose arguments are the fragments put
    together after the white space around each fragment was cut off. *)
Theorem streamed_call_arguments i f n gs :
  wf_num i = true -> ParseFloat i = Some f -> TrimSpace (coerce_string n) <> "" ->
  ExtractToolCalls (call_stream i n gs) =
  [mkCall (TrimSpace (coerce_string n)) (mjoin ((fun g => B (TrimSpace (coerce_string g))) <$> gs))].
Proof.
  intros Hi Hf Hn. assert (decodeJSONObject (call_stream i n gs) = None) as Hd by reflexivity.
  unfold ExtractToolCalls. rewrite Hd. change (contains_bytes (B "data:") (call_stream i n gs)) with true.
  cbn match. unfold extractStreamingToolCalls, call_stream. rewrite split_lines_of.
  - rewrite fold_left_app. cbn [fmap list_fmap fold_left]. rewrite (start_step i f Hi Hf).
    unfold at_. cbn [no_calls byIndex order]. rewrite lookup_empty, insert_empty.
    unfold set_name. cbn [args app]. fold (building f (TrimSpace (coerce_string n)) []).
    rewrite (delta_steps i f Hi Hf). cbn [app]. unfold stream_line at 1. change (line_event []) with (@None (list (string * any))).
    cbn match. unfold stream_calls, building. cbn [order byIndex omap list_omap]. rewrite lookup_singleton_eq.
    cbn [mbind option_bind name args]. by destruct (String.eqb_spec (TrimSpace (coerce_string n)) "").
  - cbn [fmap list_fmap]. constructor; [apply sse_one_line; cbn; by rewrite Hi|].
    rewrite !Forall_fmap. apply Forall_true. intros g. apply sse_one_line. cbn. by rewrite Hi.
Qed.

(** A blank at a fragment's border is lost: the arguments read are not the ones sent. *)
Lemma streamed_call_arguments_witness :
  ExtractToolCalls (call_stream (mkNum false (B "0") None None) "sh" ["{'c':'rm"; " -r /tmp'}"]) =
  [mkCall "sh" (B "{'c':'rm-r /tmp'}")].
Proof.
  pose proof (streamed_call_arguments (mkNum false (B "0") None None)
    (match ParseFloat (mkNum false (B "0") None None) with Some f => f | None => S754_nan end)
    "sh" ["{'c':'rm"; " -r /tmp'}"] ltac:(reflexivity) ltac:(vm_compute; reflexivity) ltac:(vm_compute; congruence)) as H.
  etransitivity; [exact H|]. vm_compute. reflexivity.
Defined.
End ToolCalls.
