(* ===== verification/Identity.v ===== *)
(** * Package internal/identity: who an API key stands for

    Resolvers map an API key to an actor; [ApplyActor] writes the actor into the payload
    of an event. The identity file is YAML, read by a third-party parser: a resolver
    over a file takes what the file was parsed to as an argument. *)

From S2P Require Import Prelude GoText Sha256 GoFloat GoJson GoValue GoUnicode.

Module Identity.

Record Identity := mkIdentity { DisplayName : string; Email : string; OrgRole : string }.

Definition no_identity : Identity := mkIdentity "" "" "".

Inductive identity_error := ErrNotFound | ErrInvalidMapping | EHome | ERead | EParse.

(** [Resolve] of the interface [Resolver]. *)
Definition Resolver : Type := string -> result identity_error Identity.

Definition blank (s : string) : bool := String.eqb (TrimSpace s) "".

(** ** Resolvers *)

Record fileEntry := mkEntry { e_DisplayName : string; e_Name : string; e_Email : string; e_OrgRole : string }.

Definition identity (e : fileEntry) : result identity_error Identity :=
  let name := if blank (e_DisplayName e) then TrimSpace (e_Name e) else TrimSpace (e_DisplayName e) in
  if String.eqb name "" then Err ErrInvalidMapping
  else Ok (mkIdentity name (TrimSpace (e_Email e)) (TrimSpace (e_OrgRole e))).

Definition document : Type := list (string * fileEntry).

(** What reading and parsing the file gives: [ErrNotFound] for a file that does not
    exist. *)
Definition FileResolver (file : result identity_error document) : Resolver := fun apiKey =>
  if blank apiKey then Err ErrNotFound
  else
    let? doc := file in
    match assoc apiKey doc with None => Err ErrNotFound | Some entry => identity entry end.

Definition hashKey (apiKey : string) : string :=
  S_of (map (fun c => if (97 <=? code c) && (code c <=? 122) then chr (code c - 32) else c)
          (hex_encode (take 8 (Sha256.sum256 (B apiKey))))).

Definition EnvVarName (apiKey : string) : string := "ATB_IDENTITY_" +:+ hashKey apiKey.

(** [strings.Split(value, "|")] *)
Fixpoint split_bar (b : bytes) : list bytes :=
  match b with
  | [] => [[]]
  | c :: t =>
      if bool_decide (c = "|"%char) then [] :: split_bar t
      else match split_bar t with [] => [[c]] | l :: ls => (c :: l) :: ls end
  end.

Definition part (i : nat) (parts : list bytes) : string :=
  match parts !! i with Some p => TrimSpace (S_of p) | None => "" end.

(** An unset variable reads as the empty string. *)
Definition EnvResolver (Getenv : string -> string) : Resolver := fun apiKey =>
  if blank apiKey then Err ErrNotFound
  else
    let value := TrimSpace (Getenv (EnvVarName apiKey)) in
    if String.eqb value "" then Err ErrNotFound
    else
      let parts := split_bar (B value) in
      let id := mkIdentity (part 0 parts) (part 1 parts) (part 2 parts) in
      if String.eqb (DisplayName id) "" then Err ErrNotFound else Ok id.

(** A nil resolver is [None]. *)
Fixpoint chain_from (lastErr : option identity_error) (resolvers : list (option Resolver)) : Resolver := fun apiKey =>
  match resolvers with
  | [] => Err (default ErrNotFound lastErr)
  | None :: rest => chain_from lastErr rest apiKey
  | Some resolve :: rest =>
      match resolve apiKey with
      | Ok id => Ok id
      | Err ErrNotFound => chain_from lastErr rest apiKey
      | Err e => chain_from (Some e) rest apiKey
      end
  end.

Definition ChainResolver (resolvers : list (option Resolver)) : Resolver := chain_from None resolvers.

Definition DefaultChain (file : result identity_error document) (Getenv : string -> string) : Resolver :=
  ChainResolver [Some (FileResolver file); Some (EnvResolver Getenv)].

(** The document [WriteMapping] writes. A file that exists but cannot be read stops it; a
    file that cannot be parsed does not: it goes on with [partial], the entries the
    failed parse left. *)
Definition WriteMapping (file : result identity_error document) (partial : document) (apiKey displayName email orgRole : string) :
    result identity_error document :=
  let apiKey := TrimSpace apiKey in
  let displayName := TrimSpace displayName in
  if String.eqb apiKey "" || String.eqb displayName "" then Err ErrInvalidMapping
  else
    let entry := mkEntry displayName "" (TrimSpace email) (TrimSpace orgRole) in
    match file with
    | Ok doc => Ok (assoc_set apiKey entry doc)
    | Err EParse => Ok (assoc_set apiKey entry partial)
    | Err ErrNotFound => Ok [(apiKey, entry)]
    | Err e => Err e
    end.

(** ** Display names *)

Definition UnresolvedDisplayName : string := "unresolved".

Definition FallbackDisplayName (apiKey : string) : string := if blank apiKey then "" else UnresolvedDisplayName.

Definition IsUnresolvedDisplayName (name : string) : bool :=
  String.eqb name UnresolvedDisplayName || HasPrefix name "api-key:".

(** ** Events *)

Definition set_if {V} (c : bool) (k : string) (v : V) (l : list (string * V)) : list (string * V) :=
  if c then assoc_set k v l else l.

Definition nonempty (s : string) : bool := negb (String.eqb s "").

Definition ApplyActor (data : list (string * any)) (id : Identity) (apiKey : string) : list (string * any) :=
  let actor := match assoc "actor" data with Some (AStringMap a) => a | _ => [] end in
  let actor :=
    if nonempty (DisplayName id) then assoc_set "display_name" (DisplayName id) actor
    else set_if (nonempty apiKey) "display_name" (FallbackDisplayName apiKey) actor in
  let actor := set_if (nonempty (Email id)) "email" (Email id) actor in
  let actor := set_if (nonempty (OrgRole id)) "org_role" (OrgRole id) actor in
  match actor with [] => data | _ => assoc_set "actor" (AStringMap actor) data end.

(** ** Examples *)

Example file_before_env :
  DefaultChain (Ok [("k", mkEntry "" " Ann " "a@b" "")]) (fun _ => "Bob") "k" = Ok (mkIdentity "Ann" "a@b" "") /\
  DefaultChain (Ok [("k", mkEntry "" "" "" "")]) (fun _ => "Bob | b@c") "k" = Ok (mkIdentity "Bob" "b@c" "") /\
  DefaultChain (Ok [("k", mkEntry "" "" "" "")]) (fun _ => "") "k" = Err ErrInvalidMapping.
Proof. vm_compute. repeat split. Qed.
End Identity.
