(* ===== verification/ProxyEvents.v ===== *)
(** * Package internal/proxy: configuration, requests and the events made of them

    [config.go], [types.go] and the pure part of [session.go]: the hosts that are
    captured, the headers that are recorded, the key of a conversation, and the events
    of a request, a response, a completed exchange, a closed session and a rejected
    capture. Raw bodies are only in an event if [CaptureBodies] is set. *)

From S2P Require Import Prelude GoText Sha256 GoFloat GoJson GoValue GoUnicode GoTime Event HashChain Bundle Identity ToolCalls.

Module ProxyEvents.
Import Identity ToolCalls.

(** ** [net.SplitHostPort] *)

Definition has (c : ascii) (b : bytes) : bool := existsb (fun d => bool_decide (d = c)) b.

(** The bytes before the last [c], if there is one. *)
Fixpoint before_last (c : ascii) (b : bytes) : option bytes :=
  match b with
  | [] => None
  | d :: t => match before_last c t with
              | Some x => Some (d :: x)
              | None => if bool_decide (d = c) then Some [] else None
              end
  end.

Fixpoint before_first (c : ascii) (b : bytes) : option bytes :=
  match b with
  | [] => None
  | d :: t => if bool_decide (d = c) then Some [] else cons d <$> before_first c t
  end.

(** The host of an address with a port. *)
Definition SplitHostPort (hostport : string) : option string :=
  let b := B hostport in
  head ← before_last ":"%char b;
  match b with
  | "["%char :: rest =>
      inner ← before_first "]"%char rest;
      let close := S (length inner) in
      if bool_decide (S close = length head) then
        if has "["%char (drop 1 b) || has "]"%char (drop (S close) b) then None else Some (S_of inner)
      else None
  | _ => if has ":"%char head || has "["%char b || has "]"%char b then None else Some (S_of head)
  end.

Definition stripPort (host : string) : string := default host (SplitHostPort host).

Example hosts :
  stripPort "api.openai.com:443" = "api.openai.com" /\ stripPort "[::1]:8080" = "::1" /\
  stripPort "::1" = "::1" /\ stripPort "host" = "host" /\ stripPort "[::1]" = "[::1]" /\
  stripPort ":80" = "".
Proof. vm_compute. repeat split. Qed.

(** ** Configuration *)

Definition DefaultMaxBodyBytes : Z := 32 * 2 ^ 20.
Definition MaxBodyBytesLimit : Z := 256 * 2 ^ 20.
Definition DefaultMaxInFlightBodyBytes : Z := 512 * 2 ^ 20.

Record ProxyConfig := mkConfig {
  ListenAddr : string;
  TargetHosts : list string;
  BundlePath : string;
  IdentityMap : list (string * string);
  Resolve_ : option Resolver;  (** [Identity], nil for none *)
  CaptureBodies : bool;
  MaxBodyBytes : Z;
  SourceIncarnation : string
}.

Inductive config_error := NilConfig | NoListenAddr | NoBundlePath | NoTargets | BadMaxBody.

Section config.
Context `{Unicode}.

Definition normalisedTargetHosts (hosts : list string) : list string :=
  List.filter nonempty (map (fun h => TrimSpace (ToLower h)) hosts).

Definition Validate (c : option ProxyConfig) : result config_error unit :=
  match c with
  | None => Err NilConfig
  | Some c =>
      if blank (ListenAddr c) then Err NoListenAddr
      else if blank (BundlePath c) then Err NoBundlePath
      else
        match TargetHosts c with
        | [] => Err NoTargets
        | hosts =>
            match normalisedTargetHosts hosts with
            | [] => Err NoTargets
            | _ => if (MaxBodyBytes c <? 0) || (MaxBodyBytesLimit <? MaxBodyBytes c) then Err BadMaxBody else Ok tt
            end
        end
  end.

Definition EffectiveMaxBodyBytes (c : ProxyConfig) : Z :=
  if MaxBodyBytes c =? 0 then DefaultMaxBodyBytes else MaxBodyBytes c.

Definition normalised (c : ProxyConfig) : ProxyConfig :=
  mkConfig (ListenAddr c) (normalisedTargetHosts (TargetHosts c)) (BundlePath c) (IdentityMap c) (Resolve_ c)
    (CaptureBodies c) (EffectiveMaxBodyBytes c) (SourceIncarnation c).
End config.

Definition resolveIdentity (c : ProxyConfig) (apiKey : string) : option Identity.Identity :=
  if String.eqb apiKey "" then None
  else
    match match Resolve_ c with Some resolve => resolve apiKey | None => Err ErrNotFound end with
    | Ok id => Some id
    | Err _ =>
        match assoc apiKey (IdentityMap c) with
        | Some name => Some (mkIdentity (TrimSpace name) "" "")
        | None => None
        end
    end.

Definition ResolveIdentity (c : ProxyConfig) (apiKey : string) : Identity.Identity :=
  default (mkIdentity (FallbackDisplayName apiKey) "" "") (resolveIdentity c apiKey).

(** ** Requests *)

(** An [http.Header]: canonical names with their values. *)
Definition Header : Type := list (string * list string).

(** [header.Get] with a canonical name. *)
Definition header_get (h : Header) (name : string) : string :=
  match assoc name h with Some (v :: _) => v | _ => "" end.

Record http_request := mkRequest {
  r_Method : string;
  r_Path : string;  (** [URL.Path] *)
  r_Header : Header;
  r_RemoteAddr : string
}.

Definition recordedHeaders : list string :=
  ["accept"; "accept-encoding"; "content-encoding"; "content-type"; "openai-request-id";
   "anthropic-request-id"; "request-id"; "retry-after"; "traceparent"; "user-agent"; "x-request-id"].

Definition recordedHeaderNames : list string := insertion_sort string_ltb recordedHeaders.

Section requests.
Context `{Unicode}.

Definition recorded_header (kv : string * list string) : option (string * string) :=
  if existsb (String.eqb (ToLower kv.1)) recordedHeaders then
    match kv.2 with v :: _ => Some (kv.1, v) | [] => None end
  else None.

Definition ScanHeaders (header : Header) : list (string * string) := omap recorded_header header.

(** A nil header is empty. *)
Definition ExtractAPIKey (header : Header) : string :=
  let key := TrimSpace (header_get header "X-Api-Key") in
  if nonempty key then key
  else
    let auth := TrimSpace (header_get header "Authorization") in
    if HasPrefix (ToLower auth) "bearer " then TrimSpace (S_of (drop 7 (B auth))) else "".

Definition has_suffix (s p : string) : bool := prefix_of_bytes (reverse (B p)) (reverse (B s)).

Definition IsTargetHost (host : string) (targets : list string) : bool :=
  let host := ToLower (stripPort host) in
  existsb (fun t => let target := ToLower (TrimSpace t) in
                    String.eqb host target || has_suffix host ("." +:+ target)) targets.

Definition ProviderFromHost (host : string) : string :=
  let host := ToLower (stripPort host) in
  if Contains host "openai" then "openai"
  else if Contains host "anthropic" then "anthropic"
  else host.

(** The text after the first [/threads/]. *)
Fixpoint after_threads (b : bytes) : option bytes :=
  if prefix_of_bytes (B "/threads/") b then Some (drop 9 b)
  else match b with [] => None | _ :: t => after_threads t end.

Definition path_thread (path : string) : string :=
  match after_threads (B path) with
  | None => ""
  | Some rest =>
      let rest := match rest with c :: t => if bool_decide (c = "/"%char) then t else rest | [] => [] end in
      S_of (default rest (before_first "/"%char rest))
  end.

Definition ExtractThreadKey (host : string) (req : http_request) (body : bytes) : string :=
  let anthropic := TrimSpace (header_get (r_Header req) "Anthropic-Session-Id") in
  let session := TrimSpace (header_get (r_Header req) "X-Session-Id") in
  let field := extractJSONField body "thread_id" in
  if nonempty anthropic then "anthropic:" +:+ anthropic
  else if nonempty session then "session:" +:+ session
  else if nonempty field then "openai-thread:" +:+ field
  else if nonempty (path_thread (r_Path req)) then "openai-thread:" +:+ path_thread (r_Path req)
  else "conn:" +:+ ToLower (stripPort host) +:+ ":" +:+ r_RemoteAddr req.
End requests.

Inductive read_error := ErrInvalidConfig | ErrBodyTooLarge (limit observed : Z) | ErrRead.

(** A body is its text, or [None] if reading it fails; at most [max + 1] bytes are read. *)
Definition readLimited (body : option bytes) (max : Z) : result read_error bytes :=
  if (max <=? 0) || (MaxBodyBytesLimit <? max) then Err ErrInvalidConfig
  else
    match body with
    | None => Err ErrRead
    | Some b => if max <? Z.of_nat (length b) then Err (ErrBodyTooLarge max (max + 1)) else Ok b
    end.

Definition effective_max (max : Z) : Z := if max <=? 0 then DefaultMaxBodyBytes else max.

(** [contentLength] is -1 when the request does not announce it. *)
Definition ReadRequestBodyLimited (contentLength : Z) (body : option bytes) (max : Z) : result read_error bytes :=
  let max := effective_max max in
  if max <? contentLength then Err (ErrBodyTooLarge max contentLength) else readLimited body max.

Definition ReadBodyLimited (body : option bytes) (max : Z) : result read_error bytes :=
  readLimited body (effective_max max).

Definition classifyBodyReadError (e : read_error) : string * Z :=
  match e with ErrBodyTooLarge _ observed => ("body_too_large", observed) | _ => ("body_read_error", 0) end.

(** ** Events *)

Definition TypeLLMRequest : string := "atb.llm.request".
Definition TypeLLMResponse : string := "atb.llm.response".
Definition TypeCaptureRejected : string := "atb.capture.rejected".
Definition TypeCaptureScope : string := "atb.capture.scope".
Definition TypeSessionClose : string := "atb.session.close".
Definition TypeExchangeComplete : string := "atb.exchange.complete".
Definition TypeToolCall : string := "atb.tool.call".
Definition TypeAIActionError : string := "ai.action.error".

(** [&event.Event{Type: t, Timestamp: ts, Data: data}] *)
Definition new_event (t ts : string) (data : list (string * any)) : Event.t :=
  Event.mk 0 "" t "" (AMap data) None None None ts "" "" "" None.

Definition recordBody (data : list (string * any)) (body : bytes) (captureRaw : bool) : list (string * any) :=
  match body with
  | [] => data
  | _ =>
      set_if captureRaw "body" (AString (S_of body))
        (assoc_set "body_bytes" (AInt (Z.of_nat (length body)))
           (assoc_set "body_sha256" (AString (hex_sha256 body)) data))
  end.

Definition CaptureScopeEvent (cfg : ProxyConfig) (recorded_at timestamp : Z) : Event.t :=
  new_event TypeCaptureScope (RFC3339Nano timestamp)
    [("targets", ASlice (map AString (TargetHosts cfg)));
     ("capture_mode", AString (if CaptureBodies cfg then "raw" else "digest"));
     ("max_body_bytes", AInt (EffectiveMaxBodyBytes cfg));
     ("header_policy", AString "allowlist");
     ("recorded_headers", ASlice (map AString recordedHeaderNames));
     ("out_of_scope", AString "Provider API traffic that does not pass through this proxy (e.g. direct in-process SDK calls or other egress) is not captured.");
     ("recorded_at", AString (RFC3339Nano recorded_at))].

Definition CaptureRejectedEvent (now : Z) (sessionID host method path direction reason : string)
    (limitBytes observedBytes : Z) : Event.t :=
  new_event TypeCaptureRejected (RFC3339Nano now)
    [("session_id", AString sessionID); ("host", AString (stripPort host)); ("method", AString method);
     ("path", AString path); ("direction", AString direction); ("reason", AString reason);
     ("limit_bytes", AInt limitBytes); ("observed_bytes", AInt observedBytes)].

Inductive record_error := MissingSession | MissingHost.

Module RequestRecord.
Record t := mk {
  SessionID : string; Host : string; Method : string; Path : string; Provider : string; Model : string;
  APIKey : string; Headers : list (string * string); Body : bytes;
  RecordedAt : Z;  (** an instant: the proxy always sets it *)
  DisplayName : string; Email : string; CaptureBody : bool
}.

Definition set_identity (id : Identity.Identity) (r : t) : t :=
  mk (SessionID r) (Host r) (Method r) (Path r) (Provider r) (Model r) (APIKey r) (Headers r) (Body r)
    (RecordedAt r) (Identity.DisplayName id) (Identity.Email id) (CaptureBody r).

Definition ToEvent (r : t) : result record_error Event.t :=
  if blank (SessionID r) then Err MissingSession
  else if blank (Host r) then Err MissingHost
  else
    let data := [("session_id", AString (SessionID r)); ("host", AString (Host r));
                 ("method", AString (Method r)); ("path", AString (Path r))] in
    let data := set_if (nonempty (Provider r)) "provider" (AString (Provider r)) data in
    let data := set_if (nonempty (Model r)) "model" (AString (Model r)) data in
    let data := recordBody data (Body r) (CaptureBody r) in
    let data := match Headers r with [] => data | h => assoc_set "headers" (AStringMap h) data end in
    let data := ApplyActor data (mkIdentity (DisplayName r) (Email r) "") (APIKey r) in
    Ok (new_event TypeLLMRequest (RFC3339Nano (RecordedAt r)) data).
End RequestRecord.

Module ResponseRecord.
Record t := mk {
  SessionID : string; Host : string; Method : string; Path : string; Provider : string; Model : string;
  APIKey : string; StatusCode : Z; Headers : list (string * string); Body : bytes; RecordedAt : Z;
  DisplayName : string; Email : string; PromptTokens : Z; OutputTokens : Z; TotalTokens : Z;
  CaptureBody : bool
}.

Definition set_identity (id : Identity.Identity) (r : t) : t :=
  mk (SessionID r) (Host r) (Method r) (Path r) (Provider r) (Model r) (APIKey r) (StatusCode r) (Headers r)
    (Body r) (RecordedAt r) (Identity.DisplayName id) (Identity.Email id) (PromptTokens r) (OutputTokens r)
    (TotalTokens r) (CaptureBody r).

(** [usage] is a [map[string]int]: encoded like a [map[string]any]. *)
Definition ToEvent (r : t) : result record_error Event.t :=
  if blank (SessionID r) then Err MissingSession
  else if blank (Host r) then Err MissingHost
  else
    let data := [("session_id", AString (SessionID r)); ("host", AString (Host r));
                 ("method", AString (Method r)); ("path", AString (Path r));
                 ("status_code", AInt (StatusCode r))] in
    let data := set_if (nonempty (Provider r)) "provider" (AString (Provider r)) data in
    let data := set_if (nonempty (Model r)) "model" (AString (Model r)) data in
    let data := recordBody data (Body r) (CaptureBody r) in
    let data := match Headers r with [] => data | h => assoc_set "headers" (AStringMap h) data end in
    let data :=
      set_if ((0 <? PromptTokens r) || (0 <? OutputTokens r) || (0 <? TotalTokens r)) "usage"
        (AMap [("prompt_tokens", AInt (PromptTokens r)); ("completion_tokens", AInt (OutputTokens r));
               ("total_tokens", AInt (TotalTokens r))]) data in
    let data := ApplyActor data (mkIdentity (DisplayName r) (Email r) "") "" in
    Ok (new_event TypeLLMResponse (RFC3339Nano (RecordedAt r)) data).
End ResponseRecord.
End ProxyEvents.
