(* ===== verification/Sessions.v ===== *)
(** * Package internal/proxy: the session manager

    [SessionManager] of [session.go]: sessions are objects shared by the handlers, the
    idle timers and the shutdown; a pointer is an index into [heap]. Each function that
    runs under one lock is one definition; [exec] gives the programs that interleave at
    these points, and [step] their interleavings. The recorder they append to
    ([recorder.go]) takes an event, fails, or refuses it because capture is stopped. The
    theorem: in every interleaving the recorder is offered exactly one close record for a
    closed session once nothing is left to run, and never a second one; and as long as the
    proxy is not shut down none is refused, and the map leads every conversation to its live
    session. *)

From S2P Require Import Prelude GoText GoFloat GoJson GoValue GoUnicode GoTime Event HashChain Bundle Identity ProxyEvents.

Module Sessions.
Import ProxyEvents.

(** ** Sessions *)

(** [armed]: an idle timer is running. [lastActivity] is never read. *)
Record Session := mkSession {
  ID : string;
  ThreadKey : string;
  Model : string;
  ExchangeCount : Z;
  TotalTokens : Z;
  ActorID : string;
  ExchangeCounter : Z;
  armed : bool;
  closed : bool
}.

Record manager := mkManager { heap : list Session; sessions : gmap string nat }.

Definition NewSessionManager : manager := mkManager [] ∅.

(** [f] applied to the session a pointer refers to. *)
Definition update (f : Session -> Session) (a : nat) (m : manager) : manager :=
  mkManager (alter f a (heap m)) (sessions m).

Definition field {A} (f : Session -> A) (d : A) (a : nat) (m : manager) : A :=
  match heap m !! a with Some s => f s | None => d end.

Definition set_timer (b : bool) (s : Session) : Session :=
  mkSession (ID s) (ThreadKey s) (Model s) (ExchangeCount s) (TotalTokens s) (ActorID s) (ExchangeCounter s) b (closed s).

(** A closed session is not revived. *)
Definition touchLocked (s : Session) : Session := if closed s then s else set_timer true s.

Definition touch (a : nat) (m : manager) : manager := update touchLocked a m.

Definition UpdateActorID (actorID : string) (a : nat) (m : manager) : manager :=
  if String.eqb actorID "" then m
  else update (fun s => mkSession (ID s) (ThreadKey s) (Model s) (ExchangeCount s) (TotalTokens s) actorID
                          (ExchangeCounter s) (armed s) (closed s)) a m.

Definition NextExchangeID (a : nat) (m : manager) : manager * string :=
  let m := update (fun s => mkSession (ID s) (ThreadKey s) (Model s) (ExchangeCount s) (TotalTokens s) (ActorID s)
                              (wrap64 (ExchangeCounter s + 1)) (armed s) (closed s)) a m in
  (m, S_of (padded 4 (field ExchangeCounter 0 a m))).

(** [fmtUUID] of sixteen bytes, and the identifier made of random ones. *)
Definition fmtUUID (b : bytes) : string :=
  let h := hex_encode b in
  let cut i n := take n (drop i h) in
  S_of (cut 0 8 ++ "-"%char :: cut 8 4 ++ "-"%char :: cut 12 4 ++ "-"%char :: cut 16 4 ++ "-"%char :: cut 20 12)%nat.

Definition set_bits (mask bits : Z) (c : ascii) : ascii := chr (Z.lor (Z.land (code c) mask) bits).

(** [fails]: the system has no randomness; the first eight bytes are used as they are. *)
Definition newSessionID (fails : bool) (random : bytes) : string :=
  if fails then S_of (hex_encode (take 8 random))
  else fmtUUID (alter (set_bits 63 128) 8%nat (alter (set_bits 15 64) 6%nat random)).

Example session_id : newSessionID false (replicate 16 (chr 255)) = "ffffffff-ffff-4fff-bfff-ffffffffffff".
Proof. vm_compute. reflexivity. Qed.

Definition new_session (id key : string) : Session := mkSession id key "" 0 0 "" 0 false false.

(** [key] replaces an empty thread key, [id] names a new session. *)
Definition Resolve (key id threadKey : string) (m : manager) : manager * nat :=
  let threadKey := if String.eqb threadKey "" then key else threadKey in
  match sessions m !! threadKey with
  | Some a => (touch a m, a)
  | None =>
      let a := length (heap m) in
      (touch a (mkManager (heap m ++ [new_session id threadKey]) (<[threadKey := a]> (sessions m))), a)
  end.

Definition NoteExchange (a : nat) (model : string) (promptTokens outputTokens : Z) (m : manager) : manager :=
  update (fun s =>
    touchLocked (mkSession (ID s) (ThreadKey s) (if String.eqb model "" then Model s else model)
      (wrap64 (ExchangeCount s + 1)) (wrap64 (TotalTokens s + wrap64 (promptTokens + outputTokens))) (ActorID s)
      (ExchangeCounter s) (armed s) (closed s))) a m.

Definition isClosed (a : nat) (m : manager) : bool := field closed true a m.

(** Whether this call closed the session. *)
Definition markClosed (a : nat) (m : manager) : manager * bool :=
  if isClosed a m then (m, false)
  else (update (fun s => mkSession (ID s) (ThreadKey s) (Model s) (ExchangeCount s) (TotalTokens s) (ActorID s)
                           (ExchangeCounter s) false true) a m, true).

(** [delete(m.sessions, sess.ThreadKey)]: whatever session the key refers to by now. *)
Definition forget (a : nat) (m : manager) : manager :=
  mkManager (heap m) (delete (field ThreadKey "" a m) (sessions m)).

(** The sessions [CloseAll] takes from the map, in the order it visits them. *)
Definition take_all (m : manager) : manager * list nat :=
  (mkManager (heap m) ∅, (map_to_list (sessions m)).*2).

(** ** Events of a session *)

Definition SessionCloseRecord (closed_at : Z) (s : Session) : list (string * any) :=
  [("session_id", AString (ID s)); ("actor_id", AString (ActorID s)); ("model", AString (Model s));
   ("exchange_count", AInt (ExchangeCount s)); ("total_tokens", AInt (TotalTokens s));
   ("closed_at", AString (RFC3339Nano closed_at))].

(** [t.Sub(u)], saturated. *)
Definition Sub (t u : Z) : Z := Z.max (- 2 ^ 63) (Z.min (2 ^ 63 - 1) (t - u)).

(** A zero [startedAt] is [None]. *)
Definition ExchangeCompleteRecord (s : Session) (exchangeID requestEventID model : string)
    (promptTokens outputTokens toolCallsCount completedAt : Z) (startedAt : option Z) : list (string * any) :=
  let latencyMs := match startedAt with
                   | None => 0
                   | Some started => Z.max 0 (Z.quot (Sub completedAt started) 1000000)
                   end in
  let rec_ := [("session_id", AString (ID s)); ("exchange_id", AString exchangeID);
               ("request_event_id", AString requestEventID); ("actor_id", AString (ActorID s));
               ("completed_at", AString (RFC3339Nano completedAt)); ("tool_calls_count", AInt toolCallsCount)] in
  let rec_ := Identity.set_if (Identity.nonempty model) "model" (AString model) rec_ in
  let rec_ := Identity.set_if (0 <? promptTokens) "input_tokens" (AInt promptTokens) rec_ in
  let rec_ := Identity.set_if (0 <? outputTokens) "output_tokens" (AInt outputTokens) rec_ in
  Identity.set_if (0 <? latencyMs) "latency_ms" (AInt latencyMs) rec_.

(** ** Interleavings *)

(** What a call of [Resolve] is given. *)
Record call := mkCall { c_key : string; c_id : string; c_thread : string }.

(** The two halves of [Resolve]: under the manager's lock, and [touch]. *)
Definition lookup_or_create (c : call) (m : manager) : manager * nat :=
  let threadKey := if String.eqb (c_thread c) "" then c_key c else c_thread c in
  match sessions m !! threadKey with
  | Some a => (m, a)
  | None => (mkManager (heap m ++ [new_session (c_id c) threadKey]) (<[threadKey := length (heap m)]> (sessions m)),
             length (heap m))
  end.

Lemma Resolve_halves c m :
  Resolve (c_key c) (c_id c) (c_thread c) m =
  let '(m, a) := lookup_or_create c m in (touch a m, a).
Proof. unfold Resolve, lookup_or_create. by destruct (sessions m !! _). Qed.

(** A handler, a close or a shutdown at the point where it goes on. The second call of a
    handler is the one it makes if its session was closed before the response came. *)
Inductive task :=
| Requesting (c c' : call)            (** [captureRequest], before [Resolve] *)
| Touching (a : nat) (c' : call)
| Recording (a : nat) (c' : call)     (** before the request is appended *)
| Responding (a : nat) (c' : call)    (** [captureResponse], before [isClosed] *)
| Rejoining (c' : call)
| Retouching (a : nat)
| Noting (a : nat)
| Exchanging (a : nat)                (** before the response and the exchange are appended *)
| Closing (a : nat)                   (** [closeSession], before [markClosed] *)
| Forgetting (a : nat)
| Notifying (a : nat)                 (** before [onClose] *)
| ClosingRest (l : list nat)          (** [CloseAll], with the sessions not yet visited *)
| NotifyingRest (a : nat) (l : list nat)
| Stopping.                           (** [Proxy.Stop], before [closeCapture] *)

(** What the recorder is asked to append, and its other call. *)
Inductive entry := Observed (a : nat) | CloseRecord (a : nat).
Inductive action := Append (e : entry) | CloseCapture.

(** The recorder: the bundle, the events whose append returned an error (one that fails
    late can still be in the bundle), and the events refused because capture was stopped.
    [onClose] is an append, whose error is ignored. *)
Record recorder := mkRecorder { log : list entry; failed : list entry; refused : list entry; captureStopped : bool }.

(** [ok]: the append of an event that is not refused succeeds. *)
Definition appendEvent (ok : bool) (e : entry) (r : recorder) : recorder :=
  if captureStopped r then mkRecorder (log r) (failed r) (refused r ++ [e]) true
  else if ok then mkRecorder (log r ++ [e]) (failed r) (refused r) false
  else mkRecorder (log r) (failed r ++ [e]) (refused r) false.

Definition closeCapture (r : recorder) : recorder := mkRecorder (log r) (failed r) (refused r) true.

Definition EnableCapture (r : recorder) : recorder := mkRecorder (log r) (failed r) (refused r) false.

Definition perform (ok : bool) (x : action) (r : recorder) : recorder :=
  match x with Append e => appendEvent ok e r | CloseCapture => closeCapture r end.

Definition performs (ok : bool) (r : recorder) (xs : list action) : recorder := foldl (fun r x => perform ok x r) r xs.

Definition exec (t : task) (m : manager) : manager * list task * list action :=
  match t with
  | Requesting c c' => let '(m, a) := lookup_or_create c m in (m, [Touching a c'], [])
  | Touching a c' => (touch a m, [Recording a c'], [])
  | Recording a c' => (m, [Responding a c'], [Append (Observed a)])
  | Responding a c' => (m, [if isClosed a m then Rejoining c' else Noting a], [])
  | Rejoining c' => let '(m, a) := lookup_or_create c' m in (m, [Retouching a], [])
  | Retouching a => (touch a m, [Noting a], [])
  | Noting a => (NoteExchange a "" 0 0 m, [Exchanging a], [])
  | Exchanging a => (m, [], [Append (Observed a)])
  | Closing a => let '(m, b) := markClosed a m in (m, if b : bool then [Forgetting a] else [], [])
  | Forgetting a => (forget a m, [Notifying a], [])
  | Notifying a => (m, [], [Append (CloseRecord a)])
  | ClosingRest [] => (m, [Stopping], [])
  | ClosingRest (a :: l) =>
      let '(m, b) := markClosed a m in (m, [if b : bool then NotifyingRest a l else ClosingRest l], [])
  | NotifyingRest a l => (m, [ClosingRest l], [Append (CloseRecord a)])
  | Stopping => (m, [], [CloseCapture])
  end.

(** A handler, which returns early when something fails. *)
Definition is_handler (t : task) : bool :=
  match t with
  | Closing _ | Forgetting _ | Notifying _ | ClosingRest _ | NotifyingRest _ _ | Stopping => false
  | _ => true
  end.

(** [down]: a shutdown has begun at some time. *)
Record world := mkWorld { mgr : manager; tasks : list task; rec_ : recorder; down : bool }.

(** A task goes on, its append succeeding or not; a handler returns; an idle timer fires;
    a request arrives, or a response whose request has no session; [Stop] and [Start]. *)
Inductive step : world -> world -> Prop :=
| step_task ok t l1 l2 m m' ts xs r down :
    exec t m = (m', ts, xs) ->
    step (mkWorld m (l1 ++ t :: l2) r down) (mkWorld m' (l1 ++ ts ++ l2) (performs ok r xs) down)
| step_return t l1 l2 m r down :
    is_handler t = true -> step (mkWorld m (l1 ++ t :: l2) r down) (mkWorld m (l1 ++ l2) r down)
| step_timer a s m ts r down :
    heap m !! a = Some s -> armed s = true ->
    step (mkWorld m ts r down) (mkWorld (update (set_timer false) a m) (ts ++ [Closing a]) r down)
| step_request c c' m ts r down :
    step (mkWorld m ts r down) (mkWorld m (ts ++ [Requesting c c']) r down)
| step_response c' m ts r down :
    step (mkWorld m ts r down) (mkWorld m (ts ++ [Rejoining c']) r down)
| step_shutdown l m ts r down :
    l ≡ₚ (take_all m).2 ->
    step (mkWorld m ts r down) (mkWorld (take_all m).1 (ts ++ [ClosingRest l]) r true)
| step_start m ts r down :
    step (mkWorld m ts r down) (mkWorld m ts (EnableCapture r) down).

Definition start : world := mkWorld NewSessionManager [] (mkRecorder [] [] [] false) false.

Inductive reachable : world -> Prop :=
| reachable_start : reachable start
| reachable_step w w' : reachable w -> step w w' -> reachable w'.

(** ** Counting close records *)

Definition closes (a : nat) (e : entry) : nat :=
  match e with CloseRecord b => if (a =? b)%nat then 1 else 0 | Observed _ => 0 end.

Definition offers (a : nat) (x : action) : nat :=
  match x with Append e => closes a e | CloseCapture => 0 end.

(** A task that is going to call [onClose]. *)
Definition pends (a : nat) (t : task) : nat :=
  match t with
  | Forgetting b | Notifying b | NotifyingRest b _ => if (a =? b)%nat then 1 else 0
  | _ => 0
  end.

Fixpoint total {A} (f : A -> nat) (l : list A) : nat :=
  match l with [] => O | x :: l => (f x + total f l)%nat end.

Lemma total_app {A} (f : A -> nat) l l' : total f (l ++ l') = (total f l + total f l')%nat.
Proof. induction l as [|x l IH]; cbn; lia. Qed.

(** Close records in the bundle, close records whose append failed, and those refused
    because capture was stopped; together, the calls of [onClose]. *)
Definition close_records (a : nat) (w : world) : nat := total (closes a) (log (rec_ w)).
Definition failed_closes (a : nat) (w : world) : nat := total (closes a) (failed (rec_ w)).
Definition refused_closes (a : nat) (w : world) : nat := total (closes a) (refused (rec_ w)).

Definition offered (a : nat) (r : recorder) : nat :=
  (total (closes a) (log r) + total (closes a) (failed r) + total (closes a) (refused r))%nat.

Definition notified (a : nat) (w : world) : nat := (close_records a w + failed_closes a w + refused_closes a w)%nat.

Lemma performs_offered ok r xs a : offered a (performs ok r xs) = (offered a r + total (offers a) xs)%nat.
Proof.
  unfold performs. revert r. induction xs as [|x xs IH]; intros r; cbn [foldl total]; [lia|]. rewrite IH.
  destruct x as [e|]; cbn [perform offers]; [|reflexivity].
  unfold appendEvent, offered. destruct (captureStopped _); [|destruct ok]; cbn [log failed refused];
    rewrite total_app; cbn [total]; lia.
Qed.

Definition closed_once (a : nat) (m : manager) : nat := Nat.b2n (field closed false a m).

Lemma field_update {A} (f : Session -> A) d g a b m :
  (forall s, f (g s) = f s) -> field f d a (update g b m) = field f d a m.
Proof.
  intros Hg. unfold field, update. cbn [heap]. destruct (decide (a = b)) as [->|Hne].
  - rewrite list_lookup_alter_eq. destruct (heap m !! b); [|done]. cbn. by rewrite Hg.
  - by rewrite list_lookup_alter_ne.
Qed.

Lemma touchLocked_closed s : closed (touchLocked s) = closed s.
Proof. unfold touchLocked. by destruct (closed s) eqn:E. Qed.

Lemma touchLocked_key s : ThreadKey (touchLocked s) = ThreadKey s.
Proof. unfold touchLocked. by destruct (closed s). Qed.

Lemma field_append {A} (f : Session -> A) d a s m tbl :
  f s = d -> field f d a (mkManager (heap m ++ [s]) tbl) = field f d a m.
Proof.
  intros Hs. unfold field. cbn [heap]. destruct (decide (a < length (heap m))%nat).
  - by rewrite lookup_app_l.
  - rewrite lookup_app_r by lia. rewrite (lookup_ge_None_2 (heap m)) by lia.
    destruct (a - length (heap m))%nat as [|n'] eqn:E; [done|]. done.
Qed.

Lemma lookup_or_create_closed c m m' a b :
  lookup_or_create c m = (m', a) -> closed_once b m' = closed_once b m.
Proof.
  unfold lookup_or_create, closed_once. destruct (sessions m !! _); intros [= <- <-]; [done|].
  by rewrite field_append.
Qed.

Lemma markClosed_closed a m m' b c :
  markClosed a m = (m', b) ->
  closed_once c m' = (closed_once c m + (if b then if (c =? a)%nat then 1 else 0 else 0))%nat.
Proof.
  unfold markClosed, isClosed, field. destruct (heap m !! a) as [s|] eqn:Ha; [|intros [= <- <-]; lia].
  destruct (closed s) eqn:Hc; intros [= <- <-]; [lia|]. unfold closed_once, field, update. cbn [heap].
  destruct (Nat.eqb_spec c a) as [->|Hne].
  - rewrite list_lookup_alter_eq, Ha. cbn. by rewrite Hc.
  - rewrite list_lookup_alter_ne by done. lia.
Qed.

(** Every step keeps the balance: a session is closed once, and every close is a call of
    [onClose] that was made or a task that will make it. *)
Lemma exec_balance t m m' ts xs a :
  exec t m = (m', ts, xs) ->
  (total (offers a) xs + total (pends a) ts + closed_once a m = pends a t + closed_once a m')%nat.
Proof.
  destruct t as [c c'|b c'|b c'|b c'|c'|b|b|b|b|b|b|[|b l]|b l|]; cbn [exec].
  - destruct (lookup_or_create c m) as [m1 b] eqn:E. intros [= <- <- <-].
    rewrite (lookup_or_create_closed _ _ _ _ a E). cbn. lia.
  - intros [= <- <- <-]. unfold touch, closed_once. rewrite field_update by apply touchLocked_closed. cbn. lia.
  - intros [= <- <- <-]. cbn. lia.
  - intros [= <- <- <-]. destruct (isClosed b m); cbn; lia.
  - destruct (lookup_or_create c' m) as [m1 b] eqn:E. intros [= <- <- <-].
    rewrite (lookup_or_create_closed _ _ _ _ a E). cbn. lia.
  - intros [= <- <- <-]. unfold touch, closed_once. rewrite field_update by apply touchLocked_closed. cbn. lia.
  - intros [= <- <- <-]. unfold NoteExchange, closed_once. rewrite field_update; [cbn; lia|].
    intros s. by rewrite touchLocked_closed.
  - intros [= <- <- <-]. cbn. lia.
  - destruct (markClosed b m) as [m1 r] eqn:E. intros [= <- <- <-]. rewrite (markClosed_closed _ _ _ _ a E).
    destruct r; cbn; lia.
  - intros [= <- <- <-]. change (closed_once a (forget b m)) with (closed_once a m). cbn. lia.
  - intros [= <- <- <-]. cbn. lia.
  - intros [= <- <- <-]. cbn. lia.
  - destruct (markClosed b m) as [m1 r] eqn:E. intros [= <- <- <-]. rewrite (markClosed_closed _ _ _ _ a E).
    destruct r; cbn; lia.
  - intros [= <- <- <-]. cbn. lia.
  - intros [= <- <- <-]. cbn. lia.
Qed.

Lemma handler_pends t a : is_handler t = true -> pends a t = 0%nat.
Proof. by destruct t. Qed.

Lemma reachable_balance w a :
  reachable w -> (notified a w + total (pends a) (tasks w) = closed_once a (mgr w))%nat.
Proof.
  change (notified a w) with (offered a (rec_ w)). induction 1 as [|w w' _ IH Hs]; [done|].
  destruct Hs as [ok t l1 l2 m m' ts xs r d Hx|t l1 l2 m r d Ht|b s m ts r d Hb Hs|c c' m ts r d|c' m ts r d|l m ts r d Hl|m ts r d];
    cbn [rec_ tasks mgr] in *; rewrite ?total_app in *; cbn [total pends] in *.
  - rewrite performs_offered. pose proof (exec_balance t m m' ts xs a Hx). rewrite ?total_app. lia.
  - pose proof (handler_pends t a Ht). lia.
  - unfold closed_once in *. rewrite field_update by done. lia.
  - lia.
  - lia.
  - change (closed_once a (take_all m).1) with (closed_once a m). lia.
  - exact IH.
Qed.

(** ** One live session for a conversation *)

(** A live session is in the map under its key, and so is a closed one that a task is
    about to remove ([F]). *)
Record table_ok (m : manager) (F : nat -> Prop) : Prop := mkTable {
  live_mapped a s : heap m !! a = Some s -> closed s = false -> sessions m !! ThreadKey s = Some a;
  gone_mapped a : F a -> exists s, heap m !! a = Some s /\ closed s = true /\ sessions m !! ThreadKey s = Some a
}.

Lemma table_weaken m (F F' : nat -> Prop) : (forall a, F' a -> F a) -> table_ok m F -> table_ok m F'.
Proof. intros HF [H1 H2]. split; [exact H1|]. intros a Ha. by apply H2, HF. Qed.

Lemma update_lookup g b m a s :
  heap (update g b m) !! a = Some s -> exists s0, heap m !! a = Some s0 /\ (s = s0 \/ s = g s0).
Proof.
  unfold update. cbn [heap]. destruct (decide (a = b)) as [->|Hne].
  - rewrite list_lookup_alter_eq. destruct (heap m !! b) as [s0|]; [|done]. intros [= <-]. eauto.
  - rewrite list_lookup_alter_ne by done. eauto.
Qed.

Lemma lookup_update g b m a s0 :
  heap m !! a = Some s0 -> heap (update g b m) !! a = Some (if (a =? b)%nat then g s0 else s0).
Proof.
  intros Ha. unfold update. cbn [heap]. destruct (Nat.eqb_spec a b) as [->|Hne].
  - by rewrite list_lookup_alter_eq, Ha.
  - by rewrite list_lookup_alter_ne.
Qed.

Lemma table_update g b m F :
  (forall s, ThreadKey (g s) = ThreadKey s) -> (forall s, closed (g s) = closed s) ->
  table_ok m F -> table_ok (update g b m) F.
Proof.
  intros Hk Hc [H1 H2]. split.
  - intros a s (s0 & Ha & [-> | ->])%update_lookup; [by apply H1|]. rewrite Hk, Hc. by apply H1.
  - intros a (s0 & Ha & Hcl & Hm)%H2. eexists. split; [by apply lookup_update|].
    destruct (a =? b)%nat; [by rewrite Hk, Hc|done].
Qed.

Lemma table_create c m m' a F : lookup_or_create c m = (m', a) -> table_ok m F -> table_ok m' F.
Proof.
  unfold lookup_or_create. set (k := if String.eqb _ _ then _ else _).
  destruct (sessions m !! k) as [b|] eqn:Ek; intros [= <- <-] HT; [done|]. destruct HT as [H1 H2]. split.
  - intros b s. cbn [heap sessions]. intros Hb Hc. destruct (decide (b < length (heap m))%nat) as [Hlt|Hge].
    + rewrite lookup_app_l in Hb by done. pose proof (H1 b s Hb Hc) as Hm.
      rewrite lookup_insert_ne by congruence. exact Hm.
    + rewrite lookup_app_r in Hb by lia. destruct (b - length (heap m))%nat eqn:E; [|done].
      injection Hb as <-. cbn [new_session ThreadKey]. rewrite lookup_insert_eq. f_equal. lia.
  - intros b (s & Hb & Hc & Hm)%H2. exists s. cbn [heap sessions].
    split_and!; [by apply lookup_app_l_Some|done|]. rewrite lookup_insert_ne by congruence. exact Hm.
Qed.

Lemma table_close a m m' F :
  markClosed a m = (m', true) -> table_ok m F -> table_ok m' (fun b => F b \/ b = a).
Proof.
  unfold markClosed, isClosed, field. destruct (heap m !! a) as [s|] eqn:Ha; [|discriminate].
  destruct (closed s) eqn:Hs; [discriminate|]. intros [= <-] [H1 H2]. split.
  - intros b t (t0 & Hb & [-> | ->])%update_lookup Hc; [by apply H1|discriminate].
  - intros b [Hb | ->].
    + apply H2 in Hb as (t & Hb & Hc & Hm). eexists. split; [by apply lookup_update|].
      destruct (b =? a)%nat; by cbn.
    + eexists. split; [by apply lookup_update|]. rewrite Nat.eqb_refl. cbn. split; [done|]. by apply H1.
Qed.

Lemma table_forget a m (F F' : nat -> Prop) :
  F a -> (forall b, F' b -> F b /\ b <> a) -> table_ok m F -> table_ok (forget a m) F'.
Proof.
  intros Ha HF [H1 H2]. destruct (H2 a Ha) as (s & Hs & Hcs & Hms). unfold forget, field. rewrite Hs. split.
  - intros b t Hb Hc. cbn [heap sessions] in *. pose proof (H1 b t Hb Hc) as Hm.
    rewrite lookup_delete_ne; [exact Hm|]. intros Ek. rewrite Ek in Hms. congruence.
  - intros b Hb. destruct (HF b Hb) as [Hb' Hne]. destruct (H2 b Hb') as (t & Ht & Hct & Hmt).
    exists t. cbn [heap sessions]. split_and!; [done|done|]. rewrite lookup_delete_ne; [exact Hmt|].
    intros Ek. rewrite Ek in Hms. congruence.
Qed.

(** Tasks of a shutdown. *)
Definition is_rest (t : task) : bool :=
  match t with ClosingRest _ | NotifyingRest _ _ | Stopping => true | _ => false end.

Definition quiet_ok (w : world) : Prop :=
  down w = false ->
  table_ok (mgr w) (fun a => Forgetting a ∈ tasks w) /\ Forall (fun t => is_rest t = false) (tasks w) /\
  captureStopped (rec_ w) = false /\ refused (rec_ w) = [].

(** What remains for a task to remove, when [t] has gone on to [ts]. *)
Lemma exec_table t m m' ts es l1 l2 :
  exec t m = (m', ts, es) -> is_rest t = false ->
  (forall a, (total (pends a) (l1 ++ t :: l2) <= 1)%nat) ->
  table_ok m (fun a => Forgetting a ∈ l1 ++ t :: l2) -> table_ok m' (fun a => Forgetting a ∈ l1 ++ ts ++ l2).
Proof.
  intros Hx Hr Hp HT.
  assert (forall ts', Forall (fun u => forall a, u <> Forgetting a) ts' -> forall a,
            Forgetting a ∈ l1 ++ ts' ++ l2 -> Forgetting a ∈ l1 ++ t :: l2) as Hsub.
  { intros ts' Hts a. rewrite !elem_of_app, elem_of_cons. intros [?|[Hin|?]]; [auto| |auto].
    rewrite Forall_forall in Hts. by destruct (Hts _ Hin a). }
  destruct t as [c c'|b c'|b c'|b c'|c'|b|b|b|b|b|b|l|b l|]; try discriminate Hr; cbn [exec] in Hx.
  - destruct (lookup_or_create c m) as [m1 b] eqn:E. injection Hx as <- <- <-. eapply table_create; [exact E|].
    eapply table_weaken; [|exact HT]. apply Hsub. by repeat constructor.
  - injection Hx as <- <- <-. apply table_update; [apply touchLocked_key|apply touchLocked_closed|].
    eapply table_weaken; [|exact HT]. apply Hsub. by repeat constructor.
  - injection Hx as <- <- <-. eapply table_weaken; [|exact HT]. apply Hsub. by repeat constructor.
  - injection Hx as <- <- <-. eapply table_weaken; [|exact HT]. apply Hsub.
    destruct (isClosed b m); by repeat constructor.
  - destruct (lookup_or_create c' m) as [m1 b] eqn:E. injection Hx as <- <- <-. eapply table_create; [exact E|].
    eapply table_weaken; [|exact HT]. apply Hsub. by repeat constructor.
  - injection Hx as <- <- <-. apply table_update; [apply touchLocked_key|apply touchLocked_closed|].
    eapply table_weaken; [|exact HT]. apply Hsub. by repeat constructor.
  - injection Hx as <- <- <-. apply table_update.
    + intros s. by rewrite touchLocked_key.
    + intros s. by rewrite touchLocked_closed.
    + eapply table_weaken; [|exact HT]. apply Hsub. by repeat constructor.
  - injection Hx as <- <- <-. eapply table_weaken; [|exact HT]. apply Hsub. by repeat constructor.
  - destruct (markClosed b m) as [m1 r] eqn:E. injection Hx as <- <- <-. destruct r.
    + eapply table_weaken; [|eapply table_close; [exact E|exact HT]].
      intros a. rewrite !elem_of_app, list_elem_of_singleton, elem_of_cons. intros [?|[[= ->]|?]]; auto.
    + assert (m1 = m) as -> by (unfold markClosed in E; destruct (isClosed b m); congruence).
      eapply table_weaken; [|exact HT]. apply Hsub. constructor.
  - injection Hx as <- <- <-. eapply table_forget; [| |exact HT].
    + rewrite elem_of_app, elem_of_cons. auto.
    + intros a Ha. split; [revert a Ha; apply Hsub; by repeat constructor|]. intros ->.
      specialize (Hp b). rewrite total_app in Hp. cbn [total pends] in Hp. rewrite Nat.eqb_refl in Hp.
      rewrite !elem_of_app, list_elem_of_singleton in Ha.
      assert (forall l, Forgetting b ∈ l -> (1 <= total (pends b) l)%nat) as Hpos.
      { intros l Hin. induction l as [|x l IHl]; [by apply elem_of_nil in Hin|]. cbn [total].
        apply elem_of_cons in Hin as [<-|Hin]; [cbn [pends]; rewrite Nat.eqb_refl; lia|apply IHl in Hin; lia]. }
      destruct Ha as [Ha|[Ha|Ha]]; [apply Hpos in Ha; lia|done|apply Hpos in Ha; lia].
  - injection Hx as <- <- <-. eapply table_weaken; [|exact HT]. apply Hsub. constructor.
Qed.

Lemma exec_quiet t m m' ts xs :
  exec t m = (m', ts, xs) -> is_rest t = false ->
  Forall (fun u => is_rest u = false) ts /\ CloseCapture ∉ xs.
Proof.
  destruct t as [c c'|b c'|b c'|b c'|c'|b|b|b|b|b|b|l|b l|]; cbn [exec]; try discriminate 2.
  all: repeat match goal with |- context [let '(_, _) := ?x in _] => destruct x as [? ?] end.
  all: intros [= <- <- <-] _; rewrite ?not_elem_of_cons.
  all: repeat match goal with |- context [if ?x then _ else _] => destruct x end;
    split_and?; first [by repeat constructor|by apply not_elem_of_nil|discriminate].
Qed.

Lemma performs_quiet ok r xs :
  CloseCapture ∉ xs -> captureStopped r = false -> refused r = [] ->
  captureStopped (performs ok r xs) = false /\ refused (performs ok r xs) = [].
Proof.
  unfold performs. revert r. induction xs as [|x xs IH]; intros r; cbn [foldl]; [done|].
  intros [Hx Hxs]%not_elem_of_cons Hs Hr. apply IH; [done|..]; destruct x as [e|]; try done;
    cbn [perform]; unfold appendEvent; rewrite Hs; by destruct ok.
Qed.

Lemma reachable_quiet w : reachable w -> quiet_ok w.
Proof.
  induction 1 as [|w w' Hw IH Hs]; [intros _; split_and!; [split; cbn|constructor|done|done]|].
  - intros a s. by rewrite lookup_nil.
  - intros a Ha. by apply elem_of_nil in Ha.
  - assert (forall a, (total (pends a) (tasks w) <= 1)%nat) as Hp.
    { intros a. pose proof (reachable_balance w a Hw) as Hb. unfold closed_once in Hb.
      destruct (field closed false a (mgr w)); cbn in Hb; lia. }
    unfold quiet_ok in *.
    destruct Hs as [ok t l1 l2 m m' ts xs r d Hx|t l1 l2 m r d Ht|b s m ts r d Hb Hs|c c' m ts r d|c' m ts r d|l m ts r d Hl|m ts r d];
      cbn [mgr tasks rec_ down] in *; intros Hd; [..|discriminate|]; destruct (IH Hd) as (HT & HR & Hst & Hrf); clear IH.
    + apply Forall_app in HR as [HR1 HR]. apply Forall_cons in HR as [Ht HR2].
      destruct (exec_quiet t m m' ts xs Hx Ht) as [Hts Hxs]. split.
      * by eapply exec_table.
      * rewrite !Forall_app. split; [done|]. by apply performs_quiet.
    + apply Forall_app in HR as [HR1 HR]. apply Forall_cons in HR as [_ HR2]. split; [|by rewrite Forall_app].
      eapply table_weaken; [|exact HT]. intros a. rewrite !elem_of_app, elem_of_cons. by intros [?|?]; auto.
    + split; [|split; [apply Forall_app; split; [done|by repeat constructor]|done]].
      apply table_update; [done|done|]. eapply table_weaken; [|exact HT]. intros a.
      rewrite elem_of_app, list_elem_of_singleton. by intros [?|?].
    + split; [|split; [apply Forall_app; split; [done|by repeat constructor]|done]].
      eapply table_weaken; [|exact HT]. intros a. rewrite elem_of_app, list_elem_of_singleton. by intros [?|?].
    + split; [|split; [apply Forall_app; split; [done|by repeat constructor]|done]].
      eapply table_weaken; [|exact HT]. intros a. rewrite elem_of_app, list_elem_of_singleton. by intros [?|?].
    + done.
Qed.

(** C22: in every interleaving of handlers, idle timers and shutdowns, with any append to
    the bundle failing, [onClose] is called at most once for a session, only when it is
    closed, and exactly once when it is closed and nothing is left to run ([notified]
    counts the calls: each is a close record in the bundle, or a failed append, or refused
    because capture is stopped). Until a shutdown none is refused, so a session that is
    closed then gets its one close record unless the append itself fails; the map leads the
    key of every session that is not closed to that session, and so two live sessions never
    have the same conversation. *)
Theorem sessions_close_once w :
  reachable w ->
  (forall a, (notified a w <= 1)%nat /\ (notified a w = 1%nat -> field closed false a (mgr w) = true) /\
     (tasks w = [] -> field closed false a (mgr w) = true -> notified a w = 1%nat)) /\
  (down w = false ->
     (forall a, refused_closes a w = 0%nat /\
        (tasks w = [] -> field closed false a (mgr w) = true -> failed_closes a w = 0%nat -> close_records a w = 1%nat)) /\
     (forall a s, heap (mgr w) !! a = Some s -> closed s = false -> sessions (mgr w) !! ThreadKey s = Some a) /\
     (forall a b s t, heap (mgr w) !! a = Some s -> heap (mgr w) !! b = Some t ->
        closed s = false -> closed t = false -> ThreadKey s = ThreadKey t -> a = b)).
Proof.
  intros Hw. split.
  - intros a. pose proof (reachable_balance w a Hw) as Hb. unfold closed_once in Hb. split_and!.
    + destruct (field closed false a (mgr w)); cbn in Hb; lia.
    + destruct (field closed false a (mgr w)); cbn in Hb; [done|lia].
    + intros Ht Hc. rewrite Ht, Hc in Hb. cbn in Hb. lia.
  - intros Hd. destruct (reachable_quiet w Hw Hd) as ([H1 _] & _ & _ & Hr). split_and!.
    + intros a. assert (refused_closes a w = 0%nat) as E by (unfold refused_closes; by rewrite Hr). split; [done|].
      intros Ht Hc Hf. pose proof (reachable_balance w a Hw) as Hb. unfold closed_once, notified in Hb.
      rewrite Ht, Hc, E, Hf in Hb. cbn in Hb. lia.
    + exact H1.
    + intros a b s t Ha Hb Hs Ht Hk. pose proof (H1 a s Ha Hs). pose proof (H1 b t Hb Ht). congruence.
Qed.

(** ** Runs *)

(** [Run i ok]: the task at [i] goes on. *)
Inductive choice := Run (i : nat) (ok : bool) | Fire (a : nat) | Arrive (c c' : call) | Shutdown.

Definition next (w : world) (ch : choice) : option world :=
  match ch with
  | Run i ok =>
      t ← tasks w !! i;
      let '(m, ts, xs) := exec t (mgr w) in
      Some (mkWorld m (take i (tasks w) ++ ts ++ drop (S i) (tasks w)) (performs ok (rec_ w) xs) (down w))
  | Fire a =>
      s ← heap (mgr w) !! a;
      if armed s then Some (mkWorld (update (set_timer false) a (mgr w)) (tasks w ++ [Closing a]) (rec_ w) (down w)) else None
  | Arrive c c' => Some (mkWorld (mgr w) (tasks w ++ [Requesting c c']) (rec_ w) (down w))
  | Shutdown => Some (mkWorld (take_all (mgr w)).1 (tasks w ++ [ClosingRest (take_all (mgr w)).2]) (rec_ w) true)
  end.

Definition run (chs : list choice) : option world := foldl (fun w ch => w ≫= (fun w => next w ch)) (Some start) chs.

Lemma next_step w ch w' : next w ch = Some w' -> step w w'.
Proof.
  destruct w as [m ts r d], ch as [i ok|a|c c'|]; cbn [next tasks mgr rec_ down].
  - destruct (ts !! i) as [t|] eqn:Ei; [|discriminate]. cbn [mbind option_bind].
    destruct (exec t m) as [[m' us] xs] eqn:Ex. intros [= <-]. rewrite <- (take_drop_middle ts i t Ei) at 1.
    by apply step_task.
  - destruct (heap m !! a) as [s|] eqn:Ea; [|discriminate]. cbn [mbind option_bind].
    destruct (armed s) eqn:Es; [|discriminate]. intros [= <-]. by eapply step_timer.
  - intros [= <-]. apply step_request.
  - intros [= <-]. by apply step_shutdown.
Qed.

Lemma run_reachable chs w : run chs = Some w -> reachable w.
Proof.
  revert w. induction chs as [|ch chs IH] using rev_ind; unfold run in *; intros w; [intros [= <-]; constructor|].
  rewrite foldl_snoc. destruct (foldl _ _ chs) as [w0|]; [|discriminate]. intros H.
  eapply reachable_step; [by apply IH|by eapply next_step].
Qed.

Definition conversation : call := mkCall "k" "id" "thread".
Abbreviation go i := (Run i true).

(** The shutdown closes a session between the check of [captureResponse] and the
    appending of the exchange: the exchange is recorded after the close record. *)
Example exchange_after_close :
  (fun w => log (rec_ w)) <$>
    run [Arrive conversation conversation; go 0; go 0; go 0; go 0; Shutdown; go 1; go 1; go 0; go 0]
  = Some [Observed 0; CloseRecord 0; Observed 0].
Proof. vm_compute. reflexivity. Qed.

(** A session that is closed while a shutdown holds it removes from the map the session
    that took its place: two live sessions have the same conversation. *)
Example two_live_sessions :
  match run [Arrive conversation conversation; go 0; go 0; Shutdown; Arrive conversation conversation; go 2;
             Fire 0; go 3; go 3; Arrive conversation conversation; go 4] with
  | Some w => (fun s => (ThreadKey s, closed s)) <$> heap (mgr w)
  | None => []
  end = [("thread", true); ("thread", false); ("thread", false)].
Proof. vm_compute. reflexivity. Qed.

(** The idle timer has closed a session and taken it from the map when the proxy is
    stopped: [Stop] does not wait for it, capture is stopped first, and the session is left
    without a close record. *)
Example late_close_is_refused :
  (fun w => (tasks w, log (rec_ w), refused (rec_ w), (fun s => closed s) <$> heap (mgr w))) <$>
    run [Arrive conversation conversation; go 0; go 0; go 0; go 0; go 0; go 0; Fire 0; go 0; go 0; Shutdown; go 1; go 1; go 0]
  = Some ([], [Observed 0; Observed 0], [CloseRecord 0], [true]).
Proof. vm_compute. reflexivity. Qed.

(** An append that fails can leave a closed session without a close record; the error of
    [onClose] is dropped. *)
Example failed_close :
  (fun w => (tasks w, log (rec_ w), failed (rec_ w), (fun s => closed s) <$> heap (mgr w))) <$>
    run [Arrive conversation conversation; go 0; go 0; go 0; go 0; go 0; go 0; Fire 0; go 0; go 0; Run 0 false]
  = Some ([], [Observed 0; Observed 0], [CloseRecord 0], [true]).
Proof. vm_compute. reflexivity. Qed.

(** The idle timer closes a session whose exchange was recorded. *)
Definition idle_close : list choice :=
  [Arrive conversation conversation; go 0; go 0; go 0; go 0; go 0; go 0; Fire 0; go 0; go 0; go 0].

Lemma run_default chs : reachable (default start (run chs)).
Proof. destruct (run chs) as [w|] eqn:E; [by eapply run_reachable|constructor]. Qed.

Lemma sessions_close_once_witness :
  close_records 0 (default start (run idle_close)) = 1%nat /\ notified 0 (default start (run idle_close)) = 1%nat.
Proof.
  destruct (sessions_close_once _ (run_default idle_close)) as [H1 H2]. split.
  - apply (proj2 (proj1 (H2 ltac:(vm_compute; reflexivity)) 0%nat)); vm_compute; reflexivity.
  - apply (proj2 (proj2 (H1 0%nat))); vm_compute; reflexivity.
Defined.
End Sessions.
