(* ===== verification/Forward.v ===== *)
(** * Package internal/proxy: forwarding and capture of an exchange

    [forward.go]: what the proxy appends for a request, its response, the tool calls in
    it and a rejected capture, and the two handlers, for plain HTTP and for a tunnel, that
    decide which of them happens. The recorder is an interface; the recorder of Capture.v
    is an instance. The transport (connections, TLS, the upstream) is an argument: what
    was read and which call failed.

    Theorems: in digest mode the recorder's state depends on bodies, headers and the API
    key only through digests, lengths and the fields the events name; the body budget is
    given back on every path; an exchange with a captured host always offers evidence to
    the recorder; and the actor of a captured request never depends on the configured
    identities. *)

From S2P Require Import Prelude GoText Sha256 GoFloat GoJson GoValue GoUnicode GoTime Event HashChain Bundle Identity ToolCalls ProxyEvents Sessions.

Module Forward.
Import Identity ToolCalls ProxyEvents Sessions.

(** ** The recorder *)

(** [AppendEventHash] of a recorder with state [R]. *)
Class Recorder (R E : Type) := append : R -> Event.t -> R * result E string.

(** A recorder that takes every event and remembers them. *)
#[global] Instance tracing : Recorder (list Event.t) unit := fun r ev => (r ++ [ev], Ok "").

(** ** Handlers *)

(** An observer of the records: the text of its error, if it fails. *)
Record Handler := mkHandler {
  HandleRequest_ : RequestRecord.t -> option string;
  HandleResponse_ : ResponseRecord.t -> option string
}.

(** Only logs: its context is never cancelled. *)
Definition LoggingHandler : Handler := mkHandler (fun _ => None) (fun _ => None).

(** The record is passed by value: the caller's keeps the identity it had. *)
Definition HandleRequest (cfg : ProxyConfig) (h : Handler) (rec : RequestRecord.t) : option string :=
  HandleRequest_ h (RequestRecord.set_identity (ResolveIdentity cfg (RequestRecord.APIKey rec)) rec).

Definition HandleResponse (cfg : ProxyConfig) (h : Handler) (rec : ResponseRecord.t) (apiKey : string) : option string :=
  HandleResponse_ h (ResponseRecord.set_identity (ResolveIdentity cfg apiKey) rec).

Definition actor_of (cfg : ProxyConfig) (apiKey : string) : string :=
  let actorID := DisplayName (ResolveIdentity cfg apiKey) in
  if String.eqb actorID "" && nonempty apiKey then FallbackDisplayName apiKey else actorID.

(** ** State and arguments *)

Record proxy (R : Type) := mkProxy { sessions_ : manager; recorder : R; inFlight : Z }.
Arguments mkProxy {R}.
Arguments sessions_ {R}.
Arguments recorder {R}.
Arguments inFlight {R}.

Record exchangeCorrelation := mkCorrelation {
  requestEventID : string;
  startedAt : option Z;
  sess : option nat
}.

Definition no_correlation : exchangeCorrelation := mkCorrelation "" None None.

(** The identifiers a call of [Resolve] would use, and the clock. *)
Record stamp := mkStamp { st_key : string; st_id : string; st_now : Z }.

Inductive failure (E : Type) := HandlerFails (text : string) | RecordFails (e : record_error) | AppendFails (e : E).
Arguments HandlerFails {E}.
Arguments RecordFails {E}.
Arguments AppendFails {E}.

Definition first_failure {E} (a b : option (failure E)) : option (failure E) :=
  match a with Some _ => a | None => b end.

Definition failed {E A} (r : result E A) : option (failure E) :=
  match r with Ok _ => None | Err e => Some (AppendFails e) end.

(** ** Events of an exchange *)

Definition tool_call_event (sessionID actorID : string) (ts : Z) (tc : ToolCall) : Event.t :=
  let data := [("session_id", AString sessionID); ("tool_name", AString (Name tc))] in
  let data := set_if (nonempty (InputDigest tc)) "tool_input_digest" (AString (InputDigest tc)) data in
  let data := set_if (nonempty actorID) "actor_id" (AString actorID) data in
  new_event TypeToolCall (RFC3339Nano ts) data.

Definition tool_error_event (sessionID : string) (ts : Z) (tre : ToolResultError) : Event.t :=
  let data := [("session_id", AString sessionID); ("action_id", AString (ToolUseID tre));
               ("error_class", AString "failed")] in
  let data := set_if (nonempty (DetailDigest tre)) "error_detail_digest" (AString (DetailDigest tre)) data in
  new_event TypeAIActionError (RFC3339Nano ts) data.

Section capture.
Context `{Unicode} {R E : Type} `{Recorder R E} (cfg : ProxyConfig) (h : Handler).

Definition append_all (r : R) (evs : list Event.t) : R := fold_left (fun r ev => (append r ev).1) evs r.

Definition recordToolCalls (sessionID : string) (body : bytes) (actorID : string) (ts : Z) (r : R) : R :=
  append_all r (tool_call_event sessionID actorID ts <$>
                List.filter (fun tc => nonempty (Name tc)) (ExtractToolCalls body)).

Definition recordToolResultErrors (sessionID : string) (ts : Z) (body : bytes) (r : R) : R :=
  append_all r (tool_error_event sessionID ts <$> ExtractToolResultErrors body).

Definition request_record (v : stamp) (sessionID host : string) (req : http_request) (body : bytes) : RequestRecord.t :=
  RequestRecord.mk sessionID (stripPort host) (r_Method req) (r_Path req) (ProviderFromHost host)
    (ParseModelFromBody body) (ExtractAPIKey (r_Header req)) (ScanHeaders (r_Header req)) body (st_now v) "" ""
    (CaptureBodies cfg).

Definition captureRequest (v : stamp) (host : string) (req : http_request) (body : bytes) (p : proxy R) :
    proxy R * exchangeCorrelation * option (failure E) :=
  let '(m, a) := Resolve (st_key v) (st_id v) (ExtractThreadKey host req body) (sessions_ p) in
  let rec_ := request_record v (field ID "" a m) host req body in
  let m := UpdateActorID (actor_of cfg (ExtractAPIKey (r_Header req))) a m in
  let stop r e := (mkProxy m r (inFlight p), no_correlation, Some e) in
  match HandleRequest cfg h rec_ with
  | Some text => stop (recorder p) (HandlerFails text)
  | None =>
      match RequestRecord.ToEvent rec_ with
      | Err e => stop (recorder p) (RecordFails e)
      | Ok ev =>
          let '(r, res) := append (recorder p) ev in
          let requestHash := match res with Ok h => h | Err _ => "" end in
          let r := recordToolResultErrors (field ID "" a m) (st_now v) body r in
          (mkProxy m r (inFlight p), mkCorrelation requestHash (Some (st_now v)) (Some a), failed res)
      end
  end.

(** What came from upstream. *)
Record http_response := mkResponse { StatusCode : Z; p_Header : Header; p_Body : bytes }.

Definition response_record (v : stamp) (sessionID host : string) (req : http_request) (resp : http_response)
    (model : string) (usage : Z * Z * Z) : ResponseRecord.t :=
  let '(prompt, output, tot) := usage in
  ResponseRecord.mk sessionID (stripPort host) (r_Method req) (r_Path req) (ProviderFromHost host) model ""
    (StatusCode resp) (ScanHeaders (p_Header resp)) (p_Body resp) (st_now v) "" "" prompt output tot
    (CaptureBodies cfg).

(** The session of the request, unless there is none or it was closed. *)
Definition response_session (v : stamp) (host : string) (req : http_request) (corr : exchangeCorrelation)
    (m : manager) : manager * nat :=
  let fresh := Resolve (st_key v) (st_id v) (ExtractThreadKey host req []) m in
  match sess corr with
  | Some a => if isClosed a m then fresh else (m, a)
  | None => fresh
  end.

Definition captureResponse (v : stamp) (host : string) (req : http_request) (resp : http_response)
    (corr : exchangeCorrelation) (p : proxy R) : proxy R * option (failure E) :=
  let body := p_Body resp in
  let '(m, a) := response_session v host req corr (sessions_ p) in
  let usage := ParseUsageFromResponse body in
  let '(prompt, output, _) := usage in
  let parsed := ParseModelFromBody body in
  let model := if String.eqb parsed "" then field Model "" a m else parsed in
  let m := NoteExchange a model prompt output m in
  let apiKey := ExtractAPIKey (r_Header req) in
  let actorID := actor_of cfg apiKey in
  let m := UpdateActorID actorID a m in
  let rec_ := response_record v (field ID "" a m) host req resp model usage in
  let stop e := (mkProxy m (recorder p) (inFlight p), Some e) in
  match HandleResponse cfg h rec_ apiKey with
  | Some text => stop (HandlerFails text)
  | None =>
      match ResponseRecord.ToEvent rec_ with
      | Err e => stop (RecordFails e)
      | Ok responseEvent =>
          let '(r, res) := append (recorder p) responseEvent in
          let '(m, exchangeID) := NextExchangeID a m in
          let exchangeEvent :=
            match heap m !! a with
            | Some s =>
                new_event TypeExchangeComplete (RFC3339Nano (st_now v))
                  (ExchangeCompleteRecord s exchangeID (requestEventID corr) model prompt output
                     (CountToolCallsFromResponse body) (st_now v) (startedAt corr))
            | None => new_event TypeExchangeComplete (RFC3339Nano (st_now v)) []
            end in
          let '(r, res') := append r exchangeEvent in
          let r := recordToolCalls (field ID "" a m) body actorID (st_now v) r in
          (mkProxy m r (inFlight p), first_failure (failed res) (failed res'))
      end
  end.

Definition recordCaptureRejection (v : stamp) (host : string) (req : http_request) (direction reason : string)
    (limit observed : Z) (p : proxy R) : proxy R :=
  let '(m, a) := Resolve (st_key v) (st_id v) (ExtractThreadKey host req []) (sessions_ p) in
  let ev := CaptureRejectedEvent (st_now v) (field ID "" a m) host (r_Method req) (r_Path req) direction reason
              limit observed in
  mkProxy m (append (recorder p) ev).1 (inFlight p).

(** The close callback of the session manager. *)
Definition closeSession (v : stamp) (a : nat) (p : proxy R) : proxy R :=
  let '(m, closed_here) := markClosed a (sessions_ p) in
  if closed_here : bool then
    let m := forget a m in
    match heap m !! a with
    | Some s =>
        let ev := new_event TypeSessionClose (RFC3339Nano (st_now v)) (SessionCloseRecord (st_now v) s) in
        mkProxy m (append (recorder p) ev).1 (inFlight p)
    | None => mkProxy m (recorder p) (inFlight p)
    end
  else p.

(** ** The body budget *)

(** [semaphore.TryAcquire] *)
Definition acquireBodyBudget (maxBody : Z) (p : proxy R) : option (proxy R) :=
  let reservation := maxBody * 2 in
  if reservation <=? DefaultMaxInFlightBodyBytes - inFlight p
  then Some (mkProxy (sessions_ p) (recorder p) (inFlight p + reservation)) else None.

Definition releaseBudget (maxBody : Z) (p : proxy R) : proxy R :=
  mkProxy (sessions_ p) (recorder p) (inFlight p - maxBody * 2).

(** ** Plain HTTP *)

(** What the transport met: no connection or a failed write, a failed read, or a response
    whose body could or could not be read. *)
Inductive upstream := WriteFails | ReadFails | Responds (status : Z) (header : Header) (body : option bytes).

Record exchange := mkExchange {
  x_request : http_request;
  x_length : Z;               (** [ContentLength] *)
  x_body : option bytes;      (** [None]: reading fails *)
  x_upstream : upstream;
  x_stamp : stamp;            (** for the request *)
  x_response_stamp : stamp;
  x_reject_stamp : stamp
}.

Definition forbidden : Z := 403.

Definition reject (host : string) (x : exchange) (direction : string) (reason : string * Z) (p : proxy R) : proxy R :=
  recordCaptureRejection (x_reject_stamp x) host (x_request x) direction reason.1 (EffectiveMaxBodyBytes cfg) reason.2 p.

(** [handleHTTP] while it holds its share of the budget: the status the client gets. *)
Definition serveHTTP (host : string) (x : exchange) (p : proxy R) : proxy R * Z :=
  match ReadRequestBodyLimited (x_length x) (x_body x) (EffectiveMaxBodyBytes cfg) with
  | Err e => (reject host x "request" (classifyBodyReadError e) p, match e with ErrBodyTooLarge _ _ => 413 | _ => 400 end)
  | Ok body =>
      let '(p, corr, _) := captureRequest (x_stamp x) host (x_request x) body p in
      match x_upstream x with
      | Responds status header respBody =>
          match ReadBodyLimited respBody (EffectiveMaxBodyBytes cfg) with
          | Err e => (reject host x "response" (classifyBodyReadError e) p, 502)
          | Ok respBody =>
              let '(p, err) := captureResponse (x_response_stamp x) host (x_request x) (mkResponse status header respBody) corr p in
              match err with
              | None => (p, status)
              | Some _ => (reject host x "response" ("upstream_error", 0) p, 502)
              end
          end
      | _ => (reject host x "response" ("upstream_error", 0) p, 502)
      end
  end.

Definition handleHTTP (host : string) (x : exchange) (p : proxy R) : proxy R * Z :=
  if negb (IsTargetHost host (TargetHosts cfg)) then (p, forbidden)
  else
    match acquireBodyBudget (EffectiveMaxBodyBytes cfg) p with
    | None => (reject host x "request" ("memory_budget_exhausted", 0) p, 503)
    | Some p => let '(p, status) := serveHTTP host x p in (releaseBudget (EffectiveMaxBodyBytes cfg) p, status)
    end.

(** ** A tunnel *)

(** One turn of the loop: the status written to the client, if any, and whether the loop
    goes on. [written]: the response reached the client. *)
Definition tunnel_serve (host : string) (x : exchange) (written : bool) (p : proxy R) : proxy R * option Z * bool :=
  match ReadRequestBodyLimited (x_length x) (x_body x) (EffectiveMaxBodyBytes cfg) with
  | Err e => (reject host x "request" (classifyBodyReadError e) p,
              Some (match e with ErrBodyTooLarge _ _ => 413 | _ => 400 end), false)
  | Ok body =>
      let '(p, corr, _) := captureRequest (x_stamp x) host (x_request x) body p in
      match x_upstream x with
      | WriteFails => (reject host x "response" ("upstream_request_write_error", 0) p, None, false)
      | ReadFails => (reject host x "response" ("upstream_response_read_error", 0) p, None, false)
      | Responds status header respBody =>
          match ReadBodyLimited respBody (EffectiveMaxBodyBytes cfg) with
          | Err e => (reject host x "response" (classifyBodyReadError e) p, Some 502, false)
          | Ok respBody =>
              let '(p, _) := captureResponse (x_response_stamp x) host (x_request x) (mkResponse status header respBody) corr p in
              (p, Some status, written)
          end
      end
  end.

Definition tunnel_turn (host : string) (x : exchange) (written : bool) (p : proxy R) : proxy R * option Z * bool :=
  match acquireBodyBudget (EffectiveMaxBodyBytes cfg) p with
  | None => (reject host x "request" ("memory_budget_exhausted", 0) p, Some 503, false)
  | Some p =>
      let '(p, status, go_on) := tunnel_serve host x written p in
      (releaseBudget (EffectiveMaxBodyBytes cfg) p, status, go_on)
  end.

Fixpoint tunnel (host : string) (xs : list (exchange * bool)) (p : proxy R) : proxy R * list Z :=
  match xs with
  | [] => (p, [])
  | (x, written) :: rest =>
      let '(p, status, go_on) := tunnel_turn host x written p in
      let '(p, statuses) := if go_on : bool then tunnel host rest p else (p, []) in
      (p, match status with Some s => s :: statuses | None => statuses end)
  end.

(** A CONNECT request, to which [connect] is the request itself; [dialled]: the
    connection to the host was made. *)
Definition handleConnect (v : stamp) (host : string) (connect : http_request) (dialled : bool)
    (xs : list (exchange * bool)) (p : proxy R) : proxy R * list Z :=
  if negb (IsTargetHost host (TargetHosts cfg)) then (p, [forbidden])
  else if negb dialled then
    (recordCaptureRejection v host connect "response" "upstream_connect_error" (EffectiveMaxBodyBytes cfg) 0 p, [200])
  else
    let '(p, statuses) := tunnel host xs p in (p, 200 :: statuses).
End capture.

(** ** What the recorder can learn *)

(** Two request bodies the recorder cannot tell apart in digest mode: everything of a
    body that reaches it. *)
Record alike_request_body (b b' : bytes) : Prop := mkAlikeRequestBody {
  qb_digest : hex_sha256 b = hex_sha256 b';
  qb_length : length b = length b';
  qb_model : ParseModelFromBody b = ParseModelFromBody b';
  qb_thread : extractJSONField b "thread_id" = extractJSONField b' "thread_id";
  qb_errors : (fun e => (ToolUseID e, DetailDigest e)) <$> ExtractToolResultErrors b =
              (fun e => (ToolUseID e, DetailDigest e)) <$> ExtractToolResultErrors b'
}.

Record alike_response_body (b b' : bytes) : Prop := mkAlikeResponseBody {
  pb_digest : hex_sha256 b = hex_sha256 b';
  pb_length : length b = length b';
  pb_usage : ParseUsageFromResponse b = ParseUsageFromResponse b';
  pb_model : ParseModelFromBody b = ParseModelFromBody b';
  pb_count : CountToolCallsFromResponse b = CountToolCallsFromResponse b';
  pb_calls : (fun tc => (Name tc, InputDigest tc)) <$> ExtractToolCalls b =
             (fun tc => (Name tc, InputDigest tc)) <$> ExtractToolCalls b'
}.

Section views.
Context `{Unicode}.

(** The recorded headers, the headers that name a session, and of the API key whether
    there is one and whom it stands for. *)
Record alike_request (cfg : ProxyConfig) (req req' : http_request) : Prop := mkAlikeRequest {
  qv_method : r_Method req = r_Method req';
  qv_path : r_Path req = r_Path req';
  qv_remote : r_RemoteAddr req = r_RemoteAddr req';
  qv_headers : ScanHeaders (r_Header req) = ScanHeaders (r_Header req');
  qv_anthropic : TrimSpace (header_get (r_Header req) "Anthropic-Session-Id") =
                 TrimSpace (header_get (r_Header req') "Anthropic-Session-Id");
  qv_session : TrimSpace (header_get (r_Header req) "X-Session-Id") =
               TrimSpace (header_get (r_Header req') "X-Session-Id");
  qv_key : nonempty (ExtractAPIKey (r_Header req)) = nonempty (ExtractAPIKey (r_Header req'));
  qv_blank : blank (ExtractAPIKey (r_Header req)) = blank (ExtractAPIKey (r_Header req'));
  qv_actor : actor_of cfg (ExtractAPIKey (r_Header req)) = actor_of cfg (ExtractAPIKey (r_Header req'))
}.

Inductive alike_upstream : upstream -> upstream -> Prop :=
| alike_write : alike_upstream WriteFails WriteFails
| alike_read : alike_upstream ReadFails ReadFails
| alike_responds status hd hd' b b' :
    ScanHeaders hd = ScanHeaders hd' -> option_Forall2 alike_response_body b b' ->
    alike_upstream (Responds status hd b) (Responds status hd' b').

Record alike (cfg : ProxyConfig) (x x' : exchange) : Prop := mkAlike {
  xv_request : alike_request cfg (x_request x) (x_request x');
  xv_length : x_length x = x_length x';
  xv_body : option_Forall2 alike_request_body (x_body x) (x_body x');
  xv_upstream : alike_upstream (x_upstream x) (x_upstream x');
  xv_stamp : x_stamp x = x_stamp x';
  xv_response_stamp : x_response_stamp x = x_response_stamp x';
  xv_reject_stamp : x_reject_stamp x = x_reject_stamp x'
}.

Lemma recordBody_view data b b' :
  hex_sha256 b = hex_sha256 b' -> length b = length b' -> recordBody data b false = recordBody data b' false.
Proof.
  intros Hd Hl. unfold recordBody. destruct b as [|c b], b' as [|c' b']; try discriminate Hl; [done|].
  cbn [set_if]. by rewrite Hd, Hl.
Qed.

Lemma ApplyActor_key data id k k' :
  nonempty k = nonempty k' -> blank k = blank k' -> ApplyActor data id k = ApplyActor data id k'.
Proof. intros Hn Hb. unfold ApplyActor, FallbackDisplayName. by rewrite Hn, Hb. Qed.

Lemma tool_errors_view sid ts b b' :
  (fun e => (ToolUseID e, DetailDigest e)) <$> ExtractToolResultErrors b =
  (fun e => (ToolUseID e, DetailDigest e)) <$> ExtractToolResultErrors b' ->
  tool_error_event sid ts <$> ExtractToolResultErrors b = tool_error_event sid ts <$> ExtractToolResultErrors b'.
Proof.
  generalize (ExtractToolResultErrors b) (ExtractToolResultErrors b'). intros l.
  induction l as [|x l IH]; intros [|y l']; try discriminate; [done|]. intros E.
  cbn [fmap list_fmap] in *. injection E as Ei Ed El. f_equal; [|by apply IH]. unfold tool_error_event. by rewrite Ei, Ed.
Qed.

Section alike.
Context {R E : Type} `{Recorder R E} (cfg : ProxyConfig) (digest_mode : CaptureBodies cfg = false).
#[local] Abbreviation h := LoggingHandler.

Lemma request_event_view v host req req' b b' id :
  alike_request cfg req req' -> alike_request_body b b' ->
  RequestRecord.ToEvent (request_record cfg v id host req b) = RequestRecord.ToEvent (request_record cfg v id host req' b').
Proof.
  intros Hr Hb. destruct Hr as [Hm Hp Ha Hh H1 H2 Hk Hbl Hact]. destruct Hb as [Hd Hl Hmo Ht Hte]. unfold request_record, RequestRecord.ToEvent.
  cbn [RequestRecord.SessionID RequestRecord.Host RequestRecord.Method RequestRecord.Path RequestRecord.Provider
       RequestRecord.Model RequestRecord.APIKey RequestRecord.Headers RequestRecord.Body RequestRecord.RecordedAt
       RequestRecord.DisplayName RequestRecord.Email RequestRecord.CaptureBody].
  destruct (blank id); [done|]. destruct (blank (stripPort host)); [done|].
  rewrite digest_mode, Hm, Hp, Hh, Hmo, (recordBody_view _ b b' Hd Hl).
  by rewrite (ApplyActor_key _ _ (ExtractAPIKey (r_Header req)) (ExtractAPIKey (r_Header req')) Hk Hbl).
Qed.

Lemma captureRequest_view v host req req' b b' (p : proxy R) :
  alike_request cfg req req' -> alike_request_body b b' ->
  captureRequest cfg h v host req b p = captureRequest cfg h v host req' b' p.
Proof.
  intros Hr Hb. pose proof (fun id => request_event_view v host req req' b b' id Hr Hb) as Hev.
  destruct Hr as [Hm Hp Ha Hh H1 H2 Hk Hbl Hact], Hb as [Hd Hl Hmo Ht Hte].
  assert (ExtractThreadKey host req b = ExtractThreadKey host req' b') as Hthread.
  { unfold ExtractThreadKey. by rewrite H1, H2, Ht, Hp, Ha. }
  unfold captureRequest. rewrite Hthread. destruct (Resolve _ _ _ _) as [m a]. rewrite Hact. cbn [HandleRequest h HandleRequest_].
  rewrite Hev. destruct (RequestRecord.ToEvent _) as [ev|e]; [|done]. destruct (append _ ev) as [r res].
  unfold recordToolResultErrors. by rewrite (tool_errors_view _ _ b b').
Qed.

Lemma tool_events_view sid actor ts b b' :
  (fun tc => (Name tc, InputDigest tc)) <$> ExtractToolCalls b = (fun tc => (Name tc, InputDigest tc)) <$> ExtractToolCalls b' ->
  tool_call_event sid actor ts <$> List.filter (fun tc => nonempty (Name tc)) (ExtractToolCalls b) =
  tool_call_event sid actor ts <$> List.filter (fun tc => nonempty (Name tc)) (ExtractToolCalls b').
Proof.
  generalize (ExtractToolCalls b) (ExtractToolCalls b'). intros l. induction l as [|x l IH]; intros [|y l']; try discriminate; [done|].
  intros E0. cbn [fmap list_fmap List.filter] in *. injection E0 as En Ed El. rewrite En.
  destruct (nonempty (Name y)); [|by apply IH]. cbn [fmap list_fmap]. f_equal; [|by apply IH].
  unfold tool_call_event. by rewrite En, Ed.
Qed.

Lemma response_event_view v host req req' status hd hd' b b' id model u :
  alike_request cfg req req' -> ScanHeaders hd = ScanHeaders hd' -> alike_response_body b b' ->
  ResponseRecord.ToEvent (response_record cfg v id host req (mkResponse status hd b) model u) =
  ResponseRecord.ToEvent (response_record cfg v id host req' (mkResponse status hd' b') model u).
Proof.
  intros Hr Hhd Hb. destruct Hr as [Hm Hp Ha Hh H1 H2 Hk Hbl Hact], Hb as [Hd Hl Hu Hmo Hc Ht], u as [[pr ou] tot].
  unfold response_record, ResponseRecord.ToEvent.
  cbn [ResponseRecord.SessionID ResponseRecord.Host ResponseRecord.Method ResponseRecord.Path ResponseRecord.Provider
       ResponseRecord.Model ResponseRecord.Headers ResponseRecord.Body ResponseRecord.RecordedAt
       ResponseRecord.DisplayName ResponseRecord.Email ResponseRecord.CaptureBody ResponseRecord.StatusCode
       ResponseRecord.PromptTokens ResponseRecord.OutputTokens ResponseRecord.TotalTokens StatusCode p_Header p_Body].
  destruct (blank id); [done|]. destruct (blank (stripPort host)); [done|].
  by rewrite digest_mode, Hm, Hp, Hhd, (recordBody_view _ b b' Hd Hl).
Qed.

Lemma captureResponse_view v host req req' status hd hd' b b' corr (p : proxy R) :
  alike_request cfg req req' -> ScanHeaders hd = ScanHeaders hd' ->
  alike_response_body b b' ->
  captureResponse cfg h v host req (mkResponse status hd b) corr p =
  captureResponse cfg h v host req' (mkResponse status hd' b') corr p.
Proof.
  intros Hr Hhd Hb.
  pose proof (fun id model u => response_event_view v host req req' status hd hd' b b' id model u Hr Hhd Hb) as Hev.
  destruct Hr as [Hm Hp Ha Hh H1 H2 Hk Hbl Hact], Hb as [Hd Hl Hu Hmo Hc Ht].
  assert (ExtractThreadKey host req [] = ExtractThreadKey host req' []) as Hthread.
  { unfold ExtractThreadKey. by rewrite H1, H2, Hp, Ha. }
  unfold captureResponse, response_session. cbn [p_Body]. rewrite Hthread. destruct (match sess corr with Some _ => _ | None => _ end) as [m a].
  rewrite Hu, Hmo, Hact, Hc. destruct (ParseUsageFromResponse b') as [[pr ou] tt']. cbn [HandleResponse h HandleResponse_].
  rewrite Hev. destruct (ResponseRecord.ToEvent _) as [ev|e]; [|done]. destruct (append _ ev) as [r res].
  destruct (NextExchangeID _ _) as [m' xid]. destruct (append r _) as [r' res']. unfold recordToolCalls.
  by rewrite (tool_events_view _ _ _ b b').
Qed.

Lemma rejection_view v host req req' d reason limit observed (p : proxy R) :
  alike_request cfg req req' ->
  recordCaptureRejection v host req d reason limit observed p = recordCaptureRejection v host req' d reason limit observed p.
Proof.
  intros Hr. destruct Hr as [Hm Hp Ha Hh H1 H2 Hk Hbl Hact]. unfold recordCaptureRejection, ExtractThreadKey.
  by rewrite H1, H2, Hp, Ha, Hm.
Qed.
End alike.
End views.

Lemma readLimited_view (P : bytes -> bytes -> Prop) (b b' : option bytes) max :
  (forall x y, P x y -> length x = length y) -> option_Forall2 P b b' ->
  (exists e, readLimited b max = Err e /\ readLimited b' max = Err e) \/
  (exists x y, readLimited b max = Ok x /\ readLimited b' max = Ok y /\ P x y).
Proof.
  intros Hf Hb. unfold readLimited. destruct ((max <=? 0) || (MaxBodyBytesLimit <? max)); [left; eauto|].
  destruct Hb as [x y Hxy|]; [|left; eauto]. rewrite (Hf x y Hxy).
  destruct (max <? Z.of_nat (length y)); [left; eauto|right; eauto 10].
Qed.

Lemma read_request_view len (b b' : option bytes) max :
  option_Forall2 alike_request_body b b' ->
  (exists e, ReadRequestBodyLimited len b max = Err e /\ ReadRequestBodyLimited len b' max = Err e) \/
  (exists x y, ReadRequestBodyLimited len b max = Ok x /\ ReadRequestBodyLimited len b' max = Ok y /\
     alike_request_body x y).
Proof.
  intros Hb. unfold ReadRequestBodyLimited. destruct (effective_max max <? len); [left; eauto|].
  apply readLimited_view; [|done]. apply qb_length.
Qed.

Section served.
Context `{Unicode} {R E : Type} `{Recorder R E} (cfg : ProxyConfig) (digest_mode : CaptureBodies cfg = false).
#[local] Abbreviation h := LoggingHandler.

Lemma reject_view host x x' d reason (p : proxy R) :
  alike cfg x x' -> reject cfg host x d reason p = reject cfg host x' d reason p.
Proof. intros Ha. unfold reject. rewrite (xv_reject_stamp _ _ _ Ha). by apply (rejection_view cfg), xv_request. Qed.

(** A request read, and captured, alike. *)
Lemma request_read_view host x x' (p : proxy R) :
  alike cfg x x' ->
  (exists e, ReadRequestBodyLimited (x_length x) (x_body x) (EffectiveMaxBodyBytes cfg) = Err e /\
             ReadRequestBodyLimited (x_length x') (x_body x') (EffectiveMaxBodyBytes cfg) = Err e) \/
  (exists b b', ReadRequestBodyLimited (x_length x) (x_body x) (EffectiveMaxBodyBytes cfg) = Ok b /\
     ReadRequestBodyLimited (x_length x') (x_body x') (EffectiveMaxBodyBytes cfg) = Ok b' /\
     captureRequest cfg h (x_stamp x) host (x_request x) b p = captureRequest cfg h (x_stamp x') host (x_request x') b' p).
Proof.
  intros Ha. rewrite (xv_length _ _ _ Ha), (xv_stamp _ _ _ Ha).
  destruct (read_request_view (x_length x') _ _ (EffectiveMaxBodyBytes cfg) (xv_body _ _ _ Ha)) as [?|(b & b' & ? & ? & Hb)];
    [by left|right]. exists b, b'. split_and!; [done|done|]. apply captureRequest_view; [done|by apply xv_request|done].
Qed.

(** A response read, and captured, alike. *)
Lemma response_read_view host x x' status hd hd' rb rb' corr (p : proxy R) :
  alike cfg x x' -> ScanHeaders hd = ScanHeaders hd' -> option_Forall2 alike_response_body rb rb' ->
  (exists e, ReadBodyLimited rb (EffectiveMaxBodyBytes cfg) = Err e /\ ReadBodyLimited rb' (EffectiveMaxBodyBytes cfg) = Err e) \/
  (exists b b', ReadBodyLimited rb (EffectiveMaxBodyBytes cfg) = Ok b /\ ReadBodyLimited rb' (EffectiveMaxBodyBytes cfg) = Ok b' /\
     captureResponse cfg h (x_response_stamp x) host (x_request x) (mkResponse status hd b) corr p =
     captureResponse cfg h (x_response_stamp x') host (x_request x') (mkResponse status hd' b') corr p).
Proof.
  intros Ha Hhd Hb. rewrite (xv_response_stamp _ _ _ Ha).
  destruct (readLimited_view alike_response_body rb rb' (effective_max (EffectiveMaxBodyBytes cfg)) pb_length Hb)
    as [?|(b & b' & ? & ? & Hbb)]; [by left|right]. exists b, b'. split_and!; [done|done|].
  apply captureResponse_view; [done|by apply xv_request|done|done].
Qed.

Lemma serveHTTP_view host x x' (p : proxy R) :
  alike cfg x x' -> serveHTTP cfg h host x p = serveHTTP cfg h host x' p.
Proof.
  intros Ha. unfold serveHTTP.
  destruct (request_read_view host x x' p Ha) as [(e & -> & ->)|(b & b' & -> & -> & ->)]; [by rewrite (reject_view host x x')|].
  destruct (captureRequest _ _ _ _ _ _ _) as [[q corr] err].
  destruct (xv_upstream _ _ _ Ha) as [| |status hd hd' rb rb' Hhd Hrb]; try by rewrite (reject_view host x x').
  destruct (response_read_view host x x' status hd hd' rb rb' corr q Ha Hhd Hrb) as [(e & -> & ->)|(c & c' & -> & -> & ->)];
    [by rewrite (reject_view host x x')|].
  destruct (captureResponse _ _ _ _ _ _ _ _) as [q' [f|]]; by rewrite ?(reject_view host x x').
Qed.

Lemma tunnel_serve_view host x x' written (p : proxy R) :
  alike cfg x x' -> tunnel_serve cfg h host x written p = tunnel_serve cfg h host x' written p.
Proof.
  intros Ha. unfold tunnel_serve.
  destruct (request_read_view host x x' p Ha) as [(e & -> & ->)|(b & b' & -> & -> & ->)]; [by rewrite (reject_view host x x')|].
  destruct (captureRequest _ _ _ _ _ _ _) as [[q corr] err].
  destruct (xv_upstream _ _ _ Ha) as [| |status hd hd' rb rb' Hhd Hrb]; try by rewrite (reject_view host x x').
  destruct (response_read_view host x x' status hd hd' rb rb' corr q Ha Hhd Hrb) as [(e & -> & ->)|(c & c' & -> & -> & ->)];
    [by rewrite (reject_view host x x')|done].
Qed.
End served.

(** C20: in digest mode the recorder cannot tell alike exchanges apart: two exchanges that
    agree in the digests, the lengths and the named fields of their bodies, in the
    recorded headers and in whom the API key stands for leave the same state of proxy and
    recorder, and the client gets the same status, over plain HTTP and in a tunnel. *)
Theorem capture_is_private `{Unicode} {R E : Type} `{Recorder R E} cfg host x x' written (p : proxy R) :
  CaptureBodies cfg = false -> alike cfg x x' ->
  handleHTTP cfg LoggingHandler host x p = handleHTTP cfg LoggingHandler host x' p /\
  tunnel_turn cfg LoggingHandler host x written p = tunnel_turn cfg LoggingHandler host x' written p.
Proof.
  intros Hdig Ha. unfold handleHTTP, tunnel_turn. split; [destruct (negb _); [done|]|].
  all: destruct (acquireBodyBudget _ p) as [q|]; [|by rewrite (reject_view cfg host x x')].
  - by rewrite (serveHTTP_view cfg Hdig host x x').
  - by rewrite (tunnel_serve_view cfg Hdig host x x').
Qed.

(** An exchange with an API key and a cookie that a bundle must not contain. *)
Definition sample_header (key : string) : Header :=
  [("Authorization", ["Bearer " +:+ key]); ("Cookie", ["session=" +:+ key]); ("Content-Type", ["application/json"])].

Definition sample_config : ProxyConfig := mkConfig "127.0.0.1:0" ["api.openai.com"] "b.atb" [("sk-ann", "Ann")] None false 0 "".

Definition sample_response : bytes := J "{'model':'gpt','choices':[{'message':{'tool_calls':[{'function':{'name':'rm','arguments':'-rf'}}]}}]}".

Definition sample_exchange (key : string) : exchange :=
  mkExchange (mkRequest "POST" "/v1/chat" (sample_header key) "10.0.0.1:5000") (-1) (Some (J "{'model':'gpt'}"))
    (Responds 200 [("Content-Type", ["application/json"])] (Some sample_response))
    (mkStamp "" "sess-1" 1000000000) (mkStamp "" "sess-2" 2000000000) (mkStamp "" "sess-3" 3000000000).

Definition idle_proxy : proxy (list Event.t) := mkProxy NewSessionManager [] 0.

#[local] Existing Instance ascii_only.

Lemma capture_is_private_witness :
  handleHTTP sample_config LoggingHandler "api.openai.com" (sample_exchange "sk-one") idle_proxy =
  handleHTTP sample_config LoggingHandler "api.openai.com" (sample_exchange "sk-two") idle_proxy /\
  length (recorder (handleHTTP sample_config LoggingHandler "api.openai.com" (sample_exchange "sk-one") idle_proxy).1) = 4%nat.
Proof.
  split; [|vm_compute; reflexivity].
  refine (proj1 (capture_is_private sample_config "api.openai.com" (sample_exchange "sk-one") (sample_exchange "sk-two") true idle_proxy eq_refl _)).
  constructor; try reflexivity.
  - constructor; vm_compute; reflexivity.
  - constructor. constructor; reflexivity.
  - constructor; [reflexivity|]. constructor. constructor; reflexivity.
Defined.

(** ** Every exchange leaves evidence *)

Section evidence.
Context `{Unicode} (cfg : ProxyConfig) (h : Handler).
#[local] Abbreviation P := (proxy (list Event.t)).

(** [p'] is [p] after [evs] were offered to the recorder. *)
Definition offered (p p' : P) (evs : list Event.t) : Prop := recorder p' = recorder p ++ evs /\ inFlight p' = inFlight p.

Lemma append_all_traces (r evs : list Event.t) : append_all r evs = r ++ evs.
Proof.
  revert r. unfold append_all. induction evs as [|e evs IH]; intros r; [by rewrite app_nil_r|]. cbn [fold_left].
  rewrite IH. cbn. by rewrite <- app_assoc.
Qed.

Lemma captureRequest_offers v host req body (p : P) :
  exists evs, offered p (captureRequest cfg h v host req body p).1.1 evs.
Proof.
  unfold captureRequest, offered. destruct (Resolve _ _ _ _) as [m a].
  destruct (HandleRequest _ _ _); [exists []; by rewrite app_nil_r|].
  destruct (RequestRecord.ToEvent _) as [ev|e]; [|exists []; by rewrite app_nil_r].
  cbn [append tracing fst recorder inFlight]. unfold recordToolResultErrors. rewrite append_all_traces.
  eexists. rewrite <- app_assoc. by split.
Qed.

Lemma captureResponse_offers v host req resp corr (p : P) :
  exists evs, offered p (captureResponse cfg h v host req resp corr p).1 evs /\
    ((captureResponse cfg h v host req resp corr p).2 = None -> evs <> []).
Proof.
  unfold captureResponse, offered. destruct (response_session _ _ _ _ _) as [m a].
  destruct (ParseUsageFromResponse _) as [[prompt output] tot].
  destruct (HandleResponse _ _ _ _); [exists []; split; [by rewrite app_nil_r|done]|].
  destruct (ResponseRecord.ToEvent _) as [ev|e]; [|exists []; split; [by rewrite app_nil_r|done]].
  destruct (NextExchangeID _ _) as [m' xid]. cbn [append tracing fst snd recorder inFlight]. unfold recordToolCalls.
  rewrite append_all_traces. eexists. rewrite <- !app_assoc. split; [by split|done].
Qed.

Lemma rejection_offers v host req d reason limit observed (p : P) :
  exists ev, offered p (recordCaptureRejection v host req d reason limit observed p) [ev].
Proof. unfold recordCaptureRejection, offered. destruct (Resolve _ _ _ _) as [m a]. by eexists. Qed.

Lemma reject_offers host x d reason (p : P) : exists ev, offered p (reject cfg host x d reason p) [ev].
Proof. apply rejection_offers. Qed.

Lemma offered_trans p q r evs evs' : offered p q evs -> offered q r evs' -> offered p r (evs ++ evs').
Proof. unfold offered. intros [-> ->] [-> ->]. by rewrite <- app_assoc. Qed.

Lemma serveHTTP_offers host x (p : P) : exists evs, evs <> [] /\ offered p (serveHTTP cfg h host x p).1 evs.
Proof.
  unfold serveHTTP. destruct (ReadRequestBodyLimited _ _ _) as [body|e].
  2: { destruct (reject_offers host x "request" (classifyBodyReadError e) p) as [ev Hev]. by exists [ev]. }
  destruct (captureRequest_offers (x_stamp x) host (x_request x) body p) as [evs Hevs].
  destruct (captureRequest _ _ _ _ _ _ _) as [[q corr] err]. cbn [fst] in Hevs.
  assert (forall d reason, exists evs', evs' <> [] /\ offered p (reject cfg host x d reason q) evs') as Hrej.
  { intros d reason. destruct (reject_offers host x d reason q) as [ev Hev]. exists (evs ++ [ev]).
    split; [by destruct evs|by eapply offered_trans]. }
  destruct (x_upstream x) as [| |status hd rb]; [apply Hrej|apply Hrej|].
  destruct (ReadBodyLimited _ _) as [rb'|e]; [|apply Hrej].
  destruct (captureResponse_offers (x_response_stamp x) host (x_request x) (mkResponse status hd rb') corr q) as (evs' & Hevs' & Hne).
  destruct (captureResponse _ _ _ _ _ _ _ _) as [q' [f|]]; cbn [fst snd] in *.
  - destruct (reject_offers host x "response" ("upstream_error", 0) q') as [ev Hev]. exists ((evs ++ evs') ++ [ev]).
    split; [by destruct (evs ++ evs')|]. eapply offered_trans; [by eapply offered_trans|done].
  - exists (evs ++ evs'). split; [|by eapply offered_trans]. specialize (Hne eq_refl). by destruct evs.
Qed.
End evidence.

(** C21: whatever the handler, the bodies and the upstream do, a plain HTTP exchange with
    a captured host offers at least one event to the recorder and gives its share of the
    body budget back; with any other host nothing happens and the client is refused. *)
Theorem exchange_leaves_evidence `{Unicode} cfg h host x (p : proxy (list Event.t)) :
  if IsTargetHost host (TargetHosts cfg) then
    exists ev evs, recorder (handleHTTP cfg h host x p).1 = recorder p ++ ev :: evs /\
      inFlight (handleHTTP cfg h host x p).1 = inFlight p
  else handleHTTP cfg h host x p = (p, forbidden).
Proof.
  unfold handleHTTP. destruct (IsTargetHost _ _); cbn [negb]; [|done].
  destruct (acquireBodyBudget _ p) as [q|] eqn:Eq.
  - unfold acquireBodyBudget in Eq. destruct (_ <=? _); [|discriminate]. injection Eq as <-.
    destruct (serveHTTP_offers cfg h host x (mkProxy (sessions_ p) (recorder p) (inFlight p + EffectiveMaxBodyBytes cfg * 2)))
      as ([|ev evs] & Hne & Hr & Hi); [done|].
    destruct (serveHTTP _ _ _ _ _) as [q status]. cbn [fst recorder inFlight releaseBudget] in *. exists ev, evs. split; [done|lia].
  - destruct (reject_offers cfg host x "request" ("memory_budget_exhausted", 0) p) as (ev & Hr & Hi). by exists ev, [].
Qed.

(** ** Examples *)

Definition event_kinds (r : list Event.t) : list string := Event.Type_ <$> r.

Example captured_exchange :
  let p := (handleHTTP sample_config LoggingHandler "api.openai.com" (sample_exchange "sk-ann") idle_proxy).1 in
  event_kinds (recorder p) = [TypeLLMRequest; TypeLLMResponse; TypeExchangeComplete; TypeToolCall].
Proof. vm_compute. reflexivity. Qed.

(** The identity [sk-ann] is mapped to is in the session, not in the request event. *)
Example mapped_identity_is_not_recorded :
  let p := (handleHTTP sample_config LoggingHandler "api.openai.com" (sample_exchange "sk-ann") idle_proxy).1 in
  (ActorID <$> heap (sessions_ p), (fun e => match Event.Data e with AMap l => assoc "actor" l | _ => None end) <$> recorder p) =
  (["Ann"], [Some (AStringMap [("display_name", "unresolved")]); None; None; None]).
Proof. vm_compute. reflexivity. Qed.

Definition failing : Handler := mkHandler (fun _ => None) (fun _ => Some "refused").

(** A handler that refuses the response: a tunnel delivers it and records nothing of it;
    over plain HTTP the client gets an error that is recorded as the upstream's. *)
Example refused_response :
  let x := sample_exchange "sk-ann" in
  let t := tunnel_turn sample_config failing "api.openai.com" x true idle_proxy in
  let p := handleHTTP sample_config failing "api.openai.com" x idle_proxy in
  (event_kinds (recorder t.1.1), t.1.2) = ([TypeLLMRequest], Some 200) /\
  (event_kinds (recorder p.1), p.2) = ([TypeLLMRequest; TypeCaptureRejected], 502) /\
  (fun e => match Event.Data e with AMap l => assoc "reason" l | _ => None end) <$> last (recorder p.1) =
  Some (Some (AString "upstream_error")).
Proof. vm_compute. repeat split. Qed.
End Forward.
