(* ===== verification/SessionIndex.v ===== *)
(** * Package internal/sessionindex: the sessions of a bundle

    [sessionindex.go]: the events of a verified bundle are grouped into sessions, each
    with its actor, its times, the profile its events suggest with the grade of the
    assurance score, and the anomaly flags a reviewer is shown. Theorem: a bundle has one
    entry for each session in it, in order of appearance, and each flag is raised exactly
    when the events of the session, in their order, show its cause. *)

From S2P Require Import Prelude GoText Sha256 GoFloat GoJson GoValue GoStruct GoUnicode GoTime Canonicalize Event HashChain Bundle BundleIO BundleSign Profiles Policy Verify Score AnchorClassify Report Identity.

Module SessionIndex.
Import Bundle BundleSign Score AnchorClassify.

Definition profilePrivilegedToolAction : string := "atb.profile.privileged_tool_action".
Definition profileDataExport : string := "atb.profile.data_export".
Definition profilePolicyDecision : string := "atb.profile.policy_decision".
Definition profileHumanOverride : string := "atb.profile.human_override".
Definition profileRAG : string := "atb.profile.rag_answer".
Definition profileBackgroundJob : string := "atb.profile.background_automation".

(** [time.Time{}]: an instant is a number of nanoseconds from the Unix epoch. *)
Definition zero_time : Z := -62135596800 * 1000000000.
Definition IsZero (t : Z) : bool := t =? zero_time.

Record ActorSummary := mkActor { DisplayName : string; Email : string }.

Record SessionEntry := mkEntry {
  SessionID : string;
  Actor : ActorSummary;
  StartedAt : Z;
  ClosedAt : option Z;
  ExchangeCount : Z;
  InferredProfile : string;
  CASGrade : string;
  AnomalyFlags : list string;
  BundlePath : string
}.

Record LoadError := mkLoadError { Path : string; Reason : string }.

(** ** Fields of an event *)

(** The payload, if it is an object; nil otherwise. *)
Definition eventDataMap (e : Event.t) : list (string * any) :=
  match Event.Data e with AMap l => l | _ => [] end.

Definition stringField (data : list (string * any)) (key : string) : string :=
  match assoc key data with Some (AString value) => TrimSpace value | _ => "" end.

Definition intField (data : list (string * any)) (key : string) : option Z :=
  match assoc key data with
  | Some (AInt value) => Some value
  | Some (AFloat value) => Some (float_to_int value)
  | _ => None
  end.

Definition first_nonempty (values : list string) : string :=
  default "" (List.find (fun v => negb (String.eqb v "")) values).

Definition eventSessionID (e : Event.t) : string :=
  first_nonempty (stringField (eventDataMap e) <$> ["session_id"; "sessionId"]).

(** [filepath.Base] *)
Fixpoint drop_slashes (b : bytes) : bytes :=
  match b with c :: t => if bool_decide (c = "/"%char) then drop_slashes t else b | [] => [] end.

Fixpoint up_to_slash (b : bytes) : bytes :=
  match b with c :: t => if bool_decide (c = "/"%char) then [] else c :: up_to_slash t | [] => [] end.

Definition Base (path : string) : string :=
  if String.eqb path "" then "."
  else match reverse (up_to_slash (drop_slashes (reverse (B path)))) with [] => "/" | b => S_of b end.

(** [filepath.Ext]: from the last dot of the last element. *)
Fixpoint ext_of (rev : bytes) : option bytes :=
  match rev with
  | [] => None
  | c :: t => if bool_decide (c = "/"%char) then None
              else if bool_decide (c = "."%char) then Some [c] else (fun x => x ++ [c]) <$> ext_of t
  end.

Definition Ext (path : string) : string := S_of (default [] (ext_of (reverse (B path)))).

Definition TrimSuffix (s p : string) : string :=
  if prefix_of_bytes (reverse (B p)) (reverse (B s)) then S_of (take (length (B s) - length (B p)) (B s)) else s.

Definition sessionIDFromPath (path : string) : string :=
  let base := TrimSuffix (Base path) (Ext path) in
  if String.eqb (TrimSpace base) "" then "unknown" else base.

Example session_of_path :
  sessionIDFromPath "runs/a.atb/" = "a.atb" /\ sessionIDFromPath "runs/a.b.atb" = "a.b" /\
  sessionIDFromPath "x/.atb" = "unknown" /\ sessionIDFromPath "" = ".".
Proof. vm_compute. repeat split. Qed.

Definition SessionIDForEvent (e : Event.t) (bundlePath : string) : string :=
  if String.eqb (eventSessionID e) "" then sessionIDFromPath bundlePath else eventSessionID e.

Definition actorFromEvent (e : Event.t) : ActorSummary :=
  let data := eventDataMap e in
  let actorData := match assoc "actor" data with Some (AMap a) => a | _ => [] end in
  let name := first_nonempty [stringField actorData "display_name"; stringField data "actor.display_name"] in
  let email := first_nonempty [stringField actorData "email"; stringField data "actor.email"] in
  mkActor (if String.eqb name "" then match Event.ActorID e with Some id => TrimSpace id | None => "" end else name) email.

Fixpoint first_time (values : list string) : option Z :=
  match values with
  | [] => None
  | v :: rest =>
      match (if String.eqb (TrimSpace v) "" then None else parse_rfc3339 (B (TrimSpace v))) with
      | Some t => Some t
      | None => first_time rest
      end
  end.

Definition eventTime (e : Event.t) : option Z :=
  let data := eventDataMap e in
  first_time (Event.Timestamp e :: (stringField data <$> ["timestamp"; "started_at"; "closed_at"])).

Definition IsBundleLevelEvent (eventType : string) : bool :=
  existsb (String.eqb eventType)
    ["atb.bundle.manifest"; "atb.bundle.signature"; "atb.bundle.anchor"; "atb.snapshot"; "atb.capture.scope"].

(** ** Accumulating a session *)

Record accumulator := mkAcc {
  entry : SessionEntry;
  acc_events : list Event.t;
  hasClose : bool;
  approvalSeen : bool;
  toolWithoutApproval : bool;
  deniedActions : gset string;
  deniedThenExecuted : bool;
  actionFailed : bool
}.

(** [seenSession] is set with the first event: every accumulator has it. *)
Definition new_accumulator (sessionID bundlePath : string) : accumulator :=
  mkAcc (mkEntry sessionID (mkActor "" "") zero_time None 0 "" "" [] bundlePath) [] false false false ∅ false false.

Definition set_entry (f : SessionEntry -> SessionEntry) (a : accumulator) : accumulator :=
  mkAcc (f (entry a)) (acc_events a) (hasClose a) (approvalSeen a) (toolWithoutApproval a) (deniedActions a)
    (deniedThenExecuted a) (actionFailed a).

Definition set_started (t : Z) (e : SessionEntry) : SessionEntry :=
  mkEntry (SessionID e) (Actor e) t (ClosedAt e) (ExchangeCount e) (InferredProfile e) (CASGrade e) (AnomalyFlags e) (BundlePath e).
Definition set_closed (t : Z) (e : SessionEntry) : SessionEntry :=
  mkEntry (SessionID e) (Actor e) (StartedAt e) (Some t) (ExchangeCount e) (InferredProfile e) (CASGrade e) (AnomalyFlags e) (BundlePath e).
Definition set_actor (x : ActorSummary) (e : SessionEntry) : SessionEntry :=
  mkEntry (SessionID e) x (StartedAt e) (ClosedAt e) (ExchangeCount e) (InferredProfile e) (CASGrade e) (AnomalyFlags e) (BundlePath e).
Definition set_count (n : Z) (e : SessionEntry) : SessionEntry :=
  mkEntry (SessionID e) (Actor e) (StartedAt e) (ClosedAt e) n (InferredProfile e) (CASGrade e) (AnomalyFlags e) (BundlePath e).
Definition set_findings (profile grade : string) (flags : list string) (e : SessionEntry) : SessionEntry :=
  mkEntry (SessionID e) (Actor e) (StartedAt e) (ClosedAt e) (ExchangeCount e) profile grade flags (BundlePath e).

Definition is_type (t : string) (e : Event.t) : bool := String.eqb (Event.Type_ e) t.

Definition apply_time (e : Event.t) (a : accumulator) : accumulator :=
  match eventTime e with
  | None => a
  | Some ts =>
      let a := if IsZero (StartedAt (entry a)) || (ts <? StartedAt (entry a)) then set_entry (set_started ts) a else a in
      if is_type "atb.session.close" e then
        let a := set_entry (set_closed ts) a in
        mkAcc (entry a) (acc_events a) true (approvalSeen a) (toolWithoutApproval a) (deniedActions a)
          (deniedThenExecuted a) (actionFailed a)
      else a
  end.

Definition fill (old new : string) : string := if String.eqb old "" then new else old.

Definition apply_actor (e : Event.t) (a : accumulator) : accumulator :=
  let actor := actorFromEvent e in
  let known := Actor (entry a) in
  set_entry (set_actor (mkActor (fill (DisplayName known) (DisplayName actor)) (fill (Email known) (Email actor)))) a.

(** The actions a decision denies, and the action an execution reports. *)
Definition denied_action (e : Event.t) : option string :=
  if is_type "ai.policy.decision" e && String.eqb (stringField (eventDataMap e) "decision") "deny" then
    let id := stringField (eventDataMap e) "action_id" in
    if String.eqb id "" then None else Some id
  else None.

Definition executed_action (e : Event.t) : option string :=
  if is_type "ai.action.executed" e || is_type "ai.action.committed" e then
    let id := stringField (eventDataMap e) "action_id" in
    if String.eqb id "" then None else Some id
  else None.

Definition apply_type (e : Event.t) (a : accumulator) : accumulator :=
  let with_flags approval tool denied executed failed :=
    mkAcc (entry a) (acc_events a) (hasClose a) approval tool denied executed failed in
  if is_type "atb.exchange.complete" e then set_entry (set_count (wrap64 (ExchangeCount (entry a) + 1))) a
  else if is_type "atb.human.approval" e then
    with_flags true (toolWithoutApproval a) (deniedActions a) (deniedThenExecuted a) (actionFailed a)
  else if is_type "atb.tool.call" e then
    with_flags (approvalSeen a) (toolWithoutApproval a || negb (approvalSeen a)) (deniedActions a)
      (deniedThenExecuted a) (actionFailed a)
  else if is_type "atb.session.close" e then
    match intField (eventDataMap e) "exchange_count" with
    | Some count => set_entry (set_count count) a
    | None => a
    end
  else if is_type "ai.policy.decision" e then
    match denied_action e with
    | Some id => with_flags (approvalSeen a) (toolWithoutApproval a) ({[id]} ∪ deniedActions a) (deniedThenExecuted a) (actionFailed a)
    | None => a
    end
  else if is_type "ai.action.executed" e || is_type "ai.action.committed" e then
    match executed_action e with
    | Some id =>
        with_flags (approvalSeen a) (toolWithoutApproval a) (deniedActions a)
          (deniedThenExecuted a || bool_decide (id ∈ deniedActions a)) (actionFailed a)
    | None => a
    end
  else if is_type "ai.action.error" e then
    with_flags (approvalSeen a) (toolWithoutApproval a) (deniedActions a) (deniedThenExecuted a) true
  else a.

Definition applyEvent (a : accumulator) (e : Event.t) : accumulator := apply_type e (apply_actor e (apply_time e a)).

(** [acc.events = append(acc.events, e); applyEvent(acc, e)] *)
Definition observe (a : accumulator) (e : Event.t) : accumulator :=
  applyEvent (mkAcc (entry a) (acc_events a ++ [e]) (hasClose a) (approvalSeen a) (toolWithoutApproval a)
                (deniedActions a) (deniedThenExecuted a) (actionFailed a)) e.

Definition flag_if (c : bool) (f : string) : list string := if c then [f] else [].

Definition anomalyFlags (a : accumulator) : list string :=
  flag_if (toolWithoutApproval a) "tool_without_approval" ++
  flag_if (deniedThenExecuted a) "policy_denied_executed" ++
  flag_if (actionFailed a) "action_failed" ++
  flag_if (Identity.IsUnresolvedDisplayName (DisplayName (Actor (entry a)))) "unresolved_identity" ++
  flag_if (negb (hasClose a)) "session_not_closed".

(** The first event that decides, and otherwise what any event suggests. *)
Definition inferProfile (events : list Event.t) : string :=
  let any_type t := existsb (is_type t) events in
  if any_type "atb.tool.call" then profilePrivilegedToolAction
  else if any_type "atb.data.export" then profileDataExport
  else if any_type "ai.policy.decision" then profilePolicyDecision
  else if any_type "atb.human.override" then profileHumanOverride
  else if existsb (fun e => HasPrefix (Event.Type_ e) "ai.retrieval.") events then profileRAG
  else if existsb (fun e => HasPrefix (Event.Type_ e) "ai.job.") events then profileBackgroundJob
  else "".

(** ** Sessions of a bundle *)

(** [sessions] and [order]. *)
Record table := mkTable { sessions : gmap string accumulator; order : list string }.

Definition add_event (bundlePath : string) (t : table) (e : Event.t) : table :=
  if IsBundleLevelEvent (Event.Type_ e) then t
  else
    let sessionID := SessionIDForEvent e bundlePath in
    match sessions t !! sessionID with
    | Some a => mkTable (<[sessionID := observe a e]> (sessions t)) (order t)
    | None => mkTable (<[sessionID := observe (new_accumulator sessionID bundlePath) e]> (sessions t)) (order t ++ [sessionID])
    end.

Definition group (bundlePath : string) (b : bundle) : table :=
  fold_left (add_event bundlePath) (events b) (mkTable ∅ []).

Section index.
Context `{RangeOrder} `{Unicode} `{Crypto}.
Context (VerifyTokenDetailed : bytes -> bytes -> TokenVerification * option string).
Context (anchor_text : anchor_error -> string) (temporary : option string) (encode_text : string).
Context (policy_text : Policy.policy_error -> string) (verify_text : verify_failure -> string).
Context (type_name : any -> string) (json_text : string -> string).

Definition casGradeForProfile (bundlePath : string) (b : bundle) (profileID : string) : string :=
  match ProfileByID profileID with
  | None => ""
  | Some profile =>
      match Report.EvaluateBundle VerifyTokenDetailed anchor_text temporary encode_text policy_text verify_text
              type_name json_text (Report.mkConfig bundlePath b [Some profile] false false false false)
              (Report.mkOpts None false) None false with
      | Ok report => match Report.CAS report with Some cas => Grade cas | None => "" end
      | Err _ => ""
      end
  end.

Definition finish (bundlePath : string) (b : bundle) (a : accumulator) : SessionEntry :=
  let profile := inferProfile (acc_events a) in
  set_findings profile (casGradeForProfile bundlePath b profile) (anomalyFlags a) (entry a).

Definition entriesForBundle (bundlePath : string) (b : bundle) : list SessionEntry :=
  let t := group bundlePath b in
  omap (fun sessionID => finish bundlePath b <$> sessions t !! sessionID) (order t).

(** [filepath.Abs], which can fail, the verified bundle at a path with the text of the
    error, and whether the context is done at its nth test. *)
Context (Abs : string -> option string) (load : string -> result string bundle) (done_at : nat -> bool).

Definition absolutePath (path : string) : string := default path (Abs path).

Definition load_error_entry (path : string) : SessionEntry :=
  mkEntry (sessionIDFromPath path) (mkActor "" "") zero_time None 0 "" "" ["load_error"] (absolutePath path).

(** The loop of [BuildIndex]: the entries and the load errors so far, and whether it ran
    to the end. *)
Fixpoint index_bundles (n : nat) (paths : list string) (entries : list SessionEntry) (errors : list LoadError) :
    list SessionEntry * list LoadError * bool :=
  match paths with
  | [] => (entries, errors, true)
  | path :: rest =>
      if done_at n then (entries, errors, false)
      else
        match load path with
        | Err text =>
            index_bundles (S n) rest (entries ++ [load_error_entry path])
              (errors ++ [mkLoadError (absolutePath path) (TrimSpace text)])
        | Ok b =>
            if done_at (S n) then (entries, errors, false)
            else index_bundles (S (S n)) rest (entries ++ entriesForBundle (absolutePath path) b) errors
        end
  end.

Inductive index_error := ECancelled | ELoads (errors : list LoadError).

(** The entries, which are returned with an error as well. [sort.SliceStable] by
    descending start. *)
Definition started_after (x y : SessionEntry) : bool := StartedAt y <? StartedAt x.

Definition BuildIndex (paths : list string) : list SessionEntry * option index_error :=
  let '(entries, errors, complete) := index_bundles 0 paths [] [] in
  if complete : bool then
    (insertion_sort started_after entries, match errors with [] => None | _ => Some (ELoads errors) end)
  else (entries, Some ECancelled).

Definition ExtractLoadErrors (e : option index_error) : list LoadError :=
  match e with Some (ELoads errors) => errors | _ => [] end.
End index.

(** The entries of each actor, in the order of the entries and then by descending start. *)
Definition group_key (e : SessionEntry) : string :=
  let key := TrimSpace (DisplayName (Actor e)) in if String.eqb key "" then "unknown" else key.

Definition GroupByActor (entries : list SessionEntry) : gmap string (list SessionEntry) :=
  insertion_sort started_after <$>
  fold_left (fun m e => <[group_key e := default [] (m !! group_key e) ++ [e]]> m) entries ∅.

(** ** What an event changes *)

(** The parts of an accumulator the flags are made of. *)
Definition flag_state (a : accumulator) : bool * bool * gset string * bool * bool :=
  (approvalSeen a, toolWithoutApproval a, deniedActions a, deniedThenExecuted a, actionFailed a).

Definition who (a : accumulator) : string * string := (SessionID (entry a), DisplayName (Actor (entry a))).

Definition is_some {A} (x : option A) : bool := match x with Some _ => true | None => false end.

Lemma apply_time_state e a :
  flag_state (apply_time e a) = flag_state a /\ who (apply_time e a) = who a /\ acc_events (apply_time e a) = acc_events a /\
  hasClose (apply_time e a) = hasClose a || (is_type "atb.session.close" e && is_some (eventTime e)).
Proof.
  unfold apply_time. destruct (eventTime e) as [ts|]; [|by rewrite andb_false_r, orb_false_r].
  destruct (IsZero _ || _), (is_type _ e); cbn; by rewrite ?orb_true_r, ?orb_false_r.
Qed.

Lemma apply_actor_state e a :
  flag_state (apply_actor e a) = flag_state a /\ acc_events (apply_actor e a) = acc_events a /\
  hasClose (apply_actor e a) = hasClose a /\
  who (apply_actor e a) = ((who a).1, fill (who a).2 (DisplayName (actorFromEvent e))).
Proof. by unfold apply_actor. Qed.

Lemma is_type_excl t u e : is_type t e = true -> t <> u -> is_type u e = false.
Proof. unfold is_type. intros ->%String.eqb_eq Hne. by apply String.eqb_neq. Qed.

(** The types [applyEvent] distinguishes exclude each other. *)
Ltac exclude t :=
  match goal with
  | H : is_type t ?e = true |- context [is_type ?u ?e] => rewrite (is_type_excl t u e H) by done
  end.

Lemma is_some_iff {A} (x : option A) : is_some x = true <-> is_Some x.
Proof. destruct x; cbn; split; [by eauto|done|done|by intros [? ?]]. Qed.

Definition denied_by (e : Event.t) : gset string := match denied_action e with Some id => {[id]} | None => ∅ end.

Definition runs_denied (e : Event.t) (denied : gset string) : bool :=
  match executed_action e with Some id => bool_decide (id ∈ denied) | None => false end.

Lemma apply_type_state e a :
  who (apply_type e a) = who a /\ acc_events (apply_type e a) = acc_events a /\ hasClose (apply_type e a) = hasClose a /\
  flag_state (apply_type e a) =
  (approvalSeen a || is_type "atb.human.approval" e,
   toolWithoutApproval a || (is_type "atb.tool.call" e && negb (approvalSeen a)),
   denied_by e ∪ deniedActions a,
   deniedThenExecuted a || runs_denied e (deniedActions a),
   actionFailed a || is_type "ai.action.error" e).
Proof.
  assert (forall t, is_type t e = true -> t <> "ai.policy.decision" -> denied_by e = ∅) as Hd.
  { intros t Ht Hne. unfold denied_by, denied_action. by rewrite (is_type_excl t _ e Ht). }
  assert (forall t, is_type t e = true -> t <> "ai.action.executed" -> t <> "ai.action.committed" -> forall s, runs_denied e s = false) as Hr.
  { intros t Ht H1 H2 s. unfold runs_denied, executed_action.
    by rewrite (is_type_excl t "ai.action.executed" e Ht), (is_type_excl t "ai.action.committed" e Ht). }
  unfold apply_type, flag_state.
  destruct (is_type "atb.exchange.complete" e) eqn:E1.
  { repeat exclude "atb.exchange.complete". rewrite (Hd _ E1), (Hr _ E1) by done. cbn. by rewrite !orb_false_r, (left_id_L ∅ _). }
  destruct (is_type "atb.human.approval" e) eqn:E2.
  { repeat exclude "atb.human.approval". rewrite (Hd _ E2), (Hr _ E2) by done. cbn. by rewrite !orb_false_r, orb_true_r, (left_id_L ∅ _). }
  destruct (is_type "atb.tool.call" e) eqn:E3.
  { repeat exclude "atb.tool.call". rewrite (Hd _ E3), (Hr _ E3) by done. cbn. by rewrite !orb_false_r, (left_id_L ∅ _). }
  destruct (is_type "atb.session.close" e) eqn:E4.
  { repeat exclude "atb.session.close". rewrite (Hd _ E4), (Hr _ E4) by done.
    destruct (intField _ _); cbn; by rewrite !orb_false_r, (left_id_L ∅ _). }
  destruct (is_type "ai.policy.decision" e) eqn:E5.
  { repeat exclude "ai.policy.decision". rewrite (Hr _ E5) by done. unfold denied_by.
    destruct (denied_action e); cbn; by rewrite !orb_false_r, ?(left_id_L ∅ _). }
  assert (denied_by e = ∅) as Hd5 by (unfold denied_by, denied_action; by rewrite E5). rewrite Hd5.
  destruct (is_type "ai.action.executed" e || is_type "ai.action.committed" e) eqn:E6.
  { assert (is_type "ai.action.error" e = false) as E7.
    { apply orb_true_iff in E6 as [E6|E6]; by apply (is_type_excl _ _ e E6). }
    rewrite E7. unfold runs_denied.
    destruct (executed_action e); cbn; by rewrite !orb_false_r, (left_id_L ∅ _). }
  assert (forall s, runs_denied e s = false) as Hr6 by (intros s; unfold runs_denied, executed_action; by rewrite E6). rewrite Hr6.
  destruct (is_type "ai.action.error" e); cbn; by rewrite ?orb_false_r, ?orb_true_r, (left_id_L ∅ _).
Qed.

Lemma observe_state a e :
  who (observe a e) = ((who a).1, fill (who a).2 (DisplayName (actorFromEvent e))) /\
  acc_events (observe a e) = acc_events a ++ [e] /\
  hasClose (observe a e) = hasClose a || (is_type "atb.session.close" e && is_some (eventTime e)) /\
  flag_state (observe a e) =
  (approvalSeen a || is_type "atb.human.approval" e,
   toolWithoutApproval a || (is_type "atb.tool.call" e && negb (approvalSeen a)),
   denied_by e ∪ deniedActions a,
   deniedThenExecuted a || runs_denied e (deniedActions a),
   actionFailed a || is_type "ai.action.error" e).
Proof.
  unfold observe, applyEvent. set (a0 := mkAcc _ _ _ _ _ _ _ _).
  destruct (apply_time_state e a0) as (T1 & T2 & T3 & T4).
  destruct (apply_actor_state e (apply_time e a0)) as (A1 & A2 & A3 & A4).
  destruct (apply_type_state e (apply_actor e (apply_time e a0))) as (Y1 & Y2 & Y3 & Y4).
  rewrite Y1, Y2, Y3, Y4, A2, A3, A4, T2, T3, T4. split_and!; try done.
  assert (flag_state (apply_actor e (apply_time e a0)) = flag_state a) as E by (rewrite A1, T1; done).
  clearbody a0. clear - E. revert E. generalize (apply_actor e (apply_time e a0)). intros x E.
  unfold flag_state in E. by injection E as -> -> -> -> ->.
Qed.

(** ** What the flags say *)

Definition observed (sessionID bundlePath : string) (es : list Event.t) : accumulator :=
  fold_left observe es (new_accumulator sessionID bundlePath).

Lemma observed_snoc s p es e : observed s p (es ++ [e]) = observe (observed s p es) e.
Proof. unfold observed. by rewrite fold_left_app. Qed.

Definition first_name (es : list Event.t) : string := first_nonempty ((fun e => DisplayName (actorFromEvent e)) <$> es).

Lemma first_nonempty_snoc l x : first_nonempty (l ++ [x]) = fill (first_nonempty l) x.
Proof.
  unfold first_nonempty, fill. induction l as [|y l IH]; cbn.
  - by destruct (String.eqb_spec x "") as [->|].
  - destruct (String.eqb_spec y "") as [->|Hy]; cbn; [exact IH|]. by destruct (String.eqb_spec y "").
Qed.

(** An approval among the events. *)
Definition approved (es : list Event.t) : bool := existsb (is_type "atb.human.approval") es.

(** A tool call with no approval before it. *)
Definition unapproved_call (es : list Event.t) : Prop :=
  exists pre e post, es = pre ++ e :: post /\ is_type "atb.tool.call" e = true /\ approved pre = false.

(** An action that is reported as executed after a decision denied it. *)
Definition denied_run (es : list Event.t) : Prop :=
  exists pre e post d id, es = pre ++ e :: post /\ d ∈ pre /\ denied_action d = Some id /\ executed_action e = Some id.

Lemma split_snoc {A} (Q : list A -> A -> Prop) l x :
  (exists pre e post, l ++ [x] = pre ++ e :: post /\ Q pre e) <->
  (exists pre e post, l = pre ++ e :: post /\ Q pre e) \/ Q l x.
Proof.
  split.
  - intros (pre & e & post & E & HQ). destruct post as [|y post _] using rev_ind.
    + apply app_inj_tail in E as [-> ->]. by right.
    + rewrite app_comm_cons, app_assoc in E. apply app_inj_tail in E as [-> ->]. left. eauto.
  - intros [(pre & e & post & -> & HQ)|HQ].
    + exists pre, e, (post ++ [x]). by rewrite <- app_assoc.
    + by exists l, x, [].
Qed.

Lemma observed_state s p es :
  let a := observed s p es in
  who a = (s, first_name es) /\ acc_events a = es /\
  (hasClose a = true <-> exists e, e ∈ es /\ is_type "atb.session.close" e = true /\ is_Some (eventTime e)) /\
  approvalSeen a = approved es /\
  (toolWithoutApproval a = true <-> unapproved_call es) /\
  (forall id, id ∈ deniedActions a <-> exists d, d ∈ es /\ denied_action d = Some id) /\
  (deniedThenExecuted a = true <-> denied_run es) /\
  (actionFailed a = true <-> exists e, e ∈ es /\ is_type "ai.action.error" e = true).
Proof.
  cbn. induction es as [|e es IH] using rev_ind.
  { split_and!; try done.
    - split; [done|]. by intros (e & ?%elem_of_nil & _).
    - split; [done|]. by intros ([|x pre] & e & post & E & _).
    - intros id. split; [by intros ?%elem_of_empty|]. by intros (e & ?%elem_of_nil & _).
    - split; [done|]. by intros ([|x pre] & e & post & d & id & E & _).
    - split; [done|]. by intros (e & ?%elem_of_nil & _). }
  destruct IH as (IH1 & IH2 & IH3 & IH4 & IH5 & IH6 & IH7 & IH8).
  rewrite observed_snoc. destruct (observe_state (observed s p es) e) as (O1 & O2 & O3 & O4).
  unfold flag_state in O4. injection O4 as O4 O5 O6 O7 O8.
  rewrite O1, O2, O3, O4, O5, O6, O7, O8, IH1, IH2, IH4.
  assert (forall (Q : Event.t -> Prop), (exists x, x ∈ es ++ [e] /\ Q x) <-> (exists x, x ∈ es /\ Q x) \/ Q e) as Hex.
  { intros Q. setoid_rewrite elem_of_app. setoid_rewrite list_elem_of_singleton. clear. naive_solver. }
  split_and!; cbn [fst snd].
  - f_equal. unfold first_name. rewrite fmap_app. symmetry. apply (first_nonempty_snoc _ (DisplayName (actorFromEvent e))).
  - done.
  - rewrite orb_true_iff, andb_true_iff, IH3, Hex. by rewrite is_some_iff.
  - unfold approved. rewrite existsb_app. cbn. by rewrite orb_false_r.
  - rewrite orb_true_iff, andb_true_iff, negb_true_iff, IH5. unfold unapproved_call.
    by rewrite (split_snoc (fun pre e => is_type "atb.tool.call" e = true /\ approved pre = false)).
  - intros id. rewrite elem_of_union, IH6, Hex. unfold denied_by. destruct (denied_action e) as [id'|].
    + rewrite elem_of_singleton. clear. split; intros [H|H]; [right; by subst|by left|by right|left; congruence].
    + rewrite elem_of_empty. clear. split; [intros [[]|H]; by left|intros [H|H]; [by right|done]].
  - rewrite orb_true_iff, IH7. unfold denied_run.
    assert (forall l, (exists pre e post d id, l = pre ++ e :: post /\ d ∈ pre /\ denied_action d = Some id /\ executed_action e = Some id) <->
              (exists pre e post, l = pre ++ e :: post /\ exists d id, d ∈ pre /\ denied_action d = Some id /\ executed_action e = Some id)) as Hnest
      by (intros l; clear; naive_solver).
    rewrite !Hnest, (split_snoc (fun pre e => exists d id, d ∈ pre /\ denied_action d = Some id /\ executed_action e = Some id)).
    unfold runs_denied. destruct (executed_action e) as [id|].
    + rewrite bool_decide_eq_true, IH6. clear. split.
      * intros [H|(d & Hd & Hid)]; [by left|right; by exists d, id].
      * intros [H|(d & id' & Hd & Hid & [= <-])]; [by left|right; by exists d].
    + clear. split; [intros [H|H]; [by left|done]|]. intros [H|(d & id' & _ & _ & H)]; [by left|done].
  - by rewrite orb_true_iff, IH8, Hex.
Qed.

(** The cause of a flag in the events of a session. *)
Definition cause (f : string) (es : list Event.t) : Prop :=
  (f = "tool_without_approval" /\ unapproved_call es) \/
  (f = "policy_denied_executed" /\ denied_run es) \/
  (f = "action_failed" /\ exists e, e ∈ es /\ is_type "ai.action.error" e = true) \/
  (f = "unresolved_identity" /\ Identity.IsUnresolvedDisplayName (first_name es) = true) \/
  (f = "session_not_closed" /\ ~ exists e, e ∈ es /\ is_type "atb.session.close" e = true /\ is_Some (eventTime e)).

Lemma flag_if_elem c f g : f ∈ flag_if c g <-> c = true /\ f = g.
Proof.
  unfold flag_if. destruct c; [rewrite list_elem_of_singleton; naive_solver|].
  split; [by intros ?%elem_of_nil|naive_solver].
Qed.

Lemma flags_cause s p es f : f ∈ anomalyFlags (observed s p es) <-> cause f es.
Proof.
  destruct (observed_state s p es) as (H1 & _ & H3 & _ & H5 & _ & H7 & H8). unfold who in H1. injection H1 as _ H1.
  unfold anomalyFlags, cause. rewrite !elem_of_app, !flag_if_elem, negb_true_iff, H1, H5, H7, H8.
  assert (hasClose (observed s p es) = false <-> ~ exists e, e ∈ es /\ is_type "atb.session.close" e = true /\ is_Some (eventTime e)) as ->.
  { rewrite <- H3. by destruct (hasClose (observed s p es)). }
  clear. naive_solver.
Qed.

(** ** The sessions of a bundle *)

(** The events of a session, in the order of the bundle. *)
Definition in_session (path s : string) (e : Event.t) : bool :=
  negb (IsBundleLevelEvent (Event.Type_ e)) && String.eqb (SessionIDForEvent e path) s.

Definition session_events (path s : string) (es : list Event.t) : list Event.t := List.filter (in_session path s) es.

Lemma session_events_snoc path s es e :
  session_events path s (es ++ [e]) = session_events path s es ++ (if in_session path s e then [e] else []).
Proof. unfold session_events. rewrite List.filter_app. cbn. by destruct (in_session path s e). Qed.

Definition session_of (path s : string) (es : list Event.t) : option accumulator :=
  match session_events path s es with [] => None | l => Some (observed s path l) end.

(** An event of the session [s] comes before every event of the session [t]. *)
Definition appears_before (path s t : string) (es : list Event.t) : Prop :=
  exists pre e post, es = pre ++ e :: post /\ in_session path s e = true /\ session_events path t pre = [].

(** The table after the events: every session with its events, in order of appearance. *)
Record grouped (path : string) (es : list Event.t) (t : table) : Prop := mkGrouped {
  grouped_sessions s : sessions t !! s = session_of path s es;
  grouped_nodup : NoDup (order t);
  grouped_order s : s ∈ order t <-> session_events path s es <> [];
  grouped_first i j s s' : order t !! i = Some s -> order t !! j = Some s' -> (i < j)%nat -> appears_before path s s' es
}.

Lemma appears_before_snoc path s t es e : appears_before path s t es -> appears_before path s t (es ++ [e]).
Proof. intros (pre & x & post & -> & Hx & Hp). exists pre, x, (post ++ [e]). by rewrite <- app_assoc. Qed.

(** A session with events comes before one that has none yet. *)
Lemma appears_before_new path s t es :
  session_events path s es <> [] -> session_events path t es = [] -> appears_before path s t es.
Proof.
  unfold session_events. intros Hs Ht.
  assert (exists e, e ∈ es /\ in_session path s e = true) as (e & (pre & post & ->)%list_elem_of_split & He).
  { destruct (List.filter (in_session path s) es) as [|e l] eqn:E; [done|]. exists e.
    assert (In e (List.filter (in_session path s) es)) as [Hin Hi]%List.filter_In by (rewrite E; by left).
    split; [by apply list_elem_of_In|done]. }
  exists pre, e, post. split_and!; [done|done|]. rewrite List.filter_app in Ht. by apply app_eq_nil in Ht as [? _].
Qed.

Lemma session_of_snoc path s es e :
  session_of path s (es ++ [e]) =
  if in_session path s e then Some (observe (default (new_accumulator s path) (session_of path s es)) e)
  else session_of path s es.
Proof.
  unfold session_of. rewrite session_events_snoc. destruct (in_session path s e); [|by rewrite app_nil_r].
  destruct (session_events path s es) as [|x l]; [done|]. cbn [app default]. rewrite app_comm_cons.
  by rewrite observed_snoc.
Qed.

Lemma add_event_grouped path es t e : grouped path es t -> grouped path (es ++ [e]) (add_event path t e).
Proof.
  intros [Hs Hn Ho Hf]. unfold add_event. destruct (IsBundleLevelEvent (Event.Type_ e)) eqn:Eb.
  - assert (forall s, in_session path s e = false) as Hin by (intros s; unfold in_session; by rewrite Eb).
    split; [intros s|done|intros s|intros i j s s' Hi Hj Hij].
    + by rewrite session_of_snoc, Hin.
    + by rewrite session_events_snoc, Hin, app_nil_r.
    + apply appears_before_snoc. by apply (Hf i j).
  - set (id := SessionIDForEvent e path).
    assert (forall s, in_session path s e = String.eqb id s) as Hin by (intros s; unfold in_session; by rewrite Eb).
    assert (forall s, session_events path s (es ++ [e]) <> [] <-> session_events path s es <> [] \/ s = id) as Hne.
    { intros s. rewrite session_events_snoc, Hin. destruct (String.eqb_spec id s) as [<-|Hid].
      - split; [by right|]. intros _. by destruct (session_events path id es).
      - rewrite app_nil_r. split; [by left|]. intros [?| ->]; done. }
    destruct (sessions t !! id) as [a|] eqn:Ea.
    + split; cbn [sessions order]; [intros s|done|intros s|intros i j s s' Hi Hj Hij].
      * rewrite session_of_snoc, Hin. destruct (String.eqb_spec id s) as [<-|Hid].
        -- by rewrite lookup_insert_eq, <- Hs, Ea.
        -- by rewrite lookup_insert_ne, Hs.
      * rewrite Hne, Ho. split; [by left|]. intros [?| ->]; [done|].
        rewrite Hs in Ea. unfold session_of in Ea. by destruct (session_events path id es).
      * apply appears_before_snoc. by apply (Hf i j).
    + assert (session_events path id es = []) as Enil.
      { rewrite Hs in Ea. unfold session_of in Ea. by destruct (session_events path id es). }
      split; cbn [sessions order]; [intros s| |intros s|intros i j s s' Hi Hj Hij].
      * rewrite session_of_snoc, Hin. destruct (String.eqb_spec id s) as [<-|Hid].
        -- by rewrite lookup_insert_eq, <- Hs, Ea.
        -- by rewrite lookup_insert_ne, Hs.
      * apply NoDup_app. split_and!; [done| |apply NoDup_singleton]. intros s Hs' ->%list_elem_of_singleton. by apply Ho in Hs'.
      * rewrite elem_of_app, list_elem_of_singleton, Hne, Ho. done.
      * apply appears_before_snoc. apply lookup_snoc_Some in Hj as [[Hj Hl]|[-> <-]].
        -- apply (Hf i j); [|done|done]. by rewrite lookup_app_l in Hi by lia.
        -- rewrite lookup_app_l in Hi by done. apply appears_before_new; [|done]. apply Ho.
           by eapply list_elem_of_lookup_2.
Qed.

Lemma group_grouped path b : grouped path (events b) (group path b).
Proof.
  unfold group. induction (events b) as [|e es IH] using rev_ind.
  - split; [done|constructor| |done]. intros s. split; [by intros ?%elem_of_nil|done].
  - rewrite fold_left_app. by apply add_event_grouped.
Qed.

Section theorems.
Context `{RangeOrder} `{Unicode} `{Crypto}.
Context (VerifyTokenDetailed : bytes -> bytes -> TokenVerification * option string).
Context (anchor_text : anchor_error -> string) (temporary : option string) (encode_text : string).
Context (policy_text : Policy.policy_error -> string) (verify_text : verify_failure -> string).
Context (type_name : any -> string) (json_text : string -> string).

#[local] Abbreviation entries := (entriesForBundle VerifyTokenDetailed anchor_text temporary encode_text policy_text verify_text type_name json_text).
#[local] Abbreviation finished := (finish VerifyTokenDetailed anchor_text temporary encode_text policy_text verify_text type_name json_text).

(** The entries are the finished accumulators of the sessions. *)
Lemma entries_are_sessions path b :
  entries path b =
  (fun s => finished path b (observed s path (session_events path s (events b)))) <$> order (group path b).
Proof.
  destruct (group_grouped path b) as [Hs _ Ho _]. unfold entriesForBundle.
  assert (Forall (fun s => session_events path s (events b) <> []) (order (group path b))) as Hall
    by (rewrite Forall_forall; intros s; by rewrite Ho).
  clear Ho. induction Hall as [|s l Hne _ IH]; [done|]. cbn [omap list_omap fmap list_fmap]. rewrite Hs. unfold session_of.
  destruct (session_events path s (events b)) as [|e es] eqn:E; [done|]. cbn [fmap option_fmap option_map].
  by rewrite IH.
Qed.

(** C23: the index has one entry for each session of the bundle, in order of appearance (of
    two entries, the first one's session has an event before every event of the other's),
    and the entry raises a flag exactly when the events of that session, in their order, are
    its cause: a tool call with no approval before it, an action executed after its denial,
    an action error, a first named actor who is unresolved, no close event with a time. *)
Theorem flags_show_their_cause path b :
  NoDup (SessionID <$> entries path b) /\
  (forall s, s ∈ SessionID <$> entries path b <-> session_events path s (events b) <> []) /\
  (forall i j x y, entries path b !! i = Some x -> entries path b !! j = Some y -> (i < j)%nat ->
     appears_before path (SessionID x) (SessionID y) (events b)) /\
  Forall (fun en => forall f, f ∈ AnomalyFlags en <-> cause f (session_events path (SessionID en) (events b)))
    (entries path b).
Proof.
  destruct (group_grouped path b) as [_ Hn Ho Hf]. rewrite entries_are_sessions.
  assert (forall s, SessionID (finished path b (observed s path (session_events path s (events b)))) = s) as Hid.
  { intros s. destruct (observed_state s path (session_events path s (events b))) as (Hw & _). unfold who in Hw.
    exact (f_equal fst Hw). }
  assert (forall l : list string, SessionID <$> ((fun s => finished path b (observed s path (session_events path s (events b)))) <$> l) = l) as Hids.
  { induction l as [|s l IH]; [done|]. cbn [fmap list_fmap]. by rewrite Hid, IH. }
  rewrite Hids. split_and!; [exact Hn|exact Ho| |apply Forall_fmap, Forall_true; intros s; cbn [compose];
    rewrite Hid; intros f; apply flags_cause].
  intros i j x y (s & -> & Hi)%list_lookup_fmap_Some_1 (s' & -> & Hj)%list_lookup_fmap_Some_1 Hij.
  rewrite !Hid. by apply (Hf i j).
Qed.
End theorems.

(** ** The index over several bundles *)

Lemma started_after_asym x y : started_after x y = true -> started_after y x = false.
Proof. unfold started_after. lia. Qed.

Lemma BuildIndex_sorted `{RangeOrder} `{Unicode} `{Crypto} VTD at_ tmp enc pt vt tn jt Abs load done_at paths :
  let r := BuildIndex VTD at_ tmp enc pt vt tn jt Abs load done_at paths in
  r.2 = Some ECancelled \/ StronglySorted (le_of started_after) r.1.
Proof.
  cbn. unfold BuildIndex. destruct (index_bundles _ _ _ _ _ _ _ _ _ _ _ _ _ _ _) as [[entries errors] complete].
  destruct complete; [right|by left]. cbn [fst].
  apply insertion_sort_sorted; [apply started_after_asym|]. unfold le_of, started_after. intros. lia.
Qed.
End SessionIndex.
