(* ===== verification/Incident.v ===== *)
(** * Packages internal/incident and internal/identityevidence: the report of a session

    [findings.go] and [incident.go]: the flags of the session index as findings, each with
    the events that caused it, and the report of one session with its rows. The rendering
    to Markdown is not modelled. Theorem: the events located for a flag agree with the flag
    when the action identifiers and decisions carry no white space around them; with
    white space they do not. *)

From S2P Require Import Prelude GoText Sha256 GoFloat GoJson GoValue GoStruct GoUnicode GoTime Canonicalize Event HashChain Bundle BundleIO BundleSign Profiles Policy Verify Score AnchorClassify Report Identity SessionIndex.

Module Incident.
Import Bundle BundleSign Score AnchorClassify.
Import SessionIndex.

(** ** Identity evidence *)

Module IdentityEvidence.
Record Evidence := mkEvidence {
  EventType : string; Sequence : Z; IdentityProvider : string; Subject : string; AuthContext : string;
  AssertionType : string; AssertionDigest : string; RawEvidenceDigest : string; Verification : string
}.

Definition evidence_of (e : Event.t) : option Evidence :=
  match assoc "identity_evidence" (eventDataMap e) with
  | Some (AMap raw) =>
      let value := stringField raw in
      let x := mkEvidence (Event.Type_ e) (Event.Sequence e) (value "identity_provider") (value "subject")
                 (value "auth_context") (value "assertion_type") (value "assertion_digest")
                 (value "raw_evidence_digest") "caller_provided_unverified" in
      if existsb (String.eqb "") [IdentityProvider x; Subject x; AssertionType x; AssertionDigest x] then None else Some x
  | _ => None
  end.

(** A nil bundle has no records. *)
Definition Extract (b : bundle) : list Evidence := omap evidence_of (events b).

Definition Summary (e : Evidence) : string :=
  "caller-provided identity evidence: provider=" +:+ IdentityProvider e +:+ " subject=" +:+ Subject e +:+
  " assertion=" +:+ AssertionType e +:+ " digest=" +:+ AssertionDigest e.
End IdentityEvidence.

(** ** Findings *)

Record Finding := mkFinding {
  Flag : string; Severity : string; Title : string; Detail : string; Basis : string; f_SessionID : string;
  ProfileID : string; RuleID : string; Boundedness : string; WhatCanConclude : string; WhatCannotConclude : string;
  EventSeqs : list Z
}.

(** A missing payload, or one that is not an object, is the nil map. *)
Record scopedEvent := mkScoped { seq : Z; typ : string; data : list (string * any) }.

Record flagMeta := mkMeta { severity : string; title : string; detail : string; canConclude : string; cannotConclude : string }.

Definition flagExplanations : list (string * flagMeta) :=
  [("tool_without_approval", mkMeta "high" "Tool call with no preceding approval"
      "No matching earlier human approval exists in the captured session evidence for this tool call."
      "The captured evidence contains no earlier matching approval for the tool call."
      "ATB cannot conclude that no approval existed outside the captured evidence.");
   ("policy_denied_executed", mkMeta "critical" "Action executed after policy denial"
      "A captured policy decision denied an action with the same action_id before captured execution evidence was recorded."
      "The presented records bind a denial and later execution evidence to the same action_id."
      "ATB cannot determine from these records alone why execution followed the denial.");
   ("action_failed", mkMeta "medium" "Action error recorded"
      "An ai.action.error was recorded: an attempted action did not complete successfully. Review the error event for the failure class."
      "The producer recorded an action error in the captured evidence."
      "ATB cannot independently establish the underlying system state from the producer assertion alone.");
   ("unresolved_identity", mkMeta "medium" "Unresolved actor identity"
      "The session actor is an unattributed API key; the human or service principal behind it is not recorded, so actions cannot be attributed to a person."
      "The captured actor metadata does not resolve the API key to a person or service principal."
      "ATB cannot establish real-world identity from caller-supplied identifiers alone.");
   ("session_not_closed", mkMeta "low" "Session not closed"
      "No atb.session.close event was recorded. The capture may be truncated, interrupted, or the session may still be open — treat the event list as possibly incomplete."
      "No session-close event exists in the captured evidence."
      "ATB cannot distinguish an open session from uncaptured or lost close evidence.");
   ("load_error", mkMeta "high" "Bundle could not be verified"
      "The bundle failed to load or verify cleanly during indexing. Its contents may be unreliable."
      "ATB could not establish integrity for the presented bundle."
      "ATB cannot use an integrity failure to infer what was or was not captured.")].

(** [str]: unlike the field reader of the session index it does not trim. *)
Definition str (data : list (string * any)) (key : string) : string :=
  match assoc key data with Some (AString s) => s | _ => "" end.

(** [approvalSeen], [denied] and the triggers. *)
Record locator := mkLocator { seen : bool; denied : gset string; triggers : gmap string (list Z) }.

Definition add (flag : string) (s : Z) (l : locator) : locator :=
  mkLocator (seen l) (denied l) (<[flag := default [] (triggers l !! flag) ++ [s]]> (triggers l)).

Definition locate (l : locator) (e : scopedEvent) : locator :=
  let typed t := String.eqb (typ e) t in
  let id := str (data e) "action_id" in
  if typed "atb.human.approval" then mkLocator true (denied l) (triggers l)
  else if typed "atb.tool.call" then if seen l then l else add "tool_without_approval" (seq e) l
  else if typed "ai.policy.decision" then
    if String.eqb (str (data e) "decision") "deny" && negb (String.eqb id "")
    then mkLocator (seen l) ({[id]} ∪ denied l) (triggers l) else l
  else if typed "ai.action.executed" || typed "ai.action.committed" then
    if negb (String.eqb id "") && bool_decide (id ∈ denied l) then add "policy_denied_executed" (seq e) l else l
  else if typed "ai.action.error" then add "action_failed" (seq e) l
  else l.

Definition located (es : list scopedEvent) : locator := fold_left locate es (mkLocator false ∅ ∅).

Definition sort_ints : list Z -> list Z := insertion_sort Z.ltb.

Definition locateTriggers (es : list scopedEvent) : gmap string (list Z) := sort_ints <$> triggers (located es).

Definition finding_of (trigs : gmap string (list Z)) (flag : string) : Finding :=
  match assoc flag flagExplanations with
  | None =>
      mkFinding flag "unknown" flag "Flagged by the session index; no detailed explanation is registered for this flag."
        "session index anomaly flag" "" "" "" "inconclusive" "The session index emitted this anomaly flag."
        "No stronger conclusion is registered for this flag." []
  | Some meta =>
      mkFinding flag (severity meta) (title meta) (detail meta) "captured event sequence and session-index rule" "" ""
        ("session_index:" +:+ flag) "bounded" (canConclude meta) (cannotConclude meta) (default [] (trigs !! flag))
  end.

Definition buildFindings (flags : list string) (es : list scopedEvent) : list Finding :=
  map (finding_of (locateTriggers es)) flags.

Definition scope (e : Event.t) : scopedEvent := mkScoped (Event.Sequence e) (Event.Type_ e) (eventDataMap e).

Definition set_session (s p : string) (f : Finding) : Finding :=
  mkFinding (Flag f) (Severity f) (Title f) (Detail f) (Basis f) s p (RuleID f) (Boundedness f) (WhatCanConclude f)
    (WhatCannotConclude f) (EventSeqs f).

Definition finding_less (x y : Finding) : bool :=
  if String.eqb (f_SessionID x) (f_SessionID y) then string_ltb (Flag x) (Flag y)
  else string_ltb (f_SessionID x) (f_SessionID y).

(** [Abs]: [filepath.Abs], which can fail. *)
Section findings.
Context (Abs : string -> option string).

Definition nonempty (s : string) : bool := negb (String.eqb s "").

(** The session is of another bundle. *)
Definition other_bundle (bundlePath : string) (session : SessionEntry) : bool :=
  let loadedPath := if nonempty bundlePath then default "" (Abs bundlePath) else "" in
  if nonempty loadedPath && nonempty (BundlePath session) then
    match Abs (BundlePath session) with Some p => negb (String.eqb p loadedPath) | None => false end
  else false.

Definition session_findings (b : bundle) (bundlePath : string) (session : SessionEntry) : list Finding :=
  if other_bundle bundlePath session then []
  else
    let path := if nonempty bundlePath then bundlePath else BundlePath session in
    map (set_session (SessionID session) (InferredProfile session))
      (buildFindings (AnomalyFlags session) (scope <$> session_events path (SessionID session) (events b))).

(** A nil bundle has no findings. *)
Definition BuildBundleFindings (b : option bundle) (bundlePath : string) (sessions : list SessionEntry) : list Finding :=
  match b with
  | None => []
  | Some b => insertion_sort finding_less (mjoin (session_findings b bundlePath <$> sessions))
  end.
End findings.

Definition add_flags (m : gmap Z (list string)) (f : Finding) : gmap Z (list string) :=
  fold_left (fun m s => <[s := default [] (m !! s) ++ [Flag f]]> m) (EventSeqs f) m.

Definition triggeredFlagsBySeq (findings : list Finding) : gmap Z (list string) :=
  insertion_sort string_ltb <$> fold_left add_flags findings ∅.

(** ** The report *)

Record EventRow := mkRow { Seq : Z; Type_ : string; Timestamp : string; r_Hash : string; Summary : string }.

Record CaptureScope := mkScope { Targets : list string; CaptureMode : string; OutOfScope : string }.

Record report := mkReport {
  r_BundlePath : string;
  r_SessionID : string;
  Found : bool;
  IntegrityValid : bool;
  ChainHeadHash : string;
  Signatures : list SignatureProvenance;
  Capture : option CaptureScope;
  Session : option SessionEntry;
  Findings : list Finding;
  ReviewerIdentities : list IdentityEvidence.Evidence;
  Events : list EventRow
}.

Definition captureScopeFrom (e : Event.t) : option CaptureScope :=
  match Event.Data e with
  | AMap l =>
      let targets := match assoc "targets" l with
                     | Some (ASlice ts) => omap (fun t => match t with AString s => Some s | _ => None end) ts
                     | _ => []
                     end in
      Some (mkScope targets (str l "capture_mode") (str l "out_of_scope"))
  | _ => None
  end.

Definition principalSummary (l : list (string * any)) : string :=
  match assoc "principal" l with
  | Some (AMap p) =>
      let t := str p "type" in
      let id := str p "id_hash" in
      if Identity.blank t || Identity.blank id then ""
      else
        let label := "by " +:+ t +:+ ":" +:+ id in
        let obo := str p "on_behalf_of" in
        if Identity.blank obo then label else label +:+ " on_behalf_of " +:+ obo
  | _ => ""
  end.

(** A number of the payload; a [json.Number] does not occur in a loaded bundle. *)
Definition number (l : list (string * any)) (key : string) : option Z := intField l key.

Definition summarise (e : Event.t) : string :=
  let l := eventDataMap e in
  let get := stringField l in
  let typed t := is_type t e in
  if typed "ai.action.precommit" then
    let base := "action=" +:+ get "action_type" in
    let p := principalSummary l in if nonempty p then base +:+ " " +:+ p else base
  else if typed "ai.action.executed" then
    let base := "executed outcome=" +:+ get "execution_outcome" in
    let scope := get "effective_scope" in if nonempty scope then base +:+ " scope=" +:+ scope else base
  else if typed "atb.tool.call" then "tool=" +:+ get "tool_name"
  else if typed "ai.action.error" then "action=" +:+ get "action_id" +:+ " error_class=" +:+ get "error_class"
  else if typed "atb.llm.request" then TrimSpace (get "method" +:+ " " +:+ get "path")
  else if typed "atb.llm.response" then
    let s := TrimSpace (get "method" +:+ " " +:+ get "path") in
    match number l "status_code" with Some code => s +:+ " → " +:+ show_int code | None => s end
  else if typed "ai.policy.decision" then "decision=" +:+ get "decision"
  else if typed "ai.human.approval" then "approval=" +:+ get "approval_outcome"
  else if typed "atb.human.approval" then "approved=" +:+ get "approved_action_id"
  else if typed "atb.human.override" then
    let actionID := get "overridden_action_id" in
    if nonempty actionID then "override=" +:+ actionID else "human override"
  else if typed "atb.capture.scope" then "capture=" +:+ get "capture_mode"
  else if typed "data.export.executed" then
    let outcome := get "execution_outcome" in if nonempty outcome then "export outcome=" +:+ outcome else "export"
  else if typed "data.export.error" then
    let ec := get "error_class" in
    if nonempty ec then "export action=" +:+ get "action_id" +:+ " error_class=" +:+ ec else "export error"
  else if typed "atb.data.export" then
    let target := get "export_target" in if nonempty target then "export=" +:+ target else "export"
  else if typed "data.retention.policy_set" || typed "data.retention.policy_changed" then
    match number l "days" with Some days => "retention=" +:+ show_int days +:+ "d" | None => "retention policy" end
  else if typed "data.retention.enforced" then TrimSpace (get "operation" +:+ " outcome=" +:+ get "outcome")
  else "".

Definition row (r : Record_) : EventRow :=
  let e := Event_ r in mkRow (Event.Sequence e) (Event.Type_ e) (Event.Timestamp e) (Hash r) (summarise e).

(** The records that name the session; unlike the index, no fallback to the path. *)
Definition named (sessionID : string) (r : Record_) : bool := String.eqb (eventSessionID (Event_ r)) sessionID.

Definition identityEvidenceForSession (b : bundle) (sessionID : string) : list IdentityEvidence.Evidence :=
  let seqs := (fun r => Event.Sequence (Event_ r)) <$> List.filter (named sessionID) b in
  List.filter (fun x => existsb (Z.eqb (IdentityEvidence.Sequence x)) seqs) (IdentityEvidence.Extract b).

Inductive incident_error := ENoSession | ELoad (e : BundleIO.file_error).

(** [file]: what [Load] opens; [evaluated]: the report of the verifier; [index]: the
    session index of the bundle. *)
Definition Build (file : option BundleIO.reader) (evaluated : bundle -> option Report.Report)
    (index : list SessionEntry * option index_error) (bundlePath sessionID : string) : result incident_error report :=
  let sessionID := TrimSpace sessionID in
  if String.eqb sessionID "" then Err ENoSession
  else
    let? b := map_err ELoad (BundleIO.Load false file false) in
    let '(valid, signatures) :=
      match evaluated b with
      | Some r => (Report.ChainValid (Report.Integrity r), Report.Signatures r)
      | None => (is_ok (Verify b), [])
      end in
    let session := match index.2 with
                   | None => List.find (fun e => String.eqb (SessionID e) sessionID) index.1
                   | Some _ => None
                   end in
    let capture := last (omap (fun r => if is_type "atb.capture.scope" (Event_ r) then Some (captureScopeFrom (Event_ r)) else None) b) in
    let records := List.filter (named sessionID) b in
    let scoped := insertion_sort (fun x y => seq x <? seq y) ((fun r => scope (Event_ r)) <$> records) in
    Ok (mkReport bundlePath sessionID (match records with [] => false | _ => true end) valid
          (match last b with Some r => Hash r | None => "" end) signatures (default None capture) session
          (match session with Some s => buildFindings (AnomalyFlags s) scoped | None => [] end)
          (identityEvidenceForSession b sessionID)
          (insertion_sort (fun x y => Seq x <? Seq y) (row <$> records))).

(** One line of [NDJSON]: the value that is encoded. *)
Definition ndjson_line (r : report) (e : EventRow) : any :=
  let flags := match Session r with Some s => AnomalyFlags s | None => [] end in
  AMap [("session_id", AString (r_SessionID r)); ("seq", AInt (Seq e)); ("type", AString (Type_ e));
        ("timestamp", AString (Timestamp e)); ("summary", AString (Summary e)); ("record_hash", AString (r_Hash e));
        ("integrity_valid", ABool (IntegrityValid r)); ("anomaly_flags", ASlice (map AString flags));
        ("triggered_flags", ASlice (map AString (default [] (triggeredFlagsBySeq (Findings r) !! Seq e))))].

Definition NDJSON (r : report) : option bytes :=
  ls ← mapM (fun e => Marshal (ndjson_line r e)) (Events r);
  Some (mjoin ((fun l => l ++ [chr 10]) <$> ls)).

(** ** Located findings and flags *)

(** The fields that decide a denial carry no white space around them. *)
Definition trimmed (e : Event.t) : Prop :=
  Forall (fun key => str (eventDataMap e) key = stringField (eventDataMap e) key) ["decision"; "action_id"].

(** [e], after [pre], causes the flag. *)
Definition culprit (f : string) (pre : list Event.t) (e : Event.t) : Prop :=
  (f = "tool_without_approval" /\ is_type "atb.tool.call" e = true /\ approved pre = false) \/
  (f = "policy_denied_executed" /\ exists d id, d ∈ pre /\ denied_action d = Some id /\ executed_action e = Some id) \/
  (f = "action_failed" /\ is_type "ai.action.error" e = true).

Definition triggers_now (f : string) (l : locator) (e : Event.t) : bool :=
  (String.eqb f "tool_without_approval" && (is_type "atb.tool.call" e && negb (seen l))) ||
  (String.eqb f "policy_denied_executed" && runs_denied e (denied l)) ||
  (String.eqb f "action_failed" && is_type "ai.action.error" e).

Lemma add_lookup g s l f :
  triggers (add g s l) !! f = if String.eqb f g then Some (default [] (triggers l !! f) ++ [s]) else triggers l !! f.
Proof.
  unfold add. cbn [triggers]. destruct (String.eqb_spec f g) as [->|Hne]; [by rewrite lookup_insert_eq|].
  by rewrite lookup_insert_ne by congruence.
Qed.

Lemma locate_state l e :
  trimmed e ->
  seen (locate l (scope e)) = seen l || is_type "atb.human.approval" e /\
  denied (locate l (scope e)) = denied_by e ∪ denied l /\
  (forall f, triggers (locate l (scope e)) !! f =
     if triggers_now f l e then Some (default [] (triggers l !! f) ++ [Event.Sequence e]) else triggers l !! f).
Proof.
  intros Ht. unfold trimmed in Ht. apply Forall_cons in Ht as [Hdec Ht]. apply Forall_cons in Ht as [Hid _].
  assert (forall t, is_type t e = true -> t <> "ai.policy.decision" -> denied_by e = ∅) as Hd.
  { intros t Ht Hne. unfold denied_by, denied_action. by rewrite (is_type_excl t _ e Ht). }
  assert (forall t, is_type t e = true -> t <> "ai.action.executed" -> t <> "ai.action.committed" -> forall s, runs_denied e s = false) as Hr.
  { intros t Ht H1 H2 s. unfold runs_denied, executed_action.
    by rewrite (is_type_excl t "ai.action.executed" e Ht), (is_type_excl t "ai.action.committed" e Ht). }
  unfold locate, triggers_now. cbn [typ data seq scope]. rewrite Hdec, Hid.
  change (String.eqb (Event.Type_ e)) with (fun t => is_type t e). cbn beta.
  destruct (is_type "atb.human.approval" e) eqn:E2.
  { repeat exclude "atb.human.approval". rewrite (Hd _ E2), (Hr _ E2) by done. cbn.
    rewrite orb_true_r, (left_id_L ∅ _). split_and!; [done|done|]. intros f. by rewrite !andb_false_r. }
  rewrite orb_false_r. destruct (is_type "atb.tool.call" e) eqn:E3.
  { repeat exclude "atb.tool.call". rewrite (Hd _ E3), (Hr _ E3), (left_id_L ∅ _) by done.
    destruct (seen l) eqn:Es; cbn [negb andb]; (split_and!; [done|done|]); intros f; rewrite !andb_false_r, ?andb_true_r, ?orb_false_r; [done|].
    by rewrite add_lookup. }
  cbn [andb]. destruct (is_type "ai.policy.decision" e) eqn:E5.
  { repeat exclude "ai.policy.decision". rewrite (Hr _ E5) by done. unfold denied_by, denied_action. rewrite E5. cbn [andb].
    destruct (String.eqb _ "deny"), (String.eqb (stringField _ "action_id") ""); cbn; rewrite ?(left_id_L ∅ _);
      (split_and!; [done|done|]); intros f; by rewrite !andb_false_r. }
  assert (denied_by e = ∅) as Hd5 by (unfold denied_by, denied_action; by rewrite E5).
  rewrite Hd5, (left_id_L ∅ _). clear Hd5. destruct (is_type "ai.action.executed" e || is_type "ai.action.committed" e) eqn:E6.
  { assert (is_type "ai.action.error" e = false) as ->.
    { apply orb_true_iff in E6 as [E6|E6]; by apply (is_type_excl _ _ e E6). }
    unfold runs_denied, executed_action. rewrite E6.
    destruct (String.eqb (stringField _ "action_id") "") eqn:Ei; cbn [negb andb].
    - split_and!; [done|done|]. intros f. by rewrite !andb_false_r.
    - destruct (bool_decide _) eqn:Eb; (split_and!; [done|done|]); intros f; rewrite !andb_false_r, ?andb_true_r, !orb_false_r;
        [by rewrite add_lookup|done]. }
  assert (forall s, runs_denied e s = false) as Hr6 by (intros s; unfold runs_denied, executed_action; by rewrite E6).
  rewrite Hr6. destruct (is_type "ai.action.error" e); (split_and!; [done|done|]); intros f;
    rewrite !andb_false_r, ?andb_true_r; [by rewrite add_lookup|done].
Qed.

Lemma located_state es :
  Forall trimmed es ->
  let l := located (scope <$> es) in
  seen l = approved es /\
  (forall id, id ∈ denied l <-> exists d, d ∈ es /\ denied_action d = Some id) /\
  (forall f z, z ∈ default [] (triggers l !! f) <->
     exists pre e post, es = pre ++ e :: post /\ culprit f pre e /\ Event.Sequence e = z).
Proof.
  cbn. induction es as [|e es IH] using rev_ind; intros Ht.
  { split_and!; [done| |].
    - intros id. split; [by intros ?%elem_of_empty|]. by intros (d & ?%elem_of_nil & _).
    - intros f z. split; [by intros ?%elem_of_nil|]. by intros ([|x pre] & e & post & E & _). }
  apply Forall_app in Ht as [Ht He]. apply Forall_cons in He as [He _]. destruct (IH Ht) as (IH1 & IH2 & IH3). clear IH.
  unfold located in *. rewrite fmap_app, fold_left_app. cbn [fmap list_fmap fold_left].
  destruct (locate_state (fold_left locate (scope <$> es) (mkLocator false ∅ ∅)) e He) as (L1 & L2 & L3).
  rewrite L1, L2, IH1. set (l := fold_left locate (scope <$> es) (mkLocator false ∅ ∅)) in *. split_and!.
  - unfold approved. rewrite existsb_app. cbn. by rewrite orb_false_r.
  - intros id. rewrite elem_of_union, IH2. unfold denied_by. setoid_rewrite elem_of_app. setoid_rewrite list_elem_of_singleton.
    clear. destruct (denied_action e) as [id'|] eqn:Ed.
    + rewrite elem_of_singleton. split; [intros [->|(d & ? & ?)]; eauto|intros (d & [?| ->] & ?); [right; eauto|left; congruence]].
    + rewrite elem_of_empty. split; [intros [[]|(d & ? & ?)]; eauto|intros (d & [?| ->] & ?); [right; eauto|congruence]].
  - intros f z. rewrite L3.
    assert (triggers_now f l e = true <-> culprit f es e) as Hnow.
    { unfold triggers_now, culprit. rewrite !orb_true_iff, !andb_true_iff, !String.eqb_eq, negb_true_iff, IH1.
      assert (runs_denied e (denied l) = true <-> exists d id, d ∈ es /\ denied_action d = Some id /\ executed_action e = Some id) as ->.
      { unfold runs_denied. destruct (executed_action e) as [id|]; [|clear; naive_solver].
        rewrite bool_decide_eq_true, IH2. clear. naive_solver. }
      clear. naive_solver. }
    pose proof (split_snoc (fun pre e => culprit f pre e /\ Event.Sequence e = z) es e) as Hsplit.
    assert ((exists pre e0 post, es ++ [e] = pre ++ e0 :: post /\ culprit f pre e0 /\ Event.Sequence e0 = z) <->
            z ∈ default [] (triggers l !! f) \/ culprit f es e /\ Event.Sequence e = z) as ->.
    { rewrite IH3. exact Hsplit. }
    rewrite <- Hnow. destruct (triggers_now f l e).
    + cbn [from_option]. unfold id at 1. rewrite elem_of_app, list_elem_of_singleton. clear. naive_solver.
    + clear. naive_solver.
Qed.

Lemma locateTriggers_elem es f z :
  z ∈ default [] (locateTriggers es !! f) <-> z ∈ default [] (triggers (located es) !! f).
Proof.
  unfold locateTriggers. rewrite lookup_fmap. destruct (triggers (located es) !! f) as [l|]; [|done].
  cbn [fmap option_fmap option_map default]. unfold sort_ints. by rewrite insertion_sort_perm.
Qed.

(** The flags whose findings point at events. *)
Definition located_flags : list string := ["tool_without_approval"; "policy_denied_executed"; "action_failed"].

(** The events a finding lists are exactly the ones that cause its flag, and a flag that
    is caused by events has a finding with events, if the decisions and action identifiers
    of the session carry no white space around them. *)
Theorem findings_point_at_the_cause s p es :
  Forall trimmed es ->
  (forall f z, z ∈ EventSeqs (finding_of (locateTriggers (scope <$> es)) f) <->
     f ∈ located_flags /\ exists pre e post, es = pre ++ e :: post /\ culprit f pre e /\ Event.Sequence e = z) /\
  (forall f, f ∈ located_flags ->
     (f ∈ anomalyFlags (observed s p es) <-> EventSeqs (finding_of (locateTriggers (scope <$> es)) f) <> [])).
Proof.
  intros Ht. destruct (located_state es Ht) as (_ & _ & Hl).
  assert (forall f, EventSeqs (finding_of (locateTriggers (scope <$> es)) f) =
            if is_some (assoc f flagExplanations) then default [] (locateTriggers (scope <$> es) !! f) else []) as Hseqs.
  { intros f. unfold finding_of. by destruct (assoc f flagExplanations). }
  assert (forall f, f ∈ located_flags -> is_some (assoc f flagExplanations) = true) as Hknown.
  { apply Forall_forall. repeat constructor. }
  assert (forall f pre e, culprit f pre e -> f ∈ located_flags) as Hloc.
  { intros f pre e [[-> _]|[[-> _]|[-> _]]]; unfold located_flags; rewrite !elem_of_cons; auto. }
  assert (forall f z, z ∈ EventSeqs (finding_of (locateTriggers (scope <$> es)) f) <->
     f ∈ located_flags /\ exists pre e post, es = pre ++ e :: post /\ culprit f pre e /\ Event.Sequence e = z) as Helem.
  { intros f z. rewrite Hseqs. split.
    - destruct (is_some _); [|by intros ?%elem_of_nil]. rewrite locateTriggers_elem, Hl.
      intros (pre & e & post & E & Hc & Hz). split; [by eapply Hloc|eauto 6].
    - intros [Hf H]. rewrite (Hknown f Hf), locateTriggers_elem, Hl. exact H. }
  split; [exact Helem|]. intros f Hf. rewrite flags_cause.
  assert (cause f es <-> exists pre e post, es = pre ++ e :: post /\ culprit f pre e) as ->.
  { unfold located_flags in Hf. rewrite !elem_of_cons, elem_of_nil in Hf. unfold cause, culprit, unapproved_call, denied_run.
    assert ((exists e, e ∈ es /\ is_type "ai.action.error" e = true) <->
            exists pre e post, es = pre ++ e :: post /\ is_type "ai.action.error" e = true) as Herr.
    { split; [intros (e & (pre & post & E)%list_elem_of_split & He); eauto|].
      intros (pre & e & post & -> & He). exists e. split; [|done]. rewrite elem_of_app, elem_of_cons. auto. }
    rewrite Herr. clear - Hf. destruct Hf as [->|[->|[->|[]]]]; naive_solver. }
  split.
  - intros (pre & e & post & E & Hc) Hnil.
    assert (Event.Sequence e ∈ EventSeqs (finding_of (locateTriggers (scope <$> es)) f)) as Hin by (apply Helem; eauto 8).
    rewrite Hnil in Hin. by apply elem_of_nil in Hin.
  - intros Hne. destruct (EventSeqs _) as [|z zs] eqn:Ez; [done|].
    destruct (proj1 (Helem f z)) as [_ (pre & e & post & E & Hc & _)]; [rewrite Ez; apply list_elem_of_here|]. eauto.
Qed.

(** ** Examples *)

Definition sample_event (n : Z) (t : string) (l : list (string * string)) : Event.t :=
  Event.mk n "" t "" (AMap (map (fun kv => (kv.1, AString kv.2)) l)) None None None "2026-01-02T03:04:05Z" "" "" "" None.

(** A denied action that runs, and a tool call nobody approved. *)
Definition sample_session (decision : string) : list Event.t :=
  [sample_event 1 "ai.policy.decision" [("session_id", "s"); ("decision", decision); ("action_id", "a1")];
   sample_event 2 "atb.human.approval" [("session_id", "s")];
   sample_event 3 "ai.action.executed" [("session_id", "s"); ("action_id", "a1")];
   sample_event 4 "atb.tool.call" [("session_id", "s"); ("actor_id", "ann")]].

Example sample_flags :
  anomalyFlags (observed "s" "b" (sample_session "deny")) = ["policy_denied_executed"; "session_not_closed"].
Proof. vm_compute. reflexivity. Qed.

Lemma findings_point_at_the_cause_witness :
  3 ∈ EventSeqs (finding_of (locateTriggers (scope <$> sample_session "deny")) "policy_denied_executed").
Proof.
  apply (proj1 (findings_point_at_the_cause "s" "b" (sample_session "deny") ltac:(repeat constructor))).
  split; [vm_compute; apply list_elem_of_further, list_elem_of_here|].
  exists (take 2 (sample_session "deny")), (sample_event 3 "ai.action.executed" [("session_id", "s"); ("action_id", "a1")]),
    (drop 3 (sample_session "deny")).
  split; [reflexivity|]. split; [|reflexivity]. right. left. split; [reflexivity|].
  exists (sample_event 1 "ai.policy.decision" [("session_id", "s"); ("decision", "deny"); ("action_id", "a1")]), "a1".
  split; [apply list_elem_of_here|]. split; vm_compute; reflexivity.
Defined.

(** With white space after the decision the index raises the flag, and its finding points
    at no event. *)
Example flag_without_event :
  anomalyFlags (observed "s" "b" (sample_session "deny ")) = ["policy_denied_executed"; "session_not_closed"] /\
  EventSeqs (finding_of (locateTriggers (scope <$> sample_session "deny ")) "policy_denied_executed") = [].
Proof. vm_compute. split; reflexivity. Qed.

(** A session whose close event has no readable time counts as not closed. *)
Example close_without_time :
  anomalyFlags (observed "s" "b" [Event.mk 1 "" "atb.session.close" "" (AMap [("session_id", AString "s")]) None None None "yesterday" "" "" "" None])
  = ["session_not_closed"].
Proof. vm_compute. reflexivity. Qed.

Definition sample_records : bundle := map (fun e => mkRecord e "h" [] [] false) (sample_session "deny").

Example rows_of_session :
  match Build None (fun _ => None) ([], None) "b" "s" with Ok r => Found r | Err _ => false end = false /\
  (fun r => (Seq (row r), Summary (row r))) <$> sample_records =
  [(1, "decision=deny"); (2, "approved="); (3, "executed outcome="); (4, "tool=")].
Proof. vm_compute. split; reflexivity. Qed.
End Incident.
