(* ===== verification/Oversight.v ===== *)
(** * The parts of the capture path together

    What the intercept proxy records is read back by the session index and the incident
    packs. Theorem: whatever identities the proxy is configured with, a session that
    starts with a captured request of a caller with an API key is shown to the reviewer
    as one of an unresolved identity. *)

From S2P Require Import Prelude GoText Sha256 GoFloat GoJson GoValue GoStruct GoUnicode GoTime Canonicalize Event HashChain Bundle BundleIO Identity ToolCalls ProxyEvents Sessions Forward SessionIndex.

Module Oversight.
Import Canonicalize Identity ProxyEvents Sessions Forward.

(** ** The actor of a captured request *)

Lemma keyed_set {V} k (v : V) l : keyed l -> valid_utf8 (B k) = true -> keyed (assoc_set k v l).
Proof.
  intros [Hn Hv] Hk. split; [by apply assoc_set_keys|]. rewrite Forall_fmap in Hv |- *. rewrite Forall_forall in Hv |- *.
  intros x [->|Hx]%assoc_set_elem; [done|by apply Hv].
Qed.

Lemma keyed_set_if {V} c k (v : V) l : keyed l -> valid_utf8 (B k) = true -> keyed (set_if c k v l).
Proof. destruct c; [apply keyed_set|done]. Qed.

Lemma keyed_nil {V} : keyed (@nil (string * V)).
Proof. split; constructor. Qed.

Lemma keyed_cons {V} k (v : V) l : keyed l -> valid_utf8 (B k) = true -> k ∉ l.*1 -> keyed ((k, v) :: l).
Proof. intros [Hn Hv] Hk Hf. split; by constructor. Qed.

Lemma keyed_body l body raw : keyed l -> keyed (recordBody l body raw).
Proof.
  intros Hl. unfold recordBody. destruct body; [done|].
  apply keyed_set_if; [|done]. apply keyed_set; [|done]. by apply keyed_set.
Qed.

Lemma set_if_lookup {V} c k (v : V) l k' : k' <> k -> assoc k' (set_if c k v l) = assoc k' l.
Proof. intros Hk. destruct c; [|done]. cbn. rewrite assoc_set_lookup. by destruct (String.eqb_spec k' k). Qed.

Lemma recordBody_lookup l body raw k :
  k ∉ ["body"; "body_bytes"; "body_sha256"] -> assoc k (recordBody l body raw) = assoc k l.
Proof.
  rewrite !not_elem_of_cons. intros (H1 & H2 & H3 & _). unfold recordBody. destruct body; [done|].
  rewrite set_if_lookup by done. rewrite !assoc_set_lookup.
  destruct (String.eqb_spec k "body_bytes"), (String.eqb_spec k "body_sha256"); done.
Qed.


Lemma captured_actor `{Unicode} cfg v sid host req body ev :
  blank (ExtractAPIKey (r_Header req)) = false ->
  RequestRecord.ToEvent (request_record cfg v sid host req body) = Ok ev ->
  exists l, Event.Data ev = AMap l /\ keyed l /\ assoc "actor" l = Some (AStringMap [("display_name", UnresolvedDisplayName)]).
Proof.
  intros Hkey. unfold RequestRecord.ToEvent.
  destruct (blank (RequestRecord.SessionID _)); [done|]. destruct (blank (RequestRecord.Host _)); [done|]. intros Hev%Ok_inj. subst ev.
  cbn [request_record RequestRecord.SessionID RequestRecord.Host RequestRecord.Method RequestRecord.Path
    RequestRecord.Provider RequestRecord.Model RequestRecord.APIKey RequestRecord.Headers RequestRecord.Body
    RequestRecord.CaptureBody RequestRecord.DisplayName RequestRecord.Email new_event Event.Data].
  set (base := recordBody _ _ _).
  assert (keyed base /\ assoc "actor" base = None) as [Hb Ha].
  { subst base. split.
    - apply keyed_body. apply keyed_set_if; [|done]. apply keyed_set_if; [|done].
      repeat (apply keyed_cons; [|done|by apply (bool_decide_unpack _)]). apply keyed_nil.
    - rewrite recordBody_lookup by by apply (bool_decide_unpack _). by rewrite !set_if_lookup. }
  set (data := match ScanHeaders (r_Header req) with [] => base | h => assoc_set "headers" (AStringMap h) base end).
  assert (keyed data /\ assoc "actor" data = None) as [Hd Hn].
  { subst data. destruct (ScanHeaders _); [done|]. split; [by apply keyed_set|]. by rewrite assoc_set_lookup. }
  clearbody data. eexists. split; [reflexivity|]. unfold ApplyActor. rewrite Hn.
  assert (nonempty (ExtractAPIKey (r_Header req)) = true) as ->.
  { unfold nonempty. destruct (String.eqb_spec (ExtractAPIKey (r_Header req)) "") as [E|]; [|done]. by rewrite E in Hkey. }
  unfold FallbackDisplayName. rewrite Hkey. cbn. split; [by apply keyed_set|]. by rewrite assoc_set_lookup.
Qed.

(** Whatever identities the proxy is configured with and whatever its handler does, the
    request event it records for a caller with an API key names the actor "unresolved":
    every session that starts with the event read back is flagged unresolved_identity. *)
Theorem captured_identity_is_unresolved `{Unicode} cfg h v host req body (p : proxy (list Event.t)) :
  let q := captureRequest cfg h v host req body p in
  blank (ExtractAPIKey (r_Header req)) = false -> q.2 = None ->
  exists ev rest, recorder q.1.1 = recorder p ++ ev :: rest /\
    forall e s path es, redecode (Event.Data ev) = Some (Event.Data e) ->
      "unresolved_identity" ∈ SessionIndex.anomalyFlags (SessionIndex.observed s path (e :: es)).
Proof.
  cbv zeta. intros Hkey. unfold captureRequest. destruct (Resolve _ _ _ _) as [m a].
  destruct (HandleRequest _ _ _); [done|]. destruct (RequestRecord.ToEvent _) as [ev|] eqn:Hev; [|done].
  cbn [append tracing fst recorder]. intros _. exists ev. unfold recordToolResultErrors. rewrite append_all_traces.
  eexists. rewrite <- app_assoc. split; [reflexivity|]. intros e s path es He.
  destruct (captured_actor cfg v _ host req body ev Hkey Hev) as (l & Hl & Hk & Ha). rewrite Hl in He.
  destruct (BundleIO.redecode_map_inv l _ Hk He) as (m' & Hm & Hlook).
  apply SessionIndex.flags_cause. right. right. right. left. split; [done|].
  assert (SessionIndex.DisplayName (SessionIndex.actorFromEvent e) = UnresolvedDisplayName) as Hname.
  { unfold SessionIndex.actorFromEvent, SessionIndex.eventDataMap. rewrite Hm, (Hlook "actor"), Ha. reflexivity. }
  unfold SessionIndex.first_name. cbn [fmap list_fmap]. rewrite Hname. reflexivity.
Qed.

#[local] Existing Instance ascii_only.

(** The proxy of the example maps the key to Ann. *)
Lemma captured_identity_is_unresolved_witness :
  let req := x_request (sample_exchange "sk-ann") in
  let q := captureRequest sample_config LoggingHandler (mkStamp "" "sess-1" 1000000000) "api.openai.com" req [] idle_proxy in
  (DisplayName <$> resolveIdentity sample_config (ExtractAPIKey (r_Header req))) = Some "Ann" /\
  exists ev rest, recorder q.1.1 = ev :: rest /\
    forall e s path es, redecode (Event.Data ev) = Some (Event.Data e) ->
      "unresolved_identity" ∈ SessionIndex.anomalyFlags (SessionIndex.observed s path (e :: es)).
Proof.
  cbv zeta. split; [vm_compute; reflexivity|].
  refine (captured_identity_is_unresolved sample_config LoggingHandler (mkStamp "" "sess-1" 1000000000) "api.openai.com"
    (x_request (sample_exchange "sk-ann")) [] idle_proxy _ _); vm_compute; reflexivity.
Defined.
End Oversight.
