(* ===== verification/Agent.v ===== *)
(** * Package internal/agent: the local agent

    [bundle_file_manager.go], [capture_handlers.go], [session_meta.go], [session_id.go],
    [workspace_index.go], [workspace_handlers.go] and the routes of [server.go]: sessions that are
    opened, appended to and closed over HTTP, each with a bundle file below the data
    directory. The manager holds a mutex in every operation, so a run is a sequence of operations.
    Theorems: events that were acknowledged are in the file, whatever fails later; what the
    health check reports; and that two sessions on one path lose events. *)

From S2P Require Import Prelude GoText GoPath Sha256 GoFloat GoJson GoIndent GoValue GoUnicode GoTime GoStruct Canonicalize Event HashChain Bundle BundleIO Rooted.
Import Canonicalize HashChain Bundle BundleIO Rooted.

Module Agent.

Definition agentRawEventType : string := "ai.agent.event.recorded".
Definition sessionMetaFilename : string := "meta.json".

Record OpenParams := mkParams { ActorID : string; PurposeTag : string; ProfileID : string; p_BundlePath : string }.

Record PendingEvent := mkPending { EventType : string; Payload : string }.

(** Times are instants in nanoseconds. *)
Record fileSessionRecord := mkSession {
  params : OpenParams;
  bundlePath : string;
  s_bundle : bundle;
  eventCount : Z;
  createdAt : Z;
  closed : bool;
  closedAt : Z
}.

Inductive agent_error :=
| ErrSessionNotFound | ErrSessionClosed
| ERoot (text : string) | ESessionID | EPath (e : path_error) | EStat (text : string) | ELoadExisting (e : verified_error)
| ENewBundle (e : new_error) | ESaveNew (e : save_error) | EAppend (e : append_error) | ESave (e : save_error)
| ESaveOnClose (e : save_error) | EVerifyOnClose (e : verified_error) | EMetaEncode | EMetaWrite (s : stage).

(** The files, the sessions, the outcome of opening the data directory, once there is one, and
    the last durability failure. *)
Record manager := mkManager {
  disk : tree;
  sessions : gmap string fileSessionRecord;
  root : option (result string unit);
  lastErr : option agent_error
}.

Definition with_disk (d : tree) (m : manager) : manager := mkManager d (sessions m) (root m) (lastErr m).
Definition with_session (id : string) (s : fileSessionRecord) (m : manager) : manager :=
  mkManager (disk m) (<[id := s]> (sessions m)) (root m) (lastErr m).

Definition new_manager (d : tree) : manager := mkManager d ∅ None None.

(** What one operation meets outside: the data directory, randomness, the clock with the text that a new manifest bears, and
    the failures. *)
Record op_env := mkOpEnv {
  env_root : result string unit;
  env_id : option bytes;
  env_stat : option string;
  env_open_fails : bool;
  env_created : string;
  env_bundle_id : option bytes;
  env_now : Z;
  env_save : save_env;
  env_meta : save_env
}.

(** [recordHealthLocked]: errors about the session itself say nothing about durability. *)
Definition recordHealthLocked {A} (r : result agent_error A) (m : manager) : manager :=
  match r with
  | Err ErrSessionNotFound | Err ErrSessionClosed => m
  | Ok _ => mkManager (disk m) (sessions m) (root m) None
  | Err e => mkManager (disk m) (sessions m) (root m) (Some e)
  end.

Definition health_recorded {A} (mr : manager * result agent_error A) : manager * result agent_error A :=
  (recordHealthLocked mr.2 mr.1, mr.2).

Definition Health (m : manager) : option agent_error := lastErr m.

Definition openRoot (env : op_env) (m : manager) : manager * result agent_error unit :=
  let r := match root m with Some r => r | None => env_root env end in
  (mkManager (disk m) (sessions m) (Some r) (lastErr m), map_err ERoot r).

Definition newSessionID (random : option bytes) : result agent_error string :=
  match random with None => Err ESessionID | Some b => Ok ("sess_" +:+ S_of (hex_encode b)) end.

(** [time.Time{}] *)
Definition zero_time : Z := -62135596800 * 1000000000.

Definition manifestCreatedAt (b : bundle) : Z :=
  match b with
  | [] => zero_time
  | r :: _ =>
      if negb (String.eqb (Event.Type_ (Event_ r)) ManifestEventType) then zero_time
      else
        let ts := TrimSpace (Event.Timestamp (Event_ r)) in
        if String.eqb ts "" then zero_time else default zero_time (parse_rfc3339 (B ts))
  end.

Definition is_manifest (r : Record_) : bool := String.eqb (Event.Type_ (Event_ r)) ManifestEventType.

Definition nonManifestRecordCount (b : bundle) : Z := Z.of_nat (length (List.filter (fun r => negb (is_manifest r)) b)).

(** [filepath.Join("sessions", id, name)] *)
Definition session_path (id name : string) : string := Clean ("sessions/" +:+ id +:+ "/" +:+ name).

Definition appendOptionsForSession (p : OpenParams) : option AppendOptions :=
  let actorID := TrimSpace (ActorID p) in
  if String.eqb actorID "" then None else Some (mkOptions (Some actorID) None None "" "" "" "" None).

(** A payload that is not JSON is kept as it is. *)
Definition pendingEventData (event : PendingEvent) : any :=
  let source := ("source_event_type", AString (TrimSpace (EventType event))) in
  let payload := TrimSpace (Payload event) in
  AMap (if String.eqb payload "" then [source]
        else match json_parse (B payload) ≫= of_json with
             | None => [source; ("payload_raw", AString (Payload event))]
             | Some decoded => [source; ("payload", decoded)]
             end).

Section manager.
(** [filepath.Abs], and the data directory. *)
Context (Abs : string -> result string string) (dataDir : string).

Definition new_bundle (env : op_env) : result agent_error bundle :=
  map_err ENewBundle (NewWithOptions (env_created env) (env_bundle_id env) (mkNewOptions ManifestVersionV2 "")).

Definition resume (params : OpenParams) (bundlePath : string) (b : bundle) (eventCount createdAt : Z) : fileSessionRecord :=
  mkSession params bundlePath b eventCount createdAt false zero_time.

Definition OpenSession (env : op_env) (params : OpenParams) (m : manager) : manager * result agent_error string :=
  health_recorded (
    let '(m, opened) := openRoot env m in
    match opened with
    | Err e => (m, Err e)
    | Ok _ =>
        match newSessionID (env_id env) with
        | Err e => (m, Err e)
        | Ok id =>
            let requested := TrimSpace (p_BundlePath params) in
            let requested := if String.eqb requested "" then session_path id "bundle.atb" else requested in
            match RootedRelativePath Abs dataDir requested with
            | Err e => (m, Err (EPath e))
            | Ok path =>
                match env_stat env, disk m !! path with
                | Some text, _ => (m, Err (EStat text))
                | None, Some _ =>
                    match LoadRooted (env_open_fails env) (disk m) path with
                    | Err e => (m, Err (ELoadExisting e))
                    | Ok b =>
                        (with_session id (resume params path b (nonManifestRecordCount b) (manifestCreatedAt b)) m, Ok id)
                    end
                | None, None =>
                    match new_bundle env with
                    | Err e => (m, Err e)
                    | Ok b =>
                        let '((d, b), saved) := SaveRooted (env_save env) (disk m) path b in
                        match saved with
                        | Err e => (with_disk d m, Err (ESaveNew e))
                        | Ok _ => (with_session id (resume params path b 0 (env_now env)) (with_disk d m), Ok id)
                        end
                    end
                end
            end
        end
    end).

Definition appended (b : bundle) (s : fileSessionRecord) : fileSessionRecord :=
  mkSession (params s) (bundlePath s) b (eventCount s + 1) (createdAt s) (closed s) (closedAt s).

Definition AppendEvent (env : op_env) (sessionID : string) (event : PendingEvent) (m : manager) :
    manager * result agent_error unit :=
  health_recorded
    match sessions m !! sessionID with
    | None => (m, Err ErrSessionNotFound)
    | Some record =>
        if closed record then (m, Err ErrSessionClosed)
        else
          match AppendWithOptions (s_bundle record) agentRawEventType (pendingEventData event) (appendOptionsForSession (params record)) with
          | Err e => (m, Err (EAppend e))
          | Ok next =>
              let '((d, next), saved) := SaveRooted (env_save env) (disk m) (bundlePath record) next in
              match saved with
              | Err e => (with_disk d m, Err (ESave e))
              | Ok _ => (with_session sessionID (appended next record) (with_disk d m), Ok tt)
              end
          end
    end.

Record BundleMetadata := mkMeta {
  m_SessionID : string; Path : string; m_ProfileID : string; HeadHash : string; EventCount : Z; CreatedAt : Z; ClosedAt : Z }.

(** [custody.HeadHash] *)
Definition head_hash_of (b : bundle) : string := match last b with None => GenesisHash | Some r => Hash r end.

Definition sessionMetaFromBundleMetadata (meta : BundleMetadata) : any :=
  AStruct ([("session_id", AString (m_SessionID meta)); ("bundle_path", AString (Path meta))] ++
           omit_string "profile_id" (m_ProfileID meta) ++
           [("head_hash", AString (HeadHash meta)); ("event_count", AInt (EventCount meta));
            ("opened_at", AString (RFC3339Nano (CreatedAt meta))); ("closed_at", AString (RFC3339Nano (ClosedAt meta)))]).

Definition MarshalIndent (v : any) : option bytes := json_indent [" "%char; " "%char] 0 <$> to_json v.

Definition writeSessionMeta (env : save_env) (meta : BundleMetadata) (d : tree) : tree * result agent_error unit :=
  match MarshalIndent (sessionMetaFromBundleMetadata meta) with
  | None => (d, Err EMetaEncode)
  | Some payload =>
      let '(states, r) :=
        WriteAtomicRooted (write_fails env) (partial env) (random env) d (session_path (m_SessionID meta) sessionMetaFilename) payload in
      (final d states, map_err EMetaWrite r)
  end.

Definition close_record (b : bundle) (now : Z) (s : fileSessionRecord) : fileSessionRecord :=
  mkSession (params s) (bundlePath s) b (eventCount s) (createdAt s) true now.

Definition CloseSession (env : op_env) (sessionID : string) (m : manager) : manager * result agent_error BundleMetadata :=
  health_recorded
    match sessions m !! sessionID with
    | None => (m, Err ErrSessionNotFound)
    | Some record =>
        if closed record then (m, Err ErrSessionClosed)
        else
          let '((d, b), saved) := SaveRooted (env_save env) (disk m) (bundlePath record) (s_bundle record) in
          let m := with_disk d m in
          match saved with
          | Err e => (m, Err (ESaveOnClose e))
          | Ok _ =>
              let saved_record := mkSession (params record) (bundlePath record) b (eventCount record) (createdAt record) false (closedAt record) in
              let m := with_session sessionID saved_record m in
              match LoadRooted (env_open_fails env) (disk m) (bundlePath record) with
              | Err e => (m, Err (EVerifyOnClose e))
              | Ok verified =>
                  let m := with_session sessionID (close_record verified (env_now env) saved_record) m in
                  let meta := mkMeta sessionID (Join dataDir (bundlePath record)) (ProfileID (params record)) (head_hash_of verified)
                    (eventCount record) (createdAt record) (env_now env) in
                  let '(d, written) := writeSessionMeta (env_meta env) meta (disk m) in
                  (with_disk d m, let? _ := written in Ok meta)
              end
          end
    end.

(** The handles are discarded, the files stay; a later open of the directory is a new attempt. *)
Definition Shutdown (m : manager) : manager := mkManager (disk m) ∅ None (lastErr m).

(** ** The HTTP surface *)

(** The bodies of the responses. *)
Inductive body :=
| BError (message : string)
| BOpened (sessionID bundlePath actorID profileID purposeTag : string)
| BQueued
| BClosed (meta : BundleMetadata)
| BHealth (degraded : option agent_error).

Record response := mkResponse { status : Z; content : body }.

Definition StatusOK : Z := 200.
Definition StatusCreated : Z := 201.
Definition StatusAccepted : Z := 202.
Definition StatusBadRequest : Z := 400.
Definition StatusNotFound : Z := 404.
Definition StatusConflict : Z := 409.
Definition StatusInternalServerError : Z := 500.
Definition StatusServiceUnavailable : Z := 503.

Definition agentErrorHTTP (e : agent_error) : Z * string :=
  match e with
  | ErrSessionNotFound => (StatusNotFound, "session not found")
  | ErrSessionClosed => (StatusConflict, "session closed")
  | _ => (StatusInternalServerError, "internal error")
  end.

Definition error_response (e : agent_error) : response :=
  let '(status, msg) := agentErrorHTTP e in mkResponse status (BError msg).

Record openSessionRequest := mkOpenRequest { o_ActorID : string; o_PurposeTag : string; o_ProfileID : string; o_BundlePath : string }.
Record appendEventRequest := mkAppendRequest { a_EventType : string; a_Payload : string }.

(** What the operating system says about the path that a request names: an error of opening
    the directory, of looking at the path or of following it, or a symbolic link. *)
Record preflight := mkPreflight { pre_root : option string; pre_lstat : option string; pre_symlink : bool; pre_stat : option string }.

Inductive preflight_error := FPath (e : path_error) | FSystem (text : string) | FSymlink.

Definition resolveAgentBundlePath (pre : preflight) (requested : string) : result preflight_error string :=
  match RootedRelativePath Abs dataDir (TrimSpace requested) with
  | Err e => Err (FPath e)
  | Ok relative =>
      match pre_root pre with
      | Some text => Err (FSystem text)
      | None =>
          if match pre_lstat pre with None => pre_symlink pre | Some _ => false end then Err FSymlink
          else
            match pre_lstat pre, pre_stat pre with
            | Some text, _ | None, Some text => Err (FSystem text)
            | None, None =>
                match Abs dataDir with
                | Err text => Err (FSystem text)
                | Ok absolute => Ok (Join absolute relative)
                end
            end
      end
  end.

Definition resolvedBundlePath (sessionID override : string) : string :=
  let path := TrimSpace override in
  if negb (String.eqb path "") then path else Join dataDir (session_path sessionID "bundle.atb").

(** The request is the decoded body, or the text of the error. *)
Definition handleSessionOpen (env : op_env) (pre : preflight) (req : result string openSessionRequest) (m : manager) :
    manager * response :=
  match req with
  | Err text => (m, mkResponse StatusBadRequest (BError text))
  | Ok req =>
      let requested :=
        if String.eqb (TrimSpace (o_BundlePath req)) "" then Ok "" else resolveAgentBundlePath pre (o_BundlePath req) in
      match requested with
      | Err _ => (m, mkResponse StatusBadRequest (BError "bundle_path must stay within the agent data directory"))
      | Ok bundlePath =>
          let params := mkParams (TrimSpace (o_ActorID req)) (TrimSpace (o_PurposeTag req)) (TrimSpace (o_ProfileID req)) bundlePath in
          match OpenSession env params m with
          | (m, Err _) => (m, mkResponse StatusInternalServerError (BError "failed to open session"))
          | (m, Ok id) =>
              (m, mkResponse StatusCreated
                    (BOpened id (resolvedBundlePath id bundlePath) (ActorID params) (ProfileID params) (PurposeTag params)))
          end
      end
  end.

Definition handleSessionEvent (env : op_env) (sessionID : string) (req : result string appendEventRequest) (m : manager) :
    manager * response :=
  if String.eqb sessionID "" then (m, mkResponse StatusBadRequest (BError "missing session id"))
  else
    match req with
    | Err text => (m, mkResponse StatusBadRequest (BError text))
    | Ok req =>
        let eventType := TrimSpace (a_EventType req) in
        if String.eqb eventType "" then (m, mkResponse StatusBadRequest (BError "event_type is required"))
        else
          match AppendEvent env sessionID (mkPending eventType (a_Payload req)) m with
          | (m, Err e) => (m, error_response e)
          | (m, Ok _) => (m, mkResponse StatusAccepted BQueued)
          end
    end.

(** The name of a snapshot that a request may have is not used. *)
Definition handleSessionClose (env : op_env) (sessionID : string) (req : result string string) (m : manager) : manager * response :=
  if String.eqb sessionID "" then (m, mkResponse StatusBadRequest (BError "missing session id"))
  else
    match req with
    | Err text => (m, mkResponse StatusBadRequest (BError text))
    | Ok _ =>
        match CloseSession env sessionID m with
        | (m, Err e) => (m, error_response e)
        | (m, Ok meta) => (m, mkResponse StatusOK (BClosed meta))
        end
    end.

Definition handleHealthz (m : manager) : response :=
  match Health m with
  | Some e => mkResponse StatusServiceUnavailable (BHealth (Some e))
  | None => mkResponse StatusOK (BHealth None)
  end.
End manager.

(** ** The workspace *)

Definition meta_names : list string :=
  ["session_id"; "bundle_path"; "profile_id"; "head_hash"; "event_count"; "opened_at"; "closed_at"].

Record sessionMetaFile := mkMetaFile {
  f_SessionID : string; f_BundlePath : string; f_ProfileID : string; f_HeadHash : string; f_EventCount : Z;
  f_OpenedAt : string; f_ClosedAt : string }.

Inductive list_error := MetaDecode (path : string) | MissingSessionID (path : string) | ParseOpenedAt (path : string) | ParseClosedAt (path : string).

Definition is_meta_path (path : string) : bool :=
  match split_at slash (B path) with
  | [a; b; c] => bool_decide (a = B "sessions") && negb (bool_decide (b = [])) && bool_decide (c = B "meta.json")
  | _ => false
  end.

Section workspace.
Context `{Unicode}.

Definition decode_meta (raw : bytes) : option sessionMetaFile :=
  j ← json_parse raw;
  match j with
  | JNull => Some (mkMetaFile "" "" "" "" 0 "" "")
  | JObj l =>
      let str name := decode_field meta_names name dec_string l "" in
      s ← str "session_id"; p ← str "bundle_path"; f ← str "profile_id"; h ← str "head_hash";
      c ← decode_field meta_names "event_count" dec_int l 0; o ← str "opened_at"; e ← str "closed_at";
      Some (mkMetaFile s p f h c o e)
  | _ => None
  end.

Definition bundleSummaryFromMeta (path : string) (meta : sessionMetaFile) : result list_error BundleMetadata :=
  let sessionID := TrimSpace (f_SessionID meta) in
  if String.eqb sessionID "" then Err (MissingSessionID path)
  else
    match parse_rfc3339 (B (f_OpenedAt meta)) with
    | None => Err (ParseOpenedAt path)
    | Some openedAt =>
        match parse_rfc3339 (B (f_ClosedAt meta)) with
        | None => Err (ParseClosedAt path)
        | Some closedAt =>
            Ok (mkMeta sessionID (f_BundlePath meta) (f_ProfileID meta) (f_HeadHash meta) (f_EventCount meta) openedAt closedAt)
        end
    end.

(** The names of a directory come sorted. *)
Definition meta_files (d : tree) : list (string * bytes) :=
  insertion_sort (fun a b => String.ltb a.1 b.1) (List.filter (fun f => is_meta_path f.1) (map_to_list d)).

Fixpoint summaries (files : list (string * bytes)) : result list_error (list BundleMetadata) :=
  match files with
  | [] => Ok []
  | (path, raw) :: rest =>
      match decode_meta raw with
      | None => Err (MetaDecode path)
      | Some meta =>
          let? summary := bundleSummaryFromMeta path meta in
          let? l := summaries rest in
          Ok (summary :: l)
      end
  end.

(** The last to be closed comes first; sessions closed at one instant come in any order. *)
Definition ListBundles (d : tree) : result list_error (list BundleMetadata) :=
  let? l := summaries (meta_files d) in
  Ok (insertion_sort (fun a b => ClosedAt b <? ClosedAt a) l).
End workspace.

(** ** Paths of sessions *)

Lemma session_id_proper random id : newSessionID random = Ok id -> proper (B id).
Proof.
  unfold newSessionID. destruct random as [b|]; [|done]. intros [= <-]. rewrite B_app, B_S_of. split_and!; try done.
  rewrite elem_of_app. intros [H|H].
  - revert H. apply (bool_decide_eq_true_1 (slash ∉ B "sess_")). vm_compute. reflexivity.
  - pose proof (hex_no_slash b). contradiction.
Qed.

#[local] Abbreviation in_session id name := [B "sessions"; B id; name].

Lemma sessions_proper : proper (B "sessions").
Proof. split_and!; [done..|]. apply (bool_decide_eq_true_1 (slash ∉ B "sessions")). vm_compute. reflexivity. Qed.

Lemma in_session_proper id name : proper (B id) -> proper name -> Forall proper (in_session id name).
Proof. intros Hid Hname. repeat apply Forall_cons_2; [exact sessions_proper|done|done|apply Forall_nil_2]. Qed.

Lemma session_path_spec id name :
  proper (B id) -> proper (B name) -> session_path id name = S_of (join slash (in_session id (B name))).
Proof.
  intros Hid Hname. unfold session_path. rewrite <- Clean_proper by (done || by apply in_session_proper). f_equal.
  apply B_inj. rewrite B_S_of, !B_app. cbn [join]. by rewrite <- ?app_assoc.
Qed.

Lemma in_session_inj id id' name name' :
  Forall proper (in_session id name) -> Forall proper (in_session id' name') ->
  S_of (join slash (in_session id name)) = S_of (join slash (in_session id' name')) -> id = id' /\ name = name'.
Proof.
  intros H H' E%S_of_inj. apply (f_equal (split_at slash)) in E.
  rewrite !split_join in E by (done || (eapply Forall_impl; [eassumption|]; by intros ? (_ & _ & _ & ?))).
  injection E as E1 E2. split; [by apply B_inj|done].
Qed.

Definition temporary_element (random : bytes) : bytes := B ".atb-" ++ hex_encode random ++ B ".tmp".

Lemma temporary_element_proper random : proper (temporary_element random).
Proof.
  unfold temporary_element. split_and!; [done..|]. rewrite !elem_of_app. intros [H|[H|H]].
  - revert H. apply (bool_decide_eq_true_1 (slash ∉ B ".atb-")). vm_compute. reflexivity.
  - pose proof (hex_no_slash random). contradiction.
  - revert H. apply (bool_decide_eq_true_1 (slash ∉ B ".tmp")). vm_compute. reflexivity.
Qed.

Lemma temporary_in_session id name random :
  proper (B id) -> proper (B name) ->
  temporary_name (session_path id name) random = S_of (join slash (in_session id (temporary_element random))).
Proof.
  intros Hid Hname. rewrite session_path_spec by done. unfold temporary_name, Dir. rewrite B_S_of.
  rewrite split_join by (done || (eapply Forall_impl; [by apply (in_session_proper id (B name))|]; by intros ? (_ & _ & _ & ?))).
  cbn [length Nat.sub take]. rewrite Clean_proper by (done || (repeat apply Forall_cons_2; [exact sessions_proper|done|apply Forall_nil_2])).
  unfold Join. destruct (String.eqb_spec (S_of (join slash [B "sessions"; B id])) "") as [E|_]; [done|].
  destruct (String.eqb_spec (".atb-" +:+ S_of (hex_encode random) +:+ ".tmp") "") as [E|_]; [done|].
  rewrite <- (Clean_proper (in_session id (temporary_element random)))
    by (done || (apply in_session_proper; [done|apply temporary_element_proper])). f_equal.
  apply B_inj. rewrite !B_app, !B_S_of. cbn [join]. unfold temporary_element. by rewrite <- ?app_assoc.
Qed.

(** The files of sessions: their bundle and their metadata. *)
Definition file_name (name : string) : Prop := name = "bundle.atb" \/ name = sessionMetaFilename.

Lemma file_name_proper name : file_name name -> proper (B name).
Proof. intros [->| ->]; split_and!; try done; apply (bool_decide_eq_true_1 (slash ∉ _)); vm_compute; reflexivity. Qed.

Lemma temporary_not_file id id' name name' random :
  proper (B id) -> proper (B id') -> file_name name -> file_name name' ->
  temporary_name (session_path id name) random <> session_path id' name'.
Proof.
  intros Hid Hid' Hn Hn'. rewrite temporary_in_session, session_path_spec by auto using file_name_proper.
  intros E. apply in_session_inj in E as [_ E];
    [|apply in_session_proper; auto using temporary_element_proper, file_name_proper..].
  unfold temporary_element in E. by destruct Hn' as [-> | ->].
Qed.

Lemma session_path_inj id id' name name' :
  proper (B id) -> proper (B id') -> file_name name -> file_name name' ->
  session_path id name = session_path id' name' -> id = id' /\ name = name'.
Proof.
  intros Hid Hid' Hn Hn'. rewrite !session_path_spec by auto using file_name_proper.
  intros E. apply in_session_inj in E as [-> E]; [|apply in_session_proper; auto using file_name_proper..].
  split; [done|by apply B_inj].
Qed.

(** ** What a bundle has recorded *)

(** A manifest, and then one record of the agent for each payload. *)
Definition recorded (b : bundle) (l : list any) : Prop :=
  exists r0 rest, b = r0 :: rest /\ is_manifest r0 = true /\
    map (fun r => (Event.Type_ (Event_ r), Event.Data (Event_ r))) rest = map (pair agentRawEventType) l.

Definition good (b : bundle) (l : list any) : Prop := recorded b l /\ Verify b = Ok tt.

Lemma good_new ts random b : NewWithOptions ts random (mkNewOptions ManifestVersionV2 "") = Ok b -> good b [].
Proof.
  intros Hb. split; [|by eapply built_verified, built_new].
  apply New_append in Hb as (data & (h & -> & _)%append_inv). eexists _, []. split_and!; [reflexivity| |done].
  unfold is_manifest. cbn [Event_]. destruct (append_event_fields ManifestEventType data (Some (no_options ts))
    (next_sequence [] ManifestEventType) (prev_hash [])) as (_ & _ & -> & _). reflexivity.
Qed.

Lemma good_append b l data opts next :
  good b l -> AppendWithOptions b agentRawEventType data opts = Ok next -> good next (l ++ [data]).
Proof.
  intros [(r0 & rest & -> & Hm & Hl) Hv] Ha. split; [|by eapply append_linked].
  apply append_inv in Ha as (h & -> & _).
  eexists r0, (rest ++ [_]). split_and!; [reflexivity|done|]. rewrite !map_app, Hl. f_equal. cbn [map Event_].
  destruct (append_event_fields agentRawEventType data opts (next_sequence (r0 :: rest) agentRawEventType) (prev_hash (r0 :: rest)))
    as (_ & _ & -> & ->). reflexivity.
Qed.

Lemma recorded_events b b' l : events b = events b' -> recorded b l -> recorded b' l.
Proof.
  intros He (r0 & rest & -> & Hm & Hl). destruct b' as [|r0' rest']; [done|]. unfold events in He. cbn [map] in He.
  pose proof (f_equal (@List.hd_error _) He) as H0. cbn in H0. assert (Event_ r0 = Event_ r0') as E0 by congruence.
  assert (map Event_ rest = map Event_ rest') as Er by (by apply (f_equal (@tl _)) in He).
  exists r0', rest'. split_and!; [done|unfold is_manifest in *; by rewrite <- E0|].
  rewrite <- Hl. clear -Er. revert rest' Er. induction rest as [|r rest IH]; intros [|r' rest'] E; try done.
  cbn [map] in *. pose proof (f_equal (@List.hd_error _) E) as H0. cbn in H0. assert (Event_ r = Event_ r') as -> by congruence.
  f_equal. apply IH. by apply (f_equal (@tl _)) in E.
Qed.

Lemma good_prefixes b raw l : good b l -> good (setSourcePrefixHashes b raw) l.
Proof.
  intros [Hr Hv]. unfold setSourcePrefixHashes.
  destruct (set_prefixes_fields new_tracker (map clear_prefix b) (raw_lines raw)) as [He Hh].
  assert (events (map clear_prefix b) = events b) as He' by (unfold events; by rewrite map_map).
  assert (hashes (map clear_prefix b) = hashes b) as Hh' by (unfold hashes; by rewrite map_map).
  rewrite He' in He. rewrite Hh' in Hh. split; [by eapply recorded_events; [symmetry; exact He|]|].
  by apply (Verify_fields b).
Qed.

(** ** Acknowledged events *)

(** The file of a session: a verified bundle with the payloads [l], and at most one more. *)
Definition stored (d : tree) (id : string) (l : list any) : Prop :=
  exists b raw extra, d !! session_path id "bundle.atb" = Some raw /\ encode_records b = Some raw /\
    Verify b = Ok tt /\ recorded b (l ++ extra) /\ (length extra <= 1)%nat.

Lemma stored_same d d' id l :
  d' !! session_path id "bundle.atb" = d !! session_path id "bundle.atb" -> stored d id l -> stored d' id l.
Proof. intros Hd (b & raw & extra & H & ?). exists b, raw, extra. by rewrite Hd. Qed.

Lemma stored_new d id l b raw :
  d !! session_path id "bundle.atb" = Some raw -> encode_records b = Some raw -> good b l -> stored d id l.
Proof. intros Hd He [Hr Hv]. exists b, raw, []. rewrite app_nil_r. by split_and!; [..|cbn; lia]. Qed.

Lemma stored_ahead d id l data b raw :
  d !! session_path id "bundle.atb" = Some raw -> encode_records b = Some raw -> good b (l ++ [data]) -> stored d id l.
Proof. intros Hd He [Hr Hv]. exists b, raw, [data]. by split_and!. Qed.

(** Files of other sessions are left alone by a save of the bundle of one. *)
Lemma save_frame env d id b d' b' r id' :
  proper (B id) -> proper (B id') -> id' <> id ->
  SaveRooted env d (session_path id "bundle.atb") b = ((d', b'), r) ->
  d' !! session_path id' "bundle.atb" = d !! session_path id' "bundle.atb".
Proof.
  intros Hid Hid' Hne Hs. assert (file_name "bundle.atb") as Hf by by left.
  destruct (save_final env d (session_path id "bundle.atb") b d' b' r) as (_ & _ & Hframe);
    [by apply temporary_not_file|exact Hs|]. apply Hframe.
  - intros E. apply session_path_inj in E as [E _]; auto.
  - intros E. by apply (temporary_not_file id id' "bundle.atb" "bundle.atb" (random env)).
Qed.

Lemma save_own env d id b d' b' r :
  proper (B id) -> SaveRooted env d (session_path id "bundle.atb") b = ((d', b'), r) ->
  (d' !! session_path id "bundle.atb" = d !! session_path id "bundle.atb" /\ is_ok r = false \/
   exists raw, encode_records b = Some raw /\ d' !! session_path id "bundle.atb" = Some raw) /\
  (is_ok r = true -> exists raw, b' = setSourcePrefixHashes b raw).
Proof.
  intros Hid Hs. assert (file_name "bundle.atb") as Hf by by left.
  destruct (save_final env d (session_path id "bundle.atb") b d' b' r) as (H1 & H2 & _);
    [by apply temporary_not_file|exact Hs|]. done.
Qed.

Lemma meta_frame env meta d d' r id :
  proper (B (m_SessionID meta)) -> proper (B id) -> writeSessionMeta env meta d = (d', r) ->
  d' !! session_path id "bundle.atb" = d !! session_path id "bundle.atb".
Proof.
  intros Hid Hid'. unfold writeSessionMeta. destruct (MarshalIndent _) as [payload|]; [|by intros [= <- <-]].
  assert (file_name "bundle.atb") as Hf by by left. assert (file_name sessionMetaFilename) as Hf' by by right.
  pose proof (write_final (write_fails env) (partial env) (random env) d (session_path (m_SessionID meta) sessionMetaFilename) payload
    ltac:(by apply temporary_not_file)) as Hw.
  destruct (WriteAtomicRooted _ _ _ _ _ _) as [states w]. intros [= <- _]. destruct Hw as [_ Hw]. apply Hw.
  - intros E. apply session_path_inj in E as [_ E]; [done|auto..].
  - intros E. by apply (temporary_not_file (m_SessionID meta) id sessionMetaFilename "bundle.atb" (random env)).
Qed.

(** ** Runs *)

Section runs.
Context (Abs : string -> result string string) (dataDir : string).

(** An identifier that neither the manager nor the directory has seen. *)
Definition fresh (id : string) (m : manager) : Prop :=
  sessions m !! id = None /\ disk m !! session_path id "bundle.atb" = None.

(** The states of the manager, with the payloads that were acknowledged in each session so far. Every session
    is opened without a path of the caller's, under an identifier that is new. *)
Inductive reaches : manager -> gmap string (list any) -> Prop :=
| reach_start d : reaches (new_manager d) ∅
| reach_open env p m h m' r :
    reaches m h -> TrimSpace (p_BundlePath p) = "" ->
    (forall id, newSessionID (env_id env) = Ok id -> fresh id m) ->
    OpenSession Abs dataDir env p m = (m', r) ->
    reaches m' (match r with Ok id => <[id := []]> h | Err _ => h end)
| reach_append env id ev m h m' r :
    reaches m h -> AppendEvent env id ev m = (m', r) ->
    reaches m' (match r with Ok _ => alter (fun l => l ++ [pendingEventData ev]) id h | Err _ => h end)
| reach_close env id m h m' r :
    reaches m h -> CloseSession dataDir env id m = (m', r) -> reaches m' h
| reach_shutdown m h : reaches m h -> reaches (Shutdown m) h.

Definition live (h : gmap string (list any)) (id : string) (s : fileSessionRecord) : Prop :=
  exists l, h !! id = Some l /\ bundlePath s = session_path id "bundle.atb" /\ (closed s = false -> good (s_bundle s) l).

Definition invariant (m : manager) (h : gmap string (list any)) : Prop :=
  (forall id l, h !! id = Some l -> proper (B id) /\ stored (disk m) id l) /\
  (forall id s, sessions m !! id = Some s -> live h id s).

Lemma recording_same {A} (m : manager) (r : result agent_error A) :
  disk (recordHealthLocked r m) = disk m /\ sessions (recordHealthLocked r m) = sessions m.
Proof. destruct r as [a|[]]; done. Qed.

(** The invariant does not look at the root and at the health. *)
Lemma invariant_recorded {A} m h (r : result agent_error A) :
  invariant m h -> invariant (recordHealthLocked r m) h.
Proof. unfold invariant. by destruct (recording_same m r) as [-> ->]. Qed.

Lemma recorded_step {A} (mr : manager * result agent_error A) m' r (h : result agent_error A -> gmap string (list any)) :
  health_recorded mr = (m', r) -> invariant mr.1 (h mr.2) -> invariant m' (h r).
Proof. unfold health_recorded. intros E Hinv. rewrite pair_equal_spec in E. destruct E as [<- <-]. by apply invariant_recorded. Qed.

Lemma invariant_disk m h d :
  invariant m h -> (forall id l, h !! id = Some l -> stored (disk m) id l -> stored d id l) -> invariant (with_disk d m) h.
Proof. intros [Hh Hs] Hd. split; [|exact Hs]. intros id l Hl. destruct (Hh id l Hl). split; [done|by apply Hd]. Qed.

(** One session gets its record, its payloads and its file. *)
Lemma invariant_session m h d id s l :
  invariant m h -> proper (B id) -> bundlePath s = session_path id "bundle.atb" ->
  (closed s = false -> good (s_bundle s) l) -> stored d id l ->
  (forall id' l', h !! id' = Some l' -> id' <> id ->
     d !! session_path id' "bundle.atb" = disk m !! session_path id' "bundle.atb") ->
  invariant (with_session id s (with_disk d m)) (<[id := l]> h).
Proof.
  intros [Hh Hs] Hid Hp Hg Hst Hframe. split.
  - intros id' l' Hl'. destruct (decide (id' = id)) as [->|Hne].
    + rewrite lookup_insert_eq in Hl'. by simplify_eq.
    + rewrite lookup_insert_ne in Hl' by done. destruct (Hh id' l' Hl') as [Hp' Hst']. split; [done|].
      eapply stored_same; [|exact Hst']. by eapply Hframe.
  - intros id' s' Hs'. cbn [with_session sessions] in Hs'. destruct (decide (id' = id)) as [->|Hne].
    + rewrite lookup_insert_eq in Hs'. simplify_eq. exists l. by rewrite lookup_insert_eq.
    + rewrite lookup_insert_ne in Hs' by done. destruct (Hs id' s' Hs') as (l' & Hl' & ?). exists l'. by rewrite lookup_insert_ne.
Qed.

Lemma default_path id path :
  proper (B id) -> RootedRelativePath Abs dataDir (session_path id "bundle.atb") = Ok path -> path = session_path id "bundle.atb".
Proof.
  intros Hid. unfold RootedRelativePath. destruct (Abs dataDir); [|done]. cbv zeta.
  assert (file_name "bundle.atb") as Hf by by left.
  rewrite session_path_spec by auto using file_name_proper. rewrite join_relative by auto using in_session_proper, file_name_proper.
  destruct (_ || _); [discriminate|]. intros E%Ok_inj. rewrite <- E. apply Clean_proper; auto using in_session_proper, file_name_proper.
Qed.

Lemma open_invariant env p m h m' r :
  invariant m h -> TrimSpace (p_BundlePath p) = "" ->
  (forall id, newSessionID (env_id env) = Ok id -> fresh id m) ->
  OpenSession Abs dataDir env p m = (m', r) ->
  invariant m' (match r with Ok id => <[id := []]> h | Err _ => h end).
Proof.
  intros Hinv Hblank Hfresh E.
  apply (recorded_step _ _ _ (fun r => match r with Ok id => <[id := []]> h | Err _ => h end) E). clear E m' r.
  unfold openRoot. cbv zeta.
  set (m1 := mkManager (disk m) (sessions m) (Some _) (lastErr m)). assert (invariant m1 h) as Hinv1 by exact Hinv.
  match goal with |- context [map_err ERoot ?r] => destruct (map_err ERoot r) as [[]|e] end; [|done].
  destruct (newSessionID (env_id env)) as [id|e] eqn:Eid; [|done].
  pose proof (session_id_proper _ _ Eid) as Hid. destruct (Hfresh id eq_refl) as [Hnew Hfile].
  rewrite Hblank. cbn [String.eqb].
  destruct (RootedRelativePath _ _ _) as [path|e] eqn:Ep; [|done].
  apply default_path in Ep; [|done]. subst path. change (disk m1) with (disk m). rewrite Hfile.
  destruct (env_stat env) as [text|]; [done|].
  destruct (new_bundle env) as [b|e] eqn:En; [|done].
  assert (good b []) as Hb.
  { unfold new_bundle in En. destruct (NewWithOptions _ _ _) as [b0|] eqn:E0; [|done]. cbn in En. simplify_eq. by eapply good_new. }
  destruct (SaveRooted _ _ _ _) as [[d b'] saved] eqn:Es.
  assert (forall id' l', h !! id' = Some l' -> id' <> id ->
    d !! session_path id' "bundle.atb" = disk m !! session_path id' "bundle.atb") as Hframe.
  { intros id' l' Hl' Hne. eapply save_frame; [exact Hid|by eapply Hinv|exact Hne|exact Es]. }
  assert (h !! id = None) as Hno.
  { destruct (h !! id) as [l|] eqn:El; [|done]. destruct Hinv as [Hh _]. destruct (Hh id l El) as (_ & b0 & raw & extra & Hd & _).
    congruence. }
  destruct (save_own _ _ _ _ _ _ _ Hid Es) as [Hown Hpre]. destruct saved as [[]|e]; cbn [fst snd].
  - apply invariant_session; try done.
    + intros _. destruct (Hpre eq_refl) as (raw & ->). by apply good_prefixes.
    + destruct Hown as [[_ Hbad]|(raw & Hraw & Hd)]; [done|]. by eapply stored_new.
  - apply invariant_disk; [done|].
    intros id' l' Hl'. apply stored_same. eapply Hframe; [done|]. intros ->. congruence.
Qed.

Lemma live_session m h id s :
  invariant m h -> sessions m !! id = Some s ->
  exists l, h !! id = Some l /\ proper (B id) /\ bundlePath s = session_path id "bundle.atb" /\
    (closed s = false -> good (s_bundle s) l).
Proof.
  intros [Hh Hs] Hid. destruct (Hs id s Hid) as (l & Hl & Hp & Hg). exists l. destruct (Hh id l Hl). by split_and!.
Qed.

(** The files of the other sessions, after a save for one. *)
Lemma others_kept env m h id b d b' saved :
  invariant m h -> proper (B id) -> SaveRooted env (disk m) (session_path id "bundle.atb") b = ((d, b'), saved) ->
  forall id' l', h !! id' = Some l' -> id' <> id ->
    d !! session_path id' "bundle.atb" = disk m !! session_path id' "bundle.atb".
Proof. intros [Hh _] Hid Hs id' l' Hl' Hne. eapply save_frame; [exact Hid|by eapply Hh|exact Hne|exact Hs]. Qed.

(** After a save of a bundle that holds at most one payload more, the file of the session still has its payloads. *)
Lemma saved_disk env m h id b extra d b' saved l :
  invariant m h -> proper (B id) -> h !! id = Some l ->
  SaveRooted env (disk m) (session_path id "bundle.atb") b = ((d, b'), saved) ->
  good b (l ++ extra) -> (length extra <= 1)%nat ->
  forall id' l', h !! id' = Some l' -> stored (disk m) id' l' -> stored d id' l'.
Proof.
  intros Hinv Hid Hl Hs Hb Hlen id' l' Hl' Hst. destruct (decide (id' = id)) as [->|Hne].
  - rewrite Hl in Hl'. simplify_eq. destruct (save_own _ _ _ _ _ _ _ Hid Hs) as [[[Hd _]|(raw & Hraw & Hd)] _].
    + by eapply stored_same.
    + exists b, raw, extra. destruct Hb. by split_and!.
  - eapply stored_same; [|exact Hst]. by eapply others_kept.
Qed.

Lemma append_invariant env id ev m h m' r :
  invariant m h -> AppendEvent env id ev m = (m', r) ->
  invariant m' (match r with Ok _ => alter (fun l => l ++ [pendingEventData ev]) id h | Err _ => h end).
Proof.
  intros Hinv E.
  apply (recorded_step _ _ _ (fun r => match r with Ok _ => alter (fun l => l ++ [pendingEventData ev]) id h | Err _ => h end) E).
  clear E m' r. destruct (sessions m !! id) as [s|] eqn:Es; [|done]. destruct (closed s) eqn:Ec; [done|].
  destruct (live_session _ _ _ _ Hinv Es) as (l & Hl & Hid & Hpath & Hg). specialize (Hg Ec).
  destruct (AppendWithOptions _ _ _ _) as [next|e] eqn:Ea; [|done].
  pose proof (good_append _ _ _ _ _ Hg Ea) as Hnext. rewrite Hpath.
  destruct (SaveRooted _ _ _ _) as [[d b'] saved] eqn:Esave. destruct saved as [[]|e]; cbn [fst snd].
  - assert (alter (fun l => l ++ [pendingEventData ev]) id h = <[id := l ++ [pendingEventData ev]]> h) as ->.
    { apply map_eq. intros i. destruct (decide (i = id)) as [->|Hne].
      - by rewrite lookup_alter_eq, lookup_insert_eq, Hl.
      - by rewrite lookup_alter_ne, lookup_insert_ne. }
    destruct (save_own _ _ _ _ _ _ _ Hid Esave) as [Hown Hpre].
    apply invariant_session; try done.
    + intros _. destruct (Hpre eq_refl) as (raw & ->). by apply good_prefixes.
    + destruct Hown as [[_ Hbad]|(raw & Hraw & Hd)]; [done|]. by eapply stored_new.
    + by eapply others_kept.
  - apply invariant_disk; [done|]. eapply saved_disk; [done|exact Hid|exact Hl|exact Esave|exact Hnext|cbn; lia].
Qed.

Lemma invariant_again m h id s l :
  invariant m h -> h !! id = Some l -> bundlePath s = session_path id "bundle.atb" ->
  (closed s = false -> good (s_bundle s) l) -> invariant (with_session id s m) h.
Proof.
  intros [Hh Hs] Hl Hp Hg. split; [exact Hh|]. intros id' s' Hs'. cbn [with_session sessions] in Hs'.
  destruct (decide (id' = id)) as [->|Hne].
  - rewrite lookup_insert_eq in Hs'. simplify_eq. by exists l.
  - rewrite lookup_insert_ne in Hs' by done. by apply Hs.
Qed.

Lemma close_invariant env id m h m' r :
  invariant m h -> CloseSession dataDir env id m = (m', r) -> invariant m' h.
Proof.
  intros Hinv E. apply (recorded_step _ _ _ (fun _ => h) E). clear E m' r.
  destruct (sessions m !! id) as [s|] eqn:Es; [|done]. destruct (closed s) eqn:Ec; [done|].
  destruct (live_session _ _ _ _ Hinv Es) as (l & Hl & Hid & Hpath & Hg). specialize (Hg Ec).
  rewrite Hpath. destruct (SaveRooted _ _ _ _) as [[d b'] saved] eqn:Esave. cbv zeta.
  assert (invariant (with_disk d m) h) as Hd.
  { apply invariant_disk; [done|]. eapply (saved_disk _ _ _ _ _ []); [done|exact Hid|exact Hl|exact Esave|by rewrite app_nil_r|cbn; lia]. }
  destruct (save_own _ _ _ _ _ _ _ Hid Esave) as [_ Hpre]. destruct saved as [[]|e]; [|done].
  destruct (Hpre eq_refl) as (raw & ->).
  match goal with |- context [with_session id ?s0 (with_disk d m)] => set (kept := s0) end.
  assert (invariant (with_session id kept (with_disk d m)) h) as Hk.
  { eapply invariant_again; [exact Hd|exact Hl|reflexivity|]. intros _. by apply good_prefixes. }
  destruct (LoadRooted _ _ _) as [verified|e]; [|done].
  match goal with |- context [writeSessionMeta ?e ?meta ?d0] => destruct (writeSessionMeta e meta d0) as [d' written] eqn:Ew end.
  assert (invariant (with_session id (close_record verified (env_now env) kept) (with_session id kept (with_disk d m))) h) as Hc.
  { by eapply invariant_again; [exact Hk|exact Hl|reflexivity|]. }
  cbn [fst]. apply invariant_disk; [exact Hc|].
  intros id' l' Hl'. apply stored_same. eapply meta_frame; [| |exact Ew]; [exact Hid|]. by eapply Hinv.
Qed.

Lemma reaches_invariant m h : reaches m h -> invariant m h.
Proof.
  induction 1 as [d|env p m h m' r _ IH Hb Hf E|env id ev m h m' r _ IH E|env id m h m' r _ IH E|m h _ IH].
  - split; intros id x Hx; cbn in Hx; by apply lookup_empty_Some in Hx.
  - by eapply open_invariant.
  - by eapply append_invariant.
  - by eapply close_invariant.
  - split; [apply IH|]. intros id s Hs. cbn in Hs. by apply lookup_empty_Some in Hs.
Qed.

(** C10: What was acknowledged stays. In every run of the manager whose sessions are opened without a path of the caller's, the file
    of each session holds a bundle that verifies: a manifest, then the payloads that were acknowledged, in order, and at
    most one that was not. No failure, no close, no shutdown and nothing that happens to another session changes that. *)
Theorem acknowledged_events_stay m h id l :
  reaches m h -> h !! id = Some l -> stored (disk m) id l.
Proof. intros Hr Hl. by destruct (proj1 (reaches_invariant m h Hr) id l Hl). Qed.
End runs.

(** ** Examples *)

Definition here (p : string) : result string string := Ok ("/" +:+ p).

Definition works : save_env := mkEnv (fun _ => false) false false (fun _ => false) 0 (B "r").

(** The last step of a save fails: the file is there, the operation is not acknowledged. *)
Definition unsynced : save_env := mkEnv (fun _ => false) false false (fun s => bool_decide (s = SSyncDir)) 0 (B "r").

Definition env_with (id : string) (save : save_env) : op_env :=
  mkOpEnv (Ok tt) (Some (B id)) None false "2025-01-01T00:00:00Z" (Some (B "0123456789abcdef")) 1735689600000000000 save works.

Definition note (text : string) : PendingEvent := mkPending "note" text.
Definition plain : OpenParams := mkParams "" "" "" "".
Definition at_path (p : string) : OpenParams := mkParams "" "" "" p.

#[local] Abbreviation open id p m := (OpenSession here "data" (env_with id works) p m).
#[local] Abbreviation append save id text m := (AppendEvent (env_with "" save) id (note text) m).
#[local] Abbreviation close id m := (CloseSession "data" (env_with "" works) id m).
#[local] Abbreviation sess id := ("sess_" +:+ S_of (hex_encode (B id))).

(** A session with an event, an event that is not acknowledged, and another one; it is closed. *)
Definition run_opened : manager := (open "a" plain (new_manager ∅)).1.
Definition run_one : manager := (append works (sess "a") "1" run_opened).1.
Definition run_unsynced : manager := (append unsynced (sess "a") "2" run_one).1.
Definition run_two : manager := (append works (sess "a") "3" run_unsynced).1.
Definition run_closed : manager := (close (sess "a") run_two).1.

Definition note_data (text : string) : any := pendingEventData (note text).

Lemma opens_step env p m h :
  reaches here "data" m h -> TrimSpace (p_BundlePath p) = "" ->
  (forall id, newSessionID (env_id env) = Ok id -> fresh id m) ->
  reaches here "data" (OpenSession here "data" env p m).1
    (match (OpenSession here "data" env p m).2 with Ok id => <[id := []]> h | Err _ => h end).
Proof. intros. eapply reach_open; [done..|]. apply surjective_pairing. Qed.

Lemma appends_step env id ev m h h' :
  reaches here "data" m h ->
  (match (AppendEvent env id ev m).2 with Ok _ => alter (fun l => l ++ [pendingEventData ev]) id h | Err _ => h end) = h' ->
  reaches here "data" (AppendEvent env id ev m).1 h'.
Proof. intros Hr <-. eapply reach_append; [done|]. apply surjective_pairing. Qed.

Definition acked (r : result agent_error unit) (id text : string) (h : gmap string (list any)) : gmap string (list any) :=
  if is_ok r then alter (fun l => l ++ [note_data text]) id h else h.

Lemma example_run : exists h, reaches here "data" run_closed h /\ h !! sess "a" = Some [note_data "1"; note_data "3"].
Proof.
  eexists. split.
  - eapply reach_close; [|apply surjective_pairing]. eapply appends_step; [|reflexivity].
    eapply appends_step; [|reflexivity]. eapply appends_step; [|reflexivity].
    apply (opens_step (env_with "a" works) plain (new_manager ∅) ∅); [constructor|reflexivity|].
    intros id Hid%Ok_inj. rewrite <- Hid. split; vm_compute; reflexivity.
  - vm_compute. reflexivity.
Qed.

Lemma acknowledged_events_stay_witness : stored (disk run_closed) (sess "a") [note_data "1"; note_data "3"].
Proof.
  destruct example_run as (h & Hr & Hh). exact (acknowledged_events_stay here "data" run_closed h (sess "a") _ Hr Hh).
Defined.

(** The payloads of a file. *)
Definition payloads (d : tree) (path : string) : option (list any) :=
  match LoadRooted false d path with
  | Ok b => Some (map (fun r => Event.Data (Event_ r)) (tl b))
  | Err _ => None
  end.

(** Two sessions opened on one path lose events. The second resumes from the file; an event that the first has appended after
    that, and that was acknowledged, is gone once the second appends its own. Nothing fails, and the health check is
    green. *)
Theorem shared_path_loses_events :
  let opened := open "b" (at_path "p.atb") (open "a" (at_path "p.atb") (new_manager ∅)).1 in
  let first := append works (sess "a") "one" opened.1 in
  let second := append works (sess "b") "two" first.1 in
  let recorded_note text := AMap [("payload_raw", AString text); ("source_event_type", AString "note")] in
  is_ok opened.2 = true /\ is_ok first.2 = true /\ is_ok second.2 = true /\ Health second.1 = None /\
  payloads (disk first.1) "p.atb" = Some [recorded_note "one"] /\
  payloads (disk second.1) "p.atb" = Some [recorded_note "two"].
Proof. vm_compute. repeat split. Qed.

(** The path of another session's metadata is accepted for a bundle: closing that session destroys the bundle, and the next event
    destroys the metadata, and with it every listing. *)
Example metadata_path_accepted :
  let hijacked := open "b" (at_path (session_path (sess "a") "meta.json")) (open "a" plain (new_manager ∅)).1 in
  let appended := append works (sess "b") "one" hijacked.1 in
  let closed := close (sess "a") appended.1 in
  let again := append works (sess "b") "two" closed.1 in
  (is_ok appended.2, is_ok closed.2, is_ok again.2) = (true, true, true) /\
  payloads (disk closed.1) (session_path (sess "a") "meta.json") = None /\
  is_ok (ListBundles (disk closed.1)) = true /\
  ListBundles (disk again.1) = Err (MetaDecode (session_path (sess "a") "meta.json")).
Proof. vm_compute. repeat split. Qed.

(** A session whose metadata could not be written is closed: the close that failed cannot be repeated, and the session is in
    no listing. *)
Example close_cannot_be_repeated :
  let broken := mkOpEnv (Ok tt) None None false "" None 0 works (mkEnv (fun _ => false) false false (fun s => bool_decide (s = SCreate)) 0 []) in
  let failed := CloseSession "data" broken (sess "a") run_two in
  failed.2 = Err (EMetaWrite SCreate) /\ (close (sess "a") failed.1).2 = Err ErrSessionClosed /\
  ListBundles (disk failed.1) = Ok [] /\ Health failed.1 = Some (EMetaWrite SCreate).
Proof. vm_compute. repeat split. Qed.

(** The listing of the run above. *)
Example listed :
  (fun l => map (fun s => (m_SessionID s, Path s, EventCount s)) l) <$>
    match ListBundles (disk run_closed) with Ok l => Some l | Err _ => None end =
  Some [(sess "a", Join "data" (session_path (sess "a") "bundle.atb"), 2)].
Proof. vm_compute. reflexivity. Qed.

Example responses :
  let env := env_with "" works in
  map (fun p => (status p.2, Health p.1))
    [handleSessionEvent env "nobody" (Ok (mkAppendRequest "note" "")) run_one;
     handleSessionEvent env (sess "a") (Ok (mkAppendRequest " " "")) run_one;
     handleSessionEvent env (sess "a") (Ok (mkAppendRequest "note" "")) run_one;
     handleSessionEvent env (sess "a") (Ok (mkAppendRequest "note" "")) run_closed;
     handleSessionEvent (env_with "" unsynced) (sess "a") (Ok (mkAppendRequest "note" "")) run_one] =
  [(404, None); (400, None); (202, None); (409, None); (500, Some (ESave (RWrite SSyncDir)))].
Proof. vm_compute. reflexivity. Qed.

Example health : map (fun m => status (handleHealthz m)) [run_one; run_unsynced; run_two] = [200; 503; 200].
Proof. vm_compute. reflexivity. Qed.
End Agent.
