(* ===== verification/Mutate.v ===== *)
(** * Command line: the commands that write a bundle

    [atb init], [atb append], [atb corroborate] and [atb snapshot]: [cmd/atb/main.go], [snapshot.go] and [lock_wait.go],
    with the receipts of [internal/corroboration]. Each command reads the bundle first and takes the lock only to
    write it, so a run is a function of what it read and of the files when it writes; the runs of several processes
    interleave at these two points. Theorems: what a command that succeeds leaves, that the file is a complete
    verified bundle at every moment whatever interleaves and fails, that commands one after the other keep every
    event they acknowledged, and that two that overlap do not. *)

From S2P Require Import Prelude GoText GoPath Sha256 GoFloat GoJson GoValue GoUnicode GoTime GoStruct GoDuration Push Canonicalize Event HashChain Bundle BundleIO BundleSign Policy Verify Score VerifyCLI CaptureStore CaptureRecovery.
Import HashChain Bundle.

Module Mutate.
Import Push VerifyCLI.

(** ** Waiting for the lock *)

Definition lockWaitEnv : string := "ATB_LOCK_WAIT".

(** [None] is an error. *)
Definition parseLockWaitDuration (value : string) : option Z :=
  let trimmed := TrimSpace value in
  if String.eqb trimmed "" then Some 0
  else
    wait ← GoDuration.ParseDuration trimmed;
    if wait <? 0 then None else Some wait.

(** The value of the variable, if it is set. *)
Definition lockWaitFromEnv (value : option string) : option Z :=
  match value with None => Some 0 | Some v => parseLockWaitDuration v end.

(** ** The arguments of mutations *)

Inductive flag_error := FMissingFormat | FMissingWait | FInvalidWait (value : string) | FInvalidFormat (format : string) | FEnvironment.

Record mutation_flags := mkFlags { filtered : list string; outputFormat : string; dryRun : bool; lockWait : option Z }.

Section flags.
Context `{Unicode}.

Definition format_of (value : string) : string := ToLower (TrimSpace value).

Definition with_wait (f : mutation_flags) (value : string) : result flag_error mutation_flags :=
  match parseLockWaitDuration value with
  | None => Err (FInvalidWait value)
  | Some wait => Ok (mkFlags (filtered f) (outputFormat f) (dryRun f) (Some wait))
  end.

Fixpoint flags_loop (f : mutation_flags) (args : list string) : result flag_error mutation_flags :=
  match args with
  | [] => Ok f
  | arg :: rest =>
      if String.eqb arg "--dry-run" then flags_loop (mkFlags (filtered f) (outputFormat f) true (lockWait f)) rest
      else if String.eqb arg "--format" then
        match rest with
        | [] => Err FMissingFormat
        | value :: rest => flags_loop (mkFlags (filtered f) (format_of value) (dryRun f) (lockWait f)) rest
        end
      else if HasPrefix arg "--format=" then
        flags_loop (mkFlags (filtered f) (format_of (TrimPrefix arg "--format=")) (dryRun f) (lockWait f)) rest
      else if String.eqb arg "--lock-wait" then
        match rest with
        | [] => Err FMissingWait
        | value :: rest => let? f := with_wait f value in flags_loop f rest
        end
      else if HasPrefix arg "--lock-wait=" then
        let? f := with_wait f (TrimPrefix arg "--lock-wait=") in flags_loop f rest
      else flags_loop (mkFlags (filtered f ++ [arg]) (outputFormat f) (dryRun f) (lockWait f)) rest
  end.

Definition known_format (format : string) : bool := String.eqb format formatText || String.eqb format formatJSON.

(** The flags with the time to wait. *)
Definition parseMutationFlagsWithLockWait (env : option string) (args : list string) : result flag_error (mutation_flags * Z) :=
  let? f := flags_loop (mkFlags [] formatText false None) args in
  if negb (known_format (outputFormat f)) then Err (FInvalidFormat (outputFormat f))
  else
    match lockWait f with
    | Some wait => Ok (f, wait)
    | None => match lockWaitFromEnv env with Some wait => Ok (f, wait) | None => Err FEnvironment end
    end.

Definition parseMutationFlags (env : option string) (args : list string) : result flag_error mutation_flags :=
  let? fw := parseMutationFlagsWithLockWait env args in Ok fw.1.
End flags.

(** Whether the arguments ask for JSON, where they cannot be parsed. *)
Fixpoint strings_Join (l : list string) : string :=
  match l with [] => "" | [s] => s | s :: rest => s +:+ " " +:+ strings_Join rest end.

Definition wants_json (rawArgs : list string) : bool :=
  Contains (strings_Join rawArgs) "--format json" || Contains (strings_Join rawArgs) "--format=json".

(** *** [atb append] *)

Inductive input_error :=
| IMissingPayload | IMissingData | IExpectedOne | IMissingValue (flag : string) | IEmpty (flag : string) | IUnknown (arg : string).

Record appendCommandInput := mkInput {
  RawJSON : string;
  Options : AppendOptions;
  SignPolicyKeyPath : string;
  PolicyDocPath : string
}.

Definition empty_input : appendCommandInput := mkInput "" (no_options "") "" "".

(** The options with a value, other than [--data]. *)
Inductive valued_option := OActor | OOrg | OWorkspace | OSign | ODoc.

Definition valued_options : list (string * valued_option) :=
  [("--actor-id", OActor); ("--org-id", OOrg); ("--workspace-id", OWorkspace); ("--sign-policy", OSign); ("--policy-doc", ODoc)].

Definition with_RawJSON (v : string) (i : appendCommandInput) : appendCommandInput :=
  mkInput v (Options i) (SignPolicyKeyPath i) (PolicyDocPath i).

(** An identity, trimmed; a path, cleaned. *)
Definition set_option (flag : string) (o : valued_option) (value : string) (i : appendCommandInput) : result input_error appendCommandInput :=
  let trimmed := TrimSpace value in
  let opts := Options i in
  let id (set : string -> AppendOptions) :=
    if String.eqb trimmed "" then Err (IEmpty flag)
    else Ok (mkInput (RawJSON i) (set trimmed) (SignPolicyKeyPath i) (PolicyDocPath i)) in
  let path (set : string -> appendCommandInput) := if String.eqb (Clean trimmed) "." then Err (IEmpty flag) else Ok (set (Clean trimmed)) in
  match o with
  | OActor => id (fun v => mkOptions (Some v) (OrgID opts) (WorkspaceID opts) (Timestamp opts) "" "" "" None)
  | OOrg => id (fun v => mkOptions (ActorID opts) (Some v) (WorkspaceID opts) (Timestamp opts) "" "" "" None)
  | OWorkspace => id (fun v => mkOptions (ActorID opts) (OrgID opts) (Some v) (Timestamp opts) "" "" "" None)
  | OSign => path (fun v => mkInput (RawJSON i) opts v (PolicyDocPath i))
  | ODoc => path (fun v => mkInput (RawJSON i) opts (SignPolicyKeyPath i) v)
  end.

(** The option an argument names, with the value behind the equals sign. *)
Definition option_named (arg : string) : option (string * valued_option * option string) :=
  List.hd_error (omap (fun kv : string * valued_option =>
    let '(flag, o) := kv in
    if String.eqb arg flag then Some (flag, o, None)
    else if HasPrefix arg (flag +:+ "=") then Some (flag, o, Some (TrimPrefix arg (flag +:+ "="))) else None) valued_options).

Fixpoint input_loop (i : appendCommandInput) (args : list string) : result input_error appendCommandInput :=
  match args with
  | [] => Ok i
  | arg :: rest =>
      if String.eqb arg "--data" then
        match rest with
        | [] => Err IMissingData
        | value :: rest => if negb (String.eqb (RawJSON i) "") then Err IExpectedOne else input_loop (with_RawJSON value i) rest
        end
      else if HasPrefix arg "--data=" then
        if negb (String.eqb (RawJSON i) "") then Err IExpectedOne
        else
          let value := TrimPrefix arg "--data=" in
          if String.eqb value "" then Err IMissingData else input_loop (with_RawJSON value i) rest
      else
        match option_named arg with
        | Some (flag, o, Some value) => let? i := set_option flag o value i in input_loop i rest
        | Some (flag, o, None) =>
            match rest with
            | [] => Err (IMissingValue flag)
            | value :: rest => let? i := set_option flag o value i in input_loop i rest
            end
        | None =>
            if HasPrefix arg "--" then Err (IUnknown arg)
            else if negb (String.eqb (RawJSON i) "") then Err IExpectedOne else input_loop (with_RawJSON arg i) rest
        end
  end.

Definition parseAppendCommandArgs (args : list string) : result input_error appendCommandInput :=
  match args with
  | [] => Err IMissingPayload
  | _ =>
      let? i := input_loop empty_input args in
      if String.eqb (RawJSON i) "" then Err IMissingPayload else Ok i
  end.

Definition parseAppendPayload (args : list string) : result input_error string :=
  let? i := parseAppendCommandArgs args in Ok (RawJSON i).

(** *** [atb init] *)

Definition parseManifestVersionFlagValue (value : string) : option Z :=
  let v := TrimSpace value in
  if String.eqb v "1" then Some 1 else if String.eqb v "2" then Some ManifestVersionV2 else None.

Inductive version_error := VMissing | VInvalid (value : string).

Fixpoint version_loop (rest_args : list string) (version : Z) (args : list string) : result version_error (list string * Z) :=
  match args with
  | [] => Ok (rest_args, version)
  | arg :: rest =>
      let take (value : string) (k : Z -> result version_error (list string * Z)) :=
        match parseManifestVersionFlagValue value with Some v => k v | None => Err (VInvalid value) end in
      if String.eqb arg "--manifest-version" then
        match rest with
        | [] => Err VMissing
        | value :: rest => take value (fun v => version_loop rest_args v rest)
        end
      else if HasPrefix arg "--manifest-version=" then
        take (TrimPrefix arg "--manifest-version=") (fun v => version_loop rest_args v rest)
      else version_loop (rest_args ++ [arg]) version rest
  end.

Definition parseInitManifestVersionFlag (args : list string) : result version_error (list string * Z) := version_loop [] 1 args.

(** *** [atb snapshot] *)

Inductive name_error := NEmpty | NTooLong | NInvalid.

Definition validateSnapshotName (name : string) : option name_error :=
  let name := TrimSpace name in
  if String.eqb name "" then Some NEmpty
  else if 128 <? Z.of_nat (length (runes (B name))) then Some NTooLong
  else if existsb (fun r => (r <? 32) || (r =? 127) || (r =? 47) || (r =? 92) || (r =? 0)) (runes (B name)) then Some NInvalid
  else None.

Inductive note_error := ONTooLong | ONNull | ONControl.

(** [unicode.IsControl]. *)
Definition IsControl (r : Z) : bool := ((0 <=? r) && (r <? 32)) || ((127 <=? r) && (r <? 160)).

Definition note_rune (r : Z) : option note_error :=
  if (r =? 9) || (r =? 10) then None
  else if r =? 0 then Some ONNull
  else if IsControl r then Some ONControl else None.

Definition validateOversightNote (note : string) : option note_error :=
  if String.eqb note "" then None
  else if 512 <? Z.of_nat (length (runes (B note))) then Some ONTooLong
  else List.hd_error (omap note_rune (runes (B note))).

Record snapshotConfig := mkSnapshot {
  Name : string;
  s_BundlePath : string;
  s_Quiet : bool;
  s_Format : string;
  s_DryRun : bool;
  s_LockWait : Z;
  s_ActorID : string;
  s_ActorRole : string;
  OversightNote : string
}.

Definition default_snapshot : snapshotConfig := mkSnapshot "" DefaultPath false formatText false 0 "" "" "".

Inductive snapshot_error :=
| ErrSnapshotHelp | SMissing (arg : string) | SPathSet | SInvalidWait (value : string) | SUnknown (arg : string) | SOneName | SNoName
| SName (e : name_error) | SFormat (format : string) | SEnvironment.

Inductive snapshot_option := SBundle | SFormatOption | SActorID | SActorRole | SNote | SWait.

Definition snapshot_options : list (list string * string * snapshot_option) :=
  [(["--bundle"; "-b"], "--bundle=", SBundle); (["--format"], "--format=", SFormatOption); (["--actor-id"], "--actor-id=", SActorID);
   (["--actor-role"], "--actor-role=", SActorRole); (["--oversight-note"], "--oversight-note=", SNote); (["--lock-wait"], "--lock-wait=", SWait)].

Definition snapshot_option_named (arg : string) : option (snapshot_option * option string) :=
  List.hd_error (omap (fun x : list string * string * snapshot_option =>
    let '(names, prefix, o) := x in
    if bool_decide (arg ∈ names) then Some (o, None)
    else if HasPrefix arg prefix then Some (o, Some (TrimPrefix arg prefix)) else None) snapshot_options).

(** The configuration with what was set: the name, the path, the time to wait. *)
Record snapshot_state := mkState { cfg : snapshotConfig; nameSet : bool; bundlePathSet : bool; lockWaitSet : bool }.

Section snapshot_args.
Context `{Unicode} (is_dir : string -> bool).

Definition set_snapshot (o : snapshot_option) (value : string) (st : snapshot_state) : result snapshot_error snapshot_state :=
  let c := cfg st in
  let put c := Ok (mkState c (nameSet st) (bundlePathSet st) (lockWaitSet st)) in
  match o with
  | SBundle =>
      if bundlePathSet st then Err SPathSet
      else Ok (mkState (mkSnapshot (Name c) (normalizeBundlePath is_dir value) (s_Quiet c) (s_Format c) (s_DryRun c) (s_LockWait c) (s_ActorID c) (s_ActorRole c) (OversightNote c))
                 (nameSet st) true (lockWaitSet st))
  | SFormatOption => put (mkSnapshot (Name c) (s_BundlePath c) (s_Quiet c) (format_of value) (s_DryRun c) (s_LockWait c) (s_ActorID c) (s_ActorRole c) (OversightNote c))
  | SActorID => put (mkSnapshot (Name c) (s_BundlePath c) (s_Quiet c) (s_Format c) (s_DryRun c) (s_LockWait c) (TrimSpace value) (s_ActorRole c) (OversightNote c))
  | SActorRole => put (mkSnapshot (Name c) (s_BundlePath c) (s_Quiet c) (s_Format c) (s_DryRun c) (s_LockWait c) (s_ActorID c) (TrimSpace value) (OversightNote c))
  | SNote => put (mkSnapshot (Name c) (s_BundlePath c) (s_Quiet c) (s_Format c) (s_DryRun c) (s_LockWait c) (s_ActorID c) (s_ActorRole c) value)
  | SWait =>
      match parseLockWaitDuration value with
      | None => Err (SInvalidWait value)
      | Some wait =>
          Ok (mkState (mkSnapshot (Name c) (s_BundlePath c) (s_Quiet c) (s_Format c) (s_DryRun c) wait (s_ActorID c) (s_ActorRole c) (OversightNote c))
                (nameSet st) (bundlePathSet st) true)
      end
  end.

(** With an error, the configuration so far. *)
Fixpoint snapshot_loop (st : snapshot_state) (args : list string) : snapshot_state * option snapshot_error :=
  match args with
  | [] => (st, None)
  | arg :: rest =>
      let c := cfg st in
      let put c := mkState c (nameSet st) (bundlePathSet st) (lockWaitSet st) in
      if bool_decide (arg ∈ ["-h"; "--help"]) then (st, Some ErrSnapshotHelp)
      else if String.eqb arg "--quiet" then
        snapshot_loop (put (mkSnapshot (Name c) (s_BundlePath c) true (s_Format c) (s_DryRun c) (s_LockWait c) (s_ActorID c) (s_ActorRole c) (OversightNote c))) rest
      else if String.eqb arg "--dry-run" then
        snapshot_loop (put (mkSnapshot (Name c) (s_BundlePath c) (s_Quiet c) (s_Format c) true (s_LockWait c) (s_ActorID c) (s_ActorRole c) (OversightNote c))) rest
      else
        match snapshot_option_named arg with
        | Some (o, Some value) => match set_snapshot o value st with Ok st => snapshot_loop st rest | Err e => (st, Some e) end
        | Some (o, None) =>
            match rest with
            | [] => (st, Some (SMissing arg))
            | value :: rest => match set_snapshot o value st with Ok st => snapshot_loop st rest | Err e => (st, Some e) end
            end
        | None =>
            if HasPrefix arg "-" then (st, Some (SUnknown arg))
            else if nameSet st then (st, Some SOneName)
            else
              snapshot_loop (mkState (mkSnapshot (TrimSpace arg) (s_BundlePath c) (s_Quiet c) (s_Format c) (s_DryRun c) (s_LockWait c) (s_ActorID c) (s_ActorRole c) (OversightNote c))
                               true (bundlePathSet st) (lockWaitSet st)) rest
        end
  end.

Definition parseSnapshotArgs (env : option string) (args : list string) : snapshotConfig * option snapshot_error :=
  let '(st, e) := snapshot_loop (mkState default_snapshot false false false) args in
  let c := cfg st in
  match e with
  | Some e => (c, Some e)
  | None =>
      if negb (nameSet st) then (c, Some SNoName)
      else
        match validateSnapshotName (Name c) with
        | Some e => (c, Some (SName e))
        | None =>
            if negb (known_format (s_Format c)) then (c, Some (SFormat (s_Format c)))
            else if lockWaitSet st then (c, None)
            else
              match lockWaitFromEnv env with
              | None => (c, Some SEnvironment)
              | Some wait => (mkSnapshot (Name c) (s_BundlePath c) (s_Quiet c) (s_Format c) (s_DryRun c) wait (s_ActorID c) (s_ActorRole c) (OversightNote c), None)
              end
        end
  end.
End snapshot_args.

(** ** What a command prints *)

(** The errors of reading, appending and writing. *)
Inductive mutation_error :=
| MLoad (e : BundleIO.file_error) (f : load_failure) | MMissing | MCreate (e : new_error) | MNote (e : note_error) | MHash
| MAppend (e : Bundle.append_error) | MSave (e : BundleIO.save_error) | MLockWait (waited : Z) | MName (e : name_error).

(** The errors of the adapters of [atb corroborate]. *)
Inductive fetch_error := GRequest (text : string) | GStatus (code : Z) | GRead | GTooLarge | GNotJSON | GNoPath | GFile.

Inductive problem :=
| PFlags (e : flag_error) | PVersion (e : version_error) | PUsage | PInput (e : input_error) | PJSON | PPolicy (e : Policy.append_error)
| PMutation (e : mutation_error) | PSnapshot (e : snapshot_error) | PStat (text : string) | PArgument (flag : string)
| PFetch (e : fetch_error).

Record mutationResult := mkResult {
  Status : string;
  Action : string;
  m_DryRun : bool;
  Path : string;
  Sequence : Z;
  EventType : string;
  Hash : string;
  Message : string;
  Error : option problem;
  ExitCode : Z
}.

(** One JSON object, one line of text, or the usage. *)
Inductive output :=
| OJSON (r : mutationResult) | OEncodeFailed | OProblem (p : problem) | OUsage
| ORecord (dry : bool) (r : Record_) | OSnapshot (name : string) (recordCount : Z) (hash : string) | OInit (dry existing : bool) | ONothing.

(** What a run is given: the variable, the clock, random bytes for a new bundle, the outcome of the lock, of the
    calls of the write, and whether standard output fails. *)
Record mutation_world := mkWorld {
  lock_variable : option string;
  now : Z;
  random : option bytes;
  wrapped : string;
  stat_refused : option string;
  open_refused : option (bool * string);
  read_fails : bool;
  read_ahead : Z -> Z;
  expired : bool * bool * bool;
  attempt : nat -> BundleIO.lock_outcome;
  clock : nat -> Z;
  interrupted : nat -> bool;
  release_fails : bool;
  save_calls : BundleIO.save_env;
  stdout_fails : bool
}.

(** Opening what is at a path: [None] if nothing is there. A file that is there may be refused. *)
Definition opened (w : mutation_world) (file : option bytes) : result os_error BundleIO.reader :=
  match file with
  | None => Err (mkOSError true false "no such file or directory")
  | Some data =>
      match open_refused w with
      | Some (forbidden, text) => Err (mkOSError false forbidden text)
      | None => Ok (BundleIO.mkReader data (read_fails w) (read_ahead w))
      end
  end.

(** The contents of the file at a path. *)
Definition file_at (fs : BundleIO.files) (path : string) : option bytes := fst <$> fs !! path.

(** [os.Stat]: whether there is a file. *)
Definition stat_of (w : mutation_world) (file : option bytes) : result string bool :=
  match stat_refused w with Some text => Err text | None => Ok (bool_decide (is_Some file)) end.

Definition exit_with (w : mutation_world) (r : mutationResult) : Z * output :=
  if stdout_fails w then (exitSystemError, OEncodeFailed) else (ExitCode r, OJSON r).

(** The exit with an error, as JSON or as text. *)
Definition report_problem (w : mutation_world) (format action : string) (dry : bool) (path ty : string) (p : problem) (code : Z) : Z * output :=
  if String.eqb format formatJSON then exit_with w (mkResult "error" action dry path 0 ty "" "" (Some p) code)
  else (code, OProblem p).

Definition usage (w : mutation_world) (format action : string) (dry : bool) (path : string) : Z * output :=
  if String.eqb format formatJSON then exit_with w (mkResult "error" action dry path 0 "" "" "" (Some PUsage) exitUserError)
  else (exitUserError, OUsage).

(** ** Reading, appending, writing *)

Section mutation.
Context `{Unicode}.
Context (fuel : nat) (w : mutation_world).

Definition timestamp : string := RFC3339 (now w).

(** [New]: a bundle with its manifest. *)
Definition fresh_bundle : result mutation_error bundle := map_err MCreate (New timestamp (random w)).

(** [bundle.Load] of what is at the path; [cancelled] by the deadline of the command, if it has one. *)
Definition load_file (cancelled : bool * bool) (file : option bytes) : result (BundleIO.file_error * load_failure) bundle :=
  let o := opened w file in
  let open_error := match o with Err e => e | Ok _ => mkOSError false false "" end in
  map_err (fun e => (e, failure_of open_error (wrapped w) e))
    (BundleIO.Load cancelled.1 (match o with Ok r => Some r | Err _ => None end) cancelled.2).

(** The bundle at the path, or a new one. *)
Definition load_or_new (file : option bytes) : result mutation_error bundle :=
  match load_file (false, false) file with
  | Ok b => Ok b
  | Err (e, f) => if lf_not_exist f then fresh_bundle else Err (MLoad e f)
  end.

(** The bundle with one record more, and that record. *)
Definition append_last (b : bundle) (ty : string) (data : any) (opts : AppendOptions) : result mutation_error (bundle * Record_) :=
  let? b' := map_err MAppend (AppendWithOptions b ty data (Some opts)) in
  match last b' with Some r => Ok (b', r) | None => Err MHash end.

(** [SaveWithRetry]; without an error if the lock cannot be released. [None]: it still waits for the lock. *)
Definition SaveWithRetry (cancelled : bool) (fs : BundleIO.files) (path : string) (b : bundle) (timeout : Z) :
    option (list BundleIO.files * result BundleIO.save_error unit) :=
  if cancelled then Some ([], Err BundleIO.SCancelled)
  else
    match BundleIO.AcquireWithRetry fuel (attempt w) (clock w) (interrupted w) (clock w O) timeout BundleIO.DefaultLockRetryInterval with
    | None => None
    | Some (_, BundleIO.RLocked) => Some ([], Err (BundleIO.SLock true))
    | Some (_, BundleIO.RFailed) => Some ([], Err (BundleIO.SLock false))
    | Some (_, BundleIO.RCancelled) => Some ([], Err BundleIO.SCancelled)
    | Some (_, BundleIO.RAcquired) =>
        let '(states, _, r) := BundleIO.saveUnlocked (save_calls w) fs path b in Some (states, r)
    end.

Definition save_failed (timeout : Z) (e : BundleIO.save_error) : mutation_error :=
  match e with
  | BundleIO.SLock true => if 0 <? timeout then MLockWait timeout else MSave e
  | _ => MSave e
  end.

Definition save_or_wait (cancelled : bool) (fs : BundleIO.files) (path : string) (b : bundle) (timeout : Z) :
    option (list BundleIO.files * result mutation_error unit) :=
  '(states, r) ← SaveWithRetry cancelled fs path b timeout;
  Some (states, map_err (save_failed timeout) r).

(** [Save], which does not wait. *)
Definition save_now (fs : BundleIO.files) (path : string) (b : bundle) : list BundleIO.files * result mutation_error unit :=
  let '(states, _, r) := BundleIO.Save false (attempt w O) (release_fails w) (save_calls w) fs path b in
  (states, map_err MSave r).

(** The file was read when it was [file]; the files are [fs] when it is written. Beside the states of the files, the
    bundle that was to be saved, if it came to that. *)
Definition appendToDefaultBundleWithLockWait (file : option bytes) (fs : BundleIO.files) (ty : string) (data : any) (dry : bool) (wait : Z)
    (opts : AppendOptions) : option (list BundleIO.files * option bundle * result mutation_error Record_) :=
  let opts := if String.eqb (Timestamp opts) "" then
                mkOptions (ActorID opts) (OrgID opts) (WorkspaceID opts) timestamp (TraceID opts) (SpanID opts) (ParentSpanID opts) (Acquisition opts)
              else opts in
  match (let? b := load_or_new file in append_last b ty data opts) with
  | Err e => Some ([], None, Err e)
  | Ok (b, r) =>
      if dry then Some ([], None, Ok r)
      else '(states, saved) ← save_or_wait false fs DefaultPath b wait; Some (states, Some b, let? _ := saved in Ok r)
  end.

Definition appendToBundlePath (file : option bytes) (fs : BundleIO.files) (ty : string) (data : any) (path : string) (dry : bool) :
    list BundleIO.files * option bundle * result mutation_error Record_ :=
  match (let? b := load_or_new file in append_last b ty data (no_options timestamp)) with
  | Err e => ([], None, Err e)
  | Ok (b, r) =>
      if dry then ([], None, Ok r)
      else let '(states, saved) := save_now fs path b in (states, Some b, let? _ := saved in Ok r)
  end.

Definition is_locked (e : mutation_error) : bool :=
  match e with MSave (BundleIO.SLock true) | MLockWait _ => true | _ => false end.

Definition mutation_exit (e : mutation_error) : Z :=
  if is_locked e then exitLockContention
  else match e with MLoad _ f => classifyBundleLoadError f | _ => exitSystemError end.

(** The record that was appended, or would be. *)
Definition report_record (format action message preview : string) (dry : bool) (path : string) (r : Record_) : Z * output :=
  if String.eqb format formatJSON then
    exit_with w (mkResult "ok" (if dry then "preview_" +:+ action else action) dry path (Event.Sequence (Event_ r)) (Event.Type_ (Event_ r)) (Bundle.Hash r)
                   (if dry then preview else message) None exitSuccess)
  else (exitSuccess, ORecord dry r).

(** ** [atb append] *)

(** A key: its bytes, or why there is none. *)
Record key_error := mkKeyError { key_missing : bool; key_forbidden : bool; key_text : string }.

Context (ReadFile : string -> option bytes) (loadEd25519PrivateKey : string -> result key_error bytes).
Context (ed25519_Sign : bytes -> bytes -> bytes) (public : bytes -> bytes) (payload_text : string).

Definition key_at (path : string) : option bytes := match loadEd25519PrivateKey path with Ok k => Some k | Err _ => None end.

(** The text of an error of [maybeSignPolicyDecisionEvent]. *)
Definition sign_text (path : string) (e : Policy.append_error) : string :=
  match e with
  | Policy.NotObject => "ai.policy.decision payload must be a JSON object when --sign-policy is set"
  | Policy.LoadKey =>
      match loadEd25519PrivateKey path with
      | Err e => if key_missing e then "no signing key found; run 'atb keygen' before using --sign-policy" else key_text e
      | Ok _ => ""
      end
  | Policy.Sign Policy.PrivateKeySize => "sign policy decision: invalid Ed25519 private key"
  | Policy.Sign _ => "sign policy decision: " +:+ payload_text
  | Policy.ReadDoc => ""
  end.

Definition classifySignError (permission : bool) (text : string) : Z :=
  if permission then exitSystemError
  else
    let msg := ToLower text in
    if Contains msg "no signing key found" then exitUserError
    else if Contains msg "malformed pem" || Contains msg "not ed25519" then exitUserError
    else if Contains msg "private key" then exitUserError
    else exitSystemError.

Definition classifyAppendPolicySignError (path : string) (e : Policy.append_error) : Z :=
  let text := sign_text path e in
  if Contains (ToLower text) "json object" then exitUserError
  else
    let permission := match e, loadEd25519PrivateKey path with
                      | Policy.LoadKey, Err k => key_forbidden k && negb (key_missing k)
                      | _, _ => false
                      end in
    classifySignError permission text.

(** The states of the files, the bundle that was to be saved, and the exit code with what is printed. *)
Definition run : Type := list BundleIO.files * option bundle * (Z * output).

Definition refused (o : Z * output) : run := ([], None, o).

Definition append_signed (file : option bytes) (fs : BundleIO.files) (f : mutation_flags) (wait : Z) (eventType : string) (input : appendCommandInput) (data : any) : option run :=
  '(states, saved, r) ← appendToDefaultBundleWithLockWait file fs eventType data (dryRun f) wait (Options input);
  Some (states, saved,
    match r with
    | Err e => report_problem w (outputFormat f) "append" (dryRun f) DefaultPath eventType (PMutation e) (mutation_exit e)
    | Ok r => report_record (outputFormat f) "append" "event appended" "event would be appended" (dryRun f) DefaultPath r
    end).

Definition runAppend (file : option bytes) (fs : BundleIO.files) (rawArgs : list string) : option run :=
  match parseMutationFlagsWithLockWait (lock_variable w) rawArgs with
  | Err e => Some (refused (report_problem w (if wants_json rawArgs then formatJSON else formatText) "append" false DefaultPath "" (PFlags e) exitUserError))
  | Ok (f, wait) =>
      let fail ty p code := Some (refused (report_problem w (outputFormat f) "append" (dryRun f) DefaultPath ty p code)) in
      match filtered f with
      | eventType :: arg :: args =>
          match parseAppendCommandArgs (arg :: args) with
          | Err e => fail eventType (PInput e) exitUserError
          | Ok input =>
              match GoValue.Unmarshal (B (RawJSON input)) with
              | None => fail eventType PJSON exitUserError
              | Some data =>
                  let keyPath := SignPolicyKeyPath input in
                  match Policy.maybePolicyDocEmbed ed25519_Sign eventType data (PolicyDocPath input) keyPath (ReadFile (PolicyDocPath input)) (key_at keyPath) with
                  | Err e => fail eventType (PPolicy e) exitUserError
                  | Ok data =>
                      match Policy.maybeSignPolicyDecisionEvent ed25519_Sign public eventType data keyPath (key_at keyPath) with
                      | Err e => fail eventType (PPolicy e) (classifyAppendPolicySignError keyPath e)
                      | Ok data => append_signed file fs f wait eventType input data
                      end
                  end
              end
          end
      | _ => Some (refused (usage w (outputFormat f) "append" (dryRun f) DefaultPath))
      end
  end.

(** ** [atb corroborate] *)

Definition MaxRawEvidenceBytes : Z := 4096.
Definition MaxHTTPResponseBytes : Z := 1 * 1024 * 1024.
Definition TypeCorroborationExternal : string := "atb.corroboration.external".

Record CorroborationRecord := mkCorroboration {
  Source : string;
  ReferenceID : string;
  Digest : string;
  RetrievedAt : Z;
  Adapter : string;
  RawEvidence : bytes;
  Truncated : bool
}.

Definition EventData (r : CorroborationRecord) : any :=
  AMap ([("source", AString (Source r)); ("reference_id", AString (ReferenceID r)); ("digest", AString (Digest r));
         ("retrieved_at", AString (RFC3339 (RetrievedAt r)))] ++
        (if String.eqb (Adapter r) "" then [] else [("adapter", AString (Adapter r))]) ++
        (if bool_decide (RawEvidence r = []) then [] else [("raw_evidence", AString (S_of (Base64.encode (RawEvidence r))))]) ++
        (if Truncated r then [("truncated", ABool true)] else [])).

(** A body that is JSON, with its digest; a large one is not kept. *)
Definition receipt (source referenceID : string) (body : bytes) : result fetch_error CorroborationRecord :=
  if bool_decide (json_parse body = None) then Err GNotJSON
  else
    let small := Z.of_nat (length body) <=? MaxRawEvidenceBytes in
    Ok (mkCorroboration source referenceID (S_of (hex_encode (Sha256.sum256 body))) (now w) source (if small then body else []) (negb small)).

(** What the gateway answers to a request, or why there is none: the status, the body and whether reading it fails at its end. *)
Context (gateway : string -> result string (Z * bytes * bool)).

Definition HTTPGatewayAdapter_Fetch (url referenceID : string) : result fetch_error CorroborationRecord :=
  match gateway url with
  | Err text => Err (GRequest text)
  | Ok (code, body, fails) =>
      if negb (code =? 200) then Err (GStatus code)
      else
        let limit := Z.to_nat (MaxHTTPResponseBytes + 1) in
        if fails && (length body <? limit)%nat then Err GRead
        else
          let body := take limit body in
          if MaxHTTPResponseBytes <? Z.of_nat (length body) then Err GTooLarge else receipt "http-gateway" referenceID body
  end.

Definition FileReceiptAdapter_Fetch (path referenceID : string) : result fetch_error CorroborationRecord :=
  if String.eqb (TrimSpace path) "" then Err GNoPath
  else match ReadFile path with None => Err GFile | Some body => receipt "file-receipt" referenceID body end.

Record corroborate_args := mkCorroborateArgs { ca_source : string; ca_url : string; ca_ref : string; ca_bundle : string; ca_path : string }.

Definition set_corroborate (flag value : string) (a : corroborate_args) : option corroborate_args :=
  if String.eqb flag "--source" then Some (mkCorroborateArgs value (ca_url a) (ca_ref a) (ca_bundle a) (ca_path a))
  else if String.eqb flag "--url" then Some (mkCorroborateArgs (ca_source a) value (ca_ref a) (ca_bundle a) (ca_path a))
  else if String.eqb flag "--ref" then Some (mkCorroborateArgs (ca_source a) (ca_url a) value (ca_bundle a) (ca_path a))
  else if String.eqb flag "--bundle" then Some (mkCorroborateArgs (ca_source a) (ca_url a) (ca_ref a) value (ca_path a))
  else if String.eqb flag "--path" then Some (mkCorroborateArgs (ca_source a) (ca_url a) (ca_ref a) (ca_bundle a) value)
  else None.

(** The flag without a value, or the argument that is none. *)
Fixpoint corroborate_loop (a : corroborate_args) (args : list string) : result string corroborate_args :=
  match args with
  | [] => Ok a
  | flag :: rest =>
      match rest with
      | [] => Err flag
      | value :: rest => match set_corroborate flag value a with Some a => corroborate_loop a rest | None => Err flag end
      end
  end.

Context (is_dir : string -> bool).

(** The adapter of the source, or the argument that it needs, or that there is none. *)
Definition fetch_receipt (a : corroborate_args) : result string (result fetch_error CorroborationRecord) :=
  if String.eqb (ca_source a) "http-gateway" then
    if String.eqb (ca_url a) "" then Err "--url" else Ok (HTTPGatewayAdapter_Fetch (ca_url a) (ca_ref a))
  else if String.eqb (ca_source a) "file-receipt" then
    if String.eqb (TrimSpace (ca_path a)) "" then Err "--path" else Ok (FileReceiptAdapter_Fetch (ca_path a) (ca_ref a))
  else Err "--source".

(** [file] is what is at the path of the bundle when it is read. *)
Definition runCorroborate (file : string -> option bytes) (fs : BundleIO.files) (rawArgs : list string) : run :=
  match parseMutationFlags (lock_variable w) rawArgs with
  | Err e => refused (report_problem w (if wants_json rawArgs then formatJSON else formatText) "corroborate" false DefaultPath "" (PFlags e) exitUserError)
  | Ok f =>
      match corroborate_loop (mkCorroborateArgs "" "" "" "" "") (filtered f) with
      | Err flag => refused (exitUserError, OProblem (PArgument flag))
      | Ok a =>
          if String.eqb (ca_source a) "" || String.eqb (ca_ref a) "" then refused (exitUserError, OUsage)
          else
            let path := normalizeBundlePath is_dir (ca_bundle a) in
            match fetch_receipt a with
            | Err flag => refused (exitUserError, OProblem (PArgument flag))
            | Ok (Err e) => refused (report_problem w (outputFormat f) "corroborate" (dryRun f) path "" (PFetch e) exitSystemError)
            | Ok (Ok rec) =>
                let '(states, saved, r) := appendToBundlePath (file path) fs TypeCorroborationExternal (EventData rec) path (dryRun f) in
                (states, saved,
                  match r with
                  | Err e => report_problem w (outputFormat f) "corroborate" (dryRun f) path TypeCorroborationExternal (PMutation e) (mutation_exit e)
                  | Ok r => report_record (outputFormat f) "corroborate" "corroboration event appended" "corroboration event would be appended" (dryRun f) path r
                  end)
            end
      end
  end.

(** ** [atb init] *)

(** [stat]: whether there is a file, or why that cannot be told. *)
Definition runInitWithOptions (stat : result string bool) (fs : BundleIO.files) (format : string) (dry : bool) (version : Z) : run :=
  let fail p := report_problem w format "init" dry DefaultPath "" p exitSystemError in
  let done action message text :=
    if String.eqb format formatJSON then exit_with w (mkResult "ok" action dry DefaultPath 0 "" "" message None exitSuccess) else (exitSuccess, text) in
  match stat with
  | Ok true => refused (done "noop" "bundle already exists; no changes" (OInit dry true))
  | Err text => refused (fail (PStat text))
  | Ok false =>
      if dry then refused (done "init" "bundle would be initialised" (OInit true false))
      else
        match NewWithOptions timestamp (random w) (mkNewOptions version "") with
        | Err e => refused (fail (PMutation (MCreate e)))
        | Ok b =>
            let '(states, saved) := save_now fs DefaultPath b in
            (states, Some b, match saved with Err e => fail (PMutation e) | Ok _ => done "init" "bundle initialised" (OInit false false) end)
        end
  end.

Definition runInit (stat : result string bool) (fs : BundleIO.files) (rawArgs : list string) : run :=
  match parseInitManifestVersionFlag rawArgs with
  | Err e => refused (exitUserError, OProblem (PVersion e))
  | Ok (args, version) =>
      match parseMutationFlags (lock_variable w) args with
      | Err e => refused (report_problem w (if wants_json rawArgs then formatJSON else formatText) "init" false DefaultPath "" (PFlags e) exitUserError)
      | Ok f =>
          if bool_decide (filtered f = []) then runInitWithOptions stat fs (outputFormat f) (dryRun f) version
          else refused (usage w (outputFormat f) "init" (dryRun f) DefaultPath)
      end
  end.

(** ** [atb snapshot] *)

Definition TypeSnapshot : string := "atb.snapshot".

Record snapshotEventData := mkSnapshotData {
  sd_Name : string;
  sd_BundleHash : string;
  sd_RecordCount : Z;
  sd_SnapshotAt : string;
  sd_ActorID : string;
  sd_ActorRole : string;
  sd_OversightNote : string
}.

Definition snapshot_fields (d : snapshotEventData) : any :=
  AStruct ([("name", AString (sd_Name d)); ("bundle_hash", AString (sd_BundleHash d)); ("record_count", AInt (sd_RecordCount d));
            ("snapshot_at", AString (sd_SnapshotAt d))] ++
           omit_string "actor_id" (sd_ActorID d) ++ omit_string "actor_role" (sd_ActorRole d) ++ omit_string "oversight_note" (sd_OversightNote d)).

Definition loadSnapshotBundle (file : option bytes) (requireExisting : bool) : result mutation_error (bundle * bool) :=
  match load_file (expired w).1 file with
  | Ok b => Ok (b, false)
  | Err (e, f) =>
      if lf_not_exist f then if requireExisting then Err MMissing else let? b := fresh_bundle in Ok (b, true)
      else Err (MLoad e f)
  end.

(** The record of a snapshot of [b], appended to it. *)
Definition snapshot_record (c : snapshotConfig) (b : bundle) : result mutation_error (snapshotEventData * bundle * Record_) :=
  match Score.SnapshotBundleHash b with
  | None => Err MHash
  | Some bundleHash =>
      let at_ := RFC3339Nano (now w) in
      let data := mkSnapshotData (Name c) bundleHash (Z.of_nat (length b)) at_ (s_ActorID c) (s_ActorRole c) (OversightNote c) in
      let? br := append_last b TypeSnapshot (snapshot_fields data) (no_options at_) in
      Ok (data, br.1, br.2)
  end.

Definition appendSnapshot (c : snapshotConfig) (requireExisting : bool) (file : option bytes) (fs : BundleIO.files) :
    option (list BundleIO.files * option bundle * result mutation_error (snapshotEventData * Record_)) :=
  match validateSnapshotName (Name c) with
  | Some e => Some ([], None, Err (MName e))
  | None =>
      match loadSnapshotBundle file requireExisting with
      | Err e => Some ([], None, Err e)
      | Ok (b, created) =>
          match validateOversightNote (OversightNote c) with
          | Some e => Some ([], None, Err (MNote e))
          | None =>
              match snapshot_record c b with
              | Err e => Some ([], None, Err e)
              | Ok (data, b, r) =>
                  if s_DryRun c then Some ([], None, Ok (data, r))
                  else '(states, saved) ← save_or_wait (expired w).2 fs (s_BundlePath c) b (s_LockWait c); Some (states, Some b, let? _ := saved in Ok (data, r))
              end
          end
      end
  end.

Definition snapshotExitCode (e : mutation_error) : Z :=
  if is_locked e then exitLockContention
  else
    match e with
    | MMissing | MNote _ => exitUserError
    | MLoad _ f => classifyBundleLoadError f
    | _ => exitSystemError
    end.

(** As JSON, as text, or not at all. *)
Definition snapshot_problem (c : snapshotConfig) (p : problem) (code : Z) (text : output) : Z * output :=
  if String.eqb (s_Format c) formatJSON then exit_with w (mkResult "error" "snapshot" (s_DryRun c) (s_BundlePath c) 0 "" "" "" (Some p) code)
  else (code, if s_Quiet c then ONothing else text).

Definition runSnapshot (file : string -> option bytes) (fs : BundleIO.files) (args : list string) : option run :=
  let '(c, e) := parseSnapshotArgs is_dir (lock_variable w) args in
  match e with
  | Some ErrSnapshotHelp => Some (refused (exitSuccess, OUsage))
  | Some e => Some (refused (snapshot_problem c (PSnapshot e) exitUserError (OProblem (PSnapshot e))))
  | None =>
      '(states, saved, r) ← appendSnapshot c true (file (s_BundlePath c)) fs;
      Some (states, saved,
        match r with
        | Err e => snapshot_problem c (PMutation e) (snapshotExitCode e) (OProblem (PMutation e))
        | Ok (data, r) =>
            if String.eqb (s_Format c) formatJSON then
              exit_with w (mkResult "ok" (if s_DryRun c then "preview_snapshot" else "snapshot") (s_DryRun c) (s_BundlePath c)
                             (Event.Sequence (Event_ r)) (Event.Type_ (Event_ r)) (Bundle.Hash r)
                             (if s_DryRun c then "snapshot would be appended" else "snapshot appended") None exitSuccess)
            else (exitSuccess, if s_Quiet c then ONothing else OSnapshot (Name c) (sd_RecordCount data) (sd_BundleHash data))
        end)
  end.
End mutation.

(** ** The commands as one *)

Inductive command := CAppend (args : list string) | CCorroborate (args : list string) | CInit (args : list string) | CSnapshot (args : list string).

Section commands.
Context `{Unicode} (fuel : nat) (ReadFile : string -> option bytes) (loadEd25519PrivateKey : string -> result key_error bytes).
Context (ed25519_Sign : bytes -> bytes -> bytes) (public : bytes -> bytes) (payload_text : string).
Context (gateway : string -> result string (Z * bytes * bool)) (is_dir : string -> bool).

(** The files are [view] when the command reads and [fs] when it writes. *)
Definition run_command (w : mutation_world) (c : command) (view fs : BundleIO.files) : option run :=
  match c with
  | CAppend args => runAppend fuel w ReadFile loadEd25519PrivateKey ed25519_Sign public payload_text (file_at view DefaultPath) fs args
  | CCorroborate args => Some (runCorroborate w ReadFile gateway is_dir (file_at view) fs args)
  | CInit args => Some (runInit w (stat_of w (file_at view DefaultPath)) fs args)
  | CSnapshot args => runSnapshot fuel w is_dir (file_at view) fs args
  end.

(** The bundle a command is about. *)
Definition target (w : mutation_world) (c : command) : string :=
  match c with
  | CAppend _ | CInit _ => DefaultPath
  | CCorroborate args =>
      match (let? f := map_err (fun _ => "") (parseMutationFlags (lock_variable w) args) in
             corroborate_loop (mkCorroborateArgs "" "" "" "" "") (filtered f)) with
      | Ok a => normalizeBundlePath is_dir (ca_bundle a)
      | Err _ => DefaultPath
      end
  | CSnapshot args => s_BundlePath (parseSnapshotArgs is_dir (lock_variable w) args).1
  end.

(** The event a command asks for: for [append] the one of its arguments, signed as they say; the receipt that was
    fetched; a manifest; a snapshot of what was read. *)
Definition asks (w : mutation_world) (c : command) (b : bundle) (ty : string) (data : any) : Prop :=
  match c with
  | CAppend args => exists f wait rest input d,
      parseMutationFlagsWithLockWait (lock_variable w) args = Ok (f, wait) /\ filtered f = ty :: rest /\
      parseAppendCommandArgs rest = Ok input /\ GoValue.Unmarshal (B (RawJSON input)) = Some d /\
      Policy.sign_payload ed25519_Sign public ty d (PolicyDocPath input) (SignPolicyKeyPath input)
        (ReadFile (PolicyDocPath input)) (key_at loadEd25519PrivateKey (SignPolicyKeyPath input)) = Ok data
  | CCorroborate args => ty = TypeCorroborationExternal /\
      exists f a rec, parseMutationFlags (lock_variable w) args = Ok f /\ corroborate_loop (mkCorroborateArgs "" "" "" "" "") (filtered f) = Ok a /\
        fetch_receipt w ReadFile gateway a = Ok (Ok rec) /\ data = EventData rec
  | CInit _ => b = [] /\ ty = ManifestEventType
  | CSnapshot args => ty = TypeSnapshot /\
      exists c h, parseSnapshotArgs is_dir (lock_variable w) args = (c, None) /\ Score.SnapshotBundleHash b = Some h /\
        data = snapshot_fields (mkSnapshotData (Name c) h (Z.of_nat (length b)) (RFC3339Nano (now w)) (s_ActorID c) (s_ActorRole c) (OversightNote c))
  end.

(** Commands that change nothing: a dry run, a request for help, [atb init] where there is a bundle. *)
Definition harmless (c : command) (view : BundleIO.files) : bool :=
  match c with
  | CAppend args | CCorroborate args => bool_decide ("--dry-run" ∈ args)
  | CInit args => bool_decide ("--dry-run" ∈ args) || bool_decide (is_Some (file_at view DefaultPath))
  | CSnapshot args => bool_decide ("--dry-run" ∈ args) || bool_decide ("-h" ∈ args) || bool_decide ("--help" ∈ args)
  end.
End commands.

(** ** What a command leaves *)

(** What is read: the bundle in the file, or, where there is none, a new one. *)
Inductive base `{Unicode} (w : mutation_world) (file : option bytes) : bundle -> Prop :=
| base_loaded cancelled b : load_file w cancelled file = Ok b -> base w file b
| base_fresh b : file = None -> fresh_bundle w = Ok b -> base w file b
| base_empty : file = None -> base w file [].

(** The bundle that is read, with one record more, of an event that was [asked] for. *)
Definition extends `{Unicode} (w : mutation_world) (file : option bytes) (asked : bundle -> string -> any -> Prop) (b' : bundle) (r : Record_) : Prop :=
  exists b ty data opts, base w file b /\ asked b ty data /\ AppendWithOptions b ty data opts = Ok b' /\ b' = b ++ [r].

(** The states of a write of [b]: the old file or the new one, and the new one if it succeeds. *)
Definition writes (w : mutation_world) (path : string) (fs : BundleIO.files) (b : bundle) (states : list BundleIO.files) (done : Prop) : Prop :=
  exists raw, BundleIO.encode_records b = Some raw /\
    Forall (BundleIO.old_or_new fs (BundleIO.env_tmp (save_calls w)) path (raw, BundleIO.bundleFileMode)) states /\
    (done -> BundleIO.final_state fs states = <[path := (raw, BundleIO.bundleFileMode)]> fs).

(** The name of the temporary file is unused. *)
Definition fresh_name (w : mutation_world) (path : string) (fs : BundleIO.files) : Prop :=
  BundleIO.env_tmp (save_calls w) <> path /\ fs !! BundleIO.env_tmp (save_calls w) = None.

(** A save wrote nothing and failed, or wrote the bundle; an error after that is not one of the lock. *)
Definition saves {A} (w : mutation_world) (path : string) (fs : BundleIO.files) (b : bundle) (states : list BundleIO.files) (r : result mutation_error A) : Prop :=
  states = [] /\ is_ok r = false \/
  writes w path fs b states (is_ok r = true) /\ (forall e, r = Err e -> exists s, e = MSave s /\ s <> BundleIO.SLock true).

Section leaving.
Context `{Unicode} (fuel : nat) (w : mutation_world).

Lemma saveUnlocked_writes fs path b states b' r :
  fresh_name w path fs -> BundleIO.saveUnlocked (save_calls w) fs path b = (states, b', r) ->
  states = [] /\ is_ok r = false \/ writes w path fs b states (is_ok r = true) /\ (forall e, r = Err e -> exists st, e = BundleIO.SWrite st).
Proof.
  intros [Hne Hn] H0. unfold BundleIO.saveUnlocked in H0.
  destruct (BundleIO.env_cancelled _ 0); [injection H0 as <- <- <-; by left|]. destruct (BundleIO.env_mkdir_fails _); [injection H0 as <- <- <-; by left|].
  destruct (BundleIO.encode_loop _ _ _ _) as [raw|] eqn:Ee; [|injection H0 as <- <- <-; by left].
  apply BundleIO.encode_loop_ok in Ee as (more & Hraw & ->). cbn [app] in H0.
  destruct (BundleIO.writeAtomic _ _ _ _ _ _ _) as [st r0] eqn:Ew.
  destruct (BundleIO.writeAtomic_states _ _ _ _ _ _ _ _ _ Hne Hn Ew) as [Hst Hfin].
  change (if BundleIO.bundleFileMode =? 0 then BundleIO.bundleFileMode else BundleIO.bundleFileMode) with BundleIO.bundleFileMode in *.
  right. destruct r0 as [[]|s]; injection H0 as <- _ <-.
  - split; [|done]. exists more. by split_and!.
  - split; [exists more; by split_and!|]. intros e E. injection E as <-. by exists s.
Qed.

Lemma saved_now fs path b states r :
  fresh_name w path fs -> save_now w fs path b = (states, r) -> saves w path fs b states r.
Proof.
  intros Hf. unfold saves, save_now, BundleIO.Save, BundleIO.withBundleLock. destruct (attempt w 0); [|by intros [= <- <-]; left..].
  destruct (BundleIO.saveUnlocked _ _ _ _) as [[st b'] r0] eqn:Es. apply saveUnlocked_writes in Es as [[-> Hr]|[Hw He]]; [| |done].
  - destruct r0 as [[]|]; [done|]. intros [= <- <-]. by left.
  - destruct r0 as [[]|e].
    + destruct (release_fails w); intros [= <- <-]; right; (split; [|intros e E; try done]).
      * destruct Hw as (raw & H1 & H2 & H3). exists raw. by split_and!.
      * injection E as <-. by eexists.
      * done.
    + intros [= <- <-]. right. split; [exact Hw|]. intros e0 E. injection E as <-. destruct (He e eq_refl) as [st0 ->]. by eexists.
Qed.

Lemma saved_waiting cancelled fs path b timeout states r :
  fresh_name w path fs -> save_or_wait fuel w cancelled fs path b timeout = Some (states, r) -> saves w path fs b states r.
Proof.
  intros Hf. unfold saves, save_or_wait, SaveWithRetry. destruct cancelled; [intros [= <- <-]; by left|].
  destruct (BundleIO.AcquireWithRetry _ _ _ _ _ _ _) as [[sl a]|]; [|done]. destruct a; [|by intros [= <- <-]; left..].
  destruct (BundleIO.saveUnlocked _ _ _ _) as [[st b'] r0] eqn:Es. cbn [mbind option_bind]. intros [= <- <-].
  apply saveUnlocked_writes in Es as [[-> Hr]|[Hw He]]; [| |done].
  - left. by destruct r0.
  - right. split; [destruct Hw as (raw & H1 & H2 & H3); exists raw; split_and!; [done|done|by destruct r0]|].
    intros e E. destruct r0 as [|e0]; [done|]. injection E as <-. destruct (He e0 eq_refl) as [st0 ->]. by eexists.
Qed.
End leaving.

(** ** What the arguments say *)

Section arguments.
Context `{Unicode}.

Lemma with_wait_dry f v f' : with_wait f v = Ok f' -> dryRun f' = dryRun f.
Proof. unfold with_wait. destruct (parseLockWaitDuration v); [|done]. by intros [= <-]. Qed.

Lemma flags_dry n : forall args f f', (length args <= n)%nat -> flags_loop f args = Ok f' -> dryRun f' = true -> dryRun f = true \/ "--dry-run" ∈ args.
Proof.
  induction n as [|n IH]; intros [|arg rest] f f' Hn; cbn [flags_loop length] in *; try (intros [= <-]; by left); [lia|].
  destruct (String.eqb_spec arg "--dry-run") as [->|_]; [intros _ _; right; left|].
  assert (forall f1 l, (length l <= length rest)%nat -> l ⊆ rest -> dryRun f1 = dryRun f -> flags_loop f1 l = Ok f' -> dryRun f' = true ->
    dryRun f = true \/ "--dry-run" ∈ arg :: rest) as Hgo.
  { intros f1 l Hl Hsub Hd Hf Ht. destruct (IH l f1 f') as [E|E]; [lia|done|done|left; congruence|right; right; by apply Hsub]. }
  assert (forall (v : string) l, l ⊆ v :: l) as Htl by (intros v l x Hx; by right).
  destruct (String.eqb arg "--format"); [destruct rest as [|v rest]; [done|apply Hgo; [cbn; lia|apply Htl|done]]|].
  destruct (HasPrefix arg "--format="); [by apply Hgo|].
  destruct (String.eqb arg "--lock-wait").
  { destruct rest as [|v rest]; [done|]. destruct (with_wait f v) as [f1|] eqn:E; [|done]. apply Hgo; [cbn; lia|apply Htl|by eapply with_wait_dry]. }
  destruct (HasPrefix arg "--lock-wait="); [|by apply Hgo].
  destruct (with_wait f _) as [f1|] eqn:E; [|done]. apply Hgo; [done|done|by eapply with_wait_dry].
Qed.

Lemma parsed_dry env args f wait : parseMutationFlagsWithLockWait env args = Ok (f, wait) -> dryRun f = true -> "--dry-run" ∈ args.
Proof.
  unfold parseMutationFlagsWithLockWait. destruct (flags_loop _ _) as [f1|] eqn:E; [|done].
  assert (dryRun f1 = true -> "--dry-run" ∈ args) as Hd by (intros Hd; by destruct (flags_dry _ _ _ _ (le_n _) E Hd)).
  destruct (negb _); [done|]. destruct (lockWait f1); [by intros [= <- _]|]. destruct (lockWaitFromEnv env); [|done]. by intros [= <- _].
Qed.

Lemma parsed_dry' env args f : parseMutationFlags env args = Ok f -> dryRun f = true -> "--dry-run" ∈ args.
Proof.
  unfold parseMutationFlags. destruct (parseMutationFlagsWithLockWait env args) as [[f1 wait]|] eqn:E; [|done].
  intros [= <-]. by eapply parsed_dry.
Qed.

Lemma version_args n : forall args l v l' v', (length args <= n)%nat -> version_loop l v args = Ok (l', v') -> forall x, x ∈ l' -> x ∈ l \/ x ∈ args.
Proof.
  induction n as [|n IH]; intros [|arg rest] l v l' v' Hn; cbn [version_loop length] in *; try (intros [= <- <-]; by left); [lia|].
  assert (forall l0 l1 v1, (length l1 <= length rest)%nat -> l1 ⊆ rest -> version_loop l0 v1 l1 = Ok (l', v') ->
    forall x, x ∈ l' -> x ∈ l0 \/ x ∈ arg :: rest) as Hgo.
  { intros l0 l1 v1 Hl Hsub Hf x Hx. destruct (IH l1 l0 v1 l' v' ltac:(lia) Hf x Hx); [by left|right; right; by apply Hsub]. }
  destruct (String.eqb arg "--manifest-version").
  { destruct rest as [|value rest]; [done|]. destruct (parseManifestVersionFlagValue value); [|done].
    apply Hgo; [cbn; lia|intros x Hx; by right]. }
  destruct (HasPrefix arg "--manifest-version="); [destruct (parseManifestVersionFlagValue _); [|done]; by apply Hgo|].
  intros Hf x Hx. destruct (Hgo _ _ _ (le_n _) (fun x Hx => Hx) Hf x Hx) as [E|E]; [|by right].
  apply elem_of_app in E as [E|E]; [by left|]. apply list_elem_of_singleton in E as ->. right. left.
Qed.

Lemma set_snapshot_dry is_dir o v st st' : set_snapshot is_dir o v st = Ok st' -> s_DryRun (cfg st') = s_DryRun (cfg st).
Proof.
  unfold set_snapshot. destruct o; cbv zeta; [destruct (bundlePathSet st); [done|]|..|destruct (parseLockWaitDuration v); [|done]]; by intros [= <-].
Qed.

Lemma set_snapshot_help is_dir o v st e : set_snapshot is_dir o v st = Err e -> e <> ErrSnapshotHelp.
Proof.
  unfold set_snapshot. destruct o; cbv zeta; [destruct (bundlePathSet st)|..|destruct (parseLockWaitDuration v)]; try done; by intros [= <-].
Qed.

Lemma snapshot_loop_says is_dir n : forall args st st' e, (length args <= n)%nat -> snapshot_loop is_dir st args = (st', e) ->
  (s_DryRun (cfg st') = true -> s_DryRun (cfg st) = true \/ "--dry-run" ∈ args) /\
  (e = Some ErrSnapshotHelp -> "-h" ∈ args \/ "--help" ∈ args).
Proof.
  induction n as [|n IH]; intros [|arg rest] st st' e Hn; cbn [snapshot_loop length] in *; try (intros [= <- <-]; split; [by left|done]); [lia|].
  assert (forall st1 l, (length l <= length rest)%nat -> l ⊆ rest -> s_DryRun (cfg st1) = s_DryRun (cfg st) -> snapshot_loop is_dir st1 l = (st', e) ->
    (s_DryRun (cfg st') = true -> s_DryRun (cfg st) = true \/ "--dry-run" ∈ arg :: rest) /\
    (e = Some ErrSnapshotHelp -> "-h" ∈ arg :: rest \/ "--help" ∈ arg :: rest)) as Hgo.
  { intros st1 l Hl Hsub Hd Hf. destruct (IH l st1 st' e ltac:(lia) Hf) as [H1 H2]. rewrite Hd in H1. split.
    - intros Ht. destruct (H1 Ht) as [E|E]; [by left|right; right; by apply Hsub].
    - intros Ht. destruct (H2 Ht) as [E|E]; [left|right]; right; by apply Hsub. }
  assert (forall (v : string) l, l ⊆ v :: l) as Htl by (intros v l x Hx; by right).
  destruct (bool_decide_reflect (arg ∈ ["-h"; "--help"])) as [Hh|_].
  { intros [= <- <-]. split; [by left|]. intros _. set_unfold in Hh. destruct Hh as [-> |[-> |[]]]; [left|right]; left. }
  destruct (String.eqb arg "--quiet"); [by apply Hgo|].
  destruct (String.eqb_spec arg "--dry-run") as [->|_].
  { intros Hf. split; [intros _; right; left|]. destruct (IH rest _ st' e ltac:(lia) Hf) as [_ H2]. intros Ht. destruct (H2 Ht); [left|right]; by right. }
  destruct (snapshot_option_named arg) as [[o [v|]]|].
  - destruct (set_snapshot is_dir o v st) as [st1|e1] eqn:E; [apply Hgo; [done|done|by eapply set_snapshot_dry]|].
    intros [= <- <-]. split; [by left|]. intros [= ->]. by apply set_snapshot_help in E.
  - destruct rest as [|v rest]; [intros [= <- <-]; split; [by left|done]|].
    destruct (set_snapshot is_dir o v st) as [st1|e1] eqn:E; [apply Hgo; [cbn; lia|apply Htl|by eapply set_snapshot_dry]|].
    intros [= <- <-]. split; [by left|]. intros [= ->]. by apply set_snapshot_help in E.
  - destruct (HasPrefix arg "-"); [intros [= <- <-]; split; [by left|done]|].
    destruct (nameSet st); [intros [= <- <-]; split; [by left|done]|]. by apply Hgo.
Qed.

Lemma snapshot_says is_dir env args c e : parseSnapshotArgs is_dir env args = (c, e) ->
  (s_DryRun c = true -> "--dry-run" ∈ args) /\ (e = Some ErrSnapshotHelp -> "-h" ∈ args \/ "--help" ∈ args).
Proof.
  unfold parseSnapshotArgs. destruct (snapshot_loop is_dir _ args) as [st e0] eqn:E.
  apply (snapshot_loop_says is_dir _ _ _ _ _ (le_n _)) in E as [H1 H2]. cbn [cfg default_snapshot s_DryRun] in H1.
  assert (s_DryRun (cfg st) = true -> "--dry-run" ∈ args) as Hd by (intros Ht; by destruct (H1 Ht)). clear H1.
  destruct e0; [by intros [= <- <-]|]. destruct (negb (nameSet st)); [by intros [= <- <-]|].
  destruct (validateSnapshotName _); [by intros [= <- <-]|]. destruct (negb (known_format _)); [by intros [= <- <-]|].
  destruct (lockWaitSet st); [by intros [= <- <-]|]. destruct (lockWaitFromEnv env); by intros [= <- <-].
Qed.
End arguments.

(** ** Exit codes *)

Section codes.
Context `{Unicode}.

Lemma exit_with_code w r : (exit_with w r).1 = ExitCode r \/ (exit_with w r).1 = exitSystemError.
Proof. unfold exit_with. destruct (stdout_fails w); [by right|by left]. Qed.

Lemma problem_code w format action dry path ty p code :
  (report_problem w format action dry path ty p code).1 = code \/ (report_problem w format action dry path ty p code).1 = exitSystemError.
Proof. unfold report_problem. destruct (String.eqb format formatJSON); [apply exit_with_code|by left]. Qed.

Lemma problem_fails w format action dry path ty p code :
  code <> exitSuccess -> (report_problem w format action dry path ty p code).1 <> exitSuccess.
Proof. intros Hc. by destruct (problem_code w format action dry path ty p code) as [-> | ->]. Qed.

Lemma usage_fails w format action dry path : (usage w format action dry path).1 <> exitSuccess.
Proof.
  unfold usage. destruct (String.eqb format formatJSON); [|done].
  match goal with |- (exit_with w ?r).1 <> _ => by destruct (exit_with_code w r) as [-> | ->] end.
Qed.

Lemma record_code w format action m p dry path r :
  (report_record w format action m p dry path r).1 = exitSuccess \/ (report_record w format action m p dry path r).1 = exitSystemError.
Proof. unfold report_record. destruct (String.eqb format formatJSON); [apply exit_with_code|by left]. Qed.

Lemma snapshot_problem_code w c p code text :
  (snapshot_problem w c p code text).1 = code \/ (snapshot_problem w c p code text).1 = exitSystemError.
Proof. unfold snapshot_problem. destruct (String.eqb (s_Format c) formatJSON); [apply exit_with_code|by left]. Qed.

Lemma load_error_fails f : classifyBundleLoadError f <> exitSuccess.
Proof.
  unfold classifyBundleLoadError. destruct (lf_locked f); [done|]. destruct (lf_not_exist f); [done|]. destruct (lf_permission f); [done|].
  by destruct (_ || _).
Qed.

Lemma mutation_fails e : mutation_exit e <> exitSuccess.
Proof. unfold mutation_exit. destruct (is_locked e); [done|]. destruct e; try done. apply load_error_fails. Qed.

Lemma snapshot_fails e : snapshotExitCode e <> exitSuccess.
Proof. unfold snapshotExitCode. destruct (is_locked e); [done|]. destruct e; try done. apply load_error_fails. Qed.

Lemma sign_fails load text path e : classifyAppendPolicySignError load text path e <> exitSuccess.
Proof.
  unfold classifyAppendPolicySignError, classifySignError. cbv zeta. destruct (Contains _ "json object"); [done|].
  match goal with |- (if ?p then _ else _) <> _ => destruct p end; [done|].
  repeat match goal with |- (if ?b then _ else _) <> _ => destruct b; [done|] end. done.
Qed.

(** ** The commands refine one write *)

(** Nothing is written, and the command fails unless [idle]; or one record is added to what was read, and the bundle saved. *)
Definition one_write (w : mutation_world) (path : string) (file : option bytes) (asked : bundle -> string -> any -> Prop) (fs : BundleIO.files) (idle : bool)
    (states : list BundleIO.files) (saved : option bundle) (code : Z) : Prop :=
  states = [] /\ (code = exitSuccess -> idle = true) \/
  (exists b r, saved = Some b /\ extends w file asked b r /\ writes w path fs b states (code = exitSuccess)) /\ code <> exitLockContention.

Lemma nothing_fails w path file asked fs idle saved code : code <> exitSuccess -> one_write w path file asked fs idle [] saved code.
Proof. intros Hc. left. by split. Qed.

Lemma load_or_new_base w file b : load_or_new w file = Ok b -> base w file b.
Proof.
  unfold load_or_new. destruct (load_file w (false, false) file) as [b0|[e f]] eqn:E; [intros [= <-]; by eapply base_loaded|].
  destruct (lf_not_exist f) eqn:Ef; [|done]. intros Hb. apply base_fresh; [|done]. destruct file as [data|]; [|done]. exfalso.
  unfold load_file, opened in E. destruct (open_refused w) as [[forbidden text]|]; cbn [BundleIO.Load fst snd] in E.
  - injection E as _ <-. cbn in Ef. done.
  - destruct (BundleIO.LoadReader _); [done|]. injection E as _ <-. done.
Qed.

Lemma append_last_extends w file (asked : bundle -> string -> any -> Prop) b ty data opts b' r : base w file b -> asked b ty data -> append_last b ty data opts = Ok (b', r) -> extends w file asked b' r.
Proof.
  unfold append_last. intros Hb Hq. destruct (AppendWithOptions b ty data (Some opts)) as [b1|] eqn:E; [|done]. cbn [map_err].
  pose proof E as Ha. apply append_inv in Ha as (h & -> & _). rewrite last_snoc. intros [= <- <-].
  exists b, ty, data, (Some opts). by split_and!.
Qed.

Lemma prepared_extends w file (asked : bundle -> string -> any -> Prop) ty data opts b r :
  (forall b, asked b ty data) ->
  (let? b := load_or_new w file in append_last b ty data opts) = Ok (b, r) -> extends w file asked b r.
Proof. intros Hq. destruct (load_or_new w file) as [b0|] eqn:E; [|done]. intros. eapply append_last_extends; [by apply load_or_new_base|apply Hq|done]. Qed.

(** From a save to the exit: [ok] is what is printed on success, [bad] on an error. *)
Lemma saves_one_write w path file asked fs idle b r states (saved : result mutation_error unit) {A} (a : A) (ok : A -> Z * output) (bad : mutation_error -> Z * output) :
  extends w file asked b r -> saves w path fs b states saved ->
  (forall a, (ok a).1 = exitSuccess \/ (ok a).1 = exitSystemError) -> (forall e, (bad e).1 <> exitSuccess) ->
  (forall s, s <> BundleIO.SLock true -> (bad (MSave s)).1 = exitSystemError) ->
  one_write w path file asked fs idle states (Some b) (match (let? _ := saved in Ok a) with Ok a => ok a | Err e => bad e end).1.
Proof.
  intros Hx Hs Hok Hbad Hlock. destruct Hs as [[-> Hr]|[(raw & H1 & H2 & H3) He]].
  - destruct saved as [|e]; [done|]. by apply nothing_fails.
  - right. destruct saved as [[]|e].
    + split; [exists b, r; split_and!; [done|done|]; exists raw; split_and!; [done|done|by intros _; apply H3]|]. by destruct (Hok a) as [-> | ->].
    + destruct (He e eq_refl) as (s & -> & Hs). rewrite Hlock by done.
      split; [|done]. exists b, r. split_and!; [done|done|]. exists raw. by split_and!.
Qed.

Lemma save_error_exit s : s <> BundleIO.SLock true -> mutation_exit (MSave s) = exitSystemError /\ snapshotExitCode (MSave s) = exitSystemError.
Proof. unfold mutation_exit, snapshotExitCode, is_locked. destruct s as [| | | |locked|]; try done. by destruct locked. Qed.

Lemma problem_system w format action dry path ty p : (report_problem w format action dry path ty p exitSystemError).1 = exitSystemError.
Proof. by destruct (problem_code w format action dry path ty p exitSystemError) as [-> | ->]. Qed.

Lemma append_one_write fuel w file (asked : bundle -> string -> any -> Prop) fs f wait ty input data idle states saved out :
  fresh_name w DefaultPath fs -> (forall b, asked b ty data) -> (dryRun f = true -> idle = true) ->
  append_signed fuel w file fs f wait ty input data = Some (states, saved, out) -> one_write w DefaultPath file asked fs idle states saved out.1.
Proof.
  intros Hf Hq Hd. unfold append_signed, appendToDefaultBundleWithLockWait. cbv zeta. set (opts := if String.eqb (Timestamp _) "" then _ else _).
  destruct (let? b := load_or_new w file in append_last b ty data opts) as [[b r]|e] eqn:E; cbn [mbind option_bind].
  - apply (prepared_extends w file asked) in E; [|exact Hq]. destruct (dryRun f) eqn:Ed.
    + intros [= <- <- <-]. left. split; [done|]. intros _. by apply Hd.
    + destruct (save_or_wait fuel w false fs DefaultPath b wait) as [[st r0]|] eqn:Es; [|done]. cbn [mbind option_bind].
      apply saved_waiting in Es; [|done]. intros [= <- <- <-]. eapply saves_one_write; [done|done|intros; apply record_code|..].
      * intros e. apply problem_fails, mutation_fails.
      * intros s Hs. destruct (save_error_exit s Hs) as [-> _]. apply problem_system.
  - intros [= <- <- <-]. apply nothing_fails, problem_fails, mutation_fails.
Qed.
End codes.

Section refinement.
Context `{Unicode} (fuel : nat) (ReadFile : string -> option bytes) (loadEd25519PrivateKey : string -> result key_error bytes).
Context (ed25519_Sign : bytes -> bytes -> bytes) (public : bytes -> bytes) (payload_text : string).
Context (gateway : string -> result string (Z * bytes * bool)) (is_dir : string -> bool).

Local Abbreviation asked := (asks ReadFile loadEd25519PrivateKey ed25519_Sign public gateway is_dir).
Local Abbreviation execute := (run_command fuel ReadFile loadEd25519PrivateKey ed25519_Sign public payload_text gateway is_dir).

Lemma append_refines w args file fs idle states saved out :
  fresh_name w DefaultPath fs -> ("--dry-run" ∈ args -> idle = true) ->
  runAppend fuel w ReadFile loadEd25519PrivateKey ed25519_Sign public payload_text file fs args = Some (states, saved, out) ->
  one_write w DefaultPath file (asked w (CAppend args)) fs idle states saved out.1.
Proof.
  intros Hf Hd. unfold runAppend, refused. destruct (parseMutationFlagsWithLockWait _ _) as [[f wait]|] eqn:Ep.
  2:{ intros [= <- <- <-]. by apply nothing_fails, problem_fails. }
  destruct (filtered f) as [|ty [|arg rest]] eqn:Efl; [intros [= <- <- <-]; apply nothing_fails, usage_fails..|].
  destruct (parseAppendCommandArgs _) as [input|] eqn:Ei; [|intros [= <- <- <-]; by apply nothing_fails, problem_fails].
  destruct (GoValue.Unmarshal _) as [data|] eqn:Eu; [|intros [= <- <- <-]; by apply nothing_fails, problem_fails]. cbv zeta.
  destruct (Policy.maybePolicyDocEmbed _ _ _ _ _ _ _) as [data'|] eqn:Ee; [|intros [= <- <- <-]; by apply nothing_fails, problem_fails].
  destruct (Policy.maybeSignPolicyDecisionEvent _ _ _ _ _ _) as [data''|] eqn:Esg;
    [|intros [= <- <- <-]; apply nothing_fails, problem_fails, sign_fails].
  apply append_one_write; [done| |].
  { intros b. exists f, wait, (arg :: rest), input, data. split_and!; try done. unfold Policy.sign_payload. by rewrite Ee. }
  intros Ht. apply Hd. by eapply parsed_dry.
Qed.

Lemma corroborate_refines w args view fs states saved out :
  fresh_name w (target is_dir w (CCorroborate args)) fs ->
  runCorroborate w ReadFile gateway is_dir (file_at view) fs args = (states, saved, out) ->
  one_write w (target is_dir w (CCorroborate args)) (file_at view (target is_dir w (CCorroborate args))) (asked w (CCorroborate args)) fs (harmless (CCorroborate args) view) states saved out.1.
Proof.
  unfold target, runCorroborate. cbn [harmless]. destruct (parseMutationFlags _ _) as [f|] eqn:Ep; cbn [map_err].
  2:{ intros _ [= <- <- <-]. by apply nothing_fails, problem_fails. }
  destruct (corroborate_loop _ _) as [a|] eqn:Ea; [|intros _ [= <- <- <-]; by apply nothing_fails].
  destruct (_ || _); [intros _ [= <- <- <-]; by apply nothing_fails|]. cbv zeta. set (path := normalizeBundlePath _ _). intros Hf.
  destruct (fetch_receipt _ _ _ _) as [[rec|]|] eqn:Er; [|intros [= <- <- <-]; by apply nothing_fails, problem_fails|intros [= <- <- <-]; by apply nothing_fails].
  unfold appendToBundlePath.
  destruct (let? b := load_or_new w (file_at view path) in append_last b _ _ _) as [[b r]|e] eqn:E.
  - apply (prepared_extends w _ (asked w (CCorroborate args))) in E; [|intros b0; split; [done|]; by exists f, a, rec]. destruct (dryRun f) eqn:Ed.
    + intros [= <- <- <-]. left. split; [done|]. intros _. apply bool_decide_eq_true. by eapply parsed_dry'.
    + destruct (save_now w fs path b) as [st r0] eqn:Es. apply saved_now in Es; [|done]. intros [= <- <- <-].
      eapply saves_one_write; [done|done|intros; apply record_code|..].
      * intros e. apply problem_fails, mutation_fails.
      * intros s Hs. destruct (save_error_exit s Hs) as [-> _]. apply problem_system.
  - intros [= <- <- <-]. apply nothing_fails, problem_fails, mutation_fails.
Qed.

Lemma init_extends w file args v b : file = None -> NewWithOptions (timestamp w) (random w) (mkNewOptions v "") = Ok b -> exists r, extends w file (asked w (CInit args)) b r.
Proof.
  intros Hn Hb. apply New_append in Hb as (data & Ha). pose proof Ha as Hinv. apply append_inv in Hinv as (h & -> & _).
  eexists _, [], _, _, _. split_and!; [by apply base_empty|done|exact Ha|done].
Qed.

Lemma init_refines w args view fs states saved out :
  fresh_name w DefaultPath fs ->
  runInit w (stat_of w (file_at view DefaultPath)) fs args = (states, saved, out) ->
  one_write w DefaultPath (file_at view DefaultPath) (asked w (CInit args)) fs (harmless (CInit args) view) states saved out.1.
Proof.
  intros Hf. unfold runInit. cbn [harmless]. destruct (parseInitManifestVersionFlag args) as [[args' v]|] eqn:Ev.
  2:{ intros [= <- <- <-]. by apply nothing_fails. }
  destruct (parseMutationFlags _ _) as [f|] eqn:Ep; [|intros [= <- <- <-]; by apply nothing_fails, problem_fails].
  destruct (bool_decide (filtered f = [])); [|intros [= <- <- <-]; apply nothing_fails, usage_fails].
  unfold runInitWithOptions, stat_of. destruct (stat_refused w); [intros [= <- <- <-]; by apply nothing_fails, problem_fails|].
  destruct (file_at view DefaultPath) as [data|] eqn:Efile.
  { rewrite bool_decide_true by done. intros [= <- <- <-]. left. split; [done|]. intros _. rewrite orb_true_r. done. }
  rewrite bool_decide_false by (by intros [? ?]). destruct (dryRun f) eqn:Ed.
  { intros [= <- <- <-]. left. split; [done|]. intros _. rewrite bool_decide_true; [done|].
    destruct (version_args _ _ _ _ _ _ (le_n _) Ev "--dry-run" (parsed_dry' _ _ _ Ep Ed)) as [E|E]; [by apply not_elem_of_nil in E|done]. }
  destruct (NewWithOptions _ _ _) as [b|] eqn:Eb; [|intros [= <- <- <-]; by apply nothing_fails, problem_fails].
  destruct (init_extends w None args v b eq_refl Eb) as [r Hx].
  destruct (save_now w fs DefaultPath b) as [st r0] eqn:Es. apply saved_now in Es; [|done]. intros [= <- <- <-].
  match goal with |- context [match r0 with Ok _ => ?k | Err e => _ end] => pose (ok := fun _ : unit => k) end.
  match goal with |- one_write _ _ _ _ _ ?idle _ _ _ =>
    pose proof (saves_one_write w DefaultPath None (asked w (CInit args)) fs idle b r st r0 tt ok
      (fun e => report_problem w (outputFormat f) "init" false DefaultPath "" (PMutation e) exitSystemError) Hx Es) as Hw end.
  destruct r0 as [[]|e]; apply Hw.
  1,4: (intros a; unfold ok; destruct (String.eqb _ _); [apply exit_with_code|by left]).
  1,3: (intros e0; by apply problem_fails).
  1,2: (intros s _; apply problem_system).
Qed.

Lemma snapshot_refines w args view fs states saved out :
  fresh_name w (target is_dir w (CSnapshot args)) fs ->
  runSnapshot fuel w is_dir (file_at view) fs args = Some (states, saved, out) ->
  one_write w (target is_dir w (CSnapshot args)) (file_at view (target is_dir w (CSnapshot args))) (asked w (CSnapshot args)) fs (harmless (CSnapshot args) view) states saved out.1.
Proof.
  unfold target, runSnapshot, refused. cbn [harmless]. destruct (parseSnapshotArgs is_dir _ args) as [c e] eqn:Ep. cbn [fst].
  pose proof Ep as Hp. apply snapshot_says in Ep as [Hdry Hhelp]. intros Hf. destruct e as [e|].
  { intros Ho. assert (states = [] /\ (out.1 = exitSuccess -> e = ErrSnapshotHelp)) as [-> He].
    { destruct e; injection Ho as <- <- <-; (split; [done|]); try done; intros Hc; exfalso;
        match type of Hc with (snapshot_problem ?w ?c ?p ?k ?t).1 = _ => by destruct (snapshot_problem_code w c p k t) as [E|E]; rewrite E in Hc end. }
    left. split; [done|]. intros Hc. rewrite (He Hc) in Hhelp. destruct (Hhelp eq_refl) as [Hh|Hh];
      rewrite !orb_true_iff, !bool_decide_eq_true; [by left; right|by right]. }
  assert (s_DryRun c = true -> bool_decide ("--dry-run" ∈ args) || bool_decide ("-h" ∈ args) || bool_decide ("--help" ∈ args) = true) as Hd.
  { intros Ht. rewrite !orb_true_iff, !bool_decide_eq_true. left. left. by apply Hdry. }
  clear Hdry Hhelp. set (path := s_BundlePath c) in *.
  assert (forall e, (snapshot_problem w c (PMutation e) (snapshotExitCode e) (OProblem (PMutation e))).1 <> exitSuccess) as Hbad.
  { intros e. destruct (snapshot_problem_code w c (PMutation e) (snapshotExitCode e) (OProblem (PMutation e))) as [-> | ->]; [apply snapshot_fails|done]. }
  unfold appendSnapshot. destruct (validateSnapshotName _); [intros [= <- <- <-]; by apply nothing_fails|].
  destruct (loadSnapshotBundle w (file_at view path) true) as [[b created]|e] eqn:El; [|intros [= <- <- <-]; by apply nothing_fails].
  assert (base w (file_at view path) b) as Hb.
  { unfold loadSnapshotBundle in El. destruct (load_file w (expired w).1 _) as [b0|[e f]] eqn:E; [injection El as <- _; by eapply base_loaded|].
    by destruct (lf_not_exist f). }
  destruct (validateOversightNote _); [intros [= <- <- <-]; by apply nothing_fails|].
  destruct (snapshot_record w c b) as [[[data b'] r]|e] eqn:Er; [|intros [= <- <- <-]; by apply nothing_fails].
  assert (extends w (file_at view path) (asked w (CSnapshot args)) b' r) as Hx.
  { unfold snapshot_record in Er. destruct (Score.SnapshotBundleHash b) as [h|] eqn:Eh; [|done]. destruct (append_last b _ _ _) as [[b1 r1]|] eqn:E; [|done].
    injection Er as _ <- <-. eapply append_last_extends; [done| |done]. split; [done|]. by exists c, h. }
  destruct (s_DryRun c); [intros [= <- <- <-]; left; split; [done|]; intros _; by apply Hd|].
  fold path. destruct (save_or_wait fuel w (expired w).2 fs path b' (s_LockWait c)) as [[st r0]|] eqn:Es; [|done]. cbn [mbind option_bind].
  apply saved_waiting in Es; [|done]. intros [= <- <- <-]. eapply saves_one_write; [done|done| |exact Hbad|].
  - intros [d0 r1]. destruct (String.eqb _ _); [apply exit_with_code|by left].
  - intros s Hs. match goal with |- (snapshot_problem ?w ?c ?p ?k ?t).1 = _ => destruct (snapshot_problem_code w c p k t) as [-> | ->]; [|done] end.
    by apply save_error_exit.
Qed.
End refinement.

(** ** Reading what was written *)

Section reading.
Context `{Unicode} (path : string).

(** The file holds a bundle that verifies and is within the limits of the format. *)
Definition stored (fs : BundleIO.files) (b : bundle) : Prop :=
  exists raw mode, fs !! path = Some (raw, mode) /\ BundleIO.encode_records b = Some raw /\ CaptureStore.storable b.

Definition sound_file (fs : BundleIO.files) : Prop := fs !! path = None \/ exists b, stored fs b.

(** How far a reader reads ahead, and whether it fails in the end, decides only if a load succeeds. *)
Lemma load_lines_same limits ahead ahead' ls : forall pos t rs b b',
  BundleIO.load_lines limits ahead pos t rs ls = Ok b -> BundleIO.load_lines limits ahead' pos t rs ls = Ok b' -> b = b'.
Proof.
  induction ls as [|l ls IH]; intros pos t rs b b'; cbn [BundleIO.load_lines]; [by intros [= <-] [= <-]|].
  destruct (BundleIO.token_too_long l); [done|]. cbv zeta.
  destruct (BundleIO.MaxBytes limits <? ahead _); [done|]. destruct (BundleIO.MaxBytes limits <? ahead' _); [done|].
  destruct (MaxLineSizeBytes <? _); [done|]. destruct (bool_decide _); [apply IH|].
  destruct (BundleIO.MaxRecords limits <=? _); [done|]. destruct (json_parse _ ≫= BundleIO.decode_record); [apply IH|done].
Qed.

Lemma load_same rd rd' b b' :
  BundleIO.r_bytes rd = BundleIO.r_bytes rd' -> BundleIO.LoadReader (Some rd) = Ok b -> BundleIO.LoadReader (Some rd') = Ok b' -> b = b'.
Proof.
  unfold BundleIO.LoadReader, BundleIO.LoadReaderWithLimits. intros Hd. rewrite Hd. destruct (_ || _); [done|].
  destruct (BundleIO.load_lines _ (BundleIO.r_ahead rd) _ _ _ _) as [rs|] eqn:E; [|done].
  destruct (BundleIO.load_lines _ (BundleIO.r_ahead rd') _ _ _ _) as [rs'|] eqn:E'; [|done].
  assert (rs = rs') as -> by (by eapply load_lines_same). destruct (BundleIO.r_fails rd); [done|]. destruct (BundleIO.r_fails rd'); [done|].
  destruct (_ <? _); [done|]. congruence.
Qed.

Lemma loaded_evidence w fs b c b' :
  stored fs b -> load_file w c (file_at fs path) = Ok b' -> CaptureStore.same_evidence b b'.
Proof.
  intros (raw & mode & Hf & He & Hst). destruct (CaptureStore.FileStore.saved_holds b raw Hst He) as (rd & b1 & Hrd & Hl & Hs). injection Hrd as <-.
  unfold load_file, opened, file_at. rewrite Hf. cbn [fmap option_fmap option_map fst]. destruct (open_refused w) as [[forbidden text]|].
  { unfold BundleIO.Load. by destruct c.1. }
  unfold BundleIO.LoadVerified in Hl. destruct (BundleIO.Load false _ false) as [b2|] eqn:E2; [|done].
  assert (b2 = b1) as ->.
  { destruct b2 as [|r0 l]; [done|]. destruct (negb _); [done|]. destruct (Verify _) as [[]|]; [|done]. by injection Hl as <-. }
  unfold BundleIO.Load in E2 |- *. destruct (BundleIO.LoadReader (Some (CaptureStore.FileStore.contents raw))) as [b2|] eqn:E; [|done]. injection E2 as ->.
  destruct c.1; [done|]. destruct (BundleIO.LoadReader (Some (BundleIO.mkReader raw _ _))) as [b3|] eqn:E3; [|done].
  destruct c.2; [done|]. cbn [map_err]. intros [= <-].
  by rewrite (load_same (BundleIO.mkReader raw (read_fails w) (read_ahead w)) (CaptureStore.FileStore.contents raw) b3 b1 eq_refl E3 E).
Qed.

(** What a command adds comes after what it read. *)
Lemma extended_hashes w fs asked b b' r :
  stored fs b -> extends w (file_at fs path) asked b' r -> exists h, hashes b' = hashes b ++ [h].
Proof.
  intros Hst (b0 & ty & data & opts & Hb & _ & _ & ->). exists (Bundle.Hash r). unfold hashes. rewrite map_app. f_equal.
  destruct Hb as [c b0 Hl|b0 Hn|Hn]; [by destruct (loaded_evidence w fs b c b0 Hst Hl)|..];
    destruct Hst as (raw & mode & Hf & _); unfold file_at in Hn; by rewrite Hf in Hn.
Qed.

(** A write leaves the file as it was or with the bundle. *)
Lemma written_stored w fs b states done s :
  writes w path fs b states done -> CaptureStore.storable b -> s ∈ states -> s !! path = fs !! path \/ stored s b.
Proof.
  intros (raw & He & Hs & _) Hst Hin. destruct (proj1 (Forall_forall _ _) Hs s Hin) as [[E|E] _]; [by left|right]. by exists raw, BundleIO.bundleFileMode.
Qed.

Lemma done_stored w fs b states (done : Prop) :
  writes w path fs b states done -> CaptureStore.storable b -> done -> stored (BundleIO.final_state fs states) b.
Proof.
  intros (raw & He & _ & Hf) Hst Hd. exists raw, BundleIO.bundleFileMode. split_and!; [|done|done]. rewrite (Hf Hd). by rewrite lookup_insert_eq.
Qed.

Lemma final_in (fs : BundleIO.files) states : BundleIO.final_state fs states = fs \/ BundleIO.final_state fs states ∈ states.
Proof.
  unfold BundleIO.final_state. destruct (last states) as [s|] eqn:E; [right|by left]. cbn. by apply last_Some_elem_of.
Qed.
End reading.

(** ** Several processes *)

Section processes.
Context `{Unicode} (fuel : nat) (ReadFile : string -> option bytes) (loadEd25519PrivateKey : string -> result key_error bytes).
Context (ed25519_Sign : bytes -> bytes -> bytes) (public : bytes -> bytes) (payload_text : string).
Context (gateway : string -> result string (Z * bytes * bool)) (is_dir : string -> bool) (path : string).

Local Abbreviation asked := (asks ReadFile loadEd25519PrivateKey ed25519_Sign public gateway is_dir).
Local Abbreviation execute := (run_command fuel ReadFile loadEd25519PrivateKey ed25519_Sign public payload_text gateway is_dir).

Record process := mkProcess { p_world : mutation_world; p_command : command }.

(** The files, and the processes that have read the bundle, with the files they saw. *)
Record site := mkSite { disk : BundleIO.files; reading : gmap nat (process * BundleIO.files) }.

(** The process is about the bundle at [path], its temporary file has an unused name, and what it saves is within the limits. *)
Definition admissible (p : process) (fs : BundleIO.files) (saved : option bundle) : Prop :=
  target is_dir (p_world p) (p_command p) = path /\ fresh_name (p_world p) path fs /\
  (forall b, saved = Some b -> CaptureStore.storable b).

(** A process reads the bundle; it takes the lock, writes and ends; or it is killed before or while it writes. A read
    while another process writes sees the old file or the new one, so it is a read before that write or after it.
    With [exclusive] a process reads only when no other one is between its read and its end. *)
Inductive step (exclusive : bool) : site -> site -> Prop :=
| step_read i p s :
    reading s !! i = None -> (exclusive = true -> reading s = ∅) ->
    step exclusive s (mkSite (disk s) (<[i := (p, disk s)]> (reading s)))
| step_finish i p view s states saved out :
    reading s !! i = Some (p, view) -> execute (p_world p) (p_command p) view (disk s) = Some (states, saved, out) ->
    admissible p (disk s) saved ->
    step exclusive s (mkSite (BundleIO.final_state (disk s) states) (delete i (reading s)))
| step_killed i p view s states saved out fs :
    reading s !! i = Some (p, view) -> execute (p_world p) (p_command p) view (disk s) = Some (states, saved, out) ->
    admissible p (disk s) saved -> fs ∈ disk s :: states ->
    step exclusive s (mkSite fs (delete i (reading s))).

Lemma command_refines w c view fs states saved out :
  fresh_name w (target is_dir w c) fs -> execute w c view fs = Some (states, saved, out) ->
  one_write w (target is_dir w c) (file_at view (target is_dir w c)) (asked w c) fs (harmless c view) states saved out.1.
Proof.
  intros Hf. destruct c as [args|args|args|args]; cbn [run_command].
  - apply append_refines; [exact Hf|]. intros Hd. cbn [harmless]. by apply bool_decide_eq_true.
  - intros [= E]. by eapply corroborate_refines.
  - intros [= E]. by eapply init_refines.
  - by apply snapshot_refines.
Qed.

(** What a command does to the bundle: every state holds the old file or its bundle. *)
Lemma command_states p view fs states saved out :
  execute (p_world p) (p_command p) view fs = Some (states, saved, out) -> admissible p fs saved ->
  forall s, s ∈ fs :: states ->
  s !! path = fs !! path \/
  exists b r, extends (p_world p) (file_at view path) (asked (p_world p) (p_command p)) b r /\ stored path s b.
Proof.
  intros He (Ht & Hf & Hst) s Hs. rewrite <- Ht in Hf. pose proof (command_refines _ _ _ _ _ _ _ Hf He) as Hw. rewrite Ht in *.
  apply elem_of_cons in Hs as [->|Hs]; [by left|].
  destruct Hw as [[-> _]|[(b & r & Hb & Hx & Hw) _]]; [by apply not_elem_of_nil in Hs|].
  destruct (written_stored path _ _ _ _ _ _ Hw (Hst b Hb) Hs) as [E|E]; [by left|right]. by exists b, r.
Qed.

(** What holds between the steps. [first] is the bundle at the beginning. *)
Definition settled (exclusive : bool) (first : option bundle) (s : site) : Prop :=
  sound_file path (disk s) /\
  (forall i p view, reading s !! i = Some (p, view) -> sound_file path view /\ (exclusive = true -> view !! path = disk s !! path)) /\
  (exclusive = true -> (size (reading s) <= 1)%nat) /\
  (exclusive = true -> forall b0, first = Some b0 -> exists b, stored path (disk s) b /\ hashes b0 `prefix_of` hashes b).

Lemma sound_same fs fs' : fs' !! path = fs !! path -> sound_file path fs -> sound_file path fs'.
Proof. intros E [Hn|(b & raw & mode & Hf & ?)]; [left; congruence|right; exists b, raw, mode; by rewrite E]. Qed.

Lemma file_stored_same fs fs' b : fs' !! path = fs !! path -> stored path fs b -> stored path fs' b.
Proof. intros E (raw & mode & Hf & ?). exists raw, mode. by rewrite E. Qed.

Lemma stored_inj_raw fs b b' : stored path fs b -> stored path fs b' -> BundleIO.encode_records b = BundleIO.encode_records b'.
Proof. intros (raw & mode & Hf & He & _) (raw' & mode' & Hf' & He' & _). congruence. Qed.

Lemma settled_write exclusive first s i p view states saved out fs :
  settled exclusive first s -> reading s !! i = Some (p, view) ->
  execute (p_world p) (p_command p) view (disk s) = Some (states, saved, out) -> admissible p (disk s) saved -> fs ∈ disk s :: states ->
  settled exclusive first (mkSite fs (delete i (reading s))).
Proof.
  intros (H1 & H2 & H3 & H4) Hi He Ha Hin. destruct (H2 i p view Hi) as [Hv Hsame].
  assert (exclusive = true -> delete i (reading s) = ∅) as Hempty.
  { intros Hx. specialize (H3 Hx). apply map_size_empty_inv. rewrite map_size_delete_Some by (by eexists). lia. }
  destruct (command_states p view (disk s) states saved out He Ha fs Hin) as [E|(b & r & Hx & Hst)].
  - split_and!; cbn [disk reading].
    + by eapply sound_same.
    + intros j q v Hj. apply lookup_delete_Some in Hj as [_ Hj]. destruct (H2 j q v Hj) as [? Hq]. split; [done|]. intros Hx. rewrite E. by apply Hq.
    + intros Hx. rewrite (Hempty Hx). by rewrite map_size_empty; lia.
    + intros Hx b0 Hb0. destruct (H4 Hx b0 Hb0) as (b & Hs & Hp). exists b. split; [by eapply file_stored_same|done].
  - split_and!; cbn [disk reading].
    + right. by exists b.
    + intros j q v Hj. destruct (bool_decide_reflect (exclusive = true)) as [Hex|Hex].
      * rewrite (Hempty Hex) in Hj. by rewrite lookup_empty in Hj.
      * apply lookup_delete_Some in Hj as [_ Hj]. destruct (H2 j q v Hj). by split.
    + intros Hx0. rewrite (Hempty Hx0). by rewrite map_size_empty; lia.
    + intros Hx0 b0 Hb0. exists b. split; [done|]. destruct (H4 Hx0 b0 Hb0) as (b1 & Hs1 & Hp).
      assert (stored path view b1) as Hv1 by (eapply file_stored_same; [by apply Hsame|done]).
      destruct (extended_hashes path _ _ _ _ _ _ Hv1 Hx) as [h ->]. by apply prefix_app_r.
Qed.

Lemma settled_step exclusive first s s' : settled exclusive first s -> step exclusive s s' -> settled exclusive first s'.
Proof.
  intros Hs Hstep. destruct Hstep as [i p s Hi Hx|i p view s states saved out Hi He Ha|i p view s states saved out fs Hi He Ha Hin].
  - destruct Hs as (H1 & H2 & H3 & H4). split_and!; cbn [disk reading]; [done| | |done].
    + intros j q v Hj. apply lookup_insert_Some in Hj as [[-> [= <- <-]]|[_ Hj]]; [by split|by apply H2 in Hj].
    + intros Hex. rewrite (Hx Hex). rewrite map_size_insert_None by done. by rewrite map_size_empty.
  - eapply settled_write; [done..|]. destruct (final_in (disk s) states) as [-> |Hin]; [left|by right].
  - by eapply settled_write.
Qed.

Lemma settled_run exclusive first s s' : rtc (step exclusive) s s' -> settled exclusive first s -> settled exclusive first s'.
Proof. induction 1 as [|s1 s2 s3 Hstep _ IH]; [done|]. intros Hs. by eapply IH, settled_step. Qed.

(** Any number of [atb append], [corroborate], [init] and [snapshot] may run at the same time on one bundle, fail in
    any way or be killed at any moment: the file is always absent or a complete bundle that verifies. If moreover
    none of them reads the bundle while another one is between its read and its end, then the bundle only grows: the records that
    were there before, all that were acknowledged among them, stay in front of the ones that are added. *)
Theorem writers_keep_the_bundle exclusive fs s' :
  rtc (step exclusive) (mkSite fs ∅) s' ->
  fs !! path = None \/ (exists b, stored path fs b) ->
  (disk s' !! path = None \/
   exists raw mode b, disk s' !! path = Some (raw, mode) /\ BundleIO.encode_records b = Some raw /\ Verify b = Ok tt) /\
  (exclusive = true -> forall b, stored path fs b ->
   exists raw mode b', disk s' !! path = Some (raw, mode) /\ BundleIO.encode_records b' = Some raw /\ hashes b `prefix_of` hashes b').
Proof.
  intros Hr Hfs.
  assert (forall first, (first = None \/ exists b, first = Some b /\ stored path fs b) -> settled exclusive first s') as Hall.
  { intros first Hfirst. assert (settled exclusive first (mkSite fs ∅)) as Hs.
    { split_and!; cbn [disk reading]; [exact Hfs|by intros i p view Hi; rewrite lookup_empty in Hi|intros _; rewrite map_size_empty; lia|].
      intros _ b0 ->. destruct Hfirst as [?|(b & [= <-] & Hb)]; [done|]. by exists b0. }
    by eapply settled_run. }
  split.
  - destruct (Hall None (or_introl eq_refl)) as ([Hn|(b & raw & mode & H1 & H2 & H3)] & _); [by left|right].
    exists raw, mode, b. split_and!; [done|done|]. by destruct H3 as (_ & Hv & _).
  - intros Hex b Hb. destruct (Hall (Some b) (or_intror (ex_intro _ b (conj eq_refl Hb)))) as (_ & _ & _ & H4).
    destruct (H4 Hex b eq_refl) as (b' & (raw & mode & E1 & E2 & _) & Hp). by exists raw, mode, b'.
Qed.
End processes.

(** ** The commands *)

Section properties.
Context `{Unicode} (fuel : nat) (ReadFile : string -> option bytes) (loadEd25519PrivateKey : string -> result key_error bytes).
Context (ed25519_Sign : bytes -> bytes -> bytes) (public : bytes -> bytes) (payload_text : string).
Context (gateway : string -> result string (Z * bytes * bool)) (is_dir : string -> bool).

Local Abbreviation asked := (asks ReadFile loadEd25519PrivateKey ed25519_Sign public gateway is_dir).
Local Abbreviation execute := (run_command fuel ReadFile loadEd25519PrivateKey ed25519_Sign public payload_text gateway is_dir).

(** A file with the bundle that was read and one record more, of the event that was asked for. *)
Definition one_more (w : mutation_world) (c : command) (view : BundleIO.files) (f : option (bytes * Z)) : Prop :=
  exists raw b r, f = Some (raw, BundleIO.bundleFileMode) /\ BundleIO.encode_records b = Some raw /\
    extends w (file_at view (target is_dir w c)) (asked w c) b r.

(** What [atb append], [corroborate], [init] and [snapshot] do to the files. Whatever fails and whenever the command is
    interrupted, the bundle is as it was or complete, with one record of the event that was asked for after the records that were
    read; no other file changes but the temporary one. When the command exits with 0, and is not a dry run, a request for
    help or an init where a bundle is, that record is in the file. When it exits with 9, for the lock, nothing was touched. *)
Theorem commands_add_one_record w c view fs states saved out :
  fresh_name w (target is_dir w c) fs -> execute w c view fs = Some (states, saved, out) ->
  (forall s, s ∈ states ->
     (s !! target is_dir w c = fs !! target is_dir w c \/ one_more w c view (s !! target is_dir w c)) /\
     forall q, q <> target is_dir w c -> q <> BundleIO.env_tmp (save_calls w) -> s !! q = fs !! q) /\
  (out.1 = exitSuccess -> harmless c view = false -> one_more w c view (BundleIO.final_state fs states !! target is_dir w c)) /\
  (out.1 = exitLockContention -> states = []).
Proof.
  intros Hf He. destruct (command_refines fuel ReadFile loadEd25519PrivateKey ed25519_Sign public payload_text gateway is_dir w c view fs states saved out Hf He)
    as [[-> Hi]|[(b & r & _ & Hx & raw & Hraw & Hst & Hd) Hc]].
  - split_and!; [|intros E; by rewrite (Hi E)|done]. intros s Hs. by apply not_elem_of_nil in Hs.
  - split_and!; [|intros E _; rewrite (Hd E), lookup_insert_eq; by exists raw, b, r|done].
    intros s Hs. destruct (proj1 (Forall_forall _ _) Hst s Hs) as [[E|E] Hq]; (split; [|exact Hq]); [by left|right]. by exists raw, b, r.
Qed.

(** The lock does not cover the read. Let two of these commands have read the same bundle before either of them
    wrote, and let both succeed: then the second one has put its record where the first one's was. Two events were
    acknowledged, and the bundle, which verifies, has grown by one. *)
Theorem overlapping_commands_lose_a_record path w1 c1 w2 c2 view states1 states2 b1 b2 out1 out2 b :
  target is_dir w1 c1 = path -> target is_dir w2 c2 = path ->
  execute w1 c1 view view = Some (states1, Some b1, out1) ->
  let fs := BundleIO.final_state view states1 in
  execute w2 c2 view fs = Some (states2, Some b2, out2) ->
  fresh_name w1 path view -> fresh_name w2 path fs ->
  stored path view b -> CaptureStore.storable b1 -> CaptureStore.storable b2 ->
  out1.1 = exitSuccess -> out2.1 = exitSuccess -> harmless c1 view = false -> harmless c2 view = false ->
  exists h1 h2, stored path fs b1 /\ hashes b1 = hashes b ++ [h1] /\
    stored path (BundleIO.final_state fs states2) b2 /\ hashes b2 = hashes b ++ [h2].
Proof.
  intros Ht1 Ht2 He1 fs He2 Hf1 Hf2 Hb Hs1 Hs2 Ho1 Ho2 Hh1 Hh2. rewrite <- Ht1 in Hf1. rewrite <- Ht2 in Hf2.
  destruct (command_refines fuel ReadFile loadEd25519PrivateKey ed25519_Sign public payload_text gateway is_dir w1 c1 view view _ _ _ Hf1 He1)
    as [[_ Hi]|[(b1' & r1 & [= <-] & Hx1 & Hw1) _]]; [rewrite (Hi Ho1) in Hh1; done|].
  destruct (command_refines fuel ReadFile loadEd25519PrivateKey ed25519_Sign public payload_text gateway is_dir w2 c2 view fs _ _ _ Hf2 He2)
    as [[_ Hi]|[(b2' & r2 & [= <-] & Hx2 & Hw2) _]]; [rewrite (Hi Ho2) in Hh2; done|].
  rewrite Ht1 in *. rewrite Ht2 in *.
  destruct (extended_hashes path _ _ _ _ _ _ Hb Hx1) as [h1 Hh]. destruct (extended_hashes path _ _ _ _ _ _ Hb Hx2) as [h2 Hh'].
  exists h1, h2. split_and!; [by eapply done_stored|done|by eapply done_stored|done].
Qed.
End properties.

(** ** Examples *)

#[local] Existing Instance ascii_only.

Definition w_save (n : nat) : BundleIO.save_env :=
  BundleIO.mkEnv (fun _ => false) false (fun _ => false) 0 ("run.atb/." +:+ show_int (Z.of_nat n)).

(** A process at a second [n] in which nothing fails. *)
Definition calm (n : nat) : mutation_world :=
  mkWorld None (1770000000000000000 + Z.of_nat n * 1000000000) (Some (replicate 16 (chr (Z.of_nat n)))) "" None None false
    (fun _ => 0) (false, false, false) (fun _ => BundleIO.Acquired) (fun _ => 0) (fun _ => false) false (w_save n) false.

(** No keys, no documents, no gateway and no directories. *)
Definition no_key (_ : string) : result key_error bytes := Err (mkKeyError true false "").
Definition no_file (_ : string) : option bytes := None.
Definition toy_sign (_ m : bytes) : bytes := Sha256.sum256 m.
Definition no_gateway (_ : string) : result string (Z * bytes * bool) := Err "".
Definition no_dir (_ : string) : bool := false.

Definition w_run (n : nat) (c : command) (view fs : BundleIO.files) : option run :=
  run_command 5 no_file no_key toy_sign id "" no_gateway no_dir (calm n) c view fs.

Definition w_after (fs : BundleIO.files) (r : option run) : BundleIO.files := match r with Some (states, _, _) => BundleIO.final_state fs states | None => fs end.
Definition w_saved (r : option run) : bundle := match r with Some (_, Some b, _) => b | _ => [] end.
Definition w_exit (r : option run) : option Z := match r with Some (_, _, out) => Some out.1 | None => None end.

Definition json_of (k v : string) : string := S_of (B "{" ++ [chr 34] ++ B k ++ [chr 34] ++ B ":" ++ [chr 34] ++ B v ++ [chr 34] ++ B "}").

Definition c_first : command := CAppend ["deploy.started"; json_of "by" "one"].
Definition c_second : command := CAppend ["--format=json"; "deploy.checked"; "--data"; json_of "by" "two"; "--actor-id=ci"].

Definition fs_init : BundleIO.files := Eval vm_compute in w_after ∅ (w_run 1 (CInit ["--manifest-version"; "2"]) ∅ ∅).
Definition b_init : bundle := Eval vm_compute in w_saved (w_run 1 (CInit ["--manifest-version"; "2"]) ∅ ∅).
Definition run_first : option run := Eval vm_compute in w_run 2 c_first fs_init fs_init.
Definition fs_first : BundleIO.files := Eval vm_compute in w_after fs_init run_first.
Definition run_second : option run := Eval vm_compute in w_run 3 c_second fs_init fs_first.
Definition run_serial : option run := Eval vm_compute in w_run 3 c_second fs_first fs_first.

Definition types_at (fs : BundleIO.files) : list string :=
  match load_file (calm 0) (false, false) (file_at fs DefaultPath) with Ok b => map (fun r => Event.Type_ (Event_ r)) b | Err _ => [] end.

(** One after the other both events are there; side by side the first is lost, although both commands exit with 0. *)
Example serial_and_overlapping :
  (w_exit run_first, w_exit run_serial, types_at (w_after fs_first run_serial)) =
    (Some 0, Some 0, [ManifestEventType; "deploy.started"; "deploy.checked"]) /\
  (w_exit run_first, w_exit run_second, types_at (w_after fs_first run_second)) = (Some 0, Some 0, [ManifestEventType; "deploy.checked"]).
Proof. vm_compute. split; reflexivity. Qed.

(** A snapshot names the hash of what was read; it checks as long as the records before it are those. *)
Definition run_snapshot : option run := Eval vm_compute in w_run 4 (CSnapshot ["nightly"; "--actor-role"; "reviewer"; "--lock-wait=1.5s"]) fs_first fs_first.

Example snapshot_checks :
  match w_exit run_snapshot, load_file (calm 0) (false, false) (file_at (w_after fs_first run_snapshot) DefaultPath) with
  | Some 0, Ok b => (length b, Score.VerifySnapshotHashes "" b) = (3%nat, [])
  | _, _ => False
  end.
Proof. vm_compute. reflexivity. Qed.

Local Abbreviation w_execute := (run_command 5 no_file no_key toy_sign id "" no_gateway no_dir).

(** The parts of a run that is known to end. *)
Definition states_of (r : option run) : list BundleIO.files := match r with Some (states, _, _) => states | None => [] end.
Definition out_of (r : option run) : Z * output := match r with Some (_, _, out) => out | None => (0, ONothing) end.

Lemma first_runs : w_execute (calm 2) c_first fs_init fs_init = Some (states_of run_first, Some (w_saved run_first), out_of run_first).
Proof. vm_compute. reflexivity. Qed.
Lemma second_runs : w_execute (calm 3) c_second fs_init fs_first = Some (states_of run_second, Some (w_saved run_second), out_of run_second).
Proof. vm_compute. reflexivity. Qed.
Lemma serial_runs : w_execute (calm 3) c_second fs_first fs_first = Some (states_of run_serial, Some (w_saved run_serial), out_of run_serial).
Proof. vm_compute. reflexivity. Qed.

Lemma init_stored : stored DefaultPath fs_init b_init.
Proof.
  unfold stored. destruct (fs_init !! DefaultPath) as [[raw mode]|] eqn:E; [|vm_compute in E; discriminate]. exists raw, mode. split; [done|]. split.
  - revert E. vm_compute. intros [= <- _]. reflexivity.
  - apply CaptureRecovery.CaptureRecovery.check_storable_ok. vm_compute. reflexivity.
Qed.

Lemma storable_saves : CaptureStore.storable (w_saved run_first) /\ CaptureStore.storable (w_saved run_second) /\ CaptureStore.storable (w_saved run_serial).
Proof. split_and!; apply CaptureRecovery.CaptureRecovery.check_storable_ok; vm_compute; reflexivity. Qed.

Lemma names_fresh : fresh_name (calm 2) DefaultPath fs_init /\ fresh_name (calm 3) DefaultPath fs_first.
Proof. split; (split; [by vm_compute|vm_compute; reflexivity]). Qed.

Lemma commands_add_one_record_witness :
  one_more no_file no_key toy_sign id no_gateway no_dir (calm 2) c_first fs_init (BundleIO.final_state fs_init (states_of run_first) !! DefaultPath).
Proof.
  apply (proj1 (proj2 (commands_add_one_record 5 no_file no_key toy_sign id "" no_gateway no_dir (calm 2) c_first fs_init fs_init
    (states_of run_first) (Some (w_saved run_first)) (out_of run_first) (proj1 names_fresh) first_runs))); vm_compute; reflexivity.
Defined.

Lemma overlapping_commands_lose_a_record_witness :
  exists h1 h2, stored DefaultPath fs_first (w_saved run_first) /\ hashes (w_saved run_first) = hashes b_init ++ [h1] /\
    stored DefaultPath (BundleIO.final_state fs_first (states_of run_second)) (w_saved run_second) /\ hashes (w_saved run_second) = hashes b_init ++ [h2].
Proof.
  apply (overlapping_commands_lose_a_record 5 no_file no_key toy_sign id "" no_gateway no_dir DefaultPath (calm 2) c_first (calm 3) c_second fs_init
    (states_of run_first) (states_of run_second) (w_saved run_first) (w_saved run_second) (out_of run_first) (out_of run_second) b_init).
  - reflexivity.
  - reflexivity.
  - exact first_runs.
  - exact second_runs.
  - exact (proj1 names_fresh).
  - exact (proj2 names_fresh).
  - exact init_stored.
  - exact (proj1 storable_saves).
  - exact (proj1 (proj2 storable_saves)).
  - reflexivity.
  - reflexivity.
  - vm_compute. reflexivity.
  - vm_compute. reflexivity.
Defined.

Local Abbreviation w_step := (step 5 no_file no_key toy_sign id "" no_gateway no_dir DefaultPath).
Definition p_first : process := mkProcess (calm 2) c_first.
Definition p_second : process := mkProcess (calm 3) c_second.

(** Two commands one after the other. *)
Lemma serial_steps : rtc (w_step true) (mkSite fs_init ∅) (mkSite (BundleIO.final_state fs_first (states_of run_serial)) (delete 1%nat (<[1%nat := (p_second, fs_first)]> (delete 0%nat (<[0%nat := (p_first, fs_init)]> ∅))))).
Proof.
  eapply rtc_l; [apply (step_read _ _ _ _ _ _ _ _ _ true 0%nat p_first (mkSite fs_init ∅)); [done|done]|]. cbn [disk reading].
  eapply rtc_l.
  { eapply (step_finish _ _ _ _ _ _ _ _ _ true 0%nat p_first fs_init (mkSite fs_init _)); [apply lookup_insert_eq|exact first_runs|].
    split_and!; [reflexivity|exact (proj1 names_fresh)|]. intros b [= <-]. exact (proj1 storable_saves). }
  cbn [disk reading]. change (BundleIO.final_state fs_init (states_of run_first)) with fs_first.
  eapply rtc_l; [apply (step_read _ _ _ _ _ _ _ _ _ true 1%nat p_second (mkSite fs_first _)); [done|intros _; vm_compute; reflexivity]|]. cbn [disk reading].
  apply rtc_once. eapply (step_finish _ _ _ _ _ _ _ _ _ true 1%nat p_second fs_first (mkSite fs_first _)); [apply lookup_insert_eq|exact serial_runs|].
  split_and!; [reflexivity|exact (proj2 names_fresh)|]. intros b [= <-]. exact (proj2 (proj2 storable_saves)).
Qed.

Lemma writers_keep_the_bundle_witness :
  exists raw mode b', BundleIO.final_state fs_first (states_of run_serial) !! DefaultPath = Some (raw, mode) /\
    BundleIO.encode_records b' = Some raw /\ hashes b_init `prefix_of` hashes b'.
Proof.
  exact (proj2 (writers_keep_the_bundle 5 no_file no_key toy_sign id "" no_gateway no_dir DefaultPath true fs_init _ serial_steps
    (or_intror (ex_intro _ b_init init_stored))) eq_refl b_init init_stored).
Defined.
End Mutate.
